(* ===== verification/_CoqProject ===== *)
-Q . S2P
Prelude.v
Atomic.v
LockQueue.v
MsQueue.v
QueueSpec.v
MallocHelper.v
CoremuUtils.v
Core.v
Intr.v
Pause.v
BiosUtil.v
E820.v
Pmm.v
Bregs.v
Lzma.v
Kbd.v
Block.v
CdEmu.v
Disk.v
Clock.v
Stacks.v
Boot.v
Output.v
VgaTables.v
VgaIo.v
VgaFb.v
Vga.v
VgaText.v
VgaState.v
Pci.v
PciBars.v
UsbHid.v
Ports.v
Ps2.v
System.v
Serial.v
Paravirt.v
Tables.v
Smbios.v
MpTable.v
Ata.v
AtaDisk.v
AtaSafe.v
CdBoot.v
OptionRom.v
Alloc.v
Acpi.v
AcpiFound.v
