(* ===== verification/Prelude.v ===== *)
(** * A verification library for COREMU

    COREMU runs every virtual core of a full-system emulator on a thread of its own.
    The repository has two programs.  The runtime ([src/main], [src/incl]) gives the
    emulator cores, a queue of pending interrupts per core, signals between cores, a
    way to pause all of them, and scheduling.  The firmware ([src/bios/seabios]) is
    what the emulated machine boots: it builds the memory map and the memory manager,
    assigns PCI resources, describes the machine in tables, finds drives, and then
    serves the software interrupts of the guest.

    ** How the parts interact

    In the runtime a device or core thread calls [coremu_send_intr], which appends to
    the target core's queue and, when the number of waiting interrupts passes an
    adaptive threshold, sends a real-time signal; the target's handler empties the
    queue through a callback of the emulator.  The queue is one of two
    implementations of [incl/queue.h], built on the atomic operations.

    In the firmware [malloc_setup] takes its zones from the e820 map, and the drive
    tables and the tables that describe the machine are allocated from those zones.
    The contents of the tables come from the configuration interface of the emulator
    ([Paravirt]) and from the enumeration of PCI functions ([Pci]), through the
    formatted output of [Output].  Builders of several tables are proved against what
    [Alloc] says of the manager: a block handed out meets none in use, so a table stands
    while others are built.  Roms found on PCI functions and in files of the emulator
    are copied below the BIOS, run, and enter the boot tables that [Boot] works on
    ([OptionRom]).  Interrupts 0x13 and 0x40 turn register contents into
    requests; [process_op] hands them to a driver, of which the ATA and ATAPI ones are
    modelled ([Ata]).  The reads of an emulated drive go through the disc under it:
    [CdEmu.block_reader] states what they need, [AtaDisk.atapi_reads_blocks] shows that
    packet commands give it, and [CdBoot] sets up the data area those reads consult.
    Keys and clock ticks reach the BIOS data area from the PS/2 port ([Ps2]) or USB
    reports ([UsbHid]) and interrupts 0x08 and 0x70, and leave it through 0x16 and
    0x1a.  Text goes out through interrupt 0x10 of the VGA firmware.  Set-up runs in
    cooperative threads; then the boot menu and the boot order choose what interrupt
    0x19 starts.

    ** Files

    Runtime ([src/main], [src/incl]):
    - [Atomic]: [coremu-atomic.h], [atomic-template.h], [coremu-spinlock.h]; one
      function per locked instruction.
    - [LockQueue]: [lock-queue.c]; whole functions, and the interleaving [tick] of
      threads that stop at every shared access.
    - [MsQueue]: [ms-queue.c]; the same two views of the lock free queue.
    - [QueueSpec]: [queue.h]; the class [Queue], its laws, and the two instances.
    - [MallocHelper]: [malloc-helper.c]; [CoremuUtils]: [utils.c], [hw.c].
    - [Core]: [core.c], [core.h], [sched.c]; [Pause]: the pause protocol of [core.c].
    - [Intr]: [intr.c], over any [Queue].

    Firmware, memory and tables ([src/bios/seabios/src]):
    - [BiosUtil]: [util.c], [util.h], [types.h]; flat memory and its routines.
    - [E820]: [memmap.c]; [Pmm]: [pmm.c]; [Lzma]: [lzmadecode.c]; [Output]: [output.c].
    - [Bregs]: [bregs.h], [biosvar.h], [farptr.h], structure layouts of [disk.h].
    - [Paravirt]: [paravirt.c]; [Tables]: lemmas on areas of memory that hold tables;
      [Smbios]: [smbios.c]; [MpTable]: [mptable.c], [pirtable.c].
    - [Alloc]: the memory manager as table builders see it; [Acpi]: [acpi.c], [acpi.h],
      and each table alone; [AcpiFound]: all tables together, from the root pointer.

    Firmware, devices and drives:
    - [Kbd]: [kbd.c]; [Ps2]: [ps2port.c], [mouse.c]; [UsbHid]: [usb-hid.c].
    - [Clock]: [clock.c] and [floppy_tick] of [floppy.c]; [Serial]: [serial.c].
    - [Ports]: the monad of code that works on ports and memory.
    - [Pci]: [pci.c], [pcibios.c] and the assignment of [pciinit.c]; [PciBars]: its
      correctness.
    - [Block]: [block.c], [disk.h], requests of [cdrom.c]; [CdEmu]: correctness of the
      reads of [cdrom.c]; [Disk]: [disk.c] and the status call of [cdrom.c].
    - [Ata]: [ata.c], [blockcmd.c]; [AtaDisk]: a drive that keeps to the protocol, and
      correctness on it; [AtaSafe]: safety with any device.
    - [CdBoot]: booting from a disc, [cdrom.c]; [OptionRom]: [optionroms.c].
    - [Stacks]: [stacks.c]; [Boot]: [boot.c], [boot.h]; [System]: [system.c], [misc.c].

    VGA firmware ([src/bios/seabios/vgasrc]):
    - [VgaTables]: [vgatables.c]; [VgaIo]: [vgaio.c]; [VgaFb]: [vgafb.c]; [Vga]: [vga.c];
      [VgaText] and [VgaState]: correctness of the text functions and of the rest.

    This file holds what they share: machine integers, automation, and lemmas on
    lists and maps.

    ** How the code is represented

    A [w]-bit unsigned object is an integer in [0 .. 2^w), and every store or
    arithmetic result that C reduces is written [u8], [u16], [u32] or [u64] here;
    signed objects are [s32] and [s64].  Firmware memory is a total function from flat
    addresses to bytes, so a caller's buffer may alias the BIOS data area; the data
    areas, the keyboard ring, the drive parameter tables and the firmware tables live
    in that memory at offsets computed from the packed structures.  Runtime heaps are
    finite maps from addresses to nodes, so use after free can be seen.  Global
    variables are fields of one state record per component.  A null or dangling
    dereference, a failed assertion and an access outside a buffer are values ([None]
    or a [Fault]), never defaults.

    Devices are states of any type with the operations of a class: [PortDevice] (bytes
    of ports, the time stamp counter, [yield]), [IdePorts] (words of ports),
    [PciConfig] (configuration space), [VgaDevice] (registers of the adapter), [Sink]
    (where characters of formatted output go).  Code is written in the monads [P] of
    [Ports] and [V] of [VgaIo] over them.  A theorem takes any device, or one whose
    behaviour is given by an instance: [AtaDisk.drive_ports] is a drive that follows
    the ATA protocol.  Other code that waits for something outside itself (an
    interrupt, another thread, the C allocator, a callback of the emulator, the code in
    an option ROM, the compiled description of devices) takes it as an argument.

    ** What is shown

    - Queues (C1, C2): first in, first out under every interleaving, for the queue
      with a lock, and for the lock free one while no freed node is used again. The
      interrupt code is proved against the interface that both refine.
    - Interrupts and pause (C16, C17): every interrupt sent is delivered once and in
      order; the pause protocol stops all cores where no wakeup is spurious and no
      core is woken or marked by others.
    - Memory of the firmware (C3, C4, C27, C28, C30, C32): the map of the machine is
      what the requests say, latest first, and interrupt 0x15 lists it; for low
      requests of at most 256 KiB the memory manager never hands out overlapping
      blocks, and when all are freed no record is left and every zone but the low one
      is as at the start; growing the low zone moves the extended data area without
      loss; the block move copies what its descriptors name and changes descriptors
      only as the processor and the interface say.
    - Tables (C21, C24, C37, C38, C40): a reader who follows the standards finds, from
      the anchors in memory, the entries that describe the machine and nothing else,
      whatever has been allocated before, where the emulator adds no tables of its own
      and its strings are not empty; the objects of the processors are well formed for
      every number of them; what an operating system stores for its resume is found
      again.
    - Text and output (C7, C26, C31): formatted output stays in its buffer; the screen
      behaves as a terminal; saved state is restored.
    - PCI and option ROMs (C8, C22, C23): the regions that the default mapping assigns
      are aligned and do not meet, on a machine without bridges and 64-bit regions;
      the right image of a ROM is copied whole and, if its sum is zero, counted, and
      run if it is a VGA rom or has a PnP header; without an image or room nothing
      changes; the boot tables list what the ROMs offer.
    - Threads of the firmware (C14, C29): the ring of records is a list that is
      rotated, and with locks taken in order all threads end.
    - Boot (C15, C20, C33): devices are tried in the order configured, the line picked
      in the menu comes first, and a disc with a boot record is loaded and described
      as its emulated drive needs.
    - Drives (C5, C12, C34, C35): logical geometries fit the drive, if the one an ATA
      drive reports does; accesses by cylinder, head and sector start on the drive and
      have the count asked for; errors are reported and remembered; fewer than 256
      sectors of an emulated drive are read as the bytes of its image.
    - ATA and ATAPI (C6, C18, C25, C39): on a drive that keeps to the protocol a
      request for one sector or more by programmed I/O moves exactly the sectors
      named, for 28 and 48-bit addresses and 16 and 32-bit ports; with any device it
      returns and stays in its buffer; packet reads give the blocks that emulation
      relies on; a bus master is told of a table only if that covers the buffer in
      regions the hardware can transfer.
    - Keyboard, mouse and USB (C10, C11, C19): the ring in the data area is a bounded
      queue; USB reports that name no key twice become the scan codes of a keyboard;
      commands to a PS/2 device end and leave the controller as it was.
    - Decoder (C9): any input is decoded without leaving the buffers, and stops.
    - Clocks (C13, C36): waits end at the right interrupt, and what is set is read
      back.

    Further theorems stand beside these.  Runtime: racing lazy allocations keep one
    block, both queues refine one abstract queue, interleaved threads do not fault
    (under the conditions of the order theorems), one thread at most is
    inside the lock of the queue, mutexes exclude, the signal threshold stays in range.  Memory: routines and number conversions,
    formatted output shows the text its format gives, LZMA matches copy what they
    name.  Drives: addresses and cylinders correspond one to one, reported geometry
    agrees with reported size, boot preparation maps each disk once, the map of
    drives does not depend on the order in which they are found, locks of a removable
    drive count without wrapping.  PCI functions are enumerated once each.  Keyboard and
    clock: the ring stays well formed, modifiers follow the keys, a pressed key is
    what a read returns, a read wakes, ticks count days, the wait for the chip ends.
    Text: a window scrolls as asked, pixels written are read back.  Tables: fields of
    the description of the machine are found, files are each found once and read whole, interrupts are
    routed to the line of their pin, the routing table sums to zero.

    Some theorems show where the code does not do what it means to, each by a concrete
    run or for a class of inputs: [Atomic.bit_test_undefined],
    [MsQueue.ms_queue_use_after_free], [MsQueue.ms_queue_reuse_breaks],
    [QueueSpec.ms_dequeue_sigmask], [Pause.wait_all_cores_pause_stale],
    [Pause.wait_all_cores_pause_fooled], [Pause.wait_all_cores_pause_livelock],
    [Pmm.pmm_oversized_low_request], [Pmm.pmm_oversized_overlaps],
    [CdEmu.cdemu_read_drops_sector], [CdEmu.cdemu_read_above_1m],
    [Disk.basic_access_past_end], [Block.ata_geometry_exceeds],
    [Disk.disk_1308_one_cylinder], [Clock.delay_wraps],
    [Clock.alarm_off_reports_old], [Kbd.kbd_stale_prefix],
    [VgaState.read_pixel_wrong_byte], [VgaState.scroll_cga_two_rows],
    [VgaState.grey_scale_keeps_colour], [VgaState.func_info_misplaced],
    [VgaState.load_font_divide_error], [PciBars.init_device_breaks_bridge],
    [PciBars.ide_functions_share_ports], [UsbHid.repeated_usage_repeats_codes],
    [UsbHid.rollover_releases_keys],
    [UsbHid.control_released_early], [Serial.serial_timeout_missed],
    [Serial.tick_timer_ignores_remaining], [Paravirt.table_after_large_lost],
    [Paravirt.table_overflows_buffer], [Smbios.empty_string_breaks_walk],
    [Smbios.memory_error_handle_stale],
    [AtaDisk.zero_count_overruns], [OptionRom.zero_length_image_loops],
    [OptionRom.own_next_header_loops], [OptionRom.rom_file_over_bios] and
    [AcpiFound.numa_data_not_freed].  The general theorems carry the conditions that these
    runs violate, and each says so in its comment.

    ** Fuel and bounds

    Structural recursion is used where a loop counts down.  Otherwise:
    - retry loops of [MsQueue.enqueue] and [MsQueue.dequeue] run alone: the refinement
      theorem shows that the fuel the instance passes is enough, so calls return;
      interleaved threads need no fuel, they are a step relation;
    - the receive loop of [Intr] gets one round more than interrupts wait, and the
      delivery theorem shows that it then returns;
    - [E820] loops run on the number of entries left; [add_e820] keeps at most two
      more entries than it had, which is why fifteen requests fit in 32 entries;
    - [Lzma]'s main loop runs on the output space left, of which each round uses some,
      and the theorem shows it is never exhausted;
    - [BiosUtil.iomemcpy] needs one unit for each 2048 bytes, [strlen] one more than
      the length, [get_keystroke] one for each 50 ms;
    - [Output.bvprintf] needs one unit per character of the format and [putuint_loop]
      11, one more than the digits of a 32-bit number; [Smbios] gives the processor
      name 8, and [Smbios.cpu_text] shows it is enough;
    - [Block.large_shift] runs 16 times: [large_shift_done] shows that a 16-bit
      cylinder count needs fewer; [Block.send_disk_op] lets [process_op]
      forward once, from an emulated drive to the disc drive under it;
    - [Stacks] is a step relation, and the theorem on [wait_threads] shows that enough
      steps exist; [Boot.do_boot] gets 8 rounds, one for each digit of a 32-bit order, the
      last of which is 0 unless eight choices were pushed on it;
    - [Pci.pci_scan] gets 0x10001 rounds, one more than there are functions, and
      [foreachpci_complete] shows that the enumeration ends; [MpTable.cpu_loop] counts
      up to the number of processors, at most 255;
    - the loops of [Vga.write_tab] end within 8 columns, those of [UsbHid.procmodkey]
      within 8 bits; [Ps2.recv_loop] and [AtaSafe]'s [poll] are shown to return from the
      time limits of the code, whatever the device does; [Ps2.wait_status] counts to
      10000 as in the code;
    - [Ata.pio_loop] gets one round per block, at most 65536;
    - [OptionRom.find_image], [add_bcvs] and [register_roms] get one unit per image,
      connection vector and place in the area; the theorems ask for more than there are
      and show that the search then returns, and two theorems show chains that no fuel
      is enough for.  The loops of [Acpi] run on counts; [find_facs] on the entries that
      the length of the root table leaves room for;
    - waits of [Clock] and [Kbd] take a sequence of observations, and the theorems
      name an observation that ends them and show that this much fuel is enough.

    ** Limits

    Interleaving is sequentially consistent; x86 store buffering is not modelled, and
    the queues use locked instructions at their decisive steps.  In the lock free
    queue a freed node may be handed out again or overwritten at any time, and the
    theorem on its order is for runs in which neither happens to a node that was in the
    queue, as with a free list that is never returned; its counters do not wrap within a
    run.  Copies between segments work with 16-bit offsets in [BiosUtil]; those of the
    VGA firmware are modelled for offsets below 64 KiB, which every standard mode keeps
    to.  The firmware is modelled in flat mode, one
    interrupt at a time; debug output is left out.  A device does not write memory
    except through the code's own port reads, so bus-master transfers are modelled to
    the point where the device has its table.  Threads that run while code waits
    ([yield]) may change the device, not the memory the code works on.

    ** Not modelled

    - USB host controllers, hubs and mass storage, and the floppy controller: their
      behaviour is that of descriptors shared with the device.
    - Processor and chipset set-up ([mtrr.c], [shadow.c], [smm.c], [smp.c], [pic.c]) and
      the 16-bit entry code: assembly or register writes.
    - [post.c], which calls the set-up functions in order; in [ata.c] the detection of
      drives and the set-up of channels, a dialogue with devices at start-up, and in
      [cdrom.c] the allocation of the record of the emulated drive.
    - Power management and the calls of [pnpbios.c], [apm.c] and [resume.c]: single port
      writes and jumps.  The search for the vector of a resume is modelled ([Acpi]).
    - The theorems on the ACPI tables are for an emulator that describes no memory nodes
      and no tables of its own; the code for both is modelled.
    - [ramdisk.c] and [coreboot.c], compiled out in this configuration; Cirrus and
      vendor hooks of the VGA firmware, register tables.
    - [timer.c] and the programs of [src/utils], which are system calls; build scripts. *)

From Stdlib Require Export ZArith Lia Bool.
From stdpp Require Export functions base tactics numbers option list gmap fin_maps strings.
#[global] Open Scope Z_scope.

(** ** Machine integers *)

(** [wrap w x] is the value an unsigned [w]-bit C object holds after [x] is
    stored in it. *)
Definition wrap (w x : Z) : Z := x mod 2 ^ w.

(** [swrap w x] is the value a two's complement signed [w]-bit object holds
    after [x] is stored in it. *)
Definition swrap (w x : Z) : Z := (x + 2 ^ (w - 1)) mod 2 ^ w - 2 ^ (w - 1).

Declare Scope coremu_scope.
Delimit Scope coremu_scope with cm.
Notation "'u8' x" := (wrap 8 x) (at level 10, x at level 9) : coremu_scope.
Notation "'u16' x" := (wrap 16 x) (at level 10, x at level 9) : coremu_scope.
Notation "'u32' x" := (wrap 32 x) (at level 10, x at level 9) : coremu_scope.
Notation "'u64' x" := (wrap 64 x) (at level 10, x at level 9) : coremu_scope.
Notation "'s32' x" := (swrap 32 x) (at level 10, x at level 9) : coremu_scope.
Notation "'s64' x" := (swrap 64 x) (at level 10, x at level 9) : coremu_scope.
#[global] Open Scope coremu_scope.

(** [in_u w x]: [x] is representable as an unsigned [w]-bit integer. *)
Definition in_u (w x : Z) : Prop := 0 <= x < 2 ^ w.

Create HintDb coremu.
Create Rewrite HintDb wrap.

Section Wrap.
Context (w : Z) (Hw : 0 <= w).

Lemma wrap_range x : in_u w (wrap w x).
Proof using Hw. apply Z.mod_pos_bound. lia. Qed.

Lemma wrap_small x : in_u w x -> wrap w x = x.
Proof using. apply Z.mod_small. Qed.

Lemma wrap_idem x : wrap w (wrap w x) = wrap w x.
Proof using Hw. apply wrap_small, wrap_range. Qed.

Lemma wrap_add_l x y : wrap w (wrap w x + y) = wrap w (x + y).
Proof using. apply Zplus_mod_idemp_l. Qed.

Lemma wrap_add_r x y : wrap w (x + wrap w y) = wrap w (x + y).
Proof using. apply Zplus_mod_idemp_r. Qed.

Lemma wrap_sub_l x y : wrap w (wrap w x - y) = wrap w (x - y).
Proof using. apply Zminus_mod_idemp_l. Qed.

Lemma wrap_sub_r x y : wrap w (x - wrap w y) = wrap w (x - y).
Proof using. apply Zminus_mod_idemp_r. Qed.

Lemma wrap_0 : wrap w 0 = 0.
Proof using. apply Zmod_0_l. Qed.
End Wrap.

Lemma swrap_range w x : 0 < w -> - 2 ^ (w - 1) <= swrap w x < 2 ^ (w - 1).
Proof.
  intros. unfold swrap.
  pose proof (Z.mod_pos_bound (x + 2 ^ (w - 1)) (2 ^ w)).
  assert (2 ^ w = 2 * 2 ^ (w - 1)) as E.
  { rewrite <- Z.pow_succ_r by lia. f_equal. lia. }
  lia.
Qed.

Lemma swrap_small w x :
  0 < w -> - 2 ^ (w - 1) <= x < 2 ^ (w - 1) -> swrap w x = x.
Proof.
  intros. unfold swrap.
  assert (2 ^ w = 2 * 2 ^ (w - 1)) as E.
  { rewrite <- Z.pow_succ_r by lia. f_equal. lia. }
  rewrite Z.mod_small; lia.
Qed.

#[export] Hint Resolve wrap_range : coremu.
#[export] Hint Rewrite wrap_idem wrap_add_l wrap_add_r wrap_sub_l wrap_sub_r
  using lia : wrap.

(** ** Tactics *)

(** Split boolean tests that appear in hypotheses or the goal into the
    propositions they decide. *)
Ltac bool_to_prop :=
  repeat match goal with
  | H : (_ && _) = true |- _ => apply andb_true_iff in H as [? ?]
  | H : (_ && _) = false |- _ => apply andb_false_iff in H
  | H : (_ || _) = false |- _ => apply orb_false_iff in H as [? ?]
  | H : (_ || _) = true |- _ => apply orb_true_iff in H
  | H : negb _ = true |- _ => apply negb_true_iff in H
  | H : negb _ = false |- _ => apply negb_false_iff in H
  | H : (_ <? _) = true |- _ => apply Z.ltb_lt in H
  | H : (_ <? _) = false |- _ => apply Z.ltb_ge in H
  | H : (_ <=? _) = true |- _ => apply Z.leb_le in H
  | H : (_ <=? _) = false |- _ => apply Z.leb_gt in H
  | H : (_ =? _) = true |- _ => apply Z.eqb_eq in H
  | H : (_ =? _) = false |- _ => apply Z.eqb_neq in H
  end.

(** Case on the innermost boolean test or option match of the goal. *)
Ltac case_test :=
  match goal with
  | |- context [if ?b then _ else _] =>
      lazymatch type of b with
      | bool => let E := fresh "E" in destruct b eqn:E; bool_to_prop
      end
  end.

(** ** Outcomes of C code *)

(** [Ok] is a normal return, [Abort] a call of [abort] or a failed [assert],
    [Fault] an access the C abstract machine gives no meaning to. *)
Inductive outcome (A : Type) : Type :=
| Ok (a : A)
| Abort
| Fault.
Arguments Ok {A} _.
Arguments Abort {A}.
Arguments Fault {A}.

Definition obind {A B} (m : outcome A) (k : A -> outcome B) : outcome B :=
  match m with Ok a => k a | Abort => Abort | Fault => Fault end.

Notation "'let!' x := m 'in' k" := (obind m (fun x => k))
  (at level 10, x name, m at level 200, k at level 200) : coremu_scope.
Notation "'let!' ' p := m 'in' k" := (obind m (fun x => let p := x in k))
  (at level 10, p pattern, m at level 200, k at level 200) : coremu_scope.

(** Reading through a pointer faults when nothing is allocated there. *)
Definition of_option {A} (o : option A) : outcome A :=
  match o with Some a => Ok a | None => Fault end.

Definition oassert (b : bool) : outcome unit := if b then Ok tt else Abort.

Lemma obind_ok {A B} (m : outcome A) (k : A -> outcome B) b :
  obind m k = Ok b -> exists a, m = Ok a /\ k a = Ok b.
Proof. destruct m; simpl; intros; simplify_eq; eauto. Qed.

Lemma obind_assoc {A B C} (m : outcome A) (f : A -> outcome B) (g : B -> outcome C) :
  obind (obind m f) g = obind m (fun a => obind (f a) g).
Proof. by destruct m. Qed.

Ltac inv_ok :=
  repeat match goal with
  | H : obind _ _ = Ok _ |- _ =>
      let a := fresh "a" in let E := fresh "E" in
      apply obind_ok in H as (a & E & H)
  | H : Ok _ = Ok _ |- _ => injection H as H; subst
  | H : Abort = Ok _ |- _ => discriminate H
  | H : Fault = Ok _ |- _ => discriminate H
  | H : of_option ?o = Ok _ |- _ => destruct o eqn:?; simpl in H
  | H : oassert ?b = Ok _ |- _ => destruct b eqn:?; simpl in H
  end.

(** Code with a second way out: [Ok None] is a call that never returns, or an early
    return, as the component says. *)
Definition rbind {A B} (m : outcome (option A)) (k : A -> outcome (option B)) : outcome (option B) :=
  let! r := m in match r with Some a => k a | None => Ok None end.
Notation rret a := (Ok (Some a)).
Definition returns {A} (m : outcome A) : outcome (option A) := let! a := m in rret a.

Notation "'let?' x := m 'in' k" := (rbind m (fun x => k))
  (at level 10, x name, m at level 200, k at level 200) : coremu_scope.
Notation "'let?' ' p := m 'in' k" := (rbind m (fun x => let p := x in k))
  (at level 10, p pattern, m at level 200, k at level 200) : coremu_scope.

Lemma rbind_some {A B} (m : outcome (option A)) (k : A -> outcome (option B)) b :
  rbind m k = Ok (Some b) -> exists a, m = Ok (Some a) /\ k a = Ok (Some b).
Proof. destruct m as [[a|]| |]; simpl; intros; simplify_eq; eauto. Qed.

Lemma returns_some {A} (m : outcome A) a : returns m = Ok (Some a) -> m = Ok a.
Proof. destruct m; unfold returns; simpl; congruence. Qed.

(** ** Lists *)

Section Lists.
Context {A : Type}.
Implicit Types l : list A.

(** Insertion at a position, as [memmove] up by one and a store do it. *)
Definition list_insert_at (i : nat) (x : A) l : list A := take i l ++ x :: drop i l.

(** Removal at a position, as [memmove] down by one does it. *)
Definition list_remove_at (i : nat) l : list A := take i l ++ drop (S i) l.

Lemma list_insert_at_mid l1 l2 x : list_insert_at (length l1) x (l1 ++ l2) = l1 ++ x :: l2.
Proof. unfold list_insert_at. by rewrite take_app_length, drop_app_length. Qed.

Lemma list_remove_at_mid l1 l2 x : list_remove_at (length l1) (l1 ++ x :: l2) = l1 ++ l2.
Proof.
  unfold list_remove_at. rewrite take_app_length.
  replace (S (length l1)) with (length (l1 ++ [x])) by (rewrite length_app; simpl; lia).
  by rewrite (assoc_L app l1 [x] l2 : l1 ++ x :: l2 = _), drop_app_length.
Qed.

Lemma list_update_mid l1 l2 x y : <[length l1 := y]> (l1 ++ x :: l2) = l1 ++ y :: l2.
Proof.
  rewrite insert_app_r_alt by lia. by rewrite Nat.sub_diag.
Qed.
End Lists.

Lemma last_cons {A} (x y : A) l : List.last (x :: l) y = List.last l x.
Proof. revert x. induction l as [|z l IH]; intros x; [done|]. cbn [List.last] in *. by destruct l. Qed.
