(* ===== verification/Atomic.v ===== *)
(** * Atomic primitives of [incl/coremu-atomic.h] and [incl/atomic-template.h]

    Every primitive is one locked x86 instruction, so each is modelled as a
    function from the memory operand to its new value (and the value the
    function returns); a thread applies it in one indivisible step.  The
    template is instantiated for 8, 16, 32 and 64 bits: the width is the
    argument [w].  [incl/coremu-spinlock.h] is the lock built on
    [cmpxchgl]. *)

From S2P Require Import Prelude.

(** ** [incl/atomic-template.h] *)

Definition atomic_inc (w p : Z) : Z := wrap w (p + 1).
Definition atomic_dec (w p : Z) : Z := wrap w (p - 1).
Definition atomic_add (w p val : Z) : Z := wrap w (p + val).

(** [(new memory, returned value)] *)
Definition atomic_exchange (w p val : Z) : Z * Z := (wrap w val, p).

Definition atomic_compare_exchange (w p oldval newval : Z) : Z * Z :=
  if p =? oldval then (wrap w newval, oldval) else (p, p).

Definition atomic_and (p mask : Z) : Z := Z.land p mask.
Definition atomic_or (p mask : Z) : Z := Z.lor p mask.

Definition atomic_xadd (w p val : Z) : Z * Z := (wrap w (p + val), p).

(** ** [incl/coremu-atomic.h] *)

(** [bts], [btr] and [bt] with a bit offset in a register address a bit string
    that starts at [base]: the 32-bit word holding bit [off] is at index
    [off asr 5] and the bit is [off mod 32]. *)
Definition bit_word (off : Z) : Z := Z.shiftr off 5.
Definition bit_pos (off : Z) : Z := off mod 32.

Definition words := Z -> Z.

Definition set_word (m : words) (i x : Z) : words := fun j => if j =? i then x else m j.

Definition bit_at (base : words) (off : Z) : Z := Z.b2z (Z.testbit (base (bit_word off)) (bit_pos off)).

(** The three instructions: the new bit string and the carry flag.  A [lock] prefix is
    allowed before [bts] and [btr]; before [bt], which does not write, it makes the
    instruction undefined. *)
Inductive bit_instr := BT | BTS | BTR.

Definition exec_bit (i : bit_instr) (base : words) (off : Z) : words * Z :=
  (match i with
   | BT => base
   | BTS => set_word base (bit_word off) (Z.setbit (base (bit_word off)) (bit_pos off))
   | BTR => set_word base (bit_word off) (Z.clearbit (base (bit_word off)) (bit_pos off))
   end, bit_at base off).

Definition lockable (i : bit_instr) : bool := match i with BT => false | BTS | BTR => true end.
Definition lock_bit (i : bit_instr) (base : words) (off : Z) : outcome (words * Z) :=
  if lockable i then Ok (exec_bit i base off) else Fault.

Definition bit_testandset (base : words) (off : Z) : outcome (words * Z) := lock_bit BTS base off.
Definition bit_testandreset (base : words) (off : Z) : outcome (words * Z) := lock_bit BTR base off.
Definition bit_test (base : words) (off : Z) : outcome Z :=
  let! '(_, readval) := lock_bit BT base off in Ok readval.

(** [cmpxchg16b] on the 128-bit operand [(low, high)]; the result is [ZF]. *)
Definition atomic_compare_exchange16b (memp : Z * Z) (rax rdx rbx rcx : Z) : (Z * Z) * Z :=
  if (memp.1 =? rax) && (memp.2 =? rdx) then ((rbx, rcx), 1) else (memp, 0).

(** ** [incl/coremu-spinlock.h] *)

(** [__testandset]: [cmpxchgl] of 1 against an expected 0, returning the value
    found. *)
Definition testandset (lock : Z) : Z * Z :=
  (if lock =? 0 then 1 else lock, lock).

(** One iteration of [coremu_spin_lock]: [true] when the loop exits. *)
Definition coremu_spin_lock_try (lock : Z) : Z * bool :=
  let '(lock', readval) := testandset lock in (lock', readval =? 0).

Definition coremu_spin_unlock (lock : Z) : Z := 0.

(** ** Facts used by the components *)

Lemma atomic_inc_dec w p : 0 <= w -> in_u w p -> atomic_dec w (atomic_inc w p) = p.
Proof.
  intros. unfold atomic_dec, atomic_inc. rewrite wrap_sub_l.
  replace (p + 1 - 1) with p by lia. by apply wrap_small.
Qed.

Lemma bit_pos_range off : 0 <= bit_pos off < 32.
Proof. apply Z.mod_pos_bound. lia. Qed.

Lemma bit_word_pos off : off = 32 * bit_word off + bit_pos off.
Proof.
  unfold bit_word, bit_pos. rewrite Z.shiftr_div_pow2 by lia.
  change (2 ^ 5) with 32. apply Z.div_mod. lia.
Qed.

Lemma bit_at_set_word base off off' x :
  bit_at (set_word base (bit_word off) x) off' =
  if bit_word off' =? bit_word off then Z.b2z (Z.testbit x (bit_pos off'))
  else bit_at base off'.
Proof. unfold bit_at, set_word. by case_test. Qed.

(** [bit_testandset] and [bit_testandreset] return the bit as it was, set and clear it,
    and change no other bit of the string. *)
Theorem bit_testandset_correct base off :
  exists m, bit_testandset base off = Ok (m, bit_at base off) /\
    forall off', bit_at m off' = if off' =? off then 1 else bit_at base off'.
Proof.
  eexists. split; [done|]. intros off'.
  pose proof (bit_pos_range off). pose proof (bit_pos_range off').
  pose proof (bit_word_pos off). pose proof (bit_word_pos off').
  rewrite bit_at_set_word. repeat case_test; subst; try done; try lia.
  - by rewrite Z.setbit_eq by lia.
  - rewrite Z.setbit_neq by lia. unfold bit_at. congruence.
Qed.

Theorem bit_testandreset_correct base off :
  exists m, bit_testandreset base off = Ok (m, bit_at base off) /\
    forall off', bit_at m off' = if off' =? off then 0 else bit_at base off'.
Proof.
  eexists. split; [done|]. intros off'.
  pose proof (bit_pos_range off). pose proof (bit_pos_range off').
  pose proof (bit_word_pos off). pose proof (bit_word_pos off').
  rewrite bit_at_set_word. repeat case_test; subst; try done; try lia.
  - by rewrite Z.clearbit_eq by lia.
  - rewrite Z.clearbit_neq by lia. unfold bit_at. congruence.
Qed.

(** [bit_test] never returns. *)
Theorem bit_test_undefined base off : bit_test base off = Fault.
Proof. done. Qed.
