(* ===== verification/LockQueue.v ===== *)
(** * The spinlock based queue of [main/lock-queue.c]

    [enqueue] and [dequeue] are modelled twice: as whole C functions run by
    one thread ([enqueue], [dequeue]), and as the program counters of threads
    that interleave at every access to shared memory ([tick]).  Memory is a
    finite map from the address of an allocated node to the node; [malloc]
    may hand out any address that is not allocated, so addresses of freed
    nodes are recycled.  Interleaving is sequentially consistent.

    COREMU calls [dequeue] on a core's queue from that core only
    ([coremu_get_intr]); [reach] takes the consumer as a parameter and lets no
    other thread start a [dequeue]. *)

From S2P Require Import Prelude Atomic.
Local Open Scope Z_scope.
Local Open Scope coremu_scope.

(** ** Data *)

Record node_t := mk_node { next : Z; value : Z }.

Record queue_t := mk_queue { Head : Z; Tail : Z; count : Z; t_lock : Z }.

Abbreviation heap_t := (gmap Z node_t).

Definition set_head (q : queue_t) (x : Z) := mk_queue x (Tail q) (count q) (t_lock q).
Definition set_tail (q : queue_t) (x : Z) := mk_queue (Head q) x (count q) (t_lock q).
Definition set_count (q : queue_t) (x : Z) := mk_queue (Head q) (Tail q) x (t_lock q).
Definition set_lock (q : queue_t) (x : Z) := mk_queue (Head q) (Tail q) (count q) x.

(** ** Whole functions, run by a single thread *)

Section Sequential.
(** [malloc h] is the address the C library returns when [h] is allocated,
    0 when memory is exhausted. *)
Context (malloc : heap_t -> Z).

(** [new_node]: [coremu_mallocz] aborts when memory is exhausted and zeroes
    the block. *)
Definition new_node (h : heap_t) : outcome (heap_t * Z) :=
  let p := malloc h in
  if p =? 0 then Abort else Ok (<[p := mk_node 0 0]> h, p).

Definition store_next (h : heap_t) (p x : Z) : outcome heap_t :=
  let! n := of_option (h !! p) in Ok (<[p := mk_node x (value n)]> h).

Definition store_value (h : heap_t) (p x : Z) : outcome heap_t :=
  let! n := of_option (h !! p) in Ok (<[p := mk_node (next n) x]> h).

Definition initialize (h : heap_t) : outcome (heap_t * queue_t) :=
  let! '(h, node) := new_node h in
  let! h := store_next h node 0 in
  Ok (h, mk_queue node node 0 (coremu_spin_unlock 0)).

Definition new_queue (h : heap_t) : outcome (heap_t * queue_t) :=
  let! '(h, q) := initialize h in
  let! _ := oassert (negb (Head q =? 0)) in
  let! _ := oassert (negb (Tail q =? 0)) in
  let! _ := oassert (Head q =? Tail q) in
  Ok (h, q).

(** A thread running alone leaves [coremu_spin_lock] only if the lock is
    free; a held lock makes it spin forever, which is [None] here. *)
Definition enqueue (h : heap_t) (q : queue_t) (v : Z) : outcome (option (heap_t * queue_t)) :=
  let! '(h, node) := new_node h in
  let! h := store_value h node v in
  let! h := store_next h node 0 in
  let '(lock, taken) := coremu_spin_lock_try (t_lock q) in
  let q := set_lock q lock in
  if taken then
    let! h := store_next h (Tail q) node in
    let q := set_tail q node in
    let q := set_count q (atomic_inc 64 (count q)) in
    let q := set_lock q (coremu_spin_unlock (t_lock q)) in
    Ok (Some (h, q))
  else Ok None.

(** The result is [true] with the value stored through [value_p], or
    [false] with nothing stored. *)
Definition dequeue (h : heap_t) (q : queue_t) : outcome (heap_t * queue_t * option Z) :=
  let node := Head q in
  let! n := of_option (h !! node) in
  let new_head := next n in
  if new_head =? 0 then Ok (h, q, None)
  else
    let! nh := of_option (h !! new_head) in
    let v := value nh in
    let q := set_head q new_head in
    let h := delete node h in
    let q := set_count q (atomic_dec 64 (count q)) in
    Ok (h, q, Some v).

(** [int64_t] reading of the [uint64_t] field. *)
Definition queue_get_size (q : queue_t) : Z := s64 (count q).
End Sequential.

Definition queue_version : string := "spinlock based concurrent queue".

(** ** Interleaved threads *)

(** Where a thread is inside [enqueue] or [dequeue], with its live locals. *)
Inductive pc :=
| Idle
| EnqSpin (node v : Z)        (* at coremu_spin_lock(&Q->t_lock) *)
| EnqLink (node v : Z)        (* at Q->Tail->next = node *)
| EnqSwing (node : Z)         (* at Q->Tail = node *)
| EnqInc                      (* at atomic_incq(&Q->count) *)
| EnqUnlock                   (* at coremu_spin_unlock(&Q->t_lock) *)
| DeqRead (node : Z)          (* at new_head = node->next *)
| DeqValue (node new_head : Z) (* at *value_p = new_head->value *)
| DeqSwing (node new_head v : Z) (* at Q->Head = new_head *)
| DeqFree (node v : Z)        (* at coremu_free(node) *)
| DeqDec (v : Z).             (* at atomic_decq(&Q->count); return true *)

#[global] Instance pc_eq_dec : EqDecision pc.
Proof. solve_decision. Defined.

(** [enqd] logs the values in the order their nodes were linked, [deqd] the
    values [dequeue] returned, in order; no code reads them. *)
Record state := mk_state {
  heap : heap_t; Q : queue_t; thr : nat -> pc;
  enqd : list Z; deqd : list Z }.

(** One access of thread [t] to shared memory. *)
Definition tick (s : state) (t : nat) : outcome state :=
  let goto p := <[t := p]> (thr s) in
  let h := heap s in let q := Q s in
  match thr s t with
  | Idle => Ok s
  | EnqSpin node v =>
      let '(lock, taken) := coremu_spin_lock_try (t_lock q) in
      Ok (mk_state h (set_lock q lock)
            (goto (if taken then EnqLink node v else EnqSpin node v)) (enqd s) (deqd s))
  | EnqLink node v =>
      let! h := store_next h (Tail q) node in
      Ok (mk_state h q (goto (EnqSwing node)) (enqd s ++ [v]) (deqd s))
  | EnqSwing node =>
      Ok (mk_state h (set_tail q node) (goto EnqInc) (enqd s) (deqd s))
  | EnqInc =>
      Ok (mk_state h (set_count q (atomic_inc 64 (count q))) (goto EnqUnlock) (enqd s) (deqd s))
  | EnqUnlock =>
      Ok (mk_state h (set_lock q (coremu_spin_unlock (t_lock q))) (goto Idle) (enqd s) (deqd s))
  | DeqRead node =>
      let! n := of_option (h !! node) in
      Ok (mk_state h q (goto (if next n =? 0 then Idle else DeqValue node (next n)))
            (enqd s) (deqd s))
  | DeqValue node new_head =>
      let! n := of_option (h !! new_head) in
      Ok (mk_state h q (goto (DeqSwing node new_head (value n))) (enqd s) (deqd s))
  | DeqSwing node new_head v =>
      Ok (mk_state h (set_head q new_head) (goto (DeqFree node v)) (enqd s) (deqd s))
  | DeqFree node v =>
      let! _ := of_option (h !! node) in
      Ok (mk_state (delete node h) q (goto (DeqDec v)) (enqd s) (deqd s))
  | DeqDec v =>
      Ok (mk_state h (set_count q (atomic_dec 64 (count q))) (goto Idle)
            (enqd s) (deqd s ++ [v]))
  end.

Inductive action :=
| StartEnq (t : nat) (v p : Z)   (* enqueue(Q, v); new_node returned p *)
| StartDeq (t : nat)             (* dequeue(Q, &x) *)
| Tick (t : nat).

Definition exec (s : state) (a : action) : outcome state :=
  match a with
  | StartEnq t v p =>
      Ok (mk_state (<[p := mk_node 0 v]> (heap s)) (Q s)
            (<[t := EnqSpin p v]> (thr s)) (enqd s) (deqd s))
  | StartDeq t =>
      Ok (mk_state (heap s) (Q s) (<[t := DeqRead (Head (Q s))]> (thr s)) (enqd s) (deqd s))
  | Tick t => tick s t
  end.

(** The calls and allocations the environment may make: a thread starts a call
    when it is not inside one, [malloc] returns a non-null address that is not
    allocated, and only the consumer [c] dequeues. *)
Definition enabled (c : nat) (s : state) (a : action) : bool :=
  match a with
  | StartEnq t v p =>
      bool_decide (thr s t = Idle) && negb (p =? 0) && bool_decide (heap s !! p = None)
  | StartDeq t => bool_decide (thr s t = Idle) && bool_decide (t = c)
  | Tick t => negb (bool_decide (thr s t = Idle))
  end.

(** The state [new_queue] leaves when its dummy node is at [p]. *)
Definition init_state (p : Z) : state :=
  mk_state {[p := mk_node 0 0]} (mk_queue p p 0 0) (fun _ => Idle) [] [].

Inductive reach (c : nat) : state -> Prop :=
| reach_init p : p <> 0 -> reach c (init_state p)
| reach_step s a s' :
    reach c s -> enabled c s a = true -> exec s a = Ok s' -> reach c s'.

(** ** The representation invariant *)

(** [linked h ns]: the nodes [ns] (address, value) are allocated and each
    points to the following one, the last to [NULL]. *)
Fixpoint linked (h : heap_t) (ns : list (Z * Z)) : Prop :=
  match ns with
  | [] => True
  | (a, v) :: rest =>
      h !! a = Some (mk_node (default 0 (head (rest.*1))) v) /\ linked h rest
  end.

Definition in_cs (p : pc) : bool :=
  match p with EnqLink _ _ | EnqSwing _ | EnqInc | EnqUnlock => true | _ => false end.

Definition is_deq (p : pc) : bool :=
  match p with
  | DeqRead _ | DeqValue _ _ | DeqSwing _ _ _ | DeqFree _ _ | DeqDec _ => true
  | _ => false
  end.

(** The node a thread alone may touch: not linked yet, or unlinked already. *)
Definition owns (p : pc) : option Z :=
  match p with EnqSpin n _ | EnqLink n _ | DeqFree n _ => Some n | _ => None end.

(** A value taken out of the list whose [dequeue] has not returned yet. *)
Definition in_flight (p : pc) : list Z :=
  match p with DeqFree _ v | DeqDec v => [v] | _ => [] end.

(** Linked by the lock holder but not counted yet. *)
Definition uncounted (p : pc) : Z :=
  match p with EnqSwing _ | EnqInc => 1 | _ => 0 end.

(** What the consumer knows about the head of the list. *)
Definition deq_ok (p : pc) (a0 : Z) (ns : list (Z * Z)) : Prop :=
  match p with
  | DeqRead n => n = a0
  | DeqValue n nh => n = a0 /\ exists v ns', ns = (nh, v) :: ns'
  | DeqSwing n nh v => n = a0 /\ exists ns', ns = (nh, v) :: ns'
  | _ => True
  end.

Definition tail_ok (p : pc) (tl : Z) (addrs : list Z) : Prop :=
  match p with EnqSwing n => last addrs = Some n | _ => last addrs = Some tl end.

(** [a0] is the dummy node, [ns] the nodes after it, [holder] the thread inside
    the critical section. *)
Record inv_at (c : nat) (s : state) (a0 v0 : Z) (ns : list (Z * Z)) (holder : option nat) : Prop := {
  i_linked : linked (heap s) ((a0, v0) :: ns);
  i_nodup : NoDup (a0 :: ns.*1);
  i_nonnull : 0 ∉ (a0 :: ns.*1);
  i_head : Head (Q s) = a0;
  i_tail : tail_ok (default Idle (thr s <$> holder)) (Tail (Q s)) (a0 :: ns.*1);
  i_lock : t_lock (Q s) = if holder is Some _ then 1 else 0;
  i_holder t : in_cs (thr s t) = true <-> holder = Some t;
  i_consumer t : is_deq (thr s t) = true -> t = c;
  i_deq : deq_ok (thr s c) a0 ns;
  i_owned t n : owns (thr s t) = Some n -> n ∉ a0 :: ns.*1 /\ n <> 0 /\ is_Some (heap s !! n);
  i_private t n v : thr s t = EnqSpin n v \/ thr s t = EnqLink n v ->
                    heap s !! n = Some (mk_node 0 v);
  i_owner t t' n : owns (thr s t) = Some n -> owns (thr s t') = Some n -> t = t';
  i_noleak a : is_Some (heap s !! a) -> a ∈ a0 :: ns.*1 \/ exists t, owns (thr s t) = Some a;
  i_fifo : enqd s = deqd s ++ in_flight (thr s c) ++ ns.*2;
  i_count : count (Q s) =
    u64 (Z.of_nat (length ns) - uncounted (default Idle (thr s <$> holder))
         + Z.of_nat (length (in_flight (thr s c)))) }.

Definition inv (c : nat) (s : state) : Prop :=
  exists a0 v0 ns holder, inv_at c s a0 v0 ns holder.

(** *** Lemmas on [linked] *)

Lemma linked_insert_ne h ns a n :
  a ∉ ns.*1 -> linked (<[a := n]> h) ns <-> linked h ns.
Proof.
  induction ns as [|[b v] ns IH]; simpl; [done|].
  intros [Hab Hns]%not_elem_of_cons. rewrite IH by done.
  by rewrite lookup_insert_ne.
Qed.

Lemma linked_delete_ne h ns a : a ∉ ns.*1 -> linked (delete a h) ns <-> linked h ns.
Proof.
  induction ns as [|[b v] ns IH]; simpl; [done|].
  intros [Hab Hns]%not_elem_of_cons. rewrite IH by done.
  by rewrite lookup_delete_ne.
Qed.

Lemma linked_is_Some h ns a : linked h ns -> a ∈ ns.*1 -> is_Some (h !! a).
Proof.
  induction ns as [|[b v] ns IH]; simpl; [by intros _ ?%elem_of_nil|].
  intros [Hb Hns] [->|]%elem_of_cons; [eauto|by apply IH].
Qed.

Lemma linked_last h ns a :
  linked h ns -> last (ns.*1) = Some a -> exists v, h !! a = Some (mk_node 0 v).
Proof.
  induction ns as [|[b v] [|[b' v'] ns] IH]; simpl; intros Hl Hlast; simplify_eq.
  - destruct Hl as [Hl _]. eauto.
  - apply IH; [apply Hl|done].
Qed.

Lemma linked_snoc h ns a w b v :
  NoDup (ns.*1) -> linked h ns -> last (ns.*1) = Some a ->
  h !! a = Some (mk_node 0 w) -> b ∉ ns.*1 -> h !! b = Some (mk_node 0 v) ->
  linked (<[a := mk_node b w]> h) (ns ++ [(b, v)]).
Proof.
  induction ns as [|[a1 v1] [|[a2 v2] ns] IH]; simpl; intros Hnd Hl Hlast Ha Hb Hhb; simplify_eq.
  - destruct Hl as [Hl _]. rewrite Hl in Ha. simplify_eq.
    rewrite lookup_insert_eq, lookup_insert_ne by set_solver. auto.
  - apply NoDup_cons in Hnd as [Hn Hnd]. destruct Hl as [Ha1 Hl].
    assert (a ∈ a2 :: ns.*1) by (apply last_Some_elem_of in Hlast; done).
    split.
    + rewrite lookup_insert_ne by set_solver. done.
    + apply IH; auto. set_solver.
Qed.

Lemma addrs_snoc (ns : list (Z * Z)) b v a0 :
  a0 :: (ns ++ [(b, v)]).*1 = (a0 :: ns.*1) ++ [b].
Proof. by rewrite fmap_app. Qed.

Lemma last_snoc_addr (ns : list (Z * Z)) b v a0 :
  last (a0 :: (ns ++ [(b, v)]).*1) = Some b.
Proof. by rewrite addrs_snoc, last_snoc. Qed.

(** *** Preservation *)

(** Case on whether the thread a statement speaks of is the one that moved. *)
Ltac thr_case :=
  match goal with
  | |- context [<[?t := _]> _ ?t'] =>
      destruct (decide (t = t')) as [->|?];
      [rewrite ?fn_lookup_insert|rewrite ?fn_lookup_insert_ne by done]
  end; simpl.

Lemma inv_init c p : p <> 0 -> inv c (init_state p).
Proof.
  intros Hp. exists p, 0, [], None.
  split; simpl; try done; try set_solver.
  - by rewrite lookup_singleton_eq.
  - apply NoDup_singleton.
  - intros a. rewrite lookup_singleton_is_Some. set_solver.
Qed.

Section Preserve.
Context (c : nat) (s : state) (a0 v0 : Z) (ns : list (Z * Z)) (holder : option nat).
Context (I : inv_at c s a0 v0 ns holder).

Lemma dummy_node : heap s !! a0 = Some (mk_node (default 0 (head (ns.*1))) v0).
Proof. apply I. Qed.

(** Threads outside the critical section are not the lock holder. *)
Lemma not_holder t : in_cs (thr s t) = false -> holder <> Some t.
Proof. intros H E. apply (i_holder _ _ _ _ _ _ I) in E. congruence. Qed.

Lemma is_holder t : in_cs (thr s t) = true -> holder = Some t.
Proof. apply I. Qed.

Lemma inv_start_enq t v p :
  thr s t = Idle -> p <> 0 -> heap s !! p = None ->
  inv_at c (mk_state (<[p := mk_node 0 v]> (heap s)) (Q s)
              (<[t := EnqSpin p v]> (thr s)) (enqd s) (deqd s)) a0 v0 ns holder.
Proof.
  intros Ht Hp Hfresh. pose proof (not_holder t) as Hnh. rewrite Ht in Hnh.
  assert (p ∉ a0 :: ns.*1) as Hpn.
  { intros Hin. eapply (linked_is_Some _ ((a0, v0) :: ns)) in Hin; [|apply I].
    rewrite Hfresh in Hin. by destruct Hin. }
  assert (default Idle (<[t:=EnqSpin p v]> (thr s) <$> holder) = default Idle (thr s <$> holder)) as Eh.
  { destruct holder as [t'|]; [simpl|done]. rewrite fn_lookup_insert_ne; [done|].
    intros ->. by apply Hnh. }
  assert (in_flight (<[t:=EnqSpin p v]> (thr s) c) = in_flight (thr s c)) as Ef.
  { thr_case; [by rewrite Ht|done]. }
  destruct I. split; simpl; try done.
  - split; [rewrite lookup_insert_ne by set_solver; apply i_linked0|].
    apply linked_insert_ne; [set_solver|apply i_linked0].
  - by rewrite Eh.
  - intros t'. thr_case; [|apply i_holder0]. split; [done|]. intros E. by destruct (Hnh eq_refl).
  - intros t'. thr_case; [done|]. auto.
  - thr_case; [done|apply i_deq0].
  - intros t' n. thr_case.
    + intros. simplify_eq. rewrite lookup_insert_eq. eauto.
    + intros H. destruct (i_owned0 _ _ H) as (?&?&?). split_and!; auto.
      rewrite lookup_insert_is_Some. destruct (decide (p = n)); eauto.
  - intros t' n w. thr_case.
    + intros [|]; simplify_eq. by rewrite lookup_insert_eq.
    + intros H. rewrite lookup_insert_ne; [eauto|]. intros ->.
      specialize (i_private0 _ _ _ H). congruence.
  - intros t1 t2 n. repeat thr_case; intros; simplify_eq; eauto.
    + destruct (i_owned0 _ _ H0) as (?&?&[? ?]). congruence.
    + destruct (i_owned0 _ _ H) as (?&?&[? ?]). congruence.
  - intros a Ha. destruct (decide (a = p)) as [->|].
    + right. exists t. by rewrite fn_lookup_insert.
    + rewrite lookup_insert_ne in Ha by done. destruct (i_noleak0 a Ha) as [|[t' Ht']]; [auto|].
      right. exists t'. rewrite fn_lookup_insert_ne; [done|]. intros ->. by rewrite Ht in Ht'.
  - by rewrite Ef.
  - by rewrite Eh, Ef.
Qed.

(** A move of one thread that leaves the heap, the list and what the thread
    owns as they are. *)
Lemma inv_goto t p q' d' holder' :
  owns p = owns (thr s t) ->
  (forall n v, p = EnqSpin n v \/ p = EnqLink n v -> thr s t = EnqSpin n v \/ thr s t = EnqLink n v) ->
  (is_deq p = true -> t = c) ->
  (t = c -> deq_ok p a0 ns) ->
  Head q' = a0 ->
  tail_ok (default Idle (<[t := p]> (thr s) <$> holder')) (Tail q') (a0 :: ns.*1) ->
  t_lock q' = (if holder' is Some _ then 1 else 0) ->
  (forall t', in_cs (<[t := p]> (thr s) t') = true <-> holder' = Some t') ->
  enqd s = d' ++ in_flight (<[t := p]> (thr s) c) ++ ns.*2 ->
  count q' = u64 (Z.of_nat (length ns) - uncounted (default Idle (<[t := p]> (thr s) <$> holder'))
                  + Z.of_nat (length (in_flight (<[t := p]> (thr s) c)))) ->
  inv_at c (mk_state (heap s) q' (<[t := p]> (thr s)) (enqd s) d') a0 v0 ns holder'.
Proof.
  intros Howns Hpriv Hcons Hdeq Hhd Htl Hlock Hhold Hfifo Hcount.
  destruct I. split; simpl; try done.
  - intros t'. thr_case; auto.
  - thr_case; auto.
  - intros t' n. thr_case; rewrite ?Howns; apply i_owned0.
  - intros t' n w. thr_case; [intros H%Hpriv|intros H]; by eapply i_private0.
  - intros t1 t2 n. repeat thr_case; rewrite ?Howns; by eauto.
  - intros a Ha. destruct (i_noleak0 a Ha) as [|[t' Ht']]; [auto|].
    right. exists t'. thr_case; congruence.
Qed.

(** The lock holder stays the holder when it moves inside the section, and a
    thread outside the section leaves the holder alone. *)
Lemma holder_same t p :
  in_cs p = in_cs (thr s t) ->
  forall t', in_cs (<[t := p]> (thr s) t') = true <-> holder = Some t'.
Proof.
  intros E t'. thr_case; [rewrite E|]; apply (i_holder _ _ _ _ _ _ I).
Qed.

Lemma holder_pc_other t p :
  in_cs (thr s t) = false ->
  default Idle (<[t := p]> (thr s) <$> holder) = default Idle (thr s <$> holder).
Proof.
  intros H%not_holder. destruct holder as [t'|]; [|done]. simpl.
  rewrite fn_lookup_insert_ne; congruence.
Qed.

Lemma in_flight_same t p :
  in_flight p = in_flight (thr s t) ->
  in_flight (<[t := p]> (thr s) c) = in_flight (thr s c).
Proof. intros E. by thr_case. Qed.
End Preserve.

Section Steps.
Context (c : nat) (s : state) (a0 v0 : Z) (ns : list (Z * Z)) (holder : option nat).
Context (I : inv_at c s a0 v0 ns holder).

(** Discharges the side conditions of [inv_goto] that do not depend on the
    step. *)
Ltac goto_simple Ht :=
  rewrite ?Ht; simpl; try done; try (intros; intuition discriminate);
  try (by apply I);
  try (by eapply holder_same; [done|rewrite Ht]).

Lemma inv_start_deq :
  thr s c = Idle ->
  inv_at c (mk_state (heap s) (Q s) (<[c := DeqRead (Head (Q s))]> (thr s)) (enqd s) (deqd s))
    a0 v0 ns holder.
Proof using I.
  intros Ht.
  apply inv_goto with (holder := holder); goto_simple Ht.
  - intros _. apply I.
  - rewrite (holder_pc_other _ _ _ _ _ _ I) by (by rewrite Ht). apply I.
  - rewrite (in_flight_same c s) by (by rewrite Ht). apply I.
  - rewrite (holder_pc_other _ _ _ _ _ _ I) by (by rewrite Ht).
    rewrite (in_flight_same c s) by (by rewrite Ht). apply I.
Qed.

Lemma inv_spin t n v :
  thr s t = EnqSpin n v ->
  exists holder', inv_at c
    (mk_state (heap s) (set_lock (Q s) (coremu_spin_lock_try (t_lock (Q s))).1)
       (<[t := if (coremu_spin_lock_try (t_lock (Q s))).2 then EnqLink n v else EnqSpin n v]> (thr s))
       (enqd s) (deqd s)) a0 v0 ns holder'.
Proof using I.
  intros Ht. pose proof (i_lock _ _ _ _ _ _ I) as Hl.
  assert (forall p, in_flight p = [] -> in_flight (<[t:=p]> (thr s) c) = in_flight (thr s c)) as Hf.
  { intros. apply in_flight_same. by rewrite Ht. }
  pose proof (i_tail _ _ _ _ _ _ I) as Htl. pose proof (i_count _ _ _ _ _ _ I) as Hc.
  destruct holder as [t0|] eqn:Eh; rewrite Hl; simpl; [exists (Some t0)|exists (Some t)];
    apply inv_goto with (holder := holder); subst; goto_simple Ht; rewrite ?Hf by done;
    try (by apply I).
  - rewrite (fn_lookup_insert_ne _ t t0); [done|].
    intros ->. assert (in_cs (thr s t0) = true) as E by (by apply I). by rewrite Ht in E.
  - rewrite (fn_lookup_insert_ne _ t t0); [done|].
    intros ->. assert (in_cs (thr s t0) = true) as E by (by apply I). by rewrite Ht in E.
  - intros ? ? [|]; naive_solver.
  - by rewrite fn_lookup_insert.
  - intros t'. thr_case; [done|]. rewrite (i_holder _ _ _ _ _ _ I t'). split; congruence.
  - by rewrite fn_lookup_insert.
Qed.

Lemma inv_swing_tail t n :
  thr s t = EnqSwing n ->
  inv_at c (mk_state (heap s) (set_tail (Q s) n) (<[t := EnqInc]> (thr s)) (enqd s) (deqd s))
    a0 v0 ns holder.
Proof using I.
  intros Ht. assert (holder = Some t) as -> by (apply I; by rewrite Ht).
  pose proof (i_tail _ _ _ _ _ _ I) as Htl. pose proof (i_count _ _ _ _ _ _ I) as Hc.
  simpl in *. rewrite Ht in Htl, Hc.
  apply inv_goto with (holder := Some t); goto_simple Ht;
    rewrite ?fn_lookup_insert, ?(in_flight_same c s t) by (by rewrite Ht); try done.
  by apply I.
Qed.

Lemma inv_inc t :
  thr s t = EnqInc ->
  inv_at c (mk_state (heap s) (set_count (Q s) (atomic_inc 64 (count (Q s))))
              (<[t := EnqUnlock]> (thr s)) (enqd s) (deqd s)) a0 v0 ns holder.
Proof using I.
  intros Ht. assert (holder = Some t) as -> by (apply I; by rewrite Ht).
  pose proof (i_tail _ _ _ _ _ _ I) as Htl. pose proof (i_count _ _ _ _ _ _ I) as Hc.
  simpl in *. rewrite Ht in Htl, Hc.
  apply inv_goto with (holder := Some t); goto_simple Ht;
    rewrite ?fn_lookup_insert, ?(in_flight_same c s t) by (by rewrite Ht); try done.
  - by apply I.
  - rewrite Hc. unfold atomic_inc. rewrite wrap_add_l. simpl. f_equal. lia.
Qed.

Lemma inv_unlock t :
  thr s t = EnqUnlock ->
  inv_at c (mk_state (heap s) (set_lock (Q s) (coremu_spin_unlock (t_lock (Q s))))
              (<[t := Idle]> (thr s)) (enqd s) (deqd s)) a0 v0 ns None.
Proof using I.
  intros Ht. assert (holder = Some t) as -> by (apply I; by rewrite Ht).
  pose proof (i_tail _ _ _ _ _ _ I) as Htl. pose proof (i_count _ _ _ _ _ _ I) as Hc.
  simpl in *. rewrite Ht in Htl, Hc.
  apply inv_goto with (holder := Some t); goto_simple Ht;
    rewrite ?(in_flight_same c s t) by (by rewrite Ht); try done.
  - intros t'. thr_case; [done|]. rewrite (i_holder _ _ _ _ _ _ I t'). split; congruence.
  - by apply I.
Qed.

Lemma inv_link t n v h' :
  thr s t = EnqLink n v -> store_next (heap s) (Tail (Q s)) n = Ok h' ->
  inv_at c (mk_state h' (Q s) (<[t := EnqSwing n]> (thr s)) (enqd s ++ [v]) (deqd s))
    a0 v0 (ns ++ [(n, v)]) holder.
Proof using I.
  intros Ht Hst. assert (holder = Some t) as -> by (apply I; by rewrite Ht).
  pose proof (i_owned _ _ _ _ _ _ I t n) as Ho. pose proof (i_private _ _ _ _ _ _ I t n v) as Hp.
  pose proof (i_tail _ _ _ _ _ _ I) as Htl. pose proof (i_count _ _ _ _ _ _ I) as Hc.
  simpl in *. rewrite Ht in *. simpl in *.
  destruct (Ho eq_refl) as (Hn & Hn0 & _). specialize (Hp (or_intror eq_refl)).
  destruct (linked_last (heap s) ((a0, v0) :: ns) (Tail (Q s))) as [w Hw]; [apply I|done|].
  assert (Tail (Q s) ∈ a0 :: ns.*1) as Hin by (by apply last_Some_elem_of).
  unfold store_next in Hst. rewrite Hw in Hst. simpl in Hst. simplify_eq.
  assert (forall t', owns (thr s t') <> Some (Tail (Q s))) as Hnot.
  { intros t' (?&_)%(i_owned _ _ _ _ _ _ I). done. }
  destruct I. split; simpl; try done.
  - apply (linked_snoc (heap s) ((a0, v0) :: ns)); done.
  - rewrite addrs_snoc. apply NoDup_app. split_and!; [done| |apply NoDup_singleton].
    set_solver.
  - rewrite addrs_snoc. set_solver.
  - rewrite fn_lookup_insert. apply (last_snoc_addr ns n v).
  - apply (holder_same c s a0 v0 ns); [done|by rewrite Ht].
  - intros t'. thr_case; [done|]. auto.
  - thr_case; [done|]. destruct (thr s c); simpl in *; naive_solver.
  - intros t' n'. thr_case; [done|]. intros H. destruct (i_owned0 _ _ H) as (?&?&?).
    rewrite addrs_snoc. split_and!; [|done|].
    + rewrite elem_of_app. intros [?|?%list_elem_of_singleton]; [done|]. simpl in *.
      subst. assert (t' = t) by (eapply i_owner0; [done|by rewrite Ht]). congruence.
    + apply lookup_insert_is_Some'. auto.
  - intros t' n' v'. thr_case; [naive_solver|]. intros H. rewrite lookup_insert_ne; [eauto|].
    intros E. apply (Hnot t'). destruct H as [H|H]; rewrite H; simpl; congruence.
  - intros t1 t2 n'. repeat thr_case; try done. eauto.
  - intros a. rewrite lookup_insert_is_Some'. intros Ha.
    assert (is_Some (heap s !! a)) as [|[t' Ht']]%i_noleak0.
    { destruct Ha as [<-|]; [|done]. rewrite Hw. eauto. }
    + left. rewrite addrs_snoc. apply elem_of_app. auto.
    + destruct (decide (t = t')) as [->|].
      * left. rewrite Ht in Ht'. simplify_eq/=. rewrite addrs_snoc. set_solver.
      * right. exists t'. by rewrite fn_lookup_insert_ne.
  - rewrite (in_flight_same c s) by (by rewrite Ht). rewrite i_fifo0, fmap_app. simpl.
    by rewrite !(assoc_L app).
  - rewrite fn_lookup_insert, (in_flight_same c s) by (by rewrite Ht).
    rewrite Hc, length_app. simpl. f_equal. lia.
Qed.

(** The consumer is never the lock holder while it dequeues. *)
Lemma deq_not_holder t : is_deq (thr s t) = true -> t = c /\ in_cs (thr s t) = false.
Proof using I. intros H. split; [by apply I|]. by destruct (thr s t). Qed.

Lemma inv_deq_read n nd :
  thr s c = DeqRead n -> heap s !! n = Some nd ->
  inv_at c (mk_state (heap s) (Q s)
              (<[c := if next nd =? 0 then Idle else DeqValue n (next nd)]> (thr s))
              (enqd s) (deqd s)) a0 v0 ns holder.
Proof using I.
  intros Ht Hn. pose proof (i_deq _ _ _ _ _ _ I) as Hd. rewrite Ht in Hd. simpl in Hd. subst n.
  rewrite (dummy_node _ _ _ _ _ _ I) in Hn. simplify_eq/=.
  assert (forall p, in_flight p = [] -> in_flight (<[c:=p]> (thr s) c) = in_flight (thr s c)) as Hf.
  { intros. apply in_flight_same. by rewrite Ht. }
  destruct ns as [|[a1 v1] ns']; simpl.
  - apply inv_goto with (holder := holder); goto_simple Ht;
      rewrite ?(holder_pc_other _ _ _ _ _ _ I), ?Hf by (by rewrite ?Ht); by apply I.
  - rewrite (proj2 (Z.eqb_neq a1 0)).
    + apply inv_goto with (holder := holder); goto_simple Ht;
        rewrite ?(holder_pc_other _ _ _ _ _ _ I), ?Hf by (by rewrite ?Ht); try by apply I.
      naive_solver.
    + intros ->. apply (i_nonnull _ _ _ _ _ _ I). set_solver.
Qed.

Lemma inv_deq_value n nh nd :
  thr s c = DeqValue n nh -> heap s !! nh = Some nd ->
  inv_at c (mk_state (heap s) (Q s) (<[c := DeqSwing n nh (value nd)]> (thr s))
              (enqd s) (deqd s)) a0 v0 ns holder.
Proof using I.
  intros Ht Hn. pose proof (i_deq _ _ _ _ _ _ I) as Hd. rewrite Ht in Hd.
  destruct Hd as (-> & v & ns' & ->).
  pose proof (i_linked _ _ _ _ _ _ I) as (_ & Hl & _). rewrite Hl in Hn. simplify_eq/=.
  apply inv_goto with (holder := holder); goto_simple Ht;
    rewrite ?(holder_pc_other _ _ _ _ _ _ I), ?(in_flight_same c s) by (by rewrite ?Ht);
    try by apply I.
  naive_solver.
Qed.

Lemma inv_deq_swing n nh v :
  thr s c = DeqSwing n nh v ->
  exists ns', ns = (nh, v) :: ns' /\
  inv_at c (mk_state (heap s) (set_head (Q s) nh) (<[c := DeqFree n v]> (thr s))
              (enqd s) (deqd s)) nh v ns' holder.
Proof using I.
  intros Ht. pose proof (i_deq _ _ _ _ _ _ I) as Hd. rewrite Ht in Hd.
  destruct Hd as (-> & ns' & ->). exists ns'. split; [done|].
  pose proof (holder_pc_other _ _ _ _ _ _ I c (DeqFree a0 v)) as Eh.
  rewrite Ht in Eh. specialize (Eh eq_refl).
  pose proof (dummy_node _ _ _ _ _ _ I) as Hdummy.
  pose proof (holder_same _ _ _ _ _ _ I c (DeqFree a0 v) ltac:(by rewrite Ht)) as Hh.
  destruct I. simpl in *. apply NoDup_cons in i_nodup0 as [Ha0 Hnd].
  split; simpl; try done.
  - apply i_linked0.
  - set_solver.
  - rewrite Eh. destruct (default Idle _); simpl in *; done.
  - intros t'. thr_case; auto.
  - by rewrite fn_lookup_insert.
  - intros t' n'. thr_case.
    + intros. simplify_eq. split_and!; [done|set_solver|rewrite Hdummy; eauto].
    + intros H. destruct (i_owned0 _ _ H) as (?&?&?). split_and!; set_solver.
  - intros t' n' v'. thr_case; [naive_solver|eauto].
  - intros t1 t2 n'. repeat thr_case; intros; simplify_eq; eauto.
    + destruct (i_owned0 _ _ H0) as (?&_). set_solver.
    + destruct (i_owned0 _ _ H) as (?&_). set_solver.
  - intros a [Ha|[t' Ht']]%i_noleak0.
    + apply elem_of_cons in Ha as [->|]; [|by left].
      right. exists c. by rewrite fn_lookup_insert.
    + right. exists t'. thr_case; [|done]. by rewrite Ht in Ht'.
  - rewrite fn_lookup_insert. by rewrite Ht in i_fifo0.
  - rewrite Eh, fn_lookup_insert. rewrite Ht in i_count0. rewrite i_count0. f_equal. simpl. lia.
Qed.

Lemma inv_deq_free n v :
  thr s c = DeqFree n v ->
  inv_at c (mk_state (delete n (heap s)) (Q s) (<[c := DeqDec v]> (thr s))
              (enqd s) (deqd s)) a0 v0 ns holder.
Proof using I.
  intros Ht. pose proof (i_owned _ _ _ _ _ _ I c n) as Ho. rewrite Ht in Ho.
  destruct (Ho eq_refl) as (Hn & Hn0 & Hsome).
  pose proof (holder_pc_other _ _ _ _ _ _ I c (DeqDec v)) as Eh.
  rewrite Ht in Eh. specialize (Eh eq_refl).
  assert (forall t, owns (thr s t) = Some n -> t = c) as Hown.
  { intros t H. apply (i_owner _ _ _ _ _ _ I t c n); [done|by rewrite Ht]. }
  pose proof (holder_same _ _ _ _ _ _ I c (DeqDec v) ltac:(by rewrite Ht)) as Hh.
  destruct I. split; simpl; try done.
  - apply (linked_delete_ne _ ((a0, v0) :: ns)); done.
  - by rewrite Eh.
  - intros t'. thr_case; auto.
  - by rewrite fn_lookup_insert.
  - intros t' n'. thr_case; [done|]. intros H. destruct (i_owned0 _ _ H) as (?&?&?).
    split_and!; [done..|]. rewrite lookup_delete_ne; [done|]. intros ->.
    by apply Hown in H.
  - intros t' n' v'. thr_case; [naive_solver|]. intros H. rewrite lookup_delete_ne; [eauto|].
    intros ->. destruct H as [H|H]; pose proof (Hown t') as Ho'; rewrite H in Ho'; by apply n0; rewrite Ho'.
  - intros t1 t2 n'. repeat thr_case; try done. eauto.
  - intros a. rewrite lookup_delete_is_Some. intros [Hne [|[t' Ht']]%i_noleak0]; [by left|].
    right. exists t'. thr_case; [|done]. rewrite Ht in Ht'. by simplify_eq/=.
  - rewrite fn_lookup_insert. by rewrite Ht in i_fifo0.
  - rewrite Eh, fn_lookup_insert. by rewrite Ht in i_count0.
Qed.

Lemma inv_deq_dec v :
  thr s c = DeqDec v ->
  inv_at c (mk_state (heap s) (set_count (Q s) (atomic_dec 64 (count (Q s))))
              (<[c := Idle]> (thr s)) (enqd s) (deqd s ++ [v])) a0 v0 ns holder.
Proof using I.
  intros Ht. pose proof (i_fifo _ _ _ _ _ _ I) as Hfi. pose proof (i_count _ _ _ _ _ _ I) as Hc.
  rewrite Ht in Hfi, Hc.
  apply inv_goto with (holder := holder); goto_simple Ht;
    rewrite ?(holder_pc_other _ _ _ _ _ _ I), ?fn_lookup_insert by (by rewrite ?Ht);
    try by apply I.
  - by rewrite <- (assoc_L app).
  - rewrite Hc. unfold atomic_dec. rewrite wrap_sub_l. f_equal. simpl. lia.
Qed.
End Steps.

(** Every step of every thread keeps the invariant. *)
Lemma inv_tick c s t s' : inv c s -> tick s t = Ok s' -> inv c s'.
Proof.
  intros (a0 & v0 & ns & holder & I) Hs. unfold tick in Hs.
  destruct (thr s t) eqn:Ht.
  all: try (assert (t = c) as -> by (apply (i_consumer _ _ _ _ _ _ I); by rewrite Ht)).
  - simplify_eq. by exists a0, v0, ns, holder.
  - destruct (inv_spin _ _ _ _ _ _ I t node v Ht) as [holder' I'].
    destruct (coremu_spin_lock_try (t_lock (Q s))). simpl in *. simplify_eq.
    by exists a0, v0, ns, holder'.
  - inv_ok. exists a0, v0, (ns ++ [(node, v)]), holder. by eapply inv_link.
  - inv_ok. exists a0, v0, ns, holder. by apply inv_swing_tail.
  - inv_ok. exists a0, v0, ns, holder. by apply inv_inc.
  - inv_ok. exists a0, v0, ns, None. by eapply inv_unlock.
  - inv_ok. exists a0, v0, ns, holder. by apply inv_deq_read.
  - inv_ok. exists a0, v0, ns, holder. by apply inv_deq_value.
  - inv_ok. destruct (inv_deq_swing _ _ _ _ _ _ I node new_head v Ht) as (ns' & -> & I').
    by exists new_head, v, ns', holder.
  - inv_ok. exists a0, v0, ns, holder. by apply inv_deq_free.
  - inv_ok. exists a0, v0, ns, holder. by apply inv_deq_dec.
Qed.

Lemma inv_exec c s a s' : inv c s -> enabled c s a = true -> exec s a = Ok s' -> inv c s'.
Proof.
  intros I He Hs. destruct a as [t v p|t|t]; simpl in *.
  - rewrite !andb_true_iff, !bool_decide_eq_true, negb_true_iff, Z.eqb_neq in He.
    destruct He as [[Ht Hp] Hf]. destruct I as (a0 & v0 & ns & holder & I). inv_ok.
    exists a0, v0, ns, holder. by apply inv_start_enq.
  - rewrite andb_true_iff, !bool_decide_eq_true in He. destruct He as [Ht ->].
    destruct I as (a0 & v0 & ns & holder & I). inv_ok.
    exists a0, v0, ns, holder. by apply inv_start_deq.
  - by eapply inv_tick.
Qed.

Lemma reach_inv c s : reach c s -> inv c s.
Proof. induction 1; [by apply inv_init|]. by eapply inv_exec. Qed.

(** ** What the queue promises *)

(** The values reachable from the dummy node [a]; [fuel] bounds the walk by the
    number of allocated nodes. *)
Fixpoint walk (fuel : nat) (h : heap_t) (a : Z) : list Z :=
  match fuel with
  | O => []
  | S fuel =>
      match h !! a with
      | None => []
      | Some n =>
          match h !! next n with
          | None => []
          | Some m => value m :: walk fuel h (next n)
          end
      end
  end.

Definition contents (s : state) : list Z := walk (size (heap s)) (heap s) (Head (Q s)).

Lemma linked_walk h ns fuel a v :
  h !! 0 = None -> (length ns <= fuel)%nat -> linked h ((a, v) :: ns) ->
  walk fuel h a = ns.*2.
Proof.
  intros H0. revert ns a v. induction fuel as [|fuel IH]; intros ns a v Hf [Ha Hl]; simpl.
  - destruct ns; [done|simpl in *; lia].
  - rewrite Ha. simpl. destruct ns as [|[b w] ns]; simpl.
    + by rewrite H0.
    + pose proof Hl as [Hb _]. rewrite Hb. simpl. f_equal.
      eapply IH; [simpl in *; lia|done].
Qed.

Lemma linked_size h ns : NoDup (ns.*1) -> linked h ns -> (length ns <= size h)%nat.
Proof.
  intros Hnd Hl.
  assert (list_to_set (ns.*1) ⊆ dom h) as Hsub.
  { intros a. rewrite elem_of_list_to_set, elem_of_dom. by apply linked_is_Some. }
  apply subseteq_size in Hsub. rewrite size_list_to_set in Hsub by done.
  by rewrite length_fmap, size_dom in Hsub.
Qed.

Lemma inv_null c s a0 v0 ns holder : inv_at c s a0 v0 ns holder -> heap s !! 0 = None.
Proof.
  intros I. destruct (heap s !! 0) eqn:E; [|done]. exfalso.
  destruct (i_noleak _ _ _ _ _ _ I 0) as [H|[t H]]; [by rewrite E|by apply I in H|].
  destruct (i_owned _ _ _ _ _ _ I _ _ H) as (_ & ? & _). done.
Qed.

Lemma inv_contents c s a0 v0 ns holder : inv_at c s a0 v0 ns holder -> contents s = ns.*2.
Proof.
  intros I. unfold contents. rewrite (i_head _ _ _ _ _ _ I).
  eapply linked_walk; [by eapply inv_null| |apply I].
  pose proof (linked_size (heap s) ((a0, v0) :: ns)) as H. simpl in H.
  destruct I. specialize (H i_nodup0 i_linked0). lia.
Qed.

(** C1.  First in, first out, under every interleaving of any number of
    enqueuing threads with the one consumer: the values whose nodes were linked,
    in link order, are exactly the values [dequeue] returned, then the value of a
    [dequeue] that has swung [Head] but not returned, then the values still in
    the list.  No value is lost, duplicated or reordered. *)
Theorem lock_queue_fifo c s :
  reach c s -> enqd s = deqd s ++ in_flight (thr s c) ++ contents s.
Proof.
  intros (a0 & v0 & ns & holder & I)%reach_inv.
  rewrite (inv_contents _ _ _ _ _ _ I). apply I.
Qed.

(** Memory safety: no step of a reachable state dereferences or frees a node
    that is not allocated, although [dequeue] frees the old dummy without taking
    the lock and [malloc] may hand its address out again at once. *)
Theorem lock_queue_no_fault c s a :
  reach c s -> enabled c s a = true -> exists s', exec s a = Ok s'.
Proof.
  intros (a0 & v0 & ns & holder & I)%reach_inv He.
  destruct a as [t v p|t|t]; simpl; eauto. unfold tick.
  pose proof (i_consumer _ _ _ _ _ _ I t) as Hc. pose proof (i_deq _ _ _ _ _ _ I) as Hd.
  destruct (thr s t) eqn:Ht; simpl; eauto; try (rewrite <- (Hc eq_refl), Ht in Hd; simpl in Hd).
  - assert (holder = Some t) as -> by (apply I; by rewrite Ht).
    pose proof (i_tail _ _ _ _ _ _ I) as Htl. simpl in Htl. rewrite Ht in Htl.
    destruct (linked_last (heap s) ((a0, v0) :: ns) (Tail (Q s))) as [w Hw]; [apply I|done|].
    unfold store_next. rewrite Hw. simpl. eauto.
  - subst. rewrite (dummy_node _ _ _ _ _ _ I). simpl. eauto.
  - destruct Hd as (_ & w & ns' & ->). pose proof (i_linked _ _ _ _ _ _ I) as (_ & Hl & _).
    rewrite Hl. simpl. eauto.
  - destruct (i_owned _ _ _ _ _ _ I t node) as (_ & _ & [x Hx]); [by rewrite Ht|].
    rewrite Hx. simpl. eauto.
Qed.

(** Mutual exclusion of [coremu_spin_lock]: at most one thread is between
    [coremu_spin_lock(&Q->t_lock)] and [coremu_spin_unlock]. *)
Theorem lock_queue_mutex c s t1 t2 :
  reach c s -> in_cs (thr s t1) = true -> in_cs (thr s t2) = true -> t1 = t2.
Proof.
  intros (a0 & v0 & ns & holder & I)%reach_inv H1 H2.
  apply (i_holder _ _ _ _ _ _ I) in H1, H2. congruence.
Qed.

(** [dequeue] answers [false] only for an empty queue: when the consumer
    reads a null [node->next], every value linked so far has been returned. *)
Theorem lock_queue_false_empty c s n nd :
  reach c s -> thr s c = DeqRead n -> heap s !! n = Some nd -> next nd = 0 ->
  enqd s = deqd s /\ contents s = [].
Proof.
  intros Hr Ht Hn Hz.
  apply reach_inv in Hr as (a0 & v0 & ns & holder & I).
  pose proof (i_deq _ _ _ _ _ _ I) as Hd. rewrite Ht in Hd. simpl in Hd. subst n.
  rewrite (dummy_node _ _ _ _ _ _ I) in Hn. simplify_eq/=.
  destruct ns as [|[a1 v1] ns']; simpl in *.
  - split; [|by rewrite (inv_contents _ _ _ _ _ _ I)].
    pose proof (i_fifo _ _ _ _ _ _ I) as Hf. rewrite Ht in Hf. simpl in Hf.
    by rewrite app_nil_r in Hf.
  - subst. exfalso. apply (i_nonnull _ _ _ _ _ _ I). set_solver.
Qed.

(** The size [coremu_intr_p] tests is trustworthy for the consumer: while it
    is outside [dequeue], a positive [queue_get_size] means the list is not empty,
    so the [dequeue] of [coremu_get_intr] finds a value; [main/intr.c] handles an
    empty queue at that point as a possible bug of the queue. *)
Theorem lock_queue_size_positive c s :
  reach c s -> is_deq (thr s c) = false ->
  0 < queue_get_size (Q s) -> Z.of_nat (length (contents s)) < 2 ^ 63 ->
  contents s <> [].
Proof.
  intros (a0 & v0 & ns & holder & I)%reach_inv Hd Hsz Hlen.
  rewrite (inv_contents _ _ _ _ _ _ I) in *. rewrite length_fmap in Hlen.
  pose proof (i_count _ _ _ _ _ _ I) as Hc.
  assert (in_flight (thr s c) = []) as Hf by (by destruct (thr s c)).
  destruct ns as [|[a1 v1] ns']; [|done]. exfalso.
  rewrite Hf in Hc. unfold queue_get_size in Hsz. rewrite Hc in Hsz.
  simpl in Hsz. destruct (default Idle _); simpl in Hsz; vm_compute in Hsz; done.
Qed.

(** ** Sequential use *)

(** [repr h q vs]: nobody is inside a call and the queue holds [vs]. *)
Definition repr (h : heap_t) (q : queue_t) (vs : list Z) : Prop :=
  exists a0 v0 ns,
    linked h ((a0, v0) :: ns) /\ NoDup (a0 :: ns.*1) /\ 0 ∉ a0 :: ns.*1 /\
    Head q = a0 /\ last (a0 :: ns.*1) = Some (Tail q) /\ t_lock q = 0 /\
    vs = ns.*2 /\ count q = u64 (Z.of_nat (length vs)) /\
    (forall a, is_Some (h !! a) -> a ∈ a0 :: ns.*1).

(** Whenever every thread is outside [enqueue] and [dequeue], the queue
    represents exactly the values enqueued and not yet dequeued: the lock is
    free, [Tail] is the last node, [count] is the length, and the only nodes
    allocated are those of the list, so nothing leaked. *)
Theorem lock_queue_quiescent c s :
  reach c s -> (forall t, thr s t = Idle) ->
  exists vs, repr (heap s) (Q s) vs /\ enqd s = deqd s ++ vs.
Proof.
  intros (a0 & v0 & ns & holder & I)%reach_inv Hidle. exists (ns.*2).
  pose proof (i_fifo _ _ _ _ _ _ I) as Hf. rewrite Hidle in Hf. split; [|done].
  assert (holder = None) as ->.
  { destruct holder as [t|]; [|done]. pose proof (i_holder _ _ _ _ _ _ I t) as H.
    rewrite Hidle in H. destruct H as [_ H]. by specialize (H eq_refl). }
  exists a0, v0, ns. destruct I. simpl in *. rewrite Hidle in i_count0.
  split_and!; try done; try apply i_linked0.
  - rewrite i_count0, length_fmap. f_equal. simpl. lia.
  - intros a [?|[t Ht]]%i_noleak0; [done|]. by rewrite Hidle in Ht.
Qed.

(** What the C library promises of [malloc]: null, or an address that is not
    allocated. *)
Definition malloc_ok (malloc : heap_t -> Z) : Prop :=
  forall h, malloc h = 0 \/ h !! malloc h = None.

Lemma new_queue_repr malloc h q :
  malloc ∅ <> 0 -> new_queue malloc ∅ = Ok (h, q) -> repr h q [].
Proof.
  intros Hm H. unfold new_queue, initialize, new_node in H.
  rewrite (proj2 (Z.eqb_neq _ _) Hm) in H. simpl in H.
  unfold store_next in H. rewrite lookup_insert_eq in H. simpl in H. inv_ok.
  rewrite insert_insert_eq. exists (malloc ∅), 0, []. simpl.
  split_and!; try done.
  - by rewrite lookup_insert_eq.
  - apply NoDup_singleton.
  - set_solver.
  - intros a. rewrite insert_empty, lookup_singleton_is_Some. set_solver.
Qed.

(** [enqueue] run by one thread appends, and always gets through the free lock. *)
Lemma enqueue_repr malloc h q vs v :
  malloc_ok malloc -> malloc h <> 0 -> repr h q vs ->
  exists h' q', enqueue malloc h q v = Ok (Some (h', q')) /\ repr h' q' (vs ++ [v]).
Proof.
  intros Hok Hm (a0 & v0 & ns & Hl & Hnd & Hnn & Hh & Ht & Hlock & -> & Hc & Hnl).
  destruct (Hok h) as [|Hfresh]; [done|]. set (p := malloc h) in *.
  assert (p ∉ a0 :: ns.*1) as Hp.
  { intros Hin. eapply (linked_is_Some h ((a0, v0) :: ns)) in Hin; [|done].
    rewrite Hfresh in Hin. by destruct Hin. }
  set (h1 := <[p := mk_node 0 v]> h).
  destruct (linked_last h ((a0, v0) :: ns) (Tail q)) as [w Hw]; [done..|].
  assert (Tail q <> p) as Htp by (intros <-; congruence).
  exists (<[Tail q := mk_node p w]> h1), (mk_queue (Head q) p (atomic_inc 64 (count q)) 0).
  split.
  - unfold enqueue, new_node. fold p. rewrite (proj2 (Z.eqb_neq _ _) Hm). simpl.
    unfold store_value, store_next. rewrite lookup_insert_eq. simpl.
    rewrite lookup_insert_eq. simpl. rewrite !insert_insert_eq, Hlock. simpl.
    rewrite lookup_insert_ne, Hw by done. done.
  - exists a0, v0, (ns ++ [(p, v)]). split_and!; simpl; try done.
    + apply (linked_snoc h1 ((a0, v0) :: ns)); try done.
      * by apply (linked_insert_ne h ((a0, v0) :: ns)).
      * unfold h1. by rewrite lookup_insert_ne.
      * unfold h1. by rewrite lookup_insert_eq.
    + rewrite addrs_snoc. apply NoDup_app. split_and!; [done| |apply NoDup_singleton]. set_solver.
    + rewrite addrs_snoc. set_solver.
    + apply (last_snoc_addr ns p v).
    + by rewrite fmap_app.
    + rewrite Hc. unfold atomic_inc. rewrite wrap_add_l, length_app. f_equal. simpl. lia.
    + intros a. rewrite addrs_snoc. unfold h1. rewrite !lookup_insert_is_Some'.
      intros [<-|[<-|Ha]]; [|set_solver|apply Hnl in Ha; set_solver].
      apply last_Some_elem_of in Ht. set_solver.
Qed.

Lemma repr_null h q vs : repr h q vs -> h !! 0 = None.
Proof.
  intros (a0 & v0 & ns & Hl & Hnd & Hnn & Hh & Ht & Hlock & -> & Hc & Hnl).
  destruct (h !! 0) eqn:E; [|done]. exfalso. apply Hnn, Hnl. by rewrite E.
Qed.

(** [dequeue] run by one thread returns the first value, or [false] when there is
    none. *)
Lemma dequeue_repr h q vs :
  repr h q vs ->
  match vs with
  | [] => dequeue h q = Ok (h, q, None)
  | v :: vs' => exists h' q', dequeue h q = Ok (h', q', Some v) /\ repr h' q' vs'
  end.
Proof.
  intros (a0 & v0 & ns & (Hd & Hl) & Hnd & Hnn & Hh & Ht & Hlock & -> & Hc & Hnl).
  unfold dequeue. rewrite Hh, Hd. simpl. destruct ns as [|[a1 v1] ns]; simpl in *; [done|].
  rewrite (proj2 (Z.eqb_neq a1 0)) by set_solver.
  pose proof Hl as [Ha1 _]. rewrite Ha1. simpl.
  eexists _, _. split; [done|]. apply NoDup_cons in Hnd as [Ha0 Hnd].
  exists a1, v1, ns. split_and!; simpl; try done.
  - rewrite lookup_delete_ne by set_solver. split; [done|].
    apply linked_delete_ne; [set_solver|apply Hl].
  - set_solver.
  - rewrite Hc. unfold atomic_dec. rewrite wrap_sub_l. f_equal. lia.
  - intros a. rewrite lookup_delete_is_Some. intros [Hne Ha%Hnl]. set_solver.
Qed.

(** ** Schedules and witnesses *)

(** Runs a schedule; [Abort] when an action is not enabled. *)
Fixpoint run (c : nat) (s : state) (l : list action) : outcome state :=
  match l with
  | [] => Ok s
  | a :: l => if enabled c s a then let! s := exec s a in run c s l else Abort
  end.

Lemma run_reach c s l s' : reach c s -> run c s l = Ok s' -> reach c s'.
Proof.
  revert s. induction l as [|a l IH]; simpl; intros s Hr H; simplify_eq; [done|].
  destruct (enabled c s a) eqn:E; [|done]. inv_ok. eapply IH; [|done].
  by eapply reach_step.
Qed.

Lemma run_cons c s a l s' :
  run c s (a :: l) = Ok s' ->
  enabled c s a = true /\ exists s1, exec s a = Ok s1 /\ run c s1 l = Ok s'.
Proof. simpl. destruct (enabled c s a); [|done]. intros. inv_ok. eauto. Qed.

(** One thread running [enqueue] alone. *)
Definition solo_enqueue (t : nat) (v p : Z) : list action :=
  [StartEnq t v p; Tick t; Tick t; Tick t; Tick t; Tick t].

(** The interleaved program counters and the whole function agree: a thread
    that runs [enqueue] with no other thread moving ends in the heap and queue
    the C function computes. *)
Theorem lock_queue_solo_enqueue c malloc s t v s' :
  t_lock (Q s) = 0 -> run c s (solo_enqueue t v (malloc (heap s))) = Ok s' ->
  enqueue malloc (heap s) (Q s) v = Ok (Some (heap s', Q s')) /\ thr s' t = Idle.
Proof.
  intros Hl H. unfold solo_enqueue in H.
  apply run_cons in H as (He & s1 & E1 & H). simpl in He, E1. bool_to_prop. simplify_eq.
  assert (forall f : nat -> pc, forall p, <[t := p]> f t = p) as Hf by (intros; apply fn_lookup_insert).
  do 5 (apply run_cons in H as (_ & s1 & E1 & H); simpl in E1; unfold tick in E1; simpl in E1;
    rewrite !Hf, ?Hl in E1; simpl in E1; inv_ok).
  simpl in H. simplify_eq. simpl. rewrite Hf. split; [|done].
  unfold enqueue, new_node. rewrite (proj2 (Z.eqb_neq _ _) H2). simpl.
  unfold store_value, store_next at 1. rewrite lookup_insert_eq. simpl.
  rewrite lookup_insert_eq. simpl. rewrite !insert_insert_eq, Hl. simpl.
  rewrite E. done.
Qed.

(** The consumer 0 dequeues the value thread 1 has just linked and frees the old
    dummy at 16 while [Q->Tail] still points to it; [malloc] hands 16 out again
    to thread 3, and thread 2 spins on the lock. *)
Definition demo_race : list action :=
  [StartEnq 1 101 32; Tick 1; Tick 1; StartEnq 2 102 48; Tick 2;
   StartDeq 0; Tick 0; Tick 0; Tick 0; Tick 0; StartEnq 3 103 16;
   Tick 1; Tick 1; Tick 2; Tick 1; Tick 2; Tick 2].

(** The same, run until every thread has returned. *)
Definition demo_done : list action :=
  demo_race ++ [Tick 0; Tick 2; Tick 2; Tick 2] ++ replicate 5 (Tick 3).

Definition demo_empty : list action := [StartDeq 0].

Definition demo_one : list action := solo_enqueue 1 7 32.

Definition is_ok {A} (r : outcome A) : bool := if r is Ok _ then true else false.

(** The state a schedule of consumer 0 leads to from the new queue at 16. *)
Definition demo (l : list action) : state :=
  if run 0 (init_state 16) l is Ok s then s else init_state 16.

Lemma demo_reach l : is_ok (run 0 (init_state 16) l) = true -> reach 0 (demo l).
Proof.
  unfold demo. destruct (run 0 (init_state 16) l) eqn:E; try done. intros _.
  eapply run_reach; [|done]. by apply reach_init.
Qed.

Ltac demo_ok := by apply demo_reach; vm_compute.

Lemma lock_queue_fifo_witness :
  let s := demo demo_race in
  enqd s = deqd s ++ in_flight (thr s 0%nat) ++ contents s /\ deqd s = [] /\
  in_flight (thr s 0%nat) = [101] /\ contents s = [102].
Proof.
  split; [apply (lock_queue_fifo 0); demo_ok|]. by split_and!; vm_compute.
Defined.

Lemma lock_queue_no_fault_witness : exists s', exec (demo demo_race) (Tick 0) = Ok s'.
Proof. apply (lock_queue_no_fault 0); [demo_ok|by vm_compute]. Defined.

Lemma lock_queue_mutex_witness :
  in_cs (thr (demo demo_race) 2%nat) = true /\
  (forall t, in_cs (thr (demo demo_race) t) = true -> t = 2%nat).
Proof.
  split; [by vm_compute|]. intros t Ht.
  apply (lock_queue_mutex 0 (demo demo_race) t 2); [demo_ok|done|by vm_compute].
Defined.

Lemma lock_queue_false_empty_witness :
  enqd (demo demo_empty) = deqd (demo demo_empty) /\ contents (demo demo_empty) = [].
Proof.
  apply (lock_queue_false_empty 0 _ 16 (mk_node 0 0)); [demo_ok|by vm_compute..].
Defined.

Lemma lock_queue_size_positive_witness : contents (demo demo_one) <> [].
Proof. apply (lock_queue_size_positive 0); [demo_ok|by vm_compute..]. Defined.

Lemma demo_done_idle t : thr (demo demo_done) t = Idle.
Proof.
  destruct t as [|[|[|[|t]]]]; [by vm_compute..|].
  change (thr (demo demo_done) (S (S (S (S t)))) = thr (init_state 16) (S (S (S (S t))))).
  unfold demo. by vm_compute.
Qed.

Lemma lock_queue_quiescent_witness :
  exists vs, repr (heap (demo demo_done)) (Q (demo demo_done)) vs /\
             enqd (demo demo_done) = deqd (demo demo_done) ++ vs.
Proof. apply (lock_queue_quiescent 0); [demo_ok|apply demo_done_idle]. Defined.

(** An allocator that bumps past the highest address in use. *)
Definition bump_malloc (h : heap_t) : Z :=
  16 + map_fold (fun a _ m => Z.max a m) 0 h.

Lemma bump_malloc_ok : malloc_ok bump_malloc.
Proof.
  assert (forall (h : heap_t) a n, h !! a = Some n -> a <= map_fold (fun a _ m => Z.max a m) 0 h) as H.
  { intros h. induction h as [|i x h Hi IH] using map_ind; intros a n.
    - by rewrite lookup_empty.
    - rewrite map_fold_insert_L by (done || (intros; lia)).
      destruct (decide (i = a)) as [->|]; [lia|].
      rewrite lookup_insert_ne by done. intros ?%IH. lia. }
  intros h. right. destruct (h !! bump_malloc h) eqn:E; [exfalso|done].
  apply H in E. unfold bump_malloc in E. lia.
Qed.

Definition repr_empty_demo : heap_t * queue_t :=
  if new_queue bump_malloc ∅ is Ok r then r else (∅, mk_queue 0 0 0 0).

Lemma repr_empty_demo_ok : repr repr_empty_demo.1 repr_empty_demo.2 [].
Proof. by apply (new_queue_repr bump_malloc); vm_compute. Qed.

Example repr_empty_demo_enqueue :
  exists h' q', enqueue bump_malloc repr_empty_demo.1 repr_empty_demo.2 5 = Ok (Some (h', q')) /\
                repr h' q' [5].
Proof.
  apply (enqueue_repr bump_malloc _ _ [] 5);
    [apply bump_malloc_ok|by vm_compute|apply repr_empty_demo_ok].
Qed.
