(* ===== verification/MsQueue.v ===== *)
(** * The lock free queue of [main/ms-queue.c]

    Michael and Scott's queue with counted pointers, any number of enqueuing and
    dequeuing threads.  As in [LockQueue], the functions are given as whole C
    functions ([enqueue], [dequeue], with fuel for the retry loops) and as
    threads that interleave at every access to shared memory ([tick]).  A
    structure copy such as [tail = Q->Tail] is two 64-bit loads, and so is the
    [*p1] that [cmp128] passes to its compare-and-swap, so snapshots may be torn.

    [free] gives the node's memory back to the C allocator, which may hand it out again
    ([StartEnq] at a freed address) or write over it ([Overwrite]); a thread that still
    holds the pointer reads what is there then.  [reused] records whether either has
    happened.  The published algorithm keeps freed nodes on a list of its own, and the
    theorems are for runs in which freed memory is left alone; [ms_queue_reuse_breaks]
    is a run without that in which an element is lost. *)

From S2P Require Import Prelude Atomic.
Local Open Scope Z_scope.
Local Open Scope coremu_scope.

(** ** Data *)

(** The pointer and its tag. *)
Abbreviation pointer_t := (Z * Z)%type.

Record node_t := mk_node { next : pointer_t; value : Z }.

Record queue_t := mk_queue { Head : pointer_t; Tail : pointer_t; count : Z }.

Definition nil : Z := 0.
Definition ALIGNMENT : Z := 16.

Abbreviation heap_t := (gmap Z node_t).

Definition set_head (q : queue_t) (x : pointer_t) := mk_queue x (Tail q) (count q).
Definition set_tail (q : queue_t) (x : pointer_t) := mk_queue (Head q) x (count q).
Definition set_count (q : queue_t) (x : Z) := mk_queue (Head q) (Tail q) x.

(** [CAS] on the pointer stored at [addr], whose value is [m]: the new value and
    whether the swap took place.  Misalignment fails the assertion. *)
Definition CAS (addr : Z) (m old new : pointer_t) : outcome (pointer_t * bool) :=
  let! _ := oassert (Z.land addr 15 =? 0) in
  let '(m', z) := atomic_compare_exchange16b m old.1 old.2 new.1 new.2 in
  Ok (m', negb (z =? 0)).

(** [cmp128(p1, p2)]: a compare-and-swap of [*p1] against [*p2] that stores back
    the value [w] of [*p1] loaded before. *)
Definition cmp128 (addr : Z) (m p2 w : pointer_t) : outcome (pointer_t * bool) :=
  CAS addr m p2 w.

Definition tag_succ (c : Z) : Z := u64 (c + 1).

(** ** Whole functions, run by a single thread *)

Section Sequential.
(** [ms_allocaligned] for a node: the address and the bytes found in the tag of
    its [next] field, which [new_node] leaves uninitialised; no address when
    memory is exhausted, which the code does not test for. *)
Context (ms_allocaligned : heap_t -> option (Z * Z)).
(** The address of the queue object. *)
Context (qaddr : Z).

Definition new_node (h : heap_t) : outcome (heap_t * Z) :=
  let! '(p, g) := of_option (ms_allocaligned h) in
  Ok (<[p := mk_node (0, g) 0]> h, p).

Definition store_next (h : heap_t) (p : Z) (x : pointer_t) : outcome heap_t :=
  let! n := of_option (h !! p) in Ok (<[p := mk_node x (value n)]> h).

Definition initialize (h : heap_t) : outcome (heap_t * queue_t) :=
  let! '(h, node) := new_node h in
  let! n := of_option (h !! node) in
  let! h := store_next h node (0, (next n).2) in
  Ok (h, mk_queue (node, nil) (node, nil) 0).

Definition new_queue (h : heap_t) : outcome (heap_t * queue_t) :=
  let! '(h, q) := initialize h in
  let! _ := oassert (negb ((Head q).1 =? 0)) in
  let! _ := oassert (negb ((Tail q).1 =? 0)) in
  let! _ := oassert ((Head q).1 =? (Tail q).1) in
  Ok (h, q).

(** The retry loop of [enqueue]: the heap, the queue and [tail] when it breaks;
    [None] when the fuel runs out first. *)
Fixpoint enqueue_loop (fuel : nat) (h : heap_t) (q : queue_t) (node : Z)
  : outcome (option (heap_t * queue_t * pointer_t)) :=
  match fuel with
  | O => Ok None
  | S fuel =>
      let tail := Tail q in
      let! tn := of_option (h !! tail.1) in
      let nxt := next tn in
      let! '(m, same) := cmp128 (qaddr + 16) (Tail q) tail (Tail q) in
      let q := set_tail q m in
      if same then
        if nxt.1 =? 0 then
          let new_ptr := (node, tag_succ nxt.2) in
          let! cur := of_option (h !! tail.1) in
          let! '(m, done) := CAS tail.1 (next cur) nxt new_ptr in
          let! h := store_next h tail.1 m in
          if done then Ok (Some (h, q, tail)) else enqueue_loop fuel h q node
        else
          let new_ptr := (nxt.1, tag_succ tail.2) in
          let! '(m, _) := CAS (qaddr + 16) (Tail q) tail new_ptr in
          enqueue_loop fuel h (set_tail q m) node
      else enqueue_loop fuel h q node
  end.

(** [enqueue]; [blocked] is the thread's signal mask (everything blocked or
    not), which [coremu_sigmask_blk] saves and [coremu_sigmask_res] restores. *)
Definition enqueue (fuel : nat) (h : heap_t) (q : queue_t) (blocked : bool) (v : Z)
  : outcome (option (heap_t * queue_t * bool)) :=
  let save_sig_set := blocked in
  let! '(h, node) := new_node h in
  let! n := of_option (h !! node) in
  let h := <[node := mk_node (0, (next n).2) v]> h in
  let! r := enqueue_loop fuel h q node in
  match r with
  | None => Ok None
  | Some (h, q, tail) =>
      let new_ptr := (node, tag_succ tail.2) in
      let! '(m, _) := CAS (qaddr + 16) (Tail q) tail new_ptr in
      let q := set_tail q m in
      let q := set_count q (atomic_inc 64 (count q)) in
      Ok (Some (h, q, save_sig_set))
  end.

(** How the retry loop of [dequeue] ends: [return false] from inside it, or a
    [break] with [head] and the value stored through [pvalue]. *)
Inductive deq_result :=
| DeqFalse
| DeqBreak (head : pointer_t) (v : Z).

Fixpoint dequeue_loop (fuel : nat) (h : heap_t) (q : queue_t)
  : outcome (option (queue_t * deq_result)) :=
  match fuel with
  | O => Ok None
  | S fuel =>
      let head := Head q in
      let tail := Tail q in
      let! hn := of_option (h !! head.1) in
      let nxt := next hn in
      let! '(m, same) := cmp128 qaddr (Head q) head (Head q) in
      let q := set_head q m in
      if same then
        if head.1 =? tail.1 then
          if nxt.1 =? 0 then Ok (Some (q, DeqFalse))
          else
            let new_ptr := (nxt.1, tag_succ tail.2) in
            let! '(m, _) := CAS (qaddr + 16) (Tail q) tail new_ptr in
            dequeue_loop fuel h (set_tail q m)
        else
          let! nn := of_option (h !! nxt.1) in
          let v := value nn in
          let new_ptr := (nxt.1, tag_succ head.2) in
          let! '(m, done) := CAS qaddr (Head q) head new_ptr in
          let q := set_head q m in
          if done then Ok (Some (q, DeqBreak head v)) else dequeue_loop fuel h q
      else dequeue_loop fuel h q
  end.

(** [dequeue]: on the empty queue it returns from inside the loop, and the
    [coremu_sigmask_res] written after that [return] is never reached. *)
Definition dequeue (fuel : nat) (h : heap_t) (q : queue_t) (blocked : bool)
  : outcome (option (heap_t * queue_t * bool * option Z)) :=
  let save_sig_set := blocked in
  let! r := dequeue_loop fuel h q in
  match r with
  | None => Ok None
  | Some (q, DeqFalse) => Ok (Some (h, q, true, None))
  | Some (q, DeqBreak head v) =>
      let h := delete head.1 h in
      let q := set_count q (atomic_dec 64 (count q)) in
      Ok (Some (h, q, save_sig_set, Some v))
  end.

Definition queue_get_size (q : queue_t) : Z := s64 (count q).
End Sequential.

(** The values [print_queue] prints: every node from [Head] on, the dummy
    included; [fuel] bounds the walk. *)
Fixpoint print_queue_from (fuel : nat) (h : heap_t) (cur : Z) : list Z :=
  match fuel with
  | O => []
  | S fuel =>
      if cur =? 0 then []
      else match h !! cur with
           | None => []
           | Some n => value n :: print_queue_from fuel h (next n).1
           end
  end.

Definition print_queue (h : heap_t) (q : queue_t) : list Z :=
  print_queue_from (S (size h)) h (Head q).1.

Definition queue_version : string := "lock free concurrent queue".

(** ** Interleaved threads *)

(** Where a thread is, with its live locals; [tp], [np], [wp] are the pointer
    half of a pair whose tag is not loaded yet. *)
Inductive pc :=
| Idle
| E0 (node v : Z)                                        (* at tail = Q->Tail, pointer *)
| E1 (node v tp : Z)                                     (* ... tag *)
| E2 (node v : Z) (tail : pointer_t)                     (* at next = tail.ptr->next, pointer *)
| E3 (node v : Z) (tail : pointer_t) (np : Z)            (* ... tag *)
| E4 (node v : Z) (tail nxt : pointer_t)                 (* in cmp128: *p1, pointer *)
| E5 (node v : Z) (tail nxt : pointer_t) (wp : Z)        (* ... tag *)
| E6 (node v : Z) (tail nxt w : pointer_t)               (* ... compare-and-swap *)
| ELink (node v : Z) (tail nxt : pointer_t)              (* at CAS(&tail.ptr->next, ...) *)
| EHelp (node v : Z) (tail nxt : pointer_t)              (* at CAS(&Q->Tail, ...), tail behind *)
| ESwing (node : Z) (tail : pointer_t)                   (* at the last CAS(&Q->Tail, ...) *)
| EInc
| D0                                                     (* at head = Q->Head, pointer *)
| D1 (hp : Z)
| D2 (head : pointer_t)                                  (* at tail = Q->Tail, pointer *)
| D3 (head : pointer_t) (tp : Z)
| D4 (head tail : pointer_t)                             (* at next = head.ptr->next, pointer *)
| D5 (head tail : pointer_t) (np : Z)
| D6 (head tail nxt : pointer_t)                         (* in cmp128 *)
| D7 (head tail nxt : pointer_t) (wp : Z)
| D8 (head tail nxt w : pointer_t)
| DHelp (tail nxt : pointer_t)                           (* at CAS(&Q->Tail, ...) *)
| DVal (head nxt : pointer_t)                            (* at *pvalue = next.ptr->value *)
| DSwing (head nxt : pointer_t) (v : Z)                  (* at CAS(&Q->Head, ...) *)
| DFree (a v : Z)                                        (* at ms_free(head.ptr) *)
| DDec (v : Z).                                          (* at atomic_decq(&Q->count) *)

#[global] Instance pc_eq_dec : EqDecision pc.
Proof. solve_decision. Defined.

(** [freed] is the set of nodes given to [free] and not handed out again; [reused] tells
    whether freed memory has been handed out again or overwritten; [enqd] logs the values
    in link order and [deqd] the values taken in the order [Head] was swung. *)
Record state := mk_state {
  heap : heap_t; freed : gset Z; reused : bool; Q : queue_t; qaddr : Z; thr : nat -> pc;
  enqd : list Z; deqd : list Z }.

Definition goto (s : state) (t : nat) (p : pc) : state :=
  mk_state (heap s) (freed s) (reused s) (Q s) (qaddr s) (<[t := p]> (thr s)) (enqd s) (deqd s).
Definition with_Q (s : state) (q : queue_t) : state :=
  mk_state (heap s) (freed s) (reused s) q (qaddr s) (thr s) (enqd s) (deqd s).
Definition with_heap (s : state) (h : heap_t) : state :=
  mk_state h (freed s) (reused s) (Q s) (qaddr s) (thr s) (enqd s) (deqd s).
Definition with_freed (s : state) (f : gset Z) : state :=
  mk_state (heap s) f (reused s) (Q s) (qaddr s) (thr s) (enqd s) (deqd s).
Definition with_reused (s : state) (b : bool) : state :=
  mk_state (heap s) (freed s) b (Q s) (qaddr s) (thr s) (enqd s) (deqd s).
Definition log_enq (s : state) (v : Z) : state :=
  mk_state (heap s) (freed s) (reused s) (Q s) (qaddr s) (thr s) (enqd s ++ [v]) (deqd s).
Definition log_deq (s : state) (v : Z) : state :=
  mk_state (heap s) (freed s) (reused s) (Q s) (qaddr s) (thr s) (enqd s) (deqd s ++ [v]).

(** [CAS(&Q->Tail, old, new)], [CAS(&Q->Head, old, new)] *)
Definition cas_tail (s : state) (old new : pointer_t) : outcome (state * bool) :=
  let! '(m, z) := CAS (qaddr s + 16) (Tail (Q s)) old new in
  Ok (with_Q s (set_tail (Q s) m), z).
Definition cas_head (s : state) (old new : pointer_t) : outcome (state * bool) :=
  let! '(m, z) := CAS (qaddr s) (Head (Q s)) old new in
  Ok (with_Q s (set_head (Q s) m), z).

(** One access of thread [t] to shared memory. *)
Definition tick (s : state) (t : nat) : outcome state :=
  match thr s t with
  | Idle => Ok s
  | E0 node v => Ok (goto s t (E1 node v (Tail (Q s)).1))
  | E1 node v tp => Ok (goto s t (E2 node v (tp, (Tail (Q s)).2)))
  | E2 node v tail =>
      let! n := of_option (heap s !! tail.1) in Ok (goto s t (E3 node v tail (next n).1))
  | E3 node v tail np =>
      let! n := of_option (heap s !! tail.1) in Ok (goto s t (E4 node v tail (np, (next n).2)))
  | E4 node v tail nxt => Ok (goto s t (E5 node v tail nxt (Tail (Q s)).1))
  | E5 node v tail nxt wp => Ok (goto s t (E6 node v tail nxt (wp, (Tail (Q s)).2)))
  | E6 node v tail nxt w =>
      let! '(s, same) := cas_tail s tail w in
      Ok (goto s t (if same then if nxt.1 =? 0 then ELink node v tail nxt else EHelp node v tail nxt
                    else E0 node v))
  | ELink node v tail nxt =>
      let! n := of_option (heap s !! tail.1) in
      let! '(m, done) := CAS tail.1 (next n) nxt (node, tag_succ nxt.2) in
      let s := with_heap s (<[tail.1 := mk_node m (value n)]> (heap s)) in
      Ok (if done then goto (log_enq s v) t (ESwing node tail) else goto s t (E0 node v))
  | EHelp node v tail nxt =>
      let! '(s, _) := cas_tail s tail (nxt.1, tag_succ tail.2) in Ok (goto s t (E0 node v))
  | ESwing node tail =>
      let! '(s, _) := cas_tail s tail (node, tag_succ tail.2) in Ok (goto s t EInc)
  | EInc => Ok (goto (with_Q s (set_count (Q s) (atomic_inc 64 (count (Q s))))) t Idle)
  | D0 => Ok (goto s t (D1 (Head (Q s)).1))
  | D1 hp => Ok (goto s t (D2 (hp, (Head (Q s)).2)))
  | D2 head => Ok (goto s t (D3 head (Tail (Q s)).1))
  | D3 head tp => Ok (goto s t (D4 head (tp, (Tail (Q s)).2)))
  | D4 head tail =>
      let! n := of_option (heap s !! head.1) in Ok (goto s t (D5 head tail (next n).1))
  | D5 head tail np =>
      let! n := of_option (heap s !! head.1) in Ok (goto s t (D6 head tail (np, (next n).2)))
  | D6 head tail nxt => Ok (goto s t (D7 head tail nxt (Head (Q s)).1))
  | D7 head tail nxt wp => Ok (goto s t (D8 head tail nxt (wp, (Head (Q s)).2)))
  | D8 head tail nxt w =>
      let! '(s, same) := cas_head s head w in
      Ok (goto s t (if same then
                      if head.1 =? tail.1 then if nxt.1 =? 0 then Idle else DHelp tail nxt
                      else DVal head nxt
                    else D0))
  | DHelp tail nxt =>
      let! '(s, _) := cas_tail s tail (nxt.1, tag_succ tail.2) in Ok (goto s t D0)
  | DVal head nxt =>
      let! n := of_option (heap s !! nxt.1) in Ok (goto s t (DSwing head nxt (value n)))
  | DSwing head nxt v =>
      let! '(s, done) := cas_head s head (nxt.1, tag_succ head.2) in
      Ok (if done then goto (log_deq s v) t (DFree head.1 v) else goto s t D0)
  | DFree a v => Ok (goto (with_freed s ({[a]} ∪ freed s)) t (DDec v))
  | DDec v => Ok (goto (with_Q s (set_count (Q s) (atomic_dec 64 (count (Q s))))) t Idle)
  end.

Inductive action :=
| StartEnq (t : nat) (v p g : Z)  (* enqueue(Q, v); new_node returned p, tag bytes g *)
| StartDeq (t : nat)
| Tick (t : nat)
| Overwrite (a : Z) (n : node_t). (* the allocator, or who got the memory, stores there *)

Definition exec (s : state) (a : action) : outcome state :=
  match a with
  | StartEnq t v p g =>
      let again := reused s || bool_decide (p ∈ freed s) in
      let s := with_reused (with_freed (with_heap s (<[p := mk_node (0, g) v]> (heap s))) (freed s ∖ {[p]})) again in
      Ok (goto s t (E0 p v))
  | StartDeq t => Ok (goto s t D0)
  | Tick t => tick s t
  | Overwrite a n => Ok (with_reused (with_heap s (<[a := n]> (heap s))) true)
  end.

(** [ms_allocaligned] returns an aligned address that is not in use: new or freed. *)
Definition enabled (s : state) (a : action) : bool :=
  match a with
  | StartEnq t v p g =>
      bool_decide (thr s t = Idle) && negb (p =? 0) && (Z.land p 15 =? 0) &&
      (bool_decide (heap s !! p = None) || bool_decide (p ∈ freed s))
  | StartDeq t => bool_decide (thr s t = Idle)
  | Tick t => negb (bool_decide (thr s t = Idle))
  | Overwrite a _ => bool_decide (a ∈ freed s)
  end.

(** The state [new_queue] leaves, its dummy node at [p] with tag bytes [g]. *)
Definition init_state (qa p g : Z) : state :=
  mk_state {[p := mk_node (0, g) 0]} ∅ false (mk_queue (p, nil) (p, nil) 0) qa (fun _ => Idle) [] [].

Inductive reach : state -> Prop :=
| reach_init qa p g :
    p <> 0 -> Z.land p 15 = 0 -> Z.land qa 15 = 0 -> reach (init_state qa p g)
| reach_step s a s' : reach s -> enabled s a = true -> exec s a = Ok s' -> reach s'.

(** ** The invariant

    [ns] lists every node ever linked (address, value), the first dummy first;
    [Head] is at index [hd] and [Tail] at index [tl] of it, and the tag of each is
    its index.  [ns] only grows at its end and the indices only increase, so what
    a thread has read stays true in the form [pc_ok] gives it. *)

Definition idx (ns : list (Z * Z)) (a : Z) (k : nat) : Prop := ns.*1 !! k = Some a.

(** A snapshot of a counted pointer whose current index is [m]: the pointer is
    node [k] and the tag is some index, neither beyond [m]. *)
Definition snap (ns : list (Z * Z)) (p : pointer_t) (k m : nat) : Prop :=
  idx ns p.1 k /\ (k <= m)%nat /\ exists c, p.2 = Z.of_nat c /\ (c <= m)%nat.

(** A consistent snapshot: the tag is the index. *)
Definition exact (ns : list (Z * Z)) (p : pointer_t) (k m : nat) : Prop :=
  idx ns p.1 k /\ (k <= m)%nat /\ p.2 = Z.of_nat k.

(** [np] was read from the [next] field of node [k]. *)
Definition next_ok (ns : list (Z * Z)) (np : Z) (k : nat) : Prop := np = 0 \/ idx ns np (S k).

(** The value [cmp128] loads after the snapshot [p] was taken. *)
Definition later (ns : list (Z * Z)) (p : pointer_t) (wp : Z) (m : nat) : Prop :=
  exists k, idx ns wp k /\ p.2 <= Z.of_nat k /\ (k <= m)%nat.

Definition later_tag (p : pointer_t) (c : Z) (m : nat) : Prop :=
  exists j, c = Z.of_nat j /\ p.2 <= c /\ (j <= m)%nat.

Definition deq_snap (ns : list (Z * Z)) (head tail : pointer_t) (i j hd tl : nat) : Prop :=
  snap ns head i hd /\ snap ns tail j tl /\ head.2 <= Z.of_nat j.

Definition deq_next (ns : list (Z * Z)) (np : Z) (i j : nat) : Prop :=
  idx ns np (S i) \/ np = 0 /\ (j <= i)%nat.

Definition pc_ok (ns : list (Z * Z)) (hd tl : nat) (p : pc) : Prop :=
  match p with
  | E1 _ _ tp => exists k, idx ns tp k /\ (k <= tl)%nat
  | E2 _ _ tail => exists k, snap ns tail k tl
  | E3 _ _ tail np => exists k, snap ns tail k tl /\ next_ok ns np k
  | E4 _ _ tail nxt => exists k, snap ns tail k tl /\ next_ok ns nxt.1 k
  | E5 _ _ tail nxt wp => exists k, snap ns tail k tl /\ next_ok ns nxt.1 k /\ later ns tail wp tl
  | E6 _ _ tail nxt w =>
      exists k, snap ns tail k tl /\ next_ok ns nxt.1 k /\ later ns tail w.1 tl /\ later_tag tail w.2 tl
  | ELink _ _ tail nxt => exists k, exact ns tail k tl /\ nxt.1 = 0
  | EHelp _ _ tail nxt => exists k, exact ns tail k tl /\ idx ns nxt.1 (S k)
  | ESwing node tail => exists k, exact ns tail k tl /\ idx ns node (S k)
  | D1 hp => exists i, idx ns hp i /\ (i <= hd)%nat
  | D2 head => exists i, snap ns head i hd
  | D3 head tp =>
      exists i j, snap ns head i hd /\ idx ns tp j /\ (j <= tl)%nat /\ head.2 <= Z.of_nat j
  | D4 head tail => exists i j, deq_snap ns head tail i j hd tl
  | D5 head tail np => exists i j, deq_snap ns head tail i j hd tl /\ deq_next ns np i j
  | D6 head tail nxt => exists i j, deq_snap ns head tail i j hd tl /\ deq_next ns nxt.1 i j
  | D7 head tail nxt wp =>
      exists i j, deq_snap ns head tail i j hd tl /\ deq_next ns nxt.1 i j /\ later ns head wp hd
  | D8 head tail nxt w =>
      exists i j, deq_snap ns head tail i j hd tl /\ deq_next ns nxt.1 i j /\
                  later ns head w.1 hd /\ later_tag head w.2 hd
  | DHelp tail nxt => exists j, snap ns tail j tl /\ idx ns nxt.1 (S j)
  | DVal head nxt => exists i, exact ns head i hd /\ idx ns nxt.1 (S i) /\ (S i <= tl)%nat
  | DSwing head nxt v =>
      exists i, exact ns head i hd /\ ns !! S i = Some (nxt.1, v) /\ (S i <= tl)%nat
  | _ => True
  end.

(** The node an [enqueue] has not linked yet. *)
Definition private (p : pc) : option (Z * Z) :=
  match p with
  | E0 n v | E1 n v _ | E2 n v _ | E3 n v _ _ | E4 n v _ _ | E5 n v _ _ _ | E6 n v _ _ _
  | ELink n v _ _ | EHelp n v _ _ => Some (n, v)
  | _ => None
  end.

Definition good_addr (a : Z) : Prop := a <> 0 /\ Z.land a 15 = 0.

Record inv_at (s : state) (ns : list (Z * Z)) (hd tl : nat) : Prop := {
  j_enqd : drop 1 ns.*2 = enqd s;
  j_nodup : NoDup ns.*1;
  j_addr a : a ∈ ns.*1 -> good_addr a;
  j_heap i a v : ns !! i = Some (a, v) ->
    exists c, heap s !! a = Some (mk_node (default 0 (ns.*1 !! S i), c) v);
  j_head : exact ns (Head (Q s)) hd hd;
  j_tail : exact ns (Tail (Q s)) tl tl;
  j_order : (hd <= tl)%nat /\ (tl < length ns)%nat /\ (length ns <= S (S tl))%nat;
  j_deqd : deqd s = take hd (enqd s);
  j_qaddr : Z.land (qaddr s) 15 = 0;
  j_private t n v : private (thr s t) = Some (n, v) ->
    good_addr n /\ n ∉ ns.*1 /\ exists g, heap s !! n = Some (mk_node (0, g) v);
  j_owner t t' n v v' :
    private (thr s t) = Some (n, v) -> private (thr s t') = Some (n, v') -> t = t';
  j_pc t : pc_ok ns hd tl (thr s t) }.

Definition inv (s : state) : Prop := exists ns hd tl, inv_at s ns hd tl.

(** *** Monotonicity *)

Section Mono.
Context (ns ns' : list (Z * Z)) (Hns : ns `prefix_of` ns').

Lemma idx_mono a k : idx ns a k -> idx ns' a k.
Proof using Hns.
  unfold idx. destruct Hns as [l ->]. rewrite fmap_app. apply lookup_app_l_Some.
Qed.

Lemma lookup_mono k x : ns !! k = Some x -> ns' !! k = Some x.
Proof using Hns. destruct Hns as [l ->]. apply lookup_app_l_Some. Qed.

Lemma snap_mono p k m m' : (m <= m')%nat -> snap ns p k m -> snap ns' p k m'.
Proof using Hns.
  intros Hm (Hi & Hk & c & Hc & Hcm). split_and!; [by apply idx_mono|lia|]. exists c. split; [done|lia].
Qed.

Lemma exact_mono p k m m' : (m <= m')%nat -> exact ns p k m -> exact ns' p k m'.
Proof using Hns. intros Hm (Hi & Hk & Hc). split_and!; [by apply idx_mono|lia|done]. Qed.

Lemma next_ok_mono np k : next_ok ns np k -> next_ok ns' np k.
Proof using Hns. intros [?|?]; [by left|right; by apply idx_mono]. Qed.

Lemma later_mono p wp m m' : (m <= m')%nat -> later ns p wp m -> later ns' p wp m'.
Proof using Hns.
  intros Hm (k & Hi & Hp & Hk). exists k. split_and!; [by apply idx_mono|done|lia].
Qed.

Lemma later_tag_mono p c m m' : (m <= m')%nat -> later_tag p c m -> later_tag p c m'.
Proof using. clear Hns. intros Hm (j & ? & ? & ?). exists j. split_and!; [done..|lia]. Qed.

Context (hd hd' tl tl' : nat) (Hhd : (hd <= hd')%nat) (Htl : (tl <= tl')%nat).

Lemma deq_snap_mono h t i j : deq_snap ns h t i j hd tl -> deq_snap ns' h t i j hd' tl'.
Proof using Hns Hhd Htl.
  intros (H1 & H2 & H3). split_and!; [by eapply snap_mono..|done].
Qed.

Lemma deq_next_mono np i j : deq_next ns np i j -> deq_next ns' np i j.
Proof using Hns. intros [?|?]; [left; by apply idx_mono|by right]. Qed.

Lemma pc_ok_mono p : pc_ok ns hd tl p -> pc_ok ns' hd' tl' p.
Proof using Hns Hhd Htl.
  pose proof idx_mono. pose proof lookup_mono. pose proof (fun p k => snap_mono p k tl tl' Htl).
  pose proof (fun p k => snap_mono p k hd hd' Hhd).
  pose proof (fun p k => exact_mono p k tl tl' Htl). pose proof (fun p k => exact_mono p k hd hd' Hhd).
  pose proof next_ok_mono. pose proof (fun p w => later_mono p w tl tl' Htl).
  pose proof (fun p w => later_mono p w hd hd' Hhd).
  pose proof (fun p w => later_tag_mono p w tl tl' Htl).
  pose proof (fun p w => later_tag_mono p w hd hd' Hhd).
  pose proof deq_snap_mono. pose proof deq_next_mono.
  destruct p; simpl; try done; intros; destruct_and?;
    repeat match goal with H : exists _, _ |- _ => destruct H end; destruct_and?.
  all: repeat match goal with |- exists _, _ => eexists end; split_and?; eauto; lia.
Qed.
End Mono.

(** *** Single steps *)

Lemma CAS_ok a m old new m' z :
  CAS a m old new = Ok (m', z) ->
  Z.land a 15 = 0 /\ (z = true /\ m = old /\ m' = new \/ z = false /\ m' = m).
Proof.
  unfold CAS, atomic_compare_exchange16b. intros. inv_ok. bool_to_prop. split; [done|].
  destruct ((m.1 =? old.1) && (m.2 =? old.2)) eqn:E; simplify_eq; bool_to_prop; [left|by right].
  destruct m, old, new; simpl in *; by subst.
Qed.

Lemma CAS_total a m old new : Z.land a 15 = 0 -> exists r, CAS a m old new = Ok r.
Proof.
  intros H. unfold CAS. rewrite H. simpl. destruct (atomic_compare_exchange16b _ _ _ _ _). eauto.
Qed.

Lemma land_16 a : Z.land a 15 = 0 -> Z.land (a + 16) 15 = 0.
Proof.
  change 15 with (Z.ones 4). rewrite !Z.land_ones by lia. intros H.
  rewrite <- Z.add_mod_idemp_l, H by lia. done.
Qed.

Section Preserve.
Context (s : state) (ns : list (Z * Z)) (hd tl : nat) (I : inv_at s ns hd tl).
(** Fewer than [2^64] enqueues so far, so that no tag has wrapped around. *)
Context (Hfew : Z.of_nat (length (enqd s)) < 2 ^ 64).

Lemma idx_inj a i j : idx ns a i -> idx ns a j -> i = j.
Proof using I. intros. eapply NoDup_lookup; [apply (j_nodup _ _ _ _ I)|done..]. Qed.

Lemma idx_lt a i : idx ns a i -> (i < length ns)%nat.
Proof using. intros H. apply lookup_lt_Some in H. by rewrite length_fmap in H. Qed.

Lemma idx_good a i : idx ns a i -> good_addr a.
Proof using I. intros H. eapply j_addr; [done|]. by eapply list_elem_of_lookup_2. Qed.

Lemma idx_heap a i :
  idx ns a i -> exists v c, ns !! i = Some (a, v) /\
    heap s !! a = Some (mk_node (default 0 (ns.*1 !! S i), c) v).
Proof using I.
  unfold idx. rewrite list_lookup_fmap_Some. intros ([a' v] & ? & H). simplify_eq/=.
  destruct (j_heap _ _ _ _ I _ _ _ H) as [c Hc]. eauto.
Qed.

Lemma length_ns : length ns = S (length (enqd s)).
Proof using I.
  pose proof (j_enqd _ _ _ _ I) as H. pose proof (j_order _ _ _ _ I).
  rewrite <- H, length_drop, length_fmap. lia.
Qed.

Lemma tag_succ_idx a k : idx ns a (S k) -> tag_succ (Z.of_nat k) = Z.of_nat (S k).
Proof using I Hfew.
  intros H%idx_lt. pose proof length_ns. unfold tag_succ. rewrite wrap_small; unfold in_u; lia.
Qed.

(** The [next] pointer of a linked node is null or the following node, and it is
    the following node when there is one. *)
Lemma read_next a k n :
  idx ns a k -> heap s !! a = Some n -> next_ok ns (next n).1 k /\
  ((next n).1 = 0 -> S k = length ns).
Proof using I.
  intros Hi Hn. destruct (idx_heap _ _ Hi) as (v & c & _ & H). rewrite H in Hn. simplify_eq/=.
  unfold next_ok, idx. destruct (ns.*1 !! S k) as [b|] eqn:E; simpl.
  - split; [by right|]. intros ->. destruct (idx_good 0 (S k)); done.
  - split; [by left|]. intros _. apply lookup_ge_None in E. rewrite length_fmap in E.
    apply idx_lt in Hi. lia.
Qed.

Lemma ms_inv_goto t p q' f' r' d' hd' tl' :
  (hd <= hd')%nat -> (tl <= tl')%nat ->
  exact ns (Head q') hd' hd' -> exact ns (Tail q') tl' tl' ->
  (hd' <= tl')%nat -> (tl' < length ns)%nat -> (length ns <= S (S tl'))%nat ->
  d' = take hd' (enqd s) ->
  (private p = private (thr s t) \/ private p = None) ->
  pc_ok ns hd' tl' p ->
  inv_at (mk_state (heap s) f' r' q' (qaddr s) (<[t := p]> (thr s)) (enqd s) d') ns hd' tl'.
Proof using I.
  intros Hh Ht Hhead Htail ??? Hd Hp Hpc.
  assert (forall t' n v, private (<[t := p]> (thr s) t') = Some (n, v) ->
            private (thr s t') = Some (n, v)) as Hpriv.
  { intros t' n v. destruct (decide (t = t')) as [->|].
    - rewrite fn_lookup_insert. intros. destruct Hp; congruence.
    - by rewrite fn_lookup_insert_ne. }
  destruct I. split; simpl; try done; eauto.
  intros t'. destruct (decide (t = t')) as [->|].
  - by rewrite fn_lookup_insert.
  - rewrite fn_lookup_insert_ne by done. eapply (pc_ok_mono ns ns); [done|apply Hh|apply Ht|apply j_pc0].
Qed.

(** A step that only loads. *)
Lemma inv_load t p :
  (private p = private (thr s t) \/ private p = None) -> pc_ok ns hd tl p ->
  inv_at (goto s t p) ns hd tl.
Proof using I.
  intros. pose proof (j_order _ _ _ _ I). apply ms_inv_goto; try lia; try done; apply I.
Qed.

(** [CAS(&Q->Tail, old, next)] with [next] the node after the one [old] points to. *)
Lemma cas_tail_advance old a k s' z :
  snap ns old k tl -> idx ns a (S k) -> cas_tail s old (a, tag_succ old.2) = Ok (s', z) ->
  exists q' tl', s' = with_Q s q' /\ (tl <= tl')%nat /\ exact ns (Tail q') tl' tl' /\
    Head q' = Head (Q s) /\ (hd <= tl')%nat /\ (tl' < length ns)%nat /\ (length ns <= S (S tl'))%nat.
Proof using I Hfew.
  intros (Hk & Hle & c & Hc & Hcm) Ha E. unfold cas_tail in E.
  apply obind_ok in E as ([m z'] & HC & E). apply CAS_ok in HC as [_ Hm]. simplify_eq. pose proof (j_order _ _ _ _ I) as Ho.
  destruct (j_tail _ _ _ _ I) as (Hti & _ & Htc).
  destruct Hm as [(-> & Heq & ->)|(-> & ->)].
  - rewrite Heq in Hti, Htc. assert (k = tl) as -> by (by eapply idx_inj).
    eexists _, (S tl). pose proof (idx_lt _ _ Ha).
    split_and!; try done; simpl; try lia.
    rewrite Htc. split_and!; [done..|]. by eapply tag_succ_idx.
  - eexists _, tl. by split_and!; try lia.
Qed.

(** [cmp128]: the compare-and-swap never changes the pointer, and when it succeeds
    the snapshot was consistent and is still current. *)
Lemma cmp_tail old k w s' z :
  snap ns old k tl -> later ns old w.1 tl -> later_tag old w.2 tl ->
  cas_tail s old w = Ok (s', z) -> s' = s /\ (z = true -> exact ns old k tl).
Proof using I.
  clear Hfew. intros (Hk & Hle & c & Hc & Hcm) (k' & Hk' & Hl1 & Hl2) (j & Hj & Hl3 & Hl4) E.
  unfold cas_tail in E.
  apply obind_ok in E as ([m z'] & HC & E). apply CAS_ok in HC as [_ Hm]. simplify_eq. destruct (j_tail _ _ _ _ I) as (Hti & _ & Htc).
  destruct Hm as [(-> & Heq & ->)|(-> & ->)].
  - rewrite Heq in Hti, Htc. assert (k = tl) as -> by (by eapply idx_inj).
    assert (k' = tl) as -> by lia. assert (j = tl) as -> by lia.
    assert (w = Tail (Q s)) as ->.
    { rewrite Heq. destruct w, old; simpl in *. f_equal; [|lia]. unfold idx in *. congruence. }
    split; [by destruct s as [???[]]|]. intros _. done.
  - split; [by destruct s as [???[]]|done].
Qed.

Lemma cmp_head old k w s' z :
  snap ns old k hd -> later ns old w.1 hd -> later_tag old w.2 hd ->
  cas_head s old w = Ok (s', z) -> s' = s /\ (z = true -> exact ns old k hd).
Proof using I.
  clear Hfew. intros (Hk & Hle & c & Hc & Hcm) (k' & Hk' & Hl1 & Hl2) (j & Hj & Hl3 & Hl4) E.
  unfold cas_head in E.
  apply obind_ok in E as ([m z'] & HC & E). apply CAS_ok in HC as [_ Hm]. simplify_eq. destruct (j_head _ _ _ _ I) as (Hti & _ & Htc).
  destruct Hm as [(-> & Heq & ->)|(-> & ->)].
  - rewrite Heq in Hti, Htc. assert (k = hd) as -> by (by eapply idx_inj).
    assert (k' = hd) as -> by lia. assert (j = hd) as -> by lia.
    assert (w = Head (Q s)) as ->.
    { rewrite Heq. destruct w, old; simpl in *. f_equal; [|lia]. unfold idx in *. congruence. }
    split; [by destruct s as [???[]]|]. intros _. done.
  - split; [by destruct s as [???[]]|done].
Qed.
End Preserve.

Ltac thr_case_ms t t' :=
  destruct (decide (t = t')) as [<-|?];
  [rewrite ?fn_lookup_insert|rewrite ?fn_lookup_insert_ne by done]; simpl.

Section Steps.
Context (s : state) (ns : list (Z * Z)) (hd tl : nat) (I : inv_at s ns hd tl).

Lemma ms_inv_start_enq t v p g f r :
  thr s t = Idle -> good_addr p -> heap s !! p = None ->
  inv_at (goto (with_reused (with_freed (with_heap s (<[p := mk_node (0, g) v]> (heap s))) f) r) t (E0 p v)) ns hd tl.
Proof using I.
  intros Ht Hp Hf.
  assert (p ∉ ns.*1) as Hpn.
  { intros [i Hi]%list_elem_of_lookup. destruct (idx_heap s ns hd tl I p i Hi) as (?&?&?&?). congruence. }
  assert (forall t' n w, private (thr s t') = Some (n, w) -> n <> p) as Hne.
  { intros t' n w H ->. destruct (j_private _ _ _ _ I _ _ _ H) as (_ & _ & g' & Hg). congruence. }
  destruct I. split; simpl; try done.
  - intros i a w H. rewrite lookup_insert_ne; [by eapply j_heap0|].
    intros <-. apply Hpn. apply list_elem_of_fmap. exists (p, w). split; [done|].
    by eapply list_elem_of_lookup_2.
  - intros t' n w. thr_case_ms t t'.
    + intros. simplify_eq. split_and!; [done..|]. rewrite lookup_insert_eq. eauto.
    + intros H. rewrite lookup_insert_ne by (symmetry; by eapply Hne). eauto.
  - intros t1 t2 n w w'. thr_case_ms t t1; thr_case_ms t t2; try done.
    + intros. simplify_eq. exfalso. by eapply Hne.
    + intros. simplify_eq. exfalso. by eapply Hne.
    + apply j_owner0.
  - intros t'. thr_case_ms t t'; [done|apply j_pc0].
Qed.

Lemma ms_inv_link t node v tail nxt n :
  thr s t = ELink node v tail nxt -> heap s !! tail.1 = Some n -> next n = nxt ->
  inv_at (goto (log_enq (with_heap s (<[tail.1 := mk_node (node, tag_succ nxt.2) (value n)]> (heap s))) v)
            t (ESwing node tail)) (ns ++ [(node, v)]) hd tl.
Proof using I.
  intros Ht Hn <-. pose proof (j_pc _ _ _ _ I t) as Hpc. rewrite Ht in Hpc.
  destruct Hpc as (k & (Hi & Hk & Hc) & Hz).
  destruct (read_next s ns hd tl I _ _ _ Hi Hn) as [_ Hlast]. specialize (Hlast Hz).
  destruct (j_private _ _ _ _ I t node v) as (Hg & Hnn & g & Hheap); [by rewrite Ht|].
  pose proof (j_order _ _ _ _ I) as Ho. assert (tl = k) as -> by lia.
  pose proof (length_ns s ns hd k I) as Hlen.
  destruct (idx_heap s ns hd k I _ _ Hi) as (w & c & Hkw & Htail).
  assert (node <> tail.1) as Hne.
  { intros ->. apply Hnn. by eapply list_elem_of_lookup_2. }
  assert ((ns ++ [(node, v)]).*1 !! S k = Some node) as Hnode.
  { rewrite fmap_app, lookup_app_r by (rewrite length_fmap; lia).
    by rewrite length_fmap, Hlast, Nat.sub_diag. }
  assert (ns `prefix_of` ns ++ [(node, v)]) as Hpre by (by eexists).
  destruct I. split; simpl.
  - rewrite fmap_app, drop_app_le by (rewrite length_fmap; lia). by rewrite j_enqd0.
  - rewrite fmap_app. apply NoDup_app. split_and!; [done| |apply NoDup_singleton]. set_solver.
  - intros a. rewrite fmap_app. set_solver.
  - intros i a x H. destruct (decide (i = k)) as [->|Hik].
    + rewrite lookup_app_l in H by lia. rewrite Hkw in H. simplify_eq. rewrite lookup_insert_eq.
      rewrite Hnode. simplify_eq/=. eauto.
    + destruct (decide (i = S k)) as [->|Hik'].
      * rewrite lookup_app_r in H by lia. rewrite Hlast, Nat.sub_diag in H. simplify_eq/=.
        rewrite lookup_insert_ne by done. rewrite (lookup_ge_None_2 _ (S (S k))); [eauto|].
        rewrite fmap_app, length_app, length_fmap. simpl. lia.
      * assert (i < k)%nat.
        { apply lookup_lt_Some in H. rewrite length_app in H. simpl in H. lia. }
        rewrite lookup_app_l in H by lia. rewrite fmap_app, lookup_app_l by (rewrite length_fmap; lia).
        rewrite lookup_insert_ne; [by eapply j_heap0|].
        intros <-. apply Hik. eapply NoDup_lookup; [done| |done].
        rewrite list_lookup_fmap, H. done.
  - by eapply exact_mono.
  - by eapply exact_mono.
  - rewrite length_app. simpl. lia.
  - rewrite j_deqd0, take_app_le by lia. done.
  - done.
  - intros t' n' v'. thr_case_ms t t'; [done|]. intros H. destruct (j_private0 _ _ _ H) as (?&?&g'&?).
    assert (n' <> node) as Hn'.
    { intros ->. apply n0. eapply (j_owner0 _ _ node v v'); [by rewrite Ht|done]. }
    split_and!; [done|rewrite fmap_app; set_solver|].
    rewrite lookup_insert_ne; [eauto|]. intros <-. apply H1. by eapply list_elem_of_lookup_2.
  - intros t1 t2 n' w1 w2. thr_case_ms t t1; thr_case_ms t t2; try done. apply j_owner0.
  - intros t'. thr_case_ms t t'.
    + exists k. split; [|done]. split_and!; [by eapply idx_mono|done..].
    + eapply pc_ok_mono; [done|reflexivity|reflexivity|apply j_pc0].
Qed.

Lemma ms_inv_deq_swing t head nxt v s' z :
  Z.of_nat (length (enqd s)) < 2 ^ 64 ->
  thr s t = DSwing head nxt v -> cas_head s head (nxt.1, tag_succ head.2) = Ok (s', z) ->
  exists hd', inv_at (if z then goto (log_deq s' v) t (DFree head.1 v) else goto s' t D0) ns hd' tl.
Proof using I.
  intros Hfew Ht E. pose proof (j_pc _ _ _ _ I t) as Hpc. rewrite Ht in Hpc.
  destruct Hpc as (i & (Hi & Hle & Hc) & Hv & Hit). unfold cas_head in E.
  apply obind_ok in E as ([m z'] & HC & E). apply CAS_ok in HC as [_ Hm]. simplify_eq.
  pose proof (j_order _ _ _ _ I) as Ho. destruct (j_head _ _ _ _ I) as (Hhi & _ & Hhc).
  destruct Hm as [(-> & Heq & ->)|(-> & ->)].
  - rewrite Heq in Hhi, Hhc. assert (i = hd) as -> by (by eapply idx_inj). exists (S hd).
    assert (idx ns nxt.1 (S hd)) as Hn by (unfold idx; by rewrite list_lookup_fmap, Hv).
    apply (ms_inv_goto s ns hd tl I); try done; try lia.
    + unfold exact. simpl. rewrite Hhc. split_and!; [done..|]. by eapply tag_succ_idx.
    + apply I.
    + simpl. rewrite (j_deqd _ _ _ _ I). symmetry. apply take_S_r.
      rewrite <- (j_enqd _ _ _ _ I), lookup_drop, list_lookup_fmap. simpl. by rewrite Hv.
    + by right.
  - exists hd. replace (with_Q s (set_head (Q s) (Head (Q s)))) with s by (by destruct s as [???[]]).
    apply (inv_load s ns hd tl I); [by right|done].
Qed.
End Steps.

Lemma ms_inv_init qa p g : good_addr p -> Z.land qa 15 = 0 -> inv (init_state qa p g).
Proof.
  intros Hp Hq. exists [(p, 0)], 0%nat, 0%nat. split; simpl; try done.
  - apply NoDup_singleton.
  - set_solver.
  - intros [|i] a v H; simplify_eq/=. exists g. by rewrite lookup_singleton_eq.
  - lia.
Qed.

(** The steps of [enqueue]. *)
Definition enqueuing (p : pc) : bool :=
  match p with
  | E0 _ _ | E1 _ _ _ | E2 _ _ _ | E3 _ _ _ _ | E4 _ _ _ _ | E5 _ _ _ _ _ | E6 _ _ _ _ _
  | ELink _ _ _ _ | EHelp _ _ _ _ | ESwing _ _ | EInc => true
  | _ => false
  end.

Section Ticks.
Context (s : state) (ns : list (Z * Z)) (hd tl : nat) (I : inv_at s ns hd tl) (t : nat) (s' : state).
Context (Hfew : Z.of_nat (length (enqd s)) < 2 ^ 64).

(** A step that only reads. *)
Lemma tick_load p : (private p = private (thr s t) \/ private p = None) -> pc_ok ns hd tl p -> inv (goto s t p).
Proof using I. intros. exists ns, hd, tl. by apply inv_load. Qed.

(** A step that may move [Tail] on. *)
Lemma tick_advance p q' tl' : (private p = private (thr s t) \/ private p = None) ->
  (tl <= tl')%nat -> exact ns (Tail q') tl' tl' -> Head q' = Head (Q s) ->
  (hd <= tl')%nat -> (tl' < length ns)%nat -> (length ns <= S (S tl'))%nat ->
  pc_ok ns hd tl' p -> inv (goto (with_Q s q') t p).
Proof using I.
  intros ??? Hh ????. exists ns, hd, tl'. apply (ms_inv_goto s ns hd tl I); try done.
  - simpl. rewrite Hh. apply (j_head _ _ _ _ I).
  - apply I.
Qed.

(** The facts both halves of the case analysis start from. *)
Ltac tick_start Hs :=
  unfold tick in Hs; pose proof tick_load as Hload; pose proof tick_advance as Hadv;
  pose proof (j_pc _ _ _ _ I t) as Hpc; pose proof (j_order _ _ _ _ I) as Ho;
  pose proof (j_head _ _ _ _ I) as Hhead; pose proof (j_tail _ _ _ _ I) as Htail;
  destruct (thr s t) eqn:Ht; try done; cbn [pc_ok] in Hpc.

Lemma ms_inv_tick_enq : enqueuing (thr s t) = true -> tick s t = Ok s' -> inv s'.
Proof using I Hfew.
  intros Hp Hs. tick_start Hs; clear Hp.
  - (* E0 *) simplify_eq. apply Hload; [by left|]. exists tl. split; [apply Htail|lia].
  - (* E1 *) simplify_eq. destruct Hpc as (k & ? & ?). apply Hload; [by left|]. exists k.
    split_and!; [done..|]. exists tl. split; [apply Htail|lia].
  - (* E2 *) apply obind_ok in Hs as (n & Hn & Hs). simplify_eq. destruct Hpc as (k & Hk).
    apply Hload; [by left|]. exists k. split; [done|].
    eapply read_next; [done|apply Hk|]. by destruct (heap s !! tail.1); simplify_eq/=.
  - (* E3 *) apply obind_ok in Hs as (n & Hn & Hs). simplify_eq. apply Hload; [by left|done].
  - (* E4 *) simplify_eq. destruct Hpc as (k & Hk & Hn). apply Hload; [by left|]. exists k.
    split_and!; [done..|]. exists tl. destruct Hk as (_ & _ & c & -> & ?), Htail as (? & ? & ?).
    simpl. split_and!; [done|lia|lia].
  - (* E5 *) simplify_eq. destruct Hpc as (k & Hk & Hn & Hl). apply Hload; [by left|]. exists k.
    split_and!; [done..|]. exists tl. destruct Hk as (_ & _ & c & -> & ?), Htail as (? & ? & ->).
    simpl. split_and!; [done|lia|lia].
  - (* E6 *) apply obind_ok in Hs as ([s1 z] & HC & Hs). destruct Hpc as (k & Hk & Hn & Hl & Hl').
    destruct (cmp_tail s ns hd tl I _ _ _ _ _ Hk Hl Hl' HC) as [-> Hz]. simplify_eq.
    destruct z; [|by apply Hload; [left|]]. specialize (Hz eq_refl).
    destruct (nxt.1 =? 0) eqn:En; bool_to_prop; apply Hload; try (by left); exists k.
    + done.
    + destruct Hn; done.
  - (* ELink *) apply obind_ok in Hs as (n & Hn & Hs). apply obind_ok in Hs as ([m z] & HC & Hs).
    destruct (heap s !! tail.1) as [n'|] eqn:En; simplify_eq/=.
    apply CAS_ok in HC as [_ [(-> & Hm & ->)|(-> & ->)]].
    + exists (ns ++ [(node, v)]), hd, tl. by apply ms_inv_link.
    + replace (with_heap s _) with s; [by apply Hload; [left|]|].
      destruct n; simpl. rewrite insert_id by done. by destruct s.
  - (* EHelp *) apply obind_ok in Hs as ([s1 z] & HC & Hs). simplify_eq.
    destruct Hpc as (k & (? & ? & Hc) & Hn).
    eapply cas_tail_advance in HC as (q' & tl' & -> & ? & ? & ? & ? & ? & ?); [|done|done| |done].
    2: { split_and!; [done..|]. exists k. done. }
    eapply Hadv; try done. by left.
  - (* ESwing *) apply obind_ok in Hs as ([s1 z] & HC & Hs). simplify_eq.
    destruct Hpc as (k & (? & ? & Hc) & Hn).
    eapply cas_tail_advance in HC as (q' & tl' & -> & ? & ? & ? & ? & ? & ?); [|done|done| |done].
    2: { split_and!; [done..|]. exists k. done. }
    eapply Hadv; try done. by left.
  - (* EInc *) simplify_eq. eapply Hadv; [by left|..]; try done; lia.
Qed.

Lemma ms_inv_tick_deq : enqueuing (thr s t) = false -> tick s t = Ok s' -> inv s'.
Proof using I Hfew.
  intros Hp Hs. tick_start Hs; clear Hp.
  - simplify_eq. by exists ns, hd, tl.
  - (* D0 *) simplify_eq. apply Hload; [by left|]. exists hd. split; [apply Hhead|lia].
  - (* D1 *) simplify_eq. destruct Hpc as (i & ? & ?). apply Hload; [by left|]. exists i.
    split_and!; [done..|]. exists hd. split; [apply Hhead|lia].
  - (* D2 *) simplify_eq. destruct Hpc as (i & Hi). apply Hload; [by left|]. exists i, tl.
    destruct Htail as (? & ? & ?). split_and!; [done..|]. destruct Hi as (_ & _ & c & -> & ?). lia.
  - (* D3 *) simplify_eq. destruct Hpc as (i & j & Hi & Hj & ? & ?). apply Hload; [by left|].
    exists i, j. split_and!; [done|..|done]. split_and!; [done..|]. exists tl. split; [apply Htail|lia].
  - (* D4 *) apply obind_ok in Hs as (n & Hn & Hs). simplify_eq. destruct Hpc as (i & j & Hi).
    apply Hload; [by left|]. exists i, j. split; [done|]. destruct Hi as (Hi & Hj & Hij).
    destruct (heap s !! head.1) as [n'|] eqn:En; simplify_eq/=.
    destruct (read_next s ns hd tl I head.1 i n) as [[Hz|Hx] Hlast]; [apply Hi|done| |by left].
    right. specialize (Hlast Hz). split; [done|]. destruct Hj as (Hj & _). apply idx_lt in Hj. lia.
  - (* D5 *) apply obind_ok in Hs as (n & Hn & Hs). simplify_eq. apply Hload; [by left|done].
  - (* D6 *) simplify_eq. destruct Hpc as (i & j & Hi & Hn). apply Hload; [by left|]. exists i, j.
    split_and!; [done..|]. exists hd. destruct Hi as ((_ & _ & c & -> & ?) & _), Hhead as (? & ? & ?).
    simpl. split_and!; [done|lia|lia].
  - (* D7 *) simplify_eq. destruct Hpc as (i & j & Hi & Hn & Hl). apply Hload; [by left|]. exists i, j.
    split_and!; [done..|]. exists hd. destruct Hi as ((_ & _ & c & -> & ?) & _), Hhead as (? & ? & ->).
    simpl. split_and!; [done|lia|lia].
  - (* D8 *) apply obind_ok in Hs as ([s1 z] & HC & Hs).
    destruct Hpc as (i & j & (Hi & Hj & Hij) & Hn & Hl & Hl').
    destruct (cmp_head s ns hd tl I _ _ _ _ _ Hi Hl Hl' HC) as [-> Hz]. simplify_eq.
    destruct z; [|by apply Hload; [right|]]. specialize (Hz eq_refl).
    destruct (head.1 =? tail.1) eqn:Eh; bool_to_prop.
    + assert (i = j) as -> by (eapply (idx_inj s ns hd tl I); [apply Hi|rewrite Eh; apply Hj]).
      destruct (nxt.1 =? 0) eqn:En; bool_to_prop; apply Hload; try (by right); [done|].
      exists j. split; [done|]. destruct Hn as [|[? _]]; done.
    + apply Hload; [by right|]. exists i. destruct Hz as (Hzi & Hzh & Hzc).
      assert (i <> j) by (intros ->; apply Eh; destruct Hj as (Hj & _); unfold idx in *; congruence).
      destruct Hj as (Hj & Hjt & _). split_and!; [done|..|lia].
      destruct Hn as [|[_ ?]]; [done|lia].
  - (* DHelp *) apply obind_ok in Hs as ([s1 z] & HC & Hs). simplify_eq.
    destruct Hpc as (j & Hj & Hn).
    eapply cas_tail_advance in HC as (q' & tl' & -> & ? & ? & ? & ? & ? & ?); [|done..].
    eapply Hadv; try done. by left.
  - (* DVal *) apply obind_ok in Hs as (n & Hn & Hs). simplify_eq.
    destruct Hpc as (i & Hi & Hx & Hle). apply Hload; [by left|]. exists i. split_and!; [done|..|done].
    destruct (idx_heap s ns hd tl I _ _ Hx) as (v & c & Hv & Hh). rewrite Hh in Hn. by simplify_eq/=.
  - (* DSwing *) apply obind_ok in Hs as ([s1 z] & HC & Hs). simplify_eq.
    destruct (ms_inv_deq_swing s ns hd tl I t head nxt v s1 z) as [hd' I']; [done..|].
    exists ns, hd', tl. by destruct z.
  - (* DFree *) simplify_eq. exists ns, hd, tl. apply (ms_inv_goto s ns hd tl I); try done; try lia;
      try apply I. by right.
  - (* DDec *) simplify_eq. eapply Hadv; [by left|..]; try done; lia.
Qed.
End Ticks.

(** Every step of every thread keeps the invariant. *)
Lemma ms_inv_tick s t s' :
  inv s -> Z.of_nat (length (enqd s)) < 2 ^ 64 -> tick s t = Ok s' -> inv s'.
Proof.
  intros (ns & hd & tl & I) Hfew Hs. destruct (enqueuing (thr s t)) eqn:E.
  - by eapply ms_inv_tick_enq.
  - by eapply ms_inv_tick_deq.
Qed.

Lemma enqd_exec s a s' : exec s a = Ok s' -> (length (enqd s) <= length (enqd s'))%nat.
Proof.
  destruct a as [t v p g|t|t|a n]; simpl; intros; simplify_eq/=; try lia.
  unfold tick, cas_tail, cas_head in *.
  destruct (thr s t); inv_ok; repeat case_match; simplify_eq/=; inv_ok;
    repeat match goal with H : (let '(_, _) := ?x in _) = _ |- _ => destruct x end;
    simplify_eq/=; rewrite ?length_app; try lia.
  all: repeat case_match; simplify_eq/=; inv_ok; simplify_eq/=; rewrite ?length_app; lia.
Qed.

(** Freed memory was left alone before, too. *)
Lemma reused_exec s a s' : exec s a = Ok s' -> reused s' = false -> reused s = false.
Proof.
  destruct a as [t v p g|t|t|a n]; simpl; intros Hx Hr; simplify_eq/=; try done.
  - by apply orb_false_iff in Hr as [? _].
  - revert Hr. unfold tick, cas_tail, cas_head in *.
    destruct (thr s t); inv_ok; repeat case_match; simplify_eq/=; inv_ok;
      repeat match goal with H : (let '(_, _) := ?x in _) = _ |- _ => destruct x end; simplify_eq/=; try done;
      repeat case_match; simplify_eq/=; inv_ok; simplify_eq/=; done.
Qed.

Lemma ms_reach_inv s : reach s -> reused s = false -> Z.of_nat (length (enqd s)) < 2 ^ 64 -> inv s.
Proof.
  induction 1 as [|s a s' Hr IH He Hx]; intros Hru Hfew; [by apply ms_inv_init|].
  pose proof (enqd_exec _ _ _ Hx). pose proof (reused_exec _ _ _ Hx Hru) as Hrs.
  destruct IH as (ns & hd & tl & I); [done|lia|].
  destruct a as [t v p g|t|t|a n]; simpl in *; [..|by simplify_eq].
  - rewrite !andb_true_iff, orb_true_iff, !bool_decide_eq_true, negb_true_iff, Z.eqb_neq, Z.eqb_eq in He.
    destruct He as [[[Ht Hp] Ha] Hf]. simplify_eq. exists ns, hd, tl. simpl in Hru.
    apply orb_false_iff in Hru as [_ Hn%bool_decide_eq_false]. destruct Hf as [Hf|]; [|done]. by apply ms_inv_start_enq.
  - rewrite bool_decide_eq_true in He. simplify_eq. exists ns, hd, tl.
    apply (inv_load s ns hd tl I); [by right|done].
  - apply (ms_inv_tick s t); [by exists ns, hd, tl|lia|done].
Qed.

(** ** What the queue promises *)

(** The values in the queue: those [print_queue] walks over, less the dummy. *)
Definition contents (s : state) : list Z := drop 1 (print_queue (heap s) (Q s)).

Lemma inv_walk s ns hd tl k a fuel :
  inv_at s ns hd tl -> heap s !! 0 = None -> idx ns a k -> (length ns - k < fuel)%nat ->
  print_queue_from fuel (heap s) a = drop k (ns.*2).
Proof.
  intros I H0. revert k a. induction fuel as [|fuel IH]; intros k a Hi Hf; [lia|]. simpl.
  destruct (idx_good s ns hd tl I _ _ Hi) as [Ha _]. rewrite (proj2 (Z.eqb_neq _ _) Ha).
  destruct (idx_heap s ns hd tl I _ _ Hi) as (v & c & Hv & Hh). rewrite Hh. simpl.
  rewrite (drop_S (ns.*2) v k) by (by rewrite list_lookup_fmap, Hv). f_equal.
  unfold idx in IH. destruct (ns.*1 !! S k) as [b|] eqn:E; simpl.
  - apply IH; [done|]. apply idx_lt in Hi. lia.
  - apply lookup_ge_None in E. rewrite length_fmap in E. rewrite drop_ge by (rewrite length_fmap; lia).
    destruct fuel; [done|]. done.
Qed.

Lemma reach_null s : reach s -> reused s = false -> heap s !! 0 = None.
Proof.
  induction 1 as [|s a s' Hr IH He Hx]; intros Hru; [by apply lookup_singleton_ne|].
  specialize (IH (reused_exec _ _ _ Hx Hru)).
  destruct a as [t v p g|t|t|a n]; simpl in *; simplify_eq; simpl.
  - apply orb_false_iff in Hru as [_ _]. bool_to_prop. by rewrite lookup_insert_ne.
  - done.
  - unfold tick, cas_tail, cas_head in *.
    destruct (thr s t); inv_ok; repeat case_match; simplify_eq/=; inv_ok;
      repeat match goal with H : (let '(_, _) := ?x in _) = _ |- _ => destruct x end; simplify_eq/=; try done;
      repeat case_match; simplify_eq/=; inv_ok; simplify_eq/=; try done.
    all: rewrite lookup_insert_ne by congruence; done.
Qed.

Lemma inv_size s ns hd tl : inv_at s ns hd tl -> (length ns <= size (heap s))%nat.
Proof.
  intros I.
  assert (list_to_set (ns.*1) ⊆ dom (heap s)) as Hsub.
  { intros a. rewrite elem_of_list_to_set, elem_of_dom. intros [i Hi]%list_elem_of_lookup.
    destruct (idx_heap s ns hd tl I _ _ Hi) as (?&?&?&->). eauto. }
  apply subseteq_size in Hsub. rewrite size_list_to_set in Hsub by apply I.
  by rewrite length_fmap, size_dom in Hsub.
Qed.

Lemma ms_inv_contents s ns hd tl :
  reach s -> reused s = false -> inv_at s ns hd tl -> contents s = drop hd (enqd s).
Proof.
  intros Hr Hru I. unfold contents, print_queue.
  rewrite (inv_walk s ns hd tl hd _ _ I); [|by apply reach_null|apply I|].
  - rewrite <- (j_enqd _ _ _ _ I), !drop_drop. f_equal. lia.
  - pose proof (inv_size s ns hd tl I). lia.
Qed.


(** In such a run no step fails an assertion or follows a pointer that was never allocated, and
    every compare-and-swap that moves [Tail] or [Head] keeps both on the list with
    [Tail] at most one node behind. *)
Theorem ms_queue_no_fault s a :
  reach s -> reused s = false -> Z.of_nat (length (enqd s)) < 2 ^ 64 -> enabled s a = true ->
  exists s', exec s a = Ok s'.
Proof.
  intros Hr Hru Hfew He. destruct (ms_reach_inv s Hr Hru Hfew) as (ns & hd & tl & I).
  destruct a as [t v p g|t|t|a n]; simpl; eauto.
  pose proof (j_pc _ _ _ _ I t) as Hpc. pose proof (j_qaddr _ _ _ _ I) as Hq.
  assert (forall a k, idx ns a k -> exists n, heap s !! a = Some n) as Hread.
  { intros a k Ha. destruct (idx_heap s ns hd tl I _ _ Ha) as (?&?&?&->). eauto. }
  assert (forall o n, exists s' z, cas_tail s o n = Ok (s', z)) as Hct.
  { intros o n. destruct (CAS_total (qaddr s + 16) (Tail (Q s)) o n) as [[] E]; [by apply land_16|].
    unfold cas_tail. rewrite E. simpl. eauto. }
  assert (forall o n, exists s' z, cas_head s o n = Ok (s', z)) as Hch.
  { intros o n. destruct (CAS_total (qaddr s) (Head (Q s)) o n) as [[] E]; [done|].
    unfold cas_head. rewrite E. simpl. eauto. }
  unfold tick. destruct (thr s t) eqn:Ht; simpl in Hpc; eauto;
    repeat match goal with H : exists _, _ |- _ => destruct H end; destruct_and?.
  all: try (match goal with |- context [cas_tail ?s ?o ?n] => destruct (Hct o n) as (?&?&->) end; simpl; by eauto).
  all: try (match goal with |- context [cas_head ?s ?o ?n] => destruct (Hch o n) as (?&?&->) end; simpl; by eauto).
  all: try (match goal with H : snap _ ?p ?k _ |- context [heap _ !! ?p.1] =>
              destruct (Hread p.1 k) as [? ->]; [apply H|] end; simpl; by eauto).
  - destruct H0 as (Hi & _ & _). destruct (Hread tail.1 x) as [n Hn]; [done|]. rewrite Hn. simpl.
    destruct (CAS_total tail.1 (next n) nxt (node, tag_succ nxt.2)) as [[m z] ->].
    { by eapply (idx_good s ns hd tl I). }
    simpl. destruct z; eauto.
  - match goal with H : deq_snap _ _ _ ?i _ _ _ |- _ =>
      destruct H as ((Hi & _) & _); destruct (Hread head.1 i Hi) as [n ->] end; simpl; eauto.
  - match goal with H : deq_snap _ _ _ ?i _ _ _ |- _ =>
      destruct H as ((Hi & _) & _); destruct (Hread head.1 i Hi) as [n ->] end; simpl; eauto.
  - destruct (Hread nxt.1 (S x)) as [n ->]; [done|]. simpl. eauto.
Qed.

(** [dequeue] answers [false] only after reading a null [head.ptr->next], and the
    queue is empty at that moment. *)
Theorem ms_queue_false_empty s t head tail n :
  reach s -> reused s = false -> Z.of_nat (length (enqd s)) < 2 ^ 64 ->
  thr s t = D4 head tail -> heap s !! head.1 = Some n -> (next n).1 = 0 ->
  deqd s = enqd s /\ contents s = [].
Proof.
  intros Hr Hru Hfew Ht Hn Hz. destruct (ms_reach_inv s Hr Hru Hfew) as (ns & hd & tl & I).
  pose proof (j_pc _ _ _ _ I t) as Hpc. rewrite Ht in Hpc. destruct Hpc as (i & j & (Hi & Hle & _) & _).
  destruct (read_next s ns hd tl I _ _ _ Hi Hn) as [_ Hlast]. specialize (Hlast Hz).
  pose proof (length_ns s ns hd tl I). pose proof (j_order _ _ _ _ I).
  rewrite (ms_inv_contents s ns hd tl Hr Hru I), (j_deqd _ _ _ _ I).
  split; [apply take_ge|apply drop_ge]; lia.
Qed.

(** ** Schedules, witnesses and the use of freed nodes *)

Fixpoint run (s : state) (l : list action) : outcome state :=
  match l with
  | [] => Ok s
  | a :: l => if enabled s a then let! s := exec s a in run s l else Abort
  end.

Lemma ms_run_reach s l s' : reach s -> run s l = Ok s' -> reach s'.
Proof.
  revert s. induction l as [|a l IH]; simpl; intros s Hr H; simplify_eq; [done|].
  destruct (enabled s a) eqn:E; [|done]. inv_ok. eapply IH; [|done]. by eapply reach_step.
Qed.

(** The state a schedule leads to from a new queue object at 16, dummy at 64. *)
Definition demo (l : list action) : state :=
  if run (init_state 16 64 9) l is Ok s then s else init_state 16 64 9.

Definition runs (l : list action) : bool :=
  if run (init_state 16 64 9) l is Ok _ then true else false.

Lemma ms_demo_reach l : runs l = true -> reach (demo l).
Proof.
  unfold runs, demo. destruct (run (init_state 16 64 9) l) eqn:E; try done. intros _.
  eapply ms_run_reach; [|done]. by apply reach_init.
Qed.

Ltac demo_ok := by apply ms_demo_reach; vm_compute.

(** The node thread [t] is about to read or compare-and-swap. *)
Definition touches (s : state) (t : nat) : option Z :=
  match thr s t with
  | E2 _ _ tail | E3 _ _ tail _ | ELink _ _ tail _ => Some tail.1
  | D4 head _ | D5 head _ _ => Some head.1
  | DVal _ nxt => Some nxt.1
  | _ => None
  end.

(** Thread 1 loads [tail]; thread 2 enqueues 7; thread 0 dequeues it, which frees
    the node thread 1's [tail] points to. *)
Definition demo_stale : list action :=
  [StartEnq 1 5 80 3; Tick 1; Tick 1; StartEnq 2 7 96 4] ++ replicate 10 (Tick 2) ++
  [StartDeq 0] ++ replicate 13 (Tick 0).

(** Two enqueuers race for the last node and one of them has to help [Tail]. *)
Definition demo_help : list action :=
  [StartEnq 1 5 80 3; StartEnq 2 7 96 4] ++ replicate 8 (Tick 1) ++ replicate 8 (Tick 2) ++
  [Tick 1; Tick 1] ++ replicate 10 (Tick 2).

Definition demo_empty : list action := [StartDeq 0] ++ replicate 4 (Tick 0).

(** The node an enqueuer got from [Q->Tail] can be freed by a dequeuer before the
    enqueuer reads its [next] field: the code dereferences freed memory.  (The
    published algorithm returns nodes to a free list instead.) *)
Theorem ms_queue_use_after_free :
  exists s t a, reach s /\ touches s t = Some a /\ a ∈ freed s.
Proof.
  exists (demo demo_stale), 1%nat, 64. split_and!; [demo_ok|by vm_compute|].
  by apply (bool_decide_unpack (64 ∈ freed (demo demo_stale))); vm_compute.
Qed.

(** With an allocator that hands freed memory out again an element is lost: thread 1 is
    about to link 5 behind the last node when that node is dequeued, freed and handed out
    to thread 2, with the bytes it had.  The compare-and-swap succeeds on the new node,
    which is not in the queue yet: [enqueue] of 5 returns and 5 is not in the queue. *)
Definition demo_reuse : list action :=
  [StartEnq 1 5 80 3] ++ replicate 7 (Tick 1) ++ [StartEnq 2 7 96 4] ++ replicate 10 (Tick 2) ++
  [StartDeq 0] ++ replicate 13 (Tick 0) ++ [StartEnq 2 8 64 9] ++ replicate 3 (Tick 1).

Theorem ms_queue_reuse_breaks :
  exists s, reach s /\ thr s 1 = Idle /\ enqd s = [7; 5] /\ deqd s = [7] /\ contents s = [].
Proof. exists (demo demo_reuse). split; [demo_ok|]. by vm_compute. Qed.


Lemma ms_queue_no_fault_witness : exists s', exec (demo demo_stale) (Tick 1) = Ok s'.
Proof. apply ms_queue_no_fault; [demo_ok|by vm_compute..]. Defined.

Lemma ms_queue_false_empty_witness :
  deqd (demo demo_empty) = enqd (demo demo_empty) /\ contents (demo demo_empty) = [].
Proof.
  apply (ms_queue_false_empty _ 0 (64, 0) (64, 0) (mk_node (0, 9) 0)); [demo_ok|by vm_compute..].
Defined.
