(* ===== verification/QueueSpec.v ===== *)
(** * The queue interface of [incl/queue.h] and its two implementations

    [Queue] is the signature the rest of COREMU calls, [QueueLaws] what it may rely
    on when calls do not overlap.  [main/lock-queue.c] and [main/ms-queue.c] are
    its two instances; [Intr] is proved against the interface. *)

From S2P Require Import Prelude Atomic LockQueue MsQueue.
Local Open Scope Z_scope.
Local Open Scope coremu_scope.

(** [T] is the queue object together with the memory its nodes live in.  [None]
    stands for a call that does not return. *)
Class Queue (T : Type) := {
  q_enqueue : T -> Z -> outcome (option T);
  q_dequeue : T -> outcome (option (T * option Z));
  q_get_size : T -> Z }.

(** [q_repr q vs]: no call is in progress and [q] holds [vs]; [q_room q]: the
    allocator can serve one more node. *)
Class QueueLaws (T : Type) `{Queue T} := {
  q_repr : T -> list Z -> Prop;
  q_room : T -> Prop;
  q_enqueue_law q vs v : q_repr q vs -> q_room q ->
    exists q', q_enqueue q v = Ok (Some q') /\ q_repr q' (vs ++ [v]);
  q_dequeue_law q vs : q_repr q vs ->
    exists q', q_dequeue q = Ok (Some (q', head vs)) /\ q_repr q' (drop 1 vs);
  q_size_law q vs : q_repr q vs -> Z.of_nat (length vs) < 2 ^ 63 ->
    q_get_size q = Z.of_nat (length vs) }.

(** ** [main/lock-queue.c] *)

Section Lock.
Context (malloc : LockQueue.heap_t -> Z) (Hm : malloc_ok malloc).

Definition lockq : Type := LockQueue.heap_t * LockQueue.queue_t.

#[global] Instance lock_queue : Queue lockq := {
  q_enqueue '(h, q) v := LockQueue.enqueue malloc h q v;
  q_dequeue '(h, q) :=
    let! '(h, q, r) := LockQueue.dequeue h q in Ok (Some ((h, q), r));
  q_get_size '(h, q) := LockQueue.queue_get_size q }.

#[global, refine] Instance lock_queue_laws : QueueLaws lockq := {
  q_repr '(h, q) vs := LockQueue.repr h q vs;
  q_room '(h, q) := malloc h <> 0 }.
Proof.
  - intros [h q] vs v Hr Hroom.
    destruct (enqueue_repr malloc h q vs v) as (h' & q' & E & Hr'); [done..|].
    exists (h', q'). done.
  - intros [h q] vs Hr. apply dequeue_repr in Hr as Hd. simpl.
    destruct vs as [|v vs]; [exists (h, q); by rewrite Hd|].
    destruct Hd as (h' & q' & -> & Hr'). exists (h', q'). done.
  - intros [h q] vs (a0 & v0 & ns & _ & _ & _ & _ & _ & _ & _ & Hc & _) Hlen.
    simpl. unfold LockQueue.queue_get_size. rewrite Hc.
    rewrite wrap_small by (unfold in_u; lia). apply swrap_small; lia.
Defined.
End Lock.

(** ** [main/ms-queue.c]

    Forgetting the tags turns a lock free queue into the list the spinlock
    queue keeps, so its representation is the same. *)

Definition erase (h : MsQueue.heap_t) : LockQueue.heap_t :=
  (fun n => LockQueue.mk_node (MsQueue.next n).1 (MsQueue.value n)) <$> h.

Definition erase_queue (q : MsQueue.queue_t) : LockQueue.queue_t :=
  LockQueue.mk_queue (MsQueue.Head q).1 (MsQueue.Tail q).1 (MsQueue.count q) 0.

Definition ms_repr (h : MsQueue.heap_t) (q : MsQueue.queue_t) (vs : list Z) : Prop :=
  LockQueue.repr (erase h) (erase_queue q) vs /\
  forall a, is_Some (h !! a) -> Z.land a 15 = 0.

Lemma erase_lookup h a n :
  h !! a = Some n -> erase h !! a = Some (LockQueue.mk_node (MsQueue.next n).1 (MsQueue.value n)).
Proof. intros H. unfold erase. by rewrite lookup_fmap, H. Qed.

Lemma erase_lookup_inv h a m :
  erase h !! a = Some m -> exists n, h !! a = Some n /\
    m = LockQueue.mk_node (MsQueue.next n).1 (MsQueue.value n).
Proof.
  unfold erase. rewrite lookup_fmap. destruct (h !! a) as [n|]; intros; simplify_eq/=. eauto.
Qed.

Lemma CAS_same a m new : Z.land a 15 = 0 -> CAS a m m new = Ok (new, true).
Proof.
  intros H. unfold CAS, atomic_compare_exchange16b. rewrite H, !Z.eqb_refl. simpl.
  by destruct new.
Qed.

Section Ms.
Context (alloc : MsQueue.heap_t -> option (Z * Z)) (qa : Z).
(** What [posix_memalign] promises: an aligned address that is not allocated. *)
Context (Halloc : forall h p g, alloc h = Some (p, g) -> p <> 0 /\ Z.land p 15 = 0 /\ h !! p = None).
Context (Hqa : Z.land qa 15 = 0).

Definition erased_malloc (p : Z) (h : LockQueue.heap_t) : Z :=
  if h !! p then 0 else p.

Lemma erased_malloc_ok p : malloc_ok (erased_malloc p).
Proof using. intros h. unfold erased_malloc. destruct (h !! p) eqn:E; auto. Qed.

Lemma ms_enqueue_repr fuel h q vs b v p g :
  alloc h = Some (p, g) -> ms_repr h q vs ->
  exists h' q', MsQueue.enqueue alloc qa (S fuel) h q b v = Ok (Some (h', q', b)) /\
                ms_repr h' q' (vs ++ [v]).
Proof using Halloc Hqa.
  intros Ha [Hr Hal]. destruct (Halloc _ _ _ Ha) as (Hp & Hpa & Hfresh).
  assert (erase h !! p = None) as Hfe by (unfold erase; by rewrite lookup_fmap, Hfresh).
  assert (erased_malloc p (erase h) = p) as Hem by (unfold erased_malloc; by rewrite Hfe).
  destruct (enqueue_repr (erased_malloc p) (erase h) (erase_queue q) vs v) as (h1 & q1 & E & Hr1);
    [apply erased_malloc_ok|by rewrite Hem|done|].
  pose proof Hr as (a0 & v0 & ns & Hl & _ & _ & _ & Ht & _ & _ & _ & _).
  destruct (linked_last (erase h) ((a0, v0) :: ns) (MsQueue.Tail q).1 Hl Ht) as [w Hw].
  apply erase_lookup_inv in Hw as (n & Hn & Hnw). injection Hnw as Hz ->.
  assert (p <> (MsQueue.Tail q).1) as Hpt by congruence.
  assert (Z.land (MsQueue.Tail q).1 15 = 0) as Hta by (apply Hal; eauto).
  pose proof (land_16 qa Hqa) as Hqa16.
  unfold LockQueue.enqueue, LockQueue.new_node in E. rewrite Hem in E.
  rewrite (proj2 (Z.eqb_neq _ _) Hp) in E. simpl in E.
  unfold LockQueue.store_value, LockQueue.store_next in E. rewrite !lookup_insert_eq in E. simpl in E.
  rewrite lookup_insert_eq in E. simpl in E.
  rewrite !insert_insert_eq, lookup_insert_ne in E by done.
  rewrite (erase_lookup _ _ _ Hn) in E. simpl in E. injection E as <- <-.
  eexists _, _. split.
  - unfold MsQueue.enqueue, MsQueue.new_node. rewrite Ha. simpl. rewrite lookup_insert_eq. simpl.
    rewrite insert_insert_eq, lookup_insert_ne, Hn by done. simpl. unfold cmp128.
    rewrite CAS_same by done. simpl. rewrite <- Hz. simpl.
    rewrite CAS_same by done. simpl.
    unfold MsQueue.store_next. rewrite lookup_insert_ne, Hn by done. simpl.
    rewrite CAS_same by done. simpl. done.
  - split.
    + unfold erase. rewrite !fmap_insert. simpl. done.
    + intros a. rewrite !lookup_insert_is_Some'. intros [<-|[<-|?]]; auto.
Qed.

Lemma ms_dequeue_repr fuel h q vs b :
  ms_repr h q vs ->
  exists h' q', MsQueue.dequeue qa (S fuel) h q b =
    Ok (Some (h', q', if vs is [] then true else b, head vs)) /\ ms_repr h' q' (drop 1 vs).
Proof using Hqa.
  clear alloc Halloc. intros [Hr Hal]. pose proof (dequeue_repr _ _ _ Hr) as Hd.
  pose proof Hr as (a0 & v0 & ns & (Hl0 & Hl) & Hnd & Hnn & Hh & Ht & _ & -> & _ & _). simpl in Hh, Ht.
  apply erase_lookup_inv in Hl0 as (n0 & Hn0 & Hne). injection Hne as Hz Hv0.
  unfold MsQueue.dequeue. simpl. rewrite Hh, Hn0. simpl. unfold cmp128.
  rewrite CAS_same by done. simpl.
  destruct ns as [|[a1 v1] ns]; simpl in *.
  - injection Ht as Ht. rewrite <- Ht, Z.eqb_refl, <- Hz. simpl.
    eexists _, _. split; [done|]. split; [|done]. by destruct q.
  - rewrite (proj2 (Z.eqb_neq a0 (MsQueue.Tail q).1)).
    2: { intros E. apply NoDup_cons in Hnd as [Hnd _]. apply Hnd. rewrite E.
         by apply last_Some_elem_of. }
    pose proof Hl as [Hl1 _]. apply erase_lookup_inv in Hl1 as (n1 & Hn1 & Hne). injection Hne as _ Hv1.
    rewrite <- Hz, Hn1. simpl. rewrite CAS_same by done. simpl.
    eexists _, _. split; [by rewrite <- Hv1|].
    destruct Hd as (h' & q' & E & Hr'). unfold LockQueue.dequeue in E. simpl in E.
    rewrite Hh, (erase_lookup _ _ _ Hn0) in E. simpl in E. rewrite <- Hz in E.
    rewrite (proj2 (Z.eqb_neq a1 0)) in E by set_solver.
    rewrite (erase_lookup _ _ _ Hn1) in E. simpl in E. injection E as <- <-.
    split.
    + unfold erase. rewrite fmap_delete, Hh. done.
    + intros a [_ Ha]%lookup_delete_is_Some. auto.
Qed.

Definition msq : Type := MsQueue.heap_t * MsQueue.queue_t.

(** A call that does not overlap another needs one round of its retry loop. *)
#[global] Instance ms_queue : Queue msq := {
  q_enqueue '(h, q) v :=
    let! r := MsQueue.enqueue alloc qa 1 h q false v in
    Ok ((fun '(h, q, _) => (h, q)) <$> r);
  q_dequeue '(h, q) :=
    let! r := MsQueue.dequeue qa 1 h q false in
    Ok ((fun '(h, q, _, v) => ((h, q), v)) <$> r);
  q_get_size '(h, q) := MsQueue.queue_get_size q }.

#[global, refine] Instance ms_queue_laws : QueueLaws msq := {
  q_repr '(h, q) vs := ms_repr h q vs;
  q_room '(h, q) := is_Some (alloc h) }.
Proof using Halloc Hqa.
  - intros [h q] vs v Hr [[p g] Hroom].
    destruct (ms_enqueue_repr 0 h q vs false v p g) as (h' & q' & E & Hr'); [done..|].
    exists (h', q'). simpl in *. by rewrite E.
  - intros [h q] vs Hr. destruct (ms_dequeue_repr 0 h q vs false Hr) as (h' & q' & E & Hr').
    exists (h', q'). cbn -[MsQueue.dequeue]. rewrite E. done.
  - intros [h q] vs [(a0 & v0 & ns & _ & _ & _ & _ & _ & _ & _ & Hc & _) _] Hlen.
    simpl in *. unfold MsQueue.queue_get_size. rewrite Hc.
    rewrite wrap_small by (unfold in_u; lia). apply swrap_small; lia.
Defined.
End Ms.

(** ** Refinement of the abstract queue *)

(** Calls a client makes, one after the other. *)
Inductive call := Enq (v : Z) | Deq | Size.

(** What a call returns. *)
Inductive answer := AUnit | AVal (r : option Z) | ASize (n : Z).

(** The abstract queue is the list of values. *)
Definition spec_call (vs : list Z) (c : call) : list Z * answer :=
  match c with
  | Enq v => (vs ++ [v], AUnit)
  | Deq => (drop 1 vs, AVal (head vs))
  | Size => (vs, ASize (Z.of_nat (length vs)))
  end.

Fixpoint spec_calls (vs : list Z) (cs : list call) : list Z * list answer :=
  match cs with
  | [] => (vs, [])
  | c :: cs =>
      let '(vs, a) := spec_call vs c in
      let '(vs, r) := spec_calls vs cs in (vs, a :: r)
  end.

Section Refinement.
Context {T : Type} `{QueueLaws T}.

Definition impl_call (q : T) (c : call) : outcome (option (T * answer)) :=
  match c with
  | Enq v => let! r := q_enqueue q v in Ok ((fun q => (q, AUnit)) <$> r)
  | Deq => let! r := q_dequeue q in Ok ((fun '(q, v) => (q, AVal v)) <$> r)
  | Size => Ok (Some (q, ASize (q_get_size q)))
  end.

Fixpoint impl_calls (q : T) (cs : list call) : outcome (option (T * list answer)) :=
  match cs with
  | [] => Ok (Some (q, []))
  | c :: cs =>
      let! r := impl_call q c in
      match r with
      | None => Ok None
      | Some (q, a) =>
          let! r := impl_calls q cs in Ok ((fun '(q, l) => (q, a :: l)) <$> r)
      end
  end.

(** Every call returns, and answers what the list of values answers, as long as
    the allocator has room and the queue stays below [2^63] values. *)
Lemma impl_calls_refine cs q vs :
  q_repr q vs -> (forall q : T, q_room q) ->
  Z.of_nat (length vs + length cs) < 2 ^ 63 ->
  exists q', impl_calls q cs = Ok (Some (q', (spec_calls vs cs).2)) /\
             q_repr q' (spec_calls vs cs).1.
Proof.
  intros Hr Hroom. revert q vs Hr. induction cs as [|c cs IH]; intros q vs Hr Hlen; simpl.
  { eexists. by split. }
  assert (exists q1, impl_call q c = Ok (Some (q1, (spec_call vs c).2)) /\
            q_repr q1 (spec_call vs c).1) as (q1 & -> & Hr1).
  { destruct c as [v| |]; simpl.
    - destruct (q_enqueue_law q vs v) as (q1 & -> & Hr1); [done|done|]. by eexists.
    - destruct (q_dequeue_law q vs) as (q1 & -> & Hr1); [done|]. by eexists.
    - rewrite (q_size_law q vs); [|done|simpl in Hlen; lia]. by eexists. }
  simpl. destruct (spec_call vs c) as [vs1 a] eqn:E. simpl in *.
  destruct (IH q1 vs1) as (q2 & -> & Hr2); [done| |].
  { assert (length vs1 <= S (length vs))%nat; [|lia].
    destruct c; simplify_eq/=; rewrite ?length_app, ?length_drop; simpl; lia. }
  simpl. destruct (spec_calls vs1 cs) as [vs2 l]. simpl in *. by eexists.
Qed.
End Refinement.

(** The spinlock queue refines the abstract queue: from [new_queue], every
    sequence of calls that do not overlap terminates and returns what a list of
    values returns, sizes included. *)
Theorem lock_queue_refines malloc h q cs :
  malloc_ok malloc -> (forall h, malloc h <> 0) -> LockQueue.new_queue malloc ∅ = Ok (h, q) ->
  Z.of_nat (length cs) < 2 ^ 63 ->
  exists q', @impl_calls lockq (lock_queue malloc) (h, q) cs =
             Ok (Some (q', (spec_calls [] cs).2)).
Proof.
  intros Hm Hroom Hnew Hlen.
  destruct (@impl_calls_refine lockq (lock_queue malloc) (lock_queue_laws malloc Hm) cs (h, q) [])
    as (q' & E & _); [|intros []; apply Hroom|done|by eexists].
  by apply (new_queue_repr malloc).
Qed.

Lemma ms_new_queue_repr alloc h q :
  (forall h p g, alloc h = Some (p, g) -> p <> 0 /\ Z.land p 15 = 0 /\ h !! p = None) ->
  MsQueue.new_queue alloc ∅ = Ok (h, q) -> ms_repr h q [].
Proof.
  intros Ha H. unfold MsQueue.new_queue, MsQueue.initialize, MsQueue.new_node in H.
  destruct (alloc ∅) as [[p g]|] eqn:E; [|done]. destruct (Ha _ _ _ E) as (Hp & Hpa & _).
  simpl in H. rewrite lookup_insert_eq in H. simpl in H.
  unfold MsQueue.store_next in H. rewrite lookup_insert_eq in H. simpl in H. inv_ok.
  rewrite insert_insert_eq. split.
  - exists p, 0, []. unfold erase. rewrite fmap_insert, fmap_empty. simpl. split_and!; try done.
    + by rewrite lookup_insert_eq.
    + apply NoDup_singleton.
    + set_solver.
    + intros a. rewrite insert_empty, lookup_singleton_is_Some. set_solver.
  - intros a. rewrite insert_empty, lookup_singleton_is_Some. by intros <-.
Qed.

(** The lock free queue refines the same abstract queue. *)
Theorem ms_queue_refines alloc qa h q cs :
  (forall h p g, alloc h = Some (p, g) -> p <> 0 /\ Z.land p 15 = 0 /\ h !! p = None) ->
  (forall h, is_Some (alloc h)) -> Z.land qa 15 = 0 ->
  MsQueue.new_queue alloc ∅ = Ok (h, q) -> Z.of_nat (length cs) < 2 ^ 63 ->
  exists q', @impl_calls msq (ms_queue alloc qa) (h, q) cs =
             Ok (Some (q', (spec_calls [] cs).2)).
Proof.
  intros Ha Hroom Hqa Hnew Hlen.
  destruct (@impl_calls_refine msq (ms_queue alloc qa) (ms_queue_laws alloc qa Ha Hqa) cs (h, q) [])
    as (q' & E & _); [|intros []; apply Hroom|done|by eexists].
  by apply (ms_new_queue_repr alloc).
Qed.

(** A lock free [dequeue] of the empty queue returns with every signal still
    blocked, whatever the mask was: the [coremu_sigmask_res] after [return false]
    is dead code.  A [dequeue] that finds a value restores the mask. *)
Theorem ms_dequeue_sigmask qa fuel h q vs blocked :
  Z.land qa 15 = 0 -> ms_repr h q vs ->
  exists h' q', MsQueue.dequeue qa (S fuel) h q blocked =
    Ok (Some (h', q', (if vs is [] then true else blocked), head vs)).
Proof.
  intros Hqa Hr. destruct (ms_dequeue_repr qa Hqa fuel h q vs blocked Hr) as (h' & q' & E & _). eauto.
Qed.

(** ** Witnesses *)

Definition demo_calls : list call := [Enq 5; Enq 6; Size; Deq; Deq; Deq; Size].

Lemma bump_malloc_nonzero h : bump_malloc h <> 0.
Proof.
  unfold bump_malloc. apply Z.neq_sym, Z.lt_neq.
  assert (0 <= map_fold (fun (a : Z) (_ : LockQueue.node_t) m => Z.max a m) 0 h); [|lia].
  induction h as [|i x h Hi IH] using map_ind; [done|].
  rewrite map_fold_insert_L by (done || (intros; lia)). lia.
Qed.

Lemma lock_queue_refines_witness :
  exists q', @impl_calls lockq (lock_queue bump_malloc) repr_empty_demo demo_calls =
             Ok (Some (q', [AUnit; AUnit; ASize 2; AVal (Some 5); AVal (Some 6); AVal None; ASize 0])).
Proof.
  apply (lock_queue_refines bump_malloc repr_empty_demo.1 repr_empty_demo.2 demo_calls);
    [apply bump_malloc_ok|apply bump_malloc_nonzero|by vm_compute..].
Defined.

(** Aligned addresses past everything allocated. *)
Definition bump_alloc (h : MsQueue.heap_t) : option (Z * Z) :=
  Some (16 * (1 + map_fold (fun a _ m => Z.max (Z.abs a) m) 0 h), 77).

Lemma bump_alloc_ok h p g :
  bump_alloc h = Some (p, g) -> p <> 0 /\ Z.land p 15 = 0 /\ h !! p = None.
Proof.
  assert (forall h : MsQueue.heap_t, 0 <= map_fold (fun a _ m => Z.max (Z.abs a) m) 0 h /\
    forall a n, h !! a = Some n -> a <= map_fold (fun a _ m => Z.max (Z.abs a) m) 0 h) as H.
  { clear. intros h. induction h as [|i x h Hi [IH0 IH]] using map_ind.
    - rewrite map_fold_empty. split; [done|]. intros a n. by rewrite lookup_empty.
    - rewrite map_fold_insert_L by (done || (intros; lia)). split; [lia|]. intros a n.
      destruct (decide (i = a)) as [->|]; [lia|]. rewrite lookup_insert_ne by done.
      intros ?%IH. lia. }
  unfold bump_alloc. intros E. injection E as <- _. destruct (H h) as [H0 Hmax].
  split_and!; [lia| |].
  - change 15 with (Z.ones 4). rewrite Z.land_ones by lia.
    change (2 ^ 4) with 16. rewrite Z.mul_comm. apply Z.mod_mul. lia.
  - destruct (h !! _) eqn:E; [|done]. apply Hmax in E. lia.
Qed.

Definition ms_empty_demo : msq :=
  if MsQueue.new_queue bump_alloc ∅ is Ok r then r else (∅, MsQueue.mk_queue (0, 0) (0, 0) 0).

Lemma ms_queue_refines_witness :
  exists q', @impl_calls msq (ms_queue bump_alloc 16) ms_empty_demo demo_calls =
             Ok (Some (q', [AUnit; AUnit; ASize 2; AVal (Some 5); AVal (Some 6); AVal None; ASize 0])).
Proof.
  apply (ms_queue_refines bump_alloc 16 ms_empty_demo.1 ms_empty_demo.2 demo_calls);
    [apply bump_alloc_ok|by eexists|by vm_compute..].
Defined.

Lemma ms_dequeue_sigmask_witness :
  exists h' q', MsQueue.dequeue 16 1 ms_empty_demo.1 ms_empty_demo.2 false =
                Ok (Some (h', q', true, None)).
Proof.
  apply (ms_dequeue_sigmask 16 0 ms_empty_demo.1 ms_empty_demo.2 [] false); [done|].
  by apply (ms_new_queue_repr bump_alloc); [apply bump_alloc_ok|vm_compute].
Defined.
