(* ===== verification/MallocHelper.v ===== *)
(** * Allocation helpers of [main/malloc-helper.c]

    The C library's heap is a map from block addresses to block contents.
    [malloc] itself is a parameter; it is given the map and the size. *)

From S2P Require Import Prelude Atomic.
Local Open Scope Z_scope.
Local Open Scope coremu_scope.

Abbreviation blocks := (gmap Z (list Z)).

Section Malloc.
(** [malloc m size]: the address returned, 0 on failure. *)
Context (malloc : blocks -> Z -> Z).
(** The bytes a fresh block of that size holds before anything is stored. *)
Context (garbage : Z -> list Z).

Definition oom_check (ptr : Z) : outcome Z := if ptr =? 0 then Abort else Ok ptr.

Definition coremu_malloc (m : blocks) (size : Z) : outcome (blocks * Z) :=
  let! p := oom_check (malloc m size) in Ok (<[p := garbage size]> m, p).

Definition coremu_mallocz (m : blocks) (size : Z) : outcome (blocks * Z) :=
  let! '(m, p) := coremu_malloc m size in
  Ok (<[p := replicate (Z.to_nat size) 0]> m, p).

(** [realloc] moves the block, keeping the bytes that fit; the size asked for is
    never 0. *)
Definition coremu_realloc (m : blocks) (ptr size : Z) : outcome (blocks * Z) :=
  let size := if size =? 0 then 1 else size in
  let! p := oom_check (malloc m size) in
  let old := default [] (m !! ptr) in
  let keep := take (Z.to_nat size) old in
  Ok (<[p := keep ++ drop (length keep) (garbage size)]> (delete ptr m), p).

Definition coremu_free (m : blocks) (ptr : Z) : blocks := delete ptr m.

(** [coremu_atomic_mallocz(pp, size)] with [*pp = cell]: the heap, the new
    [*pp] and the result. *)
Definition coremu_atomic_mallocz (m : blocks) (cell size : Z) : outcome (blocks * Z * Z) :=
  let! '(m, p) := coremu_mallocz m size in
  let '(cell', res) := atomic_compare_exchange 64 cell 0 p in
  let m := if negb (res =? 0) then coremu_free m p else m in
  Ok (m, cell', Z.b2z (res =? 0)).

(** Several threads call it on the same cell; [sizes] in the order of their
    compare-and-swaps, the only accesses to the cell. *)
Fixpoint atomic_mallocz_race (m : blocks) (cell : Z) (sizes : list Z)
  : outcome (blocks * Z * list Z) :=
  match sizes with
  | [] => Ok (m, cell, [])
  | size :: sizes =>
      let! '(m, cell, r) := coremu_atomic_mallocz m cell size in
      let! '(m, cell, rs) := atomic_mallocz_race m cell sizes in
      Ok (m, cell, r :: rs)
  end.

(** [malloc] returns null or the 64-bit address of a block that is not in use. *)
Context (Hm : forall m size, malloc m size = 0 \/
           (in_u 64 (malloc m size) /\ m !! malloc m size = None)).

Lemma mallocz_ok m size m' p :
  coremu_mallocz m size = Ok (m', p) ->
  p <> 0 /\ in_u 64 p /\ m !! p = None /\ m' = <[p := replicate (Z.to_nat size) 0]> m.
Proof using Hm.
  unfold coremu_mallocz, coremu_malloc, oom_check. intros H.
  destruct (malloc m size =? 0) eqn:E; [done|]. simpl in H. inv_ok. bool_to_prop.
  destruct (Hm m size) as [|[? ?]]; [done|]. split_and!; try done. apply insert_insert_eq.
Qed.

(** Once the cell is set, later callers get 0 and leave no block behind. *)
Lemma atomic_mallocz_lost m cell sizes m' cell' rs :
  cell <> 0 -> atomic_mallocz_race m cell sizes = Ok (m', cell', rs) ->
  m' = m /\ cell' = cell /\ rs = replicate (length sizes) 0.
Proof using Hm.
  intros Hc. revert m' cell' rs. induction sizes as [|size sizes IH]; simpl; intros m' cell' rs H.
  { by simplify_eq. }
  unfold coremu_atomic_mallocz in H. rewrite obind_assoc in H.
  apply obind_ok in H as ([m1 p] & E & H). apply mallocz_ok in E as (Hp & _ & Hf & ->).
  unfold atomic_compare_exchange in H. rewrite (proj2 (Z.eqb_neq _ _) Hc) in H. simpl in H.
  rewrite (proj2 (Z.eqb_neq _ _) Hc) in H. simpl in H.
  unfold coremu_free in H. rewrite delete_insert_id in H by done.
  apply obind_ok in H as ([[m2 c2] rs2] & E2 & H). simplify_eq.
  by destruct (IH _ _ _ E2) as (-> & -> & ->).
Qed.
End Malloc.

(** Exactly one of the racing calls of [coremu_atomic_mallocz] on an empty cell
    succeeds: the first to reach the compare-and-swap returns 1 and its zeroed
    block is what the cell points to, all others return 0 and free their block, so
    the heap gains that one block and nothing else. *)
Theorem atomic_mallocz_once malloc garbage m size sizes m' cell' rs :
  (forall m size, malloc m size = 0 \/ (in_u 64 (malloc m size) /\ m !! malloc m size = None)) ->
  atomic_mallocz_race malloc garbage m 0 (size :: sizes) = Ok (m', cell', rs) ->
  cell' <> 0 /\ m !! cell' = None /\ m' = <[cell' := replicate (Z.to_nat size) 0]> m /\
  rs = 1 :: replicate (length sizes) 0.
Proof.
  intros Hm H. simpl in H. unfold coremu_atomic_mallocz in H. rewrite obind_assoc in H.
  apply obind_ok in H as ([m1 p] & E & H). apply mallocz_ok in E as (Hp & Hu & Hf & ->); [|done].
  unfold atomic_compare_exchange in H. simpl in H. rewrite (wrap_small _ p Hu) in H.
  apply obind_ok in H as ([[m2 c2] rs2] & E2 & H). simplify_eq.
  by apply (atomic_mallocz_lost malloc garbage Hm) in E2 as (-> & -> & ->).
Qed.

(** An allocator handing out the first free multiple of 16. *)
Definition demo_malloc (m : blocks) (size : Z) : Z :=
  default 0 (head (filter (fun a => m !! a = None) [16; 32; 48])).

Lemma demo_malloc_ok m size :
  demo_malloc m size = 0 \/ (in_u 64 (demo_malloc m size) /\ m !! demo_malloc m size = None).
Proof.
  unfold demo_malloc. destruct (filter _ _) as [|a l] eqn:E; [by left|right].
  assert (a ∈ filter (fun a => m !! a = None) [16; 32; 48]) as Ha by (rewrite E; set_solver).
  apply list_elem_of_filter in Ha as [H1 H2]. simpl. split; [|done].
  unfold in_u. repeat (apply elem_of_cons in H2 as [->|H2]; [lia|]). by apply elem_of_nil in H2.
Qed.

Lemma atomic_mallocz_once_witness :
  exists m' cell' rs,
    atomic_mallocz_race demo_malloc (fun n => replicate (Z.to_nat n) 255) ∅ 0 [4; 4; 8] = Ok (m', cell', rs) /\
    cell' <> 0 /\ rs = [1; 0; 0].
Proof.
  destruct (atomic_mallocz_race demo_malloc (fun n => replicate (Z.to_nat n) 255) ∅ 0 [4; 4; 8])
    as [[[m' c'] rs]| |] eqn:E; [|by vm_compute in E..].
  exists m', c', rs. split; [done|].
  apply (atomic_mallocz_once demo_malloc) in E as (? & _ & _ & ?); [done|apply demo_malloc_ok].
Defined.
