(* ===== verification/CoremuUtils.v ===== *)
(** * [main/utils.c] and [main/hw.c]

    Time arithmetic, the time stamp counter, random numbers, and the hardware
    thread's registration with its exit counter. *)

From S2P Require Import Prelude Atomic.
Local Open Scope Z_scope.
Local Open Scope coremu_scope.

(** ** [main/utils.c] *)

Record timespec := mk_timespec { tv_nsec_sec : Z; tv_nsec : Z }.

Definition maketimeout (tsp : timespec) (seconds : Z) : timespec := mk_timespec seconds 0.

Record timeval := mk_timeval { tv_sec : Z; tv_usec : Z }.

(** [timeval_subtract(result, x, y)]: the result, the modified [y] and the return
    value.  [int nsec] holds a quotient, truncated towards zero as C divides. *)
Definition timeval_subtract (x y : timeval) : timeval * timeval * Z :=
  let y :=
    if tv_usec x <? tv_usec y then
      let nsec := s32 (Z.quot (tv_usec y - tv_usec x) 1000000 + 1) in
      mk_timeval (tv_sec y + nsec) (tv_usec y - 1000000 * nsec)
    else y in
  let y :=
    if 1000000 <? tv_usec x - tv_usec y then
      let nsec := s32 (Z.quot (tv_usec x - tv_usec y) 1000000) in
      mk_timeval (tv_sec y - nsec) (tv_usec y + 1000000 * nsec)
    else y in
  (mk_timeval (tv_sec x - tv_sec y) (tv_usec x - tv_usec y), y,
   Z.b2z (tv_sec x <? tv_sec y)).

(** [a] and [d] are the halves [rdtsc] leaves in [eax] and [edx]. *)
Definition read_host_tsc (a d : Z) : Z := Z.lor a (Z.shiftl d 32).

(** [r] is what [random()] returned, a long in [0, 2^31). *)
Definition coremu_random (r min max : Z) : Z := s32 (Z.rem r (max - min) + min).

(** Microseconds a [timeval] stands for. *)
Definition usecs (t : timeval) : Z := 1000000 * tv_sec t + tv_usec t.

Definition normal (t : timeval) : Prop := 0 <= tv_usec t < 1000000.

(** For normalised times, [timeval_subtract] is exact: the result is the
    normalised difference, and the return value is 1 exactly when [x] is earlier
    than [y]. *)
Theorem timeval_subtract_correct x y :
  normal x -> normal y ->
  let '(r, _, neg) := timeval_subtract x y in
  normal r /\ usecs r = usecs x - usecs y /\ neg = Z.b2z (usecs x <? usecs y).
Proof.
  unfold normal, usecs, timeval_subtract. intros Hx Hy.
  assert (forall d, 0 < d < 1000000 -> s32 (Z.quot d 1000000 + 1) = 1) as Hq.
  { intros d Hd. rewrite Z.quot_small by lia. reflexivity. }
  destruct (tv_usec x <? tv_usec y) eqn:E; bool_to_prop; [rewrite Hq by lia|].
  all: case_test; cbn [tv_sec tv_usec] in *; try lia; split_and!; try lia.
  all: f_equal; apply eq_true_iff_eq; rewrite !Z.ltb_lt; lia.
Qed.

Lemma timeval_subtract_correct_witness :
  let '(r, _, neg) := timeval_subtract (mk_timeval 5 100) (mk_timeval 3 999999) in
  normal r /\ usecs r = 1000101 /\ neg = 0.
Proof.
  apply (timeval_subtract_correct (mk_timeval 5 100) (mk_timeval 3 999999)); unfold normal; simpl; lia.
Defined.

(** [coremu_random] stays in [[min, max)]. *)
Lemma coremu_random_range r min max :
  0 <= r -> min < max -> - 2 ^ 31 <= min -> max < 2 ^ 31 ->
  min <= coremu_random r min max < max.
Proof.
  intros Hr Hlt Hmin Hmax. unfold coremu_random.
  pose proof (Z.rem_bound_pos r (max - min)). rewrite swrap_small; lia.
Qed.

(** ** [main/hw.c] *)

(** The file's static variables. *)
Record hw_state := mk_hw { ioreq_exit : Z; hw_thrid : Z }.

Definition hw_init : hw_state := mk_hw 0 0.

(** [self] is [pthread_self()]. *)
Definition register_hw_thr (h : hw_state) (self : Z) : hw_state := mk_hw (ioreq_exit h) self.

Definition coremu_init_hw (h : hw_state) (self smp_cpus : Z) : hw_state := register_hw_thr h self.

(** The thread [pthread_kill] is called on, with the signal. *)
Definition coremu_signal_hw_thr (h : hw_state) (signo : Z) : Z * Z := (hw_thrid h, signo).

Definition coremu_get_hw_id (h : hw_state) : Z := hw_thrid h.

Definition coremu_hw_thr_p (h : hw_state) (self : Z) : bool := self =? hw_thrid h.

Definition coremu_assert_hw_thr (h : hw_state) (self : Z) : outcome unit :=
  if negb (hw_thrid h =? self) then Abort else Ok tt.

Definition coremu_assert_not_hw_thr (h : hw_state) (self : Z) : outcome unit :=
  if hw_thrid h =? self then Abort else Ok tt.

(** The flag is an [int] the atomic helpers treat as [uint32_t]. *)
Definition coremu_ioreq_exit_p (h : hw_state) : Z := s32 (ioreq_exit h).

Definition coremu_inc_ioreq_exit (h : hw_state) : hw_state :=
  mk_hw (atomic_inc 32 (ioreq_exit h)) (hw_thrid h).

Definition coremu_dec_ioreq_exit (h : hw_state) : hw_state :=
  mk_hw (atomic_dec 32 (ioreq_exit h)) (hw_thrid h).

(** Requests and completions in the order their locked instructions execute;
    [true] adds one. *)
Definition ioreq_run (h : hw_state) (l : list bool) : hw_state :=
  foldl (fun h (b : bool) => if b then coremu_inc_ioreq_exit h else coremu_dec_ioreq_exit h) h l.

Definition balance (l : list bool) : Z := foldr (fun (b : bool) z => (if b then 1 else -1) + z) 0 l.

Lemma ioreq_run_value h l :
  in_u 32 (ioreq_exit h) -> ioreq_exit (ioreq_run h l) = u32 (ioreq_exit h + balance l).
Proof.
  unfold ioreq_run. revert h. induction l as [|b l IH]; intros h Hh; simpl.
  - by rewrite Z.add_0_r, wrap_small.
  - rewrite IH by (destruct b; apply wrap_range; lia).
    destruct b; simpl; unfold atomic_inc, atomic_dec; rewrite wrap_add_l; f_equal; lia.
Qed.

(** The exit flag counts: after any interleaving of requests and completions that
    starts from 0 and stays within an [int], it reads as the number of requests
    still open, so it is 0 exactly when all were completed. *)
Theorem ioreq_exit_counts h l :
  ioreq_exit h = 0 -> - 2 ^ 31 <= balance l < 2 ^ 31 ->
  coremu_ioreq_exit_p (ioreq_run h l) = balance l.
Proof.
  intros H0 Hb. unfold coremu_ioreq_exit_p. rewrite ioreq_run_value by (rewrite H0; done).
  rewrite H0. unfold wrap, swrap. rewrite Z.add_0_l, Zplus_mod_idemp_l.
  change (swrap 32 (balance l) = balance l). apply swrap_small; lia.
Qed.

Lemma ioreq_exit_counts_witness :
  coremu_ioreq_exit_p (ioreq_run hw_init [true; true; false; true]) = 2.
Proof. apply (ioreq_exit_counts hw_init [true; true; false; true]); simpl; lia. Defined.
