(* ===== verification/Core.v ===== *)
(** * Cores and scheduling: [main/core.c], [main/core.h], [main/sched.c]

    [world] holds the process-wide variables of the two files, the array of core
    objects, the per-thread variables, and a log of the system calls made.  The
    queue of a core is any type with the [Queue] interface.  The pause protocol of
    [main/core.c] is in [Pause]. *)

From S2P Require Import Prelude Atomic CoremuUtils QueueSpec.
Local Open Scope Z_scope.
Local Open Scope coremu_scope.

(** ** [incl/coremu-types.h], [incl/coremu-config.h] *)

Definition COREMU_MAX_CPU : Z := 255.

Inductive CMCoreState := CM_STATE_RUN | CM_STATE_HALT | CM_STATE_PAUSE.

#[global] Instance CMCoreState_eq_dec : EqDecision CMCoreState.
Proof. solve_decision. Defined.

Inductive CMSchedEvent := CM_EVENT_HALTED | CM_EVENT_PAUSE | CM_EVENT_CNT.

Record CMCore (T : Type) := mk_core {
  serial : Z; thread : Z; tid : Z; intr_queue : T;
  time_stamp : Z; intr_thresh_hold : Z; sig_pending : Z;
  opaque : Z; core_state : CMCoreState }.
Arguments mk_core {T}.
Arguments serial {T}.
Arguments thread {T}.
Arguments tid {T}.
Arguments intr_queue {T}.
Arguments time_stamp {T}.
Arguments intr_thresh_hold {T}.
Arguments sig_pending {T}.
Arguments opaque {T}.
Arguments core_state {T}.

Section Fields.
Context {T : Type}.
Implicit Types c : CMCore T.

Definition with_queue c (q : T) : CMCore T :=
  mk_core (serial c) (thread c) (tid c) q (time_stamp c) (intr_thresh_hold c)
    (sig_pending c) (opaque c) (core_state c).
Definition with_thresh c (x : Z) : CMCore T :=
  mk_core (serial c) (thread c) (tid c) (intr_queue c) (time_stamp c) x
    (sig_pending c) (opaque c) (core_state c).
Definition with_stamp c (x : Z) : CMCore T :=
  mk_core (serial c) (thread c) (tid c) (intr_queue c) x (intr_thresh_hold c)
    (sig_pending c) (opaque c) (core_state c).
Definition with_pending c (x : Z) : CMCore T :=
  mk_core (serial c) (thread c) (tid c) (intr_queue c) (time_stamp c) (intr_thresh_hold c)
    x (opaque c) (core_state c).
Definition with_state c (x : CMCoreState) : CMCore T :=
  mk_core (serial c) (thread c) (tid c) (intr_queue c) (time_stamp c) (intr_thresh_hold c)
    (sig_pending c) (opaque c) x.
Definition with_tid c (x : Z) : CMCore T :=
  mk_core (serial c) (thread c) x (intr_queue c) (time_stamp c) (intr_thresh_hold c)
    (sig_pending c) (opaque c) (core_state c).
Definition with_thread c (x : Z) : CMCore T :=
  mk_core (serial c) x (tid c) (intr_queue c) (time_stamp c) (intr_thresh_hold c)
    (sig_pending c) (opaque c) (core_state c).
End Fields.

(** System calls, in the order made. *)
Inductive syscall :=
| SysKill (thread signo : Z)             (* pthread_kill *)
| SysPrio (who prio : Z)                 (* setpriority(PRIO_PROCESS, who, prio) *)
| SysNanosleep (nsec : Z)                (* nanosleep *)
| SysYield                               (* pthread_yield *)
| SysCreate (thread arg : Z)             (* pthread_create *)
| SysBind (index : Z)                    (* topo_set_cpubind *)
| SysNotify                              (* event_notifier() *)
| SysHandle (intr : Z).                  (* event_handler(intr) *)

Record world (T : Type) := mk_world {
  cm_smp_cpus : Z; cm_cores : list (CMCore T); hw : hw_state; init_done : bool;
  host_cpu_avail : Z; max_prio : Z; min_prio : Z; avg_prio : Z; low_prio : Z; high_prio : Z;
  cores : Z;                             (* physical cores of the topology *)
  core_self : gmap Z nat;                (* __thread cm_core_self, by thread *)
  pause_cnt : gmap Z Z;                  (* __thread pause_cnt, by thread *)
  calls : list syscall }.
Arguments mk_world {T}.
Arguments cm_smp_cpus {T}.
Arguments cm_cores {T}.
Arguments hw {T}.
Arguments init_done {T}.
Arguments host_cpu_avail {T}.
Arguments max_prio {T}.
Arguments min_prio {T}.
Arguments avg_prio {T}.
Arguments low_prio {T}.
Arguments high_prio {T}.
Arguments cores {T}.
Arguments core_self {T}.
Arguments pause_cnt {T}.
Arguments calls {T}.

Section Updates.
Context {T : Type}.
Implicit Types w : world T.

Definition set_cores w (l : list (CMCore T)) : world T :=
  mk_world (cm_smp_cpus w) l (hw w) (init_done w) (host_cpu_avail w) (max_prio w) (min_prio w)
    (avg_prio w) (low_prio w) (high_prio w) (cores w) (core_self w) (pause_cnt w) (calls w).
Definition set_core w (i : nat) (c : CMCore T) : world T := set_cores w (<[i := c]> (cm_cores w)).
Definition set_hw w (h : hw_state) : world T :=
  mk_world (cm_smp_cpus w) (cm_cores w) h (init_done w) (host_cpu_avail w) (max_prio w) (min_prio w)
    (avg_prio w) (low_prio w) (high_prio w) (cores w) (core_self w) (pause_cnt w) (calls w).
Definition set_init_done w (b : bool) : world T :=
  mk_world (cm_smp_cpus w) (cm_cores w) (hw w) b (host_cpu_avail w) (max_prio w) (min_prio w)
    (avg_prio w) (low_prio w) (high_prio w) (cores w) (core_self w) (pause_cnt w) (calls w).
Definition set_smp w (n : Z) : world T :=
  mk_world n (cm_cores w) (hw w) (init_done w) (host_cpu_avail w) (max_prio w) (min_prio w)
    (avg_prio w) (low_prio w) (high_prio w) (cores w) (core_self w) (pause_cnt w) (calls w).
Definition set_core_self w (m : gmap Z nat) : world T :=
  mk_world (cm_smp_cpus w) (cm_cores w) (hw w) (init_done w) (host_cpu_avail w) (max_prio w)
    (min_prio w) (avg_prio w) (low_prio w) (high_prio w) (cores w) m (pause_cnt w) (calls w).
Definition set_pause_cnt w (m : gmap Z Z) : world T :=
  mk_world (cm_smp_cpus w) (cm_cores w) (hw w) (init_done w) (host_cpu_avail w) (max_prio w)
    (min_prio w) (avg_prio w) (low_prio w) (high_prio w) (cores w) (core_self w) m (calls w).
Definition log w (e : syscall) : world T :=
  mk_world (cm_smp_cpus w) (cm_cores w) (hw w) (init_done w) (host_cpu_avail w) (max_prio w)
    (min_prio w) (avg_prio w) (low_prio w) (high_prio w) (cores w) (core_self w) (pause_cnt w)
    (calls w ++ [e]).
End Updates.

(** ** [main/core.h] *)

Section CoreSelf.
Context {T : Type}.
Implicit Types w : world T.

Definition coremu_get_core w (coreid : Z) : outcome (CMCore T) :=
  if (0 <=? coreid) then of_option (cm_cores w !! Z.to_nat coreid) else Fault.

(** [coremu_assert_core_thr]: fails on the hardware thread. *)
Definition coremu_assert_core_thr w (self : Z) : outcome unit :=
  if self =? coremu_get_hw_id (hw w) then Abort else Ok tt.

(** The scan for the core whose thread is the caller. *)
Fixpoint find_core (l : list (CMCore T)) (self : Z) (i : nat) : option nat :=
  match l with
  | [] => None
  | c :: l => if thread c =? self then Some i else find_core l self (S i)
  end.

(** [coremu_get_core_self()] on thread [self]: the index of the core, [None] for
    a null pointer. *)
Definition coremu_get_core_self w (self : Z) : outcome (world T * option nat) :=
  let! _ := coremu_assert_core_thr w self in
  match core_self w !! self with
  | Some i => Ok (w, Some i)
  | None =>
      match find_core (take (Z.to_nat (cm_smp_cpus w)) (cm_cores w)) self 0 with
      | Some i => Ok (set_core_self w (<[self := i]> (core_self w)), Some i)
      | None => Ok (w, None)
      end
  end.

(** The core object itself; using a null pointer faults. *)
Definition self_core w (self : Z) : outcome (world T * nat * CMCore T) :=
  let! '(w, o) := coremu_get_core_self w self in
  let! i := of_option o in
  let! c := of_option (cm_cores w !! i) in
  Ok (w, i, c).
End CoreSelf.

(** ** [main/core.c] *)

Section CoreC.
Context {T : Type} (new_queue : outcome T).
Implicit Types w : world T.

(** [coremu_core_init(id, opaque)]; [empty] is what the zeroed array holds for a
    core. *)
Definition coremu_core_init w (id : Z) (opq : Z) : outcome (world T) :=
  let! core := coremu_get_core w id in
  let! q := new_queue in
  Ok (set_core w (Z.to_nat id)
        (mk_core (u32 id) (thread core) (tid core) q (time_stamp core) (intr_thresh_hold core)
           (sig_pending core) opq CM_STATE_RUN)).

(** [coremu_run_all_cores]: [create i] is the id [pthread_create] gives the i-th
    thread, [None] when it fails. *)
Fixpoint create_threads w (create : nat -> option Z) (i n : nat) : outcome (world T) :=
  match n with
  | O => Ok w
  | S n =>
      let! c := of_option (cm_cores w !! i) in
      match create i with
      | None => Abort
      | Some t =>
          create_threads (log (set_core w i (with_thread c t)) (SysCreate t (opaque c)))
            create (S i) n
      end
  end.

Definition coremu_run_all_cores w (create : nat -> option Z) : outcome (world T) :=
  let! w := create_threads w create 0 (Z.to_nat (cm_smp_cpus w)) in
  Ok (set_init_done w true).

Definition coremu_init_done_p w : bool := init_done w.
End CoreC.

(** ** [main/sched.c] *)

Definition HALT_SLEEP_MAX_TIME : Z := 5000000.
Definition PAUSE_THRESHOLD : Z := 100.
Definition PAUSE_SLEEP_TIME : Z := 100000.

Section Sched.
Context {T : Type}.
Implicit Types w : world T.

(** [coremu_thread_setpriority]: asserts that the kernel accepts; [root] is
    whether it does (the README asks for root). *)
Definition coremu_thread_setpriority (root : bool) w (who prio : Z) : outcome (world T) :=
  if root then Ok (log w (SysPrio who prio)) else Abort.

(** [coremu_init_sched_all] with [nproc] processors online and [ncores] cores in
    the topology. *)
Definition coremu_init_sched_all (root : bool) w (nproc ncores : Z) : outcome (world T) :=
  let maxp := -21 in
  let minp := 19 in
  let avg := Z.quot (maxp + minp) 2 in
  let low := Z.quot (avg + minp) 2 in
  let high := Z.quot (maxp + avg) 2 in
  let w := mk_world (cm_smp_cpus w) (cm_cores w) (hw w) (init_done w) nproc maxp minp avg low high
             ncores (core_self w) (pause_cnt w) (calls w) in
  coremu_thread_setpriority root w 0 (high_prio w).

Definition coremu_get_hostcpu w : Z := host_cpu_avail w.
Definition coremu_get_targetcpu w : Z := cm_smp_cpus w.

Definition coremu_get_thrs_per_core w : outcome Z :=
  if host_cpu_avail w =? 0 then Fault
  else Ok (Z.quot (host_cpu_avail w + cm_smp_cpus w - 1) (host_cpu_avail w)).

Definition coremu_physical_core_enough_p w : bool := cm_smp_cpus w <=? host_cpu_avail w.
Definition coremu_get_maxprio w : Z := high_prio w.
Definition coremu_get_minprio w : Z := low_prio w.

(** [topology_bind_core]: [bind i] is whether binding to core [i] succeeds; a
    failure exits the process. *)
Definition topology_bind_core (bind : Z -> bool) w (self : Z) : outcome (world T) :=
  let! '(w, _, c) := self_core w self in
  if cores w =? 0 then Fault
  else
    let index := serial c mod cores w in
    if bind index then Ok (log w (SysBind index)) else Abort.

(** [coremu_init_sched_core] on a thread with kernel id [gettid] and policy
    [CM_SCHED_POLICY]. *)
Definition coremu_init_sched_core (root : bool) (bind : Z -> bool) w (self gettid : Z)
  : outcome (world T) :=
  let! w := coremu_thread_setpriority root w 0 (avg_prio w) in
  let! '(w, i, c) := self_core w self in
  let w := set_core w i (with_tid c gettid) in
  topology_bind_core bind w self.

Definition sched_halted w (self : Z) : outcome (world T) :=
  let! '(w, i, c) := self_core w self in
  let w := set_core w i (with_state c CM_STATE_HALT) in
  let w := log w (SysNanosleep HALT_SLEEP_MAX_TIME) in
  Ok (set_core w i (with_state c CM_STATE_RUN)).

Definition sched_pause w (self : Z) : outcome (world T) :=
  let! '(w, i, c) := self_core w self in
  let cnt := default 0 (pause_cnt w !! self) in
  let set n := set_pause_cnt w (<[self := n]> (pause_cnt w)) in
  if cnt <? PAUSE_THRESHOLD then Ok (set (u64 (cnt + 1)))
  else if cnt <=? PAUSE_THRESHOLD + 1 then Ok (log (set (u64 (cnt + 1))) SysYield)
  else
    let w := set_core w i (with_state c CM_STATE_PAUSE) in
    let w := log w (SysNanosleep PAUSE_SLEEP_TIME) in
    let w := set_core w i (with_state c CM_STATE_RUN) in
    Ok (set_pause_cnt w (<[self := 0]> (pause_cnt w))).

Definition coremu_cpu_sched w (self : Z) (e : CMSchedEvent) : outcome (world T) :=
  match e with
  | CM_EVENT_HALTED => sched_halted w self
  | CM_EVENT_PAUSE => sched_pause w self
  | CM_EVENT_CNT => Abort
  end.

(** [n] consecutive pause events of one thread. *)
Fixpoint pause_events (n : nat) w (self : Z) : outcome (world T) :=
  match n with
  | O => Ok w
  | S n => let! w := coremu_cpu_sched w self CM_EVENT_PAUSE in pause_events n w self
  end.
End Sched.

(** [coremu_init]: scheduling first, then a zeroed array of core objects, then the
    hardware thread; [zero] is a zeroed core. *)
Definition coremu_init {T} (root : bool) (zero : CMCore T) (w : world T)
    (self smp_cpus nproc ncores : Z) : outcome (world T) :=
  let w := set_smp w smp_cpus in
  let! w := coremu_init_sched_all root w nproc ncores in
  let w := set_cores w (replicate (Z.to_nat (cm_smp_cpus w)) zero) in
  Ok (set_hw w (coremu_init_hw (hw w) self (cm_smp_cpus w))).

(** ** Properties *)

Section CoreFacts.
Context {T : Type}.
Implicit Types w : world T.

(** The cached [cm_core_self] of a thread is the core that runs on it. *)
Definition self_ok w : Prop :=
  forall t i, core_self w !! t = Some i ->
  exists c, cm_cores w !! i = Some c /\ thread c = t.

Lemma find_core_spec (l : list (CMCore T)) t i j :
  find_core l t i = Some j ->
  exists k c, j = (i + k)%nat /\ l !! k = Some c /\ thread c = t.
Proof.
  revert i. induction l as [|c l IH]; simpl; intros i H; [done|].
  destruct (thread c =? t) eqn:E; bool_to_prop.
  - simplify_eq. exists 0%nat, c. split_and!; [lia|done..].
  - apply IH in H as (k & c' & -> & ? & ?). exists (S k), c'. split_and!; [lia|done..].
Qed.

Lemma find_core_complete (l : list (CMCore T)) t k c i :
  NoDup (thread <$> l) -> l !! k = Some c -> thread c = t -> find_core l t i = Some (i + k)%nat.
Proof.
  intros Hnd Hk Ht. destruct (find_core l t i) as [j|] eqn:E.
  - apply find_core_spec in E as (k' & c' & -> & Hk' & Ht'). do 2 f_equal.
    apply (NoDup_lookup (thread <$> l) _ _ t); [done|..]; rewrite list_lookup_fmap, ?Hk, ?Hk'; simpl; congruence.
  - exfalso. clear Hnd. revert k i Hk E. induction l as [|d l IH]; intros [|k] i Hk E; simplify_eq/=.
    + by rewrite Z.eqb_refl in E.
    + destruct (thread d =? thread c); [done|]. by eapply IH.
Qed.

(** [coremu_get_core_self] only fills the cache. *)
Lemma get_core_self_frame w self w' o :
  coremu_get_core_self w self = Ok (w', o) -> exists m, w' = set_core_self w m.
Proof.
  unfold coremu_get_core_self. intros. inv_ok.
  destruct (core_self w !! self); [simplify_eq; exists (core_self w'); by destruct w'|].
  destruct (find_core _ _ _); simplify_eq; eauto. exists (core_self w'). by destruct w'.
Qed.

Lemma self_core_frame w self w' i c :
  self_core w self = Ok (w', i, c) ->
  cm_cores w !! i = Some c /\ exists m, w' = set_core_self w m.
Proof.
  unfold self_core. intros H. apply obind_ok in H as ([w1 o] & E & H).
  apply get_core_self_frame in E as [m ->]. destruct o as [j|]; [|done]. simpl in H.
  destruct (cm_cores w !! j) eqn:E; [|done]. simpl in H. simplify_eq. eauto.
Qed.

Lemma pause_cnt_lookup w self w' i c :
  self_core w self = Ok (w', i, c) -> pause_cnt w' = pause_cnt w /\ calls w' = calls w /\
    cm_cores w' = cm_cores w.
Proof. by intros (_ & m & ->)%self_core_frame. Qed.
End CoreFacts.

(** On the thread of core [k], [coremu_get_core_self] returns core [k], by the scan
    the first time and from the thread's cached pointer afterwards, and the cache
    stays right for every thread. *)
Theorem get_core_self_correct {T} (w : world T) self k c :
  self_ok w -> NoDup (thread <$> cm_cores w) -> length (cm_cores w) = Z.to_nat (cm_smp_cpus w) ->
  self <> hw_thrid (hw w) -> cm_cores w !! k = Some c -> thread c = self ->
  exists w', coremu_get_core_self w self = Ok (w', Some k) /\ self_ok w' /\
             core_self w' !! self = Some k.
Proof.
  intros Hok Hnd Hlen Hhw Hk Ht. unfold coremu_get_core_self, coremu_assert_core_thr, coremu_get_hw_id.
  rewrite (proj2 (Z.eqb_neq _ _) Hhw). simpl.
  destruct (core_self w !! self) as [i|] eqn:E.
  - destruct (Hok _ _ E) as (c' & Hi & Hc'). assert (i = k) as ->; [|by eauto].
    apply (NoDup_lookup (thread <$> cm_cores w) _ _ self); [done|..]; rewrite list_lookup_fmap, ?Hi, ?Hk; simpl; congruence.
  - rewrite <- Hlen, firstn_all. rewrite (find_core_complete _ self k c 0) by done. simpl.
    eexists. split_and!; [done| |simpl; by rewrite lookup_insert_eq].
    intros t i. simpl. destruct (decide (t = self)) as [->|].
    + rewrite lookup_insert_eq. intros. simplify_eq. eauto.
    + rewrite lookup_insert_ne by done. apply Hok.
Qed.

(** [coremu_get_thrs_per_core] is the ceiling of target over host processors: that
    many threads per host processor suffice and one fewer does not. *)
Theorem thrs_per_core_ceiling {T} (w : world T) n :
  0 < host_cpu_avail w -> 0 < cm_smp_cpus w -> coremu_get_thrs_per_core w = Ok n ->
  cm_smp_cpus w <= n * host_cpu_avail w /\ (n - 1) * host_cpu_avail w < cm_smp_cpus w /\
  (coremu_physical_core_enough_p w = true <-> n = 1).
Proof.
  intros Hh Hs H. unfold coremu_get_thrs_per_core in H.
  rewrite (proj2 (Z.eqb_neq _ _)) in H by lia. injection H as <-.
  unfold coremu_physical_core_enough_p. rewrite Z.leb_le.
  rewrite Z.quot_div_nonneg by lia.
  set (h := host_cpu_avail w) in *. set (s := cm_smp_cpus w) in *.
  pose proof (Z.div_mod (h + s - 1) h). pose proof (Z.mod_pos_bound (h + s - 1) h).
  set (q := (h + s - 1) / h) in *. set (r := (h + s - 1) mod h) in *. nia.
Qed.

Lemma sched_pause_count {T} (w : world T) self w' cnt :
  coremu_cpu_sched w self CM_EVENT_PAUSE = Ok w' -> default 0 (pause_cnt w !! self) = cnt ->
  0 <= cnt < PAUSE_THRESHOLD -> default 0 (pause_cnt w' !! self) = cnt + 1 /\ calls w' = calls w.
Proof.
  intros H Hc Hlt. simpl in H. unfold sched_pause in H. apply obind_ok in H as ([[w1 i] c] & E & H).
  apply pause_cnt_lookup in E as (Ep & Ec & _). rewrite Ep, Hc in H.
  rewrite (proj2 (Z.ltb_lt _ _)) in H by lia. simplify_eq/=. rewrite lookup_insert_eq. simpl.
  split; [|done]. apply wrap_small. unfold in_u, PAUSE_THRESHOLD in *. lia.
Qed.

Lemma pause_events_count {T} n (w : world T) self w' cnt :
  pause_events n w self = Ok w' -> default 0 (pause_cnt w !! self) = cnt ->
  0 <= cnt -> cnt + Z.of_nat n <= PAUSE_THRESHOLD ->
  default 0 (pause_cnt w' !! self) = cnt + Z.of_nat n /\ calls w' = calls w.
Proof.
  revert w cnt. induction n as [|n IH]; intros w cnt H Hc Hpos Hle.
  - simpl in H. simplify_eq. split; [lia|done].
  - cbn [pause_events] in H. apply obind_ok in H as (w1 & E & H).
    apply (sched_pause_count _ _ _ cnt) in E as [E1 E2]; [|done|lia].
    destruct (IH w1 (cnt + 1) H E1) as [E3 E4]; [lia..|]. split; [lia|congruence].
Qed.

Lemma pause_events_app {T} n m (w : world T) self :
  pause_events (n + m) w self = obind (pause_events n w self) (fun w => pause_events m w self).
Proof.
  revert w. induction n as [|n IH]; intros w; [done|]. simpl Nat.add. cbn [pause_events].
  rewrite obind_assoc. destruct (coremu_cpu_sched w self CM_EVENT_PAUSE); simpl; auto.
Qed.

(** The pause events of a thread cycle with period 103: a hundred only count, two
    yield the processor, and the next sleeps 100 us and starts over. *)
Theorem pause_cycle {T} (w : world T) self w' :
  default 0 (pause_cnt w !! self) = 0 -> pause_events 103 w self = Ok w' ->
  default 0 (pause_cnt w' !! self) = 0 /\
  calls w' = calls w ++ [SysYield; SysYield; SysNanosleep PAUSE_SLEEP_TIME].
Proof.
  intros Hc H. change 103%nat with (100 + 3)%nat in H. rewrite pause_events_app in H.
  apply obind_ok in H as (w1 & E & H).
  apply (pause_events_count _ _ _ _ 0) in E as [E1 E2]; [|done|lia|unfold PAUSE_THRESHOLD; lia].
  assert (forall (w : world T) cnt w2, coremu_cpu_sched w self CM_EVENT_PAUSE = Ok w2 ->
    default 0 (pause_cnt w !! self) = cnt -> cnt = 100 \/ cnt = 101 ->
    default 0 (pause_cnt w2 !! self) = cnt + 1 /\ calls w2 = calls w ++ [SysYield]) as Hyield.
  { clear. intros w cnt w2 H Hc Hr. simpl in H. unfold sched_pause in H.
    apply obind_ok in H as ([[w1 i] c] & E & H).
    apply pause_cnt_lookup in E as (Ep & Ec & _). rewrite Ep, Hc in H. unfold PAUSE_THRESHOLD in H.
    rewrite (proj2 (Z.ltb_ge _ _)), (proj2 (Z.leb_le _ _)) in H by lia. simplify_eq/=.
    rewrite lookup_insert_eq. simpl. split; [|congruence]. apply wrap_small. unfold in_u. lia. }
  cbn [pause_events] in H.
  apply obind_ok in H as (w2 & E & H). apply (Hyield _ _ _ E) in E1 as [E3 E4]; [|by left].
  apply obind_ok in H as (w3 & E' & H). apply (Hyield _ _ _ E') in E3 as [E5 E6]; [|by right].
  apply obind_ok in H as (w4 & E'' & H). simplify_eq. simpl in E''. unfold sched_pause in E''.
  apply obind_ok in E'' as ([[w5 i] c] & Es & H). apply pause_cnt_lookup in Es as (Ep & Ec & _).
  rewrite Ep, E5 in H. simplify_eq/=. rewrite lookup_insert_eq. split; [done|].
  rewrite Ec, E6, E4, E2. by rewrite <- !(assoc_L app).
Qed.

(** ** Witnesses: two cores on one host processor, hardware thread 1. *)

Definition demo_core (i t : Z) (q : list Z) : CMCore (list Z) :=
  mk_core i t (1000 + i) q 0 0 0 (4096 + i) CM_STATE_RUN.

Definition demo_world : world (list Z) :=
  mk_world 2 [demo_core 0 10 []; demo_core 1 11 []] (mk_hw 0 1) true 1 (-21) 19 (-1) 9 (-11) 1 ∅ ∅ [].

Lemma get_core_self_correct_witness :
  exists w', coremu_get_core_self demo_world 11 = Ok (w', Some 1%nat) /\ self_ok w' /\
             core_self w' !! 11 = Some 1%nat.
Proof.
  apply (get_core_self_correct demo_world 11 1 (demo_core 1 11 [])); try done.
  by apply (bool_decide_unpack (NoDup [10; 11])); vm_compute.
Defined.

Lemma thrs_per_core_ceiling_witness :
  2 <= 2 * 1 /\ (2 - 1) * 1 < 2 /\ (coremu_physical_core_enough_p demo_world = true <-> 2 = 1).
Proof. apply (thrs_per_core_ceiling demo_world 2); done. Defined.

Lemma pause_cycle_witness :
  exists w', pause_events 103 demo_world 10 = Ok w' /\
    default 0 (pause_cnt w' !! 10) = 0 /\
    calls w' = [SysYield; SysYield; SysNanosleep PAUSE_SLEEP_TIME].
Proof.
  destruct (pause_events 103 demo_world 10) as [w'| |] eqn:E; [|by vm_compute in E..].
  exists w'. split; [done|]. by apply (pause_cycle demo_world 10 w').
Defined.
