(* ===== verification/Intr.v ===== *)
(** * Interrupts between cores: [main/intr.c]

    Interrupts sent to a core wait in its queue; a real-time signal tells the core
    to look, and an adaptive threshold decides how many may wait before a signal is
    worth sending.  Everything here is proved against the [Queue] interface, so it
    holds for both queues COREMU can be built with. *)

From S2P Require Import Prelude Atomic CoremuUtils LockQueue QueueSpec Core.
Local Open Scope Z_scope.
Local Open Scope coremu_scope.

Definition MAX_INTR_THRESHOLD : Z := 50.
(** [COREMU_SIGNAL] is [SIGRTMIN + 3]; [SIGRTMIN] is 34 with glibc. *)
Definition COREMU_SIGNAL : Z := 34 + 3.

Section Intr.
Context {T : Type} `{Queue T}.
Implicit Types (w : world T) (c : CMCore T).

(** The two callbacks the emulator registers, [None] while it has not. *)
Record callbacks := mk_callbacks {
  event_handler : option (world T -> Z -> outcome (world T));
  event_notifier : option (world T -> outcome (world T)) }.

Definition coremu_register_event_handler (k : callbacks) fn : callbacks :=
  mk_callbacks (Some fn) (event_notifier k).
Definition coremu_register_event_notifier (k : callbacks) fn : callbacks :=
  mk_callbacks (event_handler k) (Some fn).

Definition coremu_intr_get_size c : Z := q_get_size (intr_queue c).
Definition coremu_intr_p c : bool := 0 <? coremu_intr_get_size c.

Definition coremu_put_intr w (i : nat) c (e : Z) : outcome (option (world T)) :=
  let? q := q_enqueue (intr_queue c) e in
  rret (set_core w i (with_queue c q)).

(** 0 is the null pointer. *)
Definition coremu_get_intr w (i : nat) : outcome (option (world T * Z)) :=
  let! c := of_option (cm_cores w !! i) in
  if negb (coremu_intr_p c) then rret (w, 0)
  else
    let? '(q, r) := q_dequeue (intr_queue c) in
    let w := set_core w i (with_queue c q) in
    rret (w, default 0 r).

(** [coremu_send_signal], on core object [i]. *)
Definition coremu_send_signal (root : bool) w (i : nat) : outcome (world T) :=
  let! c := of_option (cm_cores w !! i) in
  let pending_intr := coremu_intr_get_size c in
  let '(c, send_sig_p) :=
    if intr_thresh_hold c <? pending_intr then
      if sig_pending c =? 0 then (with_state (with_pending c 1) CM_STATE_RUN, true)
      else if intr_thresh_hold c <? MAX_INTR_THRESHOLD then
        (with_thresh c (s64 (Z.shiftl (intr_thresh_hold c + 1) 1)), false)
      else (c, false)
    else (c, false) in
  let w := set_core w i c in
  if coremu_physical_core_enough_p w || send_sig_p ||
     bool_decide (core_state c = CM_STATE_HALT) || bool_decide (core_state c = CM_STATE_PAUSE)
  then
    let! w := coremu_thread_setpriority root w (tid c) (high_prio w) in
    Ok (log w (SysKill (thread c) COREMU_SIGNAL))
  else Ok w.

(** [SIG_HANDLE_INTERVAL], an [int] compared as a [uint64_t]. *)
Definition SIG_HANDLE_INTERVAL w : outcome Z :=
  let! n := coremu_get_thrs_per_core w in
  Ok (u64 (s32 (2500000 * Z.quot n 8))).

Definition adjust_intr_threshold w (self : Z) (tsc : Z) : outcome (world T) :=
  let! '(w, i, c) := self_core w self in
  let! c :=
    if negb (time_stamp c =? 0) then
      let! lim := SIG_HANDLE_INTERVAL w in
      if lim <? u64 (tsc - time_stamp c) then Ok (with_thresh c 0)
      else if 0 <? intr_thresh_hold c then Ok (with_thresh c (intr_thresh_hold c - 1))
      else Ok c
    else Ok c in
  Ok (set_core w i (with_stamp c tsc)).

(** The loop of [coremu_receive_intr] on core [i], at most [fuel] rounds. *)
Fixpoint receive_loop (fn : world T -> Z -> outcome (world T)) (fuel : nat) w (i : nat)
  : outcome (option (world T)) :=
  match fuel with
  | O => Ok None
  | S fuel =>
      let? '(w, intr) := coremu_get_intr w i in
      if intr =? 0 then rret w
      else let? w := returns (fn w intr) in receive_loop fn fuel w i
  end.

Definition coremu_receive_intr (k : callbacks) (fuel : nat) w (self : Z)
  : outcome (option (world T)) :=
  let! '(w, o) := coremu_get_core_self w self in
  match event_handler k with
  | None => rret w
  | Some fn => let! i := of_option o in receive_loop fn fuel w i
  end.

(** Calling through a null [event_notifier] faults. *)
Definition coremu_send_intr (root : bool) (k : callbacks) w (self e coreid : Z)
  : outcome (option (world T)) :=
  if e =? 0 then Abort
  else
    let! core := coremu_get_core w coreid in
    if negb (coremu_init_done_p w) then rret w
    else
      let i := Z.to_nat coreid in
      let? w := coremu_put_intr w i core e in
      if negb (coremu_hw_thr_p (hw w) self) then
        let! '(w, o) := coremu_get_core_self w self in
        if bool_decide (o = Some i) then
          let! fn := of_option (event_notifier k) in returns (fn w)
        else returns (coremu_send_signal root w i)
      else returns (coremu_send_signal root w i).

Definition coremu_core_signal_handler (root : bool) (k : callbacks) w (self tsc : Z)
  : outcome (world T) :=
  let! '(w, i, _) := self_core w self in
  let! w := adjust_intr_threshold w self tsc in
  let! w := coremu_thread_setpriority root w 0 (avg_prio w) in
  let! w := match event_notifier k with Some fn => fn w | None => Ok w end in
  let! c := of_option (cm_cores w !! i) in
  Ok (set_core w i (with_pending c 0)).
End Intr.
Arguments callbacks : clear implicits.

(** ** The threshold stays in range *)

Section Threshold.
Context {T : Type} `{Queue T}.
Implicit Types (w : world T) (c : CMCore T).

Definition core_ok c : Prop :=
  0 <= intr_thresh_hold c <= 2 * MAX_INTR_THRESHOLD /\ 0 <= sig_pending c <= 1.
Definition intr_ok w : Prop := forall i c, cm_cores w !! i = Some c -> core_ok c.

(** What may happen: some thread sends, a core takes the signal, a core drains. *)
Inductive event :=
| EvSend (self e coreid : Z)
| EvSignal (self tsc : Z)
| EvReceive (fuel : nat) (self : Z).

Definition do_event (root : bool) (k : callbacks T) w (e : event) : outcome (option (world T)) :=
  match e with
  | EvSend self e coreid => coremu_send_intr root k w self e coreid
  | EvSignal self tsc => returns (coremu_core_signal_handler root k w self tsc)
  | EvReceive fuel self => coremu_receive_intr k fuel w self
  end.

Fixpoint do_events (root : bool) (k : callbacks T) w (es : list event) : outcome (option (world T)) :=
  match es with
  | [] => rret w
  | e :: es => let? w := do_event root k w e in do_events root k w es
  end.

Lemma intr_ok_set w i c : intr_ok w -> core_ok c -> intr_ok (set_core w i c).
Proof. intros Hok Hc j d. simpl. rewrite list_lookup_insert_Some. naive_solver. Qed.

Lemma intr_ok_log w e : intr_ok w -> intr_ok (log w e).
Proof. done. Qed.

Lemma setpriority_ok root w who p w' :
  intr_ok w -> coremu_thread_setpriority root w who p = Ok w' -> intr_ok w'.
Proof. unfold coremu_thread_setpriority. intros Hok. destruct root; [|done]. by intros [= <-]. Qed.

Lemma self_core_ok w self w' i c :
  intr_ok w -> self_core w self = Ok (w', i, c) -> intr_ok w' /\ core_ok c.
Proof. intros Hok (Hc & m & ->)%self_core_frame. eauto. Qed.

Lemma send_signal_ok root w i w' :
  intr_ok w -> coremu_send_signal root w i = Ok w' -> intr_ok w'.
Proof.
  intros Hok E. unfold coremu_send_signal in E. apply obind_ok in E as (c & Ec & E).
  destruct (cm_cores w !! i) as [c0|] eqn:Hl; [|done]. injection Ec as ->. specialize (Hok i c Hl) as Hc.
  destruct (if intr_thresh_hold c <? coremu_intr_get_size c then _ else _) as [c' b] eqn:Ec'.
  assert (core_ok c') as Hc'.
  { unfold core_ok, MAX_INTR_THRESHOLD in *. repeat case_match; simplify_eq/=; bool_to_prop; try lia;
    rewrite Z.shiftl_mul_pow2 in * by lia; change (2 ^ 1) with 2 in *; rewrite swrap_small in * by lia; lia. }
  pose proof (intr_ok_set w i c' Hok Hc') as Hok'.
  destruct (_ || _ || _ || _); [|by simplify_eq].
  apply obind_ok in E as (w1 & E1 & E). simplify_eq. by eapply intr_ok_log, setpriority_ok.
Qed.

Lemma adjust_ok w self tsc w' :
  intr_ok w -> adjust_intr_threshold w self tsc = Ok w' -> intr_ok w'.
Proof.
  intros Hok E. unfold adjust_intr_threshold in E. apply obind_ok in E as ([[w1 i] c] & E1 & E).
  apply self_core_ok in E1 as [Hok1 Hc]; [|done]. apply obind_ok in E as (c' & E2 & E). simplify_eq.
  apply intr_ok_set; [done|]. unfold core_ok in *. simpl.
  destruct (negb _); [|by simplify_eq]. apply obind_ok in E2 as (lim & _ & E2).
  unfold MAX_INTR_THRESHOLD in *.
  repeat case_match; simplify_eq/=; bool_to_prop; lia.
Qed.

Context (k : callbacks T).
Hypothesis handler_ok : forall fn w e w',
  event_handler k = Some fn -> intr_ok w -> fn w e = Ok w' -> intr_ok w'.
Hypothesis notifier_ok : forall fn w w',
  event_notifier k = Some fn -> intr_ok w -> fn w = Ok w' -> intr_ok w'.

Lemma signal_handler_ok root w self tsc w' :
  intr_ok w -> coremu_core_signal_handler root k w self tsc = Ok w' -> intr_ok w'.
Proof using notifier_ok.
  intros Hok E. unfold coremu_core_signal_handler in E.
  apply obind_ok in E as ([[w1 i] c] & E1 & E). apply self_core_ok in E1 as [Hok1 _]; [|done].
  apply obind_ok in E as (w2 & E2 & E). apply adjust_ok in E2; [|done].
  apply obind_ok in E as (w3 & E3 & E). apply setpriority_ok in E3; [|done].
  apply obind_ok in E as (w4 & E4 & E).
  assert (intr_ok w4) as Hok4 by (destruct (event_notifier k) eqn:En; simplify_eq; eauto).
  destruct (cm_cores w4 !! i) as [c4|] eqn:Hl; simplify_eq/=.
  apply intr_ok_set; [done|]. apply Hok4 in Hl. unfold core_ok in *. simpl. lia.
Qed.

Lemma receive_loop_ok fn fuel w i w' :
  event_handler k = Some fn -> intr_ok w -> receive_loop fn fuel w i = Ok (Some w') -> intr_ok w'.
Proof using handler_ok.
  intros Hfn. revert w. induction fuel as [|fuel IH]; intros w Hok E; [done|]. cbn [receive_loop] in E.
  apply rbind_some in E as ([w1 x] & E1 & E).
  assert (intr_ok w1) as Hok1.
  { unfold coremu_get_intr in E1. destruct (cm_cores w !! i) as [c|] eqn:Hl; [|done]. simpl in E1.
    destruct (negb _); [by simplify_eq|]. apply rbind_some in E1 as ([q r] & _ & E1). simplify_eq.
    apply intr_ok_set; [done|]. by apply Hok in Hl. }
  destruct (x =? 0); [by simplify_eq|].
  apply rbind_some in E as (w2 & E2%returns_some & E). eauto.
Qed.

Lemma do_event_ok root w e w' :
  intr_ok w -> do_event root k w e = Ok (Some w') -> intr_ok w'.
Proof using handler_ok notifier_ok.
  intros Hok E. destruct e as [self e coreid|self tsc|fuel self]; simpl in E.
  - unfold coremu_send_intr in E. destruct (e =? 0); [done|].
    apply obind_ok in E as (c & Ec & E). destruct (negb (coremu_init_done_p w)); [by simplify_eq|].
    apply rbind_some in E as (w1 & E1 & E). unfold coremu_put_intr in E1.
    apply rbind_some in E1 as (q & _ & E1). injection E1 as <-.
    unfold coremu_get_core in Ec. destruct (0 <=? coreid); [|done].
    destruct (cm_cores w !! _) eqn:Hl; simplify_eq/=.
    assert (intr_ok (set_core w (Z.to_nat coreid) (with_queue c q))) as Hok1
      by (apply intr_ok_set; [done|]; by apply Hok in Hl).
    destruct (negb _); [|apply returns_some in E; by apply (send_signal_ok _ _ _ _) in E].
    apply obind_ok in E as ([w2 o] & E2 & E). apply get_core_self_frame in E2 as [m ->].
    case_bool_decide; [|apply returns_some in E; by apply (send_signal_ok _ _ _ _) in E].
    destruct (event_notifier k) as [fn|] eqn:En in E; [|done]. apply returns_some in E.
    by apply (notifier_ok fn) in E.
  - apply returns_some in E; exact (signal_handler_ok _ _ _ _ _ Hok E).
  - unfold coremu_receive_intr in E. apply obind_ok in E as ([w1 o] & E1 & E).
    apply get_core_self_frame in E1 as [m ->].
    destruct (event_handler k) as [fn|] eqn:Ef in E; [|by simplify_eq].
    destruct o as [i|]; [|done]. by apply (receive_loop_ok fn fuel _ i w' Ef) in E.
Qed.

Lemma do_events_ok root es w w' :
  intr_ok w -> do_events root k w es = Ok (Some w') -> intr_ok w'.
Proof using handler_ok notifier_ok.
  revert w. induction es as [|e es IH]; intros w Hok E; simpl in E; [by simplify_eq|].
  apply rbind_some in E as (w1 & E1 & E). eauto using do_event_ok.
Qed.
End Threshold.

(** Whatever is sent, taken and drained, in any order and by any threads, the
    threshold of every core stays between 0 and 100 and its pending flag 0 or 1,
    when the callbacks of the emulator leave those two fields in range. *)
Theorem intr_threshold_bounded {T} `{Queue T} (k : callbacks T) root es (w w' : world T) :
  (forall fn w e w', event_handler k = Some fn -> intr_ok w -> fn w e = Ok w' -> intr_ok w') ->
  (forall fn w w', event_notifier k = Some fn -> intr_ok w -> fn w = Ok w' -> intr_ok w') ->
  intr_ok w -> do_events root k w es = Ok (Some w') -> intr_ok w'.
Proof. intros Hh Hn. by apply do_events_ok. Qed.

(** ** Delivery *)

Section Delivery.
Context {T : Type} `{QueueLaws T}.
Implicit Types (w : world T) (c : CMCore T).

(** Core [i] runs on thread [t] and its queue holds [vs]. *)
Definition holds w (i : nat) (t : Z) (vs : list Z) : Prop :=
  exists c, cm_cores w !! i = Some c /\ thread c = t /\ q_repr (intr_queue c) vs.

(** The interrupts given to the handler so far. *)
Definition handled w : list Z :=
  omap (fun s => if s is SysHandle e then Some e else None) (calls w).

(** What sending leaves alone. *)
Definition frame w w' : Prop :=
  init_done w' = init_done w /\ hw w' = hw w /\ cm_smp_cpus w' = cm_smp_cpus w /\
  host_cpu_avail w' = host_cpu_avail w /\
  handled w' = handled w /\ thread <$> cm_cores w' = thread <$> cm_cores w.

Lemma frame_trans w1 w2 w3 : frame w1 w2 -> frame w2 w3 -> frame w1 w3.
Proof. unfold frame. intuition congruence. Qed.

Lemma frame_set_core w i c c' :
  cm_cores w !! i = Some c -> thread c' = thread c -> frame w (set_core w i c').
Proof.
  intros Hl Ht. repeat split. simpl. rewrite list_fmap_insert, Ht.
  apply list_insert_id. by rewrite list_lookup_fmap, Hl.
Qed.

Lemma get_core_self_total w self :
  coremu_hw_thr_p (hw w) self = false -> exists w' o, coremu_get_core_self w self = Ok (w', o).
Proof.
  unfold coremu_get_core_self, coremu_assert_core_thr, coremu_hw_thr_p, coremu_get_hw_id.
  intros ->. simpl. repeat case_match; eauto.
Qed.

Lemma get_core_self_ok w self w' o :
  self_ok w -> coremu_get_core_self w self = Ok (w', o) ->
  self_ok w' /\ (forall j, core_self w !! self = Some j -> o = Some j) /\
  (forall t, t <> self -> core_self w' !! t = core_self w !! t) /\
  (forall j, o = Some j -> exists c, cm_cores w !! j = Some c /\ thread c = self).
Proof.
  intros Hok E. unfold coremu_get_core_self in E. apply obind_ok in E as (_ & _ & E).
  destruct (core_self w !! self) as [i|] eqn:Ec.
  { simplify_eq. naive_solver. }
  destruct (find_core _ _ _) as [j|] eqn:Ef; simplify_eq; [|naive_solver].
  apply find_core_spec in Ef as (k & c & -> & Hl & Ht). simpl.
  apply lookup_take_Some in Hl as [Hl _].
  split_and!; [|done| |naive_solver].
  - intros t i. simpl. destruct (decide (t = self)) as [->|].
    + rewrite lookup_insert_eq. naive_solver.
    + rewrite lookup_insert_ne by done. apply Hok.
  - intros t Hne. by rewrite lookup_insert_ne.
Qed.

Lemma self_ok_frame w w' :
  self_ok w -> core_self w' = core_self w -> thread <$> cm_cores w' = thread <$> cm_cores w -> self_ok w'.
Proof.
  intros Hok Hs Ht t i. rewrite Hs. intros (c & Hl & Hc)%Hok.
  assert ((thread <$> cm_cores w') !! i = Some t) as Hl' by (by rewrite Ht, list_lookup_fmap, Hl, <- Hc).
  rewrite list_lookup_fmap in Hl'. destruct (cm_cores w' !! i); simplify_eq/=. eauto.
Qed.

(** The condition under which [coremu_send_signal] signals a core with [n]
    interrupts waiting. *)
Definition signals w c (n : Z) : bool :=
  coremu_physical_core_enough_p w || negb (bool_decide (core_state c = CM_STATE_RUN)) ||
  ((sig_pending c =? 0) && (intr_thresh_hold c <? n)).

Lemma send_signal_spec w i c n :
  cm_cores w !! i = Some c -> coremu_intr_get_size c = n ->
  exists c', thread c' = thread c /\ intr_queue c' = intr_queue c /\
  coremu_send_signal true w i =
    Ok (if signals w c n then
          log (log (set_core w i c') (SysPrio (tid c) (high_prio w))) (SysKill (thread c) COREMU_SIGNAL)
        else set_core w i c').
Proof.
  intros Hl Hn. unfold coremu_send_signal, signals, coremu_physical_core_enough_p. rewrite Hl. simpl.
  rewrite Hn. destruct c as [ser th td q st thr sp op cs]; simpl in *.
  destruct (thr <? n), (sp =? 0), (thr <? MAX_INTR_THRESHOLD), (_ <=? _), cs; simpl;
    eexists; (split; [|split; [|reflexivity]]); reflexivity.
Qed.

(** What sending [e] to core [i] does, when another thread does it. *)
Definition sent w (i : nat) c (vs : list Z) (e : Z) w' : Prop :=
  frame w w' /\ self_ok w' /\ holds w' i (thread c) (vs ++ [e]) /\
  (forall t, core_self w !! t = Some i -> core_self w' !! t = Some i) /\
  calls w' = calls w ++
    (if signals w c (Z.of_nat (S (length vs))) then
       [SysPrio (tid c) (high_prio w); SysKill (thread c) COREMU_SIGNAL] else []).

Lemma send_signal_queued w i c q m vs e :
  let w1 := set_core_self (set_core w i (with_queue c q)) m in
  cm_cores w !! i = Some c -> self_ok w1 -> q_repr q (vs ++ [e]) ->
  Z.of_nat (S (length vs)) < 2 ^ 63 ->
  (forall t, core_self w !! t = Some i -> m !! t = Some i) ->
  exists w', coremu_send_signal true w1 i = Ok w' /\ sent w i c vs e w'.
Proof.
  intros w1 Hl Hok Hr Hlen Hcache.
  assert (i < length (cm_cores w))%nat as Hi by (by eapply lookup_lt_Some).
  assert (cm_cores w1 !! i = Some (with_queue c q)) as Hl1 by (by apply list_lookup_insert_eq).
  assert (frame w w1) as Hf1 by (by apply (frame_set_core w i c (with_queue c q))).
  destruct (send_signal_spec w1 i (with_queue c q) (Z.of_nat (S (length vs))) Hl1) as (c' & Ht' & Hq' & ->).
  { unfold coremu_intr_get_size. simpl. rewrite (q_size_law _ _ Hr); rewrite length_app; simpl; lia. }
  assert (frame w1 (set_core w1 i c')) as Hf2 by (by eapply frame_set_core).
  assert (self_ok (set_core w1 i c')) as Hok2 by (by eapply self_ok_frame; [..|apply Hf2]).
  assert (holds (set_core w1 i c') i (thread c) (vs ++ [e])) as Hh.
  { exists c'. split_and!; [|done|by rewrite Hq'].
    apply list_lookup_insert_eq. by eapply lookup_lt_Some. }
  eexists. split; [reflexivity|]. unfold sent.
  change (signals w1 (with_queue c q)) with (signals w c).
  pose proof (frame_trans _ _ _ Hf1 Hf2) as (F1 & F2 & F3 & F4 & F5 & F6).
  destruct (signals w c _); split_and!; try done.
  - unfold frame, handled in *. simpl in *. rewrite !omap_app. simpl. by rewrite !app_nil_r.
  - simpl. by rewrite <- (assoc_L app).
  - by rewrite app_nil_r.
Qed.

Lemma send_intr_spec k w self e i c vs :
  cm_cores w !! i = Some c -> q_repr (intr_queue c) vs -> (forall q : T, q_room q) ->
  self_ok w -> init_done w = true -> e <> 0 -> self <> thread c ->
  Z.of_nat (S (length vs)) < 2 ^ 63 ->
  exists w', coremu_send_intr true k w self e (Z.of_nat i) = Ok (Some w') /\ sent w i c vs e w'.
Proof.
  intros Hl Hr Hroom Hok Hdone He Hself Hlen.
  unfold coremu_send_intr. rewrite (proj2 (Z.eqb_neq _ _) He).
  unfold coremu_get_core. rewrite (proj2 (Z.leb_le _ _)), Nat2Z.id, Hl by lia. simpl.
  unfold coremu_init_done_p. rewrite Hdone. simpl.
  destruct (q_enqueue_law _ _ e Hr (Hroom _)) as (q & Eq & Hr'). unfold coremu_put_intr.
  rewrite Eq. simpl. set (w1 := set_core w i (with_queue c q)).
  assert (i < length (cm_cores w))%nat as Hi by (by eapply lookup_lt_Some).
  assert (self_ok w1) as Hok1.
  { apply (self_ok_frame w); [done..|]. by apply (frame_set_core w i c (with_queue c q)). }
  destruct (coremu_hw_thr_p _ _) eqn:Ehw; simpl.
  { destruct (send_signal_queued w i c q (core_self w) vs e) as (w' & E & Hs); [done..|].
    exists w'. change (set_core_self _ _) with w1 in E. by rewrite E. }
  destruct (get_core_self_total w1 self Ehw) as (w2 & o & Eg). rewrite Eg.
  pose proof (get_core_self_ok _ _ _ _ Hok1 Eg) as (Hok2 & _ & Hother & Hthread).
  apply get_core_self_frame in Eg as [m ->]. simpl.
  rewrite bool_decide_false.
  2: { intros Ho. destruct (Hthread i Ho) as (d & Hd & Hdt). simpl in Hd.
       rewrite list_lookup_insert_eq in Hd by done. by simplify_eq/=. }
  destruct (send_signal_queued w i c q m vs e) as (w' & E & Hs); [done..| |exists w'; fold w1 in E; by rewrite E].
  intros t Ht. destruct (decide (t = self)) as [->|]; [|by rewrite <- Ht; apply Hother].
  exfalso. apply Hok in Ht as (d & Hd & Hdt). congruence.
Qed.

(** A handler that records its call and leaves the cores alone. *)
Definition recording (fn : world T -> Z -> outcome (world T)) : Prop :=
  forall w e, exists w', fn w e = Ok w' /\ cm_cores w' = cm_cores w /\ handled w' = handled w ++ [e].

Lemma receive_loop_drains fn vs w i t :
  recording fn -> holds w i t vs -> Forall (fun v => v <> 0) vs ->
  Z.of_nat (length vs) < 2 ^ 63 ->
  exists w', receive_loop fn (S (length vs)) w i = Ok (Some w') /\ holds w' i t [] /\
             handled w' = handled w ++ vs.
Proof.
  intros Hfn. revert w. induction vs as [|v vs IH]; intros w (c & Hl & Ht & Hr) Hnz Hlen;
    cbn [receive_loop length]; unfold coremu_get_intr; rewrite Hl; simpl of_option; cbn [obind];
    unfold coremu_intr_p, coremu_intr_get_size; rewrite (q_size_law _ _ Hr) by done.
  { simpl. exists w. split_and!; [done|by exists c|by rewrite app_nil_r]. }
  rewrite (proj2 (Z.ltb_lt _ _)) by (simpl; lia). simpl negb. cbn iota.
  destruct (q_dequeue_law _ _ Hr) as (q & -> & Hr'). simpl rbind at 2. cbn [rbind obind].
  apply Forall_cons in Hnz as [Hv Hnz]. simpl default. rewrite (proj2 (Z.eqb_neq _ _) Hv).
  destruct (Hfn (set_core w i (with_queue c q)) v) as (w1 & -> & Hc1 & Hh1). cbn [returns obind rbind].
  destruct (IH w1) as (w2 & E & Hh2 & Hd2); [|done|simpl in Hlen; lia|].
  { exists (with_queue c q). rewrite Hc1. split_and!; [|done|done].
    simpl. apply list_lookup_insert_eq. by eapply lookup_lt_Some. }
  exists w2. split_and!; [exact E|done|]. rewrite Hd2, Hh1. by rewrite <- (assoc_L app).
Qed.

Lemma sends_queue k es w i t vs :
  self_ok w -> init_done w = true -> holds w i t vs -> (forall q : T, q_room q) ->
  Forall (fun '(s, e) => s <> t /\ e <> 0) es -> Z.of_nat (length vs + length es) < 2 ^ 63 ->
  exists w', do_events true k w ((fun '(s, e) => EvSend s e (Z.of_nat i)) <$> es) = Ok (Some w') /\
    holds w' i t (vs ++ es.*2) /\ handled w' = handled w /\ hw w' = hw w /\
    (core_self w !! t = Some i -> core_self w' !! t = Some i).
Proof.
  intros Hok Hdone Hh Hroom. revert w vs Hok Hdone Hh.
  induction es as [|[s e] es IH]; intros w vs Hok Hdone Hh Hes Hlen.
  { exists w. simpl. rewrite app_nil_r. by split_and!. }
  apply Forall_cons in Hes as [[Hs He] Hes]. destruct Hh as (c & Hl & <- & Hr).
  destruct (send_intr_spec k w s e i c vs) as (w1 & E1 & Hf & Hok1 & Hh1 & Hc1 & _);
    [done..|simpl in Hlen; lia|].
  destruct Hf as (F1 & F2 & _ & _ & F5 & _).
  destruct (IH w1 (vs ++ [e])) as (w2 & E2 & Hh2 & Hd2 & Hw2 & Hc2);
    [done|congruence|done|done|rewrite length_app; simpl in *; lia|].
  exists w2. simpl do_events. rewrite E1. cbn [rbind obind]. split; [exact E2|].
  rewrite <- (assoc_L app) in Hh2. split_and!; [done|congruence..|auto].
Qed.
End Delivery.

(** C16.  Interrupts are delivered once each and in order: when other threads send any
    interrupts to a core whose queue is empty, every [coremu_send_intr] returns, and
    the core's next [coremu_receive_intr] returns after giving its handler exactly
    those interrupts, in the order sent, and leaves the queue empty. *)
Theorem intr_delivery {T} `{QueueLaws T} (k : callbacks T) fn es (w : world T) i t :
  event_handler k = Some fn -> recording fn -> (forall q : T, q_room q) ->
  self_ok w -> init_done w = true -> holds w i t [] ->
  core_self w !! t = Some i -> t <> hw_thrid (hw w) ->
  Forall (fun '(s, e) => s <> t /\ e <> 0) es -> Z.of_nat (length es) < 2 ^ 63 ->
  exists w1 w2,
    do_events true k w ((fun '(s, e) => EvSend s e (Z.of_nat i)) <$> es) = Ok (Some w1) /\
    coremu_receive_intr k (S (length es)) w1 t = Ok (Some w2) /\
    handled w2 = handled w ++ es.*2 /\ holds w2 i t [].
Proof.
  intros Hk Hfn Hroom Hok Hdone Hh Hself Hhw Hes Hlen.
  destruct (sends_queue k es w i t []) as (w1 & E1 & Hh1 & Hd1 & Hw1 & Hs1); [done..|].
  destruct (receive_loop_drains fn es.*2 w1 i t) as (w2 & E2 & Hh2 & Hd2);
    [done|done| |by rewrite length_fmap|].
  { apply Forall_fmap. eapply Forall_impl; [exact Hes|]. by intros [s e] [_ ?]. }
  rewrite length_fmap in E2. exists w1, w2. split_and!; [done| |congruence|done].
  unfold coremu_receive_intr, coremu_get_core_self, coremu_assert_core_thr, coremu_get_hw_id.
  rewrite Hw1, (proj2 (Z.eqb_neq _ _) Hhw). simpl. by rewrite Hs1, Hk.
Qed.

(** When another thread sends an interrupt to core [c] with [n - 1] waiting, the core
    is signalled exactly when the host has a processor per core, or the core is
    halted or paused, or no signal is outstanding and [n] exceeds its threshold; the
    interrupt is queued in every case. *)
Theorem send_intr_signals {T} `{QueueLaws T} (k : callbacks T) (w : world T) self e i c vs :
  cm_cores w !! i = Some c -> q_repr (intr_queue c) vs -> (forall q : T, q_room q) ->
  self_ok w -> init_done w = true -> e <> 0 -> self <> thread c ->
  Z.of_nat (S (length vs)) < 2 ^ 63 ->
  exists w', coremu_send_intr true k w self e (Z.of_nat i) = Ok (Some w') /\
    holds w' i (thread c) (vs ++ [e]) /\
    ((SysKill (thread c) COREMU_SIGNAL) ∈ drop (length (calls w)) (calls w') <->
      cm_smp_cpus w <= host_cpu_avail w \/ core_state c <> CM_STATE_RUN \/
      (sig_pending c = 0 /\ intr_thresh_hold c < Z.of_nat (S (length vs)))).
Proof.
  intros Hl Hr Hroom Hok Hdone He Hself Hlen.
  destruct (send_intr_spec k w self e i c vs) as (w' & E & _ & _ & Hh & _ & Hc); [done..|].
  exists w'. split_and!; [done..|]. rewrite Hc, drop_app_length.
  transitivity (signals w c (Z.of_nat (S (length vs))) = true).
  { destruct (signals _ _ _); split; try done; intros; set_solver. }
  unfold signals, coremu_physical_core_enough_p.
  rewrite !orb_true_iff, andb_true_iff, negb_true_iff, bool_decide_eq_false, Z.leb_le, Z.eqb_eq, Z.ltb_lt.
  tauto.
Qed.

(** ** Witnesses: two cores on one host processor with spinlock queues *)

#[local] Instance demo_queue : Queue lockq := lock_queue bump_malloc.
#[local] Instance demo_queue_laws : QueueLaws lockq := lock_queue_laws bump_malloc bump_malloc_ok.

Definition intr_demo_core (i t : Z) : CMCore lockq :=
  mk_core i t (1000 + i) repr_empty_demo 0 0 0 (4096 + i) CM_STATE_RUN.

Definition intr_demo_world : world lockq :=
  mk_world 2 [intr_demo_core 0 10; intr_demo_core 1 11] (mk_hw 0 1) true 1 (-21) 19 (-1) 9 (-11) 1
    {[11 := 1%nat]} ∅ [].

Definition intr_demo_callbacks : callbacks lockq :=
  mk_callbacks (Some (fun w e => Ok (log w (SysHandle e)))) (Some (fun w => Ok (log w SysNotify))).

Lemma intr_demo_self_ok : self_ok intr_demo_world.
Proof.
  intros t i. simpl. destruct (decide (t = 11)) as [->|].
  - rewrite lookup_singleton_eq. intros [= <-]. by eexists.
  - by rewrite lookup_singleton_ne.
Qed.

Lemma intr_demo_repr : q_repr repr_empty_demo [].
Proof. apply repr_empty_demo_ok. Qed.

Lemma demo_room (q : lockq) : q_room q.
Proof. destruct q. apply bump_malloc_nonzero. Qed.

Lemma intr_threshold_bounded_witness :
  exists w', do_events true intr_demo_callbacks intr_demo_world
      [EvSend 1 7 0; EvSend 11 8 0; EvSignal 10 5; EvReceive 3 10] = Ok (Some w') /\ intr_ok w'.
Proof.
  destruct (do_events true intr_demo_callbacks intr_demo_world _) as [[w'|]| |] eqn:E;
    [|by vm_compute in E..].
  exists w'. split; [done|].
  eapply (intr_threshold_bounded intr_demo_callbacks true _ intr_demo_world w'); [..|exact E].
  - intros fn w e w1 [= <-] Hok [= <-]. exact Hok.
  - intros fn w w1 [= <-] Hok [= <-]. exact Hok.
  - intros [|[|i]] c; simpl; intros; simplify_eq; unfold core_ok, MAX_INTR_THRESHOLD; simpl; lia.
Defined.

Lemma intr_delivery_witness :
  exists w1 w2,
    do_events true intr_demo_callbacks intr_demo_world [EvSend 1 7 1; EvSend 10 8 1] = Ok (Some w1) /\
    coremu_receive_intr intr_demo_callbacks 3 w1 11 = Ok (Some w2) /\
    handled w2 = [7; 8] /\ holds w2 1 11 [].
Proof.
  apply (intr_delivery intr_demo_callbacks (fun w e => Ok (log w (SysHandle e))) [(1, 7); (10, 8)]
           intr_demo_world 1 11); try done.
  - intros w e. eexists. split_and!; [done..|]. unfold handled. simpl. by rewrite omap_app.
  - apply demo_room.
  - apply intr_demo_self_ok.
  - exists (intr_demo_core 1 11). split_and!; [done..|apply intr_demo_repr].
  - by repeat constructor.
Defined.

Lemma send_intr_signals_witness :
  exists w', coremu_send_intr true intr_demo_callbacks intr_demo_world 10 9 1 = Ok (Some w') /\
    holds w' 1 11 [9] /\
    ((SysKill 11 COREMU_SIGNAL) ∈ drop 0 (calls w') <->
      2 <= 1 \/ CM_STATE_RUN <> CM_STATE_RUN \/ (0 = 0 /\ 0 < 1)).
Proof.
  apply (send_intr_signals intr_demo_callbacks intr_demo_world 10 9 1 (intr_demo_core 1 11) []); try done.
  - apply intr_demo_repr.
  - apply demo_room.
  - apply intr_demo_self_ok.
Defined.
