(* ===== verification/Pause.v ===== *)
(** * The pause protocol of [main/core.c]

    Cores park themselves in [coremu_pause_core]; a controller waits in
    [coremu_wait_all_cores_pause] until it has seen every core paused and releases
    them with [coremu_restart_all_cores].  Every access to the mutex, the condition
    variable and the [state] field is one step of an interleaving.  The two other
    writers of [state] are part of the model: [sched_pause] of [main/sched.c] stores
    [CM_STATE_PAUSE] around a nap, and [coremu_send_signal] of [main/intr.c] stores
    [CM_STATE_RUN] into another core, both without the mutex. *)

From S2P Require Import Prelude Atomic CoremuUtils QueueSpec Core.
Local Open Scope Z_scope.
Local Open Scope coremu_scope.

(** Where a core is.  [CBlocked] is inside [pthread_cond_wait], [CWoken] woken there
    and waiting for the mutex, [CNap] in the [nanosleep] of [sched_pause]. *)
Inductive cpc := CIdle | CLock | CCheck | CStore | CWait | CBlocked | CWoken | CRun | CUnlock | CNap.

(** Where the controller is: [KLock i], [KTest i], [KRetry i] and [KUnlock i] in
    [coremu_wait_pause(&cm_cores[i])], [KPaused] after [coremu_wait_all_cores_pause]
    returned. *)
Inductive kpc := KIdle | KLock (i : nat) | KTest (i : nat) | KRetry (i : nat) | KUnlock (i : nat) | KPaused.

Inductive owner := Core (i : nat) | Ctl.

#[global] Instance cpc_eq_dec : EqDecision cpc.
Proof. solve_decision. Defined.
#[global] Instance owner_eq_dec : EqDecision owner.
Proof. solve_decision. Defined.

Record pstate := mk_pstate {
  pause_mutex : option owner;
  pcores : list (cpc * CMCoreState);
  kctl : kpc }.

(** [coremu_mutex_lock] blocks while the mutex is held; [coremu_mutex_unlock] asserts
    that the caller holds it. *)
Definition coremu_mutex_lock (m : option owner) (me : owner) : option (option owner) :=
  match m with None => Some (Some me) | Some _ => None end.
Definition coremu_mutex_unlock (m : option owner) (me : owner) : outcome (option owner) :=
  if bool_decide (m = Some me) then Ok None else Abort.

Definition set_pcore (s : pstate) (i : nat) (m : option owner) (c : cpc * CMCoreState) : pstate :=
  mk_pstate m (<[i := c]> (pcores s)) (kctl s).
Definition set_kctl (s : pstate) (m : option owner) (k : kpc) : pstate :=
  mk_pstate m (pcores s) k.

(** One step of core [i] in [coremu_pause_core]; [None] when it is blocked. *)
Definition coremu_pause_core_step (s : pstate) (i : nat) : outcome (option pstate) :=
  let! '(pc, st) := of_option (pcores s !! i) in
  let m := pause_mutex s in
  let go pc st := Ok (Some (set_pcore s i m (pc, st))) in
  let lock next := match coremu_mutex_lock m (Core i) with
                   | Some m => Ok (Some (set_pcore s i m (next, st)))
                   | None => Ok None
                   end in
  let unlock next := let! m := coremu_mutex_unlock m (Core i) in
                     Ok (Some (set_pcore s i m (next, st))) in
  match pc with
  | CIdle => go CLock st
  | CLock => lock CCheck
  | CCheck => if bool_decide (st = CM_STATE_RUN) then go CStore st else go CUnlock st
  | CStore => go CWait CM_STATE_PAUSE
  | CWait => unlock CBlocked
  | CBlocked => Ok None
  | CWoken => lock CRun
  | CRun => go CUnlock CM_STATE_RUN
  | CUnlock => unlock CIdle
  | CNap => Ok None
  end.

(** The two stores of [sched_pause], before and after its [nanosleep]. *)
Definition sched_pause_step (s : pstate) (i : nat) : outcome (option pstate) :=
  let! '(pc, _) := of_option (pcores s !! i) in
  match pc with
  | CIdle => Ok (Some (set_pcore s i (pause_mutex s) (CNap, CM_STATE_PAUSE)))
  | CNap => Ok (Some (set_pcore s i (pause_mutex s) (CIdle, CM_STATE_RUN)))
  | _ => Ok None
  end.

(** The store [core->state = CM_STATE_RUN] of [coremu_send_signal], by some other
    thread. *)
Definition send_signal_store (s : pstate) (i : nat) : outcome (option pstate) :=
  let! '(pc, _) := of_option (pcores s !! i) in
  Ok (Some (set_pcore s i (pause_mutex s) (pc, CM_STATE_RUN))).

(** A wakeup nobody asked for, which POSIX allows. *)
Definition spurious_wakeup (s : pstate) (i : nat) : outcome (option pstate) :=
  let! '(pc, st) := of_option (pcores s !! i) in
  match pc with
  | CBlocked => Ok (Some (set_pcore s i (pause_mutex s) (CWoken, st)))
  | _ => Ok None
  end.

(** [coremu_restart_all_cores]: everyone blocked is woken. *)
Definition coremu_restart_all_cores (s : pstate) : pstate :=
  mk_pstate (pause_mutex s)
    ((fun '(pc, st) => (if bool_decide (pc = CBlocked) then CWoken else pc, st)) <$> pcores s) KIdle.

(** One step of the controller: [coremu_wait_all_cores_pause] calls
    [coremu_wait_pause] on each core in turn. *)
Definition controller_step (s : pstate) : outcome (option pstate) :=
  let m := pause_mutex s in
  match kctl s with
  | KIdle => Ok (Some (set_kctl s m (KLock 0)))
  | KLock i =>
      if bool_decide (i < length (pcores s))%nat then
        match coremu_mutex_lock m Ctl with
        | Some m => Ok (Some (set_kctl s m (KTest i)))
        | None => Ok None
        end
      else Ok (Some (set_kctl s m KPaused))
  | KTest i =>
      let! '(_, st) := of_option (pcores s !! i) in
      Ok (Some (set_kctl s m (if bool_decide (st = CM_STATE_PAUSE) then KUnlock i else KRetry i)))
  | KRetry i =>
      let! m := coremu_mutex_unlock m Ctl in Ok (Some (set_kctl s m (KLock i)))
  | KUnlock i =>
      let! m := coremu_mutex_unlock m Ctl in Ok (Some (set_kctl s m (KLock (S i))))
  | KPaused => Ok (Some (coremu_restart_all_cores s))
  end.

Inductive label := LCore (i : nat) | LNap (i : nat) | LSignal (i : nat) | LSpurious (i : nat) | LCtl.

Definition pstep (s : pstate) (l : label) : outcome (option pstate) :=
  match l with
  | LCore i => coremu_pause_core_step s i
  | LNap i => sched_pause_step s i
  | LSignal i => send_signal_store s i
  | LSpurious i => spurious_wakeup s i
  | LCtl => controller_step s
  end.

Definition pinit (n : nat) : pstate := mk_pstate None (replicate n (CIdle, CM_STATE_RUN)) KIdle.

(** A schedule; a label that is not enabled is skipped. *)
Fixpoint pruns (s : pstate) (ls : list label) : outcome pstate :=
  match ls with
  | [] => Ok s
  | l :: ls => let! r := pstep s l in pruns (default s r) ls
  end.

(** States reached by steps whose source and label satisfy [allowed]. *)
Inductive preach (allowed : pstate -> label -> Prop) (n : nat) : pstate -> Prop :=
| preach_init : preach allowed n (pinit n)
| preach_step s l s' : preach allowed n s -> allowed s l -> pstep s l = Ok (Some s') -> preach allowed n s'.

(** ** Mutual exclusion *)

Definition core_holds (pc : cpc) : bool :=
  match pc with CCheck | CStore | CWait | CRun | CUnlock => true | _ => false end.
Definition ctl_holds (k : kpc) : bool :=
  match k with KTest _ | KRetry _ | KUnlock _ => true | _ => false end.

(** The mutex is held exactly by the thread that is in a critical section, and the
    controller looks at cores that exist. *)
Definition mutex_inv (s : pstate) : Prop :=
  (forall i pc st, pcores s !! i = Some (pc, st) ->
     core_holds pc = bool_decide (pause_mutex s = Some (Core i))) /\
  ctl_holds (kctl s) = bool_decide (pause_mutex s = Some Ctl) /\
  (forall i, kctl s = KTest i \/ kctl s = KRetry i \/ kctl s = KUnlock i -> (i < length (pcores s))%nat) /\
  (forall i, pause_mutex s = Some (Core i) -> (i < length (pcores s))%nat).

Lemma mutex_inv_core s i pc st pc' st' m' :
  mutex_inv s -> pcores s !! i = Some (pc, st) ->
  core_holds pc' = bool_decide (m' = Some (Core i)) ->
  (m' = pause_mutex s \/ (pause_mutex s = None /\ m' = Some (Core i)) \/
   (pause_mutex s = Some (Core i) /\ m' = None)) ->
  mutex_inv (set_pcore s i m' (pc', st')).
Proof.
  intros (Hc & Hk & Hi & Hm) Hl Hh Hm'.
  assert (i < length (pcores s))%nat as Hlt by (by eapply lookup_lt_Some).
  split_and!; simpl; rewrite ?length_insert; auto.
  - intros j pcj stj. rewrite list_lookup_insert_Some. intros [(<- & [= <- <-] & _)|[Hne Hj]]; [done|].
    rewrite (Hc _ _ _ Hj). destruct Hm' as [->|[[-> ->]|[-> ->]]]; [done|..];
      repeat case_bool_decide; congruence.
  - rewrite Hk. destruct Hm' as [->|[[-> ->]|[-> ->]]]; done.
  - intros j Hj. destruct Hm' as [->|[[E ->]|[E ->]]]; [auto|congruence|done].
Qed.

Lemma mutex_inv_ctl s k' m' :
  mutex_inv s -> ctl_holds k' = bool_decide (m' = Some Ctl) ->
  (m' = pause_mutex s \/ (pause_mutex s = None /\ m' = Some Ctl) \/
   (pause_mutex s = Some Ctl /\ m' = None)) ->
  (forall i, k' = KTest i \/ k' = KRetry i \/ k' = KUnlock i -> (i < length (pcores s))%nat) ->
  mutex_inv (set_kctl s m' k').
Proof.
  intros (Hc & Hk & Hi & Hm) Hh Hm' Hb. split_and!; simpl; auto.
  - intros j pcj stj Hj. rewrite (Hc _ _ _ Hj).
    destruct Hm' as [->|[[-> ->]|[-> ->]]]; [done|..]; repeat case_bool_decide; congruence.
  - intros j Hj. destruct Hm' as [->|[[E ->]|[E ->]]]; [auto|congruence|done].
Qed.

Lemma mutex_inv_init n : mutex_inv (pinit n).
Proof.
  split_and!; simpl; try done.
  - intros i pc st [? _]%lookup_replicate. by simplify_eq.
  - intros i. naive_solver.
Qed.

(** Steps of a core, the napping, signalled and spuriously woken ones included. *)
Lemma mutex_inv_core_step s i l s' :
  l = LCore i \/ l = LNap i \/ l = LSignal i \/ l = LSpurious i ->
  mutex_inv s -> pstep s l = Ok (Some s') -> mutex_inv s'.
Proof.
  intros Hl Hinv E. pose proof Hinv as (Hc & _ & _ & _).
  destruct (pcores s !! i) as [[pc st]|] eqn:Hp.
  2: { destruct Hl as [->|[->|[->| ->]]]; simpl in E;
       unfold coremu_pause_core_step, sched_pause_step, send_signal_store, spurious_wakeup in E;
       by rewrite Hp in E. }
  specialize (Hc _ _ _ Hp) as Hh.
  destruct Hl as [->|[->|[->| ->]]]; simpl in E;
    unfold coremu_pause_core_step, sched_pause_step, send_signal_store, spurious_wakeup,
      coremu_mutex_lock, coremu_mutex_unlock in E;
    rewrite Hp in E; simpl in E;
    destruct pc; simpl in E, Hh; try done; repeat case_match; simpl in E; simplify_eq;
    (eapply mutex_inv_core; [done|done|..]; simpl;
       [repeat case_bool_decide; congruence
       |repeat case_bool_decide; (by left) || (right; left; by split) || (right; right; by split)]).
Qed.

Lemma mutex_inv_restart s : mutex_inv s -> kctl s = KPaused -> mutex_inv (coremu_restart_all_cores s).
Proof.
  intros (Hc & Hk & Hi & Hm) Ek. rewrite Ek in Hk. split_and!; simpl; rewrite ?length_fmap; auto.
  - intros i pc st. rewrite list_lookup_fmap. intros ([pc0 st0] & Hl & [= -> ->])%fmap_Some.
    rewrite <- (Hc _ _ _ Hl). by destruct pc0.
  - naive_solver.
Qed.

Lemma mutex_inv_step s l s' : mutex_inv s -> pstep s l = Ok (Some s') -> mutex_inv s'.
Proof.
  intros Hinv E. destruct l as [i|i|i|i|];
    [eapply (mutex_inv_core_step s i); [|exact Hinv|exact E]; tauto..|].
  pose proof Hinv as (Hc & Hk & Hi & Hm). simpl in E. unfold controller_step in E.
  destruct (kctl s) as [|i|i|i|i|] eqn:Ek; simpl in E, Hk;
    unfold coremu_mutex_lock, coremu_mutex_unlock in E;
    [| |destruct (pcores s !! i) as [[pci sti]|]; [|done]| | |simplify_eq; by apply mutex_inv_restart];
    repeat case_match; simpl in E; simplify_eq;
    (apply mutex_inv_ctl; [done| | |]; simpl;
       [repeat case_bool_decide; simpl; congruence
       |repeat case_bool_decide; (by left) || (right; left; by split) || (right; right; by split)|]);
    repeat case_bool_decide; naive_solver.
Qed.

Lemma preach_mutex allowed n s : preach allowed n s -> mutex_inv s.
Proof. induction 1; eauto using mutex_inv_init, mutex_inv_step. Qed.

(** Under every interleaving, stray wakeups, naps and signals included, no unlock in
    the pause protocol fails its assertion and no two threads are in critical
    sections at once. *)
Theorem pause_mutex_safe allowed n s :
  preach allowed n s ->
  (forall l, pstep s l <> Abort) /\
  (forall i j ci cj, pcores s !! i = Some ci -> pcores s !! j = Some cj ->
     core_holds ci.1 = true -> core_holds cj.1 = true -> i = j) /\
  (forall i ci, pcores s !! i = Some ci -> core_holds ci.1 = true -> ctl_holds (kctl s) = false).
Proof.
  intros (Hc & Hk & Hi & Hm)%preach_mutex. split_and!.
  - intros [i|i|i|i|]; simpl;
      unfold coremu_pause_core_step, sched_pause_step, send_signal_store, spurious_wakeup,
        controller_step, coremu_mutex_lock, coremu_mutex_unlock;
      try (destruct (pcores s !! i) as [[pc st]|] eqn:Hp; [|done]; simpl; specialize (Hc _ _ _ Hp);
           destruct pc; simpl in *; try rewrite <- Hc; repeat case_match; done).
    destruct (kctl s) as [|i|i|i|i|]; simpl in *; try rewrite <- Hk; try (repeat case_match; done).
    by destruct (pcores s !! i) as [[]|].
  - intros i j [pi si] [pj sj] Hli Hlj Hhi Hhj. simpl in *.
    rewrite (Hc _ _ _ Hli) in Hhi. rewrite (Hc _ _ _ Hlj) in Hhj.
    apply bool_decide_eq_true in Hhi, Hhj. congruence.
  - intros i [pi si] Hl Hh. simpl in *. rewrite Hk. rewrite (Hc _ _ _ Hl) in Hh.
    apply bool_decide_eq_true in Hh. rewrite Hh. by apply bool_decide_eq_false.
Qed.

(** ** When [coremu_wait_all_cores_pause] can be trusted *)

(** Only cores in [coremu_pause_core] and the controller move, and the controller
    starts to wait when no released core is still on its way out. *)
Definition orderly (s : pstate) (l : label) : Prop :=
  match l with
  | LCore _ => True
  | LCtl => kctl s = KIdle -> Forall (fun c => c.1 <> CWoken /\ c.1 <> CRun) (pcores s)
  | _ => False
  end.

(** [state] is [CM_STATE_PAUSE] from the store to the store back. *)
Definition paused_pc (pc : cpc) : bool :=
  match pc with CWait | CBlocked | CWoken | CRun => true | _ => false end.

(** How many cores the controller has seen paused. *)
Definition seen (s : pstate) : nat :=
  match kctl s with
  | KIdle => 0
  | KLock i | KTest i | KRetry i => i
  | KUnlock i => S i
  | KPaused => length (pcores s)
  end.

Definition orderly_inv (s : pstate) : Prop :=
  (forall i pc st, pcores s !! i = Some (pc, st) ->
     st = (if paused_pc pc then CM_STATE_PAUSE else CM_STATE_RUN) /\ pc <> CNap) /\
  (kctl s <> KIdle -> forall i c, pcores s !! i = Some c -> c.1 <> CWoken /\ c.1 <> CRun) /\
  (forall i c, (i < seen s)%nat -> pcores s !! i = Some c -> c.1 = CBlocked).

Lemma orderly_inv_init n : orderly_inv (pinit n).
Proof. split_and!; simpl; [|done|unfold seen; simpl; intros; lia]. intros i pc st [? _]%lookup_replicate. by simplify_eq. Qed.

Lemma orderly_inv_core s i s' :
  mutex_inv s -> orderly_inv s -> coremu_pause_core_step s i = Ok (Some s') -> orderly_inv s'.
Proof.
  intros (Hc & _) (H1 & H2 & H3) E. unfold coremu_pause_core_step in E.
  destruct (pcores s !! i) as [[pc st]|] eqn:Hp; [|done]. simpl in E.
  pose proof (H1 _ _ _ Hp) as [Hst Hnap].
  assert (forall m pc' st', st' = (if paused_pc pc' then CM_STATE_PAUSE else CM_STATE_RUN) -> pc' <> CNap ->
    pc <> CBlocked -> (kctl s <> KIdle -> pc' <> CWoken /\ pc' <> CRun) ->
    orderly_inv (set_pcore s i m (pc', st'))) as Hset.
  { intros m pc' st' Hst' Hnap' Hnb Hk. split_and!; simpl.
    - intros j pcj stj. rewrite list_lookup_insert_Some. naive_solver.
    - intros Hki j c. rewrite list_lookup_insert_Some. naive_solver.
    - intros j c Hj. rewrite list_lookup_insert_Some. unfold seen in *. simpl in *.
      rewrite length_insert in Hj. intros [(<- & <- & _)|[_ Hl]]; [|eauto].
      exfalso. apply Hnb. by apply (H3 i (pc, st)). }
  unfold coremu_mutex_lock, coremu_mutex_unlock in E.
  destruct pc; simpl in E; repeat case_match; simpl in E; simplify_eq; apply Hset; try done.
  - intros Hk. destruct (H2 Hk i _ Hp) as [? _]. done.
Qed.

Lemma orderly_inv_step s l s' :
  mutex_inv s -> orderly_inv s -> orderly s l -> pstep s l = Ok (Some s') -> orderly_inv s'.
Proof.
  intros Hm Hinv Hl E. destruct l as [i| | | |]; try done; [by eapply orderly_inv_core|].
  pose proof Hinv as (H1 & H2 & H3). pose proof Hm as (Hc & Hk & Hi & _). simpl in *.
  unfold controller_step, coremu_mutex_lock, coremu_mutex_unlock in E.
  destruct (kctl s) as [|i|i|i|i|] eqn:Ek.
  - simplify_eq. specialize (Hl eq_refl). rewrite Forall_lookup in Hl.
    split_and!; simpl; [done|eauto|unfold seen; simpl; intros; lia].
  - specialize (H2 ltac:(done)). unfold seen in H3. rewrite Ek in H3.
    clear Hk. case_bool_decide; [destruct (pause_mutex s)|]; simplify_eq; (split_and!; unfold seen; simpl; [done|intros _; exact H2|]).
    + done.
    + intros j c Hj Hlj. apply (H3 j c); [lia|done].
  - specialize (H2 ltac:(done)). unfold seen in H3. rewrite Ek in H3.
    destruct (pcores s !! i) as [[pc st]|] eqn:Hp; [|done]. simpl in E. simplify_eq.
    split_and!; unfold seen; simpl; [done|intros _; exact H2|].
    intros j c Hj Hlj. case_bool_decide; [|by eapply H3].
    destruct (decide (j = i)) as [->|]; [|apply (H3 j c); [lia|done]].
    simplify_eq/=. destruct (H1 _ _ _ Hp) as [Hst _]. destruct (H2 _ _ Hp) as [Hw Hr].
    pose proof (Hc _ _ _ Hp) as Hh. simpl in Hk. apply eq_sym, bool_decide_eq_true in Hk.
    rewrite Hk in Hh. by destruct pc.
  - specialize (H2 ltac:(done)). unfold seen in H3. rewrite Ek in H3.
    case_match; simplify_eq/=. split_and!; unfold seen; simpl; [done|intros _; exact H2|]. done.
  - specialize (H2 ltac:(done)). unfold seen in H3. rewrite Ek in H3.
    case_match; simplify_eq/=. split_and!; unfold seen; simpl; [done|intros _; exact H2|]. done.
  - simplify_eq. split_and!; simpl; [|done|unfold seen; simpl; intros; lia].
    intros i pc st. rewrite list_lookup_fmap. intros ([pc0 st0] & Hp & [= -> ->])%fmap_Some.
    destruct (H1 _ _ _ Hp) as [-> ?]. by destruct pc0.
Qed.

Lemma preach_orderly n s : preach orderly n s -> mutex_inv s /\ orderly_inv s.
Proof.
  induction 1 as [|s l s' _ [IHm IHo] Ha E]; [split; [apply mutex_inv_init|apply orderly_inv_init]|].
  split; [by eapply mutex_inv_step|by eapply orderly_inv_step].
Qed.

(** C17.  When [coremu_wait_all_cores_pause] has returned every core is blocked inside
    [coremu_pause_core], if the use is orderly: no core is woken but by
    [coremu_restart_all_cores], no interrupt is sent to a parked core and no core is
    told to pause by the scheduler meanwhile, and the wait starts when no released core
    is still on its way out.  Neither the operating system nor the code ensures these:
    [wait_all_cores_pause_fooled], [wait_all_cores_pause_livelock] and
    [wait_all_cores_pause_stale] show a run that goes wrong without each. *)
Theorem wait_all_cores_pause_sound n s :
  preach orderly n s -> kctl s = KPaused ->
  Forall (fun c => c = (CBlocked, CM_STATE_PAUSE)) (pcores s).
Proof.
  intros [_ (H1 & _ & H3)]%preach_orderly Hk. apply Forall_lookup. intros i [pc st] Hl.
  assert (pc = CBlocked) as ->.
  { apply (H3 i (pc, st)); [|done]. unfold seen. rewrite Hk. by eapply lookup_lt_Some. }
  by destruct (H1 _ _ _ Hl) as [-> _].
Qed.

(** ** And when it cannot *)

Definition park : list label := replicate 5 (LCore 0).
Definition wait_all : list label := replicate 5 LCtl.

(** Waiting again right after [coremu_restart_all_cores], with no other step than the
    protocol's own: a core that was released but has not run yet still shows
    [CM_STATE_PAUSE], the wait returns, and the core then leaves
    [coremu_pause_core] and runs. *)
Theorem wait_all_cores_pause_stale :
  exists ls s, Forall (fun l => l = LCtl \/ l = LCore 0) ls /\ pruns (pinit 1) ls = Ok s /\
    kctl s = KPaused /\ pcores s = [(CIdle, CM_STATE_RUN)].
Proof.
  exists (park ++ wait_all ++ [LCtl] ++ wait_all ++ replicate 3 (LCore 0)). eexists.
  split; [|by vm_compute]. unfold park, wait_all. simpl. by repeat (constructor; [naive_solver|]).
Qed.

(** The two ways another part of the program breaks the wait: [sched_pause] makes a
    running core look paused, and a stray wakeup lets a paused core go, because
    [coremu_cond_wait] is not in a loop. *)
Theorem wait_all_cores_pause_fooled :
  (exists s, pruns (pinit 1) ([LNap 0] ++ wait_all ++ [LNap 0]) = Ok s /\
     kctl s = KPaused /\ pcores s = [(CIdle, CM_STATE_RUN)]) /\
  (exists s, pruns (pinit 1) (park ++ wait_all ++ [LSpurious 0] ++ replicate 3 (LCore 0)) = Ok s /\
     kctl s = KPaused /\ pcores s = [(CIdle, CM_STATE_RUN)]).
Proof. split; eexists; by vm_compute. Qed.

(** A core parked with [CM_STATE_RUN] stored over its state. *)
Definition signalled (s : pstate) : Prop :=
  pcores s = [(CBlocked, CM_STATE_RUN)] /\
  match kctl s with
  | KIdle | KLock 0 => pause_mutex s = None
  | KTest 0 | KRetry 0 => pause_mutex s = Some Ctl
  | _ => False
  end.

Lemma signalled_step s l s' :
  l = LCtl \/ l = LCore 0 -> signalled s -> pstep s l = Ok (Some s') -> signalled s'.
Proof.
  destruct s as [m cs k]. unfold signalled. simpl. intros Hl [-> Hk] E.
  destruct Hl as [-> | ->]; [|done].
  destruct k as [|[]|[]|[]|[]|]; try done; subst m; simpl in E; by injection E as <-.
Qed.

(** An interrupt sent to a core that is parked stores [CM_STATE_RUN] over its
    [CM_STATE_PAUSE]; from then on no schedule of the core and the controller makes
    [coremu_wait_all_cores_pause] return. *)
Theorem wait_all_cores_pause_livelock s ls s' :
  pruns (pinit 1) (park ++ [LSignal 0]) = Ok s ->
  Forall (fun l => l = LCtl \/ l = LCore 0) ls -> pruns s ls = Ok s' ->
  kctl s' <> KPaused /\ pcores s' = [(CBlocked, CM_STATE_RUN)].
Proof.
  intros Hs Hls Hr. assert (signalled s) as Hsig by (vm_compute in Hs; simplify_eq; done). clear Hs.
  assert (signalled s') as [Hc Hk].
  { revert s Hsig Hr. induction Hls as [|l ls Hl _ IH]; intros s Hsig Hr; simpl in Hr; [by simplify_eq|].
    apply obind_ok in Hr as ([s1|] & E & Hr); simpl in Hr; eauto using signalled_step. }
  split; [|done]. intros Ek. by rewrite Ek in Hk.
Qed.

(** ** Witnesses *)

#[local] Instance kpc_eq_dec : EqDecision kpc.
Proof. solve_decision. Defined.

#[local] Instance orderly_dec s l : Decision (orderly s l).
Proof. destruct l; simpl; apply _. Defined.

(** A schedule whose every step is orderly. *)
Fixpoint orderly_run (s : pstate) (ls : list label) : option pstate :=
  match ls with
  | [] => Some s
  | l :: ls =>
      if decide (orderly s l) then
        if pstep s l is Ok (Some s) then orderly_run s ls else None
      else None
  end.

Lemma orderly_run_reach n s ls s' :
  preach orderly n s -> orderly_run s ls = Some s' -> preach orderly n s'.
Proof.
  revert s. induction ls as [|l ls IH]; intros s Hs E; simpl in E; [by simplify_eq|].
  destruct (decide (orderly s l)); [|done]. destruct (pstep s l) as [[s1|]| |] eqn:E1; try done.
  apply IH in E; [done|]. by eapply preach_step.
Qed.

(** Both cores of two parked and seen. *)
Definition pdemo : pstate :=
  mk_pstate None [(CBlocked, CM_STATE_PAUSE); (CBlocked, CM_STATE_PAUSE)] KPaused.

Lemma pdemo_reach : preach orderly 2 pdemo.
Proof.
  apply (orderly_run_reach 2 (pinit 2) (park ++ replicate 5 (LCore 1) ++ replicate 8 LCtl));
    [constructor|by vm_compute].
Qed.

Lemma pause_mutex_safe_witness :
  (forall l, pstep pdemo l <> Abort) /\
  (forall i j ci cj, pcores pdemo !! i = Some ci -> pcores pdemo !! j = Some cj ->
     core_holds ci.1 = true -> core_holds cj.1 = true -> i = j) /\
  (forall i ci, pcores pdemo !! i = Some ci -> core_holds ci.1 = true -> ctl_holds (kctl pdemo) = false).
Proof. apply (pause_mutex_safe orderly 2 pdemo), pdemo_reach. Defined.

Lemma wait_all_cores_pause_sound_witness :
  Forall (fun c => c = (CBlocked, CM_STATE_PAUSE)) (pcores pdemo).
Proof. apply (wait_all_cores_pause_sound 2 pdemo pdemo_reach). reflexivity. Defined.

Definition signalled_demo (k : kpc) (m : option owner) : pstate :=
  mk_pstate m [(CBlocked, CM_STATE_RUN)] k.

Lemma wait_all_cores_pause_livelock_witness :
  KRetry 0 <> KPaused /\ [(CBlocked, CM_STATE_RUN)] = [(CBlocked, CM_STATE_RUN)].
Proof.
  apply (wait_all_cores_pause_livelock (signalled_demo KIdle None) [LCtl; LCtl; LCtl]
           (signalled_demo (KRetry 0) (Some Ctl))); [by vm_compute| |by vm_compute].
  by repeat (constructor; [by left|]).
Defined.
