(* ===== verification/BiosUtil.v ===== *)
(** * SeaBIOS support code: [bios/seabios/src/util.c], [types.h], [util.h], [pci.h]

    Memory is a function from flat addresses to bytes.  A buffer does not cross the
    end of the address space, so pointers are not wrapped.  String and memory routines
    are the loops of the source; a [rep] instruction is the loop it performs. *)

From S2P Require Import Prelude.
Local Open Scope Z_scope.
Local Open Scope coremu_scope.

(** ** [types.h], [util.h] *)

Definition ALIGN (x a : Z) : Z := Z.land (u32 (x + (a - 1))) (u32 (Z.lnot (a - 1))).
Definition ALIGN_DOWN (x a : Z) : Z := Z.land (u32 x) (u32 (Z.lnot (a - 1))).
Definition DIV_ROUND_UP (n d : Z) : Z := (n + d - 1) / d.

(** [bsf] and [bsr] on a non-zero word. *)
Fixpoint ffs_from (n : nat) (i w : Z) : Z :=
  match n with
  | O => i
  | S n => if Z.testbit w i then i else ffs_from n (i + 1) w
  end.
Definition ffs (w : Z) : Z := ffs_from 31 0 w.

Fixpoint fls_from (n : nat) (w : Z) : Z :=
  match n with
  | O => 0
  | S k => if Z.testbit w (Z.of_nat n) then Z.of_nat n else fls_from k w
  end.
Definition fls (w : Z) : Z := fls_from 31 w.

Definition htons (v : Z) : Z := u16 (Z.lor (Z.shiftl v 8) (Z.shiftr v 8)).
Definition htonl (v : Z) : Z :=
  u32 (Z.lor (Z.lor (Z.lor (Z.shiftl v 24) (Z.shiftl (Z.land v 0xff00) 8))
                    (Z.shiftr (Z.land v 0xff0000) 8)) (Z.shiftr v 24)).

(** [farptr.h]: the flat address of a segment and offset. *)
Definition MAKE_FLATPTR (seg off : Z) : Z := u32 (Z.shiftl seg 4 + off).
Definition FLATPTR_TO_SEG (p : Z) : Z := Z.shiftr p 4.
Definition FLATPTR_TO_OFFSET (p : Z) : Z := Z.land p 0xf.

(** ** [pci.h] *)

Definition pci_bdf_to_bus (bdf : Z) : Z := u8 (Z.shiftr (u16 bdf) 8).
Definition pci_bdf_to_devfn (bdf : Z) : Z := Z.land (u16 bdf) 0xff.
Definition pci_bdf_to_busdev (bdf : Z) : Z := Z.ldiff (u16 bdf) 0x07.
Definition pci_bdf_to_dev (bdf : Z) : Z := Z.land (Z.shiftr (u16 bdf) 3) 0x1f.
Definition pci_bdf_to_fn (bdf : Z) : Z := Z.land (u16 bdf) 0x07.
Definition pci_to_bdf (bus dev fn : Z) : Z := u16 (Z.lor (Z.lor (Z.shiftl bus 8) (Z.shiftl dev 3)) fn).

(** ** Memory *)

Definition memory : Type := Z -> Z.

Definition writeb (m : memory) (a v : Z) : memory := fun x => if x =? a then u8 v else m x.
Definition readb (m : memory) (a : Z) : Z := m a.
Definition readw (m : memory) (a : Z) : Z := Z.lor (m a) (Z.shiftl (m (a + 1)) 8).
Definition readl (m : memory) (a : Z) : Z := Z.lor (readw m a) (Z.shiftl (readw m (a + 2)) 16).
Definition writew (m : memory) (a v : Z) : memory := writeb (writeb m a v) (a + 1) (Z.shiftr v 8).
Definition writel (m : memory) (a v : Z) : memory := writew (writew m a v) (a + 2) (Z.shiftr v 16).

(** Every cell is a byte. *)
Definition bytes (m : memory) : Prop := forall a, in_u 8 (m a).

(** ** String operations *)

(** The loop of [checksum_far]. *)
Fixpoint checksum_from (m : memory) (a : Z) (len : nat) (sum : Z) : Z :=
  match len with
  | O => sum
  | S len => checksum_from m (a + 1) len (u8 (sum + m a))
  end.

Definition checksum (m : memory) (buf len : Z) : Z := checksum_from m buf (Z.to_nat len) 0.

(** [None] when no terminator is found in [fuel] bytes. *)
Fixpoint strlen (fuel : nat) (m : memory) (s : Z) : option Z :=
  match fuel with
  | O => None
  | S fuel => if m s =? 0 then Some 0 else Z.succ <$> strlen fuel m (s + 1)
  end.

Fixpoint memcmp (m : memory) (s1 s2 : Z) (n : nat) : Z :=
  match n with
  | O => 0
  | S n =>
      if negb (m s1 =? m s2) then if m s1 <? m s2 then -1 else 1
      else memcmp m (s1 + 1) (s2 + 1) n
  end.

(** [char] is signed. *)
Fixpoint strcmp (fuel : nat) (m : memory) (s1 s2 : Z) : option Z :=
  match fuel with
  | O => None
  | S fuel =>
      if negb (m s1 =? m s2) then Some (if swrap 8 (m s1) <? swrap 8 (m s2) then -1 else 1)
      else if m s1 =? 0 then Some 0
      else strcmp fuel m (s1 + 1) (s2 + 1)
  end.

(** [memset] stores from the end down. *)
Fixpoint memset (m : memory) (s c : Z) (n : nat) : memory :=
  match n with
  | O => m
  | S n => memset (writeb m (s + Z.of_nat n) c) s c n
  end.

(** [rep stosb] and [rep stosw], [n] bytes and [n] words. *)
Fixpoint stosb (m : memory) (d c : Z) (n : nat) : memory :=
  match n with O => m | S n => stosb (writeb m d c) (d + 1) c n end.
Fixpoint stosw (m : memory) (d c : Z) (n : nat) : memory :=
  match n with O => m | S n => stosw (writew m d c) (d + 2) c n end.

(** The [_far] routines run these with 16-bit registers: [%cx] counts, and [%di] and [%si]
    wrap around inside their segments. *)
Fixpoint stosb_far (m : memory) (seg d c : Z) (n : nat) : memory :=
  match n with O => m | S n => stosb_far (writeb m (seg * 16 + d) c) seg (u16 (d + 1)) c n end.
Fixpoint stosw_far (m : memory) (seg d c : Z) (n : nat) : memory :=
  match n with O => m | S n => stosw_far (writew m (seg * 16 + d) c) seg (u16 (d + 2)) c n end.
Fixpoint movsb_far (m : memory) (d_seg d s_seg s : Z) (n : nat) : memory :=
  match n with
  | O => m
  | S n => movsb_far (writeb m (d_seg * 16 + d) (m (s_seg * 16 + s))) d_seg (u16 (d + 1)) s_seg (u16 (s + 1)) n
  end.

Definition memset_far (m : memory) (d_seg d_far c len : Z) : memory :=
  stosb_far m (u16 d_seg) (u16 d_far) c (Z.to_nat (u16 len)).
Definition memset16_far (m : memory) (d_seg d_far c len : Z) : memory :=
  stosw_far m (u16 d_seg) (u16 d_far) c (Z.to_nat (u16 (len / 2))).

(** [rep movsb] and [rep movsl]. *)
Fixpoint movsb (m : memory) (d s : Z) (n : nat) : memory :=
  match n with O => m | S n => movsb (writeb m d (m s)) (d + 1) (s + 1) n end.
Fixpoint movsl (m : memory) (d s : Z) (n : nat) : memory :=
  match n with O => m | S n => movsl (writel m d (readl m s)) (d + 4) (s + 4) n end.

Definition memcpy_far (m : memory) (d_seg d_far s_seg s_far len : Z) : memory :=
  movsb_far m (u16 d_seg) (u16 d_far) (u16 s_seg) (u16 s_far) (Z.to_nat (u16 len)).

Definition memcpy (m : memory) (d1 s1 len : Z) : memory :=
  if negb (Z.land (Z.lor (Z.lor d1 s1) len) 3 =? 0) then movsb m d1 s1 (Z.to_nat len)
  else movsl m d1 s1 (Z.to_nat (len / 4)).

(** [len] is a multiple of 4; at most [fuel] rounds.  [yield] runs other threads,
    which is not modelled. *)
Fixpoint iomemcpy (fuel : nat) (m : memory) (d s len : Z) : option memory :=
  if len =? 0 then Some m
  else match fuel with
  | O => None
  | S fuel =>
      let copylen := if 2048 <? len then 2048 else len in
      let n := copylen / 4 in
      iomemcpy fuel (movsl m d s (Z.to_nat n)) (d + 4 * n) (s + 4 * n) (len - copylen)
  end.

(** The downward loop of [memmove]; [d] and [s] are at the last byte. *)
Fixpoint move_down (m : memory) (d s : Z) (n : nat) : memory :=
  match n with O => m | S n => move_down (writeb m d (m s)) (d - 1) (s - 1) n end.

Definition memmove (m : memory) (d s len : Z) : memory :=
  if d <=? s then memcpy m d s len
  else move_down m (d + (len - 1)) (s + (len - 1)) (Z.to_nat len).

(** [strtcpy]: [len - 1] rounds at most, [len] is not zero. *)
Fixpoint strtcpy_loop (m : memory) (d src : Z) (n : nat) : memory :=
  match n with
  | O => writeb m d 0
  | S n => if m src =? 0 then writeb m d 0
           else strtcpy_loop (writeb m d (m src)) (d + 1) (src + 1) n
  end.
Definition strtcpy (m : memory) (dest src len : Z) : memory :=
  strtcpy_loop m dest src (Z.to_nat (len - 1)).

(** ** Keyboard calls *)

(** [get_keystroke], with [check i] whether a key is pending at the i-th look and [key]
    what [get_raw_keystroke] then returns; the second result counts the looks. *)
Fixpoint get_keystroke (fuel : nat) (check : nat -> bool) (key : Z) (i : nat) (msec : Z)
  : option (Z * nat) :=
  match fuel with
  | O => None
  | S fuel =>
      if check i then Some (key, S i)
      else if msec <=? 0 then Some (-1, S i)
      else get_keystroke fuel check key (S i) (msec - 50)
  end.

(** ** Alignment *)

Lemma land_lnot_ones x k : 0 <= x < 2 ^ 32 -> 0 <= k <= 32 ->
  Z.land x (u32 (Z.lnot (2 ^ k - 1))) = x - x mod 2 ^ k.
Proof.
  intros Hx Hk. unfold wrap. rewrite <- Z.land_ones by lia.
  replace (2 ^ k - 1) with (Z.ones k) by (rewrite Z.ones_equiv; lia).
  rewrite (Z.land_comm (Z.lnot _)), Z.land_assoc.
  rewrite (Z.land_ones x 32), (Z.mod_small x) by lia.
  rewrite <- Z.ldiff_land, Z.ldiff_ones_r by lia.
  rewrite Z.shiftr_div_pow2, Z.shiftl_mul_pow2 by lia.
  pose proof (Z.div_mod x (2 ^ k)). lia.
Qed.

(** [ALIGN_DOWN] to a power of two is the largest multiple not above. *)
Lemma ALIGN_DOWN_pow2 x k : 0 <= x < 2 ^ 32 -> 0 <= k <= 32 -> ALIGN_DOWN x (2 ^ k) = x - x mod 2 ^ k.
Proof. intros Hx Hk. unfold ALIGN_DOWN. rewrite wrap_small by done. by apply land_lnot_ones. Qed.

Lemma ALIGN_pow2 x k : 0 <= x -> x + 2 ^ k <= 2 ^ 32 -> 0 <= k <= 32 ->
  ALIGN x (2 ^ k) = (x + (2 ^ k - 1)) - (x + (2 ^ k - 1)) mod 2 ^ k.
Proof.
  intros Hx Hx' Hk. assert (0 < 2 ^ k) by (apply Z.pow_pos_nonneg; lia).
  unfold ALIGN. rewrite (wrap_small 32 (x + _)) by (unfold in_u; lia).
  apply land_lnot_ones; lia.
Qed.

(** ** Copies *)

(** What a copy of [len] bytes from [s] to [d] should leave. *)
Definition copied (m : memory) (d s len : Z) : memory :=
  fun a => if (d <=? a) && (a <? d + len) then m (a - d + s) else m a.

(** Decide the address tests of a goal. *)
Ltac addr_cases :=
  repeat match goal with
  | |- context [?x =? ?y] => destruct (Z.eqb_spec x y)
  | |- context [?x <=? ?y] => destruct (Z.leb_spec x y)
  | |- context [?x <? ?y] => destruct (Z.ltb_spec x y)
  end; simpl.

(** Decide the comparisons of addresses at known offsets. *)
Ltac addr_decide :=
  repeat match goal with
  | |- context [?x =? ?y] =>
      first [rewrite (proj2 (Z.eqb_eq x y)) by lia | rewrite (proj2 (Z.eqb_neq x y)) by lia]
  end.

(** The source of a copy is read before it is overwritten. *)
Definition forward_safe (d s len : Z) : Prop := d <= s \/ s + len <= d.

Lemma bytes_writeb m a v : bytes m -> bytes (writeb m a v).
Proof. intros Hm x. unfold writeb. case_test; [apply wrap_range; lia|apply Hm]. Qed.

Lemma movsb_spec n m d s a :
  bytes m -> forward_safe d s (Z.of_nat n) ->
  movsb m d s n a = copied m d s (Z.of_nat n) a.
Proof.
  revert m d s. induction n as [|n IH]; intros m d s Hm Hs; unfold copied; cbn [movsb].
  { addr_cases; done || lia. }
  unfold forward_safe in *. rewrite IH by (by apply bytes_writeb || lia). unfold copied, writeb.
  rewrite (wrap_small 8 (m s)) by apply Hm.
  addr_cases; try lia; try done; f_equal; lia.
Qed.

(** A far copy that stays inside its segments is a flat one. *)
Lemma memcpy_far_flat m d_seg d s_seg s len :
  in_u 16 d_seg -> in_u 16 s_seg -> 0 <= d -> 0 <= s -> 0 <= len < 2 ^ 16 ->
  d + len <= 2 ^ 16 -> s + len <= 2 ^ 16 -> d < 2 ^ 16 -> s < 2 ^ 16 ->
  memcpy_far m d_seg d s_seg s len = movsb m (d_seg * 16 + d) (s_seg * 16 + s) (Z.to_nat len).
Proof.
  intros Hds Hss Hd Hs Hl Hdl Hsl Hd' Hs'. unfold memcpy_far.
  rewrite (wrap_small 16 d_seg), (wrap_small 16 s_seg), (wrap_small 16 len), (wrap_small 16 d), (wrap_small 16 s)
    by (unfold in_u in *; lia).
  rewrite <- (Z2Nat.id len) in Hdl, Hsl by lia. clear Hl Hd' Hs'. revert m d s Hd Hs Hdl Hsl.
  induction (Z.to_nat len) as [|n IH]; intros m d s Hd Hs Hdl Hsl; cbn [movsb_far movsb]; [done|].
  destruct n as [|n]; [done|].
  rewrite (wrap_small 16 (d + 1)), (wrap_small 16 (s + 1)) by (unfold in_u; lia).
  rewrite IH by lia. by rewrite !Z.add_assoc.
Qed.

Lemma lor_shiftl x y k : 0 <= k -> 0 <= x < 2 ^ k -> Z.lor x (Z.shiftl y k) = x + y * 2 ^ k.
Proof.
  intros Hk Hx. rewrite <- (Z.shiftl_mul_pow2 y) by lia. symmetry. apply Z.add_nocarry_lor.
  apply Z.bits_inj'. intros i Hi. rewrite Z.land_spec, Z.bits_0, Z.shiftl_spec by lia.
  destruct (Z.ltb_spec i k).
  - by rewrite (Z.testbit_neg_r y), andb_false_r by lia.
  - by rewrite <- (Z.mod_small x (2 ^ k)), Z.mod_pow2_bits_high by lia.
Qed.

Lemma readw_sum m a : bytes m -> readw m a = m a + m (a + 1) * 2 ^ 8.
Proof. intros Hm. apply lor_shiftl; [lia|apply Hm]. Qed.

Lemma readl_sum m a : bytes m -> readl m a = readw m a + readw m (a + 2) * 2 ^ 16.
Proof.
  intros Hm. apply lor_shiftl; [lia|]. rewrite readw_sum by done.
  pose proof (Hm a). pose proof (Hm (a + 1)). unfold in_u in *. lia.
Qed.

(** The bytes of a word of two halves of [k] bits. *)
Lemma wrap_lo x y k : 0 <= k -> in_u k x -> wrap k (x + y * 2 ^ k) = x.
Proof. intros Hk Hx. unfold wrap. rewrite Z.mod_add by (apply Z.pow_nonzero; lia). by apply Z.mod_small. Qed.

Lemma shiftr_hi x y k : 0 <= k -> in_u k x -> Z.shiftr (x + y * 2 ^ k) k = y.
Proof.
  intros Hk Hx. rewrite Z.shiftr_div_pow2, Z.div_add by (done || (apply Z.pow_nonzero; lia)).
  rewrite Z.div_small by done. lia.
Qed.

Lemma writew_eq m a x y :
  in_u 8 x -> in_u 8 y -> forall b, writew m a (x + y * 2 ^ 8) b = writeb (writeb m a x) (a + 1) y b.
Proof.
  intros Hx Hy b. unfold writew, writeb. rewrite shiftr_hi, wrap_lo by (done || lia).
  by rewrite !wrap_small.
Qed.

Lemma movl_spec m d s a :
  bytes m -> writel m d (readl m s) a = copied m d s 4 a.
Proof.
  intros Hm. rewrite readl_sum by done. unfold writel.
  assert (in_u 16 (readw m s)) as H16.
  { rewrite readw_sum by done. pose proof (Hm s). pose proof (Hm (s + 1)). unfold in_u in *. lia. }
  rewrite shiftr_hi by (done || lia).
  assert (forall b, writew m d (readw m s + readw m (s + 2) * 2 ^ 16) b = writew m d (readw m s) b) as E1.
  { intros b. unfold writew, writeb. case_test; [|case_test; [|done]].
    - unfold wrap. rewrite !Z.shiftr_div_pow2 by lia. change (2 ^ 16) with (2 ^ 8 * 2 ^ 8).
      rewrite Z.mul_assoc, Z.div_add by lia. by rewrite Z.mod_add by lia.
    - unfold wrap. change (2 ^ 16) with (2 ^ 8 * 2 ^ 8). rewrite Z.mul_assoc. by rewrite Z.mod_add by lia. }
  assert (forall m' p q b, writew m' p (readw m q) b = writeb (writeb m' p (m q)) (p + 1) (m (q + 1)) b) as E2.
  { intros. rewrite readw_sum by done. apply writew_eq; apply Hm. }
  rewrite E2. unfold writeb at 1 2. rewrite E1, E2.
  unfold writeb, copied. rewrite !(wrap_small 8 (m _)) by apply Hm.
  addr_cases; try lia; try done; f_equal; lia.
Qed.

Lemma bytes_writel m a v : bytes m -> bytes (writel m a v).
Proof. intros. by repeat apply bytes_writeb. Qed.

Lemma movsl_spec n m d s a :
  bytes m -> s = d \/ d + 4 <= s \/ s + 4 * Z.of_nat n <= d ->
  movsl m d s n a = copied m d s (4 * Z.of_nat n) a.
Proof.
  revert m d s. induction n as [|n IH]; intros m d s Hm Hs; cbn [movsl].
  { unfold copied. addr_cases; done || lia. }
  rewrite IH by (by apply bytes_writel || lia). unfold copied. rewrite !movl_spec by done.
  unfold copied. addr_cases; try lia; try done; f_equal; lia.
Qed.

Lemma land_3_div x : Z.land x 3 = x mod 4.
Proof. change 3 with (Z.ones 2). by rewrite Z.land_ones. Qed.

Lemma memcpy_spec m d s len a :
  bytes m -> 0 <= len -> forward_safe d s len -> memcpy m d s len a = copied m d s len a.
Proof.
  intros Hm Hl Hs. unfold memcpy. case_test.
  { rewrite movsb_spec; rewrite ?Z2Nat.id; done. }
  rewrite !Z.land_lor_distr_l, !land_3_div in E.
  apply Z.lor_eq_0_iff in E as [[Ed Es]%Z.lor_eq_0_iff El].
  assert (len = 4 * Z.of_nat (Z.to_nat (len / 4))) as E4.
  { rewrite Z2Nat.id by (apply Z.div_pos; lia). pose proof (Z.div_mod len 4). lia. }
  rewrite movsl_spec, <- E4; [done|done|]. unfold forward_safe in Hs.
  pose proof (Z.div_mod d 4). pose proof (Z.div_mod s 4). lia.
Qed.

Lemma move_down_spec n m d s a :
  bytes m -> s < d -> move_down m d s n a =
  copied m (d - (Z.of_nat n - 1)) (s - (Z.of_nat n - 1)) (Z.of_nat n) a.
Proof.
  revert m d s. induction n as [|n IH]; intros m d s Hm Hs; cbn [move_down].
  { unfold copied. addr_cases; done || lia. }
  rewrite IH by (by apply bytes_writeb || lia). unfold copied, writeb.
  rewrite (wrap_small 8 (m s)) by apply Hm.
  addr_cases; try lia; try done; f_equal; lia.
Qed.

(** [memmove] copies whatever the overlap, by bytes or by words, up or down: every byte
    of the destination ends as the byte of the source was, and nothing else changes. *)
Lemma memmove_spec m d s len a :
  bytes m -> 0 <= len -> memmove m d s len a = copied m d s len a.
Proof.
  intros Hm Hl. unfold memmove. case_test; [apply memcpy_spec; unfold forward_safe; auto|].
  rewrite move_down_spec by (done || lia). rewrite Z2Nat.id by done. f_equal; lia.
Qed.

(** [iomemcpy] returns after at most [len / 2048 + 1] rounds and copies [len] bytes. *)
Lemma iomemcpy_spec fuel m d s len :
  bytes m -> 0 <= len -> len mod 4 = 0 -> s = d \/ d + 4 <= s \/ s + len <= d ->
  len <= 2048 * Z.of_nat fuel ->
  exists m', iomemcpy fuel m d s len = Some m' /\ forall a, m' a = copied m d s len a.
Proof.
  revert m d s len. induction fuel as [|fuel IH]; intros m d s len Hm Hl H4 Hs Hf; cbn [iomemcpy].
  { assert (len = 0) as -> by lia. rewrite Z.eqb_refl. exists m. split; [done|].
    intros a. unfold copied. addr_cases; done || lia. }
  case_test.
  { exists m. split; [done|]. intros a. unfold copied. addr_cases; done || lia. }
  set (copylen := if 2048 <? len then 2048 else len).
  assert (0 < copylen <= len /\ copylen mod 4 = 0 /\ len - copylen <= 2048 * Z.of_nat fuel) as (Hc & Hc4 & Hf').
  { subst copylen. case_test; split_and!; done || lia. }
  assert (copylen = 4 * Z.of_nat (Z.to_nat (copylen / 4))) as E4.
  { rewrite Z2Nat.id by (apply Z.div_pos; lia). pose proof (Z.div_mod copylen 4). lia. }
  assert (forall a, movsl m d s (Z.to_nat (copylen / 4)) a = copied m d s copylen a) as Ec.
  { intros a. rewrite movsl_spec, <- E4 by (done || lia). done. }
  replace (4 * (copylen / 4)) with copylen by (rewrite Z2Nat.id in E4 by (apply Z.div_pos; lia); lia).
  destruct (IH (movsl m d s (Z.to_nat (copylen / 4))) (d + copylen) (s + copylen) (len - copylen))
    as (m' & -> & Ht); [|lia| |lia|lia|].
  { intros a. rewrite Ec. unfold copied. case_test; apply Hm. }
  { rewrite Zminus_mod, H4, Hc4. done. }
  exists m'. split; [done|]. intros a. rewrite Ht. unfold copied. rewrite !Ec. unfold copied.
  addr_cases; try lia; try done; f_equal; lia.
Qed.

Lemma memset_spec n m d c a :
  memset m d c n a = (if (d <=? a) && (a <? d + Z.of_nat n) then u8 c else m a).
Proof.
  revert m. induction n as [|n IH]; intros m; cbn [memset].
  - addr_cases; done || lia.
  - rewrite IH. unfold writeb. addr_cases; done || lia.
Qed.

(** The memory routines do what their names say: [memmove] copies whatever the overlap,
    by bytes or by words, up or down; [memset] fills; [iomemcpy], for a length that is a
    multiple of 4, returns after at most [len / 2048 + 1] rounds with all of it copied.
    Nothing outside the destination changes. *)
Theorem memory_routines_correct m d s len :
  bytes m -> 0 <= len ->
  (forall a, memmove m d s len a = copied m d s len a) /\
  (forall c a, memset m d c (Z.to_nat len) a = (if (d <=? a) && (a <? d + len) then u8 c else m a)) /\
  (len mod 4 = 0 -> s = d \/ d + 4 <= s \/ s + len <= d ->
     exists m', iomemcpy (Z.to_nat (len / 2048) + 1) m d s len = Some m' /\
       forall a, m' a = copied m d s len a).
Proof.
  intros Hm Hl. split_and!.
  - intros a. by apply memmove_spec.
  - intros c a. by rewrite memset_spec, Z2Nat.id.
  - intros H4 Hs. apply iomemcpy_spec; try done.
    pose proof (Z.div_mod len 2048). pose proof (Z.mod_pos_bound len 2048).
    assert (0 <= len / 2048) by (apply Z.div_pos; lia). lia.
Qed.

(** ** Checksums *)

Fixpoint bytesum (m : memory) (a : Z) (n : nat) : Z :=
  match n with O => 0 | S n => m a + bytesum m (a + 1) n end.

Lemma checksum_from_sum n m a sum :
  in_u 8 sum -> checksum_from m a n sum = u8 (sum + bytesum m a n).
Proof.
  revert a sum. induction n as [|n IH]; intros a sum Hs; simpl.
  { rewrite Z.add_0_r. symmetry. by apply wrap_small. }
  rewrite IH by (apply wrap_range; lia). rewrite wrap_add_l. f_equal. lia.
Qed.

Lemma bytesum_writeb n m a c v :
  bytesum (writeb m c v) a n =
  bytesum m a n + (if (a <=? c) && (c <? a + Z.of_nat n) then u8 v - m c else 0).
Proof.
  revert a. induction n as [|n IH]; intros a.
  { simpl. destruct (_ && _) eqn:E; bool_to_prop; lia. }
  cbn [bytesum]. rewrite IH. unfold writeb at 1.
  destruct (Z.eqb_spec a c) as [->|]; addr_cases; lia.
Qed.

Lemma checksum_ext m m' a n :
  (forall x, a <= x < a + n -> m' x = m x) -> checksum m' a n = checksum m a n.
Proof.
  intros H. unfold checksum. rewrite !checksum_from_sum by (unfold in_u; lia). do 2 f_equal.
  assert (forall k b, a <= b -> b + Z.of_nat k <= a + n -> bytesum m' b k = bytesum m b k) as Hs.
  { induction k as [|k IH]; intros b H1 H2; [done|]. cbn [bytesum]. rewrite H, IH by lia. done. }
  destruct (Z.le_gt_cases 0 n); [apply Hs; lia|]. by replace (Z.to_nat n) with 0%nat by lia.
Qed.

(** The idiom [t->checksum -= checksum(t, len)] that closes every table: afterwards the
    bytes of the table sum to zero, and only the checksum byte has changed. *)
Lemma checksum_fix m buf len c :
  bytes m -> 0 <= len -> buf <= c < buf + len ->
  let m' := writeb m c (u8 (m c - checksum m buf len)) in
  checksum m' buf len = 0 /\ forall a, a <> c -> m' a = m a.
Proof.
  intros Hm Hl Hc m'. split.
  - unfold checksum. rewrite !checksum_from_sum by (unfold in_u; lia). subst m'.
    rewrite bytesum_writeb, (proj2 (Z.leb_le _ _)), (proj2 (Z.ltb_lt _ _)) by lia. simpl.
    unfold checksum. rewrite checksum_from_sum by (unfold in_u; lia). rewrite !Z.add_0_l.
    set (S := bytesum m buf (Z.to_nat len)).
    rewrite wrap_idem, wrap_sub_r by lia.
    replace (S + (u8 (m c - S) - m c)) with (u8 (m c - S) + (S - m c)) by lia.
    rewrite wrap_add_l. replace (m c - S + (S - m c)) with 0 by lia. done.
  - intros a Ha. subst m'. unfold writeb. by rewrite (proj2 (Z.eqb_neq _ _) Ha).
Qed.

(** ** Strings *)

Lemma strlen_spec n m s fuel :
  (forall i, 0 <= i < Z.of_nat n -> m (s + i) <> 0) -> m (s + Z.of_nat n) = 0 ->
  (n < fuel)%nat -> strlen fuel m s = Some (Z.of_nat n).
Proof.
  revert s fuel. induction n as [|n IH]; intros s [|fuel] Hnz Hz Hf; try lia; cbn [strlen].
  { by replace (s + Z.of_nat 0) with s in Hz by lia; rewrite Hz. }
  rewrite (proj2 (Z.eqb_neq _ _)) by (rewrite <- (Z.add_0_r s) at 1; apply Hnz; lia).
  rewrite (IH (s + 1)); [simpl; f_equal; lia| | |lia].
  - intros i Hi. replace (s + 1 + i) with (s + (1 + i)) by lia. apply Hnz. lia.
  - rewrite <- Hz. f_equal. lia.
Qed.

Lemma strtcpy_loop_spec k n m d s :
  bytes m -> (forall i, 0 <= i < Z.of_nat k -> m (s + i) <> 0) ->
  k = n \/ (k < n)%nat /\ m (s + Z.of_nat k) = 0 ->
  d + Z.of_nat n < s \/ s + Z.of_nat n < d ->
  forall a, strtcpy_loop m d s n a =
    (if a =? d + Z.of_nat k then 0 else copied m d s (Z.of_nat k) a).
Proof.
  revert n m d s. induction k as [|k IH]; intros n m d s Hm Hnz Hk Hd a.
  { replace (strtcpy_loop m d s n) with (writeb m d 0).
    - unfold writeb, copied. addr_cases; done || lia.
    - destruct n as [|n]; [done|]. destruct Hk as [?|[_ Hz]]; [lia|]. cbn [strtcpy_loop].
      replace (s + Z.of_nat 0) with s in Hz by lia. by rewrite Hz. }
  destruct n as [|n]; [lia|]. cbn [strtcpy_loop].
  rewrite (proj2 (Z.eqb_neq (m s) 0)) by (rewrite <- (Z.add_0_r s) at 1; apply Hnz; lia).
  rewrite IH.
  - unfold copied, writeb. rewrite (wrap_small 8 (m s)) by apply Hm.
    addr_cases; try lia; try done; f_equal; lia.
  - by apply bytes_writeb.
  - intros i Hi. unfold writeb. rewrite (proj2 (Z.eqb_neq _ _)) by lia.
    replace (s + 1 + i) with (s + (1 + i)) by lia. apply Hnz. lia.
  - destruct Hk as [?|[? Hz]]; [left; lia|right; split; [lia|]]. unfold writeb.
    rewrite (proj2 (Z.eqb_neq _ _)) by lia. rewrite <- Hz. f_equal. lia.
  - lia.
Qed.

(** [strtcpy] copies the string up to its end or to [len - 1] characters, whichever
    comes first, always terminates it, and touches nothing else. *)
Theorem strtcpy_truncates m dest src len n :
  bytes m -> 0 < len -> 0 <= n ->
  (forall i, 0 <= i < n -> m (src + i) <> 0) -> m (src + n) = 0 ->
  dest + len <= src \/ src + len <= dest ->
  let k := Z.min n (len - 1) in
  forall a, strtcpy m dest src len a = (if a =? dest + k then 0 else copied m dest src k a).
Proof.
  intros Hm Hlen Hn Hnz Hz Hd k a. unfold strtcpy.
  rewrite (strtcpy_loop_spec (Z.to_nat k)); rewrite ?Z2Nat.id by lia; [done|done| | |].
  - intros i Hi. apply Hnz. lia.
  - destruct (Z.le_gt_cases (len - 1) n); [left; lia|right].
    split; [lia|]. replace k with n by lia. done.
  - lia.
Qed.

(** ** The wait for a key *)

(** [get_keystroke] looks at most [msec / 50 + 2] times before it gives up. *)
Theorem get_keystroke_bounded check key msec :
  0 <= msec ->
  exists r n, get_keystroke (Z.to_nat (msec / 50) + 2) check key 0 msec = Some (r, n) /\
    Z.of_nat n <= msec / 50 + 2 /\ (r = key \/ r = -1).
Proof.
  intros Hm.
  assert (forall fuel i msec, msec < 50 * (Z.of_nat fuel - 1) ->
    (1 <= fuel)%nat -> exists r n, get_keystroke fuel check key i msec = Some (r, n) /\
      (n <= i + fuel)%nat /\ (r = key \/ r = -1)) as H.
  { clear. induction fuel as [|fuel IH]; intros i msec Hm Hf; [lia|]. cbn [get_keystroke].
    case_test; [eexists _, _; split_and!; [done|lia|auto]|].
    case_test; [eexists _, _; split_and!; [done|lia|auto]|].
    destruct (IH (S i) (msec - 50)) as (r & n & -> & Hn & Hr); [lia..|].
    exists r, n. split_and!; [done|lia|done]. }
  pose proof (Z.div_mod msec 50). pose proof (Z.mod_pos_bound msec 50).
  assert (0 <= msec / 50) by (apply Z.div_pos; lia).
  destruct (H (Z.to_nat (msec / 50) + 2)%nat 0%nat msec) as (r & n & -> & Hn & Hr); [lia..|].
  exists r, n. split_and!; [done|lia|done].
Qed.

(** ** Witnesses *)

Definition demo_mem : memory := fun a => if (0 <=? a) && (a <? 8) then a + 1 else 0.

Lemma demo_mem_bytes : bytes demo_mem.
Proof. intros a. unfold demo_mem, in_u. addr_cases; lia. Qed.

Lemma memory_routines_correct_witness :
  (forall a, memmove demo_mem 2 0 8 a = copied demo_mem 2 0 8 a) /\
  (forall c a, memset demo_mem 2 c (Z.to_nat 8) a = (if (2 <=? a) && (a <? 2 + 8) then u8 c else demo_mem a)) /\
  (8 mod 4 = 0 -> 0 = 2 \/ 2 + 4 <= 0 \/ 0 + 8 <= 2 ->
     exists m', iomemcpy (Z.to_nat (8 / 2048) + 1) demo_mem 2 0 8 = Some m' /\
       forall a, m' a = copied demo_mem 2 0 8 a).
Proof. apply memory_routines_correct; [apply demo_mem_bytes|lia]. Defined.

Lemma strtcpy_truncates_witness :
  forall a, strtcpy demo_mem 100 0 4 a = (if a =? 103 then 0 else copied demo_mem 100 0 3 a).
Proof.
  apply (strtcpy_truncates demo_mem 100 0 4 8); [apply demo_mem_bytes|lia..| |done|lia].
  intros i Hi. unfold demo_mem. addr_cases; lia.
Defined.

Lemma get_keystroke_bounded_witness :
  exists r n, get_keystroke (Z.to_nat (120 / 50) + 2) (fun _ => false) 7 0 120 = Some (r, n) /\
    Z.of_nat n <= 120 / 50 + 2 /\ (r = 7 \/ r = -1).
Proof. apply get_keystroke_bounded. lia. Defined.
