(* ===== verification/E820.v ===== *)
(** * The e820 memory map: [bios/seabios/src/memmap.c]

    [e820_list] and [e820_count] are one list, the first [e820_count] entries of the
    array.  [add_e820] runs on indices, as the code does; its loops are related to
    structural functions on the rest of the list, from which the correctness
    theorem follows. *)

From S2P Require Import Prelude.
Local Open Scope Z_scope.
Local Open Scope coremu_scope.

Definition E820_RAM : Z := 1.
Definition E820_RESERVED : Z := 2.
Definition E820_ACPI : Z := 3.
Definition E820_NVS : Z := 4.
Definition E820_UNUSABLE : Z := 5.
Definition E820_HOLE : Z := u32 (-1).
Definition CONFIG_MAX_E820 : nat := 32.

Record e820entry := mk_e820 { start : Z; size : Z; type : Z }.

#[global] Instance e820entry_eq_dec : EqDecision e820entry.
Proof. solve_decision. Defined.

(** ** Operations *)

Definition remove_e820 (l : list e820entry) (i : nat) : list e820entry := list_remove_at i l.

(** A full map drops the entry. *)
Definition insert_e820 (l : list e820entry) (i : nat) (st sz ty : Z) : list e820entry :=
  if bool_decide (CONFIG_MAX_E820 <= length l)%nat then l
  else list_insert_at i (mk_e820 st sz ty) l.

Definition e_end (e : e820entry) : Z := u64 (start e + size e).

(** The first loop of [add_e820]: from index [i], with [n] entries left to look at. *)
Fixpoint add_find (n i : nat) (l : list e820entry) (st sz en ty : Z) : list e820entry * nat * Z * Z :=
  match n, l !! i with
  | S n, Some e =>
      if e_end e <? st then add_find n (S i) l st sz en ty
      else if start e <? st then
        if ty =? type e then (l, i, start e, u64 (sz + (st - start e)))
        else
          let l' := <[i := mk_e820 (start e) (u64 (st - start e)) (type e)]> l in
          let i := S i in
          (if en <? e_end e then insert_e820 l' i en (u64 (e_end e - en)) (type e) else l', i, st, sz)
      else (l, i, st, sz)
  | _, _ => (l, i, st, sz)
  end.

(** The second loop: every round but the last removes an entry, so [n] is the number
    of entries at [i] and after. *)
Fixpoint add_remove (n i : nat) (l : list e820entry) (sz en ty : Z) : list e820entry * Z :=
  match n, l !! i with
  | S n, Some e =>
      if en <? start e then (l, sz)
      else if e_end e <=? en then add_remove n i (remove_e820 l i) sz en ty
      else
        let e' := mk_e820 en (u64 (e_end e - en)) (type e) in
        let l := <[i := e']> l in
        if ty =? type e' then (remove_e820 l i, u64 (sz + size e')) else (l, sz)
  | _, _ => (l, sz)
  end.

Definition add_e820 (l : list e820entry) (st sz ty : Z) : list e820entry :=
  if sz =? 0 then l
  else
    let en := u64 (st + sz) in
    let '(l, i, st, sz) := add_find (length l) 0 l st sz en ty in
    let '(l, sz) := add_remove (length l - i) i l sz en ty in
    if negb (ty =? E820_HOLE) then insert_e820 l i st sz ty else l.

(** [find_high_area], scanning from index [n - 1] down; the index found. *)
Fixpoint find_high_from (n : nat) (l : list e820entry) (sz : Z) : option nat :=
  match n with
  | O => None
  | S i =>
      match l !! i with
      | None => None
      | Some e =>
          if negb (type e =? E820_RAM) || (0xffffffff <? e_end e) || (size e <? sz)
          then find_high_from i l sz
          else if e_end e <? u32 (1024 * 1024 + sz) then None
          else Some i
      end
  end.

Definition find_high_area (l : list e820entry) (sz : Z) : option nat := find_high_from (length l) l sz.

Definition memmap_setup : list e820entry := [].

(** ** What a map says *)

(** The type of address [x]; [None] in a hole. *)
Fixpoint type_at (l : list e820entry) (x : Z) : option Z :=
  match l with
  | [] => None
  | e :: l => if (start e <=? x) && (x <? start e + size e) then Some (type e) else type_at l x
  end.

Definition ok_entry (e : e820entry) : Prop :=
  0 <= start e /\ 0 < size e /\ start e + size e < 2 ^ 64 /\ type e <> E820_HOLE.

(** The entries of [l] are non-empty, sorted and disjoint, come after an entry of type
    [pt] that ends at [pe], and touch each other only when their types differ. *)
Fixpoint chain (pe pt : Z) (l : list e820entry) : Prop :=
  match l with
  | [] => True
  | e :: l =>
      ok_entry e /\ (pe < start e \/ (pe = start e /\ pt <> type e)) /\
      chain (start e + size e) (type e) l
  end.

Definition e820_ok (l : list e820entry) : Prop := chain (-1) E820_HOLE l.

Lemma e_end_ok e : ok_entry e -> e_end e = start e + size e.
Proof. unfold ok_entry, e_end. intros. apply wrap_small. unfold in_u. lia. Qed.

Lemma chain_below pe pt l x : chain pe pt l -> x < pe -> type_at l x = None.
Proof.
  revert pe pt. induction l as [|e l IH]; intros pe pt; simpl; [done|].
  intros (He & Hg & Hl) Hx. unfold ok_entry in He.
  rewrite (proj2 (Z.leb_gt _ _)) by lia. simpl. eapply IH; [done|lia].
Qed.

Lemma chain_weaken pe pt pe' pt' l : chain pe pt l -> pe' < pe -> chain pe' pt' l.
Proof. destruct l as [|e l]; simpl; [done|]. intuition lia. Qed.

Lemma type_at_app l1 l2 x :
  type_at (l1 ++ l2) x = match type_at l1 x with Some t => Some t | None => type_at l2 x end.
Proof. induction l1 as [|e l1 IH]; simpl; [done|]. destruct (_ && _); [done|apply IH]. Qed.

(** ** The loops as functions on the rest of the list *)

(** What the first loop leaves before and after the position it finds. *)
Fixpoint split_at (rest : list e820entry) (st sz en ty : Z)
  : list e820entry * list e820entry * Z * Z :=
  match rest with
  | [] => ([], [], st, sz)
  | e :: rest =>
      if e_end e <? st then
        let '(a, b, st, sz) := split_at rest st sz en ty in (e :: a, b, st, sz)
      else if start e <? st then
        if ty =? type e then ([], e :: rest, start e, u64 (sz + (st - start e)))
        else
          ([mk_e820 (start e) (u64 (st - start e)) (type e)],
           (if en <? e_end e then [mk_e820 en (u64 (e_end e - en)) (type e)] else []) ++ rest, st, sz)
      else ([], e :: rest, st, sz)
  end.

(** What the second loop leaves of the rest. *)
Fixpoint cut (rest : list e820entry) (sz en ty : Z) : list e820entry * Z :=
  match rest with
  | [] => ([], sz)
  | e :: rest =>
      if en <? start e then (e :: rest, sz)
      else if e_end e <=? en then cut rest sz en ty
      else
        let e' := mk_e820 en (u64 (e_end e - en)) (type e) in
        if ty =? type e then (rest, u64 (sz + size e')) else (e' :: rest, sz)
  end.

Lemma add_find_split pre rest st sz en ty :
  (length pre + length rest < CONFIG_MAX_E820)%nat ->
  add_find (length rest) (length pre) (pre ++ rest) st sz en ty =
  (let '(a, b, st, sz) := split_at rest st sz en ty in
   (pre ++ a ++ b, (length pre + length a)%nat, st, sz)).
Proof.
  revert pre. induction rest as [|e rest IH]; intros pre Hlen; simpl.
  { by rewrite app_nil_r, Nat.add_0_r. }
  rewrite lookup_app_r, Nat.sub_diag by lia. simpl.
  case_test.
  { replace (pre ++ e :: rest) with ((pre ++ [e]) ++ rest) by (by rewrite <- (assoc_L app)).
    replace (S (length pre)) with (length (pre ++ [e])) by (rewrite length_app; simpl; lia).
    rewrite IH by (rewrite length_app; simpl in *; lia).
    destruct (split_at rest st sz en ty) as [[[a b] st'] sz']. rewrite length_app. simpl.
    rewrite <- !(assoc_L app). simpl. do 3 f_equal. lia. }
  case_test; [|by rewrite Nat.add_0_r]. case_test; [by rewrite Nat.add_0_r|].
  rewrite list_update_mid. simpl. rewrite Nat.add_1_r. do 3 f_equal.
  case_test; [|done]. unfold insert_e820.
  rewrite bool_decide_false by (rewrite length_app; simpl in *; lia).
  rewrite (cons_middle _ pre rest).
  rewrite (assoc_L app pre).
  replace (S (length pre)) with (length (pre ++ [mk_e820 (start e) (u64 (st - start e)) (type e)]))
    by (rewrite length_app; simpl; lia).
  rewrite list_insert_at_mid. by rewrite <- (assoc_L app).
Qed.

Lemma add_remove_cut pre rest sz en ty :
  add_remove (length rest) (length pre) (pre ++ rest) sz en ty =
  (let '(r, sz) := cut rest sz en ty in (pre ++ r, sz)).
Proof.
  revert sz. induction rest as [|e rest IH]; intros sz; simpl; [done|].
  rewrite lookup_app_r, Nat.sub_diag by lia. simpl.
  case_test; [done|]. unfold remove_e820. case_test; [by rewrite list_remove_at_mid|].
  rewrite list_update_mid. case_test; [|done]. by rewrite list_remove_at_mid.
Qed.

(** What becomes of the part of a map at [en] and after when the new entry ends at
    [en]: the new entry grows to [en'] over an entry of its own type. *)
Lemma cut_spec rest pe pt st en ty :
  chain pe pt rest -> 0 <= st < en -> en < 2 ^ 64 ->
  exists r en', cut rest (en - st) en ty = (r, en' - st) /\ en <= en' < 2 ^ 64 /\ chain en' ty r /\
    (ty = E820_HOLE -> en' = en) /\ (length r <= length rest)%nat /\
    forall x, en <= x -> type_at rest x = (if x <? en' then Some ty else type_at r x).
Proof.
  revert pe pt. induction rest as [|e rest IH]; intros pe pt Hc Hst Hen.
  { exists [], en. simpl. split_and!; try done; try lia. intros x Hx. by rewrite (proj2 (Z.ltb_ge x en)). }
  destruct Hc as (He & Hg & Hc). pose proof (e_end_ok _ He) as Ee. unfold ok_entry in He. simpl. rewrite Ee.
  case_test.
  { exists (e :: rest), en. split_and!; simpl; try done; try lia.
    - unfold ok_entry. tauto.
    - intros x Hx. by rewrite (proj2 (Z.ltb_ge x en)). }
  case_test.
  { destruct (IH _ _ Hc Hst Hen) as (r & en' & -> & Hb & Hc' & Hh & Hlen & Ht).
    exists r, en'. split_and!; try done; [lia..|].
    intros x Hx. rewrite <- Ht by done.
    rewrite andb_comm, (proj2 (Z.ltb_ge x (start e + size e))) by lia. done. }
  rewrite (wrap_small 64 (start e + size e - en)) by (unfold in_u; lia).
  case_test.
  - exists rest, (start e + size e). simpl.
    rewrite wrap_small by (unfold in_u; lia). split_and!; [f_equal; lia|lia|lia|by subst|intros; exfalso; intuition congruence|lia|].
    intros x Hx. rewrite (proj2 (Z.leb_le _ _)) by lia. by subst.
  - exists (mk_e820 en (start e + size e - en) (type e) :: rest), en.
    split_and!; simpl; try done; try lia.
    + split_and!; [unfold ok_entry; simpl; lia|by right|].
      by replace (en + (start e + size e - en)) with (start e + size e) by lia.
    + intros x Hx. rewrite (proj2 (Z.ltb_ge x en)) by done.
      rewrite (proj2 (Z.leb_le (start e) x)), (proj2 (Z.leb_le en x)) by lia. simpl.
      by replace (en + (start e + size e - en)) with (start e + size e) by lia.
Qed.

(** The whole of [add_e820] on the rest of a map. *)
Definition add_rest (rest : list e820entry) (st sz en ty : Z) : list e820entry :=
  let '(a, b, st, sz) := split_at rest st sz en ty in
  let '(r, sz) := cut b sz en ty in
  a ++ (if negb (ty =? E820_HOLE) then [mk_e820 st sz ty] else []) ++ r.

(** The new entry, if any, followed by what [cut] leaves. *)
Lemma add_new_spec b pe pt st en ty pe0 pt0 :
  chain pe pt b -> 0 <= st < en -> en < 2 ^ 64 ->
  (pe0 < st \/ (pe0 = st /\ pt0 <> ty)) ->
  exists r sz, cut b (en - st) en ty = (r, sz) /\ (length r <= length b)%nat /\
    let l := (if negb (ty =? E820_HOLE) then [mk_e820 st sz ty] else []) ++ r in
    chain pe0 pt0 l /\
    forall x, type_at l x = (if x <? st then None else if x <? en then
        (if ty =? E820_HOLE then None else Some ty) else type_at b x).
Proof.
  intros Hc Hst Hen Hp. destruct (cut_spec b pe pt st en ty Hc Hst Hen) as (r & en' & -> & Hb & Hc' & Hh & Hlen & Ht).
  exists r, (en' - st). split; [done|]. split; [done|].
  destruct (ty =? E820_HOLE) eqn:E; bool_to_prop; simpl.
  - specialize (Hh E) as ->. split; [eapply chain_weaken; [done|lia]|].
    intros x. case_test; [eapply chain_below; [done|lia]|].
    case_test; [eapply chain_below; [done|lia]|].
    by rewrite Ht, (proj2 (Z.ltb_ge x en)).
  - split.
    + split_and!; [|done|]; unfold ok_entry; simpl; [lia|].
      by replace (st + (en' - st)) with en' by lia.
    + intros x. replace (st + (en' - st)) with en' by lia.
      destruct (x <? st) eqn:E1; bool_to_prop.
      * rewrite (proj2 (Z.leb_gt _ _)) by done. simpl. eapply chain_below; [done|lia].
      * rewrite (proj2 (Z.leb_le st x)) by done. simpl.
        destruct (x <? en) eqn:E2; bool_to_prop; [by rewrite (proj2 (Z.ltb_lt x en')) by lia|].
        rewrite Ht by done. done.
Qed.

(** What is left of an entry that the new range starts in, and of those after it. *)
Lemma rest_tail e rest pe pt st en (ty : Z) : chain pe pt (e :: rest) -> start e < st -> st < en -> en < 2 ^ 64 ->
  let b := (if en <? start e + size e then [mk_e820 en (u64 (start e + size e - en)) (type e)] else []) ++ rest in
  exists pe1 pt1, chain pe1 pt1 b /\ forall x, en <= x -> type_at b x = type_at (e :: rest) x.
Proof.
  intros (He & Hg & Hr) Hs Hen H64 b. unfold ok_entry in He. subst b.
  destruct (en <? start e + size e) eqn:X; bool_to_prop; simpl.
  - rewrite wrap_small by (unfold in_u; lia). exists st, ty. split.
    + split_and!; simpl; [unfold ok_entry; simpl; lia|lia|].
      by replace (en + (start e + size e - en)) with (start e + size e) by lia.
    + intros x Hx. simpl. rewrite (proj2 (Z.leb_le en x)), (proj2 (Z.leb_le (start e) x)) by lia.
      simpl. by replace (en + (start e + size e - en)) with (start e + size e) by lia.
  - exists (start e + size e), (type e). split; [done|]. intros x Hx.
    by rewrite andb_comm, (proj2 (Z.ltb_ge x _)) by lia.
Qed.

Lemma add_rest_spec rest pe pt st en ty :
  chain pe pt rest -> pe < st -> 0 <= st < en -> en < 2 ^ 64 ->
  let l := add_rest rest st (en - st) en ty in
  chain pe pt l /\
  forall x, type_at l x = (if (st <=? x) && (x <? en) then
      (if ty =? E820_HOLE then None else Some ty) else type_at rest x).
Proof.
  revert pe pt. induction rest as [|e rest IH]; intros pe pt Hc Hpe Hst Hen; unfold add_rest; simpl.
  { destruct (add_new_spec [] pe pt st en ty pe pt Hc Hst Hen) as (r & sz & E & _ & Hl & Ht); [by left|].
    simpl in E. injection E as <- <-. split; [done|]. intros x. rewrite Ht.
    repeat case_test; try done; lia. }
  pose proof Hc as (He & Hg & Hr). pose proof (e_end_ok _ He) as Ee. pose proof He as He'.
  unfold ok_entry in He. rewrite Ee.
  destruct (start e + size e <? st) eqn:E1; bool_to_prop.
  { specialize (IH _ _ Hr E1 Hst Hen). unfold add_rest in IH. simpl in IH.
    destruct (split_at rest st (en - st) en ty) as [[[a b] st'] sz']. destruct (cut b sz' en ty) as [r sz''].
    destruct IH as [IHc IHt]. simpl. split; [tauto|].
    intros x. rewrite IHt. repeat case_test; bool_to_prop; try done; lia. }
  destruct (start e <? st) eqn:E2; bool_to_prop.
  - destruct (ty =? type e) eqn:E3; bool_to_prop.
    + rewrite (wrap_small 64 (en - st + _)) by (unfold in_u; lia).
      replace (en - st + (st - start e)) with (en - start e) by lia.
      destruct (add_new_spec (e :: rest) pe pt (start e) en ty pe pt Hc) as (r & sz & -> & _ & Hl & Ht);
        [lia..|by subst|]. split; [done|]. intros x. simpl app in *. rewrite Ht. simpl.
      rewrite (proj2 (Z.eqb_neq ty E820_HOLE)) by (subst; tauto).
      destruct (x <? start e) eqn:X1; bool_to_prop.
      { rewrite (proj2 (Z.leb_gt st x)), (proj2 (Z.leb_gt (start e) x)) by lia. simpl.
        symmetry. eapply chain_below; [done|lia]. }
      rewrite (proj2 (Z.leb_le (start e) x)) by lia. simpl.
      destruct (st <=? x) eqn:X2, (x <? en) eqn:X3; bool_to_prop; simpl; try done.
      by rewrite (proj2 (Z.ltb_lt x (start e + size e))), E3 by lia.
    + rewrite (wrap_small 64 (st - start e)) by (unfold in_u; lia).
      destruct (rest_tail e rest pe pt st en ty Hc) as (pe1 & pt1 & Hb & Htb); [lia..|].
      set (b := (if en <? start e + size e then _ else []) ++ rest) in *.
      destruct (add_new_spec b pe1 pt1 st en ty st (type e) Hb Hst Hen) as (r & sz & -> & _ & Hl & Ht);
        [right; by split; [|congruence]|].
      simpl app. simpl. replace (start e + (st - start e)) with st by lia.
      split; [split_and!; [unfold ok_entry; simpl; lia|done|exact Hl]|].
      intros x. rewrite Ht. destruct (x <? st) eqn:X1; bool_to_prop.
      * rewrite (proj2 (Z.leb_gt st x)) by lia. simpl. rewrite andb_true_r.
        destruct (start e <=? x) eqn:X2; bool_to_prop; simpl.
        { by rewrite (proj2 (Z.ltb_lt x (start e + size e))) by lia. }
        symmetry. eapply chain_below; [done|lia].
      * rewrite (proj2 (Z.leb_le st x)), andb_false_r by lia. simpl.
        destruct (x <? en) eqn:X2; bool_to_prop; [done|]. by apply Htb.
  - destruct (add_new_spec (e :: rest) pe pt st en ty pe pt Hc Hst Hen) as (r & sz & -> & _ & Hl & Ht);
      [by left|]. split; [done|]. intros x. simpl app in *. rewrite Ht.
    destruct (x <? st) eqn:X1; bool_to_prop.
    + rewrite (proj2 (Z.leb_gt st x)) by lia. simpl. rewrite (proj2 (Z.leb_gt (start e) x)) by lia. simpl.
      symmetry. eapply chain_below; [done|lia].
    + rewrite (proj2 (Z.leb_le st x)) by lia. done.
Qed.

Lemma split_at_length rest st sz en ty :
  let '(a, b, _, _) := split_at rest st sz en ty in (length a + length b <= S (length rest))%nat.
Proof.
  induction rest as [|e rest IH]; simpl; [lia|].
  destruct (split_at rest st sz en ty) as [[[a b] st'] sz'].
  repeat case_test; simpl; rewrite ?length_app; simpl; lia.
Qed.

Lemma cut_length rest sz en ty : (length (cut rest sz en ty).1 <= length rest)%nat.
Proof. revert sz. induction rest as [|e rest IH]; intros sz; simpl; [lia|]. specialize (IH sz). repeat case_test; simpl; lia. Qed.

(** With room for two more entries nothing is dropped, and the two loops are
    [split_at] and [cut]. *)
Lemma add_e820_rest l st sz ty :
  (length l + 2 <= CONFIG_MAX_E820)%nat -> sz <> 0 ->
  add_e820 l st sz ty = add_rest l st sz (u64 (st + sz)) ty.
Proof.
  intros Hlen Hsz. unfold add_e820, add_rest. rewrite (proj2 (Z.eqb_neq _ _) Hsz).
  rewrite (add_find_split []) by (simpl; unfold CONFIG_MAX_E820 in *; lia).
  pose proof (split_at_length l st sz (u64 (st + sz)) ty) as Hs.
  destruct (split_at l st sz (u64 (st + sz)) ty) as [[[a b] st'] sz']. simpl.
  replace (length (a ++ b) - length a)%nat with (length b) by (rewrite length_app; lia).
  rewrite add_remove_cut. pose proof (cut_length b sz' (u64 (st + sz)) ty) as Hc.
  destruct (cut b sz' (u64 (st + sz)) ty) as [r sz'']. simpl in Hc.
  destruct (negb _); [|done]. unfold insert_e820.
  rewrite bool_decide_false by (rewrite length_app; unfold CONFIG_MAX_E820 in *; lia).
  by rewrite list_insert_at_mid.
Qed.

Lemma add_rest_length l st sz en ty : (length (add_rest l st sz en ty) <= length l + 2)%nat.
Proof.
  unfold add_rest. pose proof (split_at_length l st sz en ty) as Hs.
  destruct (split_at l st sz en ty) as [[[a b] st'] sz']. pose proof (cut_length b sz' en ty) as Hc.
  destruct (cut b sz' en ty) as [r sz'']. simpl in Hc. rewrite !length_app.
  destruct (negb _); simpl; lia.
Qed.

(** A request that fits the address space. *)
Definition valid_request (st sz : Z) : Prop := 0 <= st /\ 0 < sz /\ st + sz < 2 ^ 64.

Lemma add_e820_step l st sz ty :
  e820_ok l -> (length l + 2 <= CONFIG_MAX_E820)%nat -> valid_request st sz ->
  e820_ok (add_e820 l st sz ty) /\ (length (add_e820 l st sz ty) <= length l + 2)%nat /\
  forall x, type_at (add_e820 l st sz ty) x =
    (if (st <=? x) && (x <? st + sz) then (if ty =? E820_HOLE then None else Some ty) else type_at l x).
Proof.
  intros Hok Hlen (H0 & H1 & H2). rewrite add_e820_rest by (done || lia).
  rewrite wrap_small by (unfold in_u; lia).
  destruct (add_rest_spec l (-1) E820_HOLE st (st + sz) ty) as [Hc Ht]; [done|lia..|].
  replace (st + sz - st) with sz in * by lia. split_and!; [done|apply add_rest_length|done].
Qed.

(** Adding a range to a map with room to spare: afterwards exactly the addresses of the
    range have the new type, or none if the range is a hole, every other address has
    the type it had, and the map is still sorted, disjoint and merged. *)
Theorem add_e820_correct l st sz ty :
  e820_ok l -> (length l + 2 <= CONFIG_MAX_E820)%nat -> valid_request st sz ->
  e820_ok (add_e820 l st sz ty) /\
  forall x, type_at (add_e820 l st sz ty) x =
    (if (st <=? x) && (x <? st + sz) then (if ty =? E820_HOLE then None else Some ty) else type_at l x).
Proof. intros Hok Hlen Hv. destruct (add_e820_step l st sz ty Hok Hlen Hv) as (H1 & _ & H2). by split. Qed.

(** The map after a sequence of requests from [memmap_setup] on. *)
Definition add_all (reqs : list (Z * Z * Z)) : list e820entry :=
  foldl (fun l '(st, sz, ty) => add_e820 l st sz ty) memmap_setup reqs.

(** The abstract map: the latest request that covers [x] decides. *)
Definition spec_map (reqs : list (Z * Z * Z)) : Z -> option Z :=
  foldl (fun f '(st, sz, ty) x =>
    if (st <=? x) && (x <? st + sz) then (if ty =? E820_HOLE then None else Some ty) else f x)
    (fun _ => None) reqs.

Lemma add_all_snoc reqs st sz ty :
  add_all (reqs ++ [(st, sz, ty)]) = add_e820 (add_all reqs) st sz ty.
Proof. unfold add_all. by rewrite foldl_app. Qed.

(** C4.  Any fifteen requests from the empty map: the map gives every address the type of
    the latest request that covers it, in a sorted, disjoint and merged list. *)
Theorem e820_refines reqs :
  (length reqs <= 15)%nat -> Forall (fun '(st, sz, _) => valid_request st sz) reqs ->
  e820_ok (add_all reqs) /\ forall x, type_at (add_all reqs) x = spec_map reqs x.
Proof.
  intros Hlen Hv.
  assert (e820_ok (add_all reqs) /\ (length (add_all reqs) <= 2 * length reqs)%nat /\
          forall x, type_at (add_all reqs) x = spec_map reqs x) as (H1 & _ & H2); [|done].
  induction reqs as [|[[st sz] ty] reqs IH] using rev_ind; [done|].
  rewrite length_app in Hlen. simpl in Hlen. apply Forall_app in Hv as [Hv1 [Hv2 _]%Forall_cons].
  destruct IH as (Hok & Hl & Ht); [lia|done|].
  destruct (add_e820_step (add_all reqs) st sz ty Hok) as (Hok' & Hl' & Ht');
    [unfold CONFIG_MAX_E820; lia|done|].
  rewrite add_all_snoc, length_app. simpl. split_and!; [done|lia|].
  intros x. rewrite Ht'. unfold spec_map. rewrite foldl_app. simpl.
  fold (spec_map reqs). by rewrite Ht.
Qed.

(** What makes an entry fit for [find_high_area]. *)
Definition suitable (e : e820entry) (sz : Z) : Prop :=
  type e = E820_RAM /\ e_end e <= 0xffffffff /\ sz <= size e.

Lemma find_high_from_spec n l sz i :
  find_high_from n l sz = Some i ->
  (i < n)%nat /\ (exists e, l !! i = Some e /\ suitable e sz /\ u32 (1024 * 1024 + sz) <= e_end e) /\
  forall j e, (i < j < n)%nat -> l !! j = Some e -> ~ suitable e sz.
Proof.
  induction n as [|n IH]; simpl; intros E; [done|].
  destruct (l !! n) as [e|] eqn:Hl; [|done].
  destruct (_ || _ || _) eqn:Es.
  - apply IH in E as (Hi & He & Hj). split_and!; [lia|done|]. intros j e' Hjn Hlj.
    destruct (decide (j = n)) as [->|]; [|apply (Hj j); [lia|done]].
    simplify_eq. unfold suitable. intros (? & ? & ?).
    apply orb_true_iff in Es as [[Es|Es]%orb_true_iff|Es]; bool_to_prop; lia.
  - destruct (e_end e <? _) eqn:Ee; [done|]. simplify_eq. bool_to_prop.
    split_and!; [lia| |intros; lia]. exists e. unfold suitable. split_and!; done || lia.
Qed.

(** [find_high_area] returns the highest entry that is RAM, ends below 4G and has the
    size asked for, and that entry ends at or above 1M plus the size. *)
Theorem find_high_area_highest l sz i :
  find_high_area l sz = Some i ->
  (exists e, l !! i = Some e /\ suitable e sz /\ u32 (1024 * 1024 + sz) <= e_end e) /\
  forall j e, (i < j)%nat -> l !! j = Some e -> ~ suitable e sz.
Proof.
  intros (Hi & He & Hj)%find_high_from_spec. split; [done|]. intros j e Hij Hl.
  apply (Hj j); [|done]. apply lookup_lt_Some in Hl. lia.
Qed.

(** ** Witnesses *)

Definition demo_reqs : list (Z * Z * Z) :=
  [(0, 0x9fc00, E820_RAM); (0x100000, 0x7ff00000, E820_RAM); (0x7fff0000, 0x10000, E820_RESERVED);
   (0x200000, 0x1000, E820_HOLE); (0x9fc00, 0x400, E820_RESERVED); (0x1000, 0x1000, E820_RAM)].

Lemma add_e820_correct_witness :
  let l := [mk_e820 0 0x9fc00 E820_RAM; mk_e820 0x100000 0x7ff00000 E820_RAM] in
  e820_ok (add_e820 l 0x7fff0000 0x10000 E820_RESERVED) /\
  forall x, type_at (add_e820 l 0x7fff0000 0x10000 E820_RESERVED) x =
    (if (0x7fff0000 <=? x) && (x <? 0x7fff0000 + 0x10000) then
       (if E820_RESERVED =? E820_HOLE then None else Some E820_RESERVED) else type_at l x).
Proof.
  apply add_e820_correct; [|simpl; unfold CONFIG_MAX_E820; lia|unfold valid_request; lia].
  repeat split; simpl; try done; by left.
Defined.

Lemma e820_refines_witness :
  e820_ok (add_all demo_reqs) /\ forall x, type_at (add_all demo_reqs) x = spec_map demo_reqs x.
Proof.
  apply e820_refines; [simpl; lia|].
  repeat (constructor; [unfold valid_request; lia|]). constructor.
Defined.

Lemma find_high_area_highest_witness :
  (exists e, add_all demo_reqs !! 3%nat = Some e /\ suitable e 0x10000 /\
             u32 (1024 * 1024 + 0x10000) <= e_end e) /\
  forall j e, (3 < j)%nat -> add_all demo_reqs !! j = Some e -> ~ suitable e 0x10000.
Proof. apply find_high_area_highest. by vm_compute. Defined.
