(* ===== verification/Pmm.v ===== *)
(** * The post memory manager: [bios/seabios/src/pmm.c]

    Five zones hand out memory from the top down; [PMMAllocs] links the records of the
    live allocations, each record itself a block of a temporary zone.  The state keeps
    the zones, the records in list order, the BIOS data area fields involved, the flat
    memory and the e820 map.  The code runs in flat mode. *)

From S2P Require Import Prelude BiosUtil E820.
Local Open Scope Z_scope.
Local Open Scope coremu_scope.

(** ** State *)

Record zone_s := mk_zone { top : Z; bottom : Z; cur : Z }.

Inductive zone := ZoneTmpLow | ZoneLow | ZoneFSeg | ZoneTmpHigh | ZoneHigh.

#[global] Instance zone_eq_dec : EqDecision zone.
Proof. solve_decision. Defined.

(** The order of the array [Zones]. *)
Definition Zones : list zone := [ZoneTmpLow; ZoneLow; ZoneFSeg; ZoneTmpHigh; ZoneHigh].

(** [info_at] is the address of the record. *)
Record pmmalloc_s := mk_alloc {
  info_at : Z; data : Z; olddata : Z; handle : Z; oldallocdata : Z }.

Definition sizeof_pmmalloc_s : Z := 20.
Definition MALLOC_MIN_ALIGN : Z := 16.
Definition BUILD_STACK_ADDR : Z := 0x7000.
Definition BUILD_EBDA_MINIMUM : Z := 0x90000.
Definition BUILD_LOWRAM_END : Z := 0xa0000.
Definition BUILD_BIOS_ADDR : Z := 0xf0000.
Definition CONFIG_MAX_BIOSTABLE : Z := 4 * 2048.
Definition CONFIG_MAX_HIGHTABLE : Z := 64 * 1024.
Definition PAGE_SIZE : Z := 4096.

Record pmm := mk_pmm {
  zones : zone -> zone_s;
  PMMAllocs : list pmmalloc_s;
  mem_size_kb : Z; ebda_seg : Z;           (* BIOS data area *)
  pmem : memory;
  e820 : list e820entry }.

Definition set_zone (s : pmm) (z : zone) (v : zone_s) : pmm :=
  mk_pmm (fun y => if decide (y = z) then v else zones s y) (PMMAllocs s) (mem_size_kb s)
    (ebda_seg s) (pmem s) (e820 s).
Definition set_allocs (s : pmm) (l : list pmmalloc_s) : pmm :=
  mk_pmm (zones s) l (mem_size_kb s) (ebda_seg s) (pmem s) (e820 s).
Definition set_pmem (s : pmm) (m : memory) : pmm :=
  mk_pmm (zones s) (PMMAllocs s) (mem_size_kb s) (ebda_seg s) m (e820 s).
Definition set_e820 (s : pmm) (l : list e820entry) : pmm :=
  mk_pmm (zones s) (PMMAllocs s) (mem_size_kb s) (ebda_seg s) (pmem s) l.

Definition set_cur (v : zone_s) (c : Z) : zone_s := mk_zone (top v) (bottom v) c.


(** ** The extended BIOS data area *)

Definition relocate_ebda (s : pmm) (newebda oldebda ebda_size : Z) : pmm * Z :=
  let lowram := u32 (mem_size_kb s * 1024) in
  if negb (oldebda =? lowram) then (s, -1)
  else
    (mk_pmm (zones s) (PMMAllocs s) (u16 (newebda / 1024)) (u16 (FLATPTR_TO_SEG newebda))
       (memmove (pmem s) newebda oldebda (ebda_size * 1024)) (e820 s), 0).

(** [waits] are the states after each [wait_preempt] that reports it waited. *)
Fixpoint zonelow_expand (s : pmm) (waits : list pmm) (size align : Z) : pmm :=
  let zl := zones s ZoneLow in
  let oldpos := cur zl in
  let newpos := ALIGN_DOWN (oldpos - size) align in
  if (bottom zl <=? newpos) && (newpos <=? oldpos) then s
  else match waits with
  | s' :: waits => zonelow_expand s' waits size align
  | [] =>
      let ebda_pos := MAKE_FLATPTR (ebda_seg s) 0 in
      let ebda_size := pmem s ebda_pos in
      let ebda_end := u32 (ebda_pos + ebda_size * 1024) in
      let '(oldpos, newpos) :=
        if negb (ebda_end =? bottom zl) then (ebda_end, ALIGN_DOWN (ebda_end - size) align)
        else (oldpos, newpos) in
      let newbottom := ALIGN_DOWN newpos 1024 in
      let newebda := ALIGN_DOWN (newbottom - ebda_size * 1024) 1024 in
      if newebda <? BUILD_EBDA_MINIMUM then s
      else
        let '(s, ret) := relocate_ebda s newebda ebda_pos ebda_size in
        if negb (ret =? 0) then s
        else set_zone s ZoneLow (mk_zone (top (zones s ZoneLow)) newbottom oldpos)
  end.

(** ** Zones *)

(** 0 is the null pointer. *)
Definition zone_malloc (s : pmm) (z : zone) (size align : Z) : pmm * Z :=
  let oldpos := cur (zones s z) in
  let newpos := ALIGN_DOWN (oldpos - size) align in
  if (newpos <? bottom (zones s z)) || (oldpos <? newpos) then (s, 0)
  else (set_zone s z (set_cur (zones s z) newpos), newpos).

Definition zone_find (s : pmm) (d : Z) : option zone :=
  list_find (fun z => cur (zones s z) <= d < top (zones s z)) Zones ≫= fun p => Some p.2.

Definition zone_free (s : pmm) (d old : Z) : pmm * Z :=
  match zone_find s d with
  | Some z =>
      if (d =? 0) || negb (cur (zones s z) =? d) then (s, -1)
      else (set_zone s z (set_cur (zones s z) old), 0)
  | None => (s, -1)
  end.

(** ** Tracked allocations *)

(** [waits] is for [zonelow_expand]. *)
Definition pmm_malloc (s : pmm) (waits : list pmm) (z : zone) (hnd size align : Z) : pmm * Z :=
  let try_info z := (cur (zones s z), zone_malloc s z sizeof_pmmalloc_s MALLOC_MIN_ALIGN) in
  let '(oldallocdata, (s1, info)) := try_info ZoneTmpHigh in
  let '(oldallocdata, (s1, info)) :=
    if info =? 0 then try_info ZoneTmpLow else (oldallocdata, (s1, info)) in
  if info =? 0 then (s1, 0)
  else
    let s2 := if decide (z = ZoneLow) then zonelow_expand s1 waits size align else s1 in
    let olddata := cur (zones s2 z) in
    let '(s3, d) := zone_malloc s2 z size align in
    if d =? 0 then ((zone_free s3 info oldallocdata).1, 0)
    else (set_allocs s3 (mk_alloc info d olddata hnd oldallocdata :: PMMAllocs s3), d).

(** The search of [pmm_free_data] for the block that was allocated right after. *)
Fixpoint relink (l : list pmmalloc_s) (d old : Z) : list pmmalloc_s :=
  match l with
  | [] => []
  | a :: l =>
      if olddata a =? d then mk_alloc (info_at a) (data a) old (handle a) (oldallocdata a) :: l
      else if oldallocdata a =? d then mk_alloc (info_at a) (data a) (olddata a) (handle a) old :: l
      else a :: relink l d old
  end.

Definition pmm_free_data (s : pmm) (d old : Z) : pmm :=
  let '(s', ret) := zone_free s d old in
  if ret =? 0 then s' else set_allocs s' (relink (PMMAllocs s') d old).

(** The first record of [d], and the list without it. *)
Fixpoint unlink (l : list pmmalloc_s) (d : Z) : option (pmmalloc_s * list pmmalloc_s) :=
  match l with
  | [] => None
  | a :: l =>
      if data a =? d then Some (a, l)
      else match unlink l d with Some (b, l) => Some (b, a :: l) | None => None end
  end.

Definition pmm_free (s : pmm) (d : Z) : pmm * Z :=
  match unlink (PMMAllocs s) d with
  | None => (s, -1)
  | Some (a, l) =>
      let s := set_allocs s l in
      let s := pmm_free_data s d (olddata a) in
      let s := pmm_free_data s (info_at a) (oldallocdata a) in
      (s, 0)
  end.

Definition pmm_getspace (s : pmm) (z : zone) : Z :=
  let space := u32 (cur (zones s z) - bottom (zones s z)) in
  if negb (bool_decide (z = ZoneTmpHigh)) && negb (bool_decide (z = ZoneTmpLow)) then space
  else
    let reserve := ALIGN sizeof_pmmalloc_s MALLOC_MIN_ALIGN in
    if space <=? reserve then 0 else space - reserve.

Fixpoint find_handle (l : list pmmalloc_s) (hnd : Z) : Z :=
  match l with
  | [] => 0
  | a :: l => if handle a =? hnd then data a else find_handle l hnd
  end.
Definition pmm_find (s : pmm) (hnd : Z) : Z := find_handle (PMMAllocs s) hnd.

(** [malloc_setup]: [code32flat_start] and [BiosTableSpace] are link-time addresses. *)
Definition malloc_setup (s : pmm) (code32flat_start BiosTableSpace : Z) : pmm :=
  let m := pmem s in
  let m := if BUILD_BIOS_ADDR <? code32flat_start
           then memset m BUILD_BIOS_ADDR 0 (Z.to_nat (code32flat_start - BUILD_BIOS_ADDR)) else m in
  let m := memset m BiosTableSpace 0 (Z.to_nat CONFIG_MAX_BIOSTABLE) in
  let ftop := BiosTableSpace + CONFIG_MAX_BIOSTABLE in
  let fseg := mk_zone ftop BiosTableSpace ftop in
  let tmplow := mk_zone BUILD_EBDA_MINIMUM BUILD_STACK_ADDR BUILD_EBDA_MINIMUM in
  let low := mk_zone BUILD_LOWRAM_END BUILD_LOWRAM_END BUILD_LOWRAM_END in
  let '(tmphigh, high, l) :=
    match find_high_area (e820 s) (CONFIG_MAX_HIGHTABLE + MALLOC_MIN_ALIGN) ≫= (fun i => e820 s !! i) with
    | None => (mk_zone 0 0 0, mk_zone 0 0 0, e820 s)
    | Some e =>
        let etop := u32 (start e + size e) in
        let ebottom := u32 (start e) in
        let hb := ALIGN (etop - CONFIG_MAX_HIGHTABLE) MALLOC_MIN_ALIGN in
        let ht := u32 (hb + CONFIG_MAX_HIGHTABLE) in
        (mk_zone hb (ALIGN ebottom MALLOC_MIN_ALIGN) hb, mk_zone ht hb ht,
         add_e820 (e820 s) hb CONFIG_MAX_HIGHTABLE E820_RESERVED)
    end in
  mk_pmm (fun z => match z with
                   | ZoneTmpLow => tmplow | ZoneLow => low | ZoneFSeg => fseg
                   | ZoneTmpHigh => tmphigh | ZoneHigh => high end)
    [] (mem_size_kb s) (ebda_seg s) m l.

Definition malloc_finalize (s : pmm) : pmm :=
  let endlow := u32 (mem_size_kb s * 1024) in
  let l := add_e820 (e820 s) endlow (u32 (BUILD_LOWRAM_END - endlow)) E820_RESERVED in
  let zh := zones s ZoneHigh in
  let giveback := ALIGN_DOWN (cur zh - bottom zh) PAGE_SIZE in
  let l := add_e820 l (bottom zh) giveback E820_RAM in
  let tl := zones s ZoneTmpLow in
  set_pmem (set_e820 s l) (memset (pmem s) (bottom tl) 0 (Z.to_nat (u32 (top tl - bottom tl)))).

(** ** The PMM interface *)

Definition PMM_FUNCTION_NOT_SUPPORTED : Z := 0xffffffff.
Definition PMM_DEFAULT_HANDLE : Z := 0xffffffff.

(** [util.h]: what set-up code allocates with. *)
Definition malloc_low (s : pmm) (waits : list pmm) (size : Z) : pmm * Z :=
  pmm_malloc s waits ZoneLow PMM_DEFAULT_HANDLE size MALLOC_MIN_ALIGN.
Definition malloc_high (s : pmm) (size : Z) : pmm * Z :=
  pmm_malloc s [] ZoneHigh PMM_DEFAULT_HANDLE size MALLOC_MIN_ALIGN.
Definition malloc_fseg (s : pmm) (size : Z) : pmm * Z :=
  pmm_malloc s [] ZoneFSeg PMM_DEFAULT_HANDLE size MALLOC_MIN_ALIGN.
Definition malloc_tmphigh (s : pmm) (size : Z) : pmm * Z :=
  pmm_malloc s [] ZoneTmpHigh PMM_DEFAULT_HANDLE size MALLOC_MIN_ALIGN.
Definition malloc_tmp (s : pmm) (size : Z) : pmm * Z :=
  let '(s, ret) := malloc_tmphigh s size in
  if negb (ret =? 0) then (s, ret) else pmm_malloc s [] ZoneTmpLow PMM_DEFAULT_HANDLE size MALLOC_MIN_ALIGN.
Definition free (s : pmm) (d : Z) : pmm := (pmm_free s d).1.

(** [args[i]] for the 16-bit words on the caller's stack. *)
Definition arg16 (args : list Z) (i : nat) : Z := nth i args 0.
Definition arg32 (args : list Z) (i : nat) : Z := Z.lor (arg16 args i) (Z.shiftl (arg16 args (S i)) 16).

Definition handle_pmm00 (s : pmm) (waits : list pmm) (args : list Z) : pmm * Z :=
  let length := arg32 args 1 in
  let hnd := arg32 args 3 in
  let flags := arg16 args 5 in
  let '(lowzone, highzone) :=
    if negb (Z.land flags 8 =? 0) then (ZoneLow, ZoneHigh) else (ZoneTmpLow, ZoneTmpHigh) in
  if length =? 0 then
    (s, match Z.land flags 3 with
        | 1 => pmm_getspace s lowzone
        | 2 => pmm_getspace s highzone
        | 3 => let spacelow := pmm_getspace s lowzone in
               let spacehigh := pmm_getspace s highzone in
               if spacehigh <? spacelow then spacelow else spacehigh
        | _ => 0
        end)
  else
    let size := u32 (length * 16) in
    if s32 size <=? 0 then (s, 0)
    else
      let align :=
        if negb (Z.land flags 4 =? 0) then
          let align := Z.shiftl 1 (ffs size) in
          if align <? MALLOC_MIN_ALIGN then MALLOC_MIN_ALIGN else align
        else MALLOC_MIN_ALIGN in
      match Z.land flags 3 with
      | 1 => pmm_malloc s waits lowzone hnd size align
      | 2 => pmm_malloc s waits highzone hnd size align
      | 3 =>
          let '(s, d) := pmm_malloc s waits lowzone hnd size align in
          if negb (d =? 0) then (s, d) else pmm_malloc s waits highzone hnd size align
      | _ => (s, 0)
      end.

Definition handle_pmm01 (s : pmm) (args : list Z) : pmm * Z :=
  let hnd := arg32 args 1 in
  (s, if hnd =? PMM_DEFAULT_HANDLE then 0 else pmm_find s hnd).

Definition handle_pmm02 (s : pmm) (args : list Z) : pmm * Z :=
  let '(s, ret) := pmm_free s (arg32 args 1) in
  (s, if negb (ret =? 0) then 1 else 0).

Definition handle_pmmXX (s : pmm) (args : list Z) : pmm * Z := (s, PMM_FUNCTION_NOT_SUPPORTED).

Definition handle_pmm (s : pmm) (waits : list pmm) (args : list Z) : pmm * Z :=
  match arg16 args 0 with
  | 0 => handle_pmm00 s waits args
  | 1 => handle_pmm01 s args
  | 2 => handle_pmm02 s args
  | _ => handle_pmmXX s args
  end.

(** The header option ROMs look for, at address [hdr]: signature, version, length,
    checksum, entry point. *)
Definition PMM_SIGNATURE : Z := 0x4d4d5024.
Definition sizeof_pmmheader : Z := 16.

Definition pmm_setup (m : memory) (hdr entry_pmm : Z) : memory :=
  let m := writel m hdr PMM_SIGNATURE in
  let m := writew m (hdr + 7) (u16 (entry_pmm - BUILD_BIOS_ADDR)) in
  writeb m (hdr + 6) (u8 (m (hdr + 6) - checksum m hdr sizeof_pmmheader)).

Definition pmm_finalize (m : memory) (hdr : Z) : memory :=
  writew (writel m hdr 0) (hdr + 7) 0.

(** ** The layout behind a state

    A block is an address, a size, and what [cur] was before it was allocated.  The
    blocks of a zone form a stack from [cur] up.  Freeing a block in the middle links
    its neighbours, so in every zone but [ZoneLow], whose [cur] jumps when the extended
    BIOS data area moves, a block starts exactly where its predecessor links to. *)

Record block := mk_block { b_at : Z; b_size : Z; b_old : Z }.

Definition link (z : zone) (x y : Z) : Prop := match z with ZoneLow => x <= y | _ => x = y end.

Fixpoint stack (z : zone) (c : Z) (bs : list block) (t : Z) : Prop :=
  match bs with
  | [] => link z c t
  | b :: bs => link z c (b_at b) /\ 0 < b_size b /\ b_at b + b_size b <= b_old b /\ stack z (b_old b) bs t
  end.

Lemma link_le z x y : link z x y -> x <= y.
Proof. destruct z; simpl; lia. Qed.

Lemma link_jump z x y : link z x y -> x = y \/ forall y', y <= y' -> link z x y'.
Proof. destruct z; simpl; intros; auto; right; intros; lia. Qed.

Lemma stack_bounds z c bs t b :
  stack z c bs t -> b ∈ bs -> c <= b_at b /\ 0 < b_size b /\ b_at b + b_size b <= b_old b <= t.
Proof.
  revert c. induction bs as [|b' bs IH]; intros c Hs Hb; [by apply elem_of_nil in Hb|].
  destruct Hs as (Hl & Hsz & Ho & Hs). apply link_le in Hl.
  assert (b_old b' <= t) as Ht.
  { clear -Hs. revert Hs. generalize (b_old b'). induction bs as [|b bs IH]; simpl; intros c Hs.
    - by apply link_le in Hs.
    - destruct Hs as (Hl & ? & ? & Hs). apply link_le in Hl. apply IH in Hs. lia. }
  apply elem_of_cons in Hb as [->|Hb]; [lia|]. apply (IH _ Hs) in Hb. lia.
Qed.

Lemma stack_le z c bs t : stack z c bs t -> c <= t.
Proof.
  destruct bs as [|b bs]; simpl; [apply link_le|]. intros H.
  assert (stack z c (b :: bs) t) as H' by done.
  destruct (stack_bounds z c (b :: bs) t b H') as (? & ? & ?); [set_solver|lia].
Qed.

(** Two different blocks of a stack do not overlap, even counting the gaps they leave. *)
Lemma stack_disjoint z c bs t b1 b2 :
  stack z c bs t -> b1 ∈ bs -> b2 ∈ bs -> b1 <> b2 -> b_old b1 <= b_at b2 \/ b_old b2 <= b_at b1.
Proof.
  revert c. induction bs as [|b bs IH]; intros c Hs H1 H2 Hne; [by apply elem_of_nil in H1|].
  destruct Hs as (Hl & Hsz & Ho & Hs).
  apply elem_of_cons in H1, H2. destruct H1 as [->|H1], H2 as [->|H2]; [done|..].
  - left. apply (stack_bounds _ _ _ _ _ Hs H2).
  - right. apply (stack_bounds _ _ _ _ _ Hs H1).
  - by eapply IH.
Qed.

Lemma stack_inj z c bs t b1 b2 :
  stack z c bs t -> b1 ∈ bs -> b2 ∈ bs -> b_at b1 = b_at b2 \/ b_old b1 = b_old b2 -> b1 = b2.
Proof.
  intros Hs H1 H2 He. destruct (decide (b_at b1 = b_at b2 /\ b_size b1 = b_size b2 /\ b_old b1 = b_old b2))
    as [(E1 & E2 & E3)|Hne].
  { destruct b1, b2; simpl in *; congruence. }
  exfalso. destruct (stack_disjoint _ _ _ _ b1 b2 Hs H1 H2) as [H|H]; [intros ->; tauto|..];
    pose proof (stack_bounds _ _ _ _ _ Hs H1); pose proof (stack_bounds _ _ _ _ _ Hs H2); lia.
Qed.

(** Removing the block at [d], whose predecessor inherits its link [o]. *)
Fixpoint drop_block (bs : list block) (d o : Z) : list block :=
  match bs with
  | [] => []
  | b :: bs =>
      if b_at b =? d then bs
      else mk_block (b_at b) (b_size b) (if b_old b =? d then o else b_old b) :: drop_block bs d o
  end.

Lemma stack_drop z c bs t b :
  stack z c bs t -> b ∈ bs ->
  stack z (if c =? b_at b then b_old b else c) (drop_block bs (b_at b) (b_old b)) t.
Proof.
  revert c. induction bs as [|b' bs IH]; intros c Hs Hb; [by apply elem_of_nil in Hb|].
  pose proof Hs as (Hl & Hsz & Ho & Hs'). simpl.
  destruct (Z.eqb_spec (b_at b') (b_at b)) as [E|E].
  - assert (b' = b) as -> by (eapply stack_inj; [exact Hs|set_solver..|auto]).
    destruct (Z.eqb_spec c (b_at b)) as [->|]; [done|].
    destruct (link_jump _ _ _ Hl) as [?|Hj]; [done|].
    destruct bs as [|b2 bs]; simpl in *; [apply Hj; apply link_le in Hs'; lia|].
    destruct Hs' as (Hl2 & ? & ? & ?). split_and!; try done. apply Hj. apply link_le in Hl2. lia.
  - assert (b ∈ bs) as Hb' by (apply elem_of_cons in Hb as [->|?]; done).
    pose proof (stack_bounds _ _ _ _ _ Hs' Hb') as Hbd.
    rewrite (proj2 (Z.eqb_neq c (b_at b))) by (apply link_le in Hl; lia).
    specialize (IH _ Hs' Hb'). simpl. split_and!; try done. destruct (Z.eqb_spec (b_old b') (b_at b)); lia.
Qed.

Lemma elem_of_drop_block z c bs t b b' :
  stack z c bs t -> b ∈ bs ->
  b' ∈ drop_block bs (b_at b) (b_old b) <->
  exists b0, b0 ∈ bs /\ b0 <> b /\ b_at b' = b_at b0 /\ b_size b' = b_size b0 /\
    b_old b' = (if b_old b0 =? b_at b then b_old b else b_old b0).
Proof.
  revert c. induction bs as [|b1 bs IH]; intros c Hs Hb; [by apply elem_of_nil in Hb|].
  pose proof Hs as (Hl & Hsz & Ho & Hs'). simpl.
  destruct (Z.eqb_spec (b_at b1) (b_at b)) as [E|E].
  - assert (b1 = b) as -> by (eapply stack_inj; [exact Hs|set_solver..|auto]).
    assert (forall b0, b0 ∈ bs -> b0 <> b /\ b_old b0 <> b_at b) as Hbs.
    { intros b0 Hb0. pose proof (stack_bounds _ _ _ _ _ Hs' Hb0). split; [intros ->|]; lia. }
    split.
    + intros Hb'. exists b'. destruct (Hbs _ Hb') as [? Hne]. rewrite (proj2 (Z.eqb_neq _ _) Hne).
      set_solver.
    + intros (b0 & Hb0 & Hne & E1 & E2 & E3). apply elem_of_cons in Hb0 as [->|Hb0]; [done|].
      destruct (Hbs _ Hb0) as [_ Hne']. rewrite (proj2 (Z.eqb_neq _ _) Hne') in E3.
      destruct b', b0; simpl in *; congruence.
  - assert (b ∈ bs) as Hb' by (apply elem_of_cons in Hb as [->|?]; done).
    rewrite elem_of_cons, (IH _ Hs' Hb'). split.
    + intros [->|(b0 & ? & ?)]; [exists b1|exists b0]; simpl; set_solver.
    + intros (b0 & Hb0 & Hne & E1 & E2 & E3). apply elem_of_cons in Hb0 as [->|Hb0]; [left|right; by exists b0].
      destruct b'; simpl in *; congruence.
Qed.

(** The links the records hold: a block's address and what [cur] was before it. *)
Definition links (l : list pmmalloc_s) : list (Z * Z) :=
  flat_map (fun a => [(data a, olddata a); (info_at a, oldallocdata a)]) l.

Lemma elem_of_links l x o :
  (x, o) ∈ links l <-> exists a, a ∈ l /\ ((x = data a /\ o = olddata a) \/ (x = info_at a /\ o = oldallocdata a)).
Proof.
  unfold links. induction l as [|a l IH]; simpl; [set_solver|].
  rewrite !elem_of_cons, IH. split; [|set_solver].
  intros [H|[H|(a' & ? & ?)]]; [exists a..|exists a']; set_solver.
Qed.

(** When one link leads to [d], [relink] redirects that one. *)
Lemma relink_links l d o :
  NoDup (links l).*1 -> (forall x1 x2, (x1, d) ∈ links l -> (x2, d) ∈ links l -> x1 = x2) ->
  links (relink l d o) = (fun '(x, y) => (x, if y =? d then o else y)) <$> links l.
Proof.
  induction l as [|a l IH]; intros Hnd Hu; [done|].
  change (links (a :: l)) with ((data a, olddata a) :: (info_at a, oldallocdata a) :: links l) in *.
  rewrite !fmap_cons, !NoDup_cons in Hnd. destruct Hnd as (Hn1 & Hn2 & Hnd). simpl in Hn1, Hn2.
  apply not_elem_of_cons in Hn1 as [Hn0 Hn1].
  assert (forall x, (x, d) ∈ links l -> x ∈ (links l).*1) as Hin
    by (intros x Hx; apply list_elem_of_fmap; by exists (x, d)).
  set (full := (data a, olddata a) :: (info_at a, oldallocdata a) :: links l) in *.
  assert ((data a, olddata a) ∈ full) as M1 by (left; done).
  assert ((info_at a, oldallocdata a) ∈ full) as M2 by (right; left; done).
  assert (forall q, q ∈ links l -> q ∈ full) as M3 by (intros q Hq; right; right; done).
  assert (olddata a = d \/ oldallocdata a = d ->
          (fun '(x, y) => (x, if y =? d then o else y)) <$> links l = links l) as Hid.
  { intros Ha. rewrite <- (list_fmap_id (links l)) at 2. apply list_fmap_ext.
    intros i [x y] Hi%list_elem_of_lookup_2. simpl. destruct (Z.eqb_spec y d) as [->|]; [|done].
    exfalso. destruct Ha as [Ha|Ha].
    - rewrite Ha in M1. apply Hn1. rewrite (Hu (data a) x M1 (M3 _ Hi)). auto.
    - rewrite Ha in M2. apply Hn2. rewrite (Hu (info_at a) x M2 (M3 _ Hi)). auto. }
  subst full. cbn [relink]. rewrite !fmap_cons. destruct (Z.eqb_spec (olddata a) d) as [E|E].
  - destruct (Z.eqb_spec (oldallocdata a) d) as [E'|E'].
    { exfalso. apply Hn0, Hu; apply elem_of_cons; [left|right; apply elem_of_cons; left]; congruence. }
    change (links (?x :: l)) with ((data x, olddata x) :: (info_at x, oldallocdata x) :: links l).
    by rewrite Hid by auto.
  - destruct (Z.eqb_spec (oldallocdata a) d) as [E'|E'].
    + change (links (?x :: l)) with ((data x, olddata x) :: (info_at x, oldallocdata x) :: links l).
      by rewrite Hid by auto.
    + change (links (a :: ?x)) with ((data a, olddata a) :: (info_at a, oldallocdata a) :: links x).
      rewrite IH; [done|done|]. intros x1 x2 H1 H2. apply Hu; auto.
Qed.

Lemma relink_same l d o a :
  a ∈ relink l d o -> exists a0, a0 ∈ l /\ data a = data a0 /\ info_at a = info_at a0.
Proof.
  induction l as [|a1 l IH]; simpl; [by intros ?%elem_of_nil|].
  repeat case_test; rewrite elem_of_cons; intros [->|H];
    try (exists a1; split; [left|done]); try (exists a; split; [by right|done]).
  destruct (IH H) as (a0 & ? & ?). exists a0. split; [by right|done].
Qed.

Definition layout : Type := zone -> list block.

Section Layout.
(** The address ranges the zones keep to. *)
Context (lo hi : zone -> Z).
Context (Hrange : forall z, 0 <= lo z /\ hi z < 2 ^ 32).
Context (Hdisj : forall z z', z <> z' -> hi z <= lo z' \/ hi z' <= lo z).

Definition zone_ok (z : zone) (v : zone_s) : Prop :=
  lo z <= bottom v /\ bottom v <= cur v /\ cur v <= top v /\ top v <= hi z /\ (bottom v = 0 -> top v = 0).

(** [pend] are blocks whose record is already unlinked. *)
Record inv (s : pmm) (lay : layout) (pend : list (Z * Z)) : Prop := {
  inv_zone z : zone_ok z (zones s z);
  inv_stack z : stack z (cur (zones s z)) (lay z) (top (zones s z));
  inv_links x o : (x, o) ∈ pend ++ links (PMMAllocs s) <->
                  exists z b, b ∈ lay z /\ b_at b = x /\ b_old b = o;
  inv_nodup : NoDup (pend ++ links (PMMAllocs s)).*1;
  inv_order a z b1 b2 : a ∈ PMMAllocs s -> b1 ∈ lay z -> b2 ∈ lay z ->
    b_at b1 = data a -> b_at b2 = info_at a -> data a < info_at a }.

Lemma inv_block s lay pend z b :
  inv s lay pend -> b ∈ lay z ->
  lo z <= bottom (zones s z) <= cur (zones s z) /\ cur (zones s z) <= b_at b /\ 0 < b_at b /\
  0 < b_size b /\ b_at b + b_size b <= b_old b <= top (zones s z) /\ top (zones s z) <= hi z.
Proof using Hrange.
  intros Hi Hb. destruct (inv_zone _ _ _ Hi z) as (? & ? & ? & ? & H0).
  pose proof (stack_bounds _ _ _ _ _ (inv_stack _ _ _ Hi z) Hb). destruct (Hrange z). lia.
Qed.

Lemma inv_block_inj s lay pend z z' b b' :
  inv s lay pend -> b ∈ lay z -> b' ∈ lay z' -> b_at b = b_at b' -> z = z' /\ b = b'.
Proof using Hrange Hdisj.
  intros Hi Hb Hb' E. pose proof (inv_block _ _ _ _ _ Hi Hb). pose proof (inv_block _ _ _ _ _ Hi Hb').
  destruct (decide (z = z')) as [<-|Hne]; [|destruct (Hdisj _ _ Hne); lia].
  split; [done|]. eapply stack_inj; [apply (inv_stack _ _ _ Hi z)|done..|auto].
Qed.

Lemma zone_find_block s lay pend z b :
  inv s lay pend -> b ∈ lay z -> zone_find s (b_at b) = Some z.
Proof using Hrange Hdisj.
  intros Hi Hb. pose proof (inv_block _ _ _ _ _ Hi Hb) as Hbd. unfold zone_find.
  destruct (list_find _ Zones) as [[i z']|] eqn:E; simpl.
  - apply list_find_Some in E as (_ & Hz' & _). f_equal.
    destruct (decide (z' = z)) as [|Hne]; [done|].
    destruct (inv_zone _ _ _ Hi z') as (? & ? & ? & ? & _). destruct (Hdisj _ _ Hne); lia.
  - apply list_find_None in E. rewrite Forall_forall in E. exfalso. apply (E z); [|lia].
    unfold Zones. destruct z; set_solver.
Qed.

(** A link that leads to a block in the middle of a zone comes from that zone. *)
Lemma inv_link_zone s lay pend z z' b b' :
  inv s lay pend -> b ∈ lay z -> cur (zones s z) <> b_at b -> b' ∈ lay z' -> b_old b' = b_at b -> z' = z.
Proof using Hrange Hdisj.
  intros Hi Hb Hc Hb' E. pose proof (inv_block _ _ _ _ _ Hi Hb). pose proof (inv_block _ _ _ _ _ Hi Hb').
  destruct (decide (z' = z)) as [|Hne]; [done|]. destruct (Hdisj _ _ Hne); lia.
Qed.

Definition remove_block (lay : layout) (z : zone) (b : block) : layout :=
  fun y => if decide (y = z) then drop_block (lay z) (b_at b) (b_old b) else lay y.

(** What is left after a removal. *)
Lemma elem_of_remove s lay pend z b y b' :
  inv s lay pend -> b ∈ lay z ->
  b' ∈ remove_block lay z b y <->
  exists b0, b0 ∈ lay y /\ b_at b0 <> b_at b /\ b_at b' = b_at b0 /\ b_size b' = b_size b0 /\
    b_old b' = (if decide (y = z /\ b_old b0 = b_at b) then b_old b else b_old b0).
Proof using Hrange Hdisj.
  intros Hi Hb. unfold remove_block. destruct (decide (y = z)) as [->|Hne].
  - rewrite (elem_of_drop_block _ _ _ _ _ _ (inv_stack _ _ _ Hi z) Hb).
    assert (forall b0, b0 ∈ lay z -> (b0 <> b <-> b_at b0 <> b_at b)) as Hneq.
    { intros b0 Hb0. split; [|congruence]. intros Hn E. apply Hn. by eapply inv_block_inj. }
    split; intros (b0 & H0 & H1 & H2 & H3 & H4); exists b0; split_and!; try done; try (by apply Hneq).
    + rewrite H4. destruct (Z.eqb_spec (b_old b0) (b_at b)), (decide _); tauto || done.
    + rewrite H4. destruct (Z.eqb_spec (b_old b0) (b_at b)), (decide _); tauto || done.
  - split.
    + intros Hb'. exists b'. split_and!; try done.
      * intros E. apply Hne. by eapply inv_block_inj.
      * destruct (decide _); [tauto|done].
    + intros (b0 & H0 & _ & H2 & H3 & H4). destruct (decide _); [tauto|].
      replace b' with b0; [done|]. destruct b', b0; simpl in *; congruence.
Qed.

(** The blocks by address and size. *)
Definition has_block (lay : layout) (d n : Z) : Prop := exists z b, b ∈ lay z /\ b_at b = d /\ b_size b = n.

Lemma has_block_remove s lay pend z b d n :
  inv s lay pend -> b ∈ lay z ->
  has_block (remove_block lay z b) d n <-> has_block lay d n /\ d <> b_at b.
Proof using Hrange Hdisj.
  intros Hi Hb. unfold has_block. setoid_rewrite (elem_of_remove _ _ _ _ _ _ _ Hi Hb). split.
  - intros (y & b' & (b0 & H0 & H1 & H2 & H3 & H4) & <- & <-).
    split; [|congruence]. exists y, b0. by rewrite H2, H3.
  - intros [(y & b0 & H0 & <- & <-) Hne].
    exists y, (mk_block (b_at b0) (b_size b0)
      (if decide (y = z /\ b_old b0 = b_at b) then b_old b else b_old b0)). simpl. eauto 10.
Qed.

(** The head of the pending list is freed: [cur] was at the block. *)
Lemma inv_free_cur s lay pend z b :
  inv s lay ((b_at b, b_old b) :: pend) -> b ∈ lay z -> cur (zones s z) = b_at b ->
  inv (set_zone s z (set_cur (zones s z) (b_old b))) (remove_block lay z b) pend.
Proof using Hrange Hdisj.
  intros Hi Hb Hc. pose proof (inv_block _ _ _ _ _ Hi Hb) as Hbd.
  pose proof (inv_nodup _ _ _ Hi) as Hnd. rewrite <- app_comm_cons, fmap_cons, NoDup_cons in Hnd.
  destruct Hnd as [Hnin Hnd]. simpl in Hnin.
  assert (forall b0, b0 ∈ lay z -> b_old b0 <> b_at b) as Hold.
  { intros b0 Hb0. pose proof (inv_block _ _ _ _ _ Hi Hb0). lia. }
  constructor; simpl.
  - intros y. pose proof (inv_zone _ _ _ Hi y) as Hz. case_decide; [subst|done].
    unfold zone_ok in *. simpl. lia.
  - intros y. pose proof (inv_stack _ _ _ Hi y) as Hs. unfold remove_block. case_decide; [subst|done].
    simpl. pose proof (stack_drop _ _ _ _ _ Hs Hb) as Hs'. by rewrite Hc, Z.eqb_refl in Hs'.
  - intros x o. split.
    + intros Hx. assert (x <> b_at b) as Hne.
      { intros ->. apply Hnin. apply list_elem_of_fmap. by exists (b_at b, o). }
      destruct (proj1 (inv_links _ _ _ Hi x o)) as (y & b0 & Hb0 & <- & <-); [by right|].
      exists y, b0. split; [|done]. apply (elem_of_remove _ _ _ _ _ _ _ Hi Hb). exists b0.
      destruct (decide _) as [[-> ?]|]; [by destruct (Hold b0)|done].
    + intros (y & b' & Hb' & <- & <-). apply (elem_of_remove _ _ _ _ _ _ _ Hi Hb) in Hb' as (b0 & H0 & H1 & H2 & _ & H4).
      assert (b_old b' = b_old b0) as E by (destruct (decide _) as [[-> ?]|]; [by destruct (Hold b0)|done]).
      rewrite H2, E.
      assert ((b_at b0, b_old b0) ∈ ((b_at b, b_old b) :: pend) ++ links (PMMAllocs s)) as Hin
        by (apply (inv_links _ _ _ Hi); eauto).
      apply elem_of_cons in Hin as [?|?]; [congruence|done].
  - done.
  - intros a y b1 b2 Ha H1 H2 E1 E2.
    apply (elem_of_remove _ _ _ _ _ _ _ Hi Hb) in H1 as (c1 & H1 & _ & F1 & _).
    apply (elem_of_remove _ _ _ _ _ _ _ Hi Hb) in H2 as (c2 & H2 & _ & F2 & _).
    apply (inv_order _ _ _ Hi a y c1 c2); congruence.
Qed.

(** It was in the middle, and no other pending block links to it. *)
Lemma inv_free_mid s lay pend z b :
  inv s lay ((b_at b, b_old b) :: pend) -> b ∈ lay z -> cur (zones s z) <> b_at b ->
  (forall y o, (y, o) ∈ pend -> o <> b_at b) ->
  inv (set_allocs s (relink (PMMAllocs s) (b_at b) (b_old b))) (remove_block lay z b) pend.
Proof using Hrange Hdisj.
  intros Hi Hb Hc Hp. pose proof (inv_block _ _ _ _ _ Hi Hb) as Hbd.
  pose proof (inv_nodup _ _ _ Hi) as Hnd. rewrite <- app_comm_cons, fmap_cons, NoDup_cons in Hnd.
  destruct Hnd as [Hnin Hnd]. simpl in Hnin.
  pose proof Hnd as Hnd'. rewrite fmap_app, NoDup_app in Hnd'. destruct Hnd' as (_ & _ & Hndl).
  set (f := fun '(x, y) => (x, if y =? b_at b then b_old b else y) : Z * Z).
  assert (pend ++ links (relink (PMMAllocs s) (b_at b) (b_old b)) = f <$> (pend ++ links (PMMAllocs s))) as El.
  { rewrite relink_links; [|done|].
    - rewrite fmap_app. f_equal. rewrite <- (list_fmap_id pend) at 1. apply list_fmap_ext.
      intros i [y o] Hl%list_elem_of_lookup_2. unfold f. simpl.
      by rewrite (proj2 (Z.eqb_neq _ _) (Hp _ _ Hl)).
    - intros x1 x2 H1 H2.
      destruct (proj1 (inv_links _ _ _ Hi x1 (b_at b))) as (y1 & b1 & Hb1 & <- & E1); [right; apply elem_of_app; by right|].
      destruct (proj1 (inv_links _ _ _ Hi x2 (b_at b))) as (y2 & b2 & Hb2 & <- & E2); [right; apply elem_of_app; by right|].
      pose proof (inv_link_zone _ _ _ _ _ _ _ Hi Hb Hc Hb1 E1) as ->.
      pose proof (inv_link_zone _ _ _ _ _ _ _ Hi Hb Hc Hb2 E2) as ->.
      f_equal. eapply stack_inj; [apply (inv_stack _ _ _ Hi z)|done..|right; congruence]. }
  constructor; simpl.
  - apply (inv_zone _ _ _ Hi).
  - intros y. pose proof (inv_stack _ _ _ Hi y) as Hs. unfold remove_block. case_decide; [subst|done].
    pose proof (stack_drop _ _ _ _ _ Hs Hb) as Hs'. by rewrite (proj2 (Z.eqb_neq _ _) Hc) in Hs'.
  - intros x o. rewrite El, list_elem_of_fmap. split.
    + intros ([x0 o0] & E & Hx). unfold f in E. injection E as -> ->.
      assert (x0 <> b_at b) as Hne.
      { intros ->. apply Hnin. apply list_elem_of_fmap. by exists (b_at b, o0). }
      destruct (proj1 (inv_links _ _ _ Hi x0 o0)) as (y & b0 & Hb0 & <- & <-); [by right|].
      exists y, (mk_block (b_at b0) (b_size b0) (if b_old b0 =? b_at b then b_old b else b_old b0)).
      split; [|done]. apply (elem_of_remove _ _ _ _ _ _ _ Hi Hb). exists b0. split_and!; try done. simpl.
      destruct (Z.eqb_spec (b_old b0) (b_at b)) as [E|E], (decide _) as [[H1 H2]|Hn]; try done.
      exfalso. apply Hn. split; [|done]. by eapply (inv_link_zone _ _ _ _ _ _ _ Hi Hb).
    + intros (y & b' & Hb' & <- & <-). apply (elem_of_remove _ _ _ _ _ _ _ Hi Hb) in Hb' as (b0 & H0 & H1 & H2 & _ & H4).
      exists (b_at b0, b_old b0). split.
      * unfold f. rewrite H2, H4. f_equal.
        destruct (Z.eqb_spec (b_old b0) (b_at b)) as [E|E], (decide _) as [[? ?]|Hn]; try done.
        exfalso. apply Hn. split; [|done]. by eapply (inv_link_zone _ _ _ _ _ _ _ Hi Hb).
      * assert ((b_at b0, b_old b0) ∈ ((b_at b, b_old b) :: pend) ++ links (PMMAllocs s)) as Hin
          by (apply (inv_links _ _ _ Hi); eauto).
        apply elem_of_cons in Hin as [?|?]; [congruence|done].
  - rewrite El, <- list_fmap_compose.
    replace (fst ∘ f <$> pend ++ links (PMMAllocs s)) with (pend ++ links (PMMAllocs s)).*1; [done|].
    apply list_fmap_ext. by intros i [x y] _.
  - intros a y b1 b2 Ha H1 H2 E1 E2. apply relink_same in Ha as (a0 & Ha & F & G).
    apply (elem_of_remove _ _ _ _ _ _ _ Hi Hb) in H1 as (c1 & H1 & _ & F1 & _).
    apply (elem_of_remove _ _ _ _ _ _ _ Hi Hb) in H2 as (c2 & H2 & _ & F2 & _).
    rewrite F, G. apply (inv_order _ _ _ Hi a0 y c1 c2); congruence.
Qed.

Lemma inv_free_data s lay pend z b :
  inv s lay ((b_at b, b_old b) :: pend) -> b ∈ lay z ->
  (cur (zones s z) <> b_at b -> forall y o, (y, o) ∈ pend -> o <> b_at b) ->
  inv (pmm_free_data s (b_at b) (b_old b)) (remove_block lay z b) pend.
Proof using Hrange Hdisj.
  intros Hi Hb Hp. pose proof (inv_block _ _ _ _ _ Hi Hb) as Hbd.
  unfold pmm_free_data, zone_free. rewrite (zone_find_block _ _ _ _ _ Hi Hb).
  rewrite (proj2 (Z.eqb_neq (b_at b) 0)) by lia. simpl.
  destruct (Z.eqb_spec (cur (zones s z)) (b_at b)) as [E|E]; simpl.
  - by apply inv_free_cur.
  - apply inv_free_mid; [done..|exact (Hp E)].
Qed.

Lemma unlink_spec l d a l' :
  unlink l d = Some (a, l') ->
  data a = d /\ a ∈ l /\ links l ≡ₚ [(data a, olddata a); (info_at a, oldallocdata a)] ++ links l' /\
  data <$> l ≡ₚ d :: (data <$> l') /\ (forall a', a' ∈ l' -> a' ∈ l).
Proof using.
  clear. revert l'. induction l as [|a0 l IH]; intros l' E; simpl in E; [done|].
  destruct (Z.eqb_spec (data a0) d) as [<-|Hne].
  - simplify_eq. split_and!; try done; [set_solver|]. intros. by right.
  - destruct (unlink l d) as [[b l1]|]; [|done]. simplify_eq.
    destruct (IH l1 eq_refl) as (<- & Ha & Hl & Hd & Hs). split_and!; [done|by right| | |].
    + simpl. rewrite Hl. simpl. solve_Permutation.
    + simpl. rewrite Hd. solve_Permutation.
    + intros a' [->|?]%elem_of_cons; [by left|right; auto].
Qed.

Lemma unlink_none l d : unlink l d = None -> d ∉ data <$> l.
Proof using.
  clear. induction l as [|a l IH]; simpl; [intros _ []%elem_of_nil|].
  destruct (Z.eqb_spec (data a) d) as [|Hne]; [done|]. destruct (unlink l d) as [[]|]; [done|].
  intros H. specialize (IH H). set_solver.
Qed.

Lemma inv_unlink s lay a l' d :
  inv s lay [] -> unlink (PMMAllocs s) d = Some (a, l') ->
  inv (set_allocs s l') lay [(data a, olddata a); (info_at a, oldallocdata a)].
Proof using.
  intros Hi (_ & _ & Hp & _ & Hs)%unlink_spec. constructor; simpl.
  - apply (inv_zone _ _ _ Hi).
  - apply (inv_stack _ _ _ Hi).
  - intros x o. rewrite <- (inv_links _ _ _ Hi x o). simpl. by rewrite Hp.
  - pose proof (inv_nodup _ _ _ Hi) as Hnd. simpl in Hnd. by rewrite Hp in Hnd.
  - intros a' z b1 b2 Ha. apply (inv_order _ _ _ Hi). auto.
Qed.

Lemma relink_data l d o : data <$> relink l d o = data <$> l.
Proof using.
  clear. induction l as [|a l IH]; cbn [relink]; [done|].
  repeat case_test; rewrite !fmap_cons; [done..|by rewrite IH].
Qed.

Lemma pmm_free_data_records s d o : data <$> PMMAllocs (pmm_free_data s d o) = data <$> PMMAllocs s.
Proof using.
  clear. unfold pmm_free_data, zone_free. destruct (zone_find s d) as [z|]; simpl; [|apply relink_data].
  destruct ((d =? 0) || negb (cur (zones s z) =? d)); simpl; [apply relink_data|done].
Qed.

(** [pmm_free] of a live block removes that block and its record. *)
Lemma inv_pmm_free s lay d :
  inv s lay [] ->
  (d ∉ data <$> PMMAllocs s /\ pmm_free s d = (s, -1)) \/
  (exists s' lay' info, pmm_free s d = (s', 0) /\ inv s' lay' [] /\
     data <$> PMMAllocs s ≡ₚ d :: (data <$> PMMAllocs s') /\
     (exists a, a ∈ PMMAllocs s /\ data a = d /\ info_at a = info) /\
     forall x n, has_block lay' x n <-> has_block lay x n /\ x <> d /\ x <> info).
Proof using Hrange Hdisj.
  intros Hi. unfold pmm_free. destruct (unlink (PMMAllocs s) d) as [[a l']|] eqn:E.
  2: { left. split; [by apply unlink_none|done]. }
  right. pose proof (inv_unlink _ _ _ _ _ Hi E) as Hi1.
  apply unlink_spec in E as (<- & Ha & Hp & Hdl & _).
  destruct (proj1 (inv_links _ _ _ Hi1 (data a) (olddata a))) as (z & b & Hb & Eb & Eo); [left|].
  destruct (proj1 (inv_links _ _ _ Hi1 (info_at a) (oldallocdata a))) as (zi & bi & Hbi & Ebi & Eoi);
    [right; left|].
  pose proof (inv_nodup _ _ _ Hi1) as Hnd. simpl in Hnd. apply NoDup_cons in Hnd as [Hnd _].
  apply not_elem_of_cons in Hnd as [Hne _].
  rewrite <- Eb, <- Eo, <- Ebi, <- Eoi in Hi1.
  assert (inv (pmm_free_data (set_allocs s l') (data a) (olddata a)) (remove_block lay z b)
            [(b_at bi, b_old bi)]) as Hi2.
  { rewrite <- Eb, <- Eo. apply inv_free_data; [done|done|].
    intros Hc y o [= -> ->]%list_elem_of_singleton Eold.
    pose proof (inv_link_zone _ _ _ _ _ _ _ Hi1 Hb Hc Hbi Eold) as ->.
    pose proof (inv_order _ _ _ Hi a z b bi Ha Hb Hbi Eb Ebi).
    pose proof (inv_block _ _ _ _ _ Hi Hbi). lia. }
  assert (exists bi', bi' ∈ remove_block lay z b zi /\ b_at bi' = info_at a /\ b_old bi' = b_old bi)
    as (bi' & Hbi' & Ebi' & Eoi').
  { destruct (proj1 (inv_links _ _ _ Hi2 (b_at bi) (b_old bi))) as (y & b' & Hb' & E1 & E2); [left|].
    pose proof Hb' as Hb''. apply (elem_of_remove _ _ _ _ _ _ _ Hi1 Hb) in Hb' as (b0 & H0 & _ & H2 & _).
    assert (y = zi) as -> by (eapply (inv_block_inj s lay [] y zi b0 bi); [done..|congruence]).
    exists b'. split_and!; [done|congruence|done]. }
  rewrite Ebi, <- Ebi', <- Eoi' in Hi2.
  eexists _, (remove_block (remove_block lay z b) zi bi'), (info_at a). split; [done|]. split_and!.
  - rewrite <- Ebi', <- Eoi, <- Eoi'. apply inv_free_data; [done|done|by intros _ y o ?%elem_of_nil].
  - by rewrite !pmm_free_data_records.
  - by exists a.
  - intros x n. rewrite (has_block_remove _ _ _ _ _ _ _ Hi2 Hbi'), (has_block_remove _ _ _ _ _ _ _ Hi1 Hb).
    rewrite Eb, Ebi'. tauto.
Qed.

(** A request whose size and alignment cannot wrap around. *)
Definition fits (size k : Z) : Prop := 0 < size /\ 0 <= k <= 31 /\ size + 2 ^ k <= 2 ^ 32.

Lemma zone_malloc_spec s z size k s' d :
  zone_ok z (zones s z) -> fits size k -> zone_malloc s z size (2 ^ k) = (s', d) ->
  (d = 0 /\ s' = s) \/
  (0 < d /\ bottom (zones s z) <= d /\ d + size <= cur (zones s z) /\ d mod 2 ^ k = 0 /\
   s' = set_zone s z (set_cur (zones s z) d)).
Proof using Hrange.
  intros (Hlo & Hbc & Hct & Hhi & H0) (Hsz & Hk & Hfit) E. unfold zone_malloc in E.
  pose proof (Hrange z) as Hr. assert (0 < 2 ^ k) as Hpk by (apply Z.pow_pos_nonneg; lia).
  assert (ALIGN_DOWN (cur (zones s z) - size) (2 ^ k) =
          u32 (cur (zones s z) - size) - u32 (cur (zones s z) - size) mod 2 ^ k) as Ea.
  { unfold ALIGN_DOWN. apply land_lnot_ones; [apply (wrap_range 32); lia|lia]. }
  rewrite Ea in E. set (x := u32 (cur (zones s z) - size)) in *.
  pose proof (Z.mod_pos_bound x (2 ^ k) Hpk) as Hm.
  assert ((x = cur (zones s z) - size /\ size <= cur (zones s z)) \/ x = cur (zones s z) - size + 2 ^ 32) as Hx.
  { subst x. destruct (Z.le_gt_cases size (cur (zones s z))).
    - left. rewrite wrap_small by (unfold in_u; lia). done.
    - right. unfold wrap. replace (cur (zones s z) - size) with ((cur (zones s z) - size + 2 ^ 32) + (-1) * 2 ^ 32) at 1 by lia.
      rewrite Z.mod_add by lia. apply Z.mod_small. lia. }
  destruct (_ || _) eqn:Eb; simplify_eq; [by left|]. bool_to_prop.
  right. destruct Hx as [[Hx Hx']|Hx]; [|lia]. split_and!; try done; try lia.
  rewrite Zminus_mod, Z.mod_mod, Z.sub_diag by lia. done.
Qed.

Definition push_block (lay : layout) (z : zone) (b : block) : layout :=
  fun y => if decide (y = z) then b :: lay z else lay y.

Lemma elem_of_push lay z b y b' :
  b' ∈ push_block lay z b y <-> (y = z /\ b' = b) \/ b' ∈ lay y.
Proof using.
  unfold push_block. case_decide; [subst; rewrite elem_of_cons; tauto|tauto].
Qed.

Lemma has_block_push lay z b d n :
  has_block (push_block lay z b) d n <-> (d = b_at b /\ n = b_size b) \/ has_block lay d n.
Proof using.
  unfold has_block. setoid_rewrite elem_of_push. split.
  - intros (y & b' & [[-> ->]|H] & <- & <-); [by left|right; eauto].
  - intros [[-> ->]|(y & b' & H & <- & <-)]; [exists z, b|exists y, b']; auto.
Qed.

(** A new block is below every block of its zone and so unlike all others. *)
Lemma inv_fresh s lay pend z d n :
  inv s lay pend -> bottom (zones s z) <= d -> 0 < n -> d + n <= cur (zones s z) ->
  forall y b, b ∈ lay y -> b_at b <> d.
Proof using Hrange Hdisj.
  intros Hi Hd Hn Hc y b Hb E. pose proof (inv_block _ _ _ _ _ Hi Hb).
  pose proof (inv_zone _ _ _ Hi z) as (? & ? & ? & ? & _).
  destruct (decide (y = z)) as [->|Hne]; [lia|]. destruct (Hdisj _ _ Hne); lia.
Qed.

Lemma inv_push s lay pend z d n :
  inv s lay pend -> 0 < d -> bottom (zones s z) <= d -> 0 < n -> d + n <= cur (zones s z) ->
  inv (set_zone s z (set_cur (zones s z) d)) (push_block lay z (mk_block d n (cur (zones s z))))
    ((d, cur (zones s z)) :: pend).
Proof using Hrange Hdisj.
  intros Hi H0 Hd Hn Hc. pose proof (inv_fresh _ _ _ _ _ _ Hi Hd Hn Hc) as Hf.
  constructor; simpl.
  - intros y. pose proof (inv_zone _ _ _ Hi y) as Hz. case_decide; [subst|done].
    unfold zone_ok in *. simpl. lia.
  - intros y. pose proof (inv_stack _ _ _ Hi y) as Hs. unfold push_block. case_decide; [subst|done].
    simpl. split_and!; [destruct z; simpl; lia|done|lia|done].
  - intros x o. rewrite elem_of_cons, (inv_links _ _ _ Hi x o). setoid_rewrite elem_of_push. split.
    + intros [[= -> ->]|(y & b & Hb & <- & <-)]; [eexists z, _; split; [by left|done]|exists y, b; split; [by right|done]].
    + intros (y & b & [[-> ->]|Hb] & <- & <-); [by left|right; by exists y, b].
  - apply NoDup_cons. split; [|apply (inv_nodup _ _ _ Hi)].
    intros ([x o] & E & Hx)%list_elem_of_fmap. simpl in E. subst x.
    apply (inv_links _ _ _ Hi) in Hx as (y & b & Hb & E & _). by apply (Hf y b).
  - intros a y b1 b2 Ha H1 H2 E1 E2.
    assert (forall x, x = data a \/ x = info_at a -> x <> d) as Hold.
    { intros x Hx ->. assert (exists o, (d, o) ∈ pend ++ links (PMMAllocs s)) as [o Ho].
      { destruct Hx as [->| ->]; eexists; apply elem_of_app; right; apply elem_of_links; exists a; eauto. }
      apply (inv_links _ _ _ Hi) in Ho as (y' & b & Hb & E & _). by apply (Hf y' b). }
    apply elem_of_push in H1 as [[_ ->]|H1]; [by destruct (Hold d); auto|].
    apply elem_of_push in H2 as [[_ ->]|H2]; [by destruct (Hold d); auto|].
    by apply (inv_order _ _ _ Hi a y b1 b2).
Qed.

(** Linking the record of two pending blocks. *)
Lemma inv_link_record s lay a z zi b bi :
  inv s lay [(data a, olddata a); (info_at a, oldallocdata a)] ->
  b ∈ lay z -> bi ∈ lay zi -> b_at b = data a -> b_at bi = info_at a -> (z = zi -> data a < info_at a) ->
  inv (set_allocs s (a :: PMMAllocs s)) lay [].
Proof using Hrange Hdisj.
  intros Hi Hb Hbi Eb Ebi Ho. constructor; simpl.
  - apply (inv_zone _ _ _ Hi).
  - apply (inv_stack _ _ _ Hi).
  - apply (inv_links _ _ _ Hi).
  - apply (inv_nodup _ _ _ Hi).
  - intros a' y b1 b2 [->|Ha]%elem_of_cons H1 H2 E1 E2; [|by apply (inv_order _ _ _ Hi a' y b1 b2)].
    destruct (inv_block_inj _ _ _ _ _ b1 b Hi H1 Hb) as [-> _]; [congruence|].
    destruct (inv_block_inj _ _ _ _ _ b2 bi Hi H2 Hbi) as [<- _]; [congruence|]. auto.
Qed.

Context (Hlow : lo ZoneLow <= BUILD_EBDA_MINIMUM /\ hi ZoneLow <= BUILD_LOWRAM_END).

Definition ebda_at (s : pmm) : Z := ebda_seg s * 16.
Definition ebda_len (s : pmm) : Z := pmem s (ebda_at s) * 1024.

(** The extended BIOS data area is in low memory, below [ZoneLow]. *)
Definition ebda_ok (s : pmm) : Prop :=
  bytes (pmem s) /\ 0 <= ebda_seg s < 2 ^ 16 /\ 0 < ebda_len s /\
  BUILD_EBDA_MINIMUM <= ebda_at s /\ ebda_at s + ebda_len s <= bottom (zones s ZoneLow).

Lemma ALIGN_DOWN_1024 x : 0 <= x < 2 ^ 32 -> ALIGN_DOWN x 1024 = x - x mod 1024.
Proof using. intros. change 1024 with (2 ^ 10). apply ALIGN_DOWN_pow2; lia. Qed.

(** Moving the area to [n], the new position. *)
Lemma relocate_ebda_spec s n pos len :
  pos = ebda_at s -> len = pmem s pos -> bytes (pmem s) -> 0 < len ->
  0 <= n < 2 ^ 20 -> n mod 1024 = 0 ->
  exists s' r, relocate_ebda s n pos len = (s', r) /\
  ((r = -1 /\ s' = s) \/
   (r = 0 /\ zones s' = zones s /\ PMMAllocs s' = PMMAllocs s /\ ebda_at s' = n /\
    0 <= ebda_seg s' < 2 ^ 16 /\ bytes (pmem s') /\
    forall i, 0 <= i < len * 1024 -> pmem s' (n + i) = pmem s (pos + i))).
Proof using.
  clear. intros Hpos Hlen Hb Hl Hn Hal. unfold relocate_ebda.
  destruct (negb (pos =? u32 (mem_size_kb s * 1024))); [by eexists _, _; split; [done|left]|].
  eexists _, _. split; [done|]. right. simpl. unfold ebda_at. simpl. unfold FLATPTR_TO_SEG.
  rewrite Z.shiftr_div_pow2 by lia. change (2 ^ 4) with 16.
  assert (n = 16 * (n / 16)) as E16.
  { pose proof (Z.div_mod n 1024). pose proof (Z.div_mod n 16).
    assert (n mod 16 = 0); [|lia]. replace n with (64 * (n / 1024) * 16) by lia. apply Z.mod_mul. lia. }
  assert (0 <= n / 16 < 2 ^ 16) as Hq by lia.
  rewrite wrap_small by (unfold in_u; lia).
  split_and!; try done; try lia.
  - intros a. rewrite memmove_spec by (done || lia). unfold copied. case_test; apply Hb.
  - intros i Hi. rewrite memmove_spec by (done || lia). unfold copied. addr_cases; try lia. f_equal. lia.
Qed.

(** [zonelow_expand] either changes nothing or moves the extended BIOS data area down,
    with its contents, and gives the room to [ZoneLow]. *)
Lemma zonelow_expand_spec s size k :
  zone_ok ZoneLow (zones s ZoneLow) -> ebda_ok s -> 0 < size -> 0 <= k <= 31 ->
  size + 2 ^ k <= 0x40000 ->
  let s' := zonelow_expand s [] size (2 ^ k) in
  s' = s \/
  (PMMAllocs s' = PMMAllocs s /\ ebda_ok s' /\
   (forall z, z <> ZoneLow -> zones s' z = zones s z) /\
   top (zones s' ZoneLow) = top (zones s ZoneLow) /\
   BUILD_EBDA_MINIMUM <= bottom (zones s' ZoneLow) <= cur (zones s' ZoneLow) /\
   cur (zones s' ZoneLow) <= cur (zones s ZoneLow) /\
   ebda_len s' = ebda_len s /\
   forall i, 0 <= i < ebda_len s -> pmem s' (ebda_at s' + i) = pmem s (ebda_at s + i)).
Proof using Hlow.
  intros Hz (Hb & Hseg & Hlen & Hmin & Hend) Hsz Hk Hfit s'. subst s'.
  unfold zone_ok in Hz. unfold BUILD_EBDA_MINIMUM, BUILD_LOWRAM_END in *.
  cbn [zonelow_expand]. set (zl := zones s ZoneLow) in *.
  destruct ((bottom zl <=? ALIGN_DOWN (cur zl - size) (2 ^ k)) && _); [by left|].
  assert (MAKE_FLATPTR (ebda_seg s) 0 = ebda_at s) as Ep.
  { unfold MAKE_FLATPTR, ebda_at. rewrite Z.shiftl_mul_pow2 by lia. change (2 ^ 4) with 16.
    rewrite Z.add_0_r. apply wrap_small. unfold in_u. lia. }
  rewrite Ep. pose proof (Hb (ebda_at s)) as Hb8. unfold in_u in Hb8.
  fold (ebda_len s).
  rewrite (wrap_small 32 (ebda_at s + _)) by (unfold in_u, ebda_len in *; lia).
  (* the block the data area makes room for ends at [p] *)
  assert (exists p, (if negb (ebda_at s + ebda_len s =? bottom zl)
            then (ebda_at s + ebda_len s, ALIGN_DOWN (ebda_at s + ebda_len s - size) (2 ^ k))
            else (cur zl, ALIGN_DOWN (cur zl - size) (2 ^ k))) = (p, ALIGN_DOWN (p - size) (2 ^ k)) /\
          0x90000 <= p <= cur zl) as (p & -> & Hp).
  { destruct (negb _); eexists; (split; [done|]); lia. }
  assert (0 < 2 ^ k) as Hpk by (apply Z.pow_pos_nonneg; lia).
  rewrite ALIGN_DOWN_pow2 by lia. set (np := p - size - (p - size) mod 2 ^ k).
  pose proof (Z.mod_pos_bound (p - size) (2 ^ k) Hpk) as Hmod.
  assert (0x50000 <= np <= p - size) as Hnp by (unfold np; lia).
  rewrite (ALIGN_DOWN_1024 np) by lia. set (nb := np - np mod 1024).
  pose proof (Z.mod_pos_bound np 1024) as Hmod2.
  assert (nb mod 1024 = 0) as Hnb by (unfold nb; rewrite Zminus_mod, Z.mod_mod, Z.sub_diag by lia; done).
  assert (np - 1024 < nb <= np) as Hnb' by (unfold nb; lia).
  assert ((nb - ebda_len s) mod 1024 = 0) as Hne.
  { unfold ebda_len. rewrite Zminus_mod, Hnb, Z.mod_mul by lia. done. }
  rewrite ALIGN_DOWN_1024, Hne, Z.sub_0_r by (unfold ebda_len in *; lia).
  destruct (Z.ltb_spec (nb - ebda_len s) BUILD_EBDA_MINIMUM) as [|Hge]; [by left|].
  unfold BUILD_EBDA_MINIMUM in *.
  destruct (relocate_ebda_spec s (nb - ebda_len s) (ebda_at s) (pmem s (ebda_at s)))
    as (s' & r & -> & Hr); [done..|unfold ebda_len in *; lia|unfold ebda_len in *; lia|done|].
  destruct Hr as [[-> ->]|(-> & Hzo & Hal & He & Hseg' & Hb' & Hm)]; [by left|right]. cbn [negb Z.eqb].
  assert (ebda_len s' = ebda_len s) as El.
  { unfold ebda_len at 1. rewrite He. rewrite <- (Z.add_0_r (nb - ebda_len s)), Hm, Z.add_0_r; [done|].
    unfold ebda_len in *. lia. }
  unfold ebda_ok, BUILD_EBDA_MINIMUM. simpl.
  change (ebda_at (set_zone s' _ _)) with (ebda_at s').
  change (ebda_len (set_zone s' _ _)) with (ebda_len s').
  rewrite El, He, Hzo. simpl. fold zl. split_and!; try done; try lia.
  intros z Hz'. by destruct (decide (z = ZoneLow)).
Qed.

Lemma inv_expand s lay pend size k :
  inv s lay pend -> ebda_ok s -> 0 < size -> 0 <= k <= 31 -> size + 2 ^ k <= 0x40000 ->
  inv (zonelow_expand s [] size (2 ^ k)) lay pend /\ ebda_ok (zonelow_expand s [] size (2 ^ k)) /\
  forall z, z <> ZoneLow -> zones (zonelow_expand s [] size (2 ^ k)) z = zones s z.
Proof using Hlow Hrange.
  intros Hi He Hsz Hk Hfit.
  destruct (zonelow_expand_spec s size k (inv_zone _ _ _ Hi ZoneLow) He Hsz Hk Hfit)
    as [->|(Ha & He' & Hz & Ht & Hb & Hc & _)]; [by split_and!|].
  split; [|done]. set (s' := zonelow_expand s [] size (2 ^ k)) in *.
  pose proof (inv_zone _ _ _ Hi ZoneLow) as Hz0. unfold BUILD_EBDA_MINIMUM in *.
  constructor; rewrite ?Ha; try apply Hi.
  - intros z. destruct (decide (z = ZoneLow)) as [->|Hne]; [|rewrite Hz by done; apply Hi].
    unfold zone_ok in *. lia.
  - intros z. destruct (decide (z = ZoneLow)) as [->|Hne]; [|rewrite Hz by done; apply Hi].
    pose proof (inv_stack _ _ _ Hi ZoneLow) as Hs. rewrite Ht.
    destruct (lay ZoneLow) as [|b bs]; simpl in *; [lia|]. split_and!; try apply Hs. lia.
Qed.

Lemma ebda_ok_set_cur s z c : ebda_ok s -> ebda_ok (set_zone s z (set_cur (zones s z) c)).
Proof using. unfold ebda_ok, ebda_len, ebda_at. simpl. case_decide; [subst|]; done. Qed.

Lemma ebda_ok_free_data s d o : ebda_ok s -> ebda_ok (pmm_free_data s d o).
Proof using.
  intros He. unfold pmm_free_data, zone_free. destruct (zone_find s d) as [z|]; simpl; [|done].
  destruct ((d =? 0) || _); simpl; [done|]. by apply ebda_ok_set_cur.
Qed.

Lemma ebda_ok_free s d : ebda_ok s -> ebda_ok (pmm_free s d).1.
Proof using.
  intros He. unfold pmm_free. destruct (unlink _ _) as [[a l]|]; [|done]. simpl.
  by repeat apply ebda_ok_free_data.
Qed.

(** The allocation of a record: from [ZoneTmpHigh], else from [ZoneTmpLow]. *)
Lemma info_malloc_spec s :
  (forall z, zone_ok z (zones s z)) ->
  exists oldalloc s1 info,
    (let try_info z := (cur (zones s z), zone_malloc s z sizeof_pmmalloc_s MALLOC_MIN_ALIGN) in
     let '(o, (s1, i)) := try_info ZoneTmpHigh in
     if i =? 0 then try_info ZoneTmpLow else (o, (s1, i))) = (oldalloc, (s1, info)) /\
    ((info = 0 /\ s1 = s) \/
     (exists zi, zi <> ZoneLow /\ 0 < info /\ bottom (zones s zi) <= info /\
        info + sizeof_pmmalloc_s <= cur (zones s zi) /\ oldalloc = cur (zones s zi) /\
        s1 = set_zone s zi (set_cur (zones s zi) info))).
Proof using Hrange.
  intros Hz. change MALLOC_MIN_ALIGN with (2 ^ 4). simpl.
  assert (fits sizeof_pmmalloc_s 4) as Hfit by (unfold fits, sizeof_pmmalloc_s; lia).
  destruct (zone_malloc s ZoneTmpHigh sizeof_pmmalloc_s (2 ^ 4)) as [s1 i] eqn:E1.
  apply zone_malloc_spec in E1 as [[-> ->]|(H1 & H2 & H3 & _ & ->)]; [| |apply Hz|done].
  - simpl. destruct (zone_malloc s ZoneTmpLow sizeof_pmmalloc_s (2 ^ 4)) as [s2 i] eqn:E2.
    eexists _, _, _. split; [done|].
    apply zone_malloc_spec in E2 as [[-> ->]|(H1 & H2 & H3 & _ & ->)]; [by left| |apply Hz|done].
    right. exists ZoneTmpLow. done.
  - rewrite (proj2 (Z.eqb_neq i 0)) by lia. eexists _, _, _. split; [done|]. right. by exists ZoneTmpHigh.
Qed.

Lemma inv_pmm_malloc s lay z hnd size k :
  inv s lay [] -> ebda_ok s -> fits size k -> (z = ZoneLow -> size + 2 ^ k <= 0x40000) ->
  exists s' d lay', pmm_malloc s [] z hnd size (2 ^ k) = (s', d) /\ inv s' lay' [] /\ ebda_ok s' /\
    ((d = 0 /\ PMMAllocs s' = PMMAllocs s /\ forall x n, has_block lay' x n <-> has_block lay x n) \/
     (exists info, 0 < d /\ d mod 2 ^ k = 0 /\ lo z <= d /\ d + size <= hi z /\ ~ (exists n, has_block lay d n) /\
        ~ (exists n, has_block lay info n) /\ data <$> PMMAllocs s' = d :: (data <$> PMMAllocs s) /\ info <> d /\
        forall x n, has_block lay' x n <->
          (x = d /\ n = size) \/ (x = info /\ n = sizeof_pmmalloc_s) \/ has_block lay x n)).
Proof using Hlow Hrange Hdisj.
  intros Hi He Hfit Hl. unfold pmm_malloc.
  destruct (info_malloc_spec s (inv_zone _ _ _ Hi)) as (oa & s1 & info & Eq & Hinfo).
  simpl in Eq. destruct (zone_malloc s ZoneTmpHigh sizeof_pmmalloc_s MALLOC_MIN_ALIGN) as [sh ih] eqn:Eh.
  rewrite Eq. clear Eq Eh sh ih.
  destruct Hinfo as [[-> ->]|(zi & Hzi & Hi0 & Hib & Hic & -> & ->)].
  { simpl. exists s, 0, lay. split_and!; try done. by left. }
  rewrite (proj2 (Z.eqb_neq info 0)) by lia.
  assert (0 < sizeof_pmmalloc_s) as Hsz by done.
  pose proof (inv_push _ _ _ _ _ _ Hi Hi0 Hib Hsz Hic) as Hi1.
  pose proof (inv_fresh _ _ _ _ _ _ Hi Hib Hsz Hic) as Hf1.
  pose proof (ebda_ok_set_cur s zi info He) as He1.
  set (s1 := set_zone s zi (set_cur (zones s zi) info)) in *.
  set (bi := mk_block info sizeof_pmmalloc_s (cur (zones s zi))) in *.
  set (lay1 := push_block lay zi bi) in *.
  set (s2 := if decide (z = ZoneLow) then zonelow_expand s1 [] size (2 ^ k) else s1).
  assert (inv s2 lay1 [(info, cur (zones s zi))] /\ ebda_ok s2 /\ zones s2 zi = zones s1 zi /\
          PMMAllocs s2 = PMMAllocs s) as (Hi2 & He2 & Hz2 & Ha2).
  { subst s2. case_decide as Hd; [|done]. destruct Hfit as (F1 & F2 & F3).
    destruct (inv_expand s1 lay1 [(info, cur (zones s zi))] size k) as (H1 & H2 & H3); try done; [auto|].
    split_and!; try done; [auto|].
    destruct (zonelow_expand_spec s1 size k (inv_zone _ _ _ Hi1 ZoneLow)) as [->|(-> & _)]; try done. auto. }
  assert (cur (zones s2 zi) = info) as Hci by (rewrite Hz2; subst s1; simpl; by rewrite decide_True).
  destruct (zone_malloc s2 z size (2 ^ k)) as [s3 d] eqn:Ed.
  apply zone_malloc_spec in Ed as [[-> ->]|(H1 & H2 & H3 & H4 & ->)]; [| |apply (inv_zone _ _ _ Hi2)|done].
  - simpl. assert (bi ∈ lay1 zi) as Hbi by (apply elem_of_push; by left).
    assert (zone_free s2 info (cur (zones s zi)) = (set_zone s2 zi (set_cur (zones s2 zi) (cur (zones s zi))), 0)) as ->.
    { unfold zone_free. rewrite (zone_find_block _ _ _ _ bi Hi2 Hbi : zone_find s2 info = Some zi).
      rewrite (proj2 (Z.eqb_neq info 0)) by lia. by rewrite Hci, Z.eqb_refl. }
    exists (set_zone s2 zi (set_cur (zones s2 zi) (cur (zones s zi)))), 0, (remove_block lay1 zi bi).
    split_and!; [done|by apply (inv_free_cur s2 lay1 [] zi bi)|by apply ebda_ok_set_cur|].
    left. split_and!; [done|done|]. intros x n. rewrite (has_block_remove _ _ _ _ _ _ _ Hi2 Hbi).
    unfold lay1. rewrite has_block_push. split; [naive_solver|].
    intros Hx. split; [by right|]. destruct Hx as (y & b & Hb & <- & _). by apply (Hf1 y).
  - rewrite (proj2 (Z.eqb_neq d 0)) by lia. simpl. pose proof Hfit as (Hs0 & _ & _).
    pose proof (inv_push _ _ _ _ _ _ Hi2 H1 H2 Hs0 H3) as Hi3.
    pose proof (inv_fresh _ _ _ _ _ _ Hi2 H2 Hs0 H3) as Hf2.
    set (b := mk_block d size (cur (zones s2 z))) in *. set (lay2 := push_block lay1 z b) in *.
    assert (bi ∈ lay2 zi) as Hbi by (apply elem_of_push; right; apply elem_of_push; by left).
    assert (b ∈ lay2 z) as Hb by (apply elem_of_push; by left).
    eexists _, d, lay2. split; [done|]. split_and!.
    + apply (inv_link_record (set_zone s2 z (set_cur (zones s2 z) d)) lay2 (mk_alloc info d (cur (zones s2 z)) hnd (cur (zones s zi))) z zi b bi);
        try done. simpl. intros ->. lia.
    + by apply (ebda_ok_set_cur s2 z d).
    + right. exists info. destruct (inv_zone _ _ _ Hi2 z) as (? & ? & ? & ? & _). simpl.
      split_and!; try done; try lia.
      * intros (n & y & b' & Hb' & E & _). apply (Hf2 y b'); [|done]. apply elem_of_push. by right.
      * intros (n & y & b' & Hb' & E & _). by apply (Hf1 y b').
      * by rewrite Ha2.
      * intros <-. apply (Hf2 zi bi); [|done]. apply elem_of_push. by left.
      * intros x n. unfold lay2, lay1. rewrite !has_block_push. simpl. tauto.
Qed.
End Layout.

(** ** Clients *)

Inductive pmm_op :=
| OpMalloc (z : zone) (hnd size k : Z)     (* an alignment of [2 ^ k] *)
| OpFree (d : Z).

(** A step of the manager and what the client holds: addresses and sizes. *)
Definition pmm_step (c : pmm * list (Z * Z)) (op : pmm_op) : pmm * list (Z * Z) :=
  let '(s, live) := c in
  match op with
  | OpMalloc z hnd size k =>
      let '(s, d) := pmm_malloc s [] z hnd size (2 ^ k) in
      (s, if d =? 0 then live else (d, size) :: live)
  | OpFree d => ((pmm_free s d).1, filter (fun b => b.1 <> d) live)
  end.
Definition pmm_run (s : pmm) (ops : list pmm_op) : pmm * list (Z * Z) := foldl pmm_step (s, []) ops.

(** Sizes are positive and do not wrap around; low memory requests are at most 256K. *)
Definition op_ok (op : pmm_op) : Prop :=
  match op with
  | OpMalloc z _ size k => fits size k /\ (z = ZoneLow -> size + 2 ^ k <= 0x40000)
  | OpFree _ => True
  end.

Definition zone_floor (s : pmm) (z : zone) : Z :=
  match z with ZoneLow => BUILD_EBDA_MINIMUM | _ => bottom (zones s z) end.

(** A manager with nothing allocated and zones that do not overlap. *)
Record pmm_ready (s : pmm) : Prop := {
  ready_zone z : 0 <= zone_floor s z <= bottom (zones s z) /\ bottom (zones s z) <= cur (zones s z) /\
    cur (zones s z) = top (zones s z) /\ top (zones s z) < 2 ^ 32 /\ (bottom (zones s z) = 0 -> top (zones s z) = 0);
  ready_disjoint z z' : z <> z' -> top (zones s z) <= zone_floor s z' \/ top (zones s z') <= zone_floor s z;
  ready_low : top (zones s ZoneLow) <= BUILD_LOWRAM_END;
  ready_allocs : PMMAllocs s = [];
  ready_ebda : ebda_ok s }.

Section Client.
Context (lo hi : zone -> Z).
Context (Hrange : forall z, 0 <= lo z /\ hi z < 2 ^ 32).
Context (Hdisj : forall z z', z <> z' -> hi z <= lo z' \/ hi z' <= lo z).
Context (Hlow : lo ZoneLow <= BUILD_EBDA_MINIMUM /\ hi ZoneLow <= BUILD_LOWRAM_END).

(** The client holds exactly the blocks of the records. *)
Definition tracked (s : pmm) (lay : layout) (live : list (Z * Z)) : Prop :=
  inv lo hi s lay [] /\ ebda_ok s /\ NoDup live.*1 /\
  forall d n, (d, n) ∈ live <-> has_block lay d n /\ d ∈ data <$> PMMAllocs s.

Lemma record_block s lay d :
  inv lo hi s lay [] -> d ∈ data <$> PMMAllocs s -> exists n, has_block lay d n.
Proof using.
  intros Hi (a & -> & Ha)%list_elem_of_fmap.
  destruct (proj1 (inv_links _ _ _ _ _ Hi (data a) (olddata a))) as (z & b & Hb & E & _).
  - apply elem_of_links. exists a. auto.
  - exists (b_size b), z, b. done.
Qed.

Lemma tracked_malloc s lay live z hnd size k :
  tracked s lay live -> op_ok (OpMalloc z hnd size k) ->
  exists lay', tracked (pmm_step (s, live) (OpMalloc z hnd size k)).1 lay'
                       (pmm_step (s, live) (OpMalloc z hnd size k)).2.
Proof using Hrange Hdisj Hlow.
  intros (Hi & He & Hnd & Hlive) [Hfit Hl]. simpl.
  destruct (inv_pmm_malloc lo hi Hrange Hdisj Hlow s lay z hnd size k Hi He Hfit Hl)
    as (s' & d & lay' & -> & Hi' & He' & Hd).
  exists lay'. destruct Hd as [(-> & Ha & Hb)|(info & H0 & _ & _ & _ & Hfresh & Hfi & Ha & Hne & Hb)]; simpl.
  - split_and!; try done. intros d n. by rewrite Hlive, Hb, Ha.
  - rewrite (proj2 (Z.eqb_neq d 0)) by lia. split_and!; try done; simpl.
    + apply NoDup_cons. split; [|done]. intros ([x n] & E & Hx)%list_elem_of_fmap. simpl in E. subst x.
      apply Hlive in Hx as [Hx _]. eauto.
    + intros x n. rewrite elem_of_cons, Hlive, Hb, Ha, elem_of_cons.
      assert (x ∈ data <$> PMMAllocs s -> x <> info) as Hni.
      { intros Hin ->. apply Hfi. by apply record_block with s. }
      split; [intros [[= -> ->]|[? ?]]; auto|].
      intros [Hx Hx']. destruct (decide (x = d)) as [->|Hxd].
      * destruct Hx as [[_ ->]|[[-> _]|Hx]]; [by left|by destruct Hne|destruct Hfresh; eauto].
      * destruct Hx' as [?|Hx']; [done|]. right. split; [|done].
        destruct Hx as [[? _]|[[-> _]|Hx]]; [done|by destruct Hni|done].
Qed.

Lemma tracked_free s lay live d :
  tracked s lay live ->
  exists lay', tracked (pmm_step (s, live) (OpFree d)).1 lay' (pmm_step (s, live) (OpFree d)).2.
Proof using Hrange Hdisj Hlow.
  intros (Hi & He & Hnd & Hlive). simpl.
  assert (NoDup (filter (fun b : Z * Z => b.1 <> d) live).*1) as Hnd'.
  { clear -Hnd. induction live as [|[x n] l IH]; [constructor|].
    rewrite fmap_cons, NoDup_cons in Hnd. destruct Hnd as [Hn Hnd]. rewrite filter_cons. case_decide; [|auto].
    rewrite fmap_cons, NoDup_cons. split; [|auto]. simpl. intros ([y m] & E & Hy)%list_elem_of_fmap.
    simpl in E. subst y. apply Hn. apply list_elem_of_fmap. exists (x, m).
    split; [done|]. apply list_elem_of_filter in Hy. tauto. }
  pose proof (ebda_ok_free s d He) as He'.
  destruct (inv_pmm_free lo hi Hrange Hdisj s lay d Hi)
    as [[Hn E]|(s' & lay' & info & E & Hi' & Hp & _ & Hb)]; rewrite E in *; simpl in *.
  - exists lay. split_and!; try done. intros x n. rewrite list_elem_of_filter, Hlive. simpl.
    split; [tauto|]. intros [Hx Hx']. split; [|done]. by intros ->.
  - exists lay'. split_and!; try done. intros x n. rewrite list_elem_of_filter, Hlive, Hb, Hp, elem_of_cons. simpl.
    split; [|tauto]. intros (Hne & Hx & [?|Hx']); [done|]. split_and!; try done.
    destruct (record_block s' lay' x Hi' Hx') as [m Hm]. by apply Hb in Hm as (_ & _ & ?).
Qed.

Lemma tracked_run ops s lay live :
  tracked s lay live -> Forall op_ok ops ->
  exists lay', tracked (foldl pmm_step (s, live) ops).1 lay' (foldl pmm_step (s, live) ops).2.
Proof using Hrange Hdisj Hlow.
  intros Ht Hops. revert s lay live Ht. induction Hops as [|op ops Hop _ IH]; intros s lay live Ht; [by exists lay|].
  cbn [foldl].
  assert (exists lay', tracked (pmm_step (s, live) op).1 lay' (pmm_step (s, live) op).2) as [lay' Ht'].
  { destruct op; [by eapply tracked_malloc|by eapply tracked_free]. }
  destruct (pmm_step (s, live) op) as [s' live']. by eapply IH.
Qed.

Lemma tracked_disjoint s lay live d1 n1 d2 n2 :
  tracked s lay live -> (d1, n1) ∈ live -> (d2, n2) ∈ live -> d1 <> d2 ->
  0 < d1 /\ 0 < n1 /\ (d1 + n1 <= d2 \/ d2 + n2 <= d1).
Proof using Hrange Hdisj.
  intros (Hi & _ & _ & Hlive) [(z1 & b1 & Hb1 & <- & <-) _]%Hlive [(z2 & b2 & Hb2 & <- & <-) _]%Hlive Hne.
  pose proof (inv_block lo hi Hrange _ _ _ _ _ Hi Hb1). pose proof (inv_block lo hi Hrange _ _ _ _ _ Hi Hb2).
  split_and!; [lia..|]. destruct (decide (z1 = z2)) as [->|Hz].
  - destruct (stack_disjoint _ _ _ _ b1 b2 (inv_stack _ _ _ _ _ Hi z2) Hb1 Hb2); [congruence|lia..].
  - destruct (Hdisj _ _ Hz); lia.
Qed.

Lemma tracked_no_records s lay : tracked s lay [] -> PMMAllocs s = [].
Proof using Hrange Hdisj Hlow.
  intros (Hi & _ & _ & Hlive). destruct (PMMAllocs s) as [|a l] eqn:E; [done|]. exfalso.
  assert (data a ∈ data <$> PMMAllocs s) as Ha by (rewrite E; left).
  destruct (record_block s lay (data a) Hi Ha) as [m Hm].
  assert ((data a, m) ∈ @nil (Z * Z)) as ?%elem_of_nil; [|done]. apply Hlive. by rewrite <- E.
Qed.

Lemma tracked_empty s lay z : tracked s lay [] -> z <> ZoneLow -> cur (zones s z) = top (zones s z).
Proof using Hrange Hdisj Hlow.
  intros (Hi & _ & _ & Hlive) Hz. pose proof (inv_stack _ _ _ _ _ Hi z) as Hs.
  destruct (lay z) as [|b bs] eqn:El; [destruct z; done|]. exfalso.
  assert (exists x n, (x, n) ∈ links (PMMAllocs s)) as (x & n & Hx).
  { exists (b_at b), (b_old b). apply (inv_links _ _ _ _ _ Hi). exists z, b. rewrite El. set_solver. }
  apply elem_of_links in Hx as (a & Ha & _).
  destruct (record_block s lay (data a) Hi) as [m Hm]; [by apply list_elem_of_fmap_2|].
  assert ((data a, m) ∈ @nil (Z * Z)) as ?%elem_of_nil; [|done].
  apply Hlive. split; [done|]. by apply list_elem_of_fmap_2.
Qed.
End Client.

(** The address ranges of a ready manager. *)
Section Ready.
Context (s : pmm) (Hs : pmm_ready s).

Lemma ready_tracked :
  (forall z, 0 <= zone_floor s z /\ top (zones s z) < 2 ^ 32) /\
  (forall z z', z <> z' -> top (zones s z) <= zone_floor s z' \/ top (zones s z') <= zone_floor s z) /\
  (zone_floor s ZoneLow <= BUILD_EBDA_MINIMUM /\ top (zones s ZoneLow) <= BUILD_LOWRAM_END) /\
  tracked (zone_floor s) (fun z => top (zones s z)) s (fun _ => []) [].
Proof using Hs.
  destruct Hs as [Hz Hd Hl Ha He].
  split_and!; try done.
  - intros z. specialize (Hz z). lia.
  - split_and!; try done.
    + constructor; rewrite ?Ha; simpl.
      * intros z. specialize (Hz z). unfold zone_ok. lia.
      * intros z. destruct (Hz z) as (_ & _ & E & _). rewrite E. destruct z; simpl; lia.
      * intros x o. split; [by intros ?%elem_of_nil|]. by intros (z & b & ?%elem_of_nil & _).
      * constructor.
      * by intros a z b1 b2 ?%elem_of_nil.
    + constructor.
    + intros d n. rewrite Ha. split; [by intros ?%elem_of_nil|]. by intros [_ ?%elem_of_nil].
Qed.
End Ready.

(** Two blocks of the same list are the same or apart, and all lie below 4G. *)
Definition apart (l : list (Z * Z)) : Prop :=
  (forall d n, (d, n) ∈ l -> 0 < d /\ 0 < n /\ d + n < 2 ^ 32) /\
  forall i j d1 n1 d2 n2, l !! i = Some (d1, n1) -> l !! j = Some (d2, n2) -> i <> j -> d1 + n1 <= d2 \/ d2 + n2 <= d1.

Lemma run_apart s ops : pmm_ready s -> Forall op_ok ops -> apart (pmm_run s ops).2.
Proof.
  intros (H1 & H2 & H3 & Ht)%ready_tracked Hops. destruct (tracked_run _ _ H1 H2 H3 ops _ _ _ Ht Hops) as [lay Hlay].
  unfold pmm_run. set (l := (foldl _ _ _).2) in *. set (s' := (foldl _ _ _).1) in *. split.
  - intros d n Hd. destruct Hlay as (Hi & _ & _ & Hlive). apply Hlive in Hd as [(z & b & Hb & <- & <-) _].
    pose proof (inv_block _ _ H1 _ _ _ _ _ Hi Hb). destruct (H1 z). lia.
  - intros i j d1 n1 d2 n2 E1 E2 Hij.
    eapply (tracked_disjoint _ _ H1 H2 s' lay l); [done|by eapply list_elem_of_lookup_2..|].
    intros ->. destruct Hlay as (_ & _ & Hnd & _). apply Hij. eapply NoDup_lookup; [exact Hnd|..];
      rewrite list_lookup_fmap; [rewrite E1|rewrite E2]; done.
Qed.

(** Outside [ZoneLow] the manager neither reads nor writes memory. *)
Lemma zone_malloc_pmem s m z size align :
  zone_malloc (set_pmem s m) z size align = (set_pmem (zone_malloc s z size align).1 m, (zone_malloc s z size align).2).
Proof. unfold zone_malloc. cbn [set_pmem zones]. case_test; done. Qed.

Lemma zone_free_pmem s m d old : zone_free (set_pmem s m) d old = (set_pmem (zone_free s d old).1 m, (zone_free s d old).2).
Proof.
  unfold zone_free. change (zone_find (set_pmem s m) d) with (zone_find s d). destruct (zone_find s d); [|done].
  cbn [set_pmem zones]. case_test; done.
Qed.

Lemma pmm_malloc_pmem s m z hnd size align : z <> ZoneLow ->
  pmm_malloc (set_pmem s m) [] z hnd size align =
  (set_pmem (pmm_malloc s [] z hnd size align).1 m, (pmm_malloc s [] z hnd size align).2).
Proof.
  intros Hz. unfold pmm_malloc. cbv zeta. destruct (decide (z = ZoneLow)) as [|_]; [done|]. rewrite !zone_malloc_pmem.
  assert (forall info s1 old, (if info =? 0 then (set_pmem s1 m, 0) else
    let '(s3, d) := zone_malloc (set_pmem s1 m) z size align in
    if d =? 0 then ((zone_free s3 info old).1, 0)
    else (set_allocs s3 (mk_alloc info d (cur (zones (set_pmem s1 m) z)) hnd old :: PMMAllocs s3), d)) =
    let r := if info =? 0 then (s1, 0) else
      let '(s3, d) := zone_malloc s1 z size align in
      if d =? 0 then ((zone_free s3 info old).1, 0)
      else (set_allocs s3 (mk_alloc info d (cur (zones s1 z)) hnd old :: PMMAllocs s3), d) in (set_pmem r.1 m, r.2)) as E.
  { intros info s1 old. case_test; [done|]. rewrite zone_malloc_pmem. destruct (zone_malloc s1 z size align) as [s3 d].
    cbn [fst snd]. case_test; [|done]. by rewrite zone_free_pmem. }
  destruct (zone_malloc s ZoneTmpHigh _ _) as [a i], (zone_malloc s ZoneTmpLow _ _) as [b j]. cbn [fst snd].
  destruct (i =? 0); apply E.
Qed.

Lemma pmm_free_pmem s m d : pmm_free (set_pmem s m) d = (set_pmem (pmm_free s d).1 m, (pmm_free s d).2).
Proof.
  unfold pmm_free. cbn [set_pmem PMMAllocs]. destruct (unlink (PMMAllocs s) d) as [[a l]|]; [|done].
  assert (forall s x o, pmm_free_data (set_pmem s m) x o = set_pmem (pmm_free_data s x o) m) as E.
  { intros s' x o. unfold pmm_free_data. rewrite zone_free_pmem. destruct (zone_free s' x o) as [s2 r]. cbn [fst snd]. by case_test. }
  change (set_allocs (set_pmem s m) l) with (set_pmem (set_allocs s l) m). by rewrite !E.
Qed.

Lemma set_pmem_id s : set_pmem s (pmem s) = s.
Proof. by destruct s. Qed.
Lemma pmem_set s m : pmem (set_pmem s m) = m.
Proof. done. Qed.

Lemma step_malloc s live z hnd size : pmm_step (s, live) (OpMalloc z hnd size 4) =
  let r := pmm_malloc s [] z hnd size MALLOC_MIN_ALIGN in (r.1, if r.2 =? 0 then live else (r.2, size) :: live).
Proof. cbn [pmm_step]. change (2 ^ 4) with MALLOC_MIN_ALIGN. by destruct (pmm_malloc _ _ _ _ _ _). Qed.

(** Three blocks of set-up code, after any requests and whatever memory holds. *)
Lemma three_apart boot ops m z1 n1 z2 n2 z3 n3 : pmm_ready boot -> Forall op_ok ops ->
  z1 <> ZoneLow -> z2 <> ZoneLow -> z3 <> ZoneLow -> fits n1 4 -> fits n2 4 -> fits n3 4 ->
  let malloc s z n := pmm_malloc s [] z PMM_DEFAULT_HANDLE n MALLOC_MIN_ALIGN in
  let '(s1, a1) := malloc (set_pmem (pmm_run boot ops).1 m) z1 n1 in
  let '(s2, a2) := malloc s1 z2 n2 in
  let a3 := (malloc s2 z3 n3).2 in
  a1 <> 0 -> a2 <> 0 -> a3 <> 0 -> apart [(a3, n3); (a2, n2); (a1, n1)].
Proof.
  intros Hr Hops Hz1 Hz2 Hz3 Hf1 Hf2 Hf3. cbv zeta.
  pose proof (run_apart boot (ops ++ [OpMalloc z1 PMM_DEFAULT_HANDLE n1 4; OpMalloc z2 PMM_DEFAULT_HANDLE n2 4;
    OpMalloc z3 PMM_DEFAULT_HANDLE n3 4]) Hr) as Ha.
  destruct Ha as [H1 H2]; [apply Forall_app; split; [done|]; do 3 (apply Forall_cons_2; [by split|]); apply Forall_nil_2|].
  revert H1 H2. unfold pmm_run. rewrite foldl_app. destruct (foldl pmm_step (boot, []) ops) as [s live].
  cbn [foldl fst]. rewrite !step_malloc. cbv zeta. cbn [fst snd]. rewrite (pmm_malloc_pmem s m) by done.
  destruct (pmm_malloc s [] z1 _ _ _) as [s1 a1]. cbn [fst snd]. rewrite (pmm_malloc_pmem s1 m) by done.
  destruct (pmm_malloc s1 [] z2 _ _ _) as [s2 a2]. cbn [fst snd]. rewrite (pmm_malloc_pmem s2 m) by done.
  destruct (pmm_malloc s2 [] z3 _ _ _) as [s3 a3]. cbn [fst snd]. intros H1 H2 ???.
  rewrite !(proj2 (Z.eqb_neq _ 0)) in H1, H2 by done. split.
  - intros d n Hd. apply H1. set_solver.
  - intros i j d1 m1 d2 m2 E1 E2 Hij. apply (H2 i j); [..|done].
    + destruct i as [|[|[|]]]; done.
    + destruct j as [|[|[|]]]; done.
Qed.

(** ** Bounds of the zones

    Only the expansion of [ZoneLow] moves a bound, and only that zone's. *)

Definition bounds_kept (s s' : pmm) : Prop :=
  forall z, z <> ZoneLow -> bottom (zones s' z) = bottom (zones s z) /\ top (zones s' z) = top (zones s z).

#[local] Instance bounds_kept_trans : Transitive bounds_kept.
Proof. intros s1 s2 s3 H1 H2 z Hz. destruct (H1 z Hz), (H2 z Hz). split; congruence. Qed.
#[local] Instance bounds_kept_refl : Reflexive bounds_kept.
Proof. by intros s z _. Qed.

Lemma bounds_set_cur s z c : bounds_kept s (set_zone s z (set_cur (zones s z) c)).
Proof. intros y _. cbn. case_decide; by subst. Qed.

Lemma bounds_malloc s z size align : bounds_kept s (zone_malloc s z size align).1.
Proof. unfold zone_malloc. case_match; [done|apply bounds_set_cur]. Qed.

Lemma bounds_zone_free s d old : bounds_kept s (zone_free s d old).1.
Proof. unfold zone_free. case_match; [|done]. case_match; [done|apply bounds_set_cur]. Qed.

Lemma bounds_relocate s n o len : bounds_kept s (relocate_ebda s n o len).1.
Proof. unfold relocate_ebda. cbv zeta. by destruct (negb _). Qed.

Lemma bounds_set_low s v : bounds_kept s (set_zone s ZoneLow v).
Proof. intros y Hy. unfold set_zone. cbn [zones]. by rewrite decide_False. Qed.

Lemma bounds_expand s size align : bounds_kept s (zonelow_expand s [] size align).
Proof.
  cbn [zonelow_expand]. cbv zeta. destruct (_ && _); [done|].
  destruct (if negb _ then _ else _) as [oldpos newpos]. destruct (_ <? BUILD_EBDA_MINIMUM); [done|].
  set (n := ALIGN_DOWN _ _). set (o := MAKE_FLATPTR _ _). set (len := pmem s o).
  pose proof (bounds_relocate s n o len) as H.
  destruct (relocate_ebda s n o len) as [s' r]. destruct (negb _); [done|].
  etrans; [exact H|apply bounds_set_low].
Qed.

Lemma bounds_pmm_malloc s z hnd size align : bounds_kept s (pmm_malloc s [] z hnd size align).1.
Proof.
  unfold pmm_malloc. cbv zeta.
  assert (forall s1 info old, bounds_kept s s1 -> bounds_kept s (if info =? 0 then (s1, 0) else
    let s2 := if decide (z = ZoneLow) then zonelow_expand s1 [] size align else s1 in
    let olddata := cur (zones s2 z) in
    let '(s3, d) := zone_malloc s2 z size align in
    if d =? 0 then ((zone_free s3 info old).1, 0)
    else (set_allocs s3 (mk_alloc info d olddata hnd old :: PMMAllocs s3), d)).1) as Hrest.
  { intros s1 info old H1. case_match; [done|]. cbv zeta.
    set (s2 := if decide (z = ZoneLow) then _ else _).
    assert (bounds_kept s s2) as H2 by (unfold s2; case_decide; [etrans; [done|apply bounds_expand]|done]).
    pose proof (bounds_malloc s2 z size align) as H3. destruct (zone_malloc s2 z size align) as [s3 d].
    etrans; [exact H2|]. etrans; [exact H3|]. case_match; [apply bounds_zone_free|done]. }
  pose proof (bounds_malloc s ZoneTmpHigh sizeof_pmmalloc_s MALLOC_MIN_ALIGN) as Ha.
  pose proof (bounds_malloc s ZoneTmpLow sizeof_pmmalloc_s MALLOC_MIN_ALIGN) as Hb.
  destruct (zone_malloc s ZoneTmpHigh _ _) as [sa a], (zone_malloc s ZoneTmpLow _ _) as [sb b].
  destruct (a =? 0); by apply Hrest.
Qed.

Lemma bounds_free_data s d old : bounds_kept s (pmm_free_data s d old).
Proof.
  unfold pmm_free_data. pose proof (bounds_zone_free s d old) as H. destruct (zone_free s d old) as [s' r]. by case_match.
Qed.

Lemma bounds_pmm_free s d : bounds_kept s (pmm_free s d).1.
Proof.
  unfold pmm_free. destruct (unlink _ _) as [[a l]|]; [|done]. cbn [fst].
  etrans; [|apply bounds_free_data]. apply (bounds_free_data (set_allocs s l)).
Qed.

Lemma bounds_run ops s live : bounds_kept s (foldl pmm_step (s, live) ops).1.
Proof.
  revert s live. induction ops as [|op ops IH]; intros s live; [done|]. cbn [foldl].
  assert (bounds_kept s (pmm_step (s, live) op).1) as H1.
  { destruct op as [z hnd size k|d]; cbn [pmm_step].
    - pose proof (bounds_pmm_malloc s z hnd size (2 ^ k)) as H. by destruct (pmm_malloc _ _ _ _ _ _).
    - apply bounds_pmm_free. }
  destruct (pmm_step (s, live) op) as [s1 live1]. by etrans; [|apply IH].
Qed.

(** C3.  However a client allocates, in any zones and with alignments to powers of two, and
    frees, in any order and with addresses it does not hold, the blocks it holds never
    overlap, provided that sizes are positive, that a size and its alignment do not pass
    2^32, and that no request to [ZoneLow] asks for more than 256 KiB with its alignment.
    [pmm_oversized_overlaps] shows that the last proviso is needed. *)
Theorem pmm_no_overlap s ops d1 n1 d2 n2 :
  pmm_ready s -> Forall op_ok ops ->
  (d1, n1) ∈ (pmm_run s ops).2 -> (d2, n2) ∈ (pmm_run s ops).2 -> d1 <> d2 ->
  0 < d1 /\ 0 < n1 /\ (d1 + n1 <= d2 \/ d2 + n2 <= d1).
Proof.
  intros (H1 & H2 & H3 & Ht)%ready_tracked Hops Hd1 Hd2 Hne.
  destruct (tracked_run _ _ H1 H2 H3 ops _ _ _ Ht Hops) as [lay Hlay].
  by eapply (tracked_disjoint _ _ H1 H2 _ lay).
Qed.

(** C32.  Nothing leaks: when the client has freed everything it held, in whatever order,
    no allocation is recorded any more and every zone but [ZoneLow] is as it was at the
    start: its bottom, its top and its current position.  The provisos are those on
    requests in [op_ok]: positive sizes that do not wrap around with their alignment, and at
    most 256 KiB with the alignment from [ZoneLow].  ([ZoneLow] itself may have grown: the
    data area moved down for it does not move back.) *)
Theorem pmm_no_leak s ops :
  pmm_ready s -> Forall op_ok ops -> (pmm_run s ops).2 = [] ->
  PMMAllocs (pmm_run s ops).1 = [] /\
  forall z, z <> ZoneLow -> zones (pmm_run s ops).1 z = zones s z.
Proof.
  intros Hr Hops Hnil. pose proof (ready_tracked _ Hr) as (H1 & H2 & H3 & Ht).
  destruct (tracked_run _ _ H1 H2 H3 ops _ _ _ Ht Hops) as [lay Hlay].
  unfold pmm_run in *. rewrite Hnil in Hlay. split; [by eapply (tracked_no_records _ _ H1 H2 H3 _ lay)|].
  intros z Hz. pose proof (tracked_empty _ _ H1 H2 H3 _ lay z Hlay Hz) as Hc.
  destruct (bounds_run ops s [] z Hz) as [Hb Htop], (ready_zone s Hr z) as (_ & _ & Hcz & _).
  destruct (zones (foldl pmm_step (s, []) ops).1 z), (zones s z). cbn in *. congruence.
Qed.

(** C30.  Growing [ZoneLow] for a request of at most 256 KiB with its alignment moves the
    extended BIOS data area with every byte of it, keeps it below the zone and above its
    minimum, and never hands out memory already given: the other zones stay as they are
    and the new free area of [ZoneLow] ends where the old one did or below.
    [pmm_oversized_low_request] shows what a larger request does. *)
Theorem zonelow_expand_safe s size k :
  let s' := zonelow_expand s [] size (2 ^ k) in
  0 < bottom (zones s ZoneLow) <= cur (zones s ZoneLow) ->
  cur (zones s ZoneLow) <= top (zones s ZoneLow) <= BUILD_LOWRAM_END ->
  ebda_ok s -> 0 < size -> 0 <= k <= 31 -> size + 2 ^ k <= 0x40000 ->
  ebda_ok s' /\ bottom (zones s' ZoneLow) <= cur (zones s' ZoneLow) <= cur (zones s ZoneLow) /\
  (forall z, z <> ZoneLow -> zones s' z = zones s z) /\
  forall i, 0 <= i < ebda_len s -> pmem s' (ebda_at s' + i) = pmem s (ebda_at s + i).
Proof.
  intros s' Hb Hc He Hsz Hk Hfit. unfold BUILD_LOWRAM_END in *.
  destruct (zonelow_expand_spec (fun _ => 0) (fun _ => BUILD_LOWRAM_END)) with (s := s) (size := size) (k := k)
    as [E|(_ & He' & Hz & _ & Hb' & Hc' & _ & Hm)]; try done.
  - unfold zone_ok, BUILD_LOWRAM_END. lia.
  - subst s'. rewrite E. split_and!; try done; lia.
  - subst s'. split_and!; try done; lia.
Qed.

(** The memory entry [malloc_setup] chooses, if any. *)
Definition high_entry (s : pmm) : option e820entry :=
  find_high_area (e820 s) (CONFIG_MAX_HIGHTABLE + MALLOC_MIN_ALIGN) ≫= (fun i => e820 s !! i).

Lemma high_entry_suitable s e :
  high_entry s = Some e -> suitable e (CONFIG_MAX_HIGHTABLE + MALLOC_MIN_ALIGN).
Proof.
  unfold high_entry. destruct (find_high_area _ _) as [i|] eqn:E; simpl; [|done].
  apply find_high_from_spec in E as (_ & (e' & Hl & Hs & _) & _). rewrite Hl. by intros [= <-].
Qed.

Lemma ALIGN_16 x : 0 <= x -> x + 16 <= 2 ^ 32 -> x <= ALIGN x MALLOC_MIN_ALIGN < x + 16 /\
  (x mod 16 = 0 -> ALIGN x MALLOC_MIN_ALIGN = x).
Proof.
  intros H1 H2. change MALLOC_MIN_ALIGN with (2 ^ 4). rewrite ALIGN_pow2 by lia. change (2 ^ 4) with 16.
  pose proof (Z.mod_pos_bound (x + (16 - 1)) 16). split; [lia|]. intros H3.
  pose proof (Z.div_mod x 16). replace (x + (16 - 1)) with (15 + (x / 16) * 16) by lia.
  rewrite Z.mod_add by lia. change (15 mod 16) with 15. lia.
Qed.

(** [malloc_setup] only clears memory in the f-segment. *)
Lemma malloc_setup_mem s c32 bts :
  bytes (pmem s) -> 0xf0000 <= bts ->
  bytes (pmem (malloc_setup s c32 bts)) /\
  forall a, a < 0xf0000 -> pmem (malloc_setup s c32 bts) a = pmem s a.
Proof.
  intros Hm Hb.
  assert (pmem (malloc_setup s c32 bts) =
    memset (if BUILD_BIOS_ADDR <? c32 then memset (pmem s) BUILD_BIOS_ADDR 0 (Z.to_nat (c32 - BUILD_BIOS_ADDR))
            else pmem s) bts 0 (Z.to_nat CONFIG_MAX_BIOSTABLE)) as ->
    by (unfold malloc_setup; fold (high_entry s); by destruct (high_entry s)).
  unfold BUILD_BIOS_ADDR, CONFIG_MAX_BIOSTABLE. split.
  - intros a. rewrite memset_spec. case_test; [apply (wrap_range 8); lia|].
    destruct (_ <? c32); [rewrite memset_spec; case_test; [apply (wrap_range 8); lia|]|]; apply Hm.
  - intros a Ha. rewrite memset_spec. destruct (_ <? c32); rewrite ?memset_spec; addr_cases; done || lia.
Qed.

(** [malloc_setup] makes a ready manager: with the BIOS tables in the f-segment, the
    extended BIOS data area below 640K, and high memory (if any) above 1M and ending at
    a multiple of 16, its five zones are empty, ordered and disjoint. *)
Theorem malloc_setup_ready s c32 bts :
  0xf0000 <= bts <= 0x100000 - CONFIG_MAX_BIOSTABLE -> bytes (pmem s) ->
  0 <= ebda_seg s < 2 ^ 16 -> 0 < ebda_len s -> BUILD_EBDA_MINIMUM <= ebda_at s ->
  ebda_at s + ebda_len s <= BUILD_LOWRAM_END ->
  (forall e, high_entry s = Some e ->
     0x100000 <= start e /\ (start e + size e) mod 16 = 0 /\ start e + size e < 2 ^ 32) ->
  pmm_ready (malloc_setup s c32 bts).
Proof.
  unfold CONFIG_MAX_BIOSTABLE, BUILD_EBDA_MINIMUM, BUILD_LOWRAM_END.
  intros Hbts Hm Hseg Hlen Hmin Hend Hhigh.
  assert (ebda_ok (malloc_setup s c32 bts)) as He.
  { assert (ebda_seg (malloc_setup s c32 bts) = ebda_seg s) as Es
      by (unfold malloc_setup; fold (high_entry s); by destruct (high_entry s)).
    assert (bottom (zones (malloc_setup s c32 bts) ZoneLow) = 0xa0000) as Eb
      by (unfold malloc_setup; fold (high_entry s); by destruct (high_entry s)).
    destruct (malloc_setup_mem s c32 bts Hm) as [Hm' Hsame]; [lia|].
    unfold ebda_ok, ebda_len, ebda_at in *. rewrite Es, Eb, Hsame by lia.
    unfold BUILD_EBDA_MINIMUM. split_and!; done || lia. }
  unfold malloc_setup in *. fold (high_entry s) in *.
  destruct (high_entry s) as [e|] eqn:Eh.
  - destruct (Hhigh e eq_refl) as (H1 & H2 & H3). apply high_entry_suitable in Eh as (_ & _ & H4).
    unfold CONFIG_MAX_HIGHTABLE, MALLOC_MIN_ALIGN in H4.
    rewrite (wrap_small 32 (start e + size e)), (wrap_small 32 (start e)) in * by (unfold in_u; lia).
    change CONFIG_MAX_HIGHTABLE with 65536 in *.
    destruct (ALIGN_16 (start e + size e - 65536)) as [_ Ea]; [lia..|].
    rewrite Ea in *
      by (replace (start e + size e - 65536) with (start e + size e + (-4096) * 16) by lia; by rewrite Z.mod_add).
    rewrite (wrap_small 32 (start e + size e - 65536 + 65536)) in * by (unfold in_u; lia).
    destruct (ALIGN_16 (start e)) as [Hs _]; [lia..|].
    constructor; try done.
    + intros []; simpl; unfold zone_floor, BUILD_EBDA_MINIMUM, BUILD_LOWRAM_END, BUILD_STACK_ADDR, CONFIG_MAX_BIOSTABLE; simpl; lia.
    + intros [] []; simpl; unfold zone_floor, BUILD_EBDA_MINIMUM, BUILD_LOWRAM_END, BUILD_STACK_ADDR, CONFIG_MAX_BIOSTABLE; simpl; done || lia.
  - constructor; try done.
    + intros []; simpl; unfold zone_floor, BUILD_EBDA_MINIMUM, BUILD_LOWRAM_END, BUILD_STACK_ADDR, CONFIG_MAX_BIOSTABLE; simpl; lia.
    + intros [] []; simpl; unfold zone_floor, BUILD_EBDA_MINIMUM, BUILD_LOWRAM_END, BUILD_STACK_ADDR, CONFIG_MAX_BIOSTABLE; simpl; done || lia.
Qed.

(** The header [pmm_setup] publishes sums to zero and carries the signature, and
    [pmm_finalize] takes the signature away. *)
Theorem pmm_header_valid m hdr entry :
  bytes m ->
  let m1 := pmm_setup m hdr entry in
  checksum m1 hdr sizeof_pmmheader = 0 /\ readl m1 hdr = PMM_SIGNATURE /\
  readl (pmm_finalize m1 hdr) hdr = 0.
Proof.
  intros Hm m1. split_and!.
  - apply checksum_fix; [|unfold sizeof_pmmheader; lia..]. by repeat apply bytes_writeb.
  - subst m1. unfold readl, readw, pmm_setup, writel, writew, writeb. addr_decide. done.
  - unfold pmm_finalize, readl, readw, writel, writew, writeb. addr_decide. done.
Qed.

(** An allocation through the PMM interface that succeeds is found again by its handle. *)
Theorem pmm_find_after_alloc s waits args s' d :
  arg16 args 0 = 0 -> arg32 args 1 <> 0 -> arg32 args 3 <> PMM_DEFAULT_HANDLE ->
  handle_pmm s waits args = (s', d) -> d <> 0 ->
  handle_pmm s' [] [1; arg16 args 3; arg16 args 4] = (s', d).
Proof.
  intros H0 Hlen Hdef E Hd. unfold handle_pmm in E. rewrite H0 in E. unfold handle_pmm00 in E.
  rewrite (proj2 (Z.eqb_neq _ _) Hlen) in E.
  assert (forall s waits z size align s' d, pmm_malloc s waits z (arg32 args 3) size align = (s', d) ->
            d <> 0 -> pmm_find s' (arg32 args 3) = d) as Hf.
  { clear. intros s waits z size align s' d E Hd. unfold pmm_malloc in E.
    destruct (zone_malloc s ZoneTmpHigh _ _) as [sh ih].
    destruct (if ih =? 0 then _ else _) as [oa [s1 info]].
    destruct (info =? 0); [congruence|].
    destruct (zone_malloc _ z size align) as [s3 d'].
    destruct (Z.eqb_spec d' 0); [congruence|]. simplify_eq. unfold pmm_find. simpl. by rewrite Z.eqb_refl. }
  assert (pmm_find s' (arg32 args 3) = d) as Hfind.
  { destruct (if negb (Z.land (arg16 args 5) 8 =? 0) then _ else _) as [zl zh].
    destruct (s32 _ <=? 0); [congruence|].
    destruct (Z.land (arg16 args 5) 3) as [|[[?|?|]|[?|?|]|]|?]; try congruence; try (by eapply Hf).
    destruct (pmm_malloc s waits zl _ _ _) as [s1 d1] eqn:E1.
    destruct (Z.eqb_spec d1 0); simpl in E; [by eapply Hf|]. simplify_eq. by eapply Hf. }
  change (handle_pmm s' [] [1; arg16 args 3; arg16 args 4]) with
    (s', if arg32 args 3 =? PMM_DEFAULT_HANDLE then 0 else pmm_find s' (arg32 args 3)).
  by rewrite (proj2 (Z.eqb_neq _ _) Hdef), Hfind.
Qed.

(** ** A machine with 2G of memory *)

Definition demo_boot : pmm :=
  mk_pmm (fun _ => mk_zone 0 0 0) [] 639 0x9fc0 (fun a => if a =? 0x9fc00 then 1 else 0)
    [mk_e820 0 0x9fc00 E820_RAM; mk_e820 0x100000 0x7ff00000 E820_RAM].
Definition demo_pmm : pmm := malloc_setup demo_boot 0xe0000 0xfd000.

(** A permanent low memory request of [0x7ffffff] paragraphs on the freshly set up
    manager: [oldpos - size] wraps around in [zonelow_expand], the guard on the new
    position of the data area does not catch it, and although the request fails,
    [ZoneLow] is left with its bottom above its [cur], so that the next size query
    reports 2G of free low memory. *)
Theorem pmm_oversized_low_request :
  let r := handle_pmm demo_pmm [] [0; 0xffff; 0x7ff; 1; 0; 9] in
  r.2 = 0 /\ cur (zones r.1 ZoneLow) < bottom (zones r.1 ZoneLow) /\
  (handle_pmm r.1 [] [0; 0; 0; 1; 0; 9]).2 = 0x80000000.
Proof. by vm_compute. Qed.

(** Such a request breaks the separation of blocks: it fails, but moves the bounds of
    [ZoneLow] over a page handed out of [ZoneFSeg], inside which the next small request
    is then served. *)
Theorem pmm_oversized_overlaps :
  (pmm_run demo_pmm [OpMalloc ZoneFSeg 1 4096 4; OpMalloc ZoneLow 2 0x7ffa1400 4; OpMalloc ZoneLow 3 256 4]).2 =
  [(1042176, 256); (1040384, 4096)] /\ 1040384 < 1042176 /\ 1042176 + 256 < 1040384 + 4096.
Proof. by vm_compute. Qed.

Lemma demo_boot_bytes : bytes (pmem demo_boot).
Proof. intros a. change (in_u 8 (if a =? 0x9fc00 then 1 else 0)). unfold in_u. case_test; lia. Qed.

Lemma malloc_setup_ready_witness : pmm_ready (malloc_setup demo_boot 0xe0000 0xfd000).
Proof.
  apply malloc_setup_ready.
  - unfold CONFIG_MAX_BIOSTABLE. lia.
  - apply demo_boot_bytes.
  - by vm_compute.
  - by vm_compute.
  - by vm_compute.
  - by vm_compute.
  - intros e E. vm_compute in E. injection E as <-. by vm_compute.
Defined.

(** Facts about concrete numbers, by evaluation. *)
Ltac compute_bounds := repeat split; vm_compute; intros; congruence.

Lemma demo_ready : pmm_ready demo_pmm.
Proof.
  constructor.
  - intros []; compute_bounds.
  - intros [] [] H; try done; first [left; compute_bounds | right; compute_bounds].
  - compute_bounds.
  - done.
  - destruct (malloc_setup_mem demo_boot 0xe0000 0xfd000 demo_boot_bytes) as [Hb Hs]; [lia|].
    fold demo_pmm in Hb, Hs. unfold ebda_ok, ebda_len, ebda_at.
    assert (ebda_seg demo_pmm = 0x9fc0) as -> by done. rewrite Hs by lia.
    split; [done|]. compute_bounds.
Qed.

Definition demo_ops : list pmm_op :=
  [OpMalloc ZoneHigh 1 100 4; OpMalloc ZoneTmpHigh 2 5000 12; OpMalloc ZoneTmpLow 3 64 4; OpFree 7].

Lemma demo_op_ok z h n k : z <> ZoneLow -> fits n k -> op_ok (OpMalloc z h n k).
Proof. by split. Qed.

Lemma demo_ops_ok : Forall op_ok demo_ops.
Proof.
  unfold demo_ops. apply Forall_cons_2; [apply demo_op_ok; [done|unfold fits; lia]|].
  apply Forall_cons_2; [apply demo_op_ok; [done|unfold fits; lia]|].
  apply Forall_cons_2; [apply demo_op_ok; [done|unfold fits; lia]|].
  by apply Forall_cons_2.
Qed.

Lemma pmm_no_overlap_witness :
  0 < 589760 /\ 0 < 64 /\ (589760 + 64 <= 2147409920 \/ 2147409920 + 5000 <= 589760).
Proof.
  apply (pmm_no_overlap demo_pmm demo_ops); [apply demo_ready|apply demo_ops_ok| | |lia].
  - replace (pmm_run demo_pmm demo_ops).2 with [(589760, 64); (2147409920, 5000); (2147483536, 100)]
      by (by vm_compute). left.
  - replace (pmm_run demo_pmm demo_ops).2 with [(589760, 64); (2147409920, 5000); (2147483536, 100)]
      by (by vm_compute). right. left.
Defined.

(** Freed in an order that is not the reverse of allocation. *)
Definition demo_free_ops : list pmm_op :=
  demo_ops ++ [OpFree 2147483536; OpFree 589760; OpFree 2147409920].

Lemma pmm_no_leak_witness :
  PMMAllocs (pmm_run demo_pmm demo_free_ops).1 = [] /\
  forall z, z <> ZoneLow -> zones (pmm_run demo_pmm demo_free_ops).1 z = zones demo_pmm z.
Proof.
  apply (pmm_no_leak demo_pmm demo_free_ops); [apply demo_ready| |by vm_compute].
  unfold demo_free_ops. apply Forall_app. split; [apply demo_ops_ok|]. by repeat apply Forall_cons_2.
Defined.

Lemma zonelow_expand_safe_witness :
  let s' := zonelow_expand demo_pmm [] 256 (2 ^ 4) in
  ebda_ok s' /\ bottom (zones s' ZoneLow) <= cur (zones s' ZoneLow) <= cur (zones demo_pmm ZoneLow) /\
  (forall z, z <> ZoneLow -> zones s' z = zones demo_pmm z) /\
  forall i, 0 <= i < ebda_len demo_pmm -> pmem s' (ebda_at s' + i) = pmem demo_pmm (ebda_at demo_pmm + i).
Proof.
  apply zonelow_expand_safe; [compute_bounds|compute_bounds|apply (ready_ebda _ demo_ready)|lia..].
Defined.

Lemma pmm_header_valid_witness :
  let m1 := pmm_setup demo_mem 0x100 0xfe000 in
  checksum m1 0x100 sizeof_pmmheader = 0 /\ readl m1 0x100 = PMM_SIGNATURE /\
  readl (pmm_finalize m1 0x100) 0x100 = 0.
Proof. apply pmm_header_valid. apply demo_mem_bytes. Defined.

(** 16 paragraphs of temporary high memory with handle 5. *)
Definition demo_request : list Z := [0; 16; 0; 5; 0; 2].

Lemma pmm_find_after_alloc_witness :
  handle_pmm (handle_pmm demo_pmm [] demo_request).1 [] [1; 5; 0] =
  ((handle_pmm demo_pmm [] demo_request).1, (handle_pmm demo_pmm [] demo_request).2).
Proof.
  apply (pmm_find_after_alloc demo_pmm [] demo_request); [by vm_compute..| |by vm_compute].
  apply surjective_pairing.
Defined.
