(* ===== verification/Bregs.v ===== *)
(** * Caller registers and BIOS data areas: [bios/seabios/src/bregs.h], [biosvar.h],
    [farptr.h], [disk.h]

    A handler of a software interrupt gets the caller's registers as a record and the
    machine's memory; it returns both.  The BIOS data area and the extended BIOS data
    area are regions of that memory, so an access through a pointer of the caller may
    alias them.  Field offsets are computed from the packed structures. *)

From S2P Require Import Prelude BiosUtil.
Local Open Scope Z_scope.
Local Open Scope coremu_scope.

(** ** Structure layout *)

(** The fields of a packed structure, in order, with their sizes. *)
Definition layout : Type := list (string * Z).

Fixpoint offsetof (l : layout) (f : string) : Z :=
  match l with
  | [] => 0
  | (g, size) :: l => if bool_decide (f = g) then 0 else size + offsetof l f
  end.

Definition bios_data_area_s : layout :=
  [("port_com", 8); ("port_lpt", 6); ("ebda_seg", 2);
   ("equipment_list_flags", 2); ("pad1", 1); ("mem_size_kb", 2); ("pad2", 1); ("ps2_ctrl_flag", 1);
   ("kbd_flag0", 1); ("kbd_flag1", 1); ("alt_keypad", 1); ("kbd_buf_head", 2); ("kbd_buf_tail", 2);
   ("kbd_buf", 32); ("floppy_recalibration_status", 1); ("floppy_motor_status", 1);
   ("floppy_motor_counter", 1); ("floppy_last_status", 1); ("floppy_return_status", 7);
   ("video_mode", 1); ("video_cols", 2); ("video_pagesize", 2); ("video_pagestart", 2);
   ("cursor_pos", 16); ("cursor_type", 2); ("video_page", 1); ("crtc_address", 2); ("video_msr", 1);
   ("video_pal", 1); ("jump", 4); ("other_6b", 1); ("timer_counter", 4); ("timer_rollover", 1);
   ("break_flag", 1); ("soft_reset_flag", 2); ("disk_last_status", 1); ("hdcount", 1);
   ("disk_control_byte", 1); ("port_disk", 1); ("lpt_timeout", 4); ("com_timeout", 4);
   ("kbd_buf_start_offset", 2); ("kbd_buf_end_offset", 2); ("video_rows", 1); ("char_height", 2);
   ("video_ctl", 1); ("video_switches", 1); ("modeset_ctl", 1); ("dcc_index", 1);
   ("floppy_last_data_rate", 1); ("disk_status_controller", 1); ("disk_error_controller", 1);
   ("disk_interrupt_flag", 1); ("floppy_harddisk_info", 1); ("floppy_media_state", 4);
   ("floppy_track", 2); ("kbd_flag2", 1); ("kbd_led", 1); ("user_wait_complete_flag", 4);
   ("user_wait_timeout", 4); ("rtc_wait_flag", 1); ("other_a1", 7); ("video_savetable", 4);
   ("other_ac", 4); ("other_b0", 10); ("vbe_mode", 2)].

(** [struct cdemu_s] and [struct dpte_s] with their padding. *)
Definition cdemu_s : layout :=
  [("emulated_drive_gf", 4); ("ilba", 4); ("buffer_segment", 2); ("load_segment", 2); ("sector_count", 2);
   ("active", 1); ("media", 1); ("emulated_extdrive", 1); ("pad", 1);
   ("lchs.heads", 2); ("lchs.cylinders", 2); ("lchs.spt", 2)].

Definition dpte_s : layout :=
  [("iobase1", 2); ("iobase2", 2); ("prefix", 1); ("unused", 1); ("irq", 1); ("blkcount", 1); ("dma", 1);
   ("pio", 1); ("options", 2); ("reserved", 2); ("revision", 1); ("checksum", 1)].

Definition fdpt_s : layout :=
  [("cylinders", 2); ("heads", 1); ("a0h_signature", 1); ("phys_sectors", 1); ("precompensation", 2);
   ("reserved", 1); ("drive_control_byte", 1); ("phys_cylinders", 2); ("phys_heads", 1); ("landing_zone", 2);
   ("sectors", 1); ("checksum", 1)].

Definition extended_bios_data_area_s : layout :=
  [("size", 1); ("reserved1", 0x21); ("far_call_pointer", 4); ("mouse_flag1", 1); ("mouse_flag2", 1);
   ("mouse_data", 8); ("other1", 0x0d); ("fdpt", 32); ("other2", 0xc4); ("ps2ctr", 1); ("usbkey_last", 8);
   ("RTCusers", 4); ("cdemu", 24); ("dpte", 16); ("cdrom_locks", 16); ("boot_sequence", 2);
   ("extra_stack", 512); ("cdemu_buf", 2048)].

(** [GET_BDA], [SET_BDA]: segment 0x40. *)
Definition SEG_BDA : Z := 0x40.
Definition bda (f : string) : Z := SEG_BDA * 16 + offsetof bios_data_area_s f.
Definition BDA_SIZE : Z := 0xbc.

(** [get_ebda_seg], [GET_EBDA2], [SET_EBDA2]. *)
Definition get_ebda_seg (m : memory) : Z := readw m (bda "ebda_seg").
Definition ebda (m : memory) (f : string) : Z := get_ebda_seg m * 16 + offsetof extended_bios_data_area_s f.

(** ** Registers *)

Record bregs := mk_bregs {
  ds : Z; es : Z; edi : Z; esi : Z; ebp : Z; ebx : Z; edx : Z; ecx : Z; eax : Z; flags : Z }.

(** The parts of a 32-bit register, as the union [UREG] overlays them. *)
Definition lo16 (x : Z) : Z := u16 x.
Definition lo8 (x : Z) : Z := u8 x.
Definition hi8 (x : Z) : Z := u8 (x / 256).
Definition put_lo16 (x v : Z) : Z := x / 65536 * 65536 + u16 v.
Definition put_lo8 (x v : Z) : Z := x / 256 * 256 + u8 v.
Definition put_hi8 (x v : Z) : Z := x / 65536 * 65536 + u8 v * 256 + u8 x.

Definition set_eax (r : bregs) (v : Z) : bregs :=
  mk_bregs (ds r) (es r) (edi r) (esi r) (ebp r) (ebx r) (edx r) (ecx r) v (flags r).
Definition set_ebx (r : bregs) (v : Z) : bregs :=
  mk_bregs (ds r) (es r) (edi r) (esi r) (ebp r) v (edx r) (ecx r) (eax r) (flags r).
Definition set_ecx (r : bregs) (v : Z) : bregs :=
  mk_bregs (ds r) (es r) (edi r) (esi r) (ebp r) (ebx r) (edx r) v (eax r) (flags r).
Definition set_edx (r : bregs) (v : Z) : bregs :=
  mk_bregs (ds r) (es r) (edi r) (esi r) (ebp r) (ebx r) v (ecx r) (eax r) (flags r).
Definition set_edi (r : bregs) (v : Z) : bregs :=
  mk_bregs (ds r) (es r) v (esi r) (ebp r) (ebx r) (edx r) (ecx r) (eax r) (flags r).
Definition set_es (r : bregs) (v : Z) : bregs :=
  mk_bregs (ds r) v (edi r) (esi r) (ebp r) (ebx r) (edx r) (ecx r) (eax r) (flags r).
Definition set_ebp (r : bregs) (v : Z) : bregs :=
  mk_bregs (ds r) (es r) (edi r) (esi r) v (ebx r) (edx r) (ecx r) (eax r) (flags r).
Definition set_flags (r : bregs) (v : Z) : bregs :=
  mk_bregs (ds r) (es r) (edi r) (esi r) (ebp r) (ebx r) (edx r) (ecx r) (eax r) v.

Definition ax r := lo16 (eax r).
Definition al r := lo8 (eax r).
Definition ah r := hi8 (eax r).
Definition bx r := lo16 (ebx r).
Definition bl r := lo8 (ebx r).
Definition bh r := hi8 (ebx r).
Definition bp r := lo16 (ebp r).
Definition cx r := lo16 (ecx r).
Definition cl r := lo8 (ecx r).
Definition ch r := hi8 (ecx r).
Definition dx r := lo16 (edx r).
Definition dl r := lo8 (edx r).
Definition dh r := hi8 (edx r).
Definition si r := lo16 (esi r).
Definition di r := lo16 (edi r).

Definition set_ax r v := set_eax r (put_lo16 (eax r) v).
Definition set_al r v := set_eax r (put_lo8 (eax r) v).
Definition set_ah r v := set_eax r (put_hi8 (eax r) v).
Definition set_bx r v := set_ebx r (put_lo16 (ebx r) v).
Definition set_bl r v := set_ebx r (put_lo8 (ebx r) v).
Definition set_bh r v := set_ebx r (put_hi8 (ebx r) v).
Definition set_bp r v := set_ebp r (put_lo16 (ebp r) v).
Definition set_cx r v := set_ecx r (put_lo16 (ecx r) v).
Definition set_cl r v := set_ecx r (put_lo8 (ecx r) v).
Definition set_ch r v := set_ecx r (put_hi8 (ecx r) v).
Definition set_dx r v := set_edx r (put_lo16 (edx r) v).
Definition set_dl r v := set_edx r (put_lo8 (edx r) v).
Definition set_dh r v := set_edx r (put_hi8 (edx r) v).
Definition set_di r v := set_edi r (put_lo16 (edi r) v).

Definition F_CF : Z := 1.
Definition F_ZF : Z := 64.
Definition F_IF : Z := 512.

Definition set_cf (r : bregs) (cond : bool) : bregs :=
  set_flags r (if cond then Z.lor (flags r) F_CF else Z.ldiff (flags r) F_CF).
Definition set_success (r : bregs) : bregs := set_cf r false.
Definition set_code_success (r : bregs) : bregs := set_cf (set_ah r 0) false.
Definition set_invalid_silent (r : bregs) : bregs := set_cf r true.
Definition set_code_invalid_silent (r : bregs) (code : Z) : bregs := set_cf (set_ah r code) true.

(** [output.c]: the same after a debug message. *)
Definition set_invalid (r : bregs) : bregs := set_invalid_silent r.
Definition set_unimplemented (r : bregs) : bregs := set_invalid_silent r.
Definition set_code_invalid (r : bregs) (linecode : Z) : bregs := set_code_invalid_silent r (u8 linecode).
Definition set_code_unimplemented (r : bregs) (linecode : Z) : bregs := set_code_invalid_silent r (u8 linecode).

Definition cf (r : bregs) : bool := Z.testbit (flags r) 0.
Definition zf (r : bregs) : bool := Z.testbit (flags r) 6.

(** ** Parts of registers *)

Section Parts.
Context (x v : Z).

Lemma lo8_put_lo8 : lo8 (put_lo8 x v) = u8 v.
Proof. unfold lo8, put_lo8, wrap. change (2 ^ 8) with 256. Z.to_euclidean_division_equations; lia. Qed.
Lemma lo8_put_hi8 : lo8 (put_hi8 x v) = lo8 x.
Proof. unfold lo8, put_hi8, wrap. change (2 ^ 8) with 256. Z.to_euclidean_division_equations; lia. Qed.
Lemma hi8_put_lo8 : hi8 (put_lo8 x v) = hi8 x.
Proof. unfold hi8, put_lo8, wrap. change (2 ^ 8) with 256. Z.to_euclidean_division_equations; lia. Qed.
Lemma hi8_put_hi8 : hi8 (put_hi8 x v) = u8 v.
Proof.
  unfold hi8, put_hi8, wrap. change (2 ^ 8) with 256.
  pose proof (Z.mod_pos_bound x 256). pose proof (Z.mod_pos_bound v 256).
  replace (x / 65536 * 65536 + v mod 256 * 256 + x mod 256)
    with ((v mod 256 + x / 65536 * 256) * 256 + x mod 256) by lia.
  rewrite Z.div_add_l, (Z.div_small (x mod 256)), Z.add_0_r, Z.mod_add by lia. apply Z.mod_mod. lia.
Qed.
Lemma lo16_put_lo16 : lo16 (put_lo16 x v) = u16 v.
Proof. unfold lo16, put_lo16, wrap. change (2 ^ 16) with 65536. Z.to_euclidean_division_equations; lia. Qed.
Lemma lo16_parts : lo16 x = hi8 x * 256 + lo8 x.
Proof.
  unfold lo16, hi8, lo8, wrap. change (2 ^ 16) with 65536. change (2 ^ 8) with 256.
  Z.to_euclidean_division_equations; lia.
Qed.
End Parts.

Lemma wrap_lo8 x : u8 (lo8 x) = lo8 x.
Proof. unfold lo8. by rewrite wrap_idem by lia. Qed.
Lemma wrap_hi8 x : u8 (hi8 x) = hi8 x.
Proof. unfold hi8. by rewrite wrap_idem by lia. Qed.
Lemma wrap_lo16 x : u16 (lo16 x) = lo16 x.
Proof. unfold lo16. by rewrite wrap_idem by lia. Qed.

Create Rewrite HintDb regs.
#[export] Hint Rewrite lo8_put_lo8 lo8_put_hi8 hi8_put_lo8 hi8_put_hi8 lo16_put_lo16 : regs.

Lemma cf_set r c : cf (set_cf r c) = c.
Proof.
  unfold cf, set_cf, set_flags, F_CF. destruct c; cbn [flags].
  - by rewrite Z.lor_spec, orb_true_r.
  - by rewrite Z.ldiff_spec, andb_false_r.
Qed.
#[export] Hint Rewrite cf_set : regs.

(** Reduce reads of parts of an updated register file. *)
Ltac reg_simpl :=
  cbv beta iota delta [ds es edi esi ebp ebx edx ecx eax flags set_eax set_ebx set_ecx set_edx set_edi set_es set_ebp set_flags
       ax al ah bx bl bh bp set_bl set_bh set_bp cx cl ch dx dl dh si di set_ax set_al set_ah set_bx set_cx set_cl set_ch set_dx set_dl set_dh set_di
       set_cf set_success set_code_success set_invalid_silent set_code_invalid_silent set_invalid set_unimplemented
       set_code_invalid set_code_unimplemented];
  autorewrite with regs.

(** ** Accesses to memory *)

Definition readq (m : memory) (a : Z) : Z := Z.lor (readl m a) (Z.shiftl (readl m (a + 4)) 32).
Definition writeq (m : memory) (a v : Z) : memory := writel (writel m a v) (a + 4) (Z.shiftr v 32).

Lemma readw_ext m m' a : m' a = m a -> m' (a + 1) = m (a + 1) -> readw m' a = readw m a.
Proof. unfold readw. by intros -> ->. Qed.

Lemma readw_writew m a v : readw (writew m a v) a = u16 v.
Proof.
  unfold readw, writew, writeb. addr_decide.
  rewrite Z.shiftr_div_pow2, lor_shiftl by (lia || apply wrap_range; lia).
  unfold wrap. change (2 ^ 8) with 256. change (2 ^ 16) with 65536. Z.to_euclidean_division_equations; lia.
Qed.

Lemma readw_writew_ne m a b v : a + 1 < b \/ b + 1 < a -> readw (writew m b v) a = readw m a.
Proof. intros H. unfold readw, writew, writeb. by addr_decide. Qed.

Lemma readw_writeb_ne m a b v : b <> a -> b <> a + 1 -> readw (writeb m b v) a = readw m a.
Proof. intros H1 H2. unfold readw, writeb. by addr_decide. Qed.

Lemma writew_other m b v x : x <> b -> x <> b + 1 -> writew m b v x = m x.
Proof. intros H1 H2. unfold writew, writeb. by addr_decide. Qed.

Lemma writeb_same m b v : writeb m b v b = u8 v.
Proof. unfold writeb. by rewrite Z.eqb_refl. Qed.

Lemma writeb_at m b v x : x = b -> writeb m b v x = u8 v.
Proof. intros ->. apply writeb_same. Qed.

Lemma writeb_other m b v x : x <> b -> writeb m b v x = m x.
Proof. intros H. unfold writeb. by addr_decide. Qed.

Lemma bytes_writew m a v : bytes m -> bytes (writew m a v).
Proof. intros. by repeat apply bytes_writeb. Qed.

Lemma readl_writel m a v : readl (writel m a v) a = u32 v.
Proof.
  unfold readl at 1, writel. rewrite readw_writew, readw_writew_ne, readw_writew by lia.
  rewrite Z.shiftr_div_pow2, lor_shiftl by (lia || apply wrap_range; lia).
  unfold wrap. change (2 ^ 16) with 65536. change (2 ^ 32) with (65536 * 65536).
  Z.to_euclidean_division_equations; lia.
Qed.

Lemma writel_other m a v x : x < a \/ a + 4 <= x -> writel m a v x = m x.
Proof. intros H. unfold writel. by rewrite !writew_other by lia. Qed.

Lemma readl_ext m m' a : (forall x, a <= x < a + 4 -> m' x = m x) -> readl m' a = readl m a.
Proof.
  intros H. unfold readl. rewrite (readw_ext m m' a), (readw_ext m m' (a + 2)) by (apply H; lia). done.
Qed.

Lemma readw_range m a : bytes m -> in_u 16 (readw m a).
Proof.
  intros Hm. rewrite readw_sum by done. pose proof (Hm a). pose proof (Hm (a + 1)). unfold in_u in *. lia.
Qed.

Lemma readl_range m a : bytes m -> in_u 32 (readl m a).
Proof.
  intros Hm. rewrite readl_sum by done. pose proof (readw_range m a Hm). pose proof (readw_range m (a + 2) Hm).
  unfold in_u in *. lia.
Qed.

#[export] Hint Resolve bytes_writeb bytes_writew bytes_writel : coremu.

Lemma readl_writel_ne m a b v : a + 4 <= b \/ b + 4 <= a -> readl (writel m b v) a = readl m a.
Proof. intros Hab. apply readl_ext. intros x Hx. apply writel_other. lia. Qed.

Lemma readq_writeq m a v : readq (writeq m a v) a = u64 v.
Proof.
  unfold readq, writeq. rewrite readl_writel, readl_writel_ne, readl_writel by lia.
  rewrite Z.shiftr_div_pow2, lor_shiftl by (lia || apply wrap_range; lia).
  unfold wrap. change (2 ^ 64) with (2 ^ 32 * 2 ^ 32). change (2 ^ 32) with 4294967296.
  Z.to_euclidean_division_equations; lia.
Qed.

Lemma writeq_other m a v x : x < a \/ a + 8 <= x -> writeq m a v x = m x.
Proof. intros Hx. unfold writeq. by rewrite !writel_other by lia. Qed.

Lemma readq_ext m m' a : (forall x, a <= x < a + 8 -> m' x = m x) -> readq m' a = readq m a.
Proof.
  intros Hx. unfold readq. rewrite (readl_ext m m' a), (readl_ext m m' (a + 4)); [done|..]; intros x ?; apply Hx; lia.
Qed.

Lemma bytes_writeq m a v : bytes m -> bytes (writeq m a v).
Proof. intros. by do 2 apply bytes_writel. Qed.
#[export] Hint Resolve bytes_writeq : coremu.
