(* ===== verification/Lzma.v ===== *)
(** * The LZMA decoder: [bios/seabios/src/lzmadecode.c]

    The range decoder is a state monad over the input position, [Range], [Code] and the
    table of probabilities.  An access outside the input, the output written so far or
    the table is [Fault]; [return LZMA_RESULT_DATA_ERROR] is [Ok None].  Loops run on
    the number of bits left, and the main loop on the output space left, of which every
    round uses some. *)

From S2P Require Import Prelude.
Local Open Scope Z_scope.
Local Open Scope coremu_scope.

(** ** Constants *)

Definition kTopValue : Z := 2 ^ 24.
Definition kNumBitModelTotalBits : Z := 11.
Definition kBitModelTotal : Z := 2 ^ 11.
Definition kNumMoveBits : Z := 5.
Definition kNumPosBitsMax : Z := 4.
Definition kNumStates : Z := 12.
Definition kNumLitStates : Z := 7.
Definition kStartPosModelIndex : Z := 4.
Definition kEndPosModelIndex : Z := 14.
Definition kNumPosSlotBits : Z := 6.
Definition kNumLenToPosStates : Z := 4.
Definition kNumAlignBits : Z := 4.
Definition kMatchMinLen : Z := 2.
Definition LenChoice : Z := 0.
Definition LenChoice2 : Z := 1.
Definition LenLow : Z := 2.
Definition LenMid : Z := LenLow + 128.
Definition LenHigh : Z := LenMid + 128.
Definition kNumLenProbs : Z := LenHigh + 256.
Definition IsMatch : Z := 0.
Definition IsRep : Z := IsMatch + 192.
Definition IsRepG0 : Z := IsRep + kNumStates.
Definition IsRepG1 : Z := IsRepG0 + kNumStates.
Definition IsRepG2 : Z := IsRepG1 + kNumStates.
Definition IsRep0Long : Z := IsRepG2 + kNumStates.
Definition PosSlot : Z := IsRep0Long + 192.
Definition SpecPos : Z := PosSlot + 256.
Definition Align : Z := SpecPos + 128 - kEndPosModelIndex.
Definition LenCoder : Z := Align + 16.
Definition RepLenCoder : Z := LenCoder + kNumLenProbs.
Definition Literal : Z := RepLenCoder + kNumLenProbs.
Definition LZMA_LIT_SIZE : Z := 768.

(** ** Properties *)

Record CLzmaProperties := mk_props { lc : Z; lp : Z; pb : Z }.

(** Subtract [d] from the properties byte as long as it fits, counting. *)
Fixpoint count_down (fuel : nat) (n p d : Z) : Z * Z :=
  match fuel with
  | O => (n, p)
  | S fuel => if d <=? p then count_down fuel (n + 1) (p - d) d else (n, p)
  end.

(** [None] is [LZMA_RESULT_DATA_ERROR]. *)
Definition LzmaDecodeProperties (propsData : list Z) (size : Z) : outcome (option CLzmaProperties) :=
  if size <? 5 then Ok None
  else
    let! prop0 := of_option (propsData !! 0%nat) in
    if 9 * 5 * 5 <=? prop0 then Ok None
    else
      let '(pb, prop0) := count_down 255 0 prop0 (9 * 5) in
      let '(lp, prop0) := count_down 255 0 prop0 9 in
      Ok (Some (mk_props prop0 lp pb)).

(** ** The range decoder *)

Record rc := mk_rc { Buffer : nat; Range : Z; Code : Z; Probs : list Z }.

Section Decoder.
Context (inStream : list Z).

Definition M (A : Type) : Type := rc -> outcome (option (A * rc)).
Definition retM {A} (a : A) : M A := fun s => Ok (Some (a, s)).
Definition bindM {A B} (m : M A) (k : A -> M B) : M B := fun s => let? '(a, s) := m s in k a s.
Notation "'do' x := m 'in' k" := (bindM m (fun x => k)) (at level 10, x name, m at level 200, k at level 200).

(** [RC_TEST] and [RC_READ_BYTE]: the shift register takes one more byte. *)
Definition RC_READ : M unit := fun s =>
  if bool_decide (Buffer s = length inStream) then Ok None
  else
    let! b := of_option (inStream !! Buffer s) in
    Ok (Some (tt, mk_rc (S (Buffer s)) (Range s) (Z.lor (u32 (Z.shiftl (Code s) 8)) b) (Probs s))).

Definition RC_NORMALIZE : M unit := fun s =>
  if Range s <? kTopValue then
    RC_READ (mk_rc (Buffer s) (u32 (Z.shiftl (Range s) 8)) (Code s) (Probs s))
  else Ok (Some (tt, s)).

(** [IfBit0(prob)] with [UpdateBit0] or [UpdateBit1]: the bit decoded. *)
Definition RC_BIT (prob : Z) : M Z :=
  do u := RC_NORMALIZE in
  fun s =>
    let! p := if 0 <=? prob then of_option (Probs s !! Z.to_nat prob) else Fault in
    let bound := u32 (Z.shiftr (Range s) kNumBitModelTotalBits * p) in
    if Code s <? bound then
      let p := u16 (p + Z.shiftr (kBitModelTotal - p) kNumMoveBits) in
      Ok (Some (0, mk_rc (Buffer s) bound (Code s) (<[Z.to_nat prob := p]> (Probs s))))
    else
      let p := u16 (p - Z.shiftr p kNumMoveBits) in
      Ok (Some (1, mk_rc (Buffer s) (u32 (Range s - bound)) (u32 (Code s - bound))
                     (<[Z.to_nat prob := p]> (Probs s)))).

(** [n] rounds of [RC_GET_BIT(probs + mi, mi)]. *)
Fixpoint bit_tree (probs : Z) (n : nat) (mi : Z) : M Z :=
  match n with
  | O => retM mi
  | S n => do b := RC_BIT (probs + mi) in bit_tree probs n (2 * mi + b)
  end.

Definition RangeDecoderBitTreeDecode (probs : Z) (numLevels : nat) : M Z :=
  do res := bit_tree probs numLevels 1 in
  retM (res - 2 ^ Z.of_nat numLevels).

(** The literal after a match: compare with the byte of the match until they differ. *)
Fixpoint matched_literal (n : nat) (prob matchByte symbol : Z) : M Z :=
  match n with
  | O => retM symbol
  | S n =>
      let matchByte := Z.shiftl matchByte 1 in
      let bit := Z.land matchByte 0x100 in
      do b := RC_BIT (prob + 0x100 + bit + symbol) in
      let symbol := 2 * symbol + b in
      if negb (bit =? 0) && (b =? 0) || (bit =? 0) && negb (b =? 0) then retM symbol
      else if symbol <? 0x100 then matched_literal n prob matchByte symbol
      else retM symbol
  end.

(** The plain literal: [while (symbol < 0x100)]. *)
Fixpoint plain_literal (n : nat) (prob symbol : Z) : M Z :=
  match n with
  | O => retM symbol
  | S n =>
      if symbol <? 0x100 then do b := RC_BIT (prob + symbol) in plain_literal n prob (2 * symbol + b)
      else retM symbol
  end.

(** The length decoder at [prob]. *)
Definition decode_len (prob posState : Z) : M Z :=
  do b := RC_BIT (prob + LenChoice) in
  if b =? 0 then RangeDecoderBitTreeDecode (prob + LenLow + Z.shiftl posState 3) 3
  else
    do b := RC_BIT (prob + LenChoice2) in
    if b =? 0 then
      do l := RangeDecoderBitTreeDecode (prob + LenMid + Z.shiftl posState 3) 3 in retM (l + 8)
    else
      do l := RangeDecoderBitTreeDecode (prob + LenHigh) 8 in retM (l + 16).

(** The direct bits of a far distance. *)
Fixpoint direct_bits (n : nat) (rep0 : Z) : M Z :=
  match n with
  | O => retM rep0
  | S n =>
      do u := RC_NORMALIZE in
      fun s =>
        let range := Z.shiftr (Range s) 1 in
        let rep0 := u32 (Z.shiftl rep0 1) in
        if range <=? Code s
        then direct_bits n (Z.lor rep0 1) (mk_rc (Buffer s) range (u32 (Code s - range)) (Probs s))
        else direct_bits n rep0 (mk_rc (Buffer s) range (Code s) (Probs s))
  end.

(** The low bits of a distance, least significant first. *)
Fixpoint reverse_bits (n : nat) (prob i mi rep0 : Z) : M Z :=
  match n with
  | O => retM rep0
  | S n =>
      do b := RC_BIT (prob + mi) in
      reverse_bits n prob (Z.shiftl i 1) (2 * mi + b) (if b =? 0 then rep0 else Z.lor rep0 i)
  end.

(** The new [rep0] of a match, before it is incremented. *)
Definition decode_distance (len : Z) : M Z :=
  do posSlot := RangeDecoderBitTreeDecode
    (PosSlot + Z.shiftl (if len <? kNumLenToPosStates then len else kNumLenToPosStates - 1) kNumPosSlotBits) 6 in
  if kStartPosModelIndex <=? posSlot then
    let numDirectBits := Z.shiftr posSlot 1 - 1 in
    let rep0 := Z.lor 2 (Z.land posSlot 1) in
    if posSlot <? kEndPosModelIndex then
      let rep0 := Z.shiftl rep0 numDirectBits in
      reverse_bits (Z.to_nat numDirectBits) (SpecPos + rep0 - posSlot - 1) 1 1 rep0
    else
      do rep0 := direct_bits (Z.to_nat (numDirectBits - kNumAlignBits)) rep0 in
      reverse_bits 4 Align 1 1 (u32 (Z.shiftl rep0 kNumAlignBits))
  else retM posSlot.

(** ** The main loop *)

(** [outStream[0 .. nowPos)] and the other variables of the loop. *)
Record lz := mk_lz {
  outStream : list Z; previousByte : Z; state : Z; rep0 : Z; rep1 : Z; rep2 : Z; rep3 : Z }.

Definition nowPos (z : lz) : Z := Z.of_nat (length (outStream z)).

(** [outStream[nowPos - rep0]]. *)
Definition back (out : list Z) (rep0 : Z) : outcome Z :=
  let i := Z.of_nat (length out) - rep0 in
  if 0 <=? i then of_option (out !! Z.to_nat i) else Fault.

(** The copy of a match, [n + 1] bytes or until the output is full. *)
Fixpoint copy_match (n : nat) (out : list Z) (outSize rep0 : Z) : outcome (list Z * Z) :=
  let! b := back out rep0 in
  let out := out ++ [b] in
  match n with
  | O => Ok (out, b)
  | S n => if Z.of_nat (length out) <? outSize then copy_match n out outSize rep0 else Ok (out, b)
  end.

Definition liftM {A} (m : outcome A) : M A := fun s => let! a := m in Ok (Some (a, s)).
(** [return LZMA_RESULT_DATA_ERROR]. *)
Definition failM {A} : M A := fun _ => Ok None.

(** The distances and state a repeated match uses, or the short repeat itself. *)
Inductive rep_result := ShortRep (z : lz) | RepMatch (z : lz).

Definition decode_literal (props : CLzmaProperties) (z : lz) : M lz :=
  let prob := Literal + LZMA_LIT_SIZE *
    (Z.shiftl (Z.land (nowPos z) (2 ^ lp props - 1)) (lc props) +
     Z.shiftr (previousByte z) (8 - lc props)) in
  do symbol :=
    if kNumLitStates <=? state z then
      do matchByte := liftM (back (outStream z) (rep0 z)) in matched_literal 8 prob matchByte 1
    else retM 1 in
  do symbol := plain_literal 8 prob symbol in
  let b := u8 symbol in
  let st := if state z <? 4 then 0 else if state z <? 10 then state z - 3 else state z - 6 in
  retM (mk_lz (outStream z ++ [b]) b st (rep0 z) (rep1 z) (rep2 z) (rep3 z)).

Definition decode_rep (posState : Z) (z : lz) : M rep_result :=
  let st := if state z <? kNumLitStates then 8 else 11 in
  do g0 := RC_BIT (IsRepG0 + state z) in
  if g0 =? 0 then
    do long := RC_BIT (IsRep0Long + Z.shiftl (state z) kNumPosBitsMax + posState) in
    if long =? 0 then
      if nowPos z =? 0 then failM
      else
        do b := liftM (back (outStream z) (rep0 z)) in
        retM (ShortRep (mk_lz (outStream z ++ [b]) b (if state z <? kNumLitStates then 9 else 11)
                          (rep0 z) (rep1 z) (rep2 z) (rep3 z)))
    else retM (RepMatch (mk_lz (outStream z) (previousByte z) st (rep0 z) (rep1 z) (rep2 z) (rep3 z)))
  else
    do g1 := RC_BIT (IsRepG1 + state z) in
    if g1 =? 0 then
      retM (RepMatch (mk_lz (outStream z) (previousByte z) st (rep1 z) (rep0 z) (rep2 z) (rep3 z)))
    else
      do g2 := RC_BIT (IsRepG2 + state z) in
      if g2 =? 0 then
        retM (RepMatch (mk_lz (outStream z) (previousByte z) st (rep2 z) (rep0 z) (rep1 z) (rep3 z)))
      else
        retM (RepMatch (mk_lz (outStream z) (previousByte z) st (rep3 z) (rep0 z) (rep1 z) (rep2 z))).

(** What a round leaves: [true] with the loop variables to go on, [false] at the
    end marker. *)
Definition finish_match (outSize len : Z) (z : lz) : M (bool * lz) :=
  let len := len + kMatchMinLen in
  if nowPos z <? rep0 z then failM
  else
    do r := liftM (copy_match (Z.to_nat (len - 1)) (outStream z) outSize (rep0 z)) in
    retM (true, mk_lz r.1 r.2 (state z) (rep0 z) (rep1 z) (rep2 z) (rep3 z)).

Definition lzma_round (props : CLzmaProperties) (outSize : Z) (z : lz) : M (bool * lz) :=
  let posState := Z.land (nowPos z) (2 ^ pb props - 1) in
  do b := RC_BIT (IsMatch + Z.shiftl (state z) kNumPosBitsMax + posState) in
  if b =? 0 then do z := decode_literal props z in retM (true, z)
  else
    do b := RC_BIT (IsRep + state z) in
    if b =? 0 then
      let st := if state z <? kNumLitStates then 0 else 3 in
      do len := decode_len LenCoder posState in
      do d := decode_distance len in
      let r := u32 (d + 1) in
      let z := mk_lz (outStream z) (previousByte z) (st + kNumLitStates) r (rep0 z) (rep1 z) (rep2 z) in
      if r =? 0 then retM (false, z) else finish_match outSize len z
    else
      do rr := decode_rep posState z in
      match rr with
      | ShortRep z => retM (true, z)
      | RepMatch z => do len := decode_len RepLenCoder posState in finish_match outSize len z
      end.

(** Running out of [fuel] with output space left is a fault, which the main theorem
    excludes. *)
Fixpoint lzma_loop (fuel : nat) (props : CLzmaProperties) (outSize : Z) (z : lz) : M lz :=
  if nowPos z <? outSize then
    match fuel with
    | O => fun _ => Fault
    | S fuel =>
        do r := lzma_round props outSize z in
        if r.1 then lzma_loop fuel props outSize r.2 else retM r.2
    end
  else retM z.

Definition numProbs (props : CLzmaProperties) : Z :=
  Literal + Z.shiftl LZMA_LIT_SIZE (lc props + lp props).

(** [LzmaDecode]: the bytes consumed and the output, [None] on a data error. *)
Definition LzmaDecode (props : CLzmaProperties) (outSize : Z) : outcome (option (Z * list Z)) :=
  let s := mk_rc 0 0xFFFFFFFF 0 (replicate (Z.to_nat (numProbs props)) (Z.shiftr kBitModelTotal 1)) in
  let run :=
    do u := RC_READ in do u := RC_READ in do u := RC_READ in do u := RC_READ in do u := RC_READ in
    do z := lzma_loop (Z.to_nat outSize) props outSize (mk_lz [] 0 0 1 1 1 1) in
    do u := RC_NORMALIZE in
    retM (outStream z) in
  let? '(out, s) := run s in
  Ok (Some (Z.of_nat (Buffer s), out)).
End Decoder.

(** 19 bytes packed by a reference encoder, with an end marker: literals, matches, a
    short repeat. *)
Definition demo_stream : list Z :=
  [0; 48; 153; 171; 220; 37; 0; 40; 186; 160; 95; 255; 255; 252; 226; 0; 0].
Definition demo_text : list Z :=
  [97; 98; 99; 97; 98; 99; 97; 98; 99; 97; 98; 99; 97; 98; 33; 97; 97; 97; 97].

Example LzmaDecode_demo :
  LzmaDecode demo_stream (mk_props 0 0 0) 19 = Ok (Some (12, demo_text)) /\
  LzmaDecode demo_stream (mk_props 0 0 0) 30 = Ok (Some (17, demo_text)).
Proof. by vm_compute. Qed.

(** ** The output window *)

Definition byte (x : Z) : Prop := 0 <= x < 256.

Lemma back_ok out r : 1 <= r <= Z.of_nat (length out) -> Forall byte out -> exists b, back out r = Ok b /\ byte b.
Proof.
  intros Hr Hb. unfold back. rewrite (proj2 (Z.leb_le _ _)) by lia.
  destruct (lookup_lt_is_Some_2 out (Z.to_nat (Z.of_nat (length out) - r))) as [b E]; [lia|].
  rewrite E. exists b. split; [done|]. by eapply Forall_lookup_1.
Qed.

(** A copy extends the output by [ext], at least one byte and never past [outSize],
    each byte equal to the one [r] before it. *)
Lemma copy_match_spec k out outSize r :
  1 <= r <= Z.of_nat (length out) -> Forall byte out -> Z.of_nat (length out) < outSize ->
  exists ext b, copy_match k out outSize r = Ok (out ++ ext, b) /\ byte b /\ last ext = Some b /\ Forall byte ext /\
    Z.of_nat (length ext) = Z.min (Z.of_nat (S k)) (outSize - Z.of_nat (length out)) /\
    (forall i, (length out <= i < length out + length ext)%nat ->
       (out ++ ext) !! i = (out ++ ext) !! (i - Z.to_nat r)%nat).
Proof.
  revert out. induction k as [|k IH]; intros out Hr Hb Ho; cbn [copy_match];
    destruct (back_ok out r Hr Hb) as (b & Eb & Hbb); rewrite Eb; simpl.
  all: assert (out !! (length out - Z.to_nat r)%nat = Some b) as Lb.
  1, 3: unfold back in Eb; rewrite (proj2 (Z.leb_le _ _)) in Eb by lia;
    replace (length out - Z.to_nat r)%nat with (Z.to_nat (Z.of_nat (length out) - r)) by lia;
    destruct (out !! _) eqn:E in Eb |- *; simpl in Eb; congruence.
  all: assert (forall ext i, i = length out -> (out ++ b :: ext) !! i = (out ++ b :: ext) !! (i - Z.to_nat r)%nat) as H0
    by (intros ext i ->; rewrite (lookup_app_l _ _ (length out - _)%nat), Lb by lia; by rewrite list_lookup_middle).
  - exists [b], b. split_and!; auto; [simpl; lia|]. intros i Hi. simpl in Hi. apply H0. lia.
  - rewrite length_app. simpl. case_test.
    + destruct (IH (out ++ [b])) as (ext & b' & E1 & Hb' & Hla & He & Hl & Hc).
      { rewrite length_app. simpl. lia. } { apply Forall_app. auto. } { rewrite length_app. simpl. lia. }
      rewrite <- (assoc_L (++)) in *. simpl in *. exists (b :: ext), b'. rewrite E1. split_and!; auto.
      * by destruct ext.
      * rewrite length_app in Hl. simpl in *. lia.
      * intros i Hi. simpl in Hi. destruct (decide (i = length out)); [by apply H0|].
        apply Hc. rewrite length_app. simpl. lia.
    + exists [b], b. split_and!; auto; [simpl; lia|]. intros i Hi. simpl in Hi. apply H0. lia.
Qed.

(** ** The loop variables *)

(** A distance points into the output, or is the initial 1 of an empty output. *)
Definition rep_ok (z : lz) (r : Z) : Prop := 1 <= r <= Z.max 1 (nowPos z).

Record lz_ok (outSize : Z) (z : lz) : Prop := {
  lz_state : 0 <= state z < 12;
  lz_reps : Forall (rep_ok z) [rep0 z; rep1 z; rep2 z; rep3 z];
  lz_match : kNumLitStates <= state z -> 1 <= nowPos z;
  lz_prev : byte (previousByte z);
  lz_bytes : Forall byte (outStream z);
  lz_size : nowPos z <= outSize }.

(** One round: the output grows within its bound and stays a prefix. *)
Definition grows (outSize : Z) (z z' : lz) : Prop :=
  lz_ok outSize z' /\ outStream z `prefix_of` outStream z' /\ nowPos z < nowPos z'.

Lemma rep_ok_mono z z' r : nowPos z <= nowPos z' -> rep_ok z r -> rep_ok z' r.
Proof. unfold rep_ok. lia. Qed.

Lemma nowPos_app out ext p st r0 r1 r2 r3 :
  nowPos (mk_lz (out ++ ext) p st r0 r1 r2 r3) = Z.of_nat (length out) + Z.of_nat (length ext).
Proof. unfold nowPos. simpl. rewrite length_app. lia. Qed.

(** Appending bytes with distances that were fine keeps the invariant. *)
Lemma grows_app outSize z ext p st r0 r1 r2 r3 :
  lz_ok outSize z -> Forall byte ext -> byte p -> (1 <= length ext)%nat ->
  nowPos z + Z.of_nat (length ext) <= outSize -> 0 <= st < 12 ->
  Forall (rep_ok z) [r0; r1; r2; r3] ->
  grows outSize z (mk_lz (outStream z ++ ext) p st r0 r1 r2 r3).
Proof.
  intros Hz He Hp Hl Hs Hst Hr. unfold grows. rewrite nowPos_app. split_and!.
  - split; simpl; auto; rewrite ?nowPos_app; unfold nowPos in *; try lia.
    + eapply Forall_impl; [exact Hr|]. intros r. apply rep_ok_mono. rewrite nowPos_app. unfold nowPos. lia.
    + apply Forall_app. split; [apply Hz|done].
  - simpl. by exists ext.
  - unfold nowPos. lia.
Qed.

Lemma land_mask x k : 0 <= x -> 0 <= k -> 0 <= Z.land x (2 ^ k - 1) < 2 ^ k.
Proof.
  intros Hx Hk. replace (2 ^ k - 1) with (Z.ones k) by (rewrite Z.ones_equiv; lia).
  rewrite Z.land_ones by lia. apply Z.mod_pos_bound. lia.
Qed.

(** ** Memory safety *)

Section Safety.
Context (inStream : list Z) (n : nat).

(** [m] returns or reports a data error, in every state whose table has [n] entries and
    whose input position is inside the input; its result satisfies [Q]. *)
Definition safe {A} (m : M A) (Q : A -> Prop) : Prop :=
  forall s, length (Probs s) = n -> (Buffer s <= length inStream)%nat ->
  match m s with
  | Ok (Some (a, s')) => Q a /\ length (Probs s') = n /\ (Buffer s' <= length inStream)%nat
  | Ok None => True
  | _ => False
  end.

Lemma safe_ret {A} (a : A) (Q : A -> Prop) : Q a -> safe (retM a) Q.
Proof using. by intros HQ s H1 H2. Qed.

Lemma safe_fail {A} (Q : A -> Prop) : safe failM Q.
Proof using. by intros s H1 H2. Qed.

Lemma safe_bind {A B} (m : M A) (k : A -> M B) (P : A -> Prop) (Q : B -> Prop) :
  safe m P -> (forall a, P a -> safe (k a) Q) -> safe (bindM m k) Q.
Proof using.
  intros Hm Hk s H1 H2. unfold bindM. specialize (Hm s H1 H2).
  destruct (m s) as [[[a s']|]| |]; simpl; try done. destruct Hm as (Ha & H3 & H4). by apply Hk.
Qed.

Lemma safe_weaken {A} (m : M A) (P Q : A -> Prop) : safe m P -> (forall a, P a -> Q a) -> safe m Q.
Proof using.
  intros Hm HPQ s H1 H2. specialize (Hm s H1 H2). destruct (m s) as [[[a s']|]| |]; intuition.
Qed.

Lemma safe_lift {A} (m : outcome A) a (Q : A -> Prop) : m = Ok a -> Q a -> safe (liftM m) Q.
Proof using. by intros -> HQ s H1 H2. Qed.

Lemma safe_READ : safe (RC_READ inStream) (fun _ => True).
Proof using.
  intros s H1 H2. unfold RC_READ. case_bool_decide; [done|].
  destruct (lookup_lt_is_Some_2 inStream (Buffer s)) as [b ->]; [lia|]. simpl. split_and!; [done|done|lia].
Qed.

Lemma safe_NORMALIZE : safe (RC_NORMALIZE inStream) (fun _ => True).
Proof using.
  intros s H1 H2. unfold RC_NORMALIZE. case_test; [|done]. by apply safe_READ.
Qed.

Lemma safe_BIT prob :
  0 <= prob < Z.of_nat n -> safe (RC_BIT inStream prob) (fun b => b = 0 \/ b = 1).
Proof using.
  intros Hp. unfold RC_BIT. eapply safe_bind; [apply safe_NORMALIZE|]. intros _ _ s H1 H2.
  rewrite (proj2 (Z.leb_le _ _)) by lia.
  destruct (lookup_lt_is_Some_2 (Probs s) (Z.to_nat prob)) as [p ->]; [lia|]. simpl.
  case_test; simpl; rewrite length_insert; auto.
Qed.

(** A tree in a table of [w] entries, [k] levels left. *)
Lemma safe_bit_tree probs w k mi :
  0 <= probs -> probs + w <= Z.of_nat n -> 1 <= mi -> (mi + 1) * 2 ^ Z.of_nat k <= 2 * w ->
  safe (bit_tree inStream probs k mi)
    (fun r => mi * 2 ^ Z.of_nat k <= r < (mi + 1) * 2 ^ Z.of_nat k).
Proof using.
  intros H0 H1. revert mi. induction k as [|k IH]; intros mi Hmi Hk; cbn [bit_tree].
  - apply safe_ret. simpl. lia.
  - rewrite Nat2Z.inj_succ, Z.pow_succ_r in * by lia.
    assert (0 < 2 ^ Z.of_nat k) by (apply Z.pow_pos_nonneg; lia).
    set (v := 2 ^ Z.of_nat k) in *. assert (mi + 1 <= (mi + 1) * v) by nia.
    eapply safe_bind; [apply safe_BIT; lia|]. intros b Hb. cbv beta in Hb.
    eapply safe_weaken; [apply IH; nia|]. simpl. intros r Hr. nia.
Qed.

Lemma safe_tree probs k :
  0 <= probs -> probs + 2 ^ Z.of_nat k <= Z.of_nat n ->
  safe (RangeDecoderBitTreeDecode inStream probs k) (fun r => 0 <= r < 2 ^ Z.of_nat k).
Proof using.
  intros H0 H1. unfold RangeDecoderBitTreeDecode. eapply safe_bind.
  - apply (safe_bit_tree probs (2 ^ Z.of_nat k)); done || lia.
  - simpl. intros r Hr. apply safe_ret. lia.
Qed.

Lemma safe_matched prob k matchByte symbol :
  0 <= prob -> prob + 768 <= Z.of_nat n -> 1 <= symbol < 256 ->
  safe (matched_literal inStream k prob matchByte symbol) (fun r => 1 <= r < 512).
Proof using.
  intros H0 H1. revert matchByte symbol. induction k as [|k IH]; intros matchByte symbol Hs; cbn [matched_literal].
  - apply safe_ret. lia.
  - set (bit := Z.land (Z.shiftl matchByte 1) 0x100).
    assert (bit = 0 \/ bit = 256) as Hbit.
    { subst bit. rewrite Z.land_comm. change 256 with (2 ^ 8).
      destruct (Z.testbit (Z.shiftl matchByte 1) 8) eqn:E; [right|left]; apply Z.bits_inj'; intros i Hi;
        rewrite Z.land_spec, Z.pow2_bits_eqb, ?Z.bits_0 by lia; destruct (Z.eqb_spec 8 i) as [<-|]; rewrite ?E; done. }
    eapply safe_bind; [apply safe_BIT; lia|]. intros b Hb. cbv beta in Hb.
    case_test; [apply safe_ret; lia|]. case_test; [apply IH; lia|apply safe_ret; lia].
Qed.

Lemma safe_plain prob k symbol :
  0 <= prob -> prob + 256 <= Z.of_nat n -> 1 <= symbol < 512 -> 256 <= symbol * 2 ^ Z.of_nat k ->
  safe (plain_literal inStream k prob symbol) (fun r => 256 <= r < 512).
Proof using.
  intros H0 H1. revert symbol. induction k as [|k IH]; intros symbol Hs Hk; cbn [plain_literal].
  - apply safe_ret. simpl in Hk. lia.
  - rewrite Nat2Z.inj_succ, Z.pow_succ_r in Hk by lia.
    assert (0 < 2 ^ Z.of_nat k) by (apply Z.pow_pos_nonneg; lia).
    case_test; [|apply safe_ret; lia]. eapply safe_bind; [apply safe_BIT; lia|]. intros b Hb. cbv beta in Hb.
    apply IH; nia.
Qed.

Lemma safe_reverse prob w k i mi r :
  -1 <= prob -> prob + w <= Z.of_nat n -> 1 <= mi -> (mi + 1) * 2 ^ Z.of_nat k <= 2 * w ->
  safe (reverse_bits inStream k prob i mi r) (fun _ => True).
Proof using.
  intros H0 H1. revert i mi r. induction k as [|k IH]; intros i mi r Hmi Hk; cbn [reverse_bits].
  - by apply safe_ret.
  - assert (0 < 2 ^ Z.of_nat k) by (apply Z.pow_pos_nonneg; lia).
    rewrite Nat2Z.inj_succ, Z.pow_succ_r in Hk by lia.
    set (v := 2 ^ Z.of_nat k) in *. assert (mi + 1 <= (mi + 1) * v) by nia.
    eapply safe_bind; [apply safe_BIT; lia|]. intros b Hb. cbv beta in Hb. apply IH; nia.
Qed.

Lemma safe_direct k r : safe (direct_bits inStream k r) (fun _ => True).
Proof using.
  revert r. induction k as [|k IH]; intros r; cbn [direct_bits]; [by apply safe_ret|].
  eapply safe_bind; [apply safe_NORMALIZE|]. intros _ _ s H1 H2. case_test; by apply IH.
Qed.

Context (Hn : Literal <= Z.of_nat n).

Lemma safe_len prob posState :
  prob = LenCoder \/ prob = RepLenCoder -> 0 <= posState < 16 ->
  safe (decode_len inStream prob posState) (fun l => 0 <= l).
Proof using Hn.
  intros Hp Hs. unfold decode_len. rewrite Z.shiftl_mul_pow2 by lia. change (2 ^ 3) with 8.
  assert (LenCoder = 818 /\ RepLenCoder = 1332 /\ Literal = 1846) as (E1 & E2 & E3) by done.
  assert (LenChoice = 0 /\ LenChoice2 = 1 /\ LenLow = 2 /\ LenMid = 130 /\ LenHigh = 258)
    as (E4 & E5 & E6 & E7 & E8) by done.
  eapply safe_bind; [apply safe_BIT; lia|]. intros b _. case_test.
  - eapply safe_weaken; [apply safe_tree; simpl; lia|]. simpl. lia.
  - eapply safe_bind; [apply safe_BIT; lia|]. intros b2 _. case_test.
    + eapply safe_bind; [apply safe_tree; simpl; lia|]. intros l Hl. apply safe_ret. cbv beta in *. lia.
    + eapply safe_bind; [apply safe_tree; simpl; lia|]. intros l Hl. apply safe_ret. cbv beta in *. lia.
Qed.

Lemma safe_distance len : 0 <= len -> safe (decode_distance inStream len) (fun _ => True).
Proof using Hn.
  intros Hl. unfold decode_distance.
  assert (PosSlot = 432 /\ SpecPos = 688 /\ Align = 802 /\ Literal = 1846) as (E1 & E2 & E3 & E4) by done.
  unfold kNumLenToPosStates, kNumPosSlotBits, kStartPosModelIndex, kEndPosModelIndex, kNumAlignBits.
  rewrite Z.shiftl_mul_pow2 by lia. change (2 ^ 6) with 64.
  eapply safe_bind; [apply (safe_tree _ 6); simpl; case_test; lia|]. intros posSlot Hp.
  change (0 <= posSlot < 64) in Hp.
  case_test; [|by apply safe_ret]. case_test.
  - assert (exists k, k ∈ [4; 5; 6; 7; 8; 9; 10; 11; 12; 13] /\ posSlot = k) as (k & Hk & ->).
    { exists posSlot. split; [|done]. rewrite !elem_of_cons. lia. }
    rewrite !elem_of_cons, elem_of_nil in Hk.
    apply (safe_reverse _ (2 ^ (Z.shiftr k 1 - 1)));
      [|etransitivity; [|exact Hn]|done|]; destruct_or! Hk; try done; subst k; by vm_compute.
  - eapply safe_bind; [apply safe_direct|]. intros r _.
    apply (safe_reverse Align 16); done || lia.
Qed.

Context (props : CLzmaProperties) (Hlc : 0 <= lc props <= 8) (Hlp : 0 <= lp props <= 4) (Hpb : 0 <= pb props <= 4).
Context (Hprobs : numProbs props <= Z.of_nat n).

(** The literal coder used lies inside the table. *)
Lemma literal_index pos b :
  0 <= pos -> byte b ->
  let i := Z.shiftl (Z.land pos (2 ^ lp props - 1)) (lc props) + Z.shiftr b (8 - lc props) in
  0 <= i /\ Literal + LZMA_LIT_SIZE * i + LZMA_LIT_SIZE <= Z.of_nat n.
Proof using Hlc Hlp Hn Hprobs.
  intros Hpos [Hb1 Hb2] i. subst i. unfold numProbs in Hprobs.
  rewrite Z.shiftl_mul_pow2 in * by lia. rewrite Z.shiftr_div_pow2 by lia.
  rewrite Z.pow_add_r in Hprobs by lia.
  pose proof (land_mask pos (lp props) Hpos ltac:(lia)) as Hm.
  assert (0 <= b / 2 ^ (8 - lc props) < 2 ^ lc props) as Hd.
  { split; [apply Z.div_pos; lia|]. apply Z.div_lt_upper_bound; [lia|].
    rewrite <- Z.pow_add_r by lia. replace (8 - lc props + lc props) with 8 by lia. lia. }
  unfold LZMA_LIT_SIZE in *. nia.
Qed.

Lemma safe_literal outSize z :
  lz_ok outSize z -> nowPos z < outSize -> safe (decode_literal inStream props z) (grows outSize z).
Proof using Hlc Hlp Hn Hprobs.
  intros Hz Ho. unfold decode_literal.
  destruct (literal_index (nowPos z) (previousByte z) ltac:(unfold nowPos; lia) (lz_prev _ _ Hz)) as [Hi1 Hi2].
  set (prob := Literal + _) in *. assert (0 <= prob /\ prob + 768 <= Z.of_nat n) as [Hp1 Hp2].
  { subst prob. unfold LZMA_LIT_SIZE in *. assert (Literal = 1846) by done. lia. }
  eapply (safe_bind _ _ (fun r => 1 <= r < 512)).
  - case_test; [|apply safe_ret; lia].
    destruct (back_ok (outStream z) (rep0 z)) as (b & Eb & Hb); [|apply Hz|].
    { pose proof (lz_match _ _ Hz ltac:(done)). pose proof (lz_reps _ _ Hz) as Hr.
      apply Forall_cons_1 in Hr as [Hr _]. unfold rep_ok, nowPos in *. lia. }
    eapply safe_bind; [by apply (safe_lift _ _ (fun _ => True) Eb)|]. intros m _. apply safe_matched; lia.
  - intros symbol Hs. cbv beta in Hs. eapply safe_bind.
    { apply safe_plain; [done|lia|lia|]. change (2 ^ Z.of_nat 8) with 256. lia. }
    intros sym _. apply safe_ret.
    assert (byte (u8 sym)) by apply (wrap_range 8 ltac:(lia)).
    apply grows_app; simpl; auto; [lia| |apply Hz].
    pose proof (lz_state _ _ Hz). repeat case_test; lia.
Qed.

(** A chosen repeat leaves the output alone and permutes the distances. *)
Definition rep_kept (z z' : lz) : Prop :=
  outStream z' = outStream z /\ previousByte z' = previousByte z /\ kNumLitStates <= state z' < 12 /\
  Forall (rep_ok z) [rep0 z'; rep1 z'; rep2 z'; rep3 z'].

Lemma safe_rep outSize posState z :
  lz_ok outSize z -> nowPos z < outSize -> 0 <= posState < 16 ->
  safe (decode_rep inStream posState z)
    (fun r => match r with ShortRep z' => grows outSize z z' | RepMatch z' => rep_kept z z' end).
Proof using Hn.
  intros Hz Ho Hp. unfold decode_rep. pose proof (lz_state _ _ Hz) as Hst.
  assert (IsRepG0 = 204 /\ IsRepG1 = 216 /\ IsRepG2 = 228 /\ IsRep0Long = 240 /\ Literal = 1846 /\ kNumLitStates = 7)
    as (E1 & E2 & E3 & E4 & E5 & E6) by done.
  unfold kNumPosBitsMax. rewrite Z.shiftl_mul_pow2 by lia. change (2 ^ 4) with 16.
  pose proof (lz_reps _ _ Hz) as Hr. rewrite !Forall_cons in Hr. destruct Hr as (R0 & R1 & R2 & R3 & _).
  assert (forall st : Z, st = (if state z <? kNumLitStates then 8 else 11) -> kNumLitStates <= st < 12) as Hs8
    by (intros st ->; case_test; lia).
  eapply safe_bind; [apply safe_BIT; lia|]. intros g0 _. destruct (g0 =? 0).
  - eapply safe_bind; [apply safe_BIT; lia|]. intros long _. destruct (long =? 0).
    + case_test; [apply safe_fail|].
      destruct (back_ok (outStream z) (rep0 z)) as (b & Eb & Hb); [|apply Hz|].
      { unfold rep_ok, nowPos in *. lia. }
      eapply safe_bind; [by apply (safe_lift _ _ byte Eb)|]. intros m Hm. apply safe_ret.
      apply grows_app; simpl; auto; [lia|]. case_test; lia.
    + apply safe_ret. repeat split; simpl; auto; by apply Hs8.
  - eapply safe_bind; [apply safe_BIT; lia|]. intros g1 _. destruct (g1 =? 0).
    { apply safe_ret. repeat split; simpl; auto; by apply Hs8. }
    eapply safe_bind; [apply safe_BIT; lia|]. intros g2 _.
    destruct (g2 =? 0); apply safe_ret; repeat split; simpl; auto; by apply Hs8.
Qed.

Lemma safe_finish outSize len z z' :
  lz_ok outSize z -> nowPos z < outSize -> 0 <= len -> outStream z' = outStream z -> 0 <= state z' < 12 ->
  1 <= rep0 z' -> Forall (rep_ok z) [rep1 z'; rep2 z'; rep3 z'] ->
  safe (finish_match outSize len z') (fun r => r.1 = true /\ grows outSize z r.2).
Proof using.
  intros Hz Ho Hl Eo Hst H0 Hr. unfold finish_match. case_test; [apply safe_fail|].
  assert (nowPos z' = nowPos z) as En by (unfold nowPos; by rewrite Eo).
  destruct (copy_match_spec (Z.to_nat (len + kMatchMinLen - 1)) (outStream z) outSize (rep0 z'))
    as (ext & b & E1 & Hb & _ & He & Hle & _); [unfold nowPos in *; lia|apply Hz|done|].
  rewrite Eo, E1. eapply safe_bind; [by apply (safe_lift _ (outStream z ++ ext, b) (eq (outStream z ++ ext, b)))|].
  intros r <-. apply safe_ret. split; [done|]. simpl. unfold kMatchMinLen in *.
  apply grows_app; auto; [unfold nowPos in *; lia|unfold nowPos in *; lia|].
  constructor; [|done]. unfold rep_ok. lia.
Qed.

Lemma safe_round outSize z :
  lz_ok outSize z -> nowPos z < outSize ->
  safe (lzma_round inStream props outSize z)
    (fun r => if r.1 then grows outSize z r.2 else outStream r.2 = outStream z).
Proof using Hlc Hlp Hpb Hn Hprobs.
  intros Hz Ho. unfold lzma_round. pose proof (lz_state _ _ Hz) as Hst.
  assert (0 <= Z.land (nowPos z) (2 ^ pb props - 1) < 16) as Hp.
  { pose proof (land_mask (nowPos z) (pb props) ltac:(unfold nowPos; lia) ltac:(lia)).
    assert (2 ^ pb props <= 2 ^ 4) by (apply Z.pow_le_mono_r; lia). lia. }
  set (posState := Z.land _ _) in *.
  assert (IsMatch = 0 /\ IsRep = 192 /\ Literal = 1846 /\ kNumLitStates = 7) as (E1 & E2 & E3 & E4) by done.
  unfold kNumPosBitsMax. rewrite Z.shiftl_mul_pow2 by lia. change (2 ^ 4) with 16.
  pose proof (lz_reps _ _ Hz) as Hr. rewrite !Forall_cons in Hr. destruct Hr as (R0 & R1 & R2 & R3 & _).
  eapply safe_bind; [apply safe_BIT; lia|]. intros b _. destruct (b =? 0).
  { eapply safe_bind; [by apply safe_literal|]. intros z' Hz'. by apply safe_ret. }
  eapply safe_bind; [apply safe_BIT; lia|]. intros b2 _. destruct (b2 =? 0).
  - eapply safe_bind; [apply safe_len; auto|]. intros len Hlen. cbv beta in Hlen.
    eapply safe_bind; [by apply safe_distance|]. intros d _. case_test; [by apply safe_ret|].
    eapply safe_weaken; [apply (safe_finish outSize len z)|]; simpl; auto.
    + case_test; lia.
    + pose proof (wrap_range 32 ltac:(lia) (d + 1)) as Hw. unfold in_u in Hw. lia.
    + intros [f z'] [H1 H2]. simpl in *. by rewrite H1.
  - eapply safe_bind; [by apply safe_rep|]. intros [z'|z'] Hz'; [by apply safe_ret|].
    destruct Hz' as (Ho' & Hp' & Hs' & Hr'). rewrite Forall_cons in Hr'. destruct Hr' as [Hr0 Hr'].
    eapply safe_bind; [apply safe_len; auto|]. intros len Hlen. cbv beta in Hlen.
    eapply safe_weaken; [apply (safe_finish outSize len z)|]; auto; [lia|apply Hr0|].
    intros [f z''] [H1 H2]. simpl in *. by rewrite H1.
Qed.

(** What the loop leaves: bytes, at most [outSize] of them, after the ones it had. *)
Definition decoded (outSize : Z) (z z' : lz) : Prop :=
  Forall byte (outStream z') /\ nowPos z' <= outSize /\ outStream z `prefix_of` outStream z'.

Lemma safe_loop outSize fuel z :
  lz_ok outSize z -> outSize - nowPos z <= Z.of_nat fuel ->
  safe (lzma_loop inStream fuel props outSize z) (decoded outSize z).
Proof using Hlc Hlp Hpb Hn Hprobs.
  revert z. induction fuel as [|fuel IH]; intros z Hz Hf; cbn [lzma_loop]; case_test.
  1: lia.
  2: eapply safe_bind; [by apply safe_round|]; intros [c z'] Hc; simpl in *; destruct c.
  2: { destruct Hc as (Hz' & Hp & Hg). eapply safe_weaken; [apply IH; auto; lia|].
       intros z'' (H1 & H2 & H3). split_and!; auto. by etransitivity. }
  2: { apply safe_ret. unfold decoded, nowPos. rewrite Hc. split_and!; [apply Hz|apply Hz|done]. }
  all: apply safe_ret; split_and!; [apply Hz|apply Hz|done].
Qed.
End Safety.

Lemma lz_ok_start outSize : 0 <= outSize -> lz_ok outSize (mk_lz [] 0 0 1 1 1 1).
Proof. intros. split; simpl; try done; repeat constructor; done || unfold byte, nowPos; simpl; lia. Qed.

Lemma numProbs_literal props : 0 <= lc props + lp props -> Literal + 768 <= numProbs props.
Proof.
  intros. unfold numProbs, LZMA_LIT_SIZE. rewrite Z.shiftl_mul_pow2 by done.
  assert (0 < 2 ^ (lc props + lp props)) by (apply Z.pow_pos_nonneg; lia). lia.
Qed.

(** C9.  Whatever the compressed bytes are, the decoder of a stream with valid properties reads
    only inside the input, the table of [LzmaGetNumProbs] entries and the output written
    so far, stops, and gives a data error or at most [outSize] bytes. *)
Theorem lzma_memory_safe inStream props outSize :
  0 <= lc props <= 8 -> 0 <= lp props <= 4 -> 0 <= pb props <= 4 -> 0 <= outSize ->
  LzmaDecode inStream props outSize = Ok None \/
  exists consumed out, LzmaDecode inStream props outSize = Ok (Some (consumed, out)) /\
    0 <= consumed <= Z.of_nat (length inStream) /\
    Forall byte out /\ Z.of_nat (length out) <= outSize.
Proof.
  intros Hlc Hlp Hpb Ho. pose proof (numProbs_literal props ltac:(lia)) as Hlit.
  set (n := Z.to_nat (numProbs props)).
  assert (Literal <= Z.of_nat n /\ numProbs props <= Z.of_nat n) as [Hn1 Hn2] by (assert (Literal = 1846) by done; lia).
  unfold LzmaDecode. set (run := bindM _ _).
  assert (safe inStream n run (fun out => Forall byte out /\ Z.of_nat (length out) <= outSize)) as Hrun.
  { subst run. do 5 (eapply safe_bind; [apply safe_READ|intros _ _]).
    eapply safe_bind; [apply safe_loop; auto; [by apply lz_ok_start|unfold nowPos; simpl; lia]|].
    intros z (Hb & Hs & _). eapply safe_bind; [apply safe_NORMALIZE|intros _ _]. by apply safe_ret. }
  specialize (Hrun (mk_rc 0 0xFFFFFFFF 0 (replicate n (Z.shiftr kBitModelTotal 1)))
    (length_replicate n _) ltac:(simpl; lia)).
  destruct (run _) as [[[out s']|]| |]; simpl; auto; try done.
  destruct Hrun as ([Hb Hs] & _ & Hl). right. eexists _, _. split_and!; eauto; lia.
Qed.

Lemma lzma_memory_safe_witness :
  LzmaDecode [255; 1; 2] (mk_props 3 0 2) 4 = Ok None \/
  exists consumed out, LzmaDecode [255; 1; 2] (mk_props 3 0 2) 4 = Ok (Some (consumed, out)) /\
    0 <= consumed <= 3 /\ Forall byte out /\ Z.of_nat (length out) <= 4.
Proof. apply (lzma_memory_safe [255; 1; 2] (mk_props 3 0 2) 4); simpl; lia. Defined.

(** ** The properties byte *)

Lemma count_down_spec fuel n p d :
  0 < d -> 0 <= p < Z.of_nat fuel -> count_down fuel n p d = (n + p / d, p mod d).
Proof.
  intros Hd. revert n p. induction fuel as [|fuel IH]; intros n p Hp; cbn [count_down]; [lia|]. case_test.
  - rewrite IH by lia. replace p with ((p - d) + 1 * d) at 3 4 by lia.
    rewrite Z.div_add, Z.mod_add by lia. f_equal. lia.
  - rewrite Z.div_small, Z.mod_small by lia. f_equal. lia.
Qed.

(** Decoding the properties byte inverts its encoding [(pb * 5 + lp) * 9 + lc], and every
    byte that is accepted is the encoding of what is returned, which is in range. *)
Theorem lzma_properties_roundtrip p rest size :
  5 <= size -> 0 <= p < 256 ->
  (forall r, 0 <= lc r < 9 -> 0 <= lp r < 5 -> 0 <= pb r < 5 -> p = (pb r * 5 + lp r) * 9 + lc r ->
     LzmaDecodeProperties (p :: rest) size = Ok (Some r)) /\
  (forall r, LzmaDecodeProperties (p :: rest) size = Ok (Some r) ->
     p = (pb r * 5 + lp r) * 9 + lc r /\ 0 <= lc r <= 8 /\ 0 <= lp r <= 4 /\ 0 <= pb r <= 4) /\
  (LzmaDecodeProperties (p :: rest) size = Ok None <-> 225 <= p).
Proof.
  intros Hs Hp. unfold LzmaDecodeProperties. rewrite (proj2 (Z.ltb_ge _ _)) by lia. cbn [lookup of_option obind list_lookup].
  change (9 * 5 * 5) with 225. change (9 * 5) with 45. case_test.
  - split_and!; [intros; lia|done|done].
  - rewrite !count_down_spec by (change (Z.of_nat 255) with 255; Z.to_euclidean_division_equations; lia). split_and!.
    + intros [c l b]. simpl. intros. do 3 f_equal; Z.to_euclidean_division_equations; lia.
    + intros r [= <-]. simpl. Z.to_euclidean_division_equations; lia.
    + split; [done|lia].
Qed.

Lemma lzma_properties_roundtrip_witness :
  LzmaDecodeProperties [93; 0; 0; 16; 0] 5 = Ok (Some (mk_props 3 0 2)).
Proof. by apply (proj1 (lzma_properties_roundtrip 93 [0; 0; 16; 0] 5 ltac:(lia) ltac:(lia))). Defined.

(** A match copies: the bytes it appends are those [rep0] before them, and it appends
    as many as its length says unless the output fills up first. *)
Theorem lzma_match_copies k out outSize r :
  1 <= r <= Z.of_nat (length out) -> Forall byte out -> Z.of_nat (length out) < outSize ->
  exists ext b, copy_match k out outSize r = Ok (out ++ ext, b) /\ last ext = Some b /\
    Z.of_nat (length ext) = Z.min (Z.of_nat (S k)) (outSize - Z.of_nat (length out)) /\
    (forall i, (length out <= i < length out + length ext)%nat ->
       (out ++ ext) !! i = (out ++ ext) !! (i - Z.to_nat r)%nat).
Proof.
  intros Hr Hb Ho. destruct (copy_match_spec k out outSize r Hr Hb Ho) as (ext & b & E & _ & Hla & _ & H1 & H2).
  by exists ext, b.
Qed.

Lemma lzma_match_copies_witness :
  exists ext b, copy_match 4 [7; 8; 9] 10 2 = Ok ([7; 8; 9] ++ ext, b) /\ last ext = Some b /\
    Z.of_nat (length ext) = 5 /\
    (forall i, (3 <= i < 3 + length ext)%nat -> ([7; 8; 9] ++ ext) !! i = ([7; 8; 9] ++ ext) !! (i - 2)%nat).
Proof. apply (lzma_match_copies 4 [7; 8; 9] 10 2); [simpl; lia|repeat constructor; lia|simpl; lia]. Defined.
