(* ===== verification/Kbd.v ===== *)
(** * Keyboard service: [bios/seabios/src/kbd.c]

    The buffer of key strokes and the shift state live in the BIOS data area.  The PS/2
    port driver, the intercept through interrupt 0x15 and what runs while a caller waits
    are arguments. *)

From S2P Require Import Prelude BiosUtil Bregs.
Local Open Scope Z_scope.
Local Open Scope coremu_scope.

(** ** Fields of the BIOS data area *)

Definition kbd_flag0 : Z := Eval vm_compute in bda "kbd_flag0".
Definition kbd_flag1 : Z := Eval vm_compute in bda "kbd_flag1".
Definition kbd_flag2 : Z := Eval vm_compute in bda "kbd_flag2".
Definition kbd_led : Z := Eval vm_compute in bda "kbd_led".
Definition kbd_buf_head : Z := Eval vm_compute in bda "kbd_buf_head".
Definition kbd_buf_tail : Z := Eval vm_compute in bda "kbd_buf_tail".
Definition kbd_buf_start_offset : Z := Eval vm_compute in bda "kbd_buf_start_offset".
Definition kbd_buf_end_offset : Z := Eval vm_compute in bda "kbd_buf_end_offset".
Definition soft_reset_flag : Z := Eval vm_compute in bda "soft_reset_flag".
Definition kbd_buf : Z := Eval vm_compute in offsetof bios_data_area_s "kbd_buf".

Definition KF0_RSHIFT : Z := Z.shiftl 1 0.
Definition KF0_LSHIFT : Z := Z.shiftl 1 1.
Definition KF0_CTRLACTIVE : Z := Z.shiftl 1 2.
Definition KF0_ALTACTIVE : Z := Z.shiftl 1 3.
Definition KF0_SCROLLACTIVE : Z := Z.shiftl 1 4.
Definition KF0_NUMACTIVE : Z := Z.shiftl 1 5.
Definition KF0_CAPSACTIVE : Z := Z.shiftl 1 6.
Definition KF1_LCTRL : Z := Z.shiftl 1 0.
Definition KF1_LALT : Z := Z.shiftl 1 1.
Definition KF1_SCROLL : Z := Z.shiftl 1 4.
Definition KF1_NUM : Z := Z.shiftl 1 5.
Definition KF1_CAPS : Z := Z.shiftl 1 6.
Definition KF2_LAST_E1 : Z := Z.shiftl 1 0.
Definition KF2_LAST_E0 : Z := Z.shiftl 1 1.
Definition KF2_RCTRL : Z := Z.shiftl 1 2.
Definition KF2_RALT : Z := Z.shiftl 1 3.
Definition KF2_101KBD : Z := Z.shiftl 1 4.

(** [x & mask], as a condition. *)
Definition has (x mask : Z) : bool := negb (Z.land x mask =? 0).

(** ** The buffer *)

Definition kbd_setup (m : memory) : memory :=
  let x := kbd_buf in
  let m := writeb m kbd_flag2 KF2_101KBD in
  let m := writew m kbd_buf_head x in
  let m := writew m kbd_buf_tail x in
  let m := writew m kbd_buf_start_offset x in
  writew m kbd_buf_end_offset (x + 32).

Definition enqueue_key (m : memory) (scan_code ascii_code : Z) : Z * memory :=
  let buffer_start := readw m kbd_buf_start_offset in
  let buffer_end := readw m kbd_buf_end_offset in
  let buffer_head := readw m kbd_buf_head in
  let temp_tail := readw m kbd_buf_tail in
  let buffer_tail := u16 (temp_tail + 2) in
  let buffer_tail := if buffer_end <=? buffer_tail then buffer_start else buffer_tail in
  if buffer_tail =? buffer_head then (0, m)
  else
    let m := writeb m (SEG_BDA * 16 + (temp_tail + 0)) ascii_code in
    let m := writeb m (SEG_BDA * 16 + (temp_tail + 1)) scan_code in
    (1, writew m kbd_buf_tail buffer_tail).

(** What [yield] and the successive [wait_irq] leave in memory. *)
Definition environment : Type := nat -> memory -> memory.

(** The waiting loop of [dequeue_key]: the memory when it is left, and whether there is a
    key.  [None]: still waiting after [fuel] looks. *)
Fixpoint wait_key (fuel : nat) (env : environment) (i : nat) (m : memory) (incr : bool) : option (memory * bool) :=
  match fuel with
  | O => None
  | S fuel =>
      if negb (readw m kbd_buf_head =? readw m kbd_buf_tail) then Some (m, true)
      else if negb incr then Some (m, false)
      else wait_key fuel env (S i) (env i m) incr
  end.

Definition dequeue_key (fuel : nat) (env : environment) (m : memory) (regs : bregs) (incr extended : bool)
  : option (memory * bregs) :=
  '(m, found) ← wait_key fuel env 1 (env 0%nat m) incr;
  if negb found then Some (m, set_flags regs (Z.lor (flags regs) F_ZF))
  else
    let buffer_head := readw m kbd_buf_head in
    let ascii_code := readb m (SEG_BDA * 16 + (buffer_head + 0)) in
    let scan_code := readb m (SEG_BDA * 16 + (buffer_head + 1)) in
    let ascii_code :=
      if ((ascii_code =? 0xF0) && negb (scan_code =? 0)) || ((ascii_code =? 0xE0) && negb extended)
      then 0 else ascii_code in
    let regs := set_ax regs (Z.lor (Z.shiftl scan_code 8) ascii_code) in
    if negb incr then Some (m, set_flags regs (Z.ldiff (flags regs) F_ZF))
    else
      let buffer_start := readw m kbd_buf_start_offset in
      let buffer_end := readw m kbd_buf_end_offset in
      let buffer_head := u16 (buffer_head + 2) in
      let buffer_head := if buffer_end <=? buffer_head then buffer_start else buffer_head in
      Some (writew m kbd_buf_head buffer_head, regs).

(** ** Interrupt 0x16 *)

(** [kbd_command cmd param m]: the return code, the parameter bytes and the memory after. *)
Definition kbd_command_t : Type := Z -> list Z -> memory -> Z * list Z * memory.
Definition ATKBD_CMD_SETLEDS : Z := 0x10ed.
Definition ATKBD_CMD_GETID : Z := 0x02f2.

Section Int16.
Context (fuel : nat) (env : environment) (kbd_command : kbd_command_t).
Implicit Types (m : memory) (regs : bregs).

Definition handle_1600 m regs := dequeue_key fuel env m regs true false.
Definition handle_1601 m regs := dequeue_key fuel env m regs false false.
Definition handle_1602 m regs : option (memory * bregs) :=
  let m := env 0%nat m in Some (m, set_al regs (readb m kbd_flag0)).
Definition handle_1605 m regs : option (memory * bregs) :=
  let '(ok, m) := enqueue_key m (ch regs) (cl regs) in
  Some (m, set_al regs (if ok =? 0 then 1 else 0)).
Definition handle_1609 m regs : option (memory * bregs) := Some (m, set_al regs 0x30).
Definition handle_160a m regs : option (memory * bregs) :=
  let '(ret, param, m) := kbd_command ATKBD_CMD_GETID [0; 0] m in
  if negb (ret =? 0) then Some (m, set_bx regs 0)
  else Some (m, set_bx regs (Z.lor (Z.shiftl (nth 1 param 0) 8) (nth 0 param 0))).
Definition handle_1610 m regs := dequeue_key fuel env m regs true true.
Definition handle_1611 m regs := dequeue_key fuel env m regs false true.
Definition handle_1612 m regs : option (memory * bregs) :=
  let m := env 0%nat m in
  let regs := set_al regs (readb m kbd_flag0) in
  Some (m, set_ah regs (Z.lor (Z.ldiff (readb m kbd_flag1) (Z.lor KF2_RCTRL KF2_RALT))
                              (Z.land (readb m kbd_flag2) (Z.lor KF2_RCTRL KF2_RALT)))).
Definition handle_166f m regs : option (memory * bregs) :=
  Some (m, if al regs =? 0x08 then set_ah regs 2 else regs).
Definition handle_1692 m regs : option (memory * bregs) := Some (m, set_ah regs 0x80).
Definition handle_16a2 m regs : option (memory * bregs) := Some (m, regs).
Definition handle_16XX m regs : option (memory * bregs) := Some (m, regs).

Definition set_leds m : memory :=
  let shift_flags := Z.land (Z.shiftr (readb m kbd_flag0) 4) 7 in
  let led := readb m kbd_led in
  if shift_flags =? Z.land led 7 then m
  else
    let '(ret, _, m) := kbd_command ATKBD_CMD_SETLEDS [shift_flags] m in
    if negb (ret =? 0) then m else writeb m kbd_led (Z.lor (Z.ldiff led 7) shift_flags).

Definition handle_16 m regs : option (memory * bregs) :=
  let m := set_leds m in
  let f := ah regs in
  if f =? 0x00 then handle_1600 m regs
  else if f =? 0x01 then handle_1601 m regs
  else if f =? 0x02 then handle_1602 m regs
  else if f =? 0x05 then handle_1605 m regs
  else if f =? 0x09 then handle_1609 m regs
  else if f =? 0x0a then handle_160a m regs
  else if f =? 0x10 then handle_1610 m regs
  else if f =? 0x11 then handle_1611 m regs
  else if f =? 0x12 then handle_1612 m regs
  else if f =? 0x92 then handle_1692 m regs
  else if f =? 0xa2 then handle_16a2 m regs
  else if f =? 0x6f then handle_166f m regs
  else handle_16XX m regs.
End Int16.

(** ** Scan codes *)

Record scaninfo := mk_scaninfo { normal : Z; shift : Z; control : Z; alt : Z; lock_flags : Z }.

Definition scan_to_scanascii : list scaninfo :=
  [mk_scaninfo 0 0 0 0 0;
   mk_scaninfo 0x011b 0x011b 0x011b 0x0100 0;
   mk_scaninfo 0x0231 0x0221 0 0x7800 0;
   mk_scaninfo 0x0332 0x0340 0x0300 0x7900 0;
   mk_scaninfo 0x0433 0x0423 0 0x7a00 0;
   mk_scaninfo 0x0534 0x0524 0 0x7b00 0;
   mk_scaninfo 0x0635 0x0625 0 0x7c00 0;
   mk_scaninfo 0x0736 0x075e 0x071e 0x7d00 0;
   mk_scaninfo 0x0837 0x0826 0 0x7e00 0;
   mk_scaninfo 0x0938 0x092a 0 0x7f00 0;
   mk_scaninfo 0x0a39 0x0a28 0 0x8000 0;
   mk_scaninfo 0x0b30 0x0b29 0 0x8100 0;
   mk_scaninfo 0x0c2d 0x0c5f 0x0c1f 0x8200 0;
   mk_scaninfo 0x0d3d 0x0d2b 0 0x8300 0;
   mk_scaninfo 0x0e08 0x0e08 0x0e7f 0 0;
   mk_scaninfo 0x0f09 0x0f00 0 0 0;
   mk_scaninfo 0x1071 0x1051 0x1011 0x1000 KF0_CAPSACTIVE;
   mk_scaninfo 0x1177 0x1157 0x1117 0x1100 KF0_CAPSACTIVE;
   mk_scaninfo 0x1265 0x1245 0x1205 0x1200 KF0_CAPSACTIVE;
   mk_scaninfo 0x1372 0x1352 0x1312 0x1300 KF0_CAPSACTIVE;
   mk_scaninfo 0x1474 0x1454 0x1414 0x1400 KF0_CAPSACTIVE;
   mk_scaninfo 0x1579 0x1559 0x1519 0x1500 KF0_CAPSACTIVE;
   mk_scaninfo 0x1675 0x1655 0x1615 0x1600 KF0_CAPSACTIVE;
   mk_scaninfo 0x1769 0x1749 0x1709 0x1700 KF0_CAPSACTIVE;
   mk_scaninfo 0x186f 0x184f 0x180f 0x1800 KF0_CAPSACTIVE;
   mk_scaninfo 0x1970 0x1950 0x1910 0x1900 KF0_CAPSACTIVE;
   mk_scaninfo 0x1a5b 0x1a7b 0x1a1b 0 0;
   mk_scaninfo 0x1b5d 0x1b7d 0x1b1d 0 0;
   mk_scaninfo 0x1c0d 0x1c0d 0x1c0a 0 0;
   mk_scaninfo 0 0 0 0 0;
   mk_scaninfo 0x1e61 0x1e41 0x1e01 0x1e00 KF0_CAPSACTIVE;
   mk_scaninfo 0x1f73 0x1f53 0x1f13 0x1f00 KF0_CAPSACTIVE;
   mk_scaninfo 0x2064 0x2044 0x2004 0x2000 KF0_CAPSACTIVE;
   mk_scaninfo 0x2166 0x2146 0x2106 0x2100 KF0_CAPSACTIVE;
   mk_scaninfo 0x2267 0x2247 0x2207 0x2200 KF0_CAPSACTIVE;
   mk_scaninfo 0x2368 0x2348 0x2308 0x2300 KF0_CAPSACTIVE;
   mk_scaninfo 0x246a 0x244a 0x240a 0x2400 KF0_CAPSACTIVE;
   mk_scaninfo 0x256b 0x254b 0x250b 0x2500 KF0_CAPSACTIVE;
   mk_scaninfo 0x266c 0x264c 0x260c 0x2600 KF0_CAPSACTIVE;
   mk_scaninfo 0x273b 0x273a 0 0 0;
   mk_scaninfo 0x2827 0x2822 0 0 0;
   mk_scaninfo 0x2960 0x297e 0 0 0;
   mk_scaninfo 0 0 0 0 0;
   mk_scaninfo 0x2b5c 0x2b7c 0x2b1c 0 0;
   mk_scaninfo 0x2c7a 0x2c5a 0x2c1a 0x2c00 KF0_CAPSACTIVE;
   mk_scaninfo 0x2d78 0x2d58 0x2d18 0x2d00 KF0_CAPSACTIVE;
   mk_scaninfo 0x2e63 0x2e43 0x2e03 0x2e00 KF0_CAPSACTIVE;
   mk_scaninfo 0x2f76 0x2f56 0x2f16 0x2f00 KF0_CAPSACTIVE;
   mk_scaninfo 0x3062 0x3042 0x3002 0x3000 KF0_CAPSACTIVE;
   mk_scaninfo 0x316e 0x314e 0x310e 0x3100 KF0_CAPSACTIVE;
   mk_scaninfo 0x326d 0x324d 0x320d 0x3200 KF0_CAPSACTIVE;
   mk_scaninfo 0x332c 0x333c 0 0 0;
   mk_scaninfo 0x342e 0x343e 0 0 0;
   mk_scaninfo 0x352f 0x353f 0 0 0;
   mk_scaninfo 0 0 0 0 0;
   mk_scaninfo 0x372a 0x372a 0 0 0;
   mk_scaninfo 0 0 0 0 0;
   mk_scaninfo 0x3920 0x3920 0x3920 0x3920 0;
   mk_scaninfo 0 0 0 0 0;
   mk_scaninfo 0x3b00 0x5400 0x5e00 0x6800 0;
   mk_scaninfo 0x3c00 0x5500 0x5f00 0x6900 0;
   mk_scaninfo 0x3d00 0x5600 0x6000 0x6a00 0;
   mk_scaninfo 0x3e00 0x5700 0x6100 0x6b00 0;
   mk_scaninfo 0x3f00 0x5800 0x6200 0x6c00 0;
   mk_scaninfo 0x4000 0x5900 0x6300 0x6d00 0;
   mk_scaninfo 0x4100 0x5a00 0x6400 0x6e00 0;
   mk_scaninfo 0x4200 0x5b00 0x6500 0x6f00 0;
   mk_scaninfo 0x4300 0x5c00 0x6600 0x7000 0;
   mk_scaninfo 0x4400 0x5d00 0x6700 0x7100 0;
   mk_scaninfo 0 0 0 0 0;
   mk_scaninfo 0 0 0 0 0;
   mk_scaninfo 0x4700 0x4737 0x7700 0 KF0_NUMACTIVE;
   mk_scaninfo 0x4800 0x4838 0 0 KF0_NUMACTIVE;
   mk_scaninfo 0x4900 0x4939 0x8400 0 KF0_NUMACTIVE;
   mk_scaninfo 0x4a2d 0x4a2d 0 0 0;
   mk_scaninfo 0x4b00 0x4b34 0x7300 0 KF0_NUMACTIVE;
   mk_scaninfo 0x4c00 0x4c35 0 0 KF0_NUMACTIVE;
   mk_scaninfo 0x4d00 0x4d36 0x7400 0 KF0_NUMACTIVE;
   mk_scaninfo 0x4e2b 0x4e2b 0 0 0;
   mk_scaninfo 0x4f00 0x4f31 0x7500 0 KF0_NUMACTIVE;
   mk_scaninfo 0x5000 0x5032 0 0 KF0_NUMACTIVE;
   mk_scaninfo 0x5100 0x5133 0x7600 0 KF0_NUMACTIVE;
   mk_scaninfo 0x5200 0x5230 0 0 KF0_NUMACTIVE;
   mk_scaninfo 0x5300 0x532e 0 0 KF0_NUMACTIVE;
   mk_scaninfo 0 0 0 0 0;
   mk_scaninfo 0 0 0 0 0;
   mk_scaninfo 0x565c 0x567c 0 0 0;
   mk_scaninfo 0x8500 0x8700 0x8900 0x8b00 0;
   mk_scaninfo 0x8600 0x8800 0x8a00 0x8c00 0].

(** The cases of the switch that only change flags. *)
Definition modifier_key (scancode flags0 flags1 flags2 : Z) : option (Z * Z * Z) :=
  let on := Z.lor in let off := Z.ldiff in
  if scancode =? 0x3a then Some (Z.lxor flags0 KF0_CAPSACTIVE, on flags1 KF1_CAPS, flags2)
  else if scancode =? 0xba then Some (flags0, off flags1 KF1_CAPS, flags2)
  else if scancode =? 0x2a then Some (on flags0 KF0_LSHIFT, flags1, flags2)
  else if scancode =? 0xaa then Some (off flags0 KF0_LSHIFT, flags1, flags2)
  else if scancode =? 0x36 then Some (on flags0 KF0_RSHIFT, flags1, flags2)
  else if scancode =? 0xb6 then Some (off flags0 KF0_RSHIFT, flags1, flags2)
  else if scancode =? 0x1d then
    let flags0 := on flags0 KF0_CTRLACTIVE in
    Some (if has flags2 KF2_LAST_E0 then (flags0, flags1, on flags2 KF2_RCTRL)
          else (flags0, on flags1 KF1_LCTRL, flags2))
  else if scancode =? 0x9d then
    let flags0 := off flags0 KF0_CTRLACTIVE in
    Some (if has flags2 KF2_LAST_E0 then (flags0, flags1, off flags2 KF2_RCTRL)
          else (flags0, off flags1 KF1_LCTRL, flags2))
  else if scancode =? 0x38 then
    let flags0 := on flags0 KF0_ALTACTIVE in
    Some (if has flags2 KF2_LAST_E0 then (flags0, flags1, on flags2 KF2_RALT)
          else (flags0, on flags1 KF1_LALT, flags2))
  else if scancode =? 0xb8 then
    let flags0 := off flags0 KF0_ALTACTIVE in
    Some (if has flags2 KF2_LAST_E0 then (flags0, flags1, off flags2 KF2_RALT)
          else (flags0, off flags1 KF1_LALT, flags2))
  else if scancode =? 0x45 then Some (Z.lxor flags0 KF0_NUMACTIVE, on flags1 KF1_NUM, flags2)
  else if scancode =? 0xc5 then Some (flags0, off flags1 KF1_NUM, flags2)
  else if scancode =? 0x46 then Some (Z.lxor flags0 KF0_SCROLLACTIVE, on flags1 KF1_SCROLL, flags2)
  else if scancode =? 0xc6 then Some (flags0, off flags1 KF1_SCROLL, flags2)
  else if scancode =? 0xe1 then Some (flags0, flags1, on flags2 KF2_LAST_E1)
  else None.

(** The entry of the table a key press selects, as ascii and scan code. *)
Definition translate_key (info : scaninfo) (scancode flags0 flags2 : Z) : Z * Z :=
  let both (x : Z) := (u8 x, u8 (Z.shiftr x 8)) in
  if has flags0 KF0_ALTACTIVE then both (alt info)
  else if has flags0 KF0_CTRLACTIVE then both (control info)
  else if has flags2 KF2_LAST_E0 && (0x47 <=? scancode) && (scancode <=? 0x53) then
    (0xe0, u8 (Z.shiftr (normal info) 8))
  else if has flags0 (Z.lor KF0_RSHIFT KF0_LSHIFT) then
    if has flags0 (lock_flags info) then both (normal info) else both (shift info)
  else
    if has flags0 (lock_flags info) then both (shift info) else both (normal info).

(** A key is handled, or the machine restarts at [reset_vector]. *)
Inductive key_result := KeyDone (m : memory) | KeyReset (m : memory).

Definition store_flags (m : memory) (flags0 flags1 flags2 : Z) : memory :=
  let flags2 := Z.ldiff flags2 KF2_LAST_E0 in
  writeb (writeb (writeb m kbd_flag0 flags0) kbd_flag1 flags1) kbd_flag2 flags2.

Definition __process_key (m : memory) (scancode : Z) : key_result :=
  let flags0 := readb m kbd_flag0 in
  let flags1 := readb m kbd_flag1 in
  let flags2 := readb m kbd_flag2 in
  if has flags2 KF2_LAST_E1 then
    if Z.ldiff scancode 0x80 =? 0x1d then KeyDone m
    else KeyDone (writeb m kbd_flag2 (Z.ldiff flags2 KF2_LAST_E1))
  else if scancode =? 0x00 then KeyDone m
  else if scancode =? 0xe0 then KeyDone (writeb m kbd_flag2 (Z.lor flags2 KF2_LAST_E0))
  else
    match modifier_key scancode flags0 flags1 flags2 with
    | Some (flags0, flags1, flags2) => KeyDone (store_flags m flags0 flags1 flags2)
    | None =>
        if has scancode 0x80 then KeyDone (store_flags m flags0 flags1 flags2)
        else if (scancode =? 0x53) && (Z.land flags0 (Z.lor KF0_CTRLACTIVE KF0_ALTACTIVE)
                                       =? Z.lor KF0_CTRLACTIVE KF0_ALTACTIVE)
        then KeyReset (writew m soft_reset_flag 0x1234)
        else
          match scan_to_scanascii !! Z.to_nat scancode with
          | None => KeyDone m
          | Some info =>
              let '(asciicode, scancode) := translate_key info scancode flags0 flags2 in
              KeyDone (store_flags (enqueue_key m scancode asciicode).2 flags0 flags1 flags2)
          end
    end.

(** [int15 m eax]: memory, [eax] and flags after the intercept. *)
Definition process_key (int15 : memory -> Z -> memory * Z * Z) (m : memory) (key : Z) : key_result :=
  let '(m, eax, flags) := int15 m (Z.lor (Z.shiftl 0x4f 8) key) in
  if negb (Z.testbit flags 0) then KeyDone m else __process_key m (u8 eax).

(** ** The buffer as a queue *)

(** Slot [i] of the ring: scan code and ascii code. *)
Definition slot (m : memory) (i : Z) : Z * Z :=
  let a := SEG_BDA * 16 + kbd_buf + 2 * i in (m (a + 1), m a).

(** Memory [m] holds the keys [q], oldest first, in a ring of 16 slots. *)
Definition kbd_repr (m : memory) (q : list (Z * Z)) : Prop :=
  bytes m /\ readw m kbd_buf_start_offset = kbd_buf /\ readw m kbd_buf_end_offset = kbd_buf + 32 /\
  (length q <= 15)%nat /\
  exists h, 0 <= h < 16 /\ readw m kbd_buf_head = kbd_buf + 2 * h /\
    readw m kbd_buf_tail = kbd_buf + 2 * ((h + Z.of_nat (length q)) mod 16) /\
    forall i x, q !! i = Some x -> slot m ((h + Z.of_nat i) mod 16) = x.

(** The cells the buffer is made of. *)
Definition in_ring (a : Z) : Prop := kbd_buf_head <= a < SEG_BDA * 16 + kbd_buf + 32.
Definition in_bounds (a : Z) : Prop := kbd_buf_start_offset <= a < kbd_buf_start_offset + 4.

Ltac kbd_addr := unfold in_ring, in_bounds, kbd_flag0, kbd_flag1, kbd_flag2, kbd_led, soft_reset_flag,
  kbd_buf_head, kbd_buf_tail, kbd_buf_start_offset, kbd_buf_end_offset, kbd_buf, SEG_BDA in *.

Lemma kbd_repr_frame m m' q :
  bytes m' -> (forall a, in_ring a \/ in_bounds a -> m' a = m a) -> kbd_repr m q -> kbd_repr m' q.
Proof.
  intros Hb Hf (Hm & Hs & He & Hl & h & Hh & Hhd & Htl & Hq).
  split_and!; [done| | |done|].
  - etransitivity; [|exact Hs]; apply readw_ext; apply Hf; kbd_addr; lia.
  - etransitivity; [|exact He]; apply readw_ext; apply Hf; kbd_addr; lia.
  - exists h. split; [done|]. split; [|split].
    + etransitivity; [|exact Hhd]; apply readw_ext; apply Hf; kbd_addr; lia.
    + etransitivity; [|exact Htl]; apply readw_ext; apply Hf; kbd_addr; lia.
    + intros i x Hx. rewrite <- (Hq i x Hx). unfold slot.
      pose proof (Z.mod_pos_bound (h + Z.of_nat i) 16). rewrite !Hf by (kbd_addr; lia). done.
Qed.

Lemma kbd_setup_repr m : bytes m -> kbd_repr (kbd_setup m) [].
Proof.
  intros Hm. unfold kbd_setup.
  split_and!; [by repeat apply bytes_writew; apply bytes_writeb| | |simpl; lia|].
  - kbd_addr; by rewrite readw_writew_ne, readw_writew by lia.
  - kbd_addr; by rewrite readw_writew.
  - exists 0. split; [lia|]. split; [|split; [|done]].
    + kbd_addr; by rewrite !readw_writew_ne, readw_writew by lia.
    + kbd_addr; by rewrite 2!readw_writew_ne, readw_writew by lia.
Qed.

Lemma mod16_ne h i n : 0 <= i < n -> n <= 15 -> (h + i) mod 16 <> (h + n) mod 16.
Proof. intros H1 H2 E. Z.to_euclidean_division_equations. lia. Qed.

(** The next offset in the ring. *)
Lemma ring_next x :
  0 <= x < 16 ->
  (if kbd_buf + 32 <=? u16 (kbd_buf + 2 * x + 2) then kbd_buf else u16 (kbd_buf + 2 * x + 2))
  = kbd_buf + 2 * ((x + 1) mod 16).
Proof.
  intros Hx. kbd_addr. rewrite wrap_small by (unfold in_u; lia).
  destruct (decide (x = 15)) as [->|]; [done|]. rewrite Z.mod_small by lia. case_test; lia.
Qed.

Lemma enqueue_key_repr m q s a :
  kbd_repr m q -> in_u 8 s -> in_u 8 a ->
  if decide (length q < 15)%nat then
    exists m', enqueue_key m s a = (1, m') /\ kbd_repr m' (q ++ [(s, a)]) /\
      (forall x, ~ in_ring x -> m' x = m x)
  else enqueue_key m s a = (0, m).
Proof.
  intros (Hm & Hs & He & Hl & h & Hh & Hhd & Htl & Hq) Hsc Hac.
  unfold enqueue_key. rewrite Hs, He, Hhd, Htl.
  pose proof (Z.mod_pos_bound (h + Z.of_nat (length q)) 16 ltac:(lia)) as Ht.
  rewrite ring_next by done. rewrite Zplus_mod_idemp_l.
  set (t := (h + Z.of_nat (length q)) mod 16) in *.
  destruct (decide (length q < 15)%nat) as [Hlt|Hge].
  - rewrite (proj2 (Z.eqb_neq _ _)).
    2: { intros E. apply (mod16_ne h 0 (Z.of_nat (length q) + 1)); [lia|lia|].
         rewrite Z.add_0_r, (Z.mod_small h) by lia. rewrite Z.add_assoc. lia. }
    eexists. split; [done|]. split.
    + split_and!; [by apply bytes_writew, bytes_writeb, bytes_writeb| | |rewrite length_app; simpl; lia|].
      1, 2: kbd_addr; rewrite readw_writew_ne, !readw_writeb_ne by lia; lia.
      exists h. split; [done|]. split; [|split].
      * kbd_addr. by rewrite readw_writew_ne, !readw_writeb_ne by lia.
      * rewrite readw_writew, length_app. simpl. rewrite wrap_small by (kbd_addr; unfold in_u; Z.to_euclidean_division_equations; lia).
        do 3 f_equal. lia.
      * intros i x Hx. unfold slot. pose proof (Z.mod_pos_bound (h + Z.of_nat i) 16 ltac:(lia)) as Hi.
        apply lookup_app_Some in Hx as [Hx|[Hge Hx]].
        -- rewrite <- (Hq i x Hx). apply lookup_lt_Some in Hx.
           pose proof (mod16_ne h (Z.of_nat i) (Z.of_nat (length q)) ltac:(lia) ltac:(lia)) as Hne. fold t in Hne.
           unfold slot. kbd_addr. by rewrite !writew_other, !writeb_other by lia.
        -- apply list_lookup_singleton_Some in Hx as [Hi0 <-].
           replace (Z.of_nat i) with (Z.of_nat (length q)) in * by lia. fold t. fold t in Hi. unfold slot. kbd_addr.
           rewrite !writew_other by lia. f_equal.
           ++ rewrite writeb_at by lia. by apply wrap_small.
           ++ rewrite writeb_other, writeb_at by lia. by apply wrap_small.
    + intros x Hx. kbd_addr. by rewrite writew_other, !writeb_other by lia.
  - rewrite (proj2 (Z.eqb_eq _ _)); [done|]. replace (Z.of_nat (length q)) with 15 by lia.
    replace (h + 15 + 1) with (h + 1 * 16) by lia. by rewrite Z.mod_add, Z.mod_small by lia.
Qed.

Lemma kbd_repr_empty m q :
  kbd_repr m q -> (readw m kbd_buf_head =? readw m kbd_buf_tail) = bool_decide (q = []).
Proof.
  intros (_ & _ & _ & Hl & h & Hh & Hhd & Htl & _). rewrite Hhd, Htl.
  destruct q as [|x q]; [simpl; rewrite Z.add_0_r, Z.mod_small by done; apply Z.eqb_refl|].
  rewrite bool_decide_false by done. apply Z.eqb_neq. intros E.
  apply (mod16_ne h 0 (Z.of_nat (length (x :: q)))); [simpl; lia|lia|].
  rewrite Z.add_0_r, (Z.mod_small h) by done. lia.
Qed.

(** The word the caller gets for a key. *)
Definition fetch (extended : bool) (k : Z * Z) : Z :=
  let '(s, a) := k in
  s * 256 + (if bool_decide (a = 0xF0 /\ s <> 0 \/ a = 0xE0 /\ extended = false) then 0 else a).

(** The memory after [yield] and [k] waits. *)
Fixpoint after (env : environment) (m : memory) (k : nat) : memory :=
  match k with
  | O => env 0%nat m
  | S k => env (S k) (after env m k)
  end.

Lemma wait_key_found env m x q k fuel j :
  (forall i, (i < k)%nat -> kbd_repr (after env m i) []) -> kbd_repr (after env m k) (x :: q) ->
  (j <= k)%nat -> (k - j < fuel)%nat ->
  wait_key fuel env (S j) (after env m j) true = Some (after env m k, true).
Proof.
  intros He Hx. revert j. induction fuel as [|fuel IH]; intros j Hj Hf; [lia|]. simpl.
  destruct (decide (j = k)) as [->|].
  - by rewrite (kbd_repr_empty _ _ Hx).
  - rewrite (kbd_repr_empty _ _ (He j ltac:(lia))). simpl. apply (IH (S j)); lia.
Qed.

Lemma wait_key_blocked env m fuel j :
  (forall i, kbd_repr (after env m i) []) -> wait_key fuel env (S j) (after env m j) true = None.
Proof.
  intros He. revert j. induction fuel as [|fuel IH]; intros j; [done|]. simpl.
  rewrite (kbd_repr_empty _ _ (He j)). simpl. apply (IH (S j)).
Qed.

(** The code after the loop, on a buffer that is not empty. *)
Lemma dequeue_word m s a q extended :
  kbd_repr m ((s, a) :: q) ->
  readb m (SEG_BDA * 16 + (readw m kbd_buf_head + 0)) = a /\
  readb m (SEG_BDA * 16 + (readw m kbd_buf_head + 1)) = s /\
  u16 (Z.lor (Z.shiftl s 8)
    (if ((a =? 0xF0) && negb (s =? 0)) || ((a =? 0xE0) && negb extended) then 0 else a)) = fetch extended (s, a).
Proof.
  intros (Hm & _ & _ & _ & h & Hh & Hhd & _ & Hq). specialize (Hq 0%nat _ eq_refl).
  simpl in Hq. rewrite Z.add_0_r, Z.mod_small in Hq by done. unfold slot in Hq. rewrite Hhd. unfold readb.
  injection Hq as Hs Ha.
  assert (in_u 8 s /\ in_u 8 a) as [Is Ia] by (split; [rewrite <- Hs|rewrite <- Ha]; apply Hm).
  split; [rewrite <- Ha; f_equal; lia|]. split; [rewrite <- Hs; f_equal; lia|].
  set (b := if (_ || _)%bool then 0 else a).
  assert (b = if bool_decide (a = 240 /\ s <> 0 \/ a = 224 /\ extended = false) then 0 else a) as Eb.
  { subst b. destruct (Z.eqb_spec a 240), (Z.eqb_spec s 0), (Z.eqb_spec a 224), extended; simpl;
      case_bool_decide; done || lia || (exfalso; tauto). }
  unfold fetch. rewrite <- Eb.
  assert (in_u 8 b) by (rewrite Eb; case_bool_decide; [unfold in_u; lia|done]).
  rewrite Z.lor_comm, lor_shiftl by (done || lia). rewrite wrap_small; unfold in_u in *; lia.
Qed.

Lemma dequeue_head m x q :
  kbd_repr m (x :: q) ->
  kbd_repr (writew m kbd_buf_head
    (if readw m kbd_buf_end_offset <=? u16 (readw m kbd_buf_head + 2) then readw m kbd_buf_start_offset
     else u16 (readw m kbd_buf_head + 2))) q.
Proof.
  intros (Hm & Hs & He & Hl & h & Hh & Hhd & Htl & Hq). rewrite Hs, He, Hhd, ring_next by done.
  pose proof (Z.mod_pos_bound (h + 1) 16 ltac:(lia)) as Hn. simpl in Hl.
  split_and!; [by apply bytes_writew| | |lia|].
  1, 2: kbd_addr; by rewrite readw_writew_ne by lia.
  exists ((h + 1) mod 16). split; [done|]. split; [|split].
  - rewrite readw_writew, wrap_small; [done|]. kbd_addr. unfold in_u. lia.
  - rewrite Zplus_mod_idemp_l. kbd_addr. rewrite readw_writew_ne, Htl by lia. simpl length. do 3 f_equal. lia.
  - intros i y Hy. rewrite Zplus_mod_idemp_l. rewrite <- (Hq (S i) y Hy).
    replace (h + 1 + Z.of_nat i) with (h + Z.of_nat (S i)) by lia.
    pose proof (Z.mod_pos_bound (h + Z.of_nat (S i)) 16 ltac:(lia)).
    unfold slot. kbd_addr. by rewrite !writew_other by lia.
Qed.

Lemma dequeue_wakes env m r x q k fuel extended :
  (forall i, (i < k)%nat -> kbd_repr (after env m i) []) -> kbd_repr (after env m k) (x :: q) -> (k < fuel)%nat ->
  exists m' r', dequeue_key fuel env m r true extended = Some (m', r') /\
    ax r' = fetch extended x /\ flags r' = flags r /\ kbd_repr m' q.
Proof.
  intros He Hx Hf. destruct x as [s a]. unfold dequeue_key.
  change (env 0%nat m) with (after env m 0).
  rewrite (wait_key_found env m (s, a) q k fuel 0 He Hx) by lia. simpl.
  destruct (dequeue_word _ s a q extended Hx) as (Ea & Es & Ew). rewrite Ea, Es.
  eexists _, _. split; [done|]. unfold ax, set_ax, set_eax. simpl.
  rewrite lo16_put_lo16. split; [done|]. split; [done|]. by apply (dequeue_head _ (s, a)).
Qed.

(** ** Refinement of a bounded queue *)

Inductive kop := Put (s a : Z) | Get (extended : bool) | Peek (extended : bool).
Inductive kobs := Stored (ok : bool) | Key (w : Z) | NoKey.

(** Nothing else touches memory while a caller waits. *)
Definition idle : environment := fun _ m => m.

Definition kstep (fuel : nat) (r : bregs) (m : memory) (op : kop) : option (memory * kobs) :=
  match op with
  | Put s a => let '(ok, m) := enqueue_key m s a in Some (m, Stored (negb (ok =? 0)))
  | Get extended => '(m, r) ← dequeue_key fuel idle m r true extended; Some (m, Key (ax r))
  | Peek extended =>
      '(m, r) ← dequeue_key fuel idle m r false extended;
      Some (m, if zf r then NoKey else Key (ax r))
  end.

(** The specification: at most 15 keys; a read of an empty queue does not return. *)
Definition kspec (q : list (Z * Z)) (op : kop) : option (list (Z * Z) * kobs) :=
  match op, q with
  | Put s a, _ => if decide (length q < 15)%nat then Some (q ++ [(s, a)], Stored true) else Some (q, Stored false)
  | Get _, [] => None
  | Get extended, x :: q => Some (q, Key (fetch extended x))
  | Peek _, [] => Some (q, NoKey)
  | Peek extended, x :: _ => Some (q, Key (fetch extended x))
  end.

Fixpoint kruns {S : Type} (step : S -> kop -> option (S * kobs)) (s : S) (ops : list kop) : list kobs :=
  match ops with
  | [] => []
  | op :: ops => match step s op with Some (s, o) => o :: kruns step s ops | None => [] end
  end.

Definition kop_ok (op : kop) : Prop := match op with Put s a => in_u 8 s /\ in_u 8 a | _ => True end.

Lemma zf_set r b : zf (set_flags r (if b : bool then Z.lor (flags r) F_ZF else Z.ldiff (flags r) F_ZF)) = b.
Proof.
  unfold zf, set_flags, F_ZF. cbn [flags]. destruct b.
  - rewrite Z.lor_spec. change (Z.testbit 64 6) with true. by rewrite orb_true_r.
  - rewrite Z.ldiff_spec. change (Z.testbit 64 6) with true. by rewrite andb_false_r.
Qed.

Lemma after_idle m i : after idle m i = m.
Proof. induction i; simpl; auto. Qed.

Lemma kstep_refines fuel r m q op :
  kbd_repr m q -> kop_ok op ->
  match kstep (S fuel) r m op, kspec q op with
  | Some (m', o), Some (q', o') => o = o' /\ kbd_repr m' q'
  | None, None => True
  | _, _ => False
  end.
Proof.
  intros Hq Hop. destruct op as [s a|extended|extended]; cbn [kstep kspec].
  - destruct Hop as [Hs Ha]. pose proof (enqueue_key_repr m q s a Hq Hs Ha) as H.
    destruct (decide (length q < 15)%nat); [destruct H as (m' & -> & Hr & _)|rewrite H]; done.
  - destruct q as [|x q].
    + unfold dequeue_key. change (idle 0%nat m) with (after idle m 0).
      rewrite wait_key_blocked; [done|]. intros i. by rewrite after_idle.
    + destruct (dequeue_wakes idle m r x q 0 (S fuel) extended) as (m' & r' & -> & Ew & _ & Hr);
        [lia|by rewrite after_idle|lia|]. simpl. by rewrite Ew.
  - unfold dequeue_key. change (idle 0%nat m) with m. cbn [wait_key]. rewrite (kbd_repr_empty _ _ Hq).
    destruct q as [|[s a] q]; simpl.
    + by rewrite (zf_set r true).
    + destruct (dequeue_word _ s a q extended Hq) as (Ea & Es & Ew). rewrite Ea, Es.
      unfold zf, F_ZF, set_flags. cbn [flags]. rewrite Z.ldiff_spec. change (Z.testbit 64 6) with true. rewrite andb_false_r.
      unfold ax, set_ax, set_eax. cbn [eax]. rewrite lo16_put_lo16. by rewrite Ew.
Qed.

(** C11.  Any sequence of stores, blocking reads and status checks from any buffer state
    behaves as the bounded first in first out queue it represents: same results, blocking
    at the same place. *)
Theorem kbd_refines fuel r m q ops :
  kbd_repr m q -> Forall kop_ok ops -> kruns (kstep (S fuel) r) m ops = kruns kspec q ops.
Proof.
  intros Hq Hops. revert m q Hq. induction Hops as [|op ops Hop Hops IH]; intros m q Hq; [done|]. simpl.
  pose proof (kstep_refines fuel r m q op Hq Hop) as H.
  destruct (kstep _ _ _ _) as [[m' o]|], (kspec _ _) as [[q' o']|]; try done.
  destruct H as [-> Hr]. f_equal. by apply IH.
Qed.

(** A blocking read returns once a key arrives, with the oldest key, and removes it. *)
Theorem kbd_read_wakes env m r x q k fuel extended :
  (forall i, (i < k)%nat -> kbd_repr (after env m i) []) -> kbd_repr (after env m k) (x :: q) -> (k < fuel)%nat ->
  exists m' r', dequeue_key fuel env m r true extended = Some (m', r') /\
    ax r' = fetch extended x /\ flags r' = flags r /\ kbd_repr m' q.
Proof. apply dequeue_wakes. Qed.

(** ** Shift state *)

Lemma testbit_u8 x b : 0 <= b < 8 -> Z.testbit (u8 x) b = Z.testbit x b.
Proof. intros Hb. unfold wrap. apply Z.mod_pow2_bits_low. lia. Qed.

Lemma has_bit x k : 0 <= k -> has x (Z.shiftl 1 k) = Z.testbit x k.
Proof.
  intros Hk. unfold has. rewrite Z.shiftl_1_l. destruct (Z.eqb_spec (Z.land x (2 ^ k)) 0) as [E|E]; simpl.
  - symmetry. pose proof (Z.land_spec x (2 ^ k) k) as H. rewrite E, Z.bits_0, Z.pow2_bits_true, andb_true_r in H by done. done.
  - symmetry. destruct (Z.testbit x k) eqn:Ex; [done|]. exfalso. apply E. apply Z.bits_inj'. intros i Hi.
    rewrite Z.land_spec, Z.pow2_bits_eqb, Z.bits_0 by done.
    destruct (Z.eqb_spec k i) as [<-|]; [by rewrite Ex|by rewrite andb_false_r].
Qed.

(** A modifier is held between its press and release codes, a lock toggles when pressed. *)
Inductive modifier := Held (press release : Z) | Toggle (press : Z).

Definition modifiers : list (Z * modifier) :=
  [(0, Held 0x36 0xb6); (1, Held 0x2a 0xaa); (2, Held 0x1d 0x9d); (3, Held 0x38 0xb8);
   (4, Toggle 0x46); (5, Toggle 0x45); (6, Toggle 0x3a)].

Definition modifier_after (k : modifier) (b : bool) (c : Z) : bool :=
  match k with
  | Held press release => if c =? press then true else if c =? release then false else b
  | Toggle press => if c =? press then negb b else b
  end.

(** [f'] is what the code [c] makes of the modifiers in [f]. *)
Definition tracks (c f f' : Z) : Prop :=
  Forall (fun '(b, k) => Z.testbit f' b = modifier_after k (Z.testbit f b) c) modifiers.

Lemma modifier_key_some c f0 f1 f2 f0' f1' f2' :
  c <> 0xe1 -> modifier_key c f0 f1 f2 = Some (f0', f1', f2') ->
  tracks c f0 f0' /\ Z.testbit f2' 0 = Z.testbit f2 0.
Proof.
  intros Hc. unfold modifier_key. destruct (has f2 KF2_LAST_E0).
  all: repeat (case_test; [subst c; intros [= <- <- <-]; split;
    [repeat constructor; cbn [modifier_after Z.eqb Pos.eqb];
     rewrite ?Z.lor_spec, ?Z.ldiff_spec, ?Z.lxor_spec; cbn; rewrite ?orb_false_r, ?orb_true_r, ?andb_true_r, ?andb_false_r, ?xorb_false_r, ?xorb_true_r; done
    |rewrite ?Z.lor_spec, ?Z.ldiff_spec; cbn; rewrite ?orb_false_r, ?andb_true_r; done]|]).
  all: done.
Qed.

Lemma modifier_key_none c f0 f1 f2 : modifier_key c f0 f1 f2 = None -> tracks c f0 f0.
Proof.
  unfold modifier_key. repeat (case_test; [done|]). intros _.
  repeat constructor; cbn [modifier_after]; by addr_decide.
Qed.

Lemma tracks_u8 c f f' : tracks c f f' -> tracks c f (u8 f').
Proof.
  unfold tracks, modifiers. intros H.
  repeat (apply Forall_cons_1 in H as [Hb H]; cbv beta iota in Hb; constructor; [by rewrite testbit_u8 by lia|clear Hb]).
  constructor.
Qed.

Lemma store_flags_repr m q f0 f1 f2 : kbd_repr m q -> kbd_repr (store_flags m f0 f1 f2) q.
Proof.
  intros Hq. unfold store_flags. eapply kbd_repr_frame; [|intros a Ha|exact Hq].
  - by do 3 apply bytes_writeb; apply Hq.
  - kbd_addr. by rewrite !writeb_other by lia.
Qed.

Lemma store_flags_values m f0 f1 f2 :
  store_flags m f0 f1 f2 kbd_flag0 = u8 f0 /\
  Z.testbit (store_flags m f0 f1 f2 kbd_flag2) 0 = Z.testbit f2 0 /\
  forall a, a <> kbd_flag0 -> a <> kbd_flag1 -> a <> kbd_flag2 -> store_flags m f0 f1 f2 a = m a.
Proof.
  unfold store_flags. kbd_addr. split; [|split].
  - by rewrite 2!writeb_other, writeb_same by lia.
  - rewrite writeb_same, testbit_u8, Z.ldiff_spec by lia. cbn. by rewrite andb_true_r.
  - intros. by rewrite !writeb_other by lia.
Qed.

(** What one scan code leaves: at most one key more, nothing written outside the ring
    and the flags, the modifiers as the code says. *)
Definition key_effect (m : memory) (q : list (Z * Z)) (c : Z) (m' : memory) : Prop :=
  (exists ks, kbd_repr m' (q ++ ks) /\ (length ks <= 1)%nat) /\
  (forall a, ~ in_ring a -> a <> kbd_flag0 -> a <> kbd_flag1 -> a <> kbd_flag2 -> m' a = m a) /\
  (Z.testbit (m kbd_flag2) 0 = false -> c <> 0xe1 ->
   tracks c (m kbd_flag0) (m' kbd_flag0) /\ Z.testbit (m' kbd_flag2) 0 = false).

Lemma key_effect_store m m0 q ks c f0 f1 f2 :
  kbd_repr m0 (q ++ ks) -> (length ks <= 1)%nat -> (forall a, ~ in_ring a -> m0 a = m a) ->
  (c <> 0xe1 -> tracks c (m kbd_flag0) f0 /\ Z.testbit f2 0 = Z.testbit (m kbd_flag2) 0) ->
  key_effect m q c (store_flags m0 f0 f1 f2).
Proof.
  intros Hr Hl Hf Ht. destruct (store_flags_values m0 f0 f1 f2) as (E0 & E2 & Eo). split; [|split].
  - exists ks. split; [by apply store_flags_repr|done].
  - intros a H1 H2 H3 H4. by rewrite Eo, Hf.
  - intros H1 H2. destruct (Ht H2) as [H3 H4]. rewrite E0, E2, H4. split; [by apply tracks_u8|done].
Qed.

(** A write to [kbd_flag2] alone. *)
Lemma key_effect_flag2 m q c v :
  kbd_repr m q -> (Z.testbit (m kbd_flag2) 0 = false -> tracks c (m kbd_flag0) (m kbd_flag0) /\ Z.testbit v 0 = false) ->
  key_effect m q c (writeb m kbd_flag2 v).
Proof.
  intros Hq Ht. split; [|split].
  - exists []. rewrite app_nil_r. split; [|simpl; lia]. eapply kbd_repr_frame; [by apply bytes_writeb, Hq| |exact Hq].
    intros a Ha. kbd_addr. by rewrite writeb_other by lia.
  - intros a _ _ _ Ha. by rewrite writeb_other.
  - intros H1 _. destruct (Ht H1) as [H2 H3]. rewrite writeb_same, testbit_u8, H3 by lia.
    kbd_addr. by rewrite writeb_other by lia.
Qed.

Lemma key_effect_none m q c :
  kbd_repr m q -> tracks c (m kbd_flag0) (m kbd_flag0) -> key_effect m q c m.
Proof.
  intros Hq Ht. split; [|split]; [|done|tauto]. exists []. rewrite app_nil_r. split; [done|simpl; lia].
Qed.

Lemma translate_key_range info c f0 f2 :
  in_u 8 (translate_key info c f0 f2).1 /\ in_u 8 (translate_key info c f0 f2).2.
Proof.
  unfold translate_key. repeat case_test; simpl; split; try apply wrap_range; unfold in_u; lia.
Qed.

Lemma process_key_effect m q c :
  kbd_repr m q ->
  match __process_key m c with
  | KeyDone m' => key_effect m q c m' \/ m' = m /\ Z.testbit (m kbd_flag2) 0 = true
  | KeyReset m' =>
      c = 0x53 /\ Z.testbit (m kbd_flag0) 2 = true /\ Z.testbit (m kbd_flag0) 3 = true /\
      readw m' soft_reset_flag = 0x1234
  end.
Proof.
  intros Hq. unfold __process_key, readb, KF2_LAST_E1. rewrite has_bit by lia.
  destruct (Z.testbit (m kbd_flag2) 0) eqn:E1.
  { case_test; [by right|]. left. apply key_effect_flag2; [done|]. congruence. }
  case_test; [subst c; left; apply key_effect_none; [done|]; by repeat constructor|].
  case_test; [subst c; left; apply key_effect_flag2; [done|]; split; [by repeat constructor|]; by rewrite Z.lor_spec, E1|].
  destruct (modifier_key _ _ _ _) as [[[f0 f1] f2]|] eqn:Em.
  { left. apply (key_effect_store m m q []); rewrite ?app_nil_r; [done|simpl; lia|done|].
    intros Hc. by eapply modifier_key_some. }
  apply modifier_key_none in Em. case_test.
  { left. apply (key_effect_store m m q []); rewrite ?app_nil_r; [done|simpl; lia|done|done]. }
  case_test.
  { bool_to_prop. split; [done|]. rewrite readw_writew. split; [|split; [|done]].
    all: [> apply (f_equal (fun z => Z.testbit z 2)) in H0|apply (f_equal (fun z => Z.testbit z 3)) in H0];
      cbv beta in H0; rewrite Z.land_spec in H0; by apply andb_true_iff in H0 as [-> _]. }
  destruct (scan_to_scanascii !! _) as [info|]; [|left; by apply key_effect_none].
  pose proof (translate_key_range info c (m kbd_flag0) (m kbd_flag2)) as [Ha Hs].
  destruct (translate_key _ _ _ _) as [a s]. simpl in Ha, Hs. left.
  pose proof (enqueue_key_repr m q s a Hq Hs Ha) as He. destruct (decide _).
  - destruct He as (m' & -> & Hr & Hf). by apply (key_effect_store m m' q [(s, a)]).
  - rewrite He. apply (key_effect_store m m q []); rewrite ?app_nil_r; [done|simpl; lia|done|done].
Qed.

(** A run of scan codes, up to a reset. *)
Fixpoint type_keys (m : memory) (codes : list Z) : key_result :=
  match codes with
  | [] => KeyDone m
  | c :: codes =>
      match __process_key m c with KeyDone m => type_keys m codes | KeyReset m => KeyReset m end
  end.

(** Whatever scan codes arrive, the buffer stays well formed: keys are only appended, up
    to 15, and nothing is written outside the ring and the three flag bytes. *)
Theorem kbd_buffer_invariant m q codes m' :
  kbd_repr m q -> type_keys m codes = KeyDone m' ->
  (exists ks, kbd_repr m' (q ++ ks) /\ (length q + length ks <= 15)%nat) /\
  (forall a, ~ in_ring a -> a <> kbd_flag0 -> a <> kbd_flag1 -> a <> kbd_flag2 -> m' a = m a).
Proof.
  intros Hq. revert m q Hq. induction codes as [|c codes IH]; intros m q Hq; simpl.
  { intros [= <-]. split; [|done]. exists []. rewrite app_nil_r. split; [done|]. destruct Hq as (_ & _ & _ & Hl & _). simpl. lia. }
  pose proof (process_key_effect m q c Hq) as He. destruct (__process_key m c) as [m1|]; [|done].
  destruct He as [((ks & Hr & _) & Hf & _)|[-> _]]; [|by apply IH].
  intros H. destruct (IH m1 (q ++ ks) Hr H) as [(ks' & Hr' & Hl) Hf']. split.
  - exists (ks ++ ks'). rewrite (assoc_L (++)). split; [done|]. rewrite length_app in *. lia.
  - intros a H1 H2 H3 H4. by rewrite Hf', Hf.
Qed.

(** Codes without the pause prefix: the ring and the flags stay well formed, nothing else
    changes, and the modifiers follow. *)
Lemma type_keys_effect m q codes m' :
  kbd_repr m q -> Z.testbit (m kbd_flag2) 0 = false -> 0xe1 ∉ codes -> type_keys m codes = KeyDone m' ->
  (exists q', kbd_repr m' q') /\ Z.testbit (m' kbd_flag2) 0 = false /\
  (forall a, ~ in_ring a -> a <> kbd_flag0 -> a <> kbd_flag1 -> a <> kbd_flag2 -> m' a = m a) /\
  Forall (fun '(b, k) => Z.testbit (m' kbd_flag0) b = foldl (modifier_after k) (Z.testbit (m kbd_flag0) b) codes) modifiers.
Proof.
  revert m q. induction codes as [|c codes IH]; intros m q Hq H1 He; simpl.
  { intros [= <-]. split_and!; [by eauto|done..|by repeat constructor]. }
  apply not_elem_of_cons in He as [Hc He].
  pose proof (process_key_effect m q c Hq) as H. destruct (__process_key m c) as [m1|]; [|done].
  destruct H as [((ks & Hr & _) & Hf & Ht)|[_ H]]; [|congruence].
  destruct (Ht H1 ltac:(done)) as [Ht1 H1']. intros Hm.
  destruct (IH m1 _ Hr H1' He Hm) as (Hq' & H2' & Hf' & IHm). split_and!; [done|done| |].
  - intros a A1 A2 A3 A4. by rewrite Hf', Hf.
  - unfold tracks in Ht1. rewrite Forall_forall in *. intros [b k] Hbk.
    rewrite (IHm (b, k) Hbk). by rewrite (Ht1 (b, k) Hbk).
Qed.

(** The shift state follows the codes: each of shift, control and alt is on from its last
    press to its release, each lock has toggled once per press. *)
Theorem kbd_modifiers_track m q codes m' :
  kbd_repr m q -> Z.testbit (m kbd_flag2) 0 = false -> 0xe1 ∉ codes -> type_keys m codes = KeyDone m' ->
  Forall (fun '(b, k) => Z.testbit (m' kbd_flag0) b = foldl (modifier_after k) (Z.testbit (m kbd_flag0) b) codes) modifiers.
Proof. intros Hq H1 He Hm. by destruct (type_keys_effect m q codes m' Hq H1 He Hm) as (_ & _ & _ & H). Qed.

(** A key that is pressed, with room in the buffer, is what the next read returns. *)
Theorem kbd_key_roundtrip fuel m c info r :
  kbd_repr m [] -> Z.testbit (m kbd_flag2) 0 = false -> 0 < c < 0x80 ->
  modifier_key c (m kbd_flag0) (m kbd_flag1) (m kbd_flag2) = None ->
  scan_to_scanascii !! Z.to_nat c = Some info ->
  (c = 0x53 -> Z.testbit (m kbd_flag0) 2 = false) ->
  let key := translate_key info c (m kbd_flag0) (m kbd_flag2) in
  exists m' m'' r', __process_key m c = KeyDone m' /\
    handle_1600 (S fuel) idle m' r = Some (m'', r') /\
    ax r' = fetch false (key.2, key.1) /\ kbd_repr m'' [].
Proof.
  intros Hq H1 Hc Hmod Hinfo Hdel key. unfold __process_key, readb.
  unfold KF2_LAST_E1. rewrite has_bit, H1 by lia.
  rewrite (proj2 (Z.eqb_neq c 0)), (proj2 (Z.eqb_neq c 224)), Hmod by lia.
  change 128 with (Z.shiftl 1 7). rewrite has_bit by lia.
  assert (Z.testbit c 7 = false) as ->.
  { rewrite <- (Z.mod_small c (2 ^ 7)) by lia. apply Z.mod_pow2_bits_high. lia. }
  assert ((c =? 0x53) && (Z.land (m kbd_flag0) (Z.lor KF0_CTRLACTIVE KF0_ALTACTIVE)
    =? Z.lor KF0_CTRLACTIVE KF0_ALTACTIVE) = false) as ->.
  { destruct (Z.eqb_spec c 0x53) as [E|]; [simpl|done]. apply Z.eqb_neq. intros H.
       apply (f_equal (fun z => Z.testbit z 2)) in H. cbv beta in H. by rewrite Z.land_spec, (Hdel E) in H. }
  rewrite Hinfo. subst key.
  pose proof (translate_key_range info c (m kbd_flag0) (m kbd_flag2)) as [Ha Hs].
  destruct (translate_key _ _ _ _) as [a s]. simpl in Ha, Hs. cbn [fst snd].
  pose proof (enqueue_key_repr m [] s a Hq Hs Ha) as He. simpl in He.
  destruct He as (m1 & -> & Hr & _). cbn [snd].
  apply (store_flags_repr _ _ (m kbd_flag0) (m kbd_flag1) (m kbd_flag2)) in Hr.
  destruct (dequeue_wakes idle _ r (s, a) [] 0 (S fuel) false ltac:(lia) Hr ltac:(lia)) as (m2 & r2 & E2 & Ew & _ & H2).
  by exists (store_flags m1 (m kbd_flag0) (m kbd_flag1) (m kbd_flag2)), m2, r2.
Qed.

(** ** Witnesses *)

Definition demo_kbd : memory := kbd_setup (fun _ => 0).
Definition demo_regs : bregs := mk_bregs 0 0 0 0 0 0 0 0 0 0.

Lemma demo_kbd_repr : kbd_repr demo_kbd [].
Proof. apply kbd_setup_repr. intros a. unfold in_u. lia. Qed.

Lemma kbd_refines_witness :
  kruns (kstep 1 demo_regs) demo_kbd [Put 0x1e 0x61; Peek false; Get false; Put 0x48 0xe0; Get true; Peek true; Get true]
  = [Stored true; Key 0x1e61; Key 0x1e61; Stored true; Key 0x48e0; NoKey].
Proof.
  rewrite (kbd_refines 0 demo_regs demo_kbd [] _ demo_kbd_repr); [done|].
  repeat constructor; unfold in_u; simpl; lia.
Defined.

Lemma kbd_read_wakes_witness :
  exists m' r', dequeue_key 3 (fun i m => if bool_decide (i = 1)%nat then (enqueue_key m 0x1e 0x61).2 else m)
      demo_kbd demo_regs true false = Some (m', r') /\
    ax r' = 0x1e61 /\ flags r' = 0 /\ kbd_repr m' [].
Proof.
  destruct (enqueue_key_repr demo_kbd [] 0x1e 0x61 demo_kbd_repr) as (m1 & E & Hr & _); [unfold in_u; lia..|].
  apply (kbd_read_wakes _ demo_kbd demo_regs (0x1e, 0x61) [] 1 3 false).
  - intros i Hi. replace i with 0%nat by lia. apply demo_kbd_repr.
  - change (kbd_repr (enqueue_key demo_kbd 0x1e 0x61).2 [(0x1e, 0x61)]). by rewrite E.
  - lia.
Defined.

Lemma kbd_buffer_invariant_witness :
  exists m', type_keys demo_kbd [0x2a; 0x1e; 0xaa; 0xe0; 0x48] = KeyDone m' /\
    exists ks, kbd_repr m' ks /\ (length ks <= 15)%nat.
Proof.
  destruct (type_keys demo_kbd [0x2a; 0x1e; 0xaa; 0xe0; 0x48]) as [m'|] eqn:E; [|by vm_compute in E].
  exists m'. split; [done|]. destruct (kbd_buffer_invariant _ _ _ _ demo_kbd_repr E) as [(ks & H1 & H2) _].
  exists ks. split; [done|simpl in H2; lia].
Defined.

Lemma kbd_modifiers_track_witness :
  exists m', type_keys demo_kbd [0x2a; 0x3a; 0x1e; 0xba; 0x1d] = KeyDone m' /\
    Forall (fun '(b, k) => Z.testbit (m' kbd_flag0) b =
      foldl (modifier_after k) (Z.testbit (demo_kbd kbd_flag0) b) [0x2a; 0x3a; 0x1e; 0xba; 0x1d]) modifiers.
Proof.
  destruct (type_keys demo_kbd [0x2a; 0x3a; 0x1e; 0xba; 0x1d]) as [m'|] eqn:E; [|by vm_compute in E].
  exists m'. split; [done|]. apply (kbd_modifiers_track demo_kbd [] _ m' demo_kbd_repr); [done| |done].
  rewrite !not_elem_of_cons. split_and!; try lia. apply not_elem_of_nil.
Defined.

Lemma kbd_key_roundtrip_witness :
  exists m' m'' r', __process_key demo_kbd 0x1e = KeyDone m' /\
    handle_1600 1 idle m' demo_regs = Some (m'', r') /\ ax r' = 0x1e61 /\ kbd_repr m'' [].
Proof.
  apply (kbd_key_roundtrip 0 demo_kbd 0x1e (mk_scaninfo 0x1e61 0x1e41 0x1e01 0x1e00 KF0_CAPSACTIVE) demo_regs demo_kbd_repr);
    done || lia.
Defined.

(** An unknown key leaves the prefix flag set: after E0 5B the plain keypad code 47 is
    taken for an extended one. *)
Theorem kbd_stale_prefix :
  match type_keys demo_kbd [0xe0; 0x5b; 0x47] with
  | KeyDone m => slot m 0 = (0x47, 0xe0)
  | KeyReset _ => False
  end /\
  match type_keys demo_kbd [0x47] with
  | KeyDone m => slot m 0 = (0x47, 0)
  | KeyReset _ => False
  end.
Proof. by vm_compute. Qed.
