(* ===== verification/Block.v ===== *)
(** * Drives: [bios/seabios/src/block.c], [disk.h], [cdrom.c] (emulated drives)

    Drive descriptions are objects at addresses, 0 is [NULL].  The hardware drivers are
    one argument, a function of the driver type.  A request is run in the caller's
    memory; the copy [send_disk_op] makes on the other stack is the record itself. *)

From stdpp Require Import sorting.
From S2P Require Import Prelude BiosUtil Bregs.
Local Open Scope Z_scope.
Local Open Scope coremu_scope.

(** ** Data *)

Definition DISK_RET_SUCCESS : Z := 0x00.
Definition DISK_RET_EPARAM : Z := 0x01.
Definition DISK_RET_EWRITEPROTECT : Z := 0x03.
Definition DISK_RET_ECHANGED : Z := 0x06.
Definition DISK_RET_ENOTLOCKED : Z := 0xb0.
Definition DISK_RET_ELOCKED : Z := 0xb1.
Definition DISK_RET_ENOTREMOVABLE : Z := 0xb2.
Definition DISK_RET_ETOOMANYLOCKS : Z := 0xb4.

Definition CMD_RESET : Z := 0x00.
Definition CMD_READ : Z := 0x02.
Definition CMD_WRITE : Z := 0x03.
Definition CMD_VERIFY : Z := 0x04.
Definition CMD_FORMAT : Z := 0x05.
Definition CMD_SEEK : Z := 0x07.
Definition CMD_ISREADY : Z := 0x10.

Record disk_op_s := mk_op { op_lba : Z; buf_fl : Z; drive_g : Z; count : Z; command : Z }.

Definition set_count (op : disk_op_s) (c : Z) : disk_op_s := mk_op (op_lba op) (buf_fl op) (drive_g op) c (command op).

Record chs_s := mk_chs { heads : Z; cylinders : Z; spt : Z }.

Record drive_s := mk_drive {
  type : Z; floppy_type : Z; lchs : chs_s; sectors : Z; cntl_id : Z; translation : Z; blksize : Z; pchs : chs_s }.

Definition DTYPE_NONE : Z := 0x00.
Definition DTYPE_FLOPPY : Z := 0x01.
Definition DTYPE_ATA : Z := 0x02.
Definition DTYPE_ATAPI : Z := 0x03.
Definition DTYPE_RAMDISK : Z := 0x04.
Definition DTYPE_CDEMU : Z := 0x05.
Definition DTYPE_USB : Z := 0x06.

Definition TRANSLATION_NONE : Z := 0.
Definition TRANSLATION_LBA : Z := 1.
Definition TRANSLATION_LARGE : Z := 2.
Definition TRANSLATION_RECHS : Z := 3.

Definition EXTTYPE_FLOPPY : nat := 0.
Definition EXTTYPE_HD : nat := 1.
Definition EXTTYPE_CD : nat := 2.
Definition EXTSTART_HD : Z := 0x80.
Definition EXTSTART_CD : Z := 0xE0.
Definition CONFIG_MAX_EXTDRIVE : Z := 16.
Definition CMOS_BIOS_DISKTRANSFLAG : Z := 0x39.

(** The pointers of one row of [Drives.idmap]. *)
Record drives_s := mk_drives { floppycount : Z; cdcount : Z; idmap : list (list Z) }.

Definition drive_setup : drives_s := mk_drives 0 0 (replicate 3 (replicate 16 0)).

(** [NULL] outside the table. *)
Definition getDrive (D : drives_s) (exttype : nat) (extdriveoffset : Z) : outcome Z :=
  if CONFIG_MAX_EXTDRIVE <=? extdriveoffset then Ok 0
  else
    let! row := of_option (idmap D !! exttype) in
    of_option (row !! Z.to_nat extdriveoffset).

(** ** Geometry translation *)

(** [inb_cmos reg] is what the clock chip's memory holds. *)
Definition get_translation (inb_cmos : Z -> Z) (d : drive_s) : Z :=
  if type d =? DTYPE_ATA then
    let ataid := u8 (cntl_id d) in
    let channel := ataid / 2 in
    let translation := u8 (inb_cmos (CMOS_BIOS_DISKTRANSFLAG + channel / 2)) in
    Z.land (Z.shiftr translation (2 * (ataid mod 4))) 0x03
  else
    let '(mk_chs heads cylinders spt) := pchs d in
    let psectors := u64 (heads * cylinders * spt) in
    if (heads =? 0) || (cylinders =? 0) || (spt =? 0) || (sectors d <? psectors) then TRANSLATION_LBA
    else if (cylinders <=? 1024) && (heads <=? 16) && (spt <=? 63) then TRANSLATION_NONE
    else if s32 (cylinders * heads) <=? 131072 then TRANSLATION_LARGE
    else TRANSLATION_LBA.

(** The shift loop of the large translation. *)
Fixpoint large_shift (fuel : nat) (cylinders heads : Z) : Z * Z :=
  match fuel with
  | O => (cylinders, heads)
  | S fuel =>
      if 1024 <? cylinders then
        let cylinders := Z.shiftr cylinders 1 in
        let heads := u16 (Z.shiftl heads 1) in
        if 127 <? heads then (cylinders, heads) else large_shift fuel cylinders heads
      else (cylinders, heads)
  end.

(** The logical geometry, before the clip to 1024 cylinders. *)
Definition lba_geometry (sectors : Z) : Z * Z :=
  if 63 * 255 * 1024 <? sectors then (1024, 255)
  else
    let sect := u32 sectors / 63 in
    let heads := u16 (sect / 1024) in
    let heads := if 128 <? heads then 255 else if 64 <? heads then 128 else if 32 <? heads then 64
                 else if 16 <? heads then 32 else 16 in
    (u16 (sect / heads), heads).

Definition rechs_geometry (cylinders heads : Z) : Z * Z :=
  if heads =? 16 then
    let cylinders := if 61439 <? cylinders then 61439 else cylinders in
    (u16 (cylinders * 16 / 15), 15)
  else (cylinders, heads).

Definition translate (translation : Z) (sectors : Z) (p : chs_s) : chs_s :=
  let '(mk_chs heads cylinders spt) := p in
  let '(cylinders, heads, spt) :=
    if translation =? TRANSLATION_LBA then (lba_geometry sectors, 63)
    else if translation =? TRANSLATION_RECHS then
      let '(c, h) := rechs_geometry cylinders heads in (large_shift 16 c h, spt)
    else if translation =? TRANSLATION_LARGE then (large_shift 16 cylinders heads, spt)
    else (cylinders, heads, spt) in
  let cylinders := if 1024 <? cylinders then 1024 else cylinders in
  mk_chs heads cylinders spt.

Definition setup_translation (inb_cmos : Z -> Z) (d : drive_s) : drive_s :=
  let t := get_translation inb_cmos d in
  mk_drive (type d) (floppy_type d) (translate t (sectors d) (pchs d)) (sectors d) (cntl_id d) t (blksize d) (pchs d).

(** ** Drive mapping *)

Definition hdcount : Z := Eval vm_compute in bda "hdcount".
Definition equipment_list_flags : Z := Eval vm_compute in bda "equipment_list_flags".
Definition floppy_harddisk_info : Z := Eval vm_compute in bda "floppy_harddisk_info".

(** [SET_IVT(vector, SEGOFF(seg, offset))]. *)
Definition SET_IVT (m : memory) (vector seg offset : Z) : memory :=
  writew (writew m (4 * vector) offset) (4 * vector + 2) seg.

Definition fill_fdpt (m : memory) (d : drive_s) (hdid : Z) : memory :=
  if 1 <? hdid then m
  else
    let '(mk_chs nlh nlc nlspt) := lchs d in
    let '(mk_chs nph npc npspt) := pchs d in
    let fdpt := ebda m "fdpt" + 16 * hdid in
    let f x := fdpt + offsetof fdpt_s x in
    let m := writew m (f "precompensation") 0xffff in
    let m := writeb m (f "drive_control_byte") (Z.lor 0xc0 (Z.shiftl (if 8 <? nph then 1 else 0) 3)) in
    let m := writew m (f "landing_zone") npc in
    let m := writew m (f "cylinders") nlc in
    let m := writeb m (f "heads") nlh in
    let m := writeb m (f "sectors") nlspt in
    let m :=
      if negb (nlc =? npc) || negb (nlh =? nph) || negb (nlspt =? npspt) then
        let m := writew m (f "phys_cylinders") npc in
        let m := writeb m (f "phys_heads") nph in
        let m := writeb m (f "phys_sectors") npspt in
        let m := writeb m (f "a0h_signature") 0xa0 in
        writeb m (f "checksum") (readb m (f "checksum") - checksum m fdpt 16)
      else m in
    let off := offsetof extended_bios_data_area_s "fdpt" in
    if hdid =? 0 then SET_IVT m 0x41 (get_ebda_seg m) off
    else SET_IVT m 0x46 (get_ebda_seg m) (off + 16).

Section Mapping.
Context (heap : gmap Z drive_s).

Definition set_row (D : drives_s) (t : nat) (row : list Z) : drives_s :=
  mk_drives (floppycount D) (cdcount D) (<[t := row]> (idmap D)).

Definition map_hd_drive (D : drives_s) (m : memory) (drive_g : Z) : outcome (drives_s * memory) :=
  let n := readb m hdcount in
  if CONFIG_MAX_EXTDRIVE <=? n then Ok (D, m)
  else
    let! d := of_option (heap !! drive_g) in
    let! row := of_option (idmap D !! EXTTYPE_HD) in
    let D := set_row D EXTTYPE_HD (<[Z.to_nat n := drive_g]> row) in
    let m := writeb m hdcount (n + 1) in
    Ok (D, fill_fdpt m d n).

(** [prevdrive] keeps its place before [drive_g]. *)
Definition before (p d : drive_s) : bool :=
  (type p <? type d) || ((type p =? type d) && (cntl_id p <? cntl_id d)).

(** The slot the loop stops at, from [pos] down. *)
Fixpoint find_pos (row : list Z) (d : drive_s) (pos : nat) : outcome nat :=
  match pos with
  | O => Ok O
  | S prev =>
      let! q := of_option (row !! prev) in
      let! p := of_option (heap !! q) in
      if before p d then Ok pos else find_pos row d prev
  end.

(** [idmap] and [*count]; the [memmove] shifts the entries from the slot up by one. *)
Definition add_ordered_drive (row : list Z) (cnt : Z) (drive_g : Z) : outcome (list Z * Z) :=
  if CONFIG_MAX_EXTDRIVE <=? cnt then Ok (row, cnt)
  else
    let end_ := Z.to_nat cnt in
    let! d := of_option (heap !! drive_g) in
    let! pos := find_pos row d end_ in
    Ok (list_insert_at pos drive_g (take end_ row) ++ drop (S end_) row, u8 (cnt + 1)).

Definition map_cd_drive (D : drives_s) (drive_g : Z) : outcome drives_s :=
  let! row := of_option (idmap D !! EXTTYPE_CD) in
  let! '(row, c) := add_ordered_drive row (cdcount D) drive_g in
  Ok (mk_drives (floppycount D) c (<[EXTTYPE_CD := row]> (idmap D))).

Definition map_floppy_drive (D : drives_s) (m : memory) (drive_g : Z) : outcome (drives_s * memory) :=
  let! row := of_option (idmap D !! EXTTYPE_FLOPPY) in
  let! '(row, c) := add_ordered_drive row (floppycount D) drive_g in
  let D := mk_drives c (cdcount D) (<[EXTTYPE_FLOPPY := row]> (idmap D)) in
  let m :=
    if c =? 1 then
      writeb (writew m equipment_list_flags (Z.lor (readw m equipment_list_flags) 0x01)) floppy_harddisk_info 0x07
    else if 2 <=? c then
      writeb (writew m equipment_list_flags (Z.lor (readw m equipment_list_flags) 0x41)) floppy_harddisk_info 0x77
    else m in
  Ok (D, m).
End Mapping.

(** ** Requests *)

(** A driver: the status, the request as it leaves it, memory. *)
Definition driver_t : Type := disk_op_s -> memory -> outcome (Z * disk_op_s * memory).

Definition cdemu (m : memory) (f : string) : Z := ebda m "cdemu" + offsetof cdemu_s f.
Definition cdemu_buf : Z := Eval vm_compute in offsetof extended_bios_data_area_s "cdemu_buf".

Section Cdemu.
Context (process_op : driver_t).

(** Read 512-byte sectors from 2048-byte blocks: a partial first block, whole blocks, a
    partial last block.  A stage returns the status and the local variables. *)
Definition cdemu_first (ebda_seg : Z) (dop op : disk_op_s) (cnt : Z) (m : memory)
  : outcome (Z * disk_op_s * disk_op_s * Z * memory) :=
  if Z.land (op_lba op) 3 =? 0 then Ok (0, dop, op, cnt, m)
  else
    let dop := mk_op (op_lba dop) (MAKE_FLATPTR ebda_seg cdemu_buf) (drive_g dop) 1 (command dop) in
    let! '(ret, dop, m) := process_op dop m in
    if negb (ret =? 0) then Ok (ret, dop, op, cnt, m)
    else
      let part := Z.land (op_lba op) 3 in
      let thiscount := if cnt <? 4 - part then u8 cnt else 4 - part in
      let cnt := cnt - thiscount in
      let m := memcpy_far m (FLATPTR_TO_SEG (buf_fl op)) (FLATPTR_TO_OFFSET (buf_fl op))
                 ebda_seg (cdemu_buf + part * 512) (thiscount * 512) in
      let op := mk_op (op_lba op) (u32 (buf_fl op + thiscount * 512)) (drive_g op) (u16 (count op + thiscount)) (command op) in
      Ok (0, mk_op (u64 (op_lba dop + 1)) (buf_fl dop) (drive_g dop) (count dop) (command dop), op, cnt, m).

Definition cdemu_blocks (dop op : disk_op_s) (cnt : Z) (m : memory)
  : outcome (Z * disk_op_s * disk_op_s * Z * memory) :=
  if cnt <=? 3 then Ok (0, dop, op, cnt, m)
  else
    let dop := mk_op (op_lba dop) (buf_fl op) (drive_g dop) (u16 (cnt / 4)) (command dop) in
    let! '(ret, dop, m) := process_op dop m in
    let op := set_count op (u16 (count op + count dop * 4)) in
    if negb (ret =? 0) then Ok (ret, dop, op, cnt, m)
    else
      let thiscount := u8 (Z.ldiff cnt 3) in
      let op := mk_op (op_lba op) (u32 (buf_fl op + thiscount * 512)) (drive_g op) (count op) (command op) in
      Ok (0, mk_op (u64 (op_lba dop + thiscount / 4)) (buf_fl dop) (drive_g dop) (count dop) (command dop), op,
          Z.land cnt 3, m).

Definition cdemu_last (ebda_seg : Z) (dop op : disk_op_s) (cnt : Z) (m : memory)
  : outcome (Z * disk_op_s * memory) :=
  if cnt =? 0 then Ok (DISK_RET_SUCCESS, op, m)
  else
    let dop := mk_op (op_lba dop) (MAKE_FLATPTR ebda_seg cdemu_buf) (drive_g dop) 1 (command dop) in
    let! '(ret, dop, m) := process_op dop m in
    if negb (ret =? 0) then Ok (ret, op, m)
    else
      let thiscount := u8 cnt in
      let m := memcpy_far m (FLATPTR_TO_SEG (buf_fl op)) (FLATPTR_TO_OFFSET (buf_fl op))
                 ebda_seg cdemu_buf (thiscount * 512) in
      Ok (DISK_RET_SUCCESS, set_count op (u16 (count op + thiscount)), m).

Definition cdemu_read (op : disk_op_s) (m : memory) : outcome (Z * disk_op_s * memory) :=
  let ebda_seg := get_ebda_seg m in
  let drive := readl m (cdemu m "emulated_drive_gf") in
  let dop := mk_op (u64 (readl m (cdemu m "ilba") + op_lba op / 4)) 0 drive 0 (command op) in
  let cnt := count op in
  let op := set_count op 0 in
  let! '(ret, dop, op, cnt, m) := cdemu_first ebda_seg dop op cnt m in
  if negb (ret =? 0) then Ok (ret, op, m)
  else
    let! '(ret, dop, op, cnt, m) := cdemu_blocks dop op cnt m in
    if negb (ret =? 0) then Ok (ret, op, m)
    else cdemu_last ebda_seg dop op cnt m.

Definition process_cdemu_op (op : disk_op_s) (m : memory) : outcome (Z * disk_op_s * memory) :=
  let c := command op in
  if c =? CMD_READ then cdemu_read op m
  else if (c =? CMD_WRITE) || (c =? CMD_FORMAT) then Ok (DISK_RET_EWRITEPROTECT, op, m)
  else if (c =? CMD_VERIFY) || (c =? CMD_RESET) || (c =? CMD_SEEK) || (c =? CMD_ISREADY) then
    Ok (DISK_RET_SUCCESS, op, m)
  else Ok (DISK_RET_EPARAM, set_count op 0, m).
End Cdemu.

(** [process_op]: [hardware] are the drivers for floppy, ATA, ATAPI and USB drives; the
    RAM disk is compiled out in this configuration and returns 0.  An emulated drive runs
    its request on another drive, [fuel] times at most. *)
Section Process.
Context (heap : gmap Z drive_s) (hardware : Z -> driver_t).

Fixpoint process_op (fuel : nat) (op : disk_op_s) (m : memory) : outcome (Z * disk_op_s * memory) :=
  match fuel with
  | O => Fault
  | S fuel =>
      let! d := of_option (heap !! drive_g op) in
      let t := type d in
      if (t =? DTYPE_FLOPPY) || (t =? DTYPE_ATA) || (t =? DTYPE_ATAPI) || (t =? DTYPE_USB) then hardware t op m
      else if t =? DTYPE_RAMDISK then Ok (0, op, m)
      else if t =? DTYPE_CDEMU then process_cdemu_op (process_op fuel) op m
      else Ok (DISK_RET_EPARAM, set_count op 0, m)
  end.

(** Only the count comes back from the other stack. *)
Definition send_disk_op (op : disk_op_s) (m : memory) : outcome (Z * disk_op_s * memory) :=
  let! '(status, dop, m) := process_op 2 op m in
  Ok (status, set_count op (count dop), m).
End Process.

(** ** Geometry *)

Definition capacity (g : chs_s) : Z := cylinders g * heads g * spt g.

Definition u16_chs (g : chs_s) : Prop := in_u 16 (heads g) /\ in_u 16 (cylinders g) /\ in_u 16 (spt g).

Lemma large_shift_spec fuel c h :
  0 <= c -> in_u 16 h ->
  let '(c', h') := large_shift fuel c h in 0 <= c' <= c /\ in_u 16 h' /\ c' * h' <= c * h.
Proof.
  revert c h. induction fuel as [|fuel IH]; intros c h Hc Hh; simpl; [split_and!; done || lia|].
  case_test; [|split_and!; done || lia].
  pose proof (wrap_range 16 ltac:(lia) (Z.shiftl h 1)) as Hw.
  assert (0 <= u16 (Z.shiftl h 1) <= 2 * h) as Hle.
  { split; [apply Hw|]. rewrite Z.shiftl_mul_pow2 by lia. change (2 ^ 1) with 2. unfold wrap, in_u in *.
    rewrite Z.mul_comm. apply Z.mod_le; lia. }
  assert (0 <= Z.shiftr c 1 <= c /\ 2 * Z.shiftr c 1 <= c) as [H1 H2].
  { rewrite Z.shiftr_div_pow2 by lia. change (2 ^ 1) with 2. Z.to_euclidean_division_equations. lia. }
  set (c2 := Z.shiftr c 1) in *. set (h2 := u16 _) in *. assert (c2 * h2 <= c * h) by nia.
  case_test; [split_and!; done || lia|].
  specialize (IH c2 h2 ltac:(lia) Hw). destruct (large_shift fuel c2 h2) as [c' h']. intuition lia.
Qed.

(** The loop stops for its own reasons: 16 rounds are enough for any [u16] count. *)
Lemma large_shift_done fuel c h :
  0 <= c -> c < 2 ^ Z.of_nat fuel * 1025 ->
  let '(c', h') := large_shift fuel c h in c' <= 1024 \/ 127 < h'.
Proof.
  revert c h. induction fuel as [|fuel IH]; intros c h Hc Hf; simpl; [simpl in Hf; lia|].
  case_test; [|lia]. case_test; [lia|]. apply IH.
  - by apply Z.shiftr_nonneg.
  - rewrite Nat2Z.inj_succ, Z.pow_succ_r in Hf by lia. rewrite Z.shiftr_div_pow2 by lia. change (2 ^ 1) with 2.
    apply Z.div_lt_upper_bound; lia.
Qed.

Lemma lba_geometry_spec s :
  in_u 64 s -> let '(c, h) := lba_geometry s in 0 <= c < 2 ^ 16 /\ 16 <= h <= 255 /\ c * h * 63 <= s.
Proof.
  intros Hs. unfold lba_geometry. case_test; [lia|].
  rewrite (wrap_small 32 s) by (unfold in_u in *; lia).
  assert (0 <= s / 63 <= 255 * 1024 /\ s / 63 * 63 <= s) as [H1 H2] by (unfold in_u in *; Z.to_euclidean_division_equations; lia).
  set (sect := s / 63) in *.
  assert (0 <= sect / 1024 <= 255 /\ sect < (sect / 1024 + 1) * 1024) as [H3 H4] by (Z.to_euclidean_division_equations; lia).
  rewrite (wrap_small 16 (sect / 1024)) by (unfold in_u; lia).
  set (h := if 128 <? _ then _ else _). assert (16 <= h <= 255) as Hh by (subst h; repeat case_test; lia).
  assert (0 <= sect / h /\ sect / h * h <= sect) as [H5 H6] by (Z.to_euclidean_division_equations; nia).
  assert (sect / h < 2 ^ 16) by (apply Z.div_lt_upper_bound; lia).
  rewrite wrap_small by (unfold in_u; lia). nia.
Qed.

Lemma rechs_geometry_spec c h :
  in_u 16 c -> in_u 16 h ->
  let '(c', h') := rechs_geometry c h in in_u 16 c' /\ in_u 16 h' /\ c' * h' <= c * h.
Proof.
  intros Hc Hh. unfold rechs_geometry, in_u in *. case_test; [|lia].
  set (c1 := if 61439 <? c then _ else _). assert (0 <= c1 <= c /\ c1 <= 61439) as [H1 H2] by (subst c1; case_test; lia).
  assert (0 <= c1 * 16 / 15 < 2 ^ 16 /\ c1 * 16 / 15 * 15 <= c1 * 16) as [H3 H4] by (Z.to_euclidean_division_equations; lia).
  rewrite wrap_small by done. nia.
Qed.

Lemma translate_spec t s p :
  u16_chs p -> in_u 64 s -> t = TRANSLATION_LBA \/ capacity p <= s ->
  let g := translate t s p in capacity g <= s /\ 0 <= cylinders g <= 1024 /\ in_u 16 (heads g) /\ in_u 16 (spt g).
Proof.
  destruct p as [h c k]. intros (Hh & Hc & Hk) Hs Ht. unfold capacity in *. cbn [heads cylinders spt] in *.
  assert (exists c' h' k', translate t s (mk_chs h c k) = mk_chs h' (if 1024 <? c' then 1024 else c') k' /\
    0 <= c' /\ in_u 16 h' /\ in_u 16 k' /\ c' * h' * k' <= s) as (c' & h' & k' & -> & Hc' & Hh' & Hk' & Hp).
  { unfold translate. case_test; [|assert (c * h * k <= s) by (destruct Ht; [done|lia]); case_test; [|case_test]].
    - pose proof (lba_geometry_spec s Hs) as Hg. destruct (lba_geometry s) as [c' h'].
      exists c', h', 63. unfold in_u. split_and!; done || lia.
    - pose proof (rechs_geometry_spec c h Hc Hh) as Hg. destruct (rechs_geometry c h) as [c1 h1].
      destruct Hg as (Hc1 & Hh1 & Hp1). pose proof (large_shift_spec 16 c1 h1 ltac:(apply Hc1) Hh1) as Hl.
      destruct (large_shift 16 c1 h1) as [c' h']. exists c', h', k. unfold in_u in *. split_and!; done || lia || nia.
    - pose proof (large_shift_spec 16 c h ltac:(apply Hc) Hh) as Hl.
      destruct (large_shift 16 c h) as [c' h']. exists c', h', k. unfold in_u in *. split_and!; done || lia || nia.
    - exists c, h, k. unfold in_u in *. split_and!; done || lia. }
  cbn [heads cylinders spt]. case_test; split_and!; try done; try lia; unfold in_u in *; nia.
Qed.

Lemma u16_product x y z : in_u 16 x -> in_u 16 y -> in_u 16 z -> in_u 64 (x * y * z).
Proof.
  unfold in_u. intros. assert (0 <= x * y <= 65535 * 65535) by nia. nia.
Qed.

(** The size of the drive matters to the LBA translation only. *)
Lemma translate_size t s s' p : t <> TRANSLATION_LBA -> translate t s p = translate t s' p.
Proof. intros Ht. unfold translate. destruct p. by rewrite (proj2 (Z.eqb_neq t TRANSLATION_LBA) Ht). Qed.

(** C34.  The geometry a drive is given never has more than 1024 cylinders and never claims more
    sectors than the drive has or than the drive's own geometry has.  It claims no more
    than the drive has with the LBA translation, for drives other than ATA drives, whose
    own geometry is compared with their size, and for ATA drives, for which the emulator
    chooses the translation, if their own geometry does not exceed it.  Where it does,
    the code follows the geometry: [ata_geometry_exceeds].  With the LBA translation there
    are 16 to 255 heads and 63 sectors. *)
Theorem translation_fits inb_cmos d :
  u16_chs (pchs d) -> in_u 64 (sectors d) ->
  let d' := setup_translation inb_cmos d in
  0 <= cylinders (lchs d') <= 1024 /\
  capacity (lchs d') <= Z.max (sectors d) (capacity (pchs d)) /\
  (type d <> DTYPE_ATA \/ translation d' = TRANSLATION_LBA \/ capacity (pchs d) <= sectors d ->
     capacity (lchs d') <= sectors d) /\
  (translation d' = TRANSLATION_LBA -> 16 <= heads (lchs d') <= 255 /\ spt (lchs d') = 63).
Proof.
  intros Hp Hs. cbn [setup_translation lchs sectors translation].
  set (t := get_translation inb_cmos d).
  assert (type d <> DTYPE_ATA -> t = TRANSLATION_LBA \/ capacity (pchs d) <= sectors d) as Ht.
  { intros Hd. subst t. unfold get_translation. rewrite (proj2 (Z.eqb_neq _ _)) by done.
    destruct (pchs d) as [h c k], Hp as (Hh & Hc & Hk). unfold capacity. cbn [heads cylinders spt] in *.
    case_test; [by left|]. right. bool_to_prop.
    rewrite (wrap_small 64) in * by (by apply u16_product). lia. }
  assert (capacity (pchs d) < 2 ^ 64) as Hcap by (destruct Hp as (? & ? & ?); by apply u16_product).
  assert (capacity (translate t (sectors d) (pchs d)) <= Z.max (sectors d) (capacity (pchs d)) /\
    0 <= cylinders (translate t (sectors d) (pchs d)) <= 1024) as [H1 H2].
  { destruct (Z.eq_dec t TRANSLATION_LBA) as [E|E].
    - destruct (translate_spec t (sectors d) (pchs d) Hp Hs) as (H1 & H2 & _); [by left|]. lia.
    - rewrite (translate_size t _ (Z.max (sectors d) (capacity (pchs d)))) by done.
      destruct (translate_spec t (Z.max (sectors d) (capacity (pchs d))) (pchs d) Hp) as (H1 & H2 & _);
        [unfold in_u in *; lia|right; lia|]. lia. }
  split_and!; [lia|lia|done|..].
  - intros Hd. assert (t = TRANSLATION_LBA \/ capacity (pchs d) <= sectors d) as Ht' by tauto.
    by destruct (translate_spec t (sectors d) (pchs d) Hp Hs Ht') as (H3 & _).
  - intros E. unfold translate. destruct (pchs d) as [h c k]. rewrite E. cbn [Z.eqb TRANSLATION_LBA Pos.eqb].
    pose proof (lba_geometry_spec (sectors d) Hs) as Hg. destruct (lba_geometry (sectors d)) as [c' h'].
    cbn [heads spt]. split; [lia|done].
Qed.

Definition demo_disk : drive_s := mk_drive DTYPE_USB 0 (mk_chs 0 0 0) 8000000 1 0 512 (mk_chs 16 7936 63).

Lemma translation_fits_witness :
  capacity (lchs (setup_translation (fun _ => 0) demo_disk)) <= 8000000 /\
  cylinders (lchs (setup_translation (fun _ => 0) demo_disk)) <= 1024.
Proof.
  destruct (translation_fits (fun _ => 0) demo_disk) as (H1 & _ & H2 & _);
    [unfold u16_chs, in_u; simpl; lia|unfold in_u; simpl; lia|]. split; [apply H2; by left|apply H1].
Defined.

(** An ATA drive of 1000 sectors that says it has 1024 cylinders, 16 heads and 63 sectors
    per track, and for which the emulator sets no translation, gets that geometry. *)
Theorem ata_geometry_exceeds :
  let d := mk_drive DTYPE_ATA 0 (mk_chs 0 0 0) 1000 0 0 512 (mk_chs 16 1024 63) in
  capacity (lchs (setup_translation (fun _ => 0) d)) = 1024 * 16 * 63.
Proof. by vm_compute. Qed.

(** ** Drive order *)

Section Order.
Context (heap : gmap Z drive_s).

(** [q] may follow [p] in the map. *)
Definition ordered (p q : Z) : Prop :=
  exists dp dq, heap !! p = Some dp /\ heap !! q = Some dq /\ before dq dp = false.

Definition distinct_keys (ps : list Z) : Prop :=
  NoDup ps /\ forall p q, p ∈ ps -> q ∈ ps -> ordered p q -> ordered q p -> p = q.

Lemma before_spec p d : before p d = true <-> type p < type d \/ type p = type d /\ cntl_id p < cntl_id d.
Proof. unfold before. rewrite orb_true_iff, andb_true_iff, !Z.ltb_lt, Z.eqb_eq. done. Qed.

Lemma before_false p d : before p d = false <-> ~ (type p < type d \/ type p = type d /\ cntl_id p < cntl_id d).
Proof. rewrite <- before_spec. by rewrite not_true_iff_false. Qed.

Lemma find_pos_spec row ps d x :
  heap !! x = Some d -> ps `prefix_of` row -> Forall (fun p => is_Some (heap !! p)) ps -> StronglySorted ordered ps ->
  exists l1 l2, ps = l1 ++ l2 /\ find_pos heap row d (length ps) = Ok (length l1) /\
    Forall (fun p => ordered p x) l1 /\ Forall (fun p => ordered x p) l2.
Proof.
  intros Hx. revert row. induction ps as [|p ps IH] using rev_ind; intros row Hpre Hh Hs.
  { exists [], []. simpl. split_and!; auto. }
  rewrite length_app. simpl. rewrite Nat.add_1_r. cbn [find_pos].
  apply Forall_app in Hh as [Hh Hp]. apply Forall_singleton in Hp as [dp Hp].
  destruct Hpre as [suf ->]. rewrite <- (assoc_L (++)). simpl. rewrite list_lookup_middle by done. simpl. rewrite Hp. simpl.
  assert (Forall (fun y => ordered y p) ps) as Hsp.
  { apply Forall_forall. intros y Hy. eapply (StronglySorted_app_1_elem_of _ ps [p]); [exact Hs|done|]. by apply list_elem_of_singleton. }
  apply StronglySorted_app_1_l in Hs. destruct (before dp d) eqn:Eb.
  - exists (ps ++ [p]), []. rewrite app_nil_r, length_app. simpl. rewrite Nat.add_1_r. split_and!; auto.
    apply Forall_app. split.
    + eapply Forall_impl; [exact Hsp|]. intros y (dy & dp' & H1 & H2 & H3). simplify_eq.
      exists dy, d. split_and!; [done|done|]. rewrite before_false in *. rewrite before_spec in Eb. lia.
    + apply Forall_singleton. exists dp, d. split_and!; [done|done|]. rewrite before_false. rewrite before_spec in Eb. lia.
  - destruct (IH (ps ++ p :: suf)) as (l1 & l2 & -> & -> & H1 & H2); [by eexists|done|done|].
    exists l1, (l2 ++ [p]). rewrite (assoc_L (++)). split_and!; auto.
    apply Forall_app. split; [done|]. apply Forall_singleton. by exists d, dp.
Qed.

(** The first entries of the row are [ps], in order; the row has 16 slots. *)
Definition row_repr (row : list Z) (ps : list Z) : Prop :=
  row = ps ++ replicate (16 - length ps) 0 /\ (length ps <= 16)%nat /\ Forall (fun p => is_Some (heap !! p)) ps /\ StronglySorted ordered ps.

Lemma StronglySorted_insert (R : Z -> Z -> Prop) l1 l2 x :
  StronglySorted R (l1 ++ l2) -> Forall (fun p => R p x) l1 -> Forall (R x) l2 -> StronglySorted R (l1 ++ x :: l2).
Proof.
  induction l1 as [|y l1 IH]; simpl; intros Hs H1 H2; [by constructor|].
  inversion Hs; subst. apply Forall_cons_1 in H1 as [Hy H1]. constructor; [by apply IH|].
  rewrite Forall_app in *. rewrite Forall_cons. tauto.
Qed.

Lemma add_ordered_repr row ps x d :
  row_repr row ps -> (length ps < 16)%nat -> heap !! x = Some d ->
  exists row' ps', add_ordered_drive heap row (Z.of_nat (length ps)) x = Ok (row', Z.of_nat (length ps')) /\
    row_repr row' ps' /\ ps' ≡ₚ ps ++ [x].
Proof.
  intros (Hrow & Hlen & Hh & Hs) Hl Hx. unfold add_ordered_drive, CONFIG_MAX_EXTDRIVE.
  rewrite (proj2 (Z.leb_gt _ _)), Nat2Z.id, Hx by lia. cbn [of_option obind].
  assert (ps `prefix_of` row) as Hpre by (rewrite Hrow; by eexists).
  destruct (find_pos_spec row ps d x Hx Hpre Hh Hs) as (l1 & l2 & -> & -> & H1 & H2). cbn [obind].
  rewrite Hrow, take_app_length, list_insert_at_mid.
  replace (16 - length (l1 ++ l2))%nat with (S (15 - length (l1 ++ l2))) by lia. cbn [replicate].
  replace (drop (S (length (l1 ++ l2))) _) with (replicate (15 - length (l1 ++ l2)) 0).
  2: { symmetry. rewrite cons_middle, (assoc_L (++)). apply drop_app_length'. rewrite (length_app (l1 ++ l2)). simpl. lia. }
  exists ((l1 ++ x :: l2) ++ replicate (15 - length (l1 ++ l2)) 0), (l1 ++ x :: l2).
  unfold row_repr. split_and!.
  - rewrite wrap_small by (unfold in_u; lia). do 2 f_equal. rewrite !length_app. simpl. lia.
  - do 2 f_equal. rewrite !length_app. cbn [length]. lia.
  - rewrite !length_app in *. cbn [length]. lia.
  - rewrite Forall_app in *. rewrite Forall_cons. split_and!; try tauto. by eexists.
  - by apply StronglySorted_insert.
  - solve_Permutation.
Qed.

(** Drives added one after the other, from an empty row. *)
Fixpoint add_drives (row : list Z) (cnt : Z) (xs : list Z) : outcome (list Z * Z) :=
  match xs with
  | [] => Ok (row, cnt)
  | x :: xs => let! '(row, cnt) := add_ordered_drive heap row cnt x in add_drives row cnt xs
  end.

Lemma add_drives_repr xs row ps :
  row_repr row ps -> (length ps + length xs <= 16)%nat -> Forall (fun p => is_Some (heap !! p)) xs ->
  exists row' ps', add_drives row (Z.of_nat (length ps)) xs = Ok (row', Z.of_nat (length ps')) /\
    row_repr row' ps' /\ ps' ≡ₚ ps ++ xs.
Proof.
  revert row ps. induction xs as [|x xs IH]; intros row ps Hr Hl Hh; cbn [add_drives].
  { exists row, ps. rewrite app_nil_r. done. }
  simpl in Hl. apply Forall_cons_1 in Hh as [[d Hx] Hh].
  destruct (add_ordered_repr row ps x d Hr ltac:(lia) Hx) as (row1 & ps1 & -> & Hr1 & Hp1). simpl.
  assert (length ps1 = S (length ps)) as Hl1 by (rewrite Hp1, length_app; simpl; lia).
  destruct (IH row1 ps1 Hr1 ltac:(lia) Hh) as (row2 & ps2 & E & Hr2 & Hp2).
  exists row2, ps2. split_and!; [done|done|]. rewrite Hp2, Hp1. by rewrite <- (assoc_L (++)).
Qed.
End Order.

(** The map of drives does not depend on the order in which the drives are found: any two
    orders of the same drives (told apart by type and controller id) give the same row,
    which lists them all by type, then by controller id. *)
Theorem drive_order_independent heap xs ys :
  distinct_keys heap xs -> (length xs <= 16)%nat -> Forall (fun p => is_Some (heap !! p)) xs -> xs ≡ₚ ys ->
  exists ps, ps ≡ₚ xs /\ StronglySorted (ordered heap) ps /\
    add_drives heap (replicate 16 0) 0 xs = Ok (ps ++ replicate (16 - length xs) 0, Z.of_nat (length xs)) /\
    add_drives heap (replicate 16 0) 0 ys = add_drives heap (replicate 16 0) 0 xs.
Proof.
  intros [Hnd Hk] Hl Hh Hp.
  assert (row_repr heap (replicate 16 0) []) as H0 by (split_and!; [done|simpl; lia|done|constructor]).
  destruct (add_drives_repr heap xs _ [] H0 ltac:(simpl; lia) Hh) as (r1 & p1 & E1 & (R1 & _ & _ & S1) & P1).
  destruct (add_drives_repr heap ys _ [] H0) as (r2 & p2 & E2 & (R2 & _ & _ & S2) & P2);
    [simpl; rewrite <- Hp; lia|by rewrite <- Hp|].
  cbn [length app] in *. change (Z.of_nat 0) with 0 in *. assert (p1 = p2) as <-.
  { apply (StronglySorted_unique_strong (ordered heap)); [|done|done|by rewrite P1, P2].
    intros x y Hx Hy. apply Hk; [by rewrite <- P1|by rewrite Hp, <- P2]. }
  assert (length p1 = length xs) as El by (by rewrite P1).
  exists p1. rewrite E1, E2, R1, R2, El. split_and!; done.
Qed.

Definition demo_heap : gmap Z drive_s :=
  <[0x100 := mk_drive DTYPE_ATAPI 0 (mk_chs 0 0 0) 0 3 0 2048 (mk_chs 0 0 0)]>
  (<[0x200 := mk_drive DTYPE_ATAPI 0 (mk_chs 0 0 0) 0 1 0 2048 (mk_chs 0 0 0)]>
  {[0x300 := mk_drive DTYPE_USB 0 (mk_chs 0 0 0) 0 0 0 2048 (mk_chs 0 0 0)]}).

Lemma drive_order_independent_witness :
  exists ps, ps ≡ₚ [0x300; 0x100; 0x200] /\ StronglySorted (ordered demo_heap) ps /\
    add_drives demo_heap (replicate 16 0) 0 [0x300; 0x100; 0x200] = Ok (ps ++ replicate 13 0, 3) /\
    add_drives demo_heap (replicate 16 0) 0 [0x100; 0x200; 0x300]
    = add_drives demo_heap (replicate 16 0) 0 [0x300; 0x100; 0x200].
Proof.
  apply (drive_order_independent demo_heap [0x300; 0x100; 0x200] [0x100; 0x200; 0x300]).
  - split; [by apply (bool_decide_unpack _); vm_compute|].
    intros p q Hp Hq (a & b & E1 & E2 & E3) (c & d & E4 & E5 & E6). simplify_eq.
    rewrite !elem_of_cons, elem_of_nil in *.
    destruct Hp as [->|[->|[->|[]]]], Hq as [->|[->|[->|[]]]]; vm_compute in E1, E2; simplify_eq; done.
  - simpl. lia.
  - repeat constructor; by eexists.
  - solve_Permutation.
Defined.
