(* ===== verification/CdEmu.v ===== *)
(** * Emulated drives: the reads of [cdemu_read] in [bios/seabios/src/cdrom.c]

    A disc image seen in 512-byte sectors is read correctly through a driver that reads
    2048-byte blocks. *)

From S2P Require Import Prelude BiosUtil Bregs Block.
Local Open Scope Z_scope.
Local Open Scope coremu_scope.

(** ** A driver that works *)

(** Memory with [n] bytes of [disk], from [off], stored at [buf]. *)
Definition stored (m : memory) (buf n : Z) (disk : Z -> Z) (off : Z) : memory :=
  fun x => if (buf <=? x) && (x <? buf + n) then disk (off + (x - buf)) else m x.

(** Reads of blocks of drive [p], inside the disc. *)
Definition block_read (p blocks : Z) (op : disk_op_s) : Prop :=
  command op = CMD_READ /\ drive_g op = p /\ 0 <= op_lba op /\ 1 <= count op < 2 ^ 16 /\ op_lba op + count op <= blocks.

(** A driver that reads such blocks: the status, the request as it was, the bytes stored. *)
Definition block_reader (disk : Z -> Z) : driver_t := fun op m =>
  Ok (0, op, stored m (buf_fl op) (2048 * count op) disk (2048 * op_lba op)).
Definition reads_blocks (process_op : driver_t) (p : Z) (disk : Z -> Z) (blocks : Z) : Prop :=
  forall op m, block_read p blocks op -> process_op op m = block_reader disk op m.

Lemma bytes_stored m buf n disk off : bytes m -> (forall i, in_u 8 (disk i)) -> bytes (stored m buf n disk off).
Proof. intros Hm Hd x. unfold stored. case_test; auto. Qed.

Section Read.
Context (process_op : driver_t) (drive : Z) (disk : Z -> Z) (blocks : Z).
Context (Hdisk : forall i, in_u 8 (disk i)) (Hdrv : reads_blocks process_op drive disk blocks).
(** The request: [N] sectors at [lba], to [buf]; the image starts at block [ilba]; the
    bounce buffer is at [cd]. *)
Context (m0 : memory) (seg ilba lba N buf : Z).
Notation cd := (seg * 16 + cdemu_buf).
Context (Hseg : in_u 16 seg) (Hilba : in_u 32 ilba) (Hlba : 0 <= lba) (HN : 0 <= N < 256).
Context (Hfit : ilba + (lba + N + 3) / 4 <= blocks) (Hblocks : blocks < 2 ^ 64).
Context (Hsep : buf + 512 * N <= cd \/ cd + 2048 <= buf) (Hbuf : 0 <= buf /\ buf + 512 * N <= 0x100000).

Notation base := (512 * (4 * ilba + lba)).

(** The first [p] sectors are in place, nothing else but the bounce buffer has changed. *)
Definition filled (p : Z) (m : memory) : Prop :=
  bytes m /\ (forall i, 0 <= i < 512 * p -> m (buf + i) = disk (base + i)) /\
  (forall x, ~ (buf <= x < buf + 512 * p) -> ~ (cd <= x < cd + 2048) -> m x = m0 x).

(** Between the stages. *)
Definition stage (p : Z) (dop op : disk_op_s) (cnt : Z) (m : memory) : Prop :=
  0 <= p <= N /\ cnt = N - p /\ buf_fl op = buf + 512 * p /\ count op = p /\ command dop = CMD_READ /\ drive_g dop = drive /\
  (cnt = 0 \/ (lba + p) mod 4 = 0 /\ op_lba dop = ilba + (lba + p) / 4) /\ filled p m.

Lemma cd_flat : MAKE_FLATPTR seg cdemu_buf = cd.
Proof using All.
  unfold MAKE_FLATPTR. rewrite Z.shiftl_mul_pow2 by lia. apply wrap_small. unfold in_u, cdemu_buf in *. lia.
Qed.

(** Below 1M the far copy out of the bounce buffer is a flat one. *)
Lemma bounce_copy m p part k :
  0 <= p -> 0 <= k <= 4 -> p + k <= N -> 0 <= part <= 3 -> part + k <= 4 ->
  memcpy_far m (FLATPTR_TO_SEG (buf + 512 * p)) (FLATPTR_TO_OFFSET (buf + 512 * p)) seg (cdemu_buf + part * 512) (k * 512) =
  movsb m (buf + 512 * p) (cd + part * 512) (Z.to_nat (k * 512)).
Proof using All.
  intros Hp Hk Hpk Hpart Hk4. destruct (decide (k = 0)) as [->|Hk0]; [done|]. unfold FLATPTR_TO_SEG, FLATPTR_TO_OFFSET.
  change 0xf with (Z.ones 4). rewrite Z.shiftr_div_pow2, Z.land_ones by lia. change (2 ^ 4) with 16.
  set (b := buf + 512 * p). assert (0 <= b < 0x100000) as Hb by (unfold b; lia).
  assert (0 <= b / 16 < 2 ^ 16 /\ 0 <= b mod 16 < 16 /\ b = b / 16 * 16 + b mod 16) as (H1 & H2 & H3)
    by (Z.to_euclidean_division_equations; lia).
  rewrite memcpy_far_flat by (unfold in_u, cdemu_buf in *; lia). rewrite <- H3. f_equal. lia.
Qed.

(** A copy of [k] sectors out of a block read into the bounce buffer. *)
Lemma filled_bounce p k part b m :
  filled p m -> 0 <= p -> 0 <= k -> p + k <= N -> 0 <= part -> part + k <= 4 -> 4 * b + part = 4 * ilba + lba + p ->
  filled (p + k) (movsb (stored m cd 2048 disk (2048 * b)) (buf + 512 * p) (cd + part * 512) (Z.to_nat (k * 512))).
Proof using All.
  intros (Hb & Hi & Ho) Hp Hk Hpk Hpart Hk4 Hbase.
  assert (bytes (stored m cd 2048 disk (2048 * b))) as Hbs by by apply bytes_stored.
  assert (forward_safe (buf + 512 * p) (cd + part * 512) (k * 512)) as Hfs by (unfold forward_safe; lia).
  assert (forall x, movsb (stored m cd 2048 disk (2048 * b)) (buf + 512 * p) (cd + part * 512) (Z.to_nat (k * 512)) x
    = copied (stored m cd 2048 disk (2048 * b)) (buf + 512 * p) (cd + part * 512) (k * 512) x) as Hmv.
  { intros x. rewrite movsb_spec; rewrite ?Z2Nat.id by lia; done. }
  split_and!.
  - intros x. rewrite Hmv. unfold copied. case_test; apply Hbs.
  - intros i Hx. rewrite Hmv. unfold copied, stored. addr_cases; try lia; (apply Hi; lia) || (f_equal; lia).
  - intros x H1 H2. rewrite Hmv. unfold copied, stored. addr_cases; try lia; apply Ho; lia.
Qed.

Lemma drv_reads l b p k c m : p = drive -> c = CMD_READ -> 0 <= l -> 1 <= k < 2 ^ 16 -> l + k <= blocks ->
  process_op (mk_op l b p k c) m = Ok (0, mk_op l b p k c, stored m b (2048 * k) disk (2048 * l)).
Proof using Hdrv. intros -> -> Hl Hk Hlk. rewrite Hdrv; [done|]. unfold block_read. cbn. split_and!; done || lia. Qed.

Lemma stage_first dop op cnt m :
  op_lba op = lba -> buf_fl op = buf -> count op = 0 -> cnt = N -> command dop = CMD_READ -> drive_g dop = drive ->
  op_lba dop = ilba + lba / 4 -> filled 0 m ->
  exists p dop' op' cnt' m', cdemu_first process_op seg dop op cnt m = Ok (0, dop', op', cnt', m') /\
    stage p dop' op' cnt' m' /\ drive_g op' = drive_g op /\ command op' = command op /\ op_lba op' = lba.
Proof using All.
  intros El Eb Ec -> Ecm Edr Edl Hf. unfold cdemu_first. rewrite El.
  change 3 with (Z.ones 2). rewrite Z.land_ones by lia. change (2 ^ 2) with 4.
  pose proof (Z.mod_pos_bound lba 4 ltac:(lia)) as Hm. case_test.
  { exists 0, dop, op, N, m. split; [done|]. split; [|done]. split_and!; try done; try lia.
    right. rewrite Z.add_0_r. done. }
  rewrite cd_flat, drv_reads; try done; try lia.
  2: { rewrite Edl. unfold in_u in *. Z.to_euclidean_division_equations. lia. }
  2: { rewrite Edl. Z.to_euclidean_division_equations. lia. }
  cbn [obind]. rewrite Z.eqb_refl. cbn [negb].
  assert (exists k, (if N <? 4 - lba mod 4 then u8 N else 4 - lba mod 4) = k /\ 0 <= k <= N /\ lba mod 4 + k <= 4 /\
    (N - k = 0 \/ k = 4 - lba mod 4)) as (k & -> & Hk & Hk4 & Hend).
  { case_test; [|eexists; split; [done|lia]]. exists N. split; [apply wrap_small; unfold in_u; lia|lia]. }
  pose proof (filled_bounce 0 k (lba mod 4) (ilba + lba / 4) m Hf) as Hf'.
  eexists k, _, _, _, _. split; [done|]. split; [|done].
  unfold stage. cbn [op_lba buf_fl drive_g count command]. rewrite Eb, Ec, Edl.
  split_and!; try lia; try done.
  - rewrite wrap_small by (unfold in_u; lia). lia.
  - rewrite wrap_small by (unfold in_u; lia). lia.
  - destruct Hend as [|Hend]; [by left|]. right. unfold in_u in *.
    rewrite wrap_small by (unfold in_u; Z.to_euclidean_division_equations; lia).
    split; Z.to_euclidean_division_equations; lia.
  - rewrite Z.mul_0_r, (Z.add_0_r buf), (Z.add_0_l k) in Hf'. rewrite Z.mul_1_r.
    pose proof (bounce_copy (stored m cd 2048 disk (2048 * (ilba + lba / 4))) 0 (lba mod 4) k) as Ecp.
    rewrite Z.mul_0_r, Z.add_0_r in Ecp. rewrite Ecp by lia. apply Hf'; try lia. Z.to_euclidean_division_equations; lia.
Qed.

Lemma stage_blocks p dop op cnt m :
  stage p dop op cnt m ->
  exists p' dop' op' cnt' m', cdemu_blocks process_op dop op cnt m = Ok (0, dop', op', cnt', m') /\
    stage p' dop' op' cnt' m' /\ cnt' <= 3 /\ drive_g op' = drive_g op /\ command op' = command op /\ op_lba op' = op_lba op.
Proof using All.
  intros (Hp & Ecnt & Eb & Ec & Ecm & Edr & Hd & Hf). unfold cdemu_blocks. case_test.
  { exists p, dop, op, cnt, m. split_and!; done. }
  destruct Hd as [|[Hal Edl]]; [lia|].
  assert (1 <= cnt / 4 /\ cnt = 4 * (cnt / 4) + cnt mod 4 /\ 0 <= cnt mod 4 < 4) as (H1 & H2 & H3)
    by (Z.to_euclidean_division_equations; lia).
  set (k := cnt / 4) in *. rewrite (wrap_small 16 k) by (unfold in_u; lia).
  assert (lba + p = 4 * ((lba + p) / 4)) as Hq by (Z.to_euclidean_division_equations; lia).
  set (q := (lba + p) / 4) in *.
  rewrite drv_reads; try done; try lia.
  2: { rewrite Edl. unfold in_u in *. lia. }
  2: { rewrite Edl. Z.to_euclidean_division_equations. lia. }
  cbn [obind]. rewrite Z.eqb_refl. cbn [negb set_count op_lba buf_fl drive_g count command].
  assert (Z.ldiff cnt 3 = 4 * k) as ->.
  { change 3 with (Z.ones 2). rewrite Z.ldiff_ones_r, Z.shiftr_div_pow2, Z.shiftl_mul_pow2 by lia. change (2 ^ 2) with 4. lia. }
  change 3 with (Z.ones 2). rewrite Z.land_ones by lia. change (2 ^ 2) with 4.
  rewrite (wrap_small 8) by (unfold in_u; lia). replace (4 * k / 4) with k by (rewrite Z.mul_comm, Z.div_mul; lia).
  change (Z.ones 2) with 3.
  eexists (p + 4 * k), _, _, _, _. split; [done|]. split; [|split; [lia|done]].
  unfold stage. cbn [op_lba buf_fl drive_g count command]. rewrite Eb, Ec, Edl.
  split_and!; try lia; try done.
  - rewrite wrap_small by (unfold in_u; lia). lia.
  - rewrite wrap_small by (unfold in_u; lia). lia.
  - right. assert (q + k <= (lba + N + 3) / 4) by (apply Z.div_le_lower_bound; lia).
    rewrite wrap_small by (unfold in_u in *; lia).
    split; [|]; replace (lba + (p + 4 * k)) with ((q + k) * 4) by lia; [apply Z.mod_mul; lia|rewrite Z.div_mul; lia].
  - destruct Hf as (Hb & Hi & Ho). split_and!; [by apply bytes_stored| |].
    + intros i Hx. unfold stored. addr_cases; try lia; (apply Hi; lia) || (f_equal; lia).
    + intros x H4 H5. unfold stored. addr_cases; try lia; apply Ho; lia.
Qed.

Lemma stage_last p dop op cnt m :
  stage p dop op cnt m -> cnt <= 3 ->
  exists op' m', cdemu_last process_op seg dop op cnt m = Ok (0, op', m') /\ count op' = N /\ filled N m'.
Proof using All.
  intros (Hp & Ecnt & Eb & Ec & Ecm & Edr & Hd & Hf) H3. unfold cdemu_last. case_test.
  { exists op, m. split; [done|]. replace N with p by lia. done. }
  destruct Hd as [|[Hal Edl]]; [lia|].
  assert (lba + p = 4 * ((lba + p) / 4)) as Hq by (Z.to_euclidean_division_equations; lia).
  set (q := (lba + p) / 4) in *. assert (q + 1 <= (lba + N + 3) / 4) by (apply Z.div_le_lower_bound; lia).
  rewrite cd_flat, drv_reads; try done; try lia; [|unfold in_u in *; lia].
  cbn [obind]. rewrite Z.eqb_refl. cbn [negb set_count op_lba buf_fl drive_g count command].
  rewrite (wrap_small 8 cnt) by (unfold in_u; lia).
  eexists _, _. split; [done|]. cbn [set_count count]. rewrite Ec, (wrap_small 16) by (unfold in_u; lia). split; [lia|].
  pose proof (filled_bounce p cnt 0 (ilba + q) m Hf) as Hf'. rewrite Eb, Edl.
  replace (p + cnt) with N in Hf' by lia. rewrite Z.mul_0_l, (Z.add_0_r cd) in Hf'. rewrite Z.mul_1_r.
  pose proof (bounce_copy (stored m cd 2048 disk (2048 * (ilba + q))) p 0 cnt) as Ecp.
  rewrite Z.mul_0_l, !Z.add_0_r in Ecp. rewrite Ecp by lia. apply Hf'; lia.
Qed.
End Read.

(** C5.  Reading fewer than 256 sectors of an emulated drive into a buffer below 1M, through
    the bounce buffer and whatever the alignment, gives exactly the bytes of the image,
    reports all sectors as transferred and touches nothing but the caller's buffer and
    the bounce buffer.  It is asked of a driver that reads the blocks, of blocks that the
    disc has, and of buffers that do not meet.  [cdemu_read_drops_sector] and
    [cdemu_read_above_1m] show what happens past the two bounds. *)
Theorem cdemu_read_correct process_op disk blocks op m :
  (forall i, in_u 8 (disk i)) -> reads_blocks process_op (readl m (cdemu m "emulated_drive_gf")) disk blocks -> bytes m ->
  let cd := get_ebda_seg m * 16 + cdemu_buf in
  let ilba := readl m (cdemu m "ilba") in
  command op = CMD_READ -> 0 <= op_lba op -> 0 <= count op < 256 ->
  ilba + (op_lba op + count op + 3) / 4 <= blocks -> blocks < 2 ^ 64 ->
  buf_fl op + 512 * count op <= cd \/ cd + 2048 <= buf_fl op ->
  0 <= buf_fl op -> buf_fl op + 512 * count op <= 0x100000 ->
  exists op' m', cdemu_read process_op op m = Ok (DISK_RET_SUCCESS, op', m') /\ count op' = count op /\
    (forall i, 0 <= i < 512 * count op -> m' (buf_fl op + i) = disk (512 * (4 * ilba + op_lba op) + i)) /\
    (forall x, ~ (buf_fl op <= x < buf_fl op + 512 * count op) -> ~ (cd <= x < cd + 2048) -> m' x = m x).
Proof.
  intros Hdisk Hdrv Hm cd ilba Hc Hl Hn Hfit Hblk Hsep Hbuf0 Hbuf1. pose proof (conj Hbuf0 Hbuf1) as Hbuf. unfold cdemu_read.
  assert (in_u 16 (get_ebda_seg m)) as Hseg by by apply readw_range.
  assert (in_u 32 ilba) as Hilba by by apply readl_range.
  fold ilba. set (seg := get_ebda_seg m) in *.
  assert (u64 (ilba + op_lba op / 4) = ilba + op_lba op / 4) as ->.
  { apply wrap_small. unfold in_u in *. Z.to_euclidean_division_equations. lia. }
  destruct (stage_first process_op _ disk blocks Hdisk Hdrv m seg ilba (op_lba op) (count op) (buf_fl op)
    Hseg Hilba Hl Hn Hfit Hblk Hsep Hbuf (mk_op (ilba + op_lba op / 4) 0 (readl m (cdemu m "emulated_drive_gf")) 0 (command op))
    (set_count op 0) (count op) m) as (p & d1 & o1 & c1 & m1 & E1 & S1 & _); try done.
  { split_and!; [done|intros i Hi; lia|done]. }
  rewrite E1. cbn [obind]. rewrite Z.eqb_refl. cbn [negb].
  destruct (stage_blocks process_op _ disk blocks Hdisk Hdrv m seg ilba (op_lba op) (count op) (buf_fl op)
    Hseg Hilba Hl Hn Hfit Hblk Hsep Hbuf _ _ _ _ _ S1) as (p2 & d2 & o2 & c2 & m2 & E2 & S2 & H2 & _).
  rewrite E2. cbn [obind]. rewrite Z.eqb_refl. cbn [negb].
  destruct (stage_last process_op _ disk blocks Hdisk Hdrv m seg ilba (op_lba op) (count op) (buf_fl op)
    Hseg Hilba Hl Hn Hfit Hblk Hsep Hbuf _ _ _ _ _ S2 H2) as (o3 & m3 & E3 & H3 & (_ & Hi & Ho)).
  rewrite E3. exists o3, m3. split_and!; done.
Qed.

(** A disc of 100 blocks whose byte at [i] is the low byte of [i / 512]. *)
Definition demo_disc (i : Z) : Z := u8 (i / 512).
Definition demo_driver : driver_t := block_reader demo_disc.

Lemma cdemu_read_correct_witness :
  exists op' m', cdemu_read demo_driver (mk_op 2 0x2000 0 7 CMD_READ) (fun _ => 0) = Ok (DISK_RET_SUCCESS, op', m') /\
    count op' = 7 /\ m' 0x2000 = 2 /\ m' (0x2000 + 3583) = 8 /\ m' (0x2000 + 3584) = 0.
Proof.
  destruct (cdemu_read_correct demo_driver demo_disc 100 (mk_op 2 0x2000 0 7 CMD_READ) (fun _ => 0))
    as (op' & m' & E & Hc & Hi & Ho).
  - intros i. apply wrap_range. lia.
  - intros op m _. done.
  - intros x. unfold in_u. lia.
  - done.
  - simpl. lia.
  - simpl. lia.
  - vm_compute. congruence.
  - lia.
  - right. vm_compute. congruence.
  - simpl. lia.
  - simpl. lia.
  - exists op', m'. split; [done|]. split; [done|]. split; [|split].
    + rewrite <- (Z.add_0_r 0x2000), Hi by (simpl; lia). done.
    + rewrite Hi by (simpl; lia). done.
    + rewrite Ho; [done|simpl; lia|vm_compute; intuition congruence].
Defined.

(** ** What the two bounds keep out *)

(** [thiscount] has 8 bits: of 261 aligned sectors the 65 whole blocks go to their place,
    but [op->buf_fl] and [dop.lba] then move on by 4 sectors and one block instead of 260
    and 65, so the last sector is stored over sector 4, its own place keeps what it had,
    and the call reports success for 261 sectors. *)
Theorem cdemu_read_drops_sector :
  exists op' m', cdemu_read demo_driver (mk_op 0 0x20000 0 261 CMD_READ) (fun _ => 0) = Ok (DISK_RET_SUCCESS, op', m') /\
    count op' = 261 /\ demo_disc (512 * 260) = 4 /\ m' (0x20000 + 512 * 260) = 0.
Proof. by do 2 eexists. Qed.

(** The segment of [memcpy_far] has 16 bits: a sector for 0xffff:0x0010, the first byte
    above 1M, goes to address 0, over the interrupt vectors. *)
Theorem cdemu_read_above_1m :
  exists op' m', cdemu_read demo_driver (mk_op 7 0x100000 0 1 CMD_READ) (fun _ => 0) = Ok (DISK_RET_SUCCESS, op', m') /\
    count op' = 1 /\ m' 0x100000 = 0 /\ m' 0 = 7.
Proof. by do 2 eexists. Qed.
