(* ===== verification/Disk.v ===== *)
(** * Disk service: [bios/seabios/src/disk.c], [cdrom.c] (El Torito status)

    Every function of interrupt 0x13 as a function of memory, the caller's registers and
    the drive.  The hardware drivers, interrupt 0x15 and the description of the ATA
    channels are arguments; debug output is left out. *)

From S2P Require Import Prelude BiosUtil Bregs Block.
Local Open Scope Z_scope.
Local Open Scope coremu_scope.

Definition floppy_last_status : Z := Eval vm_compute in bda "floppy_last_status".
Definition disk_last_status : Z := Eval vm_compute in bda "disk_last_status".
Definition disk_interrupt_flag : Z := Eval vm_compute in bda "disk_interrupt_flag".
Definition SEG_BIOS : Z := 0xf000.

Definition int13ext_s : layout :=
  [("size", 1); ("reserved", 1); ("count", 2); ("data.offset", 2); ("data.seg", 2); ("lba", 8)].
Definition int13dpt_s : layout :=
  [("size", 2); ("infos", 2); ("cylinders", 4); ("heads", 4); ("spt", 4); ("sector_count", 8); ("blksize", 2);
   ("dpte_offset", 2); ("dpte_segment", 2); ("key", 2); ("dpi_length", 1); ("reserved1", 1); ("reserved2", 2);
   ("host_bus", 4); ("iface_type", 8); ("iface_path", 8); ("device_path", 8); ("reserved3", 1); ("checksum", 1)].
Definition eltorito_s : layout :=
  [("size", 1); ("media", 1); ("emulated_drive", 1); ("controller_index", 1); ("ilba", 4); ("device_spec", 2);
   ("buffer_segment", 2); ("load_segment", 2); ("sector_count", 2); ("cylinders", 1); ("sectors", 1); ("heads", 1)].

(** A field of a structure of the caller at [ds:si]. *)
Definition at_dssi (l : layout) (regs : bregs) (f : string) : Z := ds regs * 16 + (si regs + offsetof l f).

(** What [disk_1348] reads of an ATA drive and its channel; no PCI device is -1. *)
Record ata_info := mk_ata { slave : Z; iobase1 : Z; iobase2 : Z; irq : Z; pci_bdf : Z }.

(** ** Status *)

Definition set_status (m : memory) (regs : bregs) (code : Z) : memory :=
  writeb m (if dl regs <? EXTSTART_HD then floppy_last_status else disk_last_status) code.

Definition disk_ret (m : memory) (regs : bregs) (linecode : Z) : outcome (memory * bregs) :=
  let code := u8 linecode in
  let m := set_status m regs code in
  Ok (m, if negb (code =? 0) then set_code_invalid regs linecode else set_code_success regs).

Definition disk_ret_unimplemented (m : memory) (regs : bregs) (linecode : Z) : outcome (memory * bregs) :=
  Ok (set_status m regs (u8 linecode), set_code_unimplemented regs linecode).

Definition disk_stub (m : memory) (regs : bregs) : outcome (memory * bregs) := disk_ret m regs DISK_RET_SUCCESS.

Section Int13.
Context (heap : gmap Z drive_s) (hardware : Z -> driver_t) (D : drives_s) (cdemu_drive diskette_param_table2 : Z).
Context (ata : Z -> ata_info) (int15 : memory -> bregs -> memory * bregs).
Implicit Types (m : memory) (regs : bregs) (drive : Z).

(** Cylinders, heads and sectors per track; those of the emulated drive are in the EBDA. *)
Definition fillLCHS m drive : outcome (Z * Z * Z) :=
  if drive =? cdemu_drive then
    Ok (readw m (cdemu m "lchs.cylinders"), readw m (cdemu m "lchs.heads"), readw m (cdemu m "lchs.spt"))
  else
    let! d := of_option (heap !! drive) in
    Ok (cylinders (lchs d), heads (lchs d), spt (lchs d)).

(** The translation of a logical address. *)
Definition chs_lba (nlh nlspt cylinder head sector : Z) : Z := u32 ((cylinder * nlh + head) * nlspt + sector - 1).

Definition basic_access m regs drive (command : Z) : outcome (memory * bregs) :=
  let cnt := al regs in
  let cylinder := Z.lor (ch regs) (Z.land (Z.shiftl (cl regs) 2) 0x300) in
  let sector := Z.land (cl regs) 0x3f in
  let head := dh regs in
  if (128 <? cnt) || (cnt =? 0) || (sector =? 0) then disk_ret m regs DISK_RET_EPARAM
  else
    let! '(nlc, nlh, nlspt) := fillLCHS m drive in
    if (nlc <=? cylinder) || (nlh <=? head) || (nlspt <? sector) then disk_ret m regs DISK_RET_EPARAM
    else
      let lba := chs_lba nlh nlspt cylinder head sector in
      let! '(status, dop, m) := send_disk_op heap hardware (mk_op lba (MAKE_FLATPTR (es regs) (bx regs)) drive cnt command) m in
      disk_ret m (set_al regs (count dop)) status.

Definition extended_access m regs drive (command : Z) : outcome (memory * bregs) :=
  let f := at_dssi int13ext_s regs in
  let lba := readq m (f "lba") in
  let! d := of_option (heap !! drive) in
  if sectors d <=? lba then disk_ret m regs DISK_RET_EPARAM
  else
    let buf := MAKE_FLATPTR (readw m (f "data.seg")) (readw m (f "data.offset")) in
    let! '(status, dop, m) := send_disk_op heap hardware (mk_op lba buf drive (readw m (f "count")) command) m in
    disk_ret (writew m (f "count") (count dop)) regs status.

(** The fields of [dop] a reset or ready check leaves unset are not read by a driver. *)
Definition disk_1300 m regs drive : outcome (memory * bregs) :=
  let! '(status, _, m) := send_disk_op heap hardware (mk_op 0 0 drive 0 CMD_RESET) m in disk_ret m regs status.

Definition disk_1301 m regs drive : outcome (memory * bregs) :=
  let v := readb m (if dl regs <? EXTSTART_HD then floppy_last_status else disk_last_status) in
  Ok (m, set_cf (set_ah regs v) (negb (v =? 0))).

Definition disk_1302 m regs drive := basic_access m regs drive CMD_READ.
Definition disk_1303 m regs drive := basic_access m regs drive CMD_WRITE.
Definition disk_1304 m regs drive := basic_access m regs drive CMD_VERIFY.

Definition disk_1305 m regs drive : outcome (memory * bregs) :=
  let! '(nlc, nlh, nlspt) := fillLCHS m drive in
  let num_sectors := al regs in
  let head := dh regs in
  if (nlh <=? head) || (num_sectors =? 0) || (nlspt <? num_sectors) then disk_ret m regs DISK_RET_EPARAM
  else
    let! '(status, _, m) := send_disk_op heap hardware
      (mk_op head (MAKE_FLATPTR (es regs) (bx regs)) drive num_sectors CMD_FORMAT) m in
    disk_ret m regs status.

(** The drive count [disk_1308] reports, with the emulated drive. *)
Definition drive_count m regs (cnt : Z) : Z :=
  if negb (readb m (cdemu m "active") =? 0) then
    let emudrive := readb m (cdemu m "emulated_extdrive") in
    let cnt := if Z.land (Z.lxor emudrive (dl regs)) 0x80 =? 0 then u8 (cnt + 1) else cnt in
    if (dl regs <? EXTSTART_HD) && (2 <? cnt) then 2 else cnt
  else cnt.

Definition disk_1308 m regs drive : outcome (memory * bregs) :=
  let! '(nlc, nlh, nlspt) := fillLCHS m drive in
  let nlc := u16 (nlc - 1) in
  let nlh := u16 (nlh - 1) in
  let! d := of_option (heap !! drive) in
  let finish regs (cnt nlc : Z) :=
    let cnt := drive_count m regs cnt in
    let regs := set_al regs 0 in
    let regs := set_ch regs (Z.land nlc 0xff) in
    let regs := set_cl regs (Z.lor (Z.land (Z.shiftr nlc 2) 0xc0) (Z.land nlspt 0x3f)) in
    let regs := set_dh regs nlh in
    let! '(m, regs) := disk_ret m regs DISK_RET_SUCCESS in
    Ok (m, set_dl regs cnt) in
  if dl regs <? EXTSTART_HD then
    let regs := set_bx regs (if drive =? cdemu_drive then readb m (cdemu m "media") * 2 else floppy_type d) in
    let regs := set_di (set_es regs SEG_BIOS) diskette_param_table2 in
    finish regs (floppycount D) nlc
  else if dl regs <? EXTSTART_CD then finish regs (readb m hdcount) (u16 (nlc - 1))
  else disk_ret m regs DISK_RET_EPARAM.

Definition disk_1309 m regs drive := disk_stub m regs.
Definition disk_130c m regs drive := disk_stub m regs.
Definition disk_130d m regs drive := disk_stub m regs.
Definition disk_1310 m regs drive : outcome (memory * bregs) :=
  let! '(status, _, m) := send_disk_op heap hardware (mk_op 0 0 drive 0 CMD_ISREADY) m in disk_ret m regs status.
Definition disk_1311 m regs drive := disk_stub m regs.
Definition disk_1314 m regs drive := disk_stub m regs.

Definition disk_1315 m regs drive : outcome (memory * bregs) :=
  let! '(m, regs) := disk_ret m regs DISK_RET_SUCCESS in
  if (dl regs <? EXTSTART_HD) || (EXTSTART_CD <=? dl regs) then Ok (m, set_ah regs 1)
  else
    let! '(nlc, nlh, nlspt) := fillLCHS m drive in
    let lba := u32 ((nlc - 1) * nlh * nlspt) in
    let regs := set_dx (set_cx regs (Z.shiftr lba 16)) (Z.land lba 0xffff) in
    Ok (m, set_ah regs 3).

Definition disk_1316 m regs drive : outcome (memory * bregs) :=
  if EXTSTART_HD <=? dl regs then disk_ret m regs DISK_RET_EPARAM else disk_ret m regs DISK_RET_ECHANGED.

Definition disk_1341 m regs drive : outcome (memory * bregs) :=
  let! '(m, regs) := disk_ret m (set_cx (set_bx regs 0xaa55) 0x0007) DISK_RET_SUCCESS in
  Ok (m, set_ah regs 0x30).

Definition disk_1342 m regs drive := extended_access m regs drive CMD_READ.
Definition disk_1343 m regs drive := extended_access m regs drive CMD_WRITE.
Definition disk_1344 m regs drive := extended_access m regs drive CMD_VERIFY.

(** [cdrom_locks[cdid]] of the drive in [dl]. *)
Definition lock_cell m regs : Z := ebda m "cdrom_locks" + (dl regs - EXTSTART_CD).

Definition disk_134500 m regs drive : outcome (memory * bregs) :=
  let locks := readb m (lock_cell m regs) in
  if locks =? 0xff then disk_ret m (set_al regs 1) DISK_RET_ETOOMANYLOCKS
  else disk_ret (writeb m (lock_cell m regs) (locks + 1)) (set_al regs 1) DISK_RET_SUCCESS.

Definition disk_134501 m regs drive : outcome (memory * bregs) :=
  let locks := readb m (lock_cell m regs) in
  if locks =? 0x00 then disk_ret m (set_al regs 0) DISK_RET_ENOTLOCKED
  else
    let locks := locks - 1 in
    disk_ret (writeb m (lock_cell m regs) locks) (set_al regs (if locks =? 0 then 0 else 1)) DISK_RET_SUCCESS.

Definition disk_134502 m regs drive : outcome (memory * bregs) :=
  let locks := readb m (lock_cell m regs) in
  disk_ret m (set_al regs (if locks =? 0 then 0 else 1)) DISK_RET_SUCCESS.

Definition disk_1345XX m regs drive := disk_ret_unimplemented m regs DISK_RET_EPARAM.

Definition disk_1345 m regs drive : outcome (memory * bregs) :=
  if dl regs <? EXTSTART_CD then disk_ret m regs DISK_RET_SUCCESS
  else if al regs =? 0x00 then disk_134500 m regs drive
  else if al regs =? 0x01 then disk_134501 m regs drive
  else if al regs =? 0x02 then disk_134502 m regs drive
  else disk_1345XX m regs drive.

Definition disk_1346 m regs drive : outcome (memory * bregs) :=
  if dl regs <? EXTSTART_CD then disk_ret m regs DISK_RET_ENOTREMOVABLE
  else
    let locks := readb m (lock_cell m regs) in
    if negb (locks =? 0) then disk_ret m regs DISK_RET_ELOCKED
    else
      let br := set_dl (set_ah (mk_bregs 0 0 0 0 0 0 0 0 0 0) 0x52) (dl regs) in
      let '(m, br) := int15 m br in
      if negb (ah br =? 0) || cf br then disk_ret m regs DISK_RET_ELOCKED
      else disk_ret m regs DISK_RET_SUCCESS.

Definition disk_1347 m regs drive := extended_access m regs drive CMD_SEEK.

(** ** Drive parameters *)

(** The part every caller gets. *)
Definition edd1 m regs (d : drive_s) : memory :=
  let f := at_dssi int13dpt_s regs in
  let '(mk_chs nph npc npspt) := pchs d in
  let lba := sectors d in
  let m := writew m (f "size") 26 in
  let m :=
    if type d =? DTYPE_ATAPI then
      let m := writew m (f "infos") 0x74 in
      let m := writel m (f "cylinders") 0xffffffff in
      let m := writel m (f "heads") 0xffffffff in
      let m := writel m (f "spt") 0xffffffff in
      writeq m (f "sector_count") (u64 (-1))
    else
      let m :=
        if u64 (npspt * nph * 0x3fff) <? lba
        then writel (writew m (f "infos") 0x00) (f "cylinders") 0x3fff
        else writel (writew m (f "infos") 0x02) (f "cylinders") npc in
      let m := writel m (f "heads") nph in
      let m := writel m (f "spt") npspt in
      writeq m (f "sector_count") lba in
  writew m (f "blksize") (blksize d).

Definition ATA_CB_DC : Z := 2.
Definition ATA_CB_DH_DEV0 : Z := 0xa0.
Definition ATA_CB_DH_DEV1 : Z := 0xb0.
Definition ATA_CB_DH_LBA : Z := 0x40.

Definition dpte_options (d : drive_s) : Z :=
  let options :=
    if type d =? DTYPE_ATA then
      if negb (translation d =? TRANSLATION_NONE) then
        Z.lor (Z.shiftl 1 3)
          (if translation d =? TRANSLATION_LBA then Z.shiftl 1 9
           else if translation d =? TRANSLATION_RECHS then Z.shiftl 3 9 else 0)
      else 0
    else Z.lor (Z.shiftl 1 5) (Z.shiftl 1 6) in
  Z.lor options (Z.shiftl 1 4).

(** The pointer to the device parameter table, and the table in the EBDA. *)
Definition edd2 m regs (d : drive_s) (a : ata_info) : memory :=
  let f := at_dssi int13dpt_s regs in
  let ebda_seg := get_ebda_seg m in
  let dpte := offsetof extended_bios_data_area_s "dpte" in
  let g x := ebda_seg * 16 + (dpte + offsetof dpte_s x) in
  let m := writew m (f "size") 30 in
  let m := writew m (f "dpte_segment") ebda_seg in
  let m := writew m (f "dpte_offset") dpte in
  let m := writew m (g "iobase1") (iobase1 a) in
  let m := writew m (g "iobase2") (iobase2 a + ATA_CB_DC) in
  let m := writeb m (g "prefix") (Z.lor (if negb (slave a =? 0) then ATA_CB_DH_DEV1 else ATA_CB_DH_DEV0) ATA_CB_DH_LBA) in
  let m := writeb m (g "unused") 0xcb in
  let m := writeb m (g "irq") (irq a) in
  let m := writeb m (g "blkcount") 1 in
  let m := writeb m (g "dma") 0 in
  let m := writeb m (g "pio") 0 in
  let m := writew m (g "options") (dpte_options d) in
  let m := writew m (g "reserved") 0 in
  let m := writeb m (g "revision") 0x11 in
  writeb m (g "checksum") (- checksum m (ebda_seg * 16 + dpte) 15).

Fixpoint write_bytes m (a : Z) (bs : list Z) : memory :=
  match bs with
  | [] => m
  | b :: bs => write_bytes (writeb m a b) (a + 1) bs
  end.

(** The device path, with its own checksum; the strings are 'PCI', 'ISA' and 'ATA'. *)
Definition edd3 m regs (a : ata_info) : memory :=
  let f := at_dssi int13dpt_s regs in
  let m := writew m (f "key") 0xbedd in
  let m := writeb m (f "dpi_length") 36 in
  let m := writeb m (f "reserved1") 0 in
  let m := writew m (f "reserved2") 0 in
  let bdf := pci_bdf a in
  let m :=
    if negb (bdf =? -1) then
      let m := write_bytes m (f "host_bus") [80; 67; 73; 0] in
      let path := Z.lor (Z.lor (pci_bdf_to_bus bdf) (Z.shiftl (pci_bdf_to_dev bdf) 8)) (Z.shiftl (pci_bdf_to_fn bdf) 16) in
      writeq m (f "iface_path") path
    else
      let m := write_bytes m (f "host_bus") [73; 83; 65; 0] in
      writeq m (f "iface_path") (iobase1 a) in
  let m := write_bytes m (f "iface_type") [65; 84; 65; 0; 0; 0; 0; 0] in
  let m := writeq m (f "device_path") (slave a) in
  writeb m (f "checksum") (- checksum m (ds regs * 16 + (si regs + 30)) 35).

Definition disk_1348 m regs drive : outcome (memory * bregs) :=
  let size := readw m (at_dssi int13dpt_s regs "size") in
  if size <? 26 then disk_ret m regs DISK_RET_EPARAM
  else
    let! d := of_option (heap !! drive) in
    let m := edd1 m regs d in
    if (size <? 30) || (negb (type d =? DTYPE_ATA) && negb (type d =? DTYPE_ATAPI)) then disk_ret m regs DISK_RET_SUCCESS
    else
      let m := edd2 m regs d (ata drive) in
      if size <? 66 then disk_ret m regs DISK_RET_SUCCESS
      else disk_ret (edd3 m regs (ata drive)) regs DISK_RET_SUCCESS.

Definition disk_1349 m regs drive : outcome (memory * bregs) :=
  if dl regs <? EXTSTART_CD then disk_ret m regs DISK_RET_SUCCESS
  else Ok (m, set_ah (set_invalid regs) DISK_RET_ECHANGED).

Definition disk_134e01 m regs drive := disk_ret m regs DISK_RET_SUCCESS.
Definition disk_134e03 m regs drive := disk_ret m regs DISK_RET_SUCCESS.
Definition disk_134e04 m regs drive := disk_ret m regs DISK_RET_SUCCESS.
Definition disk_134e06 m regs drive := disk_ret m regs DISK_RET_SUCCESS.
Definition disk_134eXX m regs drive := disk_ret m regs DISK_RET_EPARAM.

Definition disk_134e m regs drive : outcome (memory * bregs) :=
  let f := al regs in
  if f =? 0x01 then disk_134e01 m regs drive
  else if f =? 0x03 then disk_134e03 m regs drive
  else if f =? 0x04 then disk_134e04 m regs drive
  else if f =? 0x06 then disk_134e06 m regs drive
  else disk_134eXX m regs drive.

Definition disk_13XX m regs drive := disk_ret_unimplemented m regs DISK_RET_EPARAM.

(** ** Dispatch *)

Definition disk_functions : list (Z * (memory -> bregs -> Z -> outcome (memory * bregs))) :=
  [(0x00, disk_1300); (0x01, disk_1301); (0x02, disk_1302); (0x03, disk_1303); (0x04, disk_1304);
   (0x05, disk_1305); (0x08, disk_1308); (0x09, disk_1309); (0x0c, disk_130c); (0x0d, disk_130d);
   (0x10, disk_1310); (0x11, disk_1311); (0x14, disk_1314); (0x15, disk_1315); (0x16, disk_1316);
   (0x41, disk_1341); (0x42, disk_1342); (0x43, disk_1343); (0x44, disk_1344); (0x45, disk_1345);
   (0x46, disk_1346); (0x47, disk_1347); (0x48, disk_1348); (0x49, disk_1349); (0x4e, disk_134e)].

(** The case of a switch, or the default. *)
Fixpoint switch {A : Type} (cases : list (Z * A)) (default : A) (v : Z) : A :=
  match cases with
  | [] => default
  | (c, a) :: cases => if v =? c then a else switch cases default v
  end.

Definition disk_13 m regs drive : outcome (memory * bregs) :=
  let m := writeb m disk_interrupt_flag 0 in
  switch disk_functions disk_13XX (ah regs) m regs drive.

Definition floppy_functions : list Z := [0x00; 0x01; 0x02; 0x03; 0x04; 0x05; 0x08; 0x15; 0x16].

Definition floppy_13 m regs drive : outcome (memory * bregs) :=
  if bool_decide (ah regs ∈ floppy_functions) then disk_13 m regs drive else disk_13XX m regs drive.

Definition handle_legacy_disk m regs (extdrive : Z) : outcome (memory * bregs) :=
  let fail := disk_ret m regs DISK_RET_EPARAM in
  if extdrive <? EXTSTART_HD then
    let! drive := getDrive D EXTTYPE_FLOPPY extdrive in
    if drive =? 0 then fail else floppy_13 m regs drive
  else
    let! drive := if EXTSTART_CD <=? extdrive then getDrive D EXTTYPE_CD (extdrive - EXTSTART_CD)
                  else getDrive D EXTTYPE_HD (extdrive - EXTSTART_HD) in
    if drive =? 0 then fail else disk_13 m regs drive.

Definition handle_40 m regs : outcome (memory * bregs) := handle_legacy_disk m regs (dl regs).

(** [cdemu_134b]: report and, with [al] zero, end the emulation. *)
Definition cdemu_134b m regs : outcome (memory * bregs) :=
  let f := at_dssi eltorito_s regs in
  let e0 := m in
  let c x := cdemu e0 x in
  let m := writeb m (f "size") 0x13 in
  let m := writeb m (f "media") (readb m (c "media")) in
  let m := writeb m (f "emulated_drive") (readb m (c "emulated_extdrive")) in
  let drive := readl m (c "emulated_drive_gf") in
  let! id := if drive =? 0 then Ok 0 else let! d := of_option (heap !! drive) in Ok (u8 (cntl_id d)) in
  let m := writeb m (f "controller_index") (id / 2) in
  let m := writew m (f "device_spec") (id mod 2) in
  let m := writel m (f "ilba") (readl m (c "ilba")) in
  let m := writew m (f "buffer_segment") (readw m (c "buffer_segment")) in
  let m := writew m (f "load_segment") (readw m (c "load_segment")) in
  let m := writew m (f "sector_count") (readw m (c "sector_count")) in
  let m := writeb m (f "cylinders") (readw m (c "lchs.cylinders")) in
  let m := writeb m (f "sectors") (readw m (c "lchs.spt")) in
  let m := writeb m (f "heads") (readw m (c "lchs.heads")) in
  let m := if al regs =? 0x00 then writeb m (c "active") 0x00 else m in
  disk_ret m regs DISK_RET_SUCCESS.

Definition handle_13 m regs : outcome (memory * bregs) :=
  let extdrive := dl regs in
  if ah regs =? 0x4b then cdemu_134b m regs
  else if negb (readb m (cdemu m "active") =? 0) then
    let emudrive := readb m (cdemu m "emulated_extdrive") in
    if extdrive =? emudrive then
      if 0x16 <? ah regs then disk_13XX m regs cdemu_drive else disk_13 m regs cdemu_drive
    else if (extdrive <? EXTSTART_CD) && (Z.land (Z.lxor emudrive extdrive) 0x80 =? 0) then
      handle_legacy_disk m regs (u8 (extdrive - 1))
    else handle_legacy_disk m regs extdrive
  else handle_legacy_disk m regs extdrive.

(** [eoi_pic2] acknowledges the interrupt at the controller, outside memory. *)
Definition handle_76 m : memory := writeb m disk_interrupt_flag 0xff.
End Int13.

(** ** Addresses *)

(** A cylinder, head and sector inside the geometry. *)
Definition in_geometry (nlc nlh nlspt c h k : Z) : Prop := 0 <= c < nlc /\ 0 <= h < nlh /\ 1 <= k <= nlspt.

Lemma chs_lba_range nlc nlh nlspt c h k :
  in_geometry nlc nlh nlspt c h k -> nlc * nlh * nlspt <= 2 ^ 32 ->
  chs_lba nlh nlspt c h k = (c * nlh + h) * nlspt + (k - 1) /\ 0 <= chs_lba nlh nlspt c h k < nlc * nlh * nlspt.
Proof.
  intros (Hc & Hh & Hk) Hcap. unfold chs_lba.
  assert (0 <= c * nlh + h < nlc * nlh) as Hch by nia.
  set (t := c * nlh + h) in *. set (T := nlc * nlh) in *.
  assert (0 <= t * nlspt + k - 1 < T * nlspt) by nia.
  rewrite wrap_small by (unfold in_u; lia). lia.
Qed.

(** Every block below the capacity has exactly one cylinder, head and sector. *)
Theorem chs_lba_bijective nlc nlh nlspt :
  0 < nlh -> 0 < nlspt -> nlc * nlh * nlspt <= 2 ^ 32 ->
  (forall c h k c' h' k', in_geometry nlc nlh nlspt c h k -> in_geometry nlc nlh nlspt c' h' k' ->
     chs_lba nlh nlspt c h k = chs_lba nlh nlspt c' h' k' -> c = c' /\ h = h' /\ k = k') /\
  (forall lba, 0 <= lba < nlc * nlh * nlspt ->
     exists c h k, in_geometry nlc nlh nlspt c h k /\ chs_lba nlh nlspt c h k = lba).
Proof.
  intros Hh Hk Hcap. split.
  - intros c h k c' h' k' H1 H2 E.
    destruct (chs_lba_range _ _ _ _ _ _ H1 Hcap) as [E1 _], (chs_lba_range _ _ _ _ _ _ H2 Hcap) as [E2 _].
    rewrite E1, E2 in E. destruct H1 as (Hc1 & Hh1 & Hk1), H2 as (Hc2 & Hh2 & Hk2).
    assert (c * nlh + h = c' * nlh + h' /\ k - 1 = k' - 1) as [E3 E4].
    { rewrite !(Z.mul_comm _ nlspt) in E. apply (Z.div_mod_unique nlspt); lia. }
    rewrite !(Z.mul_comm _ nlh) in E3. apply (Z.div_mod_unique nlh) in E3; lia.
  - intros lba Hl. exists (lba / nlspt / nlh), ((lba / nlspt) mod nlh), (lba mod nlspt + 1).
    pose proof (Z.mod_pos_bound lba nlspt Hk). pose proof (Z.mod_pos_bound (lba / nlspt) nlh Hh).
    assert (0 <= lba / nlspt < nlc * nlh) as Hq.
    { split; [apply Z.div_pos; lia|]. apply Z.div_lt_upper_bound; lia. }
    assert (in_geometry nlc nlh nlspt (lba / nlspt / nlh) ((lba / nlspt) mod nlh) (lba mod nlspt + 1)) as Hg.
    { split; [|lia]. split; [apply Z.div_pos; lia|]. apply Z.div_lt_upper_bound; lia. }
    split; [done|]. rewrite (proj1 (chs_lba_range _ _ _ _ _ _ Hg Hcap)).
    pose proof (Z.div_mod (lba / nlspt) nlh). pose proof (Z.div_mod lba nlspt). nia.
Qed.

Lemma chs_lba_bijective_witness :
  (forall c h k c' h' k', in_geometry 1024 255 63 c h k -> in_geometry 1024 255 63 c' h' k' ->
     chs_lba 255 63 c h k = chs_lba 255 63 c' h' k' -> c = c' /\ h = h' /\ k = k') /\
  (forall lba, 0 <= lba < 1024 * 255 * 63 -> exists c h k, in_geometry 1024 255 63 c h k /\ chs_lba 255 63 c h k = lba).
Proof. apply chs_lba_bijective; lia. Defined.

(** ** Access *)

(** The fields [basic_access] takes from [cx] are in range. *)
Lemma cylinder_range r : 0 <= Z.lor (ch r) (Z.land (Z.shiftl (cl r) 2) 0x300).
Proof.
  apply Z.lor_nonneg. split; [apply (wrap_range 8 ltac:(lia))|]. apply Z.land_nonneg. right. lia.
Qed.

Lemma sector_range r : 0 <= Z.land (cl r) 0x3f < 64.
Proof.
  change 0x3f with (Z.ones 6). rewrite Z.land_ones by lia. apply Z.mod_pos_bound. lia.
Qed.

Definition hardware_type (t : Z) : Prop := t = DTYPE_FLOPPY \/ t = DTYPE_ATA \/ t = DTYPE_ATAPI \/ t = DTYPE_USB.

Lemma send_hardware heap hardware op m d :
  heap !! drive_g op = Some d -> hardware_type (type d) ->
  send_disk_op heap hardware op m =
  let! '(status, dop, m) := hardware (type d) op m in Ok (status, set_count op (count dop), m).
Proof.
  intros Hd Ht. unfold send_disk_op, process_op. rewrite Hd. cbn [of_option obind].
  assert ((type d =? DTYPE_FLOPPY) || (type d =? DTYPE_ATA) || (type d =? DTYPE_ATAPI) || (type d =? DTYPE_USB) = true) as ->.
  { rewrite !orb_true_iff, !Z.eqb_eq. unfold hardware_type in Ht. tauto. }
  done.
Qed.

(** A request of [basic_access] as it reaches the driver. *)
Definition basic_request (p command : Z) regs (sectors : Z) (op : disk_op_s) : Prop :=
  0 <= op_lba op < sectors /\ count op = al regs /\ 1 <= count op <= 128 /\
  buf_fl op = MAKE_FLATPTR (es regs) (bx regs) /\ drive_g op = p /\ Block.command op = command.

(** C12.  On a drive that is not emulated, and whose logical geometry names no more sectors than
    it has ([Block.translation_fits]), a read, write or verify by cylinder, head and
    sector, whatever the registers hold, asks the driver of the drive for 1 to 128 blocks, as many as the caller wants, from
    a first block that the drive has on, for the caller's buffer, or for nothing: it
    returns even with a driver that faults on any other request.  Where the last block
    is, the code does not check: [basic_access_past_end]. *)
Theorem basic_access_in_range heap hardware cdemu_drive m regs p d command :
  heap !! p = Some d -> p <> cdemu_drive -> hardware_type (type d) ->
  capacity (lchs d) <= sectors d -> capacity (lchs d) <= 2 ^ 32 ->
  (forall op m, basic_request p command regs (sectors d) op -> exists r, hardware (type d) op m = Ok r) ->
  exists m' regs', basic_access heap hardware cdemu_drive m regs p command = Ok (m', regs').
Proof.
  intros Hp Hcd Ht Hcap Hcap32 Hdrv. unfold basic_access. case_test; [by eexists _, _|]. bool_to_prop.
  unfold fillLCHS. rewrite (proj2 (Z.eqb_neq _ _)), Hp by done. cbn [of_option obind].
  case_test; [by eexists _, _|]. bool_to_prop.
  rewrite (send_hardware _ _ _ _ d) by done.
  pose proof (cylinder_range regs). pose proof (sector_range regs).
  pose proof (wrap_range 8 ltac:(lia) (edx regs / 256)) as Hdh. fold (hi8 (edx regs)) in Hdh. fold (dh regs) in Hdh.
  destruct (chs_lba_range (cylinders (lchs d)) (heads (lchs d)) (spt (lchs d))
    (Z.lor (ch regs) (Z.land (Z.shiftl (cl regs) 2) 0x300)) (dh regs) (Z.land (cl regs) 0x3f)) as [_ Hr].
  { unfold in_geometry, in_u in *. lia. } { done. }
  match goal with |- context [hardware _ ?op m] => destruct (Hdrv op m) as [[[st dop] m'] ->] end;
    [|by eexists _, _].
  unfold basic_request. cbn [op_lba count buf_fl drive_g Block.command]. unfold capacity in *.
  pose proof (wrap_range 8 ltac:(lia) (eax regs)) as Hal. fold (lo8 (eax regs)) in Hal. fold (al regs) in Hal.
  unfold in_u in *. split_and!; lia || done.
Qed.

(** A drive of 8 million sectors behind USB, with the geometry [setup_translation] gives. *)
Definition demo_drive : drive_s := setup_translation (fun _ => 0) demo_disk.
Definition demo_drives : gmap Z drive_s := {[0x100 := demo_drive]}.
(** A driver that faults where a request starts outside the drive or is too long. *)
Definition strict_driver : Z -> driver_t := fun _ op m =>
  if (0 <=? op_lba op) && (op_lba op <? 8000000) && (count op <=? 128) then Ok (0, op, m) else Fault.

Lemma basic_access_in_range_witness :
  exists m' regs', basic_access demo_drives strict_driver 0x200 (fun _ => 0)
    (mk_bregs 0 0 0 0 0 0 0x80 0xffc5 1 0) 0x100 CMD_READ = Ok (m', regs').
Proof.
  apply (basic_access_in_range demo_drives strict_driver 0x200 _ _ 0x100 demo_drive).
  - done.
  - done.
  - unfold hardware_type. auto.
  - vm_compute. congruence.
  - vm_compute. congruence.
  - intros op m (Hl & _ & Hc & _). change (sectors demo_drive) with 8000000 in Hl. unfold strict_driver.
    rewrite (proj2 (Z.leb_le _ _)), (proj2 (Z.ltb_lt _ _)), (proj2 (Z.leb_le (count op) _)) by lia. by eexists.
Defined.

(** A drive whose last block is the last of its geometry; a driver that faults unless the
    whole request is on the drive. *)
Definition small_drive : drive_s :=
  setup_translation (fun _ => 0) (mk_drive DTYPE_USB 0 (mk_chs 0 0 0) (10 * 16 * 63) 1 0 512 (mk_chs 16 10 63)).
Definition careful_driver : Z -> driver_t := fun _ op m =>
  if op_lba op + count op <=? 10 * 16 * 63 then Ok (0, op, m) else Fault.

(** From the last sector of such a drive on, 128 sectors are asked for, 127 more than
    there are. *)
Theorem basic_access_past_end :
  sectors small_drive = 10 * 16 * 63 /\ capacity (lchs small_drive) = 10 * 16 * 63 /\
  basic_access {[0x100 := small_drive]} careful_driver 0x200 (fun _ => 0)
    (mk_bregs 0 0x1000 0 0 0 0 0x0f80 0x093f 0x0280 0) 0x100 CMD_READ = Fault.
Proof. by vm_compute. Qed.

(** ** Geometry reports *)

(** The cylinder and sector fields of [cx] and their packing undo each other. *)
Definition unpack_ok (n k : Z) : bool :=
  let c := u8 (Z.land n 0xff) in
  let l := u8 (Z.lor (Z.land (Z.shiftr n 2) 0xc0) (Z.land k 0x3f)) in
  (Z.lor c (Z.land (Z.shiftl l 2) 0x300) =? n) && (Z.land l 0x3f =? k).

Lemma unpack_all : forallb (fun n => forallb (unpack_ok n) (seqZ 1 63)) (seqZ 0 1024) = true.
Proof. by vm_compute. Qed.

Lemma unpack_chs n k :
  0 <= n < 1024 -> 1 <= k <= 63 ->
  let c := u8 (Z.land n 0xff) in
  let l := u8 (Z.lor (Z.land (Z.shiftr n 2) 0xc0) (Z.land k 0x3f)) in
  Z.lor c (Z.land (Z.shiftl l 2) 0x300) = n /\ Z.land l 0x3f = k.
Proof.
  intros Hn Hk. pose proof unpack_all as H. rewrite forallb_forall in H.
  specialize (H n ltac:(apply list_elem_of_In, elem_of_seqZ; lia)). rewrite forallb_forall in H.
  specialize (H k ltac:(apply list_elem_of_In, elem_of_seqZ; lia)).
  unfold unpack_ok in H. apply andb_true_iff in H as [H1%Z.eqb_eq H2%Z.eqb_eq]. done.
Qed.

(** The last address the geometry call reports is a valid address, and its block is the
    last one of the sector count the size call reports. *)
Theorem disk_geometry_consistent heap D cdemu_drive dpt m regs p d c h k :
  heap !! p = Some d -> p <> cdemu_drive -> EXTSTART_HD <= dl regs < EXTSTART_CD ->
  lchs d = mk_chs h c k -> 2 <= c <= 1024 -> 1 <= h <= 256 -> 1 <= k <= 63 ->
  exists m1 r1 m2 r2,
    disk_1308 heap D cdemu_drive dpt m regs p = Ok (m1, r1) /\
    disk_1315 heap cdemu_drive m regs p = Ok (m2, r2) /\
    let cylinder := Z.lor (ch r1) (Z.land (Z.shiftl (cl r1) 2) 0x300) in
    let sector := Z.land (cl r1) 0x3f in
    in_geometry c h k cylinder (dh r1) sector /\
    chs_lba h k cylinder (dh r1) sector + 1 = cx r2 * 65536 + dx r2.
Proof.
  intros Hp Hcd Hdl Hl Hc Hh Hk. unfold EXTSTART_HD, EXTSTART_CD in *.
  unfold disk_1308, disk_1315, fillLCHS, disk_ret, EXTSTART_HD, EXTSTART_CD.
  rewrite (proj2 (Z.eqb_neq _ _)), Hp by done. cbn [of_option obind]. rewrite Hl. cbn [cylinders heads spt].
  rewrite (proj2 (Z.ltb_ge (dl regs) 128)), (proj2 (Z.ltb_lt (dl regs) 224)) by lia. cbn [obind].
  cbn [orb]. change (negb (u8 DISK_RET_SUCCESS =? 0)) with false. cbn iota. cbn [obind].
  change (dl (set_code_success regs)) with (dl regs).
  rewrite (proj2 (Z.ltb_ge (dl regs) 128)), (proj2 (Z.leb_gt 224 (dl regs))) by lia. cbn [orb]. cbn iota.
  eexists _, _, _, _. split; [reflexivity|]. split; [reflexivity|].
  rewrite (wrap_small 16 (c - 1)), (wrap_small 16 (c - 1 - 1)) by (unfold in_u; lia).
  rewrite (wrap_small 16 (h - 1)) by (unfold in_u; lia).
  reg_simpl. destruct (unpack_chs (c - 1 - 1) k ltac:(lia) Hk) as [E1 E2]. cbv zeta in E1, E2. rewrite E1, E2.
  rewrite (wrap_small 8 (h - 1)) by (unfold in_u; lia).
  assert (in_geometry c h k (c - 1 - 1) (h - 1) k) as Hg by (unfold in_geometry; lia).
  split; [done|]. assert (0 <= c * h <= 1024 * 256) by nia. assert (c * h * k <= 1024 * 256 * 63) as Hcap by nia.
  rewrite (proj1 (chs_lba_range _ _ _ _ _ _ Hg ltac:(clear -Hcap; lia))).
  assert (0 <= (c - 1) * h <= 1024 * 256) by nia. assert (0 <= (c - 1) * h * k < 2 ^ 32) as Hlba by nia. rewrite (wrap_small 32) by done.
  change 65535 with (Z.ones 16). rewrite Z.land_ones, Z.shiftr_div_pow2 by lia. unfold wrap.
  rewrite Z.mod_mod by lia. rewrite (Z.mod_small (_ / _)) by (split; [apply Z.div_pos; lia|apply Z.div_lt_upper_bound; lia]).
  pose proof (Z.div_mod ((c - 1) * h * k) (2 ^ 16)). lia.
Qed.

Lemma disk_geometry_consistent_witness :
  exists m1 r1 m2 r2,
    disk_1308 demo_drives drive_setup 0x200 0 (fun _ => 0) (mk_bregs 0 0 0 0 0 0 0x80 0 0x800 0) 0x100 = Ok (m1, r1) /\
    disk_1315 demo_drives 0x200 (fun _ => 0) (mk_bregs 0 0 0 0 0 0 0x80 0 0x800 0) 0x100 = Ok (m2, r2) /\
    let cylinder := Z.lor (ch r1) (Z.land (Z.shiftl (cl r1) 2) 0x300) in
    let sector := Z.land (cl r1) 0x3f in
    in_geometry 992 128 63 cylinder (dh r1) sector /\
    chs_lba 128 63 cylinder (dh r1) sector + 1 = cx r2 * 65536 + dx r2.
Proof.
  apply (disk_geometry_consistent demo_drives drive_setup 0x200 0 _ _ 0x100 demo_drive); done || lia || by vm_compute.
Defined.

(** With a single cylinder the count of cylinders wraps: the call reports cylinder 0x3ff. *)
Theorem disk_1308_one_cylinder :
  match disk_1308 {[0x100 := mk_drive DTYPE_USB 0 (mk_chs 16 1 63) 1008 0 0 512 (mk_chs 16 1 63)]} drive_setup 0x200 0
    (fun _ => 0) (mk_bregs 0 0 0 0 0 0 0x80 0 0x800 0) 0x100 with
  | Ok (_, r) => Z.lor (ch r) (Z.land (Z.shiftl (cl r) 2) 0x300) = 0x3ff /\ cf r = false
  | _ => False
  end.
Proof. by vm_compute. Qed.

(** ** Status and errors *)

(** What a call reports in [ah] and the carry flag. *)
Definition reports (regs : bregs) (code : Z) : Prop := ah regs = code /\ cf regs = negb (code =? 0).

Lemma disk_ret_reports m regs code :
  exists m' regs', disk_ret m regs code = Ok (m', regs') /\ reports regs' (u8 code) /\
    edx regs' = edx regs /\ ecx regs' = ecx regs /\ al regs' = al regs /\
    m' = set_status m regs (u8 code).
Proof.
  unfold disk_ret. eexists _, _. split; [done|]. unfold reports. destruct (Z.eqb_spec (u8 code) 0) as [E|E]; simpl negb; cbn iota.
  - rewrite E. unfold set_code_success. rewrite cf_set. reg_simpl. done.
  - unfold set_code_invalid, set_code_invalid_silent. rewrite cf_set. reg_simpl. rewrite !wrap_idem by lia. done.
Qed.

Lemma status_read m regs code :
  readb (set_status m regs code) (if dl regs <? EXTSTART_HD then floppy_last_status else disk_last_status) = u8 code.
Proof. unfold readb, set_status. apply writeb_same. Qed.

Lemma switch_default {A : Type} (cases : list (Z * A)) (default : A) v :
  v ∉ cases.*1 -> switch cases default v = default.
Proof.
  induction cases as [|[c a] cases IH]; simpl; [done|]. rewrite not_elem_of_cons. intros [H1 H2].
  rewrite (proj2 (Z.eqb_neq _ _)) by done. by apply IH.
Qed.

(** A failed call: code 1, carry set, and the status call for the same drive repeats it. *)
Definition fails_with (code : Z) (r : outcome (memory * bregs)) : Prop :=
  exists m' regs', r = Ok (m', regs') /\ reports regs' code /\
  forall p, exists regs'', disk_1301 m' regs' p = Ok (m', regs'') /\ reports regs'' code.

Lemma status_repeats m regs regs' code p :
  in_u 8 code -> edx regs' = edx regs ->
  exists regs'', disk_1301 (set_status m regs code) regs' p = Ok (set_status m regs code, regs'') /\ reports regs'' code.
Proof.
  intros Hc Hd. unfold disk_1301. assert (dl regs' = dl regs) as -> by (unfold dl; by rewrite Hd).
  rewrite status_read, (wrap_small 8) by done. eexists. split; [done|]. unfold reports. rewrite cf_set. reg_simpl.
  by rewrite wrap_small.
Qed.

Lemma disk_ret_fails m regs code : in_u 8 code -> fails_with code (disk_ret m regs code).
Proof.
  intros Hc. destruct (disk_ret_reports m regs code) as (m' & r' & E & Hr & Hd & _ & _ & ->).
  rewrite (wrap_small 8) in * by done. eexists _, _. split; [exact E|]. split; [done|]. intros p. by apply status_repeats.
Qed.

Lemma disk_ret_unimplemented_fails m regs : fails_with 1 (disk_ret_unimplemented m regs DISK_RET_EPARAM).
Proof.
  eexists _, _. split; [done|]. split.
  - unfold reports, set_code_unimplemented, set_code_invalid_silent. rewrite cf_set. reg_simpl. done.
  - intros p. by apply status_repeats.
Qed.

(** The drive of a BIOS drive number. *)
Definition drive_of (D : drives_s) (extdrive : Z) : outcome Z :=
  if extdrive <? EXTSTART_HD then getDrive D EXTTYPE_FLOPPY extdrive
  else if EXTSTART_CD <=? extdrive then getDrive D EXTTYPE_CD (extdrive - EXTSTART_CD)
  else getDrive D EXTTYPE_HD (extdrive - EXTSTART_HD).

(** C35.  Errors are values: a drive number with no drive, a function number with no function,
    and an address outside the geometry all give code 1 with the carry flag, without a
    call of a driver, and the status call for the same drive then repeats the code. *)
Theorem int13_errors heap hardware D cdemu_drive dpt ata int15 m regs :
  (drive_of D (dl regs) = Ok 0 ->
   fails_with 1 (handle_40 heap hardware D cdemu_drive dpt ata int15 m regs)) /\
  (forall p, p <> 0 -> drive_of D (dl regs) = Ok p ->
   ah regs ∉ (disk_functions heap hardware D cdemu_drive dpt ata int15).*1 ->
   fails_with 1 (handle_40 heap hardware D cdemu_drive dpt ata int15 m regs)) /\
  (forall p d command, heap !! p = Some d -> p <> cdemu_drive ->
   ~ in_geometry (cylinders (lchs d)) (heads (lchs d)) (spt (lchs d))
     (Z.lor (ch regs) (Z.land (Z.shiftl (cl regs) 2) 0x300)) (dh regs) (Z.land (cl regs) 0x3f) ->
   fails_with 1 (basic_access heap hardware cdemu_drive m regs p command)).
Proof.
  split_and!.
  - intros Hd. unfold handle_40, handle_legacy_disk. unfold drive_of in Hd.
    destruct (dl regs <? EXTSTART_HD); [|destruct (EXTSTART_CD <=? dl regs)]; rewrite Hd; by apply disk_ret_fails.
  - intros p Hp Hd Hf. unfold handle_40, handle_legacy_disk. unfold drive_of in Hd.
    assert (forall m, fails_with 1 (disk_13XX m regs p)) as HXX by (intros; apply disk_ret_unimplemented_fails).
    assert (fails_with 1 (disk_13 heap hardware D cdemu_drive dpt ata int15 m regs p)) as H13
      by (unfold disk_13; rewrite switch_default by done; apply HXX).
    destruct (dl regs <? EXTSTART_HD); [|destruct (EXTSTART_CD <=? dl regs)]; rewrite Hd; cbn [obind];
      rewrite (proj2 (Z.eqb_neq p 0)) by done; try done.
    unfold floppy_13. case_bool_decide; [done|apply HXX].
  - intros p d command Hp Hcd Hg. unfold basic_access. case_test; [by apply disk_ret_fails|].
    unfold fillLCHS. rewrite (proj2 (Z.eqb_neq p _)), Hp by done. cbn [of_option obind].
    destruct (_ || _) eqn:E2; [by apply disk_ret_fails|]. bool_to_prop. exfalso. apply Hg.
    pose proof (cylinder_range regs). pose proof (sector_range regs).
    pose proof (wrap_range 8 ltac:(lia) (edx regs / 256)) as Hdh. fold (hi8 (edx regs)) in Hdh. fold (dh regs) in Hdh.
    unfold in_geometry, in_u in *. lia.
Qed.

Lemma int13_errors_witness :
  fails_with 1 (handle_40 demo_drives strict_driver drive_setup 0x200 0 (fun _ => mk_ata 0 0 0 0 0) (fun m r => (m, r))
    (fun _ => 0) (mk_bregs 0 0 0 0 0 0 0x80 0 0x200 0)).
Proof. by apply int13_errors. Defined.

(** ** Removable drives *)

Inductive lock_op := Lock | Unlock | LockStatus | Eject.

(** The call of interrupt 0x13 for each, on the drive in [dl]. *)
Definition lock_call int15 (regs : bregs) (p : Z) (m : memory) (op : lock_op) : outcome (memory * bregs) :=
  match op with
  | Lock => disk_1345 m (set_al regs 0) p
  | Unlock => disk_1345 m (set_al regs 1) p
  | LockStatus => disk_1345 m (set_al regs 2) p
  | Eject => disk_1346 int15 m (set_al regs 0) p
  end.

(** The specification: a count of locks from 0 to 255; code and [al] of each call. *)
Definition lock_spec (eject_ok : bool) (n : Z) (op : lock_op) : Z * (Z * Z) :=
  match op with
  | Lock => if n =? 255 then (n, (DISK_RET_ETOOMANYLOCKS, 1)) else (n + 1, (0, 1))
  | Unlock => if n =? 0 then (n, (DISK_RET_ENOTLOCKED, 0)) else (n - 1, (0, if n =? 1 then 0 else 1))
  | LockStatus => (n, (0, if n =? 0 then 0 else 1))
  | Eject => (n, (if (n =? 0) && eject_ok then 0 else DISK_RET_ELOCKED, 0))
  end.

(** [n] locks on drive [cd]; the EBDA is above the BIOS data area. *)
Definition locks_repr (m : memory) (cd n : Z) : Prop :=
  bytes m /\ 0x500 <= get_ebda_seg m * 16 /\ m (ebda m "cdrom_locks" + cd) = n.

(** The calls of [ops] with the specification beside them. *)
Fixpoint lock_runs int15 (regs : bregs) (p : Z) (m : memory) (ops : list lock_op) : outcome (list (Z * Z)) :=
  match ops with
  | [] => Ok []
  | op :: ops =>
      let! '(m, r) := lock_call int15 regs p m op in
      let! rest := lock_runs int15 regs p m ops in
      Ok ((if cf r then ah r else 0, al r) :: rest)
  end.

Fixpoint lock_specs (eject_ok : bool) (n : Z) (ops : list lock_op) : list (Z * Z) :=
  match ops with
  | [] => []
  | op :: ops => let '(n, o) := lock_spec eject_ok n op in o :: lock_specs eject_ok n ops
  end.

Lemma ebda_seg_writeb m a v : bda "ebda_seg" + 1 < a -> get_ebda_seg (writeb m a v) = get_ebda_seg m.
Proof. intros Ha. unfold get_ebda_seg. apply readw_writeb_ne; lia. Qed.

Lemma ebda_writeb m a v f : bda "ebda_seg" + 1 < a -> ebda (writeb m a v) f = ebda m f.
Proof. intros Ha. unfold ebda. by rewrite ebda_seg_writeb. Qed.

Section Locks.
Context (cd : Z) (Hcd : 0 <= cd < 16) (regs : bregs) (Hdl : dl regs = EXTSTART_CD + cd).

Lemma cell_high m n : locks_repr m cd n -> 0x500 < ebda m "cdrom_locks" + cd.
Proof using Hcd.
  intros (_ & H & _). unfold ebda. change (offsetof extended_bios_data_area_s "cdrom_locks") with 342. lia.
Qed.

Lemma locks_status m n r code : locks_repr m cd n -> locks_repr (set_status m r code) cd n.
Proof using Hcd.
  intros H. pose proof (cell_high m n H) as Hc. destruct H as (Hb & Hs & Hn). unfold set_status.
  set (a := if _ <? _ then _ else _). assert (0x440 < a < 0x480) as Ha by (subst a; case_test; unfold floppy_last_status, disk_last_status; lia).
  assert (bda "ebda_seg" + 1 < a) by (change (bda "ebda_seg") with 1038; lia).
  split_and!; [by apply bytes_writeb|by rewrite ebda_seg_writeb|]. rewrite ebda_writeb, writeb_other by lia. done.
Qed.

Lemma locks_write m n v :
  locks_repr m cd n -> locks_repr (writeb m (ebda m "cdrom_locks" + cd) v) cd (u8 v).
Proof using Hcd.
  intros H. pose proof (cell_high m n H) as Hc. destruct H as (Hb & Hs & Hn).
  assert (bda "ebda_seg" + 1 < ebda m "cdrom_locks" + cd) by (change (bda "ebda_seg") with 1038; lia).
  split_and!; [by apply bytes_writeb|by rewrite ebda_seg_writeb|]. rewrite ebda_writeb by done. apply writeb_same.
Qed.

Lemma lock_cell_cd m v : lock_cell m (set_al regs v) = ebda m "cdrom_locks" + cd.
Proof using Hdl. unfold lock_cell. change (dl (set_al regs v)) with (dl regs). rewrite Hdl. lia. Qed.

Lemma ret_step m n x code :
  locks_repr m cd n -> in_u 8 code ->
  exists m' r, disk_ret m x code = Ok (m', r) /\ locks_repr m' cd n /\ (if cf r then ah r else 0, al r) = (code, al x).
Proof using Hcd.
  intros Hr Hc. destruct (disk_ret_reports m x code) as (m' & r & -> & [Ha Hf] & _ & _ & Hal & ->).
  rewrite (wrap_small 8 code) in * by done. eexists _, _. split; [done|]. split; [by apply locks_status|].
  rewrite Hf, Ha, Hal. destruct (Z.eqb_spec code 0); simpl; congruence.
Qed.

Context (int15 : memory -> bregs -> memory * bregs) (reply : bregs) (Hint15 : forall m br, int15 m br = (m, reply)).
Notation eject_ok := ((ah reply =? 0) && negb (cf reply)).

Lemma lock_step m n op p :
  locks_repr m cd n -> in_u 8 n ->
  exists m' r, lock_call int15 regs p m op = Ok (m', r) /\
    locks_repr m' cd (lock_spec eject_ok n op).1 /\ in_u 8 (lock_spec eject_ok n op).1 /\
    (if cf r then ah r else 0, al r) = (lock_spec eject_ok n op).2.
Proof using All.
  intros Hr Hn. pose proof Hr as (_ & _ & Hcell).
  assert (forall v, readb m (lock_cell m (set_al regs v)) = n) as Hread by (intros; rewrite lock_cell_cd; done).
  assert (forall v, (dl (set_al regs v) <? EXTSTART_CD) = false) as Hlt.
  { intros v. change (dl (set_al regs v)) with (dl regs). rewrite Hdl. apply Z.ltb_ge. lia. }
  assert (forall x v, al (set_al x v) = u8 v) as Hal by (intros; reg_simpl; done).
  assert (forall m' n' x v code, locks_repr m' cd n' -> in_u 8 n' -> in_u 8 code -> al x = v ->
    exists m2 r, disk_ret m' x code = Ok (m2, r) /\ locks_repr m2 cd n' /\ in_u 8 n' /\
      (if cf r then ah r else 0, al r) = (code, v)) as Hfin.
  { intros m' n' x v code H1 H2 H3 <-. destruct (ret_step m' n' x code H1 H3) as (m2 & r & E & H4 & H5).
    exists m2, r. done. }
  unfold in_u in Hn.
  destruct op; cbn [lock_call lock_spec]; unfold disk_1345, disk_1346; rewrite ?Hlt, ?Hal.
  - change (u8 0 =? 0) with true. cbn iota. unfold disk_134500. rewrite Hread. case_test; simpl.
    + by apply Hfin.
    + rewrite lock_cell_cd. apply Hfin; [|unfold in_u; lia|done|by rewrite Hal].
      pose proof (locks_write m n (n + 1) Hr) as Hw. by rewrite (wrap_small 8 (n + 1)) in Hw by (unfold in_u; lia).
  - change (u8 1 =? 0) with false. change (u8 1 =? 1) with true. cbn iota. unfold disk_134501. rewrite Hread. case_test; simpl.
    + by apply Hfin.
    + rewrite lock_cell_cd. apply Hfin; [|unfold in_u; lia|done|].
      * pose proof (locks_write m n (n - 1) Hr) as Hw. by rewrite (wrap_small 8 (n - 1)) in Hw by (unfold in_u; lia).
      * rewrite Hal. destruct (Z.eqb_spec (n - 1) 0), (Z.eqb_spec n 1); done || lia.
  - change (u8 2 =? 0) with false. change (u8 2 =? 1) with false. change (u8 2 =? 2) with true. cbn iota.
    unfold disk_134502. rewrite Hread. cbn [fst snd]. apply Hfin; [done|done|done|]. rewrite Hal. by case_test.
  - rewrite Hread. destruct (n =? 0); simpl; [|by apply Hfin].
    rewrite Hint15. destruct (ah reply =? 0), (cf reply); simpl; by apply Hfin.
Qed.
End Locks.

(** The lock calls of a removable drive behave as a counter that never wraps: any
    sequence of lock, unlock, status and eject gives the codes of the specification, and
    an eject succeeds only with no lock left. *)
Theorem cdrom_locks_refine cd regs int15 reply m n p ops :
  0 <= cd < 16 -> dl regs = EXTSTART_CD + cd -> (forall m br, int15 m br = (m, reply)) ->
  locks_repr m cd n -> in_u 8 n ->
  lock_runs int15 regs p m ops = Ok (lock_specs ((ah reply =? 0) && negb (cf reply)) n ops).
Proof.
  intros Hcd Hdl Hint. revert m n. induction ops as [|op ops IH]; intros m n Hr Hn; [done|]. cbn [lock_runs lock_specs].
  destruct (lock_step cd Hcd regs Hdl int15 reply Hint m n op p Hr Hn) as (m' & r & -> & Hr' & Hn' & Eo).
  cbn [obind]. destruct (lock_spec _ n op) as [n' o]. simpl in *. rewrite (IH m' n' Hr' Hn'). cbn [obind]. by rewrite Eo.
Qed.

Definition demo_ebda : memory := writew (fun _ => 0) (bda "ebda_seg") 0x9fc0.

Lemma cdrom_locks_refine_witness :
  lock_runs (fun m _ => (m, mk_bregs 0 0 0 0 0 0 0 0 0 0)) (mk_bregs 0 0 0 0 0 0 0xe1 0 0 0) 0x100 demo_ebda
    [Lock; Lock; Eject; Unlock; LockStatus; Unlock; Eject; Unlock]
  = Ok [(0, 1); (0, 1); (0xb1, 0); (0, 1); (0, 1); (0, 0); (0, 0); (0xb0, 0)].
Proof.
  apply (cdrom_locks_refine 1 _ _ (mk_bregs 0 0 0 0 0 0 0 0 0 0) _ 0); [lia|done|done| |unfold in_u; lia].
  split_and!; [|by vm_compute|by vm_compute]. apply bytes_writew. intros a. unfold in_u. lia.
Defined.

(** ** Parameter tables *)

Lemma bytesum_snoc n m a : bytesum m a (S n) = bytesum m a n + m (a + Z.of_nat n).
Proof.
  revert a. induction n as [|n IH]; intros a.
  - simpl. rewrite !Z.add_0_r. done.
  - change (bytesum m a (S (S n))) with (m a + bytesum m (a + 1) (S n)). rewrite IH. cbn [bytesum].
    replace (a + 1 + Z.of_nat n) with (a + Z.of_nat (S n)) by lia. lia.
Qed.

(** Storing minus the sum of [n] bytes after them makes the [n + 1] bytes sum to zero. *)
Lemma checksum_close m a b n :
  0 <= n -> b = a + n -> checksum (writeb m b (- checksum m a n)) a (n + 1) = 0.
Proof.
  intros Hn ->. unfold checksum. rewrite !checksum_from_sum by (unfold in_u; lia).
  replace (Z.to_nat (n + 1)) with (S (Z.to_nat n)) by lia. rewrite bytesum_snoc, Z2Nat.id by done.
  rewrite bytesum_writeb, writeb_same. rewrite (proj2 (Z.ltb_ge _ _)), andb_false_r by lia. rewrite !Z.add_0_l, Z.add_0_r.
  rewrite wrap_add_r, Z.add_opp_r, wrap_sub_r, Z.sub_diag. done.
Qed.

Section Edd.
Context (regs : bregs).
Notation base := (ds regs * 16 + si regs).

Lemma at_base f o : offsetof int13dpt_s f = o -> at_dssi int13dpt_s regs f = base + o.
Proof. intros <-. unfold at_dssi. lia. Qed.

Lemma writew_outside m a v x lo hi : lo <= a -> a + 2 <= hi -> ~ (lo <= x < hi) -> writew m a v x = m x.
Proof. intros. apply writew_other; lia. Qed.
Lemma writeb_outside m a v x lo hi : lo <= a -> a + 1 <= hi -> ~ (lo <= x < hi) -> writeb m a v x = m x.
Proof. intros. apply writeb_other; lia. Qed.
Lemma writel_outside m a v x lo hi : lo <= a -> a + 4 <= hi -> ~ (lo <= x < hi) -> writel m a v x = m x.
Proof. intros. unfold writel. rewrite !(writew_outside _ _ _ x lo hi) by lia. done. Qed.
Lemma writeq_outside m a v x lo hi : lo <= a -> a + 8 <= hi -> ~ (lo <= x < hi) -> writeq m a v x = m x.
Proof. intros. unfold writeq. rewrite !(writel_outside _ _ _ x lo hi) by lia. done. Qed.
Lemma write_bytes_outside bs m a x lo hi :
  lo <= a -> a + Z.of_nat (length bs) <= hi -> ~ (lo <= x < hi) -> write_bytes m a bs x = m x.
Proof.
  revert m a. induction bs as [|b bs IH]; intros m a H1 H2 H3; [done|]. cbn [write_bytes length] in *.
  rewrite IH by lia. apply (writeb_outside _ _ _ x lo hi); lia.
Qed.

(** The writes of the tables stay between [lo] and [hi]. *)
Ltac outside lo hi :=
  first
  [ done
  | rewrite (writew_outside _ _ _ _ lo hi) by lia; outside lo hi
  | rewrite (writeb_outside _ _ _ _ lo hi) by lia; outside lo hi
  | rewrite (writel_outside _ _ _ _ lo hi) by lia; outside lo hi
  | rewrite (writeq_outside _ _ _ _ lo hi) by lia; outside lo hi
  | rewrite (write_bytes_outside _ _ _ _ lo hi) by (simpl; lia); outside lo hi ].

Ltac table_offsets :=
  repeat match goal with |- context [at_dssi int13dpt_s regs ?f] =>
    let o := eval vm_compute in (offsetof int13dpt_s f) in rewrite (at_base f o eq_refl) end.

Lemma edd3_frame m a x : ~ (base + 30 <= x < base + 66) -> edd3 m regs a x = m x.
Proof.
  intros Hx. unfold edd3. cbv zeta. table_offsets. destruct (negb (pci_bdf a =? -1)); outside (base + 30) (base + 66).
Qed.

Lemma edd1_frame m d x : ~ (base <= x < base + 66) -> edd1 m regs d x = m x.
Proof.
  intros Hx. unfold edd1. cbv zeta. table_offsets. destruct (pchs d) as [nph npc npspt].
  destruct (type d =? DTYPE_ATAPI); [|destruct (_ <? _)]; outside (base + 0) (base + 66).
Qed.

Lemma edd3_checksum m a : checksum (edd3 m regs a) (base + 30) 36 = 0.
Proof.
  unfold edd3. cbv zeta. change 36 with (35 + 1) at 3.
  rewrite (at_base "checksum" 65 eq_refl), <- (Z.add_assoc (ds regs * 16)), (Z.add_assoc _ (si regs) 30).
  apply checksum_close; lia.
Qed.

(** The table in the EBDA. *)
Lemma edd2_dpte m d a :
  let dpte := get_ebda_seg m * 16 + offsetof extended_bios_data_area_s "dpte" in
  checksum (edd2 m regs d a) dpte 16 = 0.
Proof.
  intros dpte. unfold edd2. cbv zeta. change 16 with (15 + 1) at 3. apply checksum_close; [lia|].
  subst dpte. change (offsetof dpte_s "checksum") with 15. lia.
Qed.
End Edd.

(** A caller with room for it gets a device path whose bytes sum to zero, and the device
    parameter table it is pointed to sums to zero as well. *)
Theorem edd_tables_checksum heap ata m regs p d :
  heap !! p = Some d -> type d = DTYPE_ATA \/ type d = DTYPE_ATAPI ->
  let base := ds regs * 16 + si regs in
  let dpte := ebda m "dpte" in
  66 <= readw m base -> 0x500 <= base -> 0x500 <= dpte -> base + 66 <= dpte \/ dpte + 16 <= base ->
  exists m' regs', disk_1348 heap ata m regs p = Ok (m', regs') /\ reports regs' 0 /\
    checksum m' (base + 30) 36 = 0 /\ checksum m' dpte 16 = 0.
Proof.
  intros Hp Ht base dpte Hs Hb Hd Hsep. unfold disk_1348. rewrite (at_base regs "size" 0 eq_refl), Z.add_0_r. fold base.
  rewrite (proj2 (Z.ltb_ge _ 26)), (proj2 (Z.ltb_ge _ 30)), (proj2 (Z.ltb_ge _ 66)), Hp by lia. cbn [of_option obind orb].
  assert (negb (type d =? DTYPE_ATA) && negb (type d =? DTYPE_ATAPI) = false) as ->.
  { destruct Ht as [-> | ->]; by vm_compute. }
  set (m1 := edd1 m regs d). set (m2 := edd2 m1 regs d (ata p)).
  assert (get_ebda_seg m1 = get_ebda_seg m) as Eseg.
  { apply readw_ext; apply edd1_frame; change (bda "ebda_seg") with 1038; fold base; lia. }
  destruct (disk_ret_reports (edd3 m2 regs (ata p)) regs DISK_RET_SUCCESS) as (m' & r & -> & Hr & _ & _ & _ & ->).
  assert (forall x, 0x500 <= x -> set_status (edd3 m2 regs (ata p)) regs (u8 DISK_RET_SUCCESS) x = edd3 m2 regs (ata p) x) as Hst.
  { intros x Hx. unfold set_status. apply writeb_other. case_test; unfold floppy_last_status, disk_last_status; lia. }
  eexists _, _. split; [done|]. split; [done|]. split.
  - rewrite <- (edd3_checksum regs m2 (ata p)). fold base. apply checksum_ext. intros x Hx. apply Hst. lia.
  - pose proof (edd2_dpte regs m1 d (ata p)) as E2. cbv zeta in E2. rewrite Eseg in E2.
    change (get_ebda_seg m * 16 + offsetof extended_bios_data_area_s "dpte") with dpte in E2. rewrite <- E2.
    apply checksum_ext. intros x Hx. rewrite Hst by lia. rewrite edd3_frame by (fold base; lia). done.
Qed.

Definition demo_edd : memory := writew demo_ebda 0x2000 66.

Lemma edd_tables_checksum_witness :
  exists m' regs', disk_1348 {[0x100 := mk_drive DTYPE_ATA 0 (mk_chs 16 100 63) 100800 2 0 512 (mk_chs 16 100 63)]}
      (fun _ => mk_ata 1 0x1f0 0x3f0 14 (-1)) demo_edd (mk_bregs 0x200 0 0 0 0 0 0x80 0 0x4800 0) 0x100 = Ok (m', regs') /\
    reports regs' 0 /\ checksum m' (0x2000 + 30) 36 = 0 /\ checksum m' (0x9fc00 + 0x146) 16 = 0.
Proof.
  eapply (edd_tables_checksum _ _ demo_edd (mk_bregs 0x200 0 0 0 0 0 0x80 0 0x4800 0)); [done|by left|..];
    vm_compute; (left; congruence) || (right; congruence) || congruence.
Defined.
