(* ===== verification/Clock.v ===== *)
(** * Clocks: [bios/seabios/src/clock.c], [floppy_tick] of [floppy.c]

    The state is memory, the registers of the clock chip and the floppy controller's output
    register.  What the hardware shows at each look (the update flag, the time stamp
    counter), what runs during a wait and the handlers of user interrupts are arguments. *)

From S2P Require Import Prelude BiosUtil Bregs.
Local Open Scope Z_scope.
Local Open Scope coremu_scope.

Definition RTC_B_SET : Z := 0x80.
Definition RTC_B_PIE : Z := 0x40.
Definition RTC_B_AIE : Z := 0x20.
Definition RTC_B_24HR : Z := 0x02.
Definition RTC_B_DSE : Z := 0x01.

Definition CMOS_RTC_SECONDS : Z := 0x00.
Definition CMOS_RTC_SECONDS_ALARM : Z := 0x01.
Definition CMOS_RTC_MINUTES : Z := 0x02.
Definition CMOS_RTC_MINUTES_ALARM : Z := 0x03.
Definition CMOS_RTC_HOURS : Z := 0x04.
Definition CMOS_RTC_HOURS_ALARM : Z := 0x05.
Definition CMOS_RTC_DAY_MONTH : Z := 0x07.
Definition CMOS_RTC_MONTH : Z := 0x08.
Definition CMOS_RTC_YEAR : Z := 0x09.
Definition CMOS_STATUS_A : Z := 0x0a.
Definition CMOS_STATUS_B : Z := 0x0b.
Definition CMOS_STATUS_C : Z := 0x0c.
Definition CMOS_CENTURY : Z := 0x32.

Definition timer_counter : Z := Eval vm_compute in bda "timer_counter".
Definition timer_rollover : Z := Eval vm_compute in bda "timer_rollover".
Definition rtc_wait_flag : Z := Eval vm_compute in bda "rtc_wait_flag".
Definition user_wait_complete_flag : Z := Eval vm_compute in bda "user_wait_complete_flag".
Definition user_wait_timeout : Z := Eval vm_compute in bda "user_wait_timeout".
Definition floppy_motor_counter : Z := Eval vm_compute in bda "floppy_motor_counter".

Record clk := mk_clk { cmem : memory; cmos : Z -> Z; dor : Z }.

Definition set_mem (s : clk) (m : memory) : clk := mk_clk m (cmos s) (dor s).
Definition inb_cmos (s : clk) (reg : Z) : Z := cmos s reg.
Definition outb_cmos (s : clk) (val reg : Z) : clk :=
  mk_clk (cmem s) (fun r => if r =? reg then u8 val else cmos s r) (dor s).

(** ** Time stamp counter *)

Definition PIT_TICK_RATE : Z := 1193180.
Definition PIT_TICK_INTERVAL : Z := 65536.
Definition CALIBRATE_COUNT : Z := 0x800.
Definition TICKS_PER_DAY : Z := u32 (60 * 60 * 24 * PIT_TICK_RATE / PIT_TICK_INTERVAL).

(** [cpu_khz], from the cycles counted while timer 2 ran down. *)
Definition calibrate_khz (start end_ : Z) : Z :=
  let diff := u64 (end_ - start) in
  let hz := u32 (u64 (diff * PIT_TICK_RATE) / CALIBRATE_COUNT) in
  hz / 1000.

Definition check_time (tsc end_ : Z) : bool := 0 <? s64 (tsc - end_).

(** [tscdelay] and [tscsleep]: the number of looks at the counter, [tsc i] at look [i]. *)
Fixpoint wait_tsc (fuel : nat) (tsc : nat -> Z) (i : nat) (end_ : Z) : option nat :=
  match fuel with
  | O => None
  | S fuel => if check_time (tsc i) end_ then Some i else wait_tsc fuel tsc (S i) end_
  end.
Definition tscdelay (fuel : nat) (tsc : nat -> Z) (diff : Z) : option nat :=
  wait_tsc fuel tsc 1 (u64 (tsc 0%nat + diff)).

(** The cycles [ndelay], [udelay] and [mdelay] wait; the products are 32 bits wide. *)
Definition ndelay (khz count : Z) : Z := u32 (count * khz) / 1000000.
Definition udelay (khz count : Z) : Z := u32 (count * khz) / 1000.
Definition mdelay (khz count : Z) : Z := u32 (count * khz).

Definition calc_future_tsc (khz tsc msecs : Z) : Z := u64 (tsc + u64 (khz * msecs)).
Definition calc_future_tsc_usec (khz tsc usecs : Z) : Z := u64 (tsc + u64 (khz / 1000 * usecs)).

(** ** The clock chip *)

(** What a look at the chip shows: update in progress, time limit passed. *)
Record look := mk_look { uip : bool; expired : bool }.

(** [Some true] is the timeout, [None] still waiting after [fuel] looks. *)
Fixpoint updating_loop (fuel : nat) (looks : nat -> look) (i : nat) : option bool :=
  match fuel with
  | O => None
  | S fuel =>
      if negb (uip (looks i)) then Some false
      else if expired (looks i) then Some true
      else updating_loop fuel looks (S i)
  end.
Definition rtc_updating (fuel : nat) (looks : nat -> look) : option bool :=
  if negb (uip (looks 0%nat)) then Some false else updating_loop fuel looks 1.

(** Reading registers C and D only acknowledges. *)
Definition init_rtc (s : clk) : clk :=
  let s := outb_cmos s 0x26 CMOS_STATUS_A in
  let regB := inb_cmos s CMOS_STATUS_B in
  outb_cmos s (Z.lor (Z.land regB RTC_B_DSE) RTC_B_24HR) CMOS_STATUS_B.

Definition bcd2bin (val : Z) : Z := Z.land val 0xf + Z.shiftr val 4 * 10.

(** [timer_setup] after calibration: the tick count of the time of day. *)
Definition timer_setup (fuel : nat) (looks : nat -> look) (s : clk) : option clk :=
  let s := init_rtc s in
  _ ← rtc_updating fuel looks;
  let seconds := bcd2bin (inb_cmos s CMOS_RTC_SECONDS) in
  let minutes := bcd2bin (inb_cmos s CMOS_RTC_MINUTES) in
  let hours := bcd2bin (inb_cmos s CMOS_RTC_HOURS) in
  let ticks := u32 ((hours * 60 + minutes) * 60 + seconds) in
  let ticks := u32 (u64 (ticks * PIT_TICK_RATE) / PIT_TICK_INTERVAL) in
  Some (set_mem s (writeb (writel (cmem s) timer_counter ticks) timer_rollover 0)).

(** ** Interrupt 0x1a *)

Section Int1a.
Context (fuel : nat) (looks : nat -> look) (yield_ : clk -> clk).
Implicit Types (s : clk) (regs : bregs).

Definition handle_1a00 s regs : option (clk * bregs) :=
  let s := yield_ s in
  let ticks := readl (cmem s) timer_counter in
  let regs := set_cx regs (Z.shiftr ticks 16) in
  let regs := set_dx regs ticks in
  let regs := set_al regs (readb (cmem s) timer_rollover) in
  Some (set_mem s (writeb (cmem s) timer_rollover 0), set_success regs).

Definition handle_1a01 s regs : option (clk * bregs) :=
  let ticks := u32 (Z.lor (Z.shiftl (cx regs) 16) (dx regs)) in
  let m := writeb (writel (cmem s) timer_counter ticks) timer_rollover 0 in
  Some (set_mem s m, set_success (set_ah regs 0)).

Definition handle_1a02 s regs : option (clk * bregs) :=
  busy ← rtc_updating fuel looks;
  if busy : bool then Some (s, set_invalid regs)
  else
    let regs := set_dh regs (inb_cmos s CMOS_RTC_SECONDS) in
    let regs := set_cl regs (inb_cmos s CMOS_RTC_MINUTES) in
    let regs := set_ch regs (inb_cmos s CMOS_RTC_HOURS) in
    let regs := set_dl regs (Z.land (inb_cmos s CMOS_STATUS_B) RTC_B_DSE) in
    let regs := set_ah regs 0 in
    let regs := set_al regs (ch regs) in
    Some (s, set_success regs).

Definition handle_1a03 s regs : option (clk * bregs) :=
  busy ← rtc_updating fuel looks;
  let s := if busy : bool then init_rtc s else s in
  let s := outb_cmos s (dh regs) CMOS_RTC_SECONDS in
  let s := outb_cmos s (cl regs) CMOS_RTC_MINUTES in
  let s := outb_cmos s (ch regs) CMOS_RTC_HOURS in
  let val8 := Z.lor (Z.lor (Z.land (inb_cmos s CMOS_STATUS_B) (Z.lor RTC_B_PIE RTC_B_AIE)) RTC_B_24HR)
                    (Z.land (dl regs) RTC_B_DSE) in
  let s := outb_cmos s val8 CMOS_STATUS_B in
  Some (s, set_success (set_al (set_ah regs 0) val8)).

Definition handle_1a04 s regs : option (clk * bregs) :=
  let regs := set_ah regs 0 in
  busy ← rtc_updating fuel looks;
  if busy : bool then Some (s, set_invalid regs)
  else
    let regs := set_cl regs (inb_cmos s CMOS_RTC_YEAR) in
    let regs := set_dh regs (inb_cmos s CMOS_RTC_MONTH) in
    let regs := set_dl regs (inb_cmos s CMOS_RTC_DAY_MONTH) in
    let regs := set_ch regs (inb_cmos s CMOS_CENTURY) in
    let regs := set_al regs (ch regs) in
    Some (s, set_success regs).

Definition handle_1a05 s regs : option (clk * bregs) :=
  busy ← rtc_updating fuel looks;
  if busy : bool then Some (init_rtc s, set_invalid regs)
  else
    let s := outb_cmos s (cl regs) CMOS_RTC_YEAR in
    let s := outb_cmos s (dh regs) CMOS_RTC_MONTH in
    let s := outb_cmos s (dl regs) CMOS_RTC_DAY_MONTH in
    let s := outb_cmos s (ch regs) CMOS_CENTURY in
    let val8 := Z.ldiff (inb_cmos s CMOS_STATUS_B) RTC_B_SET in
    let s := outb_cmos s val8 CMOS_STATUS_B in
    Some (s, set_success (set_al (set_ah regs 0) val8)).

Definition handle_1a06 s regs : option (clk * bregs) :=
  let val8 := inb_cmos s CMOS_STATUS_B in
  let regs := set_ax regs 0 in
  if negb (Z.land val8 RTC_B_AIE =? 0) then Some (s, set_invalid regs)
  else
    busy ← rtc_updating fuel looks;
    let s := if busy : bool then init_rtc s else s in
    let s := outb_cmos s (dh regs) CMOS_RTC_SECONDS_ALARM in
    let s := outb_cmos s (cl regs) CMOS_RTC_MINUTES_ALARM in
    let s := outb_cmos s (ch regs) CMOS_RTC_HOURS_ALARM in
    let s := outb_cmos s (Z.lor (Z.ldiff val8 RTC_B_SET) RTC_B_AIE) CMOS_STATUS_B in
    Some (s, set_success regs).

Definition handle_1a07 s regs : option (clk * bregs) :=
  let val8 := inb_cmos s CMOS_STATUS_B in
  let s := outb_cmos s (Z.ldiff val8 (Z.lor RTC_B_SET RTC_B_AIE)) CMOS_STATUS_B in
  Some (s, set_success (set_al (set_ah regs 0) val8)).

Definition handle_1aXX s regs : option (clk * bregs) := Some (s, set_unimplemented regs).

Definition handle_1a (handle_1ab1 : clk -> bregs -> option (clk * bregs)) s regs : option (clk * bregs) :=
  let f := ah regs in
  if f =? 0x00 then handle_1a00 s regs
  else if f =? 0x01 then handle_1a01 s regs
  else if f =? 0x02 then handle_1a02 s regs
  else if f =? 0x03 then handle_1a03 s regs
  else if f =? 0x04 then handle_1a04 s regs
  else if f =? 0x05 then handle_1a05 s regs
  else if f =? 0x06 then handle_1a06 s regs
  else if f =? 0x07 then handle_1a07 s regs
  else if f =? 0xb1 then handle_1ab1 s regs
  else handle_1aXX s regs.
End Int1a.

(** ** Timer interrupt *)

Definition floppy_tick (s : clk) : clk :=
  let fcount := readb (cmem s) floppy_motor_counter in
  if negb (fcount =? 0) then
    let fcount := fcount - 1 in
    let s := set_mem s (writeb (cmem s) floppy_motor_counter fcount) in
    if fcount =? 0 then mk_clk (cmem s) (cmos s) (Z.land (dor s) 0xcf) else s
  else s.

(** [usb_check_key] and the handler of interrupt 0x1c are [user]. *)
Definition handle_08 (user : clk -> clk) (s : clk) : clk :=
  let s := floppy_tick s in
  let m := cmem s in
  let counter := u32 (readl m timer_counter + 1) in
  let '(counter, m) :=
    if TICKS_PER_DAY <=? counter then (0, writeb m timer_rollover (readb m timer_rollover + 1)) else (counter, m) in
  user (set_mem s (writel m timer_counter counter)).

(** ** Periodic timer *)

Definition RTCusers (m : memory) : Z := ebda m "RTCusers".
Definition RWS_WAIT_PENDING : Z := 1.
Definition RET_ECLOCKINUSE : Z := 0x83.
Definition RET_EUNSUPPORTED : Z := 0x86.

Definition useRTC (s : clk) : clk :=
  let m := cmem s in
  let count := s32 (readl m (RTCusers m)) in
  let s := set_mem s (writel m (RTCusers m) (count + 1)) in
  if negb (count =? 0) then s
  else outb_cmos s (Z.lor (inb_cmos s CMOS_STATUS_B) RTC_B_PIE) CMOS_STATUS_B.

Definition releaseRTC (s : clk) : clk :=
  let m := cmem s in
  let count := s32 (readl m (RTCusers m)) in
  let s := set_mem s (writel m (RTCusers m) (count - 1)) in
  if negb (count =? 1) then s
  else outb_cmos s (Z.ldiff (inb_cmos s CMOS_STATUS_B) RTC_B_PIE) CMOS_STATUS_B.

(** [None] is the return of -1: a wait is pending. *)
Definition set_usertimer (s : clk) (usecs seg offset : Z) : option clk :=
  let m := cmem s in
  if negb (Z.land (readb m rtc_wait_flag) RWS_WAIT_PENDING =? 0) then None
  else
    let m := writeb m rtc_wait_flag RWS_WAIT_PENDING in
    let m := writew (writew m user_wait_complete_flag offset) (user_wait_complete_flag + 2) seg in
    let m := writel m user_wait_timeout usecs in
    Some (useRTC (set_mem s m)).

Definition clear_usertimer (s : clk) : clk :=
  if Z.land (readb (cmem s) rtc_wait_flag) RWS_WAIT_PENDING =? 0 then s
  else releaseRTC (set_mem s (writeb (cmem s) rtc_wait_flag 0)).

(** The loop [while (!statusflag) wait_irq()]; [irq i] is what the i-th wait does. *)
Fixpoint wait_flag (fuel : nat) (irq : nat -> clk -> clk) (i : nat) (s : clk) (addr : Z) : option clk :=
  match fuel with
  | O => None
  | S fuel => if negb (readb (cmem s) addr =? 0) then Some s else wait_flag fuel irq (S i) (irq i s) addr
  end.

(** [ss:sp] is where [statusflag] is on the stack. *)
Definition handle_1586 (fuel : nat) (irq : nat -> clk -> clk) (ss sp : Z) (s : clk) (regs : bregs) : option (clk * bregs) :=
  let s := set_mem s (writeb (cmem s) (ss * 16 + sp) 0) in
  let count := u32 (Z.lor (Z.shiftl (cx regs) 16) (dx regs)) in
  match set_usertimer s count ss sp with
  | None => Some (s, set_code_invalid regs RET_ECLOCKINUSE)
  | Some s => s ← wait_flag fuel irq 0 s (ss * 16 + sp); Some (s, set_success regs)
  end.

Definition handle_158300 (s : clk) (regs : bregs) : clk * bregs :=
  match set_usertimer s (u32 (Z.lor (Z.shiftl (cx regs) 16) (dx regs))) (es regs) (bx regs) with
  | None => (s, set_code_invalid regs RET_EUNSUPPORTED)
  | Some s => (s, set_success regs)
  end.
Definition handle_158301 (s : clk) (regs : bregs) : clk * bregs := (clear_usertimer s, set_success regs).
Definition handle_1583XX (s : clk) (regs : bregs) : clk * bregs :=
  let regs := set_code_unimplemented regs RET_EUNSUPPORTED in (s, set_al regs (al regs - 1)).
Definition handle_1583 (s : clk) (regs : bregs) : clk * bregs :=
  if al regs =? 0x00 then handle_158300 s regs
  else if al regs =? 0x01 then handle_158301 s regs
  else handle_1583XX s regs.

Definition USEC_PER_RTC : Z := (1000000 + 1024 / 2) / 1024.

(** [alarm] is the handler of interrupt 0x4a; [check_preempt] runs other threads. *)
Definition handle_70 (alarm : clk -> clk) (s : clk) : clk :=
  let registerB := inb_cmos s CMOS_STATUS_B in
  let registerC := inb_cmos s CMOS_STATUS_C in
  if Z.land registerB (Z.lor RTC_B_PIE RTC_B_AIE) =? 0 then s
  else
    let s := if negb (Z.land registerC RTC_B_AIE =? 0) then alarm s else s in
    if Z.land registerC RTC_B_PIE =? 0 then s
    else
      let m := cmem s in
      if readb m rtc_wait_flag =? 0 then s
      else
        let time := readl m user_wait_timeout in
        if time <? USEC_PER_RTC then
          let ptr := readw m (user_wait_complete_flag + 2) * 16 + readw m user_wait_complete_flag in
          clear_usertimer (set_mem s (writeb m ptr (Z.lor (readb m ptr) 0x80)))
        else set_mem s (writel m user_wait_timeout (time - USEC_PER_RTC)).

(** ** Time limits *)

Lemma check_time_spec n E : - 2 ^ 62 <= n - E < 2 ^ 62 -> check_time (u64 n) (u64 E) = (E <? n).
Proof.
  intros Hr. unfold check_time, swrap, wrap.
  replace ((n mod 2 ^ 64 - E mod 2 ^ 64 + 2 ^ (64 - 1)) mod 2 ^ 64) with ((n - E + 2 ^ (64 - 1)) mod 2 ^ 64).
  - rewrite Z.mod_small by lia. destruct (Z.ltb_spec 0 (n - E + 2 ^ (64 - 1) - 2 ^ (64 - 1))), (Z.ltb_spec E n); done || lia.
  - rewrite <- (Zplus_mod_idemp_l (n - E)), <- (Zplus_mod_idemp_l (n mod 2 ^ 64 - E mod 2 ^ 64)). by rewrite Zminus_mod.
Qed.

Lemma calc_future_spec khz now msecs : calc_future_tsc khz (u64 now) msecs = u64 (now + khz * msecs).
Proof. unfold calc_future_tsc. by rewrite wrap_add_r, wrap_add_l. Qed.

(** ** Reading back the clock *)

Ltac cmos_simpl :=
  cbv beta iota delta [outb_cmos inb_cmos init_rtc set_mem cmos cmem dor CMOS_RTC_SECONDS CMOS_RTC_MINUTES CMOS_RTC_HOURS
    CMOS_RTC_DAY_MONTH CMOS_RTC_MONTH CMOS_RTC_YEAR CMOS_STATUS_A CMOS_STATUS_B CMOS_STATUS_C CMOS_CENTURY Z.eqb Pos.eqb].

Lemma dse_bit x v :
  Z.land (u8 (Z.lor (Z.lor (Z.land x (Z.lor RTC_B_PIE RTC_B_AIE)) RTC_B_24HR) (Z.land v RTC_B_DSE))) RTC_B_DSE = Z.land v RTC_B_DSE.
Proof.
  unfold wrap. rewrite <- Z.land_ones by lia. apply Z.bits_inj'. intros i Hi.
  rewrite !Z.land_spec, !Z.lor_spec, !Z.land_spec. destruct (Z.eq_dec i 0) as [->|].
  - cbn. rewrite !andb_false_r. cbn. rewrite !andb_true_r. done.
  - assert (Z.testbit RTC_B_DSE i = false) as ->; [|by rewrite !andb_false_r].
    change RTC_B_DSE with (2 ^ 0). rewrite Z.pow2_bits_eqb by lia. apply Z.eqb_neq. lia.
Qed.

(** C36.  A time that is set is the time that is read, whether or not the chip was updating
    when it was set; so is a date, when it was not. *)
Theorem clock_roundtrip fuel looks fuel' looks' s regs regs' busy :
  rtc_updating fuel looks = Some busy -> rtc_updating fuel' looks' = Some false ->
  (exists s1 r1 r2, handle_1a03 fuel looks s regs = Some (s1, r1) /\ handle_1a02 fuel' looks' s1 regs' = Some (s1, r2) /\
     cf r1 = false /\ cf r2 = false /\ dh r2 = dh regs /\ cl r2 = cl regs /\ ch r2 = ch regs /\ dl r2 = Z.land (dl regs) 1) /\
  (busy = false -> exists s1 r1 r2, handle_1a05 fuel looks s regs = Some (s1, r1) /\ handle_1a04 fuel' looks' s1 regs' = Some (s1, r2) /\
     cf r1 = false /\ cf r2 = false /\ cl r2 = cl regs /\ dh r2 = dh regs /\ dl r2 = dl regs /\ ch r2 = ch regs) /\
  (exists s1 r1 s2 r2, handle_1a01 s regs = Some (s1, r1) /\ handle_1a00 (fun s => s) s1 regs' = Some (s2, r2) /\
     cx r2 = cx regs /\ dx r2 = dx regs /\ al r2 = 0).
Proof.
  intros H1 H2. destruct regs as [rds res redi resi rebp rebx redx recx reax rfl], regs' as [ds' es' edi' esi' ebp' ebx' edx' ecx' eax' fl'].
  split_and!.
  - unfold handle_1a03, handle_1a02. rewrite H1, H2. cbn [mbind option_bind].
    eexists _, _, _. split; [reflexivity|]. split; [reflexivity|]. unfold set_success. rewrite !cf_set. reg_simpl.
    destruct busy; cmos_simpl; rewrite dse_bit, ?wrap_lo8, ?wrap_hi8, ?wrap_lo8, ?wrap_hi8; split_and!; try done.
    all: rewrite wrap_small; [done|]. all: change RTC_B_DSE with (Z.ones 1); rewrite Z.land_ones by lia; unfold in_u;
      pose proof (Z.mod_pos_bound (lo8 redx) (2 ^ 1)); lia.
  - intros ->. unfold handle_1a05, handle_1a04. rewrite H1, H2. cbn [mbind option_bind].
    eexists _, _, _. split; [reflexivity|]. split; [reflexivity|]. unfold set_success. rewrite !cf_set. reg_simpl.
    cmos_simpl. rewrite !wrap_lo8, !wrap_hi8, ?wrap_lo8, ?wrap_hi8. done.
  - unfold handle_1a01, handle_1a00. eexists _, _, _, _. split; [reflexivity|]. split; [reflexivity|]. reg_simpl.
    cbn [set_mem cmem]. set (m := writel _ _ _).
    assert (readl (writeb m timer_rollover 0) timer_counter = u32 (Z.lor (Z.shiftl (lo16 recx) 16) (lo16 redx))) as ->.
    { transitivity (readl m timer_counter).
      - apply readl_ext. intros x Hx. apply writeb_other. unfold timer_counter, timer_rollover in *. lia.
      - subst m. by rewrite readl_writel, wrap_idem by lia. }
    unfold readb. rewrite writeb_same.
    assert (in_u 16 (lo16 redx) /\ in_u 16 (lo16 recx)) as [I1 I2] by (split; apply wrap_range; lia).
    rewrite Z.lor_comm, lor_shiftl by (done || lia). rewrite (wrap_small 32) by (unfold in_u in *; lia).
    split_and!; [|by rewrite wrap_lo|done]. rewrite shiftr_hi by (done || lia). apply wrap_small. done.
Qed.

Lemma clock_roundtrip_witness :
  exists s1 r1 r2,
    handle_1a03 1 (fun _ => mk_look false false) (mk_clk (fun _ => 0) (fun _ => 0) 0)
      (mk_bregs 0 0 0 0 0 0 0x4501 0x2359 0x300 0) = Some (s1, r1) /\
    handle_1a02 1 (fun _ => mk_look false false) s1 (mk_bregs 0 0 0 0 0 0 0 0 0x200 0) = Some (s1, r2) /\
    cf r1 = false /\ cf r2 = false /\ dh r2 = 0x45 /\ cl r2 = 0x59 /\ ch r2 = 0x23 /\ dl r2 = 1.
Proof. by apply (clock_roundtrip 1 (fun _ => mk_look false false) 1 (fun _ => mk_look false false) _ (mk_bregs 0 0 0 0 0 0 0x4501 0x2359 0x300 0) _ false). Defined.

(** Turning the alarm off reports the value register B had, not the value written: with
    the alarm on, [al] and register B differ. *)
Theorem alarm_off_reports_old s regs :
  exists s' regs', handle_1a07 s regs = Some (s', regs') /\
    al regs' = u8 (cmos s CMOS_STATUS_B) /\
    cmos s' CMOS_STATUS_B = u8 (Z.ldiff (cmos s CMOS_STATUS_B) 0xa0) /\
    (cmos s CMOS_STATUS_B = 0x22 -> al regs' = 0x22 /\ cmos s' CMOS_STATUS_B = 0x02).
Proof.
  eexists _, _. split; [reflexivity|]. reg_simpl. cmos_simpl. split_and!; [done|done|]. intros ->. done.
Qed.

Lemma alarm_off_reports_old_witness :
  exists s' regs', handle_1a07 (mk_clk (fun _ => 0) (fun _ => 0x22) 0) (mk_bregs 0 0 0 0 0 0 0 0 0x700 0) = Some (s', regs') /\
    al regs' = 0x22 /\ cmos s' CMOS_STATUS_B = 0x02.
Proof.
  destruct (alarm_off_reports_old (mk_clk (fun _ => 0) (fun _ => 0x22) 0) (mk_bregs 0 0 0 0 0 0 0 0 0x700 0))
    as (s' & r' & E & _ & _ & H). exists s', r'. split; [exact E|by apply H].
Defined.

(** The 32-bit product of a delay wraps: at 3 GHz a delay of 2000 milliseconds counts the
    cycles of less than 569, and one of 1432 microseconds those of less than one. *)
Theorem delay_wraps :
  mdelay 3000000 2000 < 569 * 3000000 /\ udelay 3000000 1432 < 3000 /\
  calc_future_tsc 3000000 0 2000 = 2000 * 3000000.
Proof. by vm_compute. Qed.

(** A look at the clock chip ends: at the first look with no update in progress, or at
    the first after the time limit. *)
Theorem rtc_updating_returns looks k fuel :
  (k < fuel)%nat -> uip (looks (S k)) = false \/ expired (looks (S k)) = true ->
  exists b, rtc_updating fuel looks = Some b /\
    (b = true -> exists i, (i <= S k)%nat /\ expired (looks i) = true /\ forall j, (j <= i)%nat -> uip (looks j) = true).
Proof.
  intros Hk He. unfold rtc_updating. destruct (uip (looks 0%nat)) eqn:E0; simpl; [|by exists false].
  assert (forall n i, (i + n = S k)%nat -> (1 <= i)%nat -> (forall j, (j < i)%nat -> uip (looks j) = true) ->
    forall fuel, (n < fuel)%nat -> exists b, updating_loop fuel looks i = Some b /\
    (b = true -> exists i, (i <= S k)%nat /\ expired (looks i) = true /\ forall j, (j <= i)%nat -> uip (looks j) = true)) as H.
  { induction n as [|n IH]; intros i Hi H1 Hj f Hf; (destruct f as [|f]; [lia|]); simpl;
      destruct (uip (looks i)) eqn:Eu; simpl; try (by exists false).
    - replace i with (S k) in * by lia. destruct He as [He|He]; [congruence|]. rewrite He. exists true.
      split; [done|]. intros _. exists (S k). split_and!; [lia|done|]. intros j Hj'.
      destruct (decide (j = S k)) as [->|]; [done|apply Hj; lia].
    - destruct (expired (looks i)) eqn:Ee.
      + exists true. split; [done|]. intros _. exists i. split_and!; [lia|done|]. intros j Hj'.
        destruct (decide (j = i)) as [->|]; [done|apply Hj; lia].
      + apply IH; [lia|lia| |lia]. intros j Hj'. destruct (decide (j = i)) as [->|]; [done|apply Hj; lia]. }
  apply (H k 1%nat); [lia|lia| |lia]. intros j Hj. by replace j with 0%nat by lia.
Qed.

Lemma rtc_updating_returns_witness :
  exists b, rtc_updating 4 (fun i => mk_look true (bool_decide (i = 3)%nat)) = Some b /\
    (b = true -> exists i, (i <= 3)%nat /\ expired (mk_look true (bool_decide (i = 3)%nat)) = true /\
      forall j, (j <= i)%nat -> true = true).
Proof. apply (rtc_updating_returns (fun i => mk_look true (bool_decide (i = 3)%nat)) 2 4); [lia|by right]. Defined.

(** ** The tick count *)

(** [n] timer interrupts with nothing in the user handler. *)
Definition tick_n (n : nat) (s : clk) : clk := Nat.iter n (handle_08 (fun s => s)) s.

Lemma floppy_tick_frame s x : x <> floppy_motor_counter -> cmem (floppy_tick s) x = cmem s x.
Proof.
  intros Hx. unfold floppy_tick. destruct (negb _); [|done]. destruct (_ =? 0); cbn [cmem set_mem]; by rewrite writeb_other.
Qed.

Lemma bytes_floppy_tick s : bytes (cmem s) -> bytes (cmem (floppy_tick s)).
Proof.
  intros Hb. unfold floppy_tick. destruct (negb _); [|done]. destruct (_ =? 0); cbn [cmem set_mem]; by apply bytes_writeb.
Qed.

Lemma handle_08_step s c r :
  bytes (cmem s) -> readl (cmem s) timer_counter = c -> c < TICKS_PER_DAY -> cmem s timer_rollover = r ->
  let s' := handle_08 (fun s => s) s in
  bytes (cmem s') /\
  readl (cmem s') timer_counter = (c + 1) mod TICKS_PER_DAY /\
  cmem s' timer_rollover = u8 (r + (c + 1) / TICKS_PER_DAY).
Proof.
  intros Hb Hc Hlt Hr. unfold handle_08.
  set (m := cmem (floppy_tick s)).
  assert (bytes m) as Hm by by apply bytes_floppy_tick.
  assert (readl m timer_counter = c) as Ec.
  { rewrite <- Hc. apply readl_ext. intros x Hx. apply floppy_tick_frame. unfold timer_counter, floppy_motor_counter in *. lia. }
  assert (m timer_rollover = r) as Er by (rewrite <- Hr; by apply floppy_tick_frame).
  rewrite Ec. pose proof (readl_range m timer_counter Hm) as Hrange. rewrite Ec in Hrange.
  assert (TICKS_PER_DAY = 1573040) as ED by by vm_compute. unfold in_u in Hrange.
  rewrite (wrap_small 32 (c + 1)) by (unfold in_u; lia). pose proof (Hm timer_rollover) as Ir. rewrite Er in Ir.
  assert (forall m' v, writel m' timer_counter v timer_rollover = m' timer_rollover) as Hroll.
  { intros. apply writel_other. unfold timer_counter, timer_rollover. lia. }
  case_test; cbn [cmem set_mem]; rewrite readl_writel, Hroll.
  - replace (c + 1) with TICKS_PER_DAY by lia. rewrite Z.mod_same, Z.div_same by lia.
    unfold readb. rewrite writeb_same, Er. split_and!; [by apply bytes_writel, bytes_writeb|done|done].
  - rewrite Z.mod_small, Z.div_small, Z.add_0_r by lia. rewrite Er, !wrap_small by (done || unfold in_u; lia).
    split_and!; [by apply bytes_writel|done|done].
Qed.

(** The tick count wraps at midnight, and each wrap is counted: after [n] interrupts it
    is the sum modulo a day, with the days passed added to the rollover count. *)
Theorem timer_ticks n s c r :
  bytes (cmem s) -> readl (cmem s) timer_counter = c -> c < TICKS_PER_DAY -> cmem s timer_rollover = r ->
  readl (cmem (tick_n n s)) timer_counter = (c + Z.of_nat n) mod TICKS_PER_DAY /\
  cmem (tick_n n s) timer_rollover = u8 (r + (c + Z.of_nat n) / TICKS_PER_DAY).
Proof.
  intros Hb Hc Hlt Hr. pose proof (readl_range _ timer_counter Hb) as Hrange. rewrite Hc in Hrange. unfold in_u in Hrange.
  assert (TICKS_PER_DAY = 1573040) as ED by by vm_compute.
  assert (bytes (cmem (tick_n n s)) /\ readl (cmem (tick_n n s)) timer_counter = (c + Z.of_nat n) mod TICKS_PER_DAY /\
    cmem (tick_n n s) timer_rollover = u8 (r + (c + Z.of_nat n) / TICKS_PER_DAY)) as (_ & H1 & H2); [|done].
  induction n as [|n (IHb & IHc & IHr)].
  - simpl. rewrite Z.add_0_r, Z.mod_small, Z.div_small, Z.add_0_r by lia. split_and!; [done|done|].
    rewrite wrap_small; [done|]. rewrite <- Hr. apply Hb.
  - change (tick_n (S n) s) with (handle_08 (fun s => s) (tick_n n s)).
    pose proof (Z.mod_pos_bound (c + Z.of_nat n) TICKS_PER_DAY ltac:(lia)) as Hm.
    destruct (handle_08_step (tick_n n s) _ _ IHb IHc ltac:(lia) IHr) as (Hb' & Hc' & Hr').
    split; [done|]. rewrite Hc', Hr', wrap_add_l. rewrite Zplus_mod_idemp_l. split; [f_equal; lia|]. f_equal.
    rewrite <- Z.add_assoc. f_equal.
    set (x := c + Z.of_nat n) in *. replace (c + Z.of_nat (S n)) with (x + 1) by lia.
    rewrite (Z.div_mod x TICKS_PER_DAY) at 3 by lia. rewrite <- (Z.add_assoc (_ * _)), Z.mul_comm, Z.div_add_l by lia. done.
Qed.

Lemma timer_ticks_witness :
  readl (cmem (tick_n 3 (mk_clk (writel (fun _ => 0) timer_counter 1573038) (fun _ => 0) 0))) timer_counter = 1 /\
  cmem (tick_n 3 (mk_clk (writel (fun _ => 0) timer_counter 1573038) (fun _ => 0) 0)) timer_rollover = 1.
Proof.
  apply (timer_ticks 3 (mk_clk (writel (fun _ => 0) timer_counter 1573038) (fun _ => 0) 0) 1573038 0).
  - apply bytes_writel. intros a. unfold in_u. lia.
  - done.
  - by vm_compute.
  - done.
Defined.

(** ** Waiting for the periodic timer *)

Section Wait.
Context (ss sp : Z) (Hss : in_u 16 ss) (Hsp : in_u 16 sp).
Notation addr := (ss * 16 + sp).

(** The state while nobody waits, and while a wait of [t] microseconds is pending. *)
Definition apart (m : memory) : Prop :=
  0x500 <= addr /\ 0x500 <= RTCusers m /\ (addr < RTCusers m \/ RTCusers m + 4 <= addr).

Definition timer_idle (s : clk) : Prop :=
  bytes (cmem s) /\ apart (cmem s) /\ cmem s rtc_wait_flag = 0 /\ readl (cmem s) (RTCusers (cmem s)) = 0.

Definition timer_pending (s : clk) (t : Z) : Prop :=
  bytes (cmem s) /\ apart (cmem s) /\ cmem s rtc_wait_flag = 1 /\ readl (cmem s) (RTCusers (cmem s)) = 1 /\
  readw (cmem s) (user_wait_complete_flag + 2) = ss /\ readw (cmem s) user_wait_complete_flag = sp /\
  readl (cmem s) user_wait_timeout = t /\ cmem s addr = 0 /\
  Z.testbit (cmos s CMOS_STATUS_B) 6 = true /\ cmos s CMOS_STATUS_C = RTC_B_PIE.

Definition periodic (s : clk) : clk := handle_70 (fun s => s) s.

Ltac clk_addr := unfold apart, rtc_wait_flag, user_wait_complete_flag, user_wait_timeout in *.

(** Writes that leave the segment of the EBDA alone. *)
Lemma RTCusers_ext m m' :
  m' (bda "ebda_seg") = m (bda "ebda_seg") -> m' (bda "ebda_seg" + 1) = m (bda "ebda_seg" + 1) -> RTCusers m' = RTCusers m.
Proof. intros H1 H2. unfold RTCusers, ebda, get_ebda_seg. by rewrite (readw_ext m m'). Qed.

Lemma pie_land x : Z.testbit x 6 = true -> (Z.land x (Z.lor RTC_B_PIE RTC_B_AIE) =? 0) = false.
Proof.
  intros Hx. apply Z.eqb_neq. intros E. apply (f_equal (fun z => Z.testbit z 6)) in E. cbv beta in E.
  rewrite Z.land_spec, Hx, Z.bits_0 in E. done.
Qed.

Lemma timer_step s t :
  timer_pending s t -> USEC_PER_RTC <= t -> timer_pending (periodic s) (t - USEC_PER_RTC).
Proof using All.
  intros (Hb & (A1 & A2 & A3) & Hw & Hu & Hg & Ho & Ht & Hf & HB & HC) Hge.
  unfold periodic, handle_70, inb_cmos. rewrite pie_land, HC by done. change (Z.land RTC_B_PIE RTC_B_AIE =? 0) with true.
  change (Z.land RTC_B_PIE RTC_B_PIE =? 0) with false. cbv zeta. cbn [negb]. cbn iota. unfold readb. rewrite Hw, Ht. change (1 =? 0) with false. cbn [negb].
  rewrite (proj2 (Z.ltb_ge _ _)) by done.
  pose proof (readl_range _ user_wait_timeout Hb) as Hr. rewrite Ht in Hr. assert (USEC_PER_RTC = 977) as E977 by by vm_compute.
  set (m := writel _ _ _).
  assert (forall x, x < user_wait_timeout \/ user_wait_timeout + 4 <= x -> m x = cmem s x) as Hm by (intros; by apply writel_other).
  assert (RTCusers m = RTCusers (cmem s)) as EU.
  { apply RTCusers_ext; apply Hm; change (bda "ebda_seg") with 1038; clk_addr; lia. }
  unfold timer_pending. cbn [cmem cmos set_mem]. unfold apart. rewrite EU. split_and!; try done.
  - by apply bytes_writel.
  - rewrite <- Hu. apply readl_ext. intros x Hx. apply Hm. clk_addr. lia.
  - subst m. rewrite readl_writel, wrap_small; [done|]. unfold in_u in *. lia.
  - rewrite Hm by (clk_addr; lia). done.
Qed.

(** The last interrupt sets the flag, ends the wait and turns the timer off. *)
Lemma timer_last s t :
  timer_pending s t -> t < USEC_PER_RTC ->
  timer_idle (periodic s) /\ cmem (periodic s) addr = 0x80 /\ Z.testbit (cmos (periodic s) CMOS_STATUS_B) 6 = false.
Proof using All.
  intros (Hb & (A1 & A2 & A3) & Hw & Hu & Hg & Ho & Ht & Hf & HB & HC) Hlt.
  unfold periodic, handle_70, inb_cmos. rewrite pie_land, HC by done. change (Z.land RTC_B_PIE RTC_B_AIE =? 0) with true.
  change (Z.land RTC_B_PIE RTC_B_PIE =? 0) with false. cbv zeta. cbn [negb]. cbn iota. unfold readb. rewrite Hw, Ht, Hg, Ho, Hf. change (1 =? 0) with false. cbn [negb].
  rewrite (proj2 (Z.ltb_lt _ _)) by done. change (Z.lor 0 128) with 128. set (m1 := writeb (cmem s) addr 128).
  assert (m1 rtc_wait_flag = 1) as Hw1 by (subst m1; rewrite writeb_other by (clk_addr; lia); done).
  unfold clear_usertimer. cbn [cmem set_mem]. unfold readb. rewrite Hw1. change (Z.land 1 RWS_WAIT_PENDING =? 0) with false. cbn iota.
  unfold releaseRTC. cbn [cmem set_mem]. set (m2 := writeb m1 rtc_wait_flag 0).
  assert (forall x, x <> addr -> x <> rtc_wait_flag -> m2 x = cmem s x) as Hm2 by (intros; subst m2 m1; by rewrite !writeb_other).
  assert (RTCusers m2 = RTCusers (cmem s)) as EU.
  { apply RTCusers_ext; apply Hm2; change (bda "ebda_seg") with 1038; clk_addr; lia. }
  assert (readl m2 (RTCusers m2) = 1) as Eu.
  { rewrite EU, <- Hu. apply readl_ext. intros x Hx. apply Hm2; clk_addr; lia. }
  rewrite Eu, EU. change (s32 1) with 1. change (negb (1 =? 1)) with false. cbn iota.
  set (m3 := writel m2 (RTCusers (cmem s)) (1 - 1)).
  assert (forall x, x < RTCusers (cmem s) \/ RTCusers (cmem s) + 4 <= x -> m3 x = m2 x) as Hm3 by (intros; by apply writel_other).
  assert (RTCusers m3 = RTCusers (cmem s)) as EU3.
  { rewrite <- EU. apply RTCusers_ext; apply Hm3; change (bda "ebda_seg") with 1038; clk_addr; lia. }
  unfold timer_idle. cmos_simpl. unfold apart. rewrite EU3. split_and!; try done.
  - by apply bytes_writel, bytes_writeb, bytes_writeb.
  - rewrite Hm3 by (clk_addr; lia). subst m2. by rewrite writeb_same.
  - subst m3. by rewrite readl_writel.
  - rewrite Hm3 by (clk_addr; lia). subst m2 m1. rewrite writeb_other, writeb_same by (clk_addr; lia). done.
  - unfold wrap. rewrite Z.mod_pow2_bits_low, Z.ldiff_spec by lia. change (Z.testbit RTC_B_PIE 6) with true. by rewrite andb_false_r.
Qed.

Lemma wait_flag_pending n s t fuel i :
  timer_pending s t -> Z.of_nat n = t / USEC_PER_RTC -> 0 <= t ->
  (forall s', wait_flag fuel (fun _ => periodic) i s addr = Some s' ->
     timer_idle s' /\ Z.testbit (cmos s' CMOS_STATUS_B) 6 = false) /\
  (is_Some (wait_flag fuel (fun _ => periodic) i s addr) <-> (S n < fuel)%nat).
Proof using All.
  assert (USEC_PER_RTC = 977) as E977 by by vm_compute.
  revert s t fuel i. induction n as [|n IH]; intros s t fuel i Hp Hn Ht.
  - assert (t < USEC_PER_RTC) as Hlt by (rewrite E977 in *; Z.to_euclidean_division_equations; lia).
    destruct (timer_last s t Hp Hlt) as (Hi & Hf & HB). pose proof Hp as (_ & _ & _ & _ & _ & _ & _ & Hz & _).
    destruct fuel as [|[|fuel]]; simpl; unfold readb; rewrite ?Hz; simpl; rewrite ?Hf; simpl.
    1, 2: split; [done|]; split; [by intros [? ?]|lia].
    split; [by intros s' [= <-]|]. split; [lia|]. by eexists.
  - assert (USEC_PER_RTC <= t /\ Z.of_nat n = (t - USEC_PER_RTC) / USEC_PER_RTC) as [Hge Hn']
      by (rewrite E977 in *; Z.to_euclidean_division_equations; lia).
    pose proof (timer_step s t Hp Hge) as Hp'. pose proof Hp as (_ & _ & _ & _ & _ & _ & _ & Hz & _).
    destruct fuel as [|fuel]; simpl; unfold readb; rewrite ?Hz; simpl.
    + split; [done|]. split; [by intros [? ?]|lia].
    + destruct (IH (periodic s) _ fuel (S i) Hp' Hn' ltac:(lia)) as [H1 H2]. split; [done|]. rewrite H2. lia.
Qed.
End Wait.

Lemma set_usertimer_pending ss sp s t :
  in_u 16 ss -> in_u 16 sp -> in_u 32 t -> timer_idle ss sp s -> cmem s (ss * 16 + sp) = 0 -> cmos s CMOS_STATUS_C = RTC_B_PIE ->
  exists s', set_usertimer s t ss sp = Some s' /\ timer_pending ss sp s' t.
Proof.
  intros Hss Hsp Ht (Hb & (A1 & A2 & A3) & Hw & Hu) Hf HC. unfold set_usertimer, readb. rewrite Hw.
  change (Z.land 0 RWS_WAIT_PENDING =? 0) with true. cbn [negb]. cbn iota.
  set (m1 := writeb _ rtc_wait_flag _). set (m2 := writew (writew m1 _ _) _ _). set (m3 := writel m2 _ _).
  assert (forall x, x < user_wait_complete_flag \/ rtc_wait_flag < x -> m3 x = cmem s x) as Hm3.
  { intros x Hx. subst m3 m2 m1. unfold rtc_wait_flag, user_wait_complete_flag, user_wait_timeout in *.
    by rewrite writel_other, !writew_other, writeb_other by lia. }
  assert (RTCusers m3 = RTCusers (cmem s)) as EU.
  { apply RTCusers_ext; apply Hm3; change (bda "ebda_seg") with 1038; unfold user_wait_complete_flag; lia. }
  assert (readl m3 (RTCusers m3) = 0) as Eu.
  { rewrite EU, <- Hu. apply readl_ext. intros x Hx. apply Hm3. unfold rtc_wait_flag. lia. }
  unfold useRTC. cbn [cmem set_mem]. rewrite Eu, EU. change (s32 0) with 0. change (negb (0 =? 0)) with false. cbn iota.
  set (m4 := writel m3 _ _).
  assert (forall x, x < RTCusers (cmem s) \/ RTCusers (cmem s) + 4 <= x -> m4 x = m3 x) as Hm4 by (intros; by apply writel_other).
  assert (RTCusers m4 = RTCusers (cmem s)) as EU4.
  { rewrite <- EU. apply RTCusers_ext; apply Hm4; change (bda "ebda_seg") with 1038; lia. }
  eexists. split; [reflexivity|]. unfold timer_pending. cmos_simpl. unfold apart. rewrite EU4.
  assert (forall x, x < 0x500 -> m4 x = m3 x) as Hlow by (intros; apply Hm4; lia).
  split_and!; try done.
  - apply bytes_writel, bytes_writel, bytes_writew, bytes_writew, bytes_writeb. done.
  - rewrite Hlow by done. subst m3 m2 m1. unfold rtc_wait_flag, user_wait_complete_flag, user_wait_timeout.
    by rewrite writel_other, !writew_other, writeb_same by lia.
  - subst m4. by rewrite readl_writel.
  - rewrite (readw_ext m3), (readw_ext m2) by (first [apply Hlow; unfold user_wait_complete_flag; lia
      |apply writel_other; unfold user_wait_complete_flag, user_wait_timeout; lia]).
    subst m2. rewrite readw_writew. by apply wrap_small.
  - rewrite (readw_ext m3), (readw_ext m2) by (first [apply Hlow; unfold user_wait_complete_flag; lia
      |apply writel_other; unfold user_wait_complete_flag, user_wait_timeout; lia]).
    subst m2. rewrite readw_writew_ne, readw_writew by lia. by apply wrap_small.
  - rewrite (readl_ext m3) by (intros; apply Hlow; unfold user_wait_timeout in *; lia).
    subst m3. rewrite readl_writel. by apply wrap_small.
  - rewrite Hm4, Hm3 by (unfold rtc_wait_flag; lia). done.
  - unfold wrap. rewrite Z.mod_pow2_bits_low, Z.lor_spec by lia. change (Z.testbit RTC_B_PIE 6) with true. by rewrite orb_true_r.
Qed.

(** C13.  A wait of [cx:dx] microseconds returns after exactly one periodic interrupt more than
    the wait holds periods, not before, with the timer idle and switched off again. *)
Theorem user_wait_completes fuel ss sp s regs :
  in_u 16 ss -> in_u 16 sp -> timer_idle ss sp s -> cmos s CMOS_STATUS_C = RTC_B_PIE ->
  let usecs := cx regs * 65536 + dx regs in
  let interrupts := Z.to_nat (usecs / USEC_PER_RTC + 1) in
  ((interrupts < fuel)%nat ->
   exists s' regs', handle_1586 fuel (fun _ => periodic) ss sp s regs = Some (s', regs') /\ cf regs' = false /\
     timer_idle ss sp s' /\ Z.testbit (cmos s' CMOS_STATUS_B) 6 = false) /\
  ((fuel <= interrupts)%nat -> handle_1586 fuel (fun _ => periodic) ss sp s regs = None).
Proof.
  intros Hss Hsp Hi HC usecs interrupts. unfold handle_1586.
  assert (in_u 16 (cx regs) /\ in_u 16 (dx regs)) as [Icx Idx] by (split; apply wrap_range; lia).
  rewrite Z.lor_comm, lor_shiftl by (done || lia). rewrite (wrap_small 32) by (unfold in_u in *; lia).
  replace (dx regs + cx regs * 2 ^ 16) with usecs by (subst usecs; lia).
  assert (in_u 32 usecs) as Iu by (subst usecs; unfold in_u in *; lia).
  set (s0 := set_mem s _). destruct Hi as (Hb & (A1 & A2 & A3) & Hw & Hu).
  assert (RTCusers (cmem s0) = RTCusers (cmem s)) as EU.
  { apply RTCusers_ext; apply writeb_other; change (bda "ebda_seg") with 1038; lia. }
  destruct (set_usertimer_pending ss sp s0 usecs Hss Hsp Iu) as (s1 & -> & Hp).
  { unfold timer_idle, apart. rewrite EU. subst s0. cbn [cmem set_mem]. split_and!; try done.
    - by apply bytes_writeb.
    - rewrite writeb_other; [done|]. unfold rtc_wait_flag. lia.
    - rewrite <- Hu. apply readl_ext. intros x Hx. apply writeb_other. lia. }
  { subst s0. cbn [cmem set_mem]. by rewrite writeb_same. }
  { done. }
  assert (USEC_PER_RTC = 977) as E977 by by vm_compute.
  assert (0 <= usecs / USEC_PER_RTC) as Hdiv by (apply Z.div_pos; unfold in_u in *; lia).
  destruct (wait_flag_pending ss sp Hss Hsp (Z.to_nat (usecs / USEC_PER_RTC)) s1 usecs fuel 0 Hp ltac:(lia) ltac:(apply Iu))
    as [H1 H2].
  replace (S (Z.to_nat (usecs / USEC_PER_RTC))) with interrupts in H2 by (subst interrupts; lia). split.
  - intros Hf. destruct (proj2 H2 Hf) as [s2 E2]. rewrite E2. destruct (H1 s2 E2) as [Hi2 HB2].
    eexists _, _. split; [reflexivity|]. split; [apply cf_set|]. done.
  - intros Hf. destruct (wait_flag _ _ _ _ _) eqn:E; [|done]. exfalso.
    assert (interrupts < fuel)%nat by (apply H2; by eexists). lia.
Qed.

Definition demo_clk : clk :=
  mk_clk (writew (fun _ => 0) (bda "ebda_seg") 0x9fc0) (fun r => if r =? CMOS_STATUS_C then RTC_B_PIE else 0) 0.

Lemma user_wait_completes_witness :
  exists s' regs', handle_1586 5 (fun _ => periodic) 0x700 0x10 demo_clk (mk_bregs 0 0 0 0 0 0 2000 0 0x8600 0) = Some (s', regs') /\
    cf regs' = false /\ timer_idle 0x700 0x10 s' /\ Z.testbit (cmos s' CMOS_STATUS_B) 6 = false.
Proof.
  apply (user_wait_completes 5 0x700 0x10 demo_clk (mk_bregs 0 0 0 0 0 0 2000 0 0x8600 0)).
  - unfold in_u. lia.
  - unfold in_u. lia.
  - unfold timer_idle, apart. split_and!; [apply bytes_writew; intros a; unfold in_u; lia|by vm_compute|by vm_compute| |done|done].
    left. by vm_compute.
  - done.
  - vm_compute. lia.
Defined.
