(* ===== verification/Stacks.v ===== *)
(** * Cooperative threads: [bios/seabios/src/stacks.c]

    Threads are linked in a ring of [thread_info] records, with [MainThread] always in it.
    A stack is what will run when it is resumed, a list of calls into this file and of
    other work; the assembly that stores one stack pointer and loads another is the store
    and load of that list in [stackpos].  The machine is proved to be a list of threads
    that is rotated, from which mutual exclusion and the termination of [wait_threads]
    follow.  Interrupts that [yield] lets in do not touch this state, except through
    [check_preempt], which is a call of its own here. *)

From S2P Require Import Prelude BiosUtil.

(** ** Data *)

(** What a thread does, between the calls that matter here. *)
Inductive op :=
| Do (e : Z)
| Yield
| Mutex_lock (k : Z)
| Mutex_unlock (k : Z)
| Run_thread (body : list op)
| Wait_threads
| Start_preempt
| Check_preempt
| Finish_preempt
| Wait_preempt.

Record thread_info := mk_thread { next : Z; stackpos : list op; pprev : Z }.

(** [code] is the running stack, [mutexes] the mutexes with [isLocked] set.  [pprev] points
    to a [next] field, which is at the address of its record. *)
Record machine := mk_machine {
  infos : gmap Z thread_info;
  cur : Z;
  code : list op;
  mutexes : gset Z;
  CanPreempt : bool;
  PreemptCount : Z;
  done : list (Z * Z)
}.

Definition THREADSTACKSIZE : Z := 4096.
Definition BUILD_STACK_ADDR : Z := 0x7000.

(** [main] is the address of [MainThread]; [memalign_tmphigh] may depend on the threads
    there are and on what was done before. *)
Section Threads.
Context (main : Z) (memalign_tmphigh : gset Z -> list (Z * Z) -> Z).
Context (CONFIG_THREAD_OPTIONROMS : bool).

Definition getCurThread (esp : Z) : Z :=
  if esp <=? BUILD_STACK_ADDR then main else ALIGN_DOWN esp THREADSTACKSIZE.

(** The state after [thread_setup], about to run [c]. *)
Definition thread_setup (c : list op) : machine :=
  mk_machine {[main := mk_thread main [] main]} main c ∅ false 0 [].

(** ** Operations *)

Definition set_infos (s : machine) h := mk_machine h (cur s) (code s) (mutexes s) (CanPreempt s) (PreemptCount s) (done s).
Definition set_code (s : machine) c := mk_machine (infos s) (cur s) c (mutexes s) (CanPreempt s) (PreemptCount s) (done s).
Definition set_mutexes (s : machine) l := mk_machine (infos s) (cur s) (code s) l (CanPreempt s) (PreemptCount s) (done s).
Definition set_preempt (s : machine) b n := mk_machine (infos s) (cur s) (code s) (mutexes s) b n (done s).
Definition log (s : machine) e := mk_machine (infos s) (cur s) (code s) (mutexes s) (CanPreempt s) (PreemptCount s) (done s ++ [(cur s, e)]).

Definition set_next (h : gmap Z thread_info) (a v : Z) : outcome (gmap Z thread_info) :=
  let! i := of_option (h !! a) in Ok (<[a := mk_thread v (stackpos i) (pprev i)]> h).
Definition set_pprev (h : gmap Z thread_info) (a v : Z) : outcome (gmap Z thread_info) :=
  let! i := of_option (h !! a) in Ok (<[a := mk_thread (next i) (stackpos i) v]> h).
Definition set_stackpos (h : gmap Z thread_info) (a : Z) (v : list op) : outcome (gmap Z thread_info) :=
  let! i := of_option (h !! a) in Ok (<[a := mk_thread (next i) v (pprev i)]> h).

(** Store the running stack in [c], run the one of [n]. *)
Definition switch_stack (s : machine) (c n : Z) : outcome machine :=
  let! h := set_stackpos (infos s) c (code s) in
  let! i := of_option (h !! n) in
  Ok (mk_machine h n (stackpos i) (mutexes s) (CanPreempt s) (PreemptCount s) (done s)).

Definition switch_next (s : machine) (c : Z) : outcome machine :=
  let! i := of_option (infos s !! c) in
  if c =? next i then Ok s else switch_stack s c (next i).

Definition yield (s : machine) : outcome machine := switch_next s (cur s).

Definition __end_thread (h : gmap Z thread_info) (old : Z) : outcome (gmap Z thread_info) :=
  let! i := of_option (h !! old) in
  let! h := set_pprev h (next i) (pprev i) in
  let! i := of_option (h !! old) in
  let! h := set_next h (pprev i) (next i) in
  Ok (delete old h).

(** The part of [run_thread] after [func] returns: the next thread's stack is loaded and
    [__end_thread] runs on it. *)
Definition end_thread (s : machine) : outcome machine :=
  let! i := of_option (infos s !! cur s) in
  let! n := of_option (infos s !! next i) in
  let! h := __end_thread (infos s) (cur s) in
  Ok (mk_machine h (next i) (stackpos n) (mutexes s) (CanPreempt s) (PreemptCount s) (done s)).

(** Linking a new record before the running thread. *)
Definition insert_thread (h : gmap Z thread_info) (t thread : Z) (body : list op) : outcome (gmap Z thread_info) :=
  let! c := of_option (h !! t) in
  let h := <[thread := mk_thread t body (pprev c)]> h in
  let! h := set_pprev h t thread in
  let! i := of_option (h !! thread) in
  set_next h (pprev i) thread.

(** The new thread starts at once; without memory [body] is an ordinary call. *)
Definition run_thread (s : machine) (body : list op) : outcome machine :=
  let thread := memalign_tmphigh (dom (infos s)) (done s) in
  if thread =? 0 then Ok (set_code s (body ++ code s))
  else
    let! h := insert_thread (infos s) (cur s) thread body in
    switch_stack (set_infos s h) (cur s) thread.

(** A waiting loop tests, and calls [yield] to return to the same test. *)
Definition wait_while (b : bool) (s : machine) (rest : list op) : outcome machine :=
  if b then yield s else Ok (set_code s rest).

Definition wait_threads (s : machine) (rest : list op) : outcome machine :=
  let! i := of_option (infos s !! main) in
  wait_while (negb (next i =? main)) s rest.

Definition mutex_lock (s : machine) (k : Z) (rest : list op) : outcome machine :=
  if bool_decide (k ∈ mutexes s) then yield s
  else Ok (set_code (set_mutexes s ({[k]} ∪ mutexes s)) rest).

Definition mutex_unlock (s : machine) (k : Z) : machine := set_mutexes s (mutexes s ∖ {[k]}).

(** The clock interrupt these two turn on and off is in [Clock]. *)
Definition start_preempt (s : machine) : machine :=
  if CONFIG_THREAD_OPTIONROMS then set_preempt s true 0 else s.
Definition finish_preempt (s : machine) : outcome machine :=
  yield (if CONFIG_THREAD_OPTIONROMS then set_preempt s false (PreemptCount s) else s).

Definition wait_preempt (s : machine) (rest : list op) : outcome machine :=
  wait_while (CONFIG_THREAD_OPTIONROMS && CanPreempt s) s rest.

Definition yield_preempt (s : machine) : outcome machine :=
  switch_next (set_preempt s (CanPreempt s) (u32 (PreemptCount s + 1))) main.

Definition check_preempt (s : machine) : outcome machine :=
  let! i := of_option (infos s !! main) in
  if negb CONFIG_THREAD_OPTIONROMS || negb (CanPreempt s) || (next i =? main) then Ok s else yield_preempt s.

(** The next call of the running thread; [MainThread] does not end. *)
Definition step (s : machine) : outcome machine :=
  match code s with
  | [] => if cur s =? main then Ok s else end_thread s
  | o :: rest =>
      match o with
      | Do e => Ok (log (set_code s rest) e)
      | Yield => yield (set_code s rest)
      | Mutex_lock k => mutex_lock s k rest
      | Mutex_unlock k => Ok (mutex_unlock (set_code s rest) k)
      | Run_thread body => run_thread (set_code s rest) body
      | Wait_threads => wait_threads s rest
      | Start_preempt => Ok (start_preempt (set_code s rest))
      | Check_preempt => check_preempt (set_code s rest)
      | Finish_preempt => finish_preempt (set_code s rest)
      | Wait_preempt => wait_preempt s rest
      end
  end.

Fixpoint run (n : nat) (s : machine) : outcome machine :=
  match n with O => Ok s | S n => let! s := step s in run n s end.
End Threads.

(** ** Specification: a list of threads that is rotated *)

(** The first thread of [ring] runs. *)
Record threads := mk_threads {
  ring : list (Z * list op);
  locked : gset Z;
  preempt : bool;
  history : list (Z * Z)
}.

Section Spec.
Context (main : Z) (memalign_tmphigh : gset Z -> list (Z * Z) -> Z) (optionroms : bool).

Definition set_ring (a : threads) r := mk_threads r (locked a) (preempt a) (history a).

Definition spec_step (a : threads) : threads :=
  match ring a with
  | [] => a
  | (t, []) :: r => if t =? main then a else set_ring a r
  | (t, o :: c) :: r =>
      let continue := (t, c) :: r in
      let rotate := r ++ [(t, c)] in
      let retry := r ++ [(t, o :: c)] in
      match o with
      | Do e => mk_threads continue (locked a) (preempt a) (history a ++ [(t, e)])
      | Yield => set_ring a rotate
      | Mutex_lock k =>
          if bool_decide (k ∈ locked a) then set_ring a retry
          else mk_threads continue ({[k]} ∪ locked a) (preempt a) (history a)
      | Mutex_unlock k => mk_threads continue (locked a ∖ {[k]}) (preempt a) (history a)
      | Run_thread body =>
          let n := memalign_tmphigh (list_to_set (t :: r.*1)) (history a) in
          set_ring a (if n =? 0 then (t, body ++ c) :: r else (n, body) :: continue)
      | Wait_threads => set_ring a (if r is [] then continue else retry)
      | Start_preempt => mk_threads continue (locked a) (optionroms || preempt a) (history a)
      | Check_preempt => set_ring a (if optionroms && preempt a then rotate else continue)
      | Finish_preempt => mk_threads rotate (locked a) (negb optionroms && preempt a) (history a)
      | Wait_preempt => set_ring a (if optionroms && preempt a then retry else continue)
      end
  end.

Definition spec_setup (c : list op) : threads := mk_threads [(main, c)] ∅ false [].

(** [Check_preempt] is the interrupt of the main thread only. *)
Fixpoint plain_op (o : op) : bool :=
  match o with
  | Check_preempt => false
  | Run_thread body => forallb plain_op body
  | _ => true
  end.
Fixpoint main_op (o : op) : bool :=
  match o with
  | Run_thread body => forallb plain_op body
  | _ => true
  end.
End Spec.

(** ** The ring of records *)

Definition link (h : gmap Z thread_info) (ab : Z * Z) : Prop :=
  (next <$> h !! ab.1) = Some ab.2 /\ (pprev <$> h !! ab.2) = Some ab.1.

(** The links from [x] through [l] to [e]. *)
Definition path (x : Z) (l : list Z) (e : Z) : list (Z * Z) := zip (x :: l) (l ++ [e]).

Lemma path_cons x y l e : path x (y :: l) e = (x, y) :: path y l e.
Proof. done. Qed.

Lemma path_snoc x l z e : path x (l ++ [z]) e = path x l z ++ [(z, e)].
Proof. revert x. induction l as [|y l IH]; intros x; [done|]. rewrite <- app_comm_cons, !path_cons, IH. done. Qed.

Lemma path_rotate x y l : path y (l ++ [x]) y ≡ₚ path x (y :: l) x.
Proof. rewrite path_snoc, path_cons. by rewrite Permutation_app_comm. Qed.

Lemma elem_of_path a b x l e : (a, b) ∈ path x l e -> a ∈ x :: l /\ b ∈ l ++ [e].
Proof. intros H. split; [by eapply elem_of_zip_l|by eapply elem_of_zip_r]. Qed.

Lemma path_fst x l e a : a ∈ x :: l -> exists b, (a, b) ∈ path x l e.
Proof.
  revert x. induction l as [|y l IH]; intros x Ha.
  - apply list_elem_of_singleton in Ha as ->. exists e. apply list_elem_of_here.
  - rewrite path_cons. apply elem_of_cons in Ha as [->|Ha]; [exists y; apply list_elem_of_here|].
    destruct (IH y Ha) as [b Hb]. exists b. by apply list_elem_of_further.
Qed.

(** No link of a ring of two or more is a loop. *)
Lemma path_neq x y l a b : NoDup (x :: y :: l) -> (a, b) ∈ path x (y :: l) x -> a <> b.
Proof.
  intros [Hx Hnd]%NoDup_cons. rewrite path_cons, elem_of_cons.
  intros [Hab|Hab]; [injection Hab as -> ->; set_solver|]. revert y Hx Hnd Hab.
  induction l as [|z l IH]; intros y Hx Hnd Hab.
  - apply list_elem_of_singleton in Hab. injection Hab as -> ->. set_solver.
  - rewrite path_cons, elem_of_cons in Hab. apply NoDup_cons in Hnd as [Hy Hnd].
    destruct Hab as [Hab|Hab]; [injection Hab as -> ->; set_solver|]. apply (IH z); [set_solver|done|done].
Qed.

(** Stores to other records leave a link alone. *)
Lemma link_frame h h' a b :
  (next <$> h' !! a) = (next <$> h !! a) -> (pprev <$> h' !! b) = (pprev <$> h !! b) ->
  link h (a, b) -> link h' (a, b).
Proof. unfold link. simpl. by intros -> ->. Qed.

(** [h] holds exactly the ring of [t] and the threads [r], whose stacks are stored. *)
Record linked (h : gmap Z thread_info) (t : Z) (r : list (Z * list op)) : Prop := {
  l_nodup : NoDup (t :: r.*1);
  l_dom : dom h = list_to_set (t :: r.*1);
  l_links : Forall (link h) (path t r.*1 t);
  l_stacks : Forall (fun '(u, d) => (stackpos <$> h !! u) = Some d) r
}.

Lemma linked_next h t r : linked h t r ->
  exists i, h !! t = Some i /\ next i = (if r is (u, _) :: _ then u else t).
Proof.
  intros [_ _ Hl _]. destruct r as [|[u d] r]; simpl in Hl; inversion Hl as [|? ? [Hn _] _]; subst;
    simpl in Hn; apply fmap_Some in Hn as (i & ? & ?); eauto.
Qed.

Lemma set_stackpos_spec h t r c : linked h t r ->
  exists h', set_stackpos h t c = Ok h' /\ (forall a, next <$> h' !! a = next <$> h !! a) /\
    (forall a, pprev <$> h' !! a = pprev <$> h !! a) /\ (forall a, a <> t -> h' !! a = h !! a) /\
    stackpos <$> h' !! t = Some c /\ dom h' = dom h.
Proof.
  intros H. destruct (linked_next h t r H) as (i & Hi & _). unfold set_stackpos. rewrite Hi. simpl.
  eexists. split; [done|]. split_and!.
  - intros a. destruct (decide (a = t)) as [->|]; by simplify_map_eq.
  - intros a. destruct (decide (a = t)) as [->|]; by simplify_map_eq.
  - intros a Ha. by simplify_map_eq.
  - by simplify_map_eq.
  - rewrite dom_insert_L. apply elem_of_dom_2 in Hi. set_solver.
Qed.

(** Storing the running stack and going on with the next one rotates. *)
Lemma linked_rotate h t u d r c : linked h t ((u, d) :: r) ->
  exists h', set_stackpos h t c = Ok h' /\ linked h' u (r ++ [(t, c)]) /\ stackpos <$> h' !! u = Some d.
Proof.
  intros H. destruct (set_stackpos_spec h t _ c H) as (h' & E & Hn & Hp & Ho & Hc & Hd).
  destruct H as [Hnd Hdom Hl Hs]. exists h'. split; [done|].
  apply Forall_cons in Hs as [Hu Hs]. simpl in Hnd.
  assert (u <> t /\ t ∉ r.*1) as [Hut Ht] by (apply NoDup_cons in Hnd as [Hnd _]; set_solver).
  split; [split|].
  - rewrite fmap_app. simpl. rewrite app_comm_cons, Permutation_app_comm. done.
  - rewrite Hd, Hdom, fmap_app. simpl. rewrite list_to_set_app_L. set_solver.
  - rewrite fmap_app. change [(t, c)].*1 with [t]. rewrite path_rotate.
    eapply Forall_impl; [exact Hl|]. intros [a b]. by apply link_frame.
  - apply Forall_app. split; [|by constructor].
    rewrite Forall_forall in Hs |- *. intros [a e] Ha. rewrite Ho; [by apply (Hs (a, e))|].
    intros ->. apply Ht, list_elem_of_fmap. by exists (t, e).
  - by rewrite Ho.
Qed.

Lemma path_last x l : exists pre z, (forall e, path x l e = pre ++ [(z, e)]) /\ z ∈ x :: l /\
  (NoDup (x :: l) -> forall a b, (a, b) ∈ pre -> a ∈ x :: l /\ a <> z /\ b ∈ l).
Proof.
  destruct l as [|z l _] using rev_ind.
  - exists [], x. split_and!; [done|set_solver|]. intros _ a b Hab. by apply elem_of_nil in Hab.
  - exists (path x l z), z. split_and!; [intros e; apply path_snoc|set_solver|].
    intros Hnd a b [Ha Hb]%elem_of_path. rewrite app_comm_cons in Hnd.
    apply NoDup_app in Hnd as (_ & Hnd & _). split_and!; [set_solver| |done].
    intros ->. specialize (Hnd z Ha). set_solver.
Qed.

(** What a store to a field leaves in each field of each record. *)
Section Stores.
Context (h : gmap Z thread_info) (a : Z) (v : Z) (Ha : a ∈ dom h).

Lemma set_next_spec : exists h', set_next h a v = Ok h' /\ dom h' = dom h /\
  (forall x, next <$> h' !! x = if decide (x = a) then Some v else next <$> h !! x) /\
  (forall x, pprev <$> h' !! x = pprev <$> h !! x) /\ (forall x, stackpos <$> h' !! x = stackpos <$> h !! x).
Proof using Ha.
  apply elem_of_dom in Ha as [i Hi]. unfold set_next. rewrite Hi. eexists. split; [done|].
  split; [rewrite dom_insert_L; apply elem_of_dom_2 in Hi; set_solver|].
  split_and!; intros x; destruct (decide (x = a)) as [->|]; by simplify_map_eq.
Qed.

Lemma set_pprev_spec : exists h', set_pprev h a v = Ok h' /\ dom h' = dom h /\
  (forall x, pprev <$> h' !! x = if decide (x = a) then Some v else pprev <$> h !! x) /\
  (forall x, next <$> h' !! x = next <$> h !! x) /\ (forall x, stackpos <$> h' !! x = stackpos <$> h !! x).
Proof using Ha.
  apply elem_of_dom in Ha as [i Hi]. unfold set_pprev. rewrite Hi. eexists. split; [done|].
  split; [rewrite dom_insert_L; apply elem_of_dom_2 in Hi; set_solver|].
  split_and!; intros x; destruct (decide (x = a)) as [->|]; by simplify_map_eq.
Qed.
End Stores.

(** Unlinking the running thread and freeing its record. *)
Lemma linked_end h t u d r : linked h t ((u, d) :: r) ->
  exists h', __end_thread h t = Ok h' /\ linked h' u r /\ stackpos <$> h !! u = Some d.
Proof.
  intros [Hnd Hdom Hl Hs]. apply Forall_cons in Hs as [Hu Hs]. simpl in Hnd, Hdom.
  destruct (path_last u r.*1) as (pre & z & Hpre & Hz & Hin).
  apply NoDup_cons in Hnd as [Ht Hnd]. specialize (Hin Hnd).
  simpl fmap in Hl. rewrite path_cons, Hpre in Hl. apply Forall_cons in Hl as [[Hn _] Hl].
  apply Forall_app in Hl as [Hl [[_ Hp] _]%Forall_cons]. simpl in Hn, Hp.
  assert (u <> t /\ z <> t) as [Hut Hzt] by set_solver.
  apply fmap_Some in Hn as (i & Hi & ->). rewrite Hi in Hp. simpl in Hp. simplify_eq.
  unfold __end_thread. rewrite Hi. cbn [of_option obind].
  destruct (set_pprev_spec h (next i) (pprev i)) as (h1 & -> & Hd1 & Hp1 & Hn1 & Hs1); [set_solver|].
  assert (exists j, h1 !! t = Some j /\ next j = next i /\ pprev j = pprev i) as (j & Hj & Ej & Ej').
  { pose proof (Hn1 t) as En. pose proof (Hp1 t) as Ep. rewrite decide_False in Ep by done.
    rewrite Hi in En, Ep. destruct (h1 !! t) as [j|]; [|done]. injection En as En. injection Ep as Ep. eauto. }
  cbn [obind]. rewrite Hj. cbn [of_option obind]. rewrite Ej, Ej'.
  destruct (set_next_spec h1 (pprev i) (next i)) as (h2 & -> & Hd2 & Hn2 & Hp2 & Hs2); [set_solver|].
  exists (delete t h2). split; [done|]. split; [|done].
  assert (forall x, x <> t -> delete t h2 !! x = h2 !! x) as Hdel by (intros; by apply lookup_delete_ne).
  split; [done| | |].
  - rewrite dom_delete_L, Hd2, Hd1, Hdom. set_solver.
  - rewrite Hpre. apply Forall_app. split; [|constructor; [|done]].
    + rewrite Forall_forall in Hl |- *. intros [a b] Hab. destruct (Hin _ _ Hab) as (Ha & Haz & Hb).
      assert (a <> t /\ b <> t /\ b <> next i) as (? & ? & ?).
      { apply NoDup_cons in Hnd as [Hnd _]. set_solver. }
      apply (link_frame h); [..|by apply Hl]; rewrite Hdel by done.
      * by rewrite Hn2, decide_False, Hn1.
      * by rewrite Hp2, Hp1, decide_False.
    + split; simpl; rewrite Hdel by done; [by rewrite Hn2, decide_True|by rewrite Hp2, Hp1, decide_True].
  - rewrite Forall_forall in Hs |- *. intros [a e] Ha.
    assert (a <> t) by (intros ->; apply Ht; right; apply list_elem_of_fmap; by exists (t, e)).
    rewrite Hdel, Hs2, Hs1 by done. by apply (Hs (a, e)).
Qed.

(** What the stores of [run_thread] leave: the new record [n] after [z] and before [t]. *)
Lemma insert_thread_spec h t n z c body :
  (pprev <$> h !! t) = Some z -> z ∈ dom h -> n ∉ dom h ->
  exists h1 h2, insert_thread h t n body = Ok h1 /\ set_stackpos h1 t c = Ok h2 /\ dom h2 = {[n]} ∪ dom h /\
    (forall x, next <$> h2 !! x = if decide (x = z) then Some n else if decide (x = n) then Some t else next <$> h !! x) /\
    (forall x, pprev <$> h2 !! x = if decide (x = t) then Some n else if decide (x = n) then Some z else pprev <$> h !! x) /\
    (forall x, stackpos <$> h2 !! x =
      if decide (x = t) then Some c else if decide (x = n) then Some body else stackpos <$> h !! x).
Proof.
  intros Hpt Hz Hn. apply fmap_Some in Hpt as (i & Hi & ->). apply elem_of_dom_2 in Hi as Ht.
  assert (n <> t /\ n <> pprev i) as [Hnt Hnz] by set_solver.
  unfold insert_thread. rewrite Hi. cbn [of_option obind]. set (h0 := <[n := mk_thread t body (pprev i)]> h).
  assert (dom h0 = {[n]} ∪ dom h) as Hd0 by apply dom_insert_L.
  destruct (set_pprev_spec h0 t n) as (h1 & -> & Hd1 & Hp1 & Hn1 & Hs1); [set_solver|]. cbn [obind].
  assert (exists j, h1 !! n = Some j /\ pprev j = pprev i) as (j & Hj & Ej).
  { pose proof (Hp1 n) as Ep. rewrite decide_False in Ep by done. unfold h0 in Ep. rewrite lookup_insert_eq in Ep.
    destruct (h1 !! n) as [j|]; [|done]. injection Ep as Ep. eauto. }
  rewrite Hj. cbn [of_option obind]. rewrite Ej.
  destruct (set_next_spec h1 (pprev i) n) as (h2 & -> & Hd2 & Hn2 & Hp2 & Hs2); [set_solver|].
  assert (t ∈ dom h2) as [k Hk]%elem_of_dom by set_solver.
  unfold set_stackpos. exists h2. rewrite Hk. cbn [of_option obind]. eexists. do 2 (split; [done|]).
  split; [rewrite dom_insert_L, Hd2, Hd1, Hd0; set_solver|].
  assert (forall x, x <> n -> h0 !! x = h !! x) as H0 by (intros; by apply lookup_insert_ne).
  assert (h0 !! n = Some (mk_thread t body (pprev i))) as H0n by apply lookup_insert_eq.
  split_and!; intros x; (destruct (decide (x = t)) as [->|]; [rewrite lookup_insert_eq; simpl|rewrite lookup_insert_ne by done]).
  - change (Some (next k)) with (next <$> Some k). rewrite <- Hk, Hn2, Hn1. repeat case_decide; try done. by rewrite H0.
  - rewrite Hn2, Hn1. repeat case_decide; subst; rewrite ?H0n, ?H0 by done; done.
  - change (Some (pprev k)) with (pprev <$> Some k). rewrite <- Hk, Hp2, Hp1. by rewrite decide_True.
  - rewrite Hp2, Hp1. repeat case_decide; subst; rewrite ?H0n, ?H0 by done; done.
  - done.
  - rewrite Hs2, Hs1. repeat case_decide; subst; rewrite ?H0n, ?H0 by done; done.
Qed.

(** Linking a new record before the running thread. *)
Lemma linked_insert h t r c n body : linked h t r -> n ∉ dom h ->
  exists h1 h2, insert_thread h t n body = Ok h1 /\ set_stackpos h1 t c = Ok h2 /\
    linked h2 n ((t, c) :: r) /\ stackpos <$> h2 !! n = Some body.
Proof.
  intros [Hnd Hdom Hl Hs] Hn. destruct (path_last t r.*1) as (pre & z & Hpre & Hz & Hin). specialize (Hin Hnd).
  rewrite Hpre in Hl. apply Forall_app in Hl as [Hl [[Hnz Hpt] _]%Forall_cons]. simpl in Hnz, Hpt.
  destruct (insert_thread_spec h t n z c body Hpt) as (h1 & h2 & E1 & E2 & Hd & Hnx & Hpp & Hsp); [set_solver|done|].
  rewrite Hdom in Hn. assert (n <> t /\ n <> z) as [Hnt Hnz'] by set_solver.
  exists h1, h2. split; [done|]. split; [done|]. split; [split|].
  - simpl. constructor; [set_solver|done].
  - rewrite Hd, Hdom. set_solver.
  - simpl fmap. rewrite path_cons, Hpre. constructor; [|apply Forall_app; split; [|constructor; [|done]]].
    + split; simpl; rewrite ?Hnx, ?Hpp; by repeat case_decide.
    + rewrite Forall_forall in Hl |- *. intros [a b] Hab. destruct (Hin _ _ Hab) as (Ha & Haz & Hb).
      assert (a <> n /\ b <> n /\ b <> t) as (? & ? & ?) by (apply NoDup_cons in Hnd as [Hnd _]; set_solver).
      apply (link_frame h); [..|by apply Hl]; rewrite ?Hnx, ?Hpp; by rewrite !decide_False.
    + split; simpl; rewrite ?Hnx, ?Hpp; by repeat case_decide.
  - constructor; [rewrite Hsp; by rewrite decide_True|]. rewrite Forall_forall in Hs |- *. intros [a e] Ha.
    assert (a ∈ r.*1) as Har by (apply list_elem_of_fmap; by exists (a, e)).
    assert (a <> t /\ a <> n) as [? ?] by (apply NoDup_cons in Hnd as [Hnd _]; set_solver).
    rewrite Hsp, !decide_False by done. by apply (Hs (a, e)).
  - by rewrite Hsp, decide_False, decide_True.
Qed.

(** ** The machine implements the list *)

Definition repr (main : Z) (s : machine) (a : threads) : Prop :=
  exists r, ring a = (cur s, code s) :: r /\ linked (infos s) (cur s) r /\ main ∈ cur s :: r.*1 /\
    mutexes s = locked a /\ CanPreempt s = preempt a /\ done s = history a.

(** Only the main thread takes the clock interrupt. *)
Definition irq_thread (main : Z) (u : Z * list op) : Prop :=
  forallb (if u.1 =? main then main_op else plain_op) u.2 = true.
Definition irq_main (main : Z) (a : threads) : Prop := Forall (irq_thread main) (ring a).

(** Memory for a thread is none, or not in use. *)
Definition memalign_ok (memalign : gset Z -> list (Z * Z) -> Z) : Prop :=
  forall live l, memalign live l = 0 \/ memalign live l ∉ live.

Section Refine.
Context (main : Z) (memalign : gset Z -> list (Z * Z) -> Z) (optionroms : bool).

Notation repr := (repr main).
Notation step := (step main memalign optionroms).
Notation spec_step := (spec_step main memalign optionroms).

Lemma repr_switch s a r t : ring a = (t, code s) :: r -> cur s = t -> repr s a ->
  exists s', switch_next s t = Ok s' /\ repr s' (set_ring a (r ++ [(t, code s)])).
Proof using.
  intros Ha Ht (r' & Ha' & Hl & Hm & Hmu & Hcp & Hh). rewrite Ha in Ha'. injection Ha' as _ <-. subst t.
  unfold switch_next. destruct (linked_next _ _ _ Hl) as (i & -> & Hn). cbn [of_option obind].
  destruct r as [|[u d] r].
  - rewrite Hn, Z.eqb_refl. eexists. split; [done|]. by exists [].
  - destruct (linked_rotate _ _ _ _ _ (code s) Hl) as (h' & E & Hl' & Hd).
    assert (cur s <> u) as Hu by (destruct Hl as [Hnd _ _ _]; apply NoDup_cons in Hnd as [Hnd _]; set_solver).
    rewrite Hn, (proj2 (Z.eqb_neq _ _) Hu). unfold switch_stack. rewrite E. cbn [obind].
    apply fmap_Some in Hd as (j & -> & ->). eexists. split; [done|].
    exists (r ++ [(cur s, code s)]). simpl. split_and!; [done..| |done|done|done].
    rewrite fmap_app. simpl. set_solver.
Qed.

Lemma repr_yield s a r c : ring a = (cur s, c) :: r -> code s = c -> repr s a ->
  exists s', yield s = Ok s' /\ repr s' (set_ring a (r ++ [(cur s, c)])).
Proof using. intros Ha <- H. by apply repr_switch. Qed.

Lemma repr_end s a r : ring a = (cur s, []) :: r -> cur s <> main -> repr s a ->
  exists s', end_thread s = Ok s' /\ repr s' (set_ring a r).
Proof using.
  intros Ha Hc (r' & Ha' & Hl & Hm & Hmu & Hcp & Hh). rewrite Ha in Ha'. injection Ha' as _ <-.
  destruct r as [|[u d] r]; [set_solver|]. unfold end_thread.
  destruct (linked_next _ _ _ Hl) as (i & -> & Hn). cbn [of_option obind]. rewrite Hn.
  destruct (linked_end _ _ _ _ _ Hl) as (h' & -> & Hl' & Hd). apply fmap_Some in Hd as (j & -> & ->).
  eexists. split; [done|]. exists r. simpl. split_and!; [done..| |done|done|done]. set_solver.
Qed.
Context (Hmem : memalign_ok memalign).

Lemma repr_run_thread s a r body : ring a = (cur s, code s) :: r -> repr s a ->
  let n := memalign (list_to_set (cur s :: r.*1)) (history a) in
  exists s', run_thread memalign s body = Ok s' /\
    repr s' (set_ring a (if n =? 0 then (cur s, body ++ code s) :: r else (n, body) :: (cur s, code s) :: r)).
Proof using Hmem.
  intros Ha (r' & Ha' & Hl & Hm & Hmu & Hcp & Hh). rewrite Ha in Ha'. injection Ha' as <-.
  unfold run_thread. rewrite (l_dom _ _ _ Hl), Hh. set (n := memalign _ _). simpl.
  destruct (Z.eqb_spec n 0) as [E|E]; [eexists; split; [done|by exists r]|].
  assert (n ∉ dom (infos s)) as Hn by (rewrite (l_dom _ _ _ Hl); by destruct (Hmem (list_to_set (cur s :: r.*1)) (history a))).
  destruct (linked_insert _ _ _ (code s) n body Hl Hn) as (h1 & h2 & -> & E2 & Hl2 & Hs2). cbn [obind].
  unfold switch_stack. cbn [infos set_infos code]. rewrite E2. cbn [obind].
  apply fmap_Some in Hs2 as (j & -> & ->). eexists. split; [done|].
  exists ((cur s, code s) :: r). simpl. split_and!; [done..| |done|done|done]. set_solver.
Qed.

(** Is the main thread alone? *)
Lemma repr_alone s a r : ring a = (cur s, code s) :: r -> repr s a ->
  exists i, infos s !! main = Some i /\ (next i =? main) = (if r is [] then true else false).
Proof using.
  clear Hmem. intros Ha (r' & Ha' & Hl & Hm & _). rewrite Ha in Ha'. injection Ha' as <-.
  pose proof (linked_next _ _ _ Hl) as (i & Hi & Hn). destruct r as [|[u d] r].
  - simpl in Hm. assert (main = cur s) as -> by set_solver. exists i. rewrite Hn. by rewrite Z.eqb_refl.
  - destruct Hl as [Hnd _ Hl _]. simpl fmap in *.
    destruct (path_fst (cur s) (u :: r.*1) (cur s) main Hm) as [v Hv].
    rewrite Forall_forall in Hl. destruct (Hl _ Hv) as [Hl' _]. simpl in Hl'.
    apply path_neq in Hv; [|done].
    apply fmap_Some in Hl' as (m & -> & ->). exists m. split; [done|]. by apply Z.eqb_neq.
Qed.

Lemma repr_set_code s a r c : ring a = (cur s, code s) :: r -> repr s a ->
  repr (set_code s c) (set_ring a ((cur s, c) :: r)).
Proof using.
  intros Ha (r' & Ha' & H). rewrite Ha in Ha'. injection Ha' as <-. by exists r.
Qed.

Lemma repr_yield_code s a r c : ring a = (cur s, code s) :: r -> repr s a ->
  exists s', yield (set_code s c) = Ok s' /\ repr s' (set_ring a (r ++ [(cur s, c)])).
Proof using.
  intros Ha H. exact (repr_yield (set_code s c) (set_ring a ((cur s, c) :: r)) r c eq_refl eq_refl (repr_set_code s a r c Ha H)).
Qed.

Lemma repr_retry s a r : ring a = (cur s, code s) :: r -> repr s a ->
  exists s', yield s = Ok s' /\ repr s' (set_ring a (r ++ [(cur s, code s)])).
Proof using. intros Ha H. by apply repr_yield. Qed.

Lemma step_refines s a : repr s a -> irq_main main a -> exists s', step s = Ok s' /\ repr s' (spec_step a).
Proof using Hmem.
  intros H Hirq. pose proof H as (r & Ha & Hl & Hm & Hmu & Hcp & Hh).
  unfold step, spec_step. rewrite Ha. destruct (code s) as [|o c] eqn:Ec.
  { destruct (Z.eqb_spec (cur s) main); [by exists s|]. by apply repr_end. }
  rewrite <- Ec in Ha. unfold irq_main in Hirq. rewrite Ha in Hirq. apply Forall_cons in Hirq as [Hirq _]. unfold irq_thread in Hirq. simpl in Hirq.
  pose proof (repr_set_code s a r c Ha H) as Hc. pose proof (repr_yield_code s a r c Ha H) as Hy.
  pose proof (repr_retry s a r Ha H) as Hr. rewrite Ec in Hr. destruct o as [e| |k|k|body| | | | |].
  - eexists. split; [done|]. exists r. simpl. by rewrite Hh.
  - done.
  - unfold mutex_lock. rewrite Hmu. destruct (bool_decide _); [done|]. eexists. split; [done|]. by exists r.
  - eexists. split; [done|]. exists r. simpl. by rewrite Hmu.
  - by apply (repr_run_thread (set_code s c) (set_ring a ((cur s, c) :: r))).
  - unfold wait_threads, wait_while. destruct (repr_alone s a r Ha H) as (i & -> & Hi). cbn [of_option obind].
    rewrite Hi. destruct r; simpl; [|done]. by eexists.
  - eexists. split; [done|]. exists r. unfold start_preempt. by destruct optionroms.
  - rewrite Ec in Hirq. simpl in Hirq. apply andb_true_iff in Hirq as [Hirq _].
    destruct (Z.eqb_spec (cur s) main) as [Em|]; [|done]. unfold check_preempt.
    destruct (repr_alone s a r Ha H) as (i & Hi & Hn). simpl. rewrite Hi. cbn [of_option obind]. rewrite Hn, Hcp.
    destruct optionroms; simpl; [|by eexists]. destruct (preempt a) eqn:Ep; simpl; [|by eexists].
    destruct r as [|u r]; [by eexists|]. unfold yield_preempt.
    destruct (repr_switch (set_preempt (set_code s c) (CanPreempt s) (u32 (PreemptCount s + 1)))
      (set_ring a ((cur s, c) :: u :: r)) (u :: r) main) as (s' & E & Hs'); [by rewrite Em|done| |].
    { exists (u :: r). simpl. by rewrite Ep. }
    exists s'. split; [exact E|]. rewrite Em. exact Hs'.
  - unfold finish_preempt. destruct optionroms; [|exact Hy].
    apply (repr_yield (set_preempt (set_code s c) false (PreemptCount s))
      (mk_threads ((cur s, c) :: r) (locked a) false (history a)) r c); [done|done|by exists r].
  - unfold wait_preempt, wait_while. rewrite Hcp. destruct (optionroms && preempt a); [done|by eexists].
Qed.
End Refine.

Lemma plain_main l : forallb plain_op l = true -> forallb main_op l = true.
Proof.
  rewrite !forallb_forall. intros H o Ho. specialize (H o Ho). destruct o; done.
Qed.

Lemma plain_any (b : bool) l : forallb plain_op l = true -> forallb (if b then main_op else plain_op) l = true.
Proof. destruct b; [apply plain_main|done]. Qed.

Section Run.
Context (main : Z) (memalign : gset Z -> list (Z * Z) -> Z) (optionroms : bool).
Notation spec_step := (spec_step main memalign optionroms).

Lemma irq_main_step a : irq_main main a -> irq_main main (spec_step a).
Proof using.
  unfold irq_main, spec_step. intros H. destruct (ring a) as [|[t c] r] eqn:E; [by rewrite E|].
  pose proof H as [Ht Hr]%Forall_cons. destruct c as [|o c]; [case_match; [by rewrite E|done]|].
  unfold irq_thread in Ht. simpl in Ht. apply andb_true_iff in Ht as [Ho Hc].
  assert (Forall (irq_thread main) ((t, c) :: r)) as Hcont
    by by constructor.
  assert (Forall (irq_thread main) (r ++ [(t, c)])) as Hrot
    by (apply Forall_app; by repeat constructor).
  assert (Forall (irq_thread main) (r ++ [(t, o :: c)])) as Hret
    by (apply Forall_app; split; [done|]; constructor; [by unfold irq_thread; simpl; rewrite Ho|done]).
  destruct o as [e| |k|k|body| | | | |]; simpl; try by repeat case_match.
  assert (forallb plain_op body = true) as Hb by (by destruct (t =? main)).
  destruct (memalign _ _ =? 0); constructor; try done; unfold irq_thread; simpl; [|by apply plain_any].
  by rewrite forallb_app, Hc, plain_any.
Qed.

(** Every run of the machine is a run of the list. *)
Lemma run_refines n s a : memalign_ok memalign -> repr main s a -> irq_main main a ->
  exists s', run main memalign optionroms n s = Ok s' /\ repr main s' (Nat.iter n spec_step a).
Proof using.
  intros Hmem. revert s a. induction n as [|n IH]; intros s a H Hirq; [by exists s|].
  destruct (step_refines main memalign optionroms Hmem s a H Hirq) as (s1 & E1 & H1).
  destruct (IH s1 _ H1) as (s2 & E2 & H2); [by apply irq_main_step|].
  exists s2. cbn [run]. rewrite E1, Nat.iter_succ_r. done.
Qed.

Lemma repr_setup c : repr main (thread_setup main c) (spec_setup main c).
Proof using.
  exists []. simpl. split_and!; [done| |set_solver|done..]. split; simpl.
  - apply NoDup_singleton.
  - by rewrite dom_singleton_L, union_empty_r_L.
  - repeat constructor; simpl; by simplify_map_eq.
  - done.
Qed.
End Run.

(** ** Discipline of the callers *)

(** The mutexes the next call about which is [mutex_unlock]: those held by a thread that
    is about to run [c]. *)
Fixpoint held (c : list op) : gset Z :=
  match c with
  | [] => ∅
  | Mutex_lock k :: c => held c ∖ {[k]}
  | Mutex_unlock k :: c => {[k]} ∪ held c
  | _ :: c => held c
  end.

(** Between [start_preempt] and [finish_preempt]. *)
Fixpoint preempted (c : list op) : bool :=
  match c with
  | [] => false
  | Start_preempt :: _ => false
  | (Check_preempt | Finish_preempt) :: _ => true
  | _ :: c => preempted c
  end.

Definition at_rest (c : list op) : bool := bool_decide (held c = ∅) && negb (preempted c).

Definition all_ops (f : op -> list op -> bool) : list op -> bool :=
  fix go l := match l with [] => true | o :: c => f o c && go c end.

(** Mutexes are taken in increasing order and given back, threads are started and waited
    for with none held, an option ROM runs on the main thread, which meanwhile calls nothing
    that waits.  [c] is what follows [o]. *)
Fixpoint disciplined_op (m : bool) (o : op) (c : list op) : bool :=
  match o with
  | Do _ | Yield => true
  | Mutex_lock k => bool_decide (k ∈ held c) && bool_decide (set_Forall (fun j => j <= k) (held c)) && negb (preempted c)
  | Mutex_unlock k => bool_decide (k ∉ held c)
  | Run_thread body => at_rest c && at_rest body && all_ops (disciplined_op false) body
  | Wait_threads => m && at_rest c
  | Start_preempt => m && bool_decide (held c = ∅) && preempted c
  | Check_preempt => m && preempted c
  | Finish_preempt => m && at_rest c
  | Wait_preempt => negb (preempted c)
  end.
Definition disciplined (m : bool) : list op -> bool := all_ops (disciplined_op m).

(** What a program does besides calls into this file, and its size. *)
Fixpoint op_events (o : op) : list Z :=
  match o with Do e => [e] | Run_thread body => flat_map op_events body | _ => [] end.
Definition events : list op -> list Z := flat_map op_events.
Fixpoint op_size (o : op) : nat :=
  match o with Run_thread body => S (S (sum_list_with op_size body)) | _ => 1 end.
Definition size : list op -> nat := sum_list_with op_size.

(** Induction on programs and the bodies of their threads. *)
Lemma code_ind (P : list op -> Prop) :
  P [] -> (forall o c, (if o is Run_thread body then P body else True) -> P c -> P (o :: c)) -> forall c, P c.
Proof.
  intros H0 Hc c. remember (size c) as n eqn:En. assert (size c <= n)%nat as Hn by lia. clear En.
  revert c Hn. induction n as [|n IH]; intros [|o c] Hn; try done.
  - destruct o; simpl in Hn; lia.
  - apply Hc; [|apply IH; destruct o; simpl in Hn; unfold size in *; lia].
    destruct o; try done. apply IH. simpl in Hn. unfold size in *. lia.
Qed.

Lemma disciplined_plain c : disciplined false c = true -> forallb plain_op c = true.
Proof.
  induction c as [|o c Hb IH] using code_ind; [done|]. intros H. simpl in H |- *.
  apply andb_true_iff in H as [Ho Hc]. rewrite IH, andb_true_r by done.
  destruct o; try done. simpl in *. bool_to_prop. auto.
Qed.

Lemma disciplined_main m c : disciplined m c = true -> forallb main_op c = true.
Proof.
  induction c as [|o c IH]; [done|]. intros H. simpl in H |- *.
  apply andb_true_iff in H as [Ho Hc]. rewrite IH, andb_true_r by done.
  destruct o; try done. simpl in *. bool_to_prop. by apply disciplined_plain.
Qed.

(** A body may also be run by the caller of [run_thread], which has no memory for it. *)
Lemma disciplined_weaken m c : disciplined false c = true -> disciplined m c = true.
Proof.
  induction c as [|o c IH]; [done|]. intros H. simpl in H |- *.
  apply andb_true_iff in H as [Ho Hc]. rewrite IH, andb_true_r by done. by destruct o.
Qed.

Lemma not_preempted c : disciplined false c = true -> preempted c = false.
Proof.
  induction c as [|o c IH]; [done|]. intros [Ho Hc]%andb_true_iff. destruct o; simpl in *; try done; auto.
Qed.

Lemma at_rest_true c : at_rest c = true <-> held c = ∅ /\ preempted c = false.
Proof. unfold at_rest. rewrite andb_true_iff, bool_decide_eq_true, negb_true_iff. done. Qed.

Lemma held_app b c : held c = ∅ -> held (b ++ c) = held b.
Proof. intros H. induction b as [|o b IH]; [done|]. destruct o; simpl; by rewrite IH. Qed.

Lemma preempted_app b c : preempted c = false -> preempted (b ++ c) = preempted b.
Proof. intros H. induction b as [|o b IH]; [done|]. destruct o; simpl; by rewrite ?IH. Qed.

Lemma disciplined_op_tail m o b c : held b = held c -> preempted b = preempted c ->
  disciplined_op m o b = disciplined_op m o c.
Proof. intros H1 H2. destruct o; simpl; unfold at_rest; by rewrite ?H1, ?H2. Qed.

Lemma disciplined_app m b c : at_rest c = true -> disciplined m b = true -> disciplined m c = true ->
  disciplined m (b ++ c) = true.
Proof.
  intros [H1 H2]%at_rest_true Hb Hc. induction b as [|o b IH]; [done|].
  simpl in *. apply andb_true_iff in Hb as [Ho Hb]. rewrite IH, andb_true_r by done.
  rewrite (disciplined_op_tail m o _ b); [done|by apply held_app|by apply preempted_app].
Qed.

(** ** Mutual exclusion and progress *)

(** How many threads hold a mutex. *)
Definition holders (k : Z) (r : list (Z * list op)) : nat := length (filter (fun u => k ∈ held u.2) r).

Lemma holders_app k r1 r2 : holders k (r1 ++ r2) = (holders k r1 + holders k r2)%nat.
Proof. unfold holders. by rewrite filter_app, length_app. Qed.

Lemma holders_cons k u r :
  holders k (u :: r) = ((if bool_decide (k ∈ held u.2) then 1 else 0) + holders k r)%nat.
Proof. unfold holders. rewrite filter_cons. case_bool_decide; by rewrite ?decide_True, ?decide_False by done. Qed.

Lemma holders_same k t c c' r : held c' = held c -> holders k ((t, c') :: r) = holders k ((t, c) :: r).
Proof. intros E. rewrite !holders_cons. simpl. by rewrite E. Qed.

Section Counting.
Context (k t : Z) (c : list op) (r : list (Z * list op)) (l : gset Z).

Lemma holders_lock : k ∈ held c -> k ∉ l ->
  (forall j, holders j ((t, Mutex_lock k :: c) :: r) = if bool_decide (j ∈ l) then 1%nat else 0%nat) ->
  forall j, holders j ((t, c) :: r) = if bool_decide (j ∈ {[k]} ∪ l) then 1%nat else 0%nat.
Proof using.
  intros Hk Hkl Hl j. specialize (Hl j). rewrite holders_cons in Hl |- *. simpl in Hl |- *.
  destruct (decide (j = k)) as [->|Hj].
  - rewrite (bool_decide_false (_ ∈ held c ∖ _)), (bool_decide_false (k ∈ l)) in Hl by set_solver.
    rewrite !bool_decide_true by set_solver. lia.
  - rewrite (bool_decide_ext (j ∈ held c ∖ {[k]}) (j ∈ held c)) in Hl by set_solver.
    rewrite (bool_decide_ext (j ∈ {[k]} ∪ l) (j ∈ l)) by set_solver. done.
Qed.

Lemma holders_unlock : k ∉ held c ->
  (forall j, holders j ((t, Mutex_unlock k :: c) :: r) = if bool_decide (j ∈ l) then 1%nat else 0%nat) ->
  forall j, holders j ((t, c) :: r) = if bool_decide (j ∈ l ∖ {[k]}) then 1%nat else 0%nat.
Proof using.
  intros Hk Hl j. specialize (Hl j). rewrite holders_cons in Hl |- *. simpl in Hl |- *.
  destruct (decide (j = k)) as [->|Hj].
  - rewrite (bool_decide_true (_ ∈ {[k]} ∪ _)) in Hl by set_solver. rewrite !bool_decide_false by set_solver.
    destruct (bool_decide _); lia.
  - rewrite (bool_decide_ext (j ∈ {[k]} ∪ held c) (j ∈ held c)) in Hl by set_solver.
    rewrite (bool_decide_ext (j ∈ l ∖ {[k]}) (j ∈ l)) by set_solver. done.
Qed.
End Counting.

Section Progress.
Context (main : Z) (memalign : gset Z -> list (Z * Z) -> Z) (optionroms : bool).
Notation spec_step := (spec_step main memalign optionroms).

(** The main thread's program ends with [wait_threads], or is over and the thread alone. *)
Definition ends_waiting (a : threads) : Prop :=
  Forall (fun u => u.1 = main -> last u.2 = Some Wait_threads \/ u.2 = [] /\ ring a = [u]) (ring a).

Record inv (a : threads) : Prop := {
  i_main : main ∈ (ring a).*1;
  i_nodup : NoDup (ring a).*1;
  i_code : Forall (fun u => disciplined (u.1 =? main) u.2 = true) (ring a);
  i_locks : forall k, holders k (ring a) = if bool_decide (k ∈ locked a) then 1%nat else 0%nat;
  i_preempt : preempt a = optionroms && existsb (fun u => preempted u.2) (ring a);
  i_ends : ends_waiting a
}.

(** The invariant does not depend on who runs. *)
Lemma inv_rotate a t c r : ring a = (t, c) :: r -> inv a -> inv (set_ring a (r ++ [(t, c)])).
Proof using.
  intros E [H1 H2 H3 H4 H5 H6]. assert ((t, c) :: r ≡ₚ r ++ [(t, c)]) as Hp by apply Permutation_cons_append.
  unfold ends_waiting in H6. rewrite E in *. split; simpl.
  - by rewrite <- Hp.
  - by rewrite <- Hp.
  - by rewrite <- Hp.
  - intros k. rewrite <- H4, holders_app, !holders_cons. unfold holders at 2. simpl. lia.
  - rewrite H5. simpl. rewrite existsb_app. simpl. by rewrite orb_false_r, orb_comm.
  - unfold ends_waiting. simpl. rewrite <- Hp. eapply Forall_impl; [exact H6|].
    intros u Hu Hm. destruct (Hu Hm) as [?|[? Er]]; [by left|right]. split; [done|]. by simplify_eq.
Qed.

(** The running thread goes on with [c'], other things equal. *)
Lemma inv_continue a t c0 r c' l p e : ring a = (t, c0) :: r -> inv a ->
  disciplined (t =? main) c' = true ->
  (t = main -> last c' = Some Wait_threads \/ c' = [] /\ r = []) ->
  (forall k, holders k ((t, c') :: r) = if bool_decide (k ∈ l) then 1%nat else 0%nat) ->
  p = optionroms && existsb (fun u => preempted u.2) ((t, c') :: r) ->
  inv (mk_threads ((t, c') :: r) l p e).
Proof using.
  intros E [H1 H2 H3 H4 H5 H6] Hd He Hl Hp. unfold ends_waiting in H6. rewrite E in *.
  apply Forall_cons in H3 as [_ H3], H6 as [_ H6]. split; simpl; try done.
  - by constructor.
  - constructor; simpl.
    + intros Ht. destruct (He Ht) as [?|[-> ->]]; auto.
    + rewrite Forall_forall in H6 |- *. intros u Hu Hm. destruct (H6 u Hu Hm) as [?|[_ Er]]; [by left|].
      destruct r; [by apply elem_of_nil in Hu|done].
Qed.

(** ... when the call it made concerns neither mutexes nor preemption. *)
Lemma inv_pop a t c0 r c' e : ring a = (t, c0) :: r -> inv a ->
  disciplined (t =? main) c' = true -> (t = main -> last c' = Some Wait_threads \/ c' = [] /\ r = []) ->
  held c' = held c0 -> preempted c' = preempted c0 -> inv (mk_threads ((t, c') :: r) (locked a) (preempt a) e).
Proof using.
  intros E H Hd He Hh Hp. eapply (inv_continue a); [exact E|done..| |].
  - intros k. rewrite <- (i_locks _ H), E. by apply holders_same.
  - rewrite (i_preempt _ H), E. simpl. by rewrite Hp.
Qed.

Lemma inv_end a t r : ring a = (t, []) :: r -> t <> main -> inv a -> inv (set_ring a r).
Proof using.
  intros E Ht [H1 H2 H3 H4 H5 H6]. unfold ends_waiting in H6. rewrite E in *. simpl in *.
  apply Forall_cons in H3 as [_ H3], H6 as [_ H6]. apply NoDup_cons in H2 as [_ H2]. split; simpl; try done.
  - set_solver.
  - unfold ends_waiting. simpl. rewrite Forall_forall in H6 |- *. intros u Hu Hm.
    destruct (H6 u Hu Hm) as [?|[_ Er]]; [by left|]. destruct r; [by apply elem_of_nil in Hu|done].
Qed.

Lemma inv_spawn a t c r n body : ring a = (t, c) :: r -> n ∉ t :: r.*1 -> disciplined false body = true ->
  at_rest body = true -> (t = main -> c <> []) -> inv a -> inv (set_ring a ((n, body) :: (t, c) :: r)).
Proof using.
  intros E Hn Hd [Hh Hp]%at_rest_true Hc [H1 H2 H3 H4 H5 H6]. unfold ends_waiting in H6. rewrite E in *. simpl in *.
  assert (n <> main) as Hnm by set_solver. split; simpl; try done.
  - set_solver.
  - by constructor.
  - constructor; [|done]. simpl. by rewrite (proj2 (Z.eqb_neq _ _) Hnm).
  - intros k. rewrite <- H4, holders_cons. simpl. by rewrite Hh, bool_decide_false by set_solver.
  - rewrite Hp. done.
  - unfold ends_waiting. simpl. constructor; [done|]. rewrite Forall_forall in H6 |- *. intros u Hu Hm.
    destruct (H6 u Hu Hm) as [?|[Eu Er]]; [by left|]. injection Er as <- ->. by destruct (Hc Hm).
Qed.

Lemma last_pop o c : last (o :: c) = Some Wait_threads -> o <> Wait_threads -> last c = Some Wait_threads.
Proof using. destruct c; simpl; [intros ? ?; congruence|done]. Qed.

Lemma ends_pop a t o c r : ring a = (t, o :: c) :: r -> inv a -> o <> Wait_threads -> t = main ->
  last c = Some Wait_threads.
Proof using.
  intros E H Ho Ht. pose proof (i_ends _ H) as He. unfold ends_waiting in He. rewrite E in He.
  apply Forall_cons in He as [He _]. destruct (He Ht) as [Hl|[? _]]; [|done]. by eapply last_pop.
Qed.

(** Nobody but the main thread lets itself be interrupted. *)
Lemma only_main_preempted a t c r : ring a = (t, c) :: r -> inv a -> t = main ->
  existsb (fun u => preempted u.2) r = false.
Proof using.
  intros E H ->. pose proof (i_nodup _ H) as Hn. pose proof (i_code _ H) as Hc. rewrite E in *.
  apply NoDup_cons in Hn as [Hn _]. apply Forall_cons in Hc as [_ Hc].
  apply not_true_is_false. intros ([u d] & Hu & Hp)%existsb_exists.
  apply list_elem_of_In in Hu. rewrite Forall_forall in Hc. specialize (Hc _ Hu). simpl in *.
  rewrite (proj2 (Z.eqb_neq _ _)) in Hc; [by rewrite not_preempted in Hp|].
  intros ->. apply Hn, list_elem_of_fmap. by exists (main, d).
Qed.

Lemma inv_run a t body c r : memalign_ok memalign -> ring a = (t, Run_thread body :: c) :: r -> inv a ->
  disciplined (t =? main) c = true -> at_rest c = true -> at_rest body = true -> disciplined false body = true ->
  let n := memalign ({[t]} ∪ list_to_set r.*1) (history a) in
  inv (set_ring a (if n =? 0 then (t, body ++ c) :: r else (n, body) :: (t, c) :: r)).
Proof using.
  intros Hmem E H Hd Hrc Hrb Hb n. pose proof (ends_pop a t _ _ r E H ltac:(done)) as He.
  pose proof (proj1 (at_rest_true c) Hrc) as [Hh Hp]. pose proof (proj1 (at_rest_true body) Hrb) as [Hh' Hp'].
  destruct (Z.eqb_spec n 0) as [E0|E0].
  - apply (inv_pop a t (Run_thread body :: c) r); [done|done| | | |].
    + apply disciplined_app; [done|by apply disciplined_weaken|done].
    + intros Ht. left. by rewrite last_app, He.
    + simpl. by rewrite held_app, Hh', Hh.
    + simpl. by rewrite preempted_app, Hp', Hp.
  - apply (inv_spawn (mk_threads ((t, c) :: r) (locked a) (preempt a) (history a)) t c r); [done| |done|done| |].
    + destruct (Hmem ({[t]} ∪ list_to_set r.*1) (history a)); set_solver.
    + intros Ht ->. by specialize (He Ht).
    + eapply inv_pop; [exact E|done|done|by left; apply He|done|done].
Qed.

Lemma inv_step a : memalign_ok memalign -> inv a -> inv (spec_step a).
Proof using.
  intros Hmem H. unfold spec_step. destruct (ring a) as [|[t c] r] eqn:E; [done|].
  destruct c as [|o c]; [destruct (Z.eqb_spec t main); [done|by eapply inv_end]|].
  pose proof (i_code _ H) as Hd. rewrite E in Hd. apply Forall_cons in Hd as [Hd _]. simpl in Hd.
  apply andb_true_iff in Hd as [Ho Hd]. fold (disciplined (t =? main)) in Hd.
  assert (o <> Wait_threads -> t = main -> last c = Some Wait_threads \/ c = [] /\ r = []) as He.
  { intros. left. by eapply ends_pop. }
  pose proof (inv_rotate a t (o :: c) r E H) as Hretry.
  assert (forall b l p e, inv (mk_threads ((t, b) :: r) l p e) -> inv (mk_threads (r ++ [(t, b)]) l p e)) as Hrot.
  { intros b l p e Hi. exact (inv_rotate (mk_threads ((t, b) :: r) l p e) t b r eq_refl Hi). }
  assert (forall e, o <> Wait_threads -> held c = held (o :: c) -> preempted c = preempted (o :: c) ->
    inv (mk_threads ((t, c) :: r) (locked a) (preempt a) e)) as Hpop.
  { intros e Hw Hh Hp. eapply inv_pop; [exact E|done|done|by apply He|done|done]. }
  assert (forall l p e, o <> Wait_threads ->
    (forall k, holders k ((t, c) :: r) = if bool_decide (k ∈ l) then 1%nat else 0%nat) ->
    p = optionroms && existsb (fun u => preempted u.2) ((t, c) :: r) -> inv (mk_threads ((t, c) :: r) l p e)) as Hcont.
  { intros l p e Hw Hh Hp. eapply inv_continue; [exact E|done|done|by apply He|done|done]. }
  pose proof (i_locks _ H) as Hl. pose proof (i_preempt _ H) as Hp. rewrite E in Hl, Hp. simpl in Hp.
  destruct o as [e| |k|k|body| | | | |]; simpl in Ho; bool_to_prop; simpl in *.
  - by apply Hpop.
  - by apply Hrot, Hpop.
  - destruct (bool_decide_reflect (k ∈ locked a)) as [Hk|Hk]; [done|]. apply Hcont; [done| |done].
    apply bool_decide_eq_true in H0. by apply holders_lock.
  - apply bool_decide_eq_true in Ho. apply Hcont; [done| |done]. by apply holders_unlock.
  - by apply inv_run.
  - destruct r; [|done]. apply (inv_pop a t (Wait_threads :: c) []); [done|done|done| |done|done].
    pose proof (i_ends _ H) as Hw. unfold ends_waiting in Hw. rewrite E in Hw. apply Forall_cons in Hw as [Hw _].
    intros Ht. destruct (Hw Ht) as [Hc|[Hc _]]; [|done]. simpl in Hc. destruct c; [by right|by left].
  - apply Hcont; [done|intros k; rewrite <- Hl; by apply holders_same|]. rewrite Hp, H1. simpl. destruct optionroms; simpl; [done|done].
  - rewrite H1 in Hpop. destruct (optionroms && preempt a); [apply Hrot|]; by apply Hpop.
  - apply Hrot, Hcont; [done|intros k; rewrite <- Hl; by apply holders_same|]. apply at_rest_true in H1 as [_ ->].
    rewrite (only_main_preempted a t _ r E H) by done. rewrite Hp. by destruct optionroms.
  - destruct (optionroms && preempt a); [done|by apply Hpop].
Qed.

(** A thread that would only test and yield. *)
Definition blocked (a : threads) (u : Z * list op) : bool :=
  match u.2 with
  | [] => u.1 =? main
  | Mutex_lock k :: _ => bool_decide (k ∈ locked a)
  | Wait_threads :: _ => (1 <? length (ring a))%nat
  | Wait_preempt :: _ => optionroms && preempt a
  | _ => false
  end.

(** Some thread holds the greatest mutex that is held. *)
Lemma greatest_held a : inv a -> locked a <> ∅ ->
  exists u m, u ∈ ring a /\ m ∈ held u.2 /\ forall k, k ∈ locked a -> k <= m.
Proof using.
  intros H Hl. assert (Transitive (fun x y : Z => y <= x)) as Htr by (intros ???; lia).
  assert (forall x y, Decision ((fun x y : Z => y <= x) x y)) as Hdec by (intros; simpl; apply _).
  destruct (minimal_exists_elem_of_L (fun x y : Z => y <= x) (locked a) Hl) as (m & Hm & Hmax).
  pose proof (i_locks _ H m) as Hh. rewrite bool_decide_true in Hh by done. unfold holders in Hh.
  destruct (filter _ (ring a)) as [|u l] eqn:Ef; [done|].
  assert (u ∈ filter (fun u => m ∈ held u.2) (ring a)) as [Hu Hr]%list_elem_of_filter by (rewrite Ef; left).
  exists u, m. split_and!; [done|done|]. intros k Hk. specialize (Hmax k Hk). simpl in Hmax. lia.
Qed.

(** Outside an option ROM there are three reasons to be blocked. *)
Lemma blocked_why a u : disciplined (u.1 =? main) u.2 = true -> optionroms && preempt a = false ->
  blocked a u = true ->
  (u.2 = [] /\ u.1 = main) \/ (exists k c, u.2 = Mutex_lock k :: c /\ k ∈ locked a) \/
  (exists c, u.2 = Wait_threads :: c /\ u.1 = main /\ held u.2 = ∅ /\ (1 < length (ring a))%nat).
Proof using.
  unfold blocked. destruct u as [t [|o c]]; simpl; intros Hd Hp Hb; [bool_to_prop; auto|].
  apply andb_true_iff in Hd as [Ho _]. destruct o; try done; simpl in Ho.
  - right. left. apply bool_decide_eq_true in Hb. eauto.
  - right. right. bool_to_prop. apply at_rest_true in H0 as [Hh _]. apply Nat.ltb_lt in Hb. eauto 6.
  - congruence.
Qed.

(** During an option ROM the main thread is not blocked. *)
Lemma preempted_enabled a m u : disciplined m u.2 = true -> preempted u.2 = true -> blocked a u = false.
Proof using.
  unfold blocked. destruct u as [t [|o c]]; simpl; intros Hd Hp; [done|].
  apply andb_true_iff in Hd as [Ho _]. destruct o; try done; simpl in Ho; unfold at_rest in Ho;
    rewrite Hp in Ho; bool_to_prop; done.
Qed.

(** Discipline rules out deadlock. *)
Lemma some_enabled a : inv a -> ring a <> [(main, [])] -> exists u, u ∈ ring a /\ blocked a u = false.
Proof using.
  intros H Hfin. pose proof (i_code _ H) as Hd. rewrite Forall_forall in Hd.
  destruct (optionroms && preempt a) eqn:Ep.
  { rewrite (i_preempt _ H) in Ep. bool_to_prop. apply existsb_exists in H2 as (u & Hu & Hpu).
    apply list_elem_of_In in Hu. exists u. split; [done|]. eapply preempted_enabled; eauto. }
  destruct (decide (locked a = ∅)) as [El|El].
  - assert (exists u, u ∈ ring a /\ (u.1 <> main \/ ring a = [u])) as (u & Hu & Hm).
    { pose proof (i_main _ H) as Hm. pose proof (i_nodup _ H) as Hn.
      destruct (ring a) as [|x [|y l]]; [set_solver|exists x; split; [left|by right]|]. simpl in Hn.
      apply NoDup_cons in Hn as [Hn _]. destruct (decide (x.1 = main)) as [Ex|Ex].
      - exists y. split; [right; left|left]. intros Ey. apply Hn. rewrite Ex, <- Ey. apply list_elem_of_here.
      - exists x. split; [left|by left]. }
    exists u. split; [done|]. destruct (blocked a u) eqn:Eb; [|done].
    apply blocked_why in Eb as [[E1 E2]|[(k & c & _ & Hk)|(c & _ & E2 & _ & Hlen)]]; [..|by apply Hd|done].
    + destruct Hm as [?|Hm]; [done|]. destruct u as [t c]. simpl in *. by subst.
    + set_solver.
    + destruct Hm as [?|Hm]; [done|]. rewrite Hm in Hlen. simpl in Hlen. lia.
  - destruct (greatest_held a H El) as (u & m & Hu & Hm & Hmax). exists u. split; [done|].
    destruct (blocked a u) eqn:Eb; [|done]. pose proof (Hd u Hu) as Hdu.
    apply blocked_why in Eb as [[E1 _]|[(k & c & E1 & Hk)|(c & _ & _ & E1 & _)]]; [..|done|done].
    + rewrite E1 in Hm. set_solver.
    + rewrite E1 in Hm, Hdu. simpl in Hm, Hdu. bool_to_prop. apply bool_decide_eq_true in H3.
      specialize (Hmax k Hk). assert (m <> k /\ m ∈ held c) as [Hmk Hmc] by set_solver.
      specialize (H3 m Hmc). simpl in H3. lia.
    + set_solver.
Qed.

(** Calls still to make. *)
Definition total (a : threads) : nat := sum_list_with (fun u => S (size u.2)) (ring a).

Lemma size_app b c : size (b ++ c) = (size b + size c)%nat.
Proof using. unfold size. induction b as [|o b IH]; simpl; [done|]. rewrite IH. lia. Qed.

Lemma total_app (r1 r2 : list (Z * list op)) f :
  sum_list_with f (r1 ++ r2) = (sum_list_with f r1 + sum_list_with f r2)%nat.
Proof using. induction r1 as [|u r1 IH]; simpl; [done|]. rewrite IH. lia. Qed.

Lemma enabled_step a u r : ring a = u :: r -> blocked a u = false -> (total (spec_step a) < total a)%nat.
Proof using.
  unfold total, spec_step, blocked. intros E Hb. rewrite E in Hb |- *. destruct u as [t [|o c]]; simpl in Hb.
  { rewrite Hb. simpl. lia. }
  destruct o; simpl ring; simpl in Hb; rewrite ?Hb; simpl; rewrite ?total_app; simpl; try lia.
  - destruct (memalign _ _ =? 0); simpl; rewrite ?size_app; unfold size; lia.
  - destruct r; simpl in Hb |- *; [lia|done].
  - destruct (optionroms && preempt a); simpl; rewrite ?total_app; simpl; lia.
Qed.

Lemma blocked_step a u r : ring a = u :: r -> blocked a u = true -> u.2 <> [] ->
  spec_step a = set_ring a (r ++ [u]).
Proof using.
  unfold spec_step, blocked. intros E Hb Hc. rewrite E in Hb |- *. destruct u as [t [|o c]]; [done|].
  destruct o; simpl in Hb; rewrite ?Hb; try done. by destruct r.
Qed.

Context (Hmem : memalign_ok memalign).

Lemma inv_iter n a : inv a -> inv (Nat.iter n spec_step a).
Proof using Hmem. intros H. induction n as [|n IH]; [done|]. by apply inv_step. Qed.

(** A thread that can run does so after those before it had their turn. *)
Lemma turn_comes i a u : inv a -> ring a !! i = Some u -> blocked a u = false ->
  exists n, (total (Nat.iter n spec_step a) < total a)%nat.
Proof using Hmem.
  revert a. induction i as [|i IH]; intros a H Hi Hb; (destruct (ring a) as [|v r] eqn:E; [done|]).
  - simpl in Hi. simplify_eq. exists 1%nat. by eapply enabled_step.
  - destruct (blocked a v) eqn:Ev; [|exists 1%nat; by eapply enabled_step].
    destruct (decide (v.2 = [])) as [Ec|Ec].
    { pose proof (i_ends _ H) as He. unfold ends_waiting in He. rewrite E in He. apply Forall_cons in He as [He _].
      unfold blocked in Ev. rewrite Ec in Ev. apply Z.eqb_eq in Ev. rewrite Ec in He.
      destruct (He Ev) as [|[_ Er]]; [done|]. by simplify_eq. }
    pose proof (blocked_step a v r E Ev Ec) as Es.
    destruct (IH (spec_step a)) as [n Hn].
    + by apply inv_step.
    + rewrite Es. simpl. rewrite lookup_app_l; [done|by eapply lookup_lt_Some].
    + rewrite Es, <- Hb. unfold blocked. simpl. rewrite E, length_app. simpl. by rewrite Nat.add_comm.
    + exists (S n). rewrite Nat.iter_succ_r. rewrite Es in Hn |- *. unfold total in Hn |- *. rewrite E. simpl in Hn.
      rewrite total_app in Hn. simpl in *. lia.
Qed.

Lemma finishes a : inv a -> exists n, ring (Nat.iter n spec_step a) = [(main, [])].
Proof using Hmem.
  remember (total a) as m eqn:Em. revert a Em. induction (lt_wf m) as [m _ IH]. intros a -> H.
  assert (ring a = [(main, [])] \/ ring a <> [(main, [])]) as [|Hf]; [|by exists 0%nat|].
  { destruct (ring a) as [|[t [|o c]] [|v r]]; try by right.
    destruct (decide (t = main)) as [->|]; [by left|right; congruence]. }
  destruct (some_enabled a H Hf) as (u & [i Hi]%list_elem_of_lookup & Hb).
  destruct (turn_comes i a u H Hi Hb) as [n Hn].
  destruct (IH _ Hn _ eq_refl) as [k Hk]; [by apply inv_iter|]. exists (k + n)%nat. by rewrite Nat.iter_add.
Qed.
End Progress.

(** ** What threads do is done once *)

Definition pending (a : threads) : list Z := (history a).*2 ++ flat_map (fun u => events u.2) (ring a).

Lemma pending_step main memalign optionroms a : pending (spec_step main memalign optionroms a) ≡ₚ pending a.
Proof.
  unfold pending, spec_step. destruct (ring a) as [|[t [|o c]] r] eqn:E; [by rewrite E|case_match; by rewrite ?E|].
  destruct o; repeat case_match; simpl; rewrite ?flat_map_app, ?fmap_app; simpl; rewrite ?app_nil_r; try done;
    try (unfold events; by rewrite flat_map_app, (assoc_L app)); try (by rewrite (comm app (events c))).
  - by rewrite <- (assoc_L app).
  - by rewrite <- (assoc_L app).
  - by rewrite (assoc_L app (events _)), (comm app (events c)).
Qed.

Lemma pending_iter main memalign optionroms n a : pending (Nat.iter n (spec_step main memalign optionroms) a) ≡ₚ pending a.
Proof. induction n as [|n IH]; [done|]. etransitivity; [apply pending_step|done]. Qed.

(** A main program that keeps the discipline and ends with [wait_threads]. *)
Definition main_program (c : list op) : Prop := disciplined true c = true /\ at_rest c = true /\ last c = Some Wait_threads.

Lemma inv_setup main optionroms c : main_program c -> inv main optionroms (spec_setup main c).
Proof.
  intros (Hd & [Hh Hp]%at_rest_true & Hl). split; simpl.
  - set_solver.
  - apply NoDup_singleton.
  - constructor; [|done]. simpl. by rewrite Z.eqb_refl.
  - intros k. rewrite holders_cons. simpl. by rewrite Hh, !bool_decide_false by set_solver.
  - rewrite Hp. by destruct optionroms.
  - constructor; [|done]. by left.
Qed.

Lemma irq_setup main c : disciplined true c = true -> irq_main main (spec_setup main c).
Proof.
  intros Hd. constructor; [|done]. unfold irq_thread. simpl. rewrite Z.eqb_refl. by eapply disciplined_main.
Qed.

(** The code a thread will run next. *)
Definition stack_of (s : machine) (t : Z) : list op :=
  if t =? cur s then code s else default [] (stackpos <$> infos s !! t).

Lemma stack_of_ring main s a t c : repr main s a -> t ∈ dom (infos s) -> stack_of s t = c -> (t, c) ∈ ring a.
Proof.
  intros (r & -> & Hl & _) Ht <-. unfold stack_of. destruct (Z.eqb_spec t (cur s)) as [->|Hne]; [left|]. right.
  rewrite (l_dom _ _ _ Hl) in Ht. assert (t ∈ r.*1) as ([t' d] & -> & Hr)%list_elem_of_fmap by set_solver.
  pose proof (l_stacks _ _ _ Hl) as Hs. rewrite Forall_forall in Hs. specialize (Hs _ Hr). simpl in *. by rewrite Hs.
Qed.

Section Theorems.
Context (main : Z) (memalign : gset Z -> list (Z * Z) -> Z) (optionroms : bool).

(** C29.  However threads are started, yield and end, with or without memory for their stacks,
    the linked records behave as a list that is rotated: no record that was freed is
    touched, the ring stays linked both ways and holds exactly the live threads, a new
    thread runs at once and its starter next, and an ended one passes on to its successor. *)
Theorem threads_refine c n : memalign_ok memalign -> forallb main_op c = true ->
  exists s, run main memalign optionroms n (thread_setup main c) = Ok s /\
    repr main s (Nat.iter n (spec_step main memalign optionroms) (spec_setup main c)).
Proof.
  intros Hmem Hc. apply run_refines; [done|apply repr_setup|].
  constructor; [|done]. unfold irq_thread. simpl. by rewrite Z.eqb_refl.
Qed.

(** [mutex_lock] keeps threads apart: in no state of a run do two threads hold the
    same mutex. *)
Theorem thread_mutex_exclusion c n s t1 t2 k : memalign_ok memalign -> main_program c ->
  run main memalign optionroms n (thread_setup main c) = Ok s ->
  t1 ∈ dom (infos s) -> t2 ∈ dom (infos s) -> k ∈ held (stack_of s t1) -> k ∈ held (stack_of s t2) -> t1 = t2.
Proof.
  intros Hmem Hc Hr H1 H2 K1 K2. pose proof (irq_setup main c (proj1 Hc)) as Hirq.
  destruct (run_refines main memalign optionroms n _ _ Hmem (repr_setup main c) Hirq) as (s' & E & Hs).
  rewrite Hr in E. simplify_eq. pose proof (inv_iter main memalign optionroms Hmem n _ (inv_setup main optionroms c Hc)) as Hi.
  eapply stack_of_ring in H1, H2; [|done..]. revert H1 H2. pose proof (i_locks _ _ _ Hi k) as Hk. revert Hk.
  set (r := ring _). intros Hk H1 H2.
  assert (holders k r <= 1)%nat as Hle by (destruct (bool_decide _); lia). clear Hk.
  apply list_elem_of_split in H1 as (r1 & r2 & Er). rewrite Er in H2, Hle.
  rewrite holders_app, holders_cons in Hle. simpl in Hle. rewrite bool_decide_true in Hle by done.
  rewrite elem_of_app, elem_of_cons in H2. destruct H2 as [H2|[H2|H2]]; [exfalso| by injection H2|exfalso];
    apply list_elem_of_split in H2 as (r3 & r4 & ->); rewrite holders_app, holders_cons in Hle; simpl in Hle;
    rewrite bool_decide_true in Hle by done; lia.
Qed.

(** C14.  [wait_threads] returns: if threads take mutexes in order and give them back, every
    thread that was started, by threads too, runs to its end, all that was to be done is
    done once, no mutex is left locked, and only the main thread's record is left. *)
Theorem wait_threads_completes c : memalign_ok memalign -> main_program c ->
  exists n s, run main memalign optionroms n (thread_setup main c) = Ok s /\
    cur s = main /\ code s = [] /\ dom (infos s) = {[main]} /\ mutexes s = ∅ /\ (done s).*2 ≡ₚ events c.
Proof.
  intros Hmem Hc. destruct (finishes main memalign optionroms Hmem _ (inv_setup main optionroms c Hc)) as [n Hn].
  destruct (run_refines main memalign optionroms n _ _ Hmem (repr_setup main c) (irq_setup main c (proj1 Hc)))
    as (s & E & r & Hr & Hl & _ & Hm & _ & Hh).
  exists n, s. split; [done|]. rewrite Hn in Hr. injection Hr as Ec Eco <-. split_and!; [done|done| | |].
  - rewrite (l_dom _ _ _ Hl), <- Ec. set_solver.
  - rewrite Hm. apply set_eq. intros k.
    pose proof (i_locks _ _ _ (inv_iter main memalign optionroms Hmem n _ (inv_setup main optionroms c Hc)) k) as Hk.
    rewrite Hn in Hk. cbn in Hk. case_bool_decide; [done|set_solver].
  - pose proof (pending_iter main memalign optionroms n (spec_setup main c)) as Hp. unfold pending in Hp at 1.
    rewrite Hn, <- Hh in Hp. simpl in Hp. rewrite !app_nil_r in Hp. unfold pending in Hp. simpl in Hp.
    by rewrite app_nil_r in Hp.
Qed.
End Theorems.

(** A stack pointer inside a thread's stack finds its record, one in the BIOS stack the
    main thread's. *)
Lemma getCurThread_stack main t esp :
  (0 <= esp <= BUILD_STACK_ADDR -> getCurThread main esp = main) /\
  (t mod THREADSTACKSIZE = 0 -> BUILD_STACK_ADDR < t -> t + THREADSTACKSIZE <= 2 ^ 32 ->
    t < esp < t + THREADSTACKSIZE -> getCurThread main esp = t).
Proof.
  unfold getCurThread, BUILD_STACK_ADDR, THREADSTACKSIZE. split.
  - intros H. by rewrite (proj2 (Z.leb_le _ _)) by lia.
  - intros Ht Hs Hb He. rewrite (proj2 (Z.leb_gt _ _)) by lia.
    change 4096 with (2 ^ 12) at 1. rewrite ALIGN_DOWN_pow2 by lia. Z.to_euclidean_division_equations. lia.
Qed.

(** ** Runs *)

(** Two threads that take the same two mutexes, one of them started by the other. *)
Definition demo_port : list op :=
  [Mutex_lock 1; Yield; Mutex_lock 2; Do 7; Yield; Mutex_unlock 2; Mutex_unlock 1; Do 8].
Definition demo_main : list op :=
  [Run_thread (Run_thread demo_port :: demo_port); Start_preempt; Check_preempt; Do 9; Finish_preempt; Wait_preempt;
   Wait_threads].
Definition demo_memalign (live : gset Z) (l : list (Z * Z)) : Z := fresh live.

Lemma demo_memalign_ok : memalign_ok demo_memalign.
Proof. intros live l. right. apply is_fresh. Qed.

Lemma threads_refine_witness : exists s,
  run 16 demo_memalign true 12 (thread_setup 16 demo_main) = Ok s /\
  repr 16 s (Nat.iter 12 (spec_step 16 demo_memalign true) (spec_setup 16 demo_main)).
Proof. apply (threads_refine 16 _ true demo_main 12); [apply demo_memalign_ok|by vm_compute]. Defined.

Lemma demo_program : main_program demo_main.
Proof. by vm_compute. Qed.

Definition demo_run (n : nat) : machine :=
  match run 16 demo_memalign true n (thread_setup 16 demo_main) with Ok s => s | _ => thread_setup 16 [] end.

Lemma thread_mutex_exclusion_witness :
  1 ∈ held (stack_of (demo_run 9) 18) /\
  (forall t, t ∈ dom (infos (demo_run 9)) -> 1 ∈ held (stack_of (demo_run 9) t) -> t = 18).
Proof.
  split; [apply (bool_decide_unpack _); by vm_compute|]. intros t Ht Hk.
  apply (thread_mutex_exclusion 16 demo_memalign true demo_main 9 (demo_run 9) t 18 1);
    [apply demo_memalign_ok|apply demo_program|by vm_compute|exact Ht| |exact Hk|];
    apply (bool_decide_unpack _); by vm_compute.
Defined.

Lemma wait_threads_completes_witness : exists n s,
  run 16 demo_memalign true n (thread_setup 16 demo_main) = Ok s /\
  code s = [] /\ mutexes s = ∅ /\ (done s).*2 ≡ₚ [7; 8; 7; 8; 9].
Proof.
  destruct (wait_threads_completes 16 demo_memalign true demo_main demo_memalign_ok demo_program)
    as (n & s & E & _ & Hc & _ & Hm & Hd).
  exists n, s. split_and!; [exact E|exact Hc|exact Hm|exact Hd].
Defined.
