(* ===== verification/Boot.v ===== *)
(** * Boot order: [bios/seabios/src/boot.c], [boot.h]

    The tables of boot devices (BEV) and of boot connection vectors (BCV), the boot menu,
    and interrupts 0x18 and 0x19.  The arrays are their used entries, so that [bevcount]
    and [bcvcount] are lengths.  Keys, the disk interrupt, the start of a disc's boot image
    and the code that is booted are arguments; code that is booted returns new memory or
    never returns. *)

From stdpp Require Import sorting.
From S2P Require Import Prelude BiosUtil Bregs Block.
Local Open Scope Z_scope.
Local Open Scope coremu_scope.

(** ** Data *)

(** A description is a string of the BIOS or a pointer into an option ROM. *)
Inductive text := Literal (s : string) | Pointer (p : Z).

Record ipl_entry_s := mk_entry { ie_type : Z; subchoice : Z; vector : Z; description : text }.

Record ipl_s := mk_ipl {
  bev : list ipl_entry_s; bcv : list ipl_entry_s; bootorder : Z; checkfloppysig : bool }.

Definition IPL_TYPE_FLOPPY : Z := 0x01.
Definition IPL_TYPE_HARDDISK : Z := 0x02.
Definition IPL_TYPE_CDROM : Z := 0x03.
Definition IPL_TYPE_CBFS : Z := 0x20.
Definition IPL_TYPE_BEV : Z := 0x80.
Definition BCV_TYPE_EXTERNAL : Z := 0x80.
Definition BCV_TYPE_INTERNAL : Z := 0x02.
Definition MAX_ENTRIES : nat := 8.

Definition CMOS_BIOS_BOOTFLAG1 : Z := 0x38.
Definition CMOS_BIOS_BOOTFLAG2 : Z := 0x3d.

Definition set_bev (i : ipl_s) l := mk_ipl l (bcv i) (bootorder i) (checkfloppysig i).
Definition set_bcv (i : ipl_s) l := mk_ipl (bev i) l (bootorder i) (checkfloppysig i).

(** ** Filling the tables *)

Definition boot_setup (inb_cmos : Z -> Z) (m : memory) : ipl_s * memory :=
  let entry t d := mk_entry t 0 0 (Literal d) in
  let flag1 := u8 (inb_cmos CMOS_BIOS_BOOTFLAG1) in
  let order := Z.lor (u8 (inb_cmos CMOS_BIOS_BOOTFLAG2)) (Z.shiftl (Z.land flag1 0xf0) 4) in
  (mk_ipl [entry IPL_TYPE_FLOPPY "Floppy"; entry IPL_TYPE_HARDDISK "Hard Disk"; entry IPL_TYPE_CDROM "CD-Rom"]
     [] order (Z.land flag1 1 =? 0),
   writew m (ebda m "boot_sequence") 0xffff).

Definition rom_text (seg desc : Z) (d : string) : text :=
  if desc =? 0 then Literal d else Pointer (MAKE_FLATPTR seg desc).

Definition add_bev (i : ipl_s) (seg b desc : Z) : ipl_s :=
  if bool_decide (MAX_ENTRIES <= length (bev i))%nat then i
  else set_bev i (bev i ++ [mk_entry IPL_TYPE_BEV 0 (Z.lor (Z.shiftl seg 16) b) (rom_text seg desc "Unknown")]).

Definition add_bcv (i : ipl_s) (seg ip desc : Z) : ipl_s :=
  if bool_decide (MAX_ENTRIES <= length (bcv i))%nat then i
  else set_bcv i (bcv i ++ [mk_entry BCV_TYPE_EXTERNAL 0 (Z.lor (Z.shiftl seg 16) ip) (rom_text seg desc "Legacy option rom")]).

Section Bcv.
Context (heap : gmap Z drive_s).

(** Where a drive goes: before the later drives at the end of the list. *)
Fixpoint bcv_pos (l : list ipl_entry_s) (d : drive_s) (pos : nat) : outcome nat :=
  match pos with
  | O => Ok O
  | S n =>
      let! prev := of_option (l !! n) in
      if negb (ie_type prev =? BCV_TYPE_INTERNAL) then Ok pos
      else
        let! p := of_option (heap !! vector prev) in
        if before p d then Ok pos else bcv_pos l d n
  end.

Definition internal (drive_g : Z) : ipl_entry_s := mk_entry BCV_TYPE_INTERNAL 0 drive_g (Literal "").

Definition add_bcv_internal (i : ipl_s) (drive_g : Z) : outcome ipl_s :=
  if bool_decide (MAX_ENTRIES <= length (bcv i))%nat then Ok i
  else
    let! d := of_option (heap !! drive_g) in
    let! pos := bcv_pos (bcv i) d (length (bcv i)) in
    Ok (set_bcv i (list_insert_at pos (internal drive_g) (bcv i))).
End Bcv.

(** ** The menu *)

(** What a line of the menu offers. *)
Inductive item :=
| ItemDrive (drive_g : Z)
| ItemEntry (e : ipl_entry_s).

(** Lines are numbered from [menupos]. *)
Fixpoint number (menupos : Z) (l : list item) : list (Z * item) :=
  match l with [] => [] | x :: l => (menupos, x) :: number (menupos + 1) l end.

Fixpoint menu_show_drives (D : drives_s) (t : nat) (n : nat) (k menupos : Z) : outcome (list (Z * item)) :=
  match n with
  | O => Ok []
  | S n =>
      let! drive_g := getDrive D t k in
      let! l := menu_show_drives D t n (k + 1) (menupos + 1) in
      Ok ((menupos, ItemDrive drive_g) :: l)
  end.

Definition menu_show_default (ie : ipl_entry_s) (menupos : Z) : list (Z * item) := [(menupos, ItemEntry ie)].
Definition menu_show_floppy D (menupos : Z) := menu_show_drives D EXTTYPE_FLOPPY (Z.to_nat (floppycount D)) 0 menupos.
Definition menu_show_cdrom D (menupos : Z) := menu_show_drives D EXTTYPE_CD (Z.to_nat (cdcount D)) 0 menupos.
Definition menu_show_harddisk (i : ipl_s) (menupos : Z) : list (Z * item) := number menupos (ItemEntry <$> bcv i).

(** There is no coreboot file system, and so no entry of that type, in this configuration. *)
Definition menu_show (D : drives_s) (i : ipl_s) (ie : ipl_entry_s) (menupos : Z) : outcome (list (Z * item)) :=
  if ie_type ie =? IPL_TYPE_FLOPPY then menu_show_floppy D menupos
  else if ie_type ie =? IPL_TYPE_HARDDISK then Ok (menu_show_harddisk i menupos)
  else if ie_type ie =? IPL_TYPE_CDROM then menu_show_cdrom D menupos
  else Ok (menu_show_default ie menupos).

(** The lines shown for each entry of [bev]; their numbers are [subcount]. *)
Fixpoint menu_lines (D : drives_s) (i : ipl_s) (l : list ipl_entry_s) (menupos : Z) : outcome (list (list (Z * item))) :=
  match l with
  | [] => Ok []
  | ie :: l =>
      let! ls := menu_show D i ie menupos in
      let! rest := menu_lines D i l (menupos + Z.of_nat (length ls)) in
      Ok (ls :: rest)
  end.

(** The entry and the place in it of a choice. *)
Fixpoint find_bev (subcount : list Z) (bev : nat) (choice : Z) : outcome (nat * Z) :=
  match subcount with
  | [] => Fault
  | sc :: l => if sc <? choice then find_bev l (S bev) (choice - sc) else Ok (bev, choice)
  end.

Definition choose (i : ipl_s) (subcount : list Z) (choice : Z) : outcome ipl_s :=
  let! '(b, c) := find_bev subcount 0 choice in
  let! e := of_option (bev i !! b) in
  let e := mk_entry (ie_type e) (u16 (c - 1)) (vector e) (description e) in
  Ok (mk_ipl (<[b := e]> (bev i)) (bcv i) (u32 (Z.lor (Z.shiftl (bootorder i) 4) (Z.of_nat b + 1))) (checkfloppysig i)).

(** [keys n] is what the n-th call of [get_keystroke] returns.  [Ok None] when a loop is
    still running after [fuel] rounds. *)
Section Menu.
Context (keys : nat -> Z).

Fixpoint drain (fuel n : nat) : option nat :=
  match fuel with
  | O => None
  | S fuel => if 0 <=? keys n then drain fuel (S n) else Some (S n)
  end.

Fixpoint menu_loop (fuel n : nat) (i : ipl_s) (subcount : list Z) (menupos : Z) : outcome (option ipl_s) :=
  match fuel with
  | O => Ok None
  | S fuel =>
      let scan_code := keys n in
      if scan_code =? 0x01 then Ok (Some i)
      else if (scan_code <? 1) || (menupos <? scan_code) then menu_loop fuel (S n) i subcount menupos
      else let! i := choose i subcount (scan_code - 1) in Ok (Some i)
  end.

(** [show] is [qemu_cfg_show_boot_menu()]. *)
Definition interactive_bootmenu (fuel : nat) (show : bool) (D : drives_s) (i : ipl_s) : outcome (option ipl_s) :=
  if negb show then Ok (Some i)
  else match drain fuel 0 with
  | None => Ok None
  | Some n =>
      if negb (keys n =? 0x86) then Ok (Some i)
      else match drain fuel (S n) with
      | None => Ok None
      | Some n =>
          let! lines := menu_lines D i (bev i) 1 in
          let subcount := (fun l => Z.of_nat (length l)) <$> lines in
          menu_loop fuel n i subcount (1 + foldr Z.add 0 subcount)
      end
  end.
End Menu.

(** ** Running the connection vectors *)

Section Prep.
Context (heap : gmap Z drive_s) (call_bcv : Z -> Z -> drives_s -> memory -> drives_s * memory).

Definition run_bcv (D : drives_s) (m : memory) (ie : ipl_entry_s) : outcome (drives_s * memory) :=
  if ie_type ie =? BCV_TYPE_INTERNAL then map_hd_drive heap D m (vector ie)
  else if ie_type ie =? BCV_TYPE_EXTERNAL then Ok (call_bcv (Z.shiftr (vector ie) 16) (Z.land (vector ie) 0xffff) D m)
  else Ok (D, m).

(** The last loop of [boot_prep], from entry [k] on. *)
Fixpoint run_others (D : drives_s) (m : memory) (override : Z) (k : Z) (l : list ipl_entry_s) : outcome (drives_s * memory) :=
  match l with
  | [] => Ok (D, m)
  | ie :: l =>
      let! '(D, m) := if k =? override then Ok (D, m) else run_bcv D m ie in
      run_others D m override (k + 1) l
  end.

Definition swap_floppy (D : drives_s) (override : Z) : outcome drives_s :=
  let! row := of_option (idmap D !! EXTTYPE_FLOPPY) in
  let! tmp := of_option (row !! 0%nat) in
  let! d := of_option (row !! Z.to_nat override) in
  Ok (set_row D EXTTYPE_FLOPPY (<[Z.to_nat override := tmp]> (<[0%nat := d]> row))).

(** [boot_prep] after the menu has returned [i]. *)
Definition boot_prep (i : ipl_s) (D : drives_s) (m : memory) : outcome (drives_s * memory) :=
  let! floppy := of_option (bev i !! 0%nat) in
  let! D := swap_floppy D (subchoice floppy) in
  let! disk := of_option (bev i !! 1%nat) in
  let override := subchoice disk in
  let! '(D, m) := match bcv i !! Z.to_nat override with Some ie => run_bcv D m ie | None => Ok (D, m) end in
  run_others D m override 0 (bcv i).
End Prep.

(** ** Interrupts 0x18 and 0x19 *)

(** [Runs]: control is with the code booted at [seg:ip]; [Fails]: it came back. *)
Inductive attempt :=
| Runs (seg ip drive : Z)
| Fails (m : memory).

Inductive ending :=
| Booted (seg ip drive : Z)
| NoDevice.

Definition MBR_SIGNATURE : Z := 0xaa55.

Section Boot.
Context (int13 : memory -> bregs -> memory * bregs).
Context (call16 : Z -> Z -> bregs -> memory -> option memory).
Context (cdrom_boot : Z -> memory -> Z * memory).

Definition zero_regs : bregs := mk_bregs 0 0 0 0 0 0 0 0 0 F_IF.

Definition call_boot_entry (m : memory) (bootseg bootip bootdrv : Z) : attempt :=
  let br := set_ax (set_dl zero_regs bootdrv) 0xaa55 in
  match call16 bootseg bootip br m with
  | None => Runs bootseg bootip bootdrv
  | Some m => Fails m
  end.

Definition boot_disk (m : memory) (bootdrv : Z) (checksig : bool) : attempt :=
  let bootseg := 0x07c0 in
  let br := set_cl (set_al (set_ah (set_es (set_dl zero_regs bootdrv) bootseg) 2) 1) 1 in
  let '(m, br) := int13 m br in
  if negb (Z.land (flags br) F_CF =? 0) then Fails m
  else if checksig && negb (readw m (bootseg * 16 + 0x1fe) =? MBR_SIGNATURE) then Fails m
  else call_boot_entry m (Z.land bootseg 0xf000) (u16 (Z.shiftl (Z.land bootseg 0x0fff) 4)) bootdrv.

Definition boot_cdrom (m : memory) (ie : ipl_entry_s) : attempt :=
  let '(status, m) := cdrom_boot (subchoice ie) m in
  if negb (status =? 0) then Fails m
  else
    let bootdrv := readb m (cdemu m "emulated_extdrive") in
    let bootseg := readw m (cdemu m "load_segment") in
    call_boot_entry m (Z.land bootseg 0xf000) (u16 (Z.shiftl (Z.land bootseg 0x0fff) 4)) bootdrv.

(** The attempt to boot one entry; there is no coreboot file system in this configuration. *)
Definition boot_entry (i : ipl_s) (ie : ipl_entry_s) (m : memory) : attempt :=
  let t := ie_type ie in
  if t =? IPL_TYPE_FLOPPY then boot_disk m 0x00 (checkfloppysig i)
  else if t =? IPL_TYPE_HARDDISK then boot_disk m 0x80 true
  else if t =? IPL_TYPE_CDROM then boot_cdrom m ie
  else if t =? IPL_TYPE_BEV then call_boot_entry m (Z.shiftr (vector ie) 16) (Z.land (vector ie) 0xffff) 0
  else Fails m.

(** Interrupt 0x18, which follows a failed attempt, is [handle_18]; a shift by 32 or more has
    no meaning in C. *)
Fixpoint do_boot (fuel : nat) (i : ipl_s) (m : memory) (seq_nr : Z) : outcome (option ending) :=
  match fuel with
  | O => Ok None
  | S fuel =>
      if 32 <=? 4 * seq_nr then Fault
      else
        let bootdev := Z.land (Z.shiftr (bootorder i) (4 * seq_nr)) 0xf in
        let bootdev := u32 (bootdev - 1) in
        if Z.of_nat (length (bev i)) <=? bootdev then Ok (Some NoDevice)
        else
          let! ie := of_option (bev i !! Z.to_nat bootdev) in
          match boot_entry i ie m with
          | Runs seg ip drive => Ok (Some (Booted seg ip drive))
          | Fails m =>
              let seq := u16 (readw m (ebda m "boot_sequence") + 1) in
              do_boot fuel i (writew m (ebda m "boot_sequence") seq) seq
          end
  end.

Definition handle_18 (fuel : nat) (i : ipl_s) (m : memory) : outcome (option ending) :=
  let seq := u16 (readw m (ebda m "boot_sequence") + 1) in
  do_boot fuel i (writew m (ebda m "boot_sequence") seq) seq.

Definition handle_19 (fuel : nat) (i : ipl_s) (m : memory) : outcome (option ending) :=
  do_boot fuel i (writew m (ebda m "boot_sequence") 0) 0.
End Boot.

(** ** Devices are tried in order *)

(** The digits of the boot order, first choice first. *)
Definition digits (i : ipl_s) : list Z := (fun j => bootorder i / 16 ^ Z.of_nat j mod 16) <$> seq 0 8.

(** Digits count from 1. *)
Definition device (i : ipl_s) (d : Z) : option ipl_entry_s := if d =? 0 then None else bev i !! Z.to_nat (d - 1).

Section Order.
Context (int13 : memory -> bregs -> memory * bregs).
Context (call16 : Z -> Z -> bregs -> memory -> option memory).
Context (cdrom_boot : Z -> memory -> Z * memory).
Notation boot_entry := (boot_entry int13 call16 cdrom_boot).

Definition boot_sequence (m : memory) : Z := ebda m "boot_sequence".

(** Try the devices of the digits in turn, until one does not come back or a digit names
    none; attempt number [j] finds its number in the extended data area. *)
Fixpoint try_devices (i : ipl_s) (ds : list Z) (j : Z) (m : memory) : ending :=
  match ds with
  | [] => NoDevice
  | d :: ds =>
      match device i d with
      | None => NoDevice
      | Some ie =>
          match boot_entry i ie (writew m (boot_sequence m) j) with
          | Runs seg ip drive => Booted seg ip drive
          | Fails m => try_devices i ds (j + 1) m
          end
      end
  end.

(** An attempt that fails leaves the extended data area where it is, above the BIOS data
    area, and the attempt's number in it. *)
Definition keeps_sequence (i : ipl_s) : Prop :=
  forall ie m m', boot_entry i ie m = Fails m' ->
    get_ebda_seg m' = get_ebda_seg m /\ readw m' (boot_sequence m) = readw m (boot_sequence m).

Definition ebda_high (m : memory) : Prop := 0x50 <= get_ebda_seg m.

Lemma ebda_seg_sequence m v : ebda_high m ->
  get_ebda_seg (writew m (boot_sequence m) v) = get_ebda_seg m.
Proof using.
  unfold ebda_high, boot_sequence, ebda, get_ebda_seg. set (o := offsetof extended_bios_data_area_s "boot_sequence").
  vm_compute in o. subst o. set (a := bda "ebda_seg"). vm_compute in a. subst a.
  intros H. apply readw_writew_ne. lia.
Qed.

Lemma boot_sequence_eq m m' : get_ebda_seg m' = get_ebda_seg m -> boot_sequence m' = boot_sequence m.
Proof using. unfold boot_sequence, ebda. by intros ->. Qed.

Lemma digit_shift x j : 0 <= x -> 0 <= j -> Z.land (Z.shiftr x (4 * j)) 0xf = x / 16 ^ j mod 16.
Proof using.
  intros Hx Hj. change 0xf with (Z.ones 4). rewrite Z.land_ones, Z.shiftr_div_pow2 by lia.
  by rewrite (Z.pow_mul_r 2 4 j) by lia.
Qed.

(** The test on [bootdev] is whether the digit names a device. *)
Lemma device_test i d : 0 <= d < 16 -> (length (bev i) <= 15)%nat ->
  (Z.of_nat (length (bev i)) <=? u32 (d - 1)) = (if device i d then false else true) /\
  (forall ie, device i d = Some ie -> bev i !! Z.to_nat (u32 (d - 1)) = Some ie).
Proof using.
  intros Hd Hl. unfold device. destruct (Z.eqb_spec d 0) as [->|Hne].
  - split; [apply Z.leb_le|done]. change (u32 (0 - 1)) with (2 ^ 32 - 1). lia.
  - rewrite wrap_small by (unfold in_u; lia). destruct (bev i !! Z.to_nat (d - 1)) eqn:E.
    + apply lookup_lt_Some in E. split; [apply Z.leb_gt; lia|done].
    + apply lookup_ge_None in E. split; [apply Z.leb_le; lia|done].
Qed.

Notation boot_seq := (do_boot int13 call16 cdrom_boot).

(** One round, with the number of the attempt kept in memory. *)
Lemma do_boot_step f i m j : 0 <= bootorder i -> (length (bev i) <= 15)%nat -> keeps_sequence i -> ebda_high m -> 0 <= j <= 7 ->
  boot_seq (S f) i (writew m (boot_sequence m) j) j =
  match device i (bootorder i / 16 ^ j mod 16) with
  | None => Ok (Some NoDevice)
  | Some ie =>
      match boot_entry i ie (writew m (boot_sequence m) j) with
      | Runs seg ip drive => Ok (Some (Booted seg ip drive))
      | Fails m' => boot_seq f i (writew m' (boot_sequence m') (j + 1)) (j + 1)
      end
  end /\
  (forall ie m', boot_entry i ie (writew m (boot_sequence m) j) = Fails m' -> ebda_high m').
Proof using.
  intros Ho Hl Hk Hm Hj. assert (forall ie m', boot_entry i ie (writew m (boot_sequence m) j) = Fails m' ->
    get_ebda_seg m' = get_ebda_seg m /\ readw m' (boot_sequence m') = j) as Hf.
  { intros ie m' Ea. apply Hk in Ea as [Hseg Hseq]. rewrite ebda_seg_sequence in Hseg by done. split; [done|].
    rewrite (boot_sequence_eq m) in Hseq by (by apply ebda_seg_sequence).
    rewrite (boot_sequence_eq m m' Hseg), Hseq, readw_writew. apply wrap_small. unfold in_u. lia. }
  split; [|intros ie m' [Hseg _]%Hf; unfold ebda_high; by rewrite Hseg].
  cbn [do_boot]. rewrite (proj2 (Z.leb_gt 32 _)), digit_shift by lia.
  pose proof (Z.mod_pos_bound (bootorder i / 16 ^ j) 16 ltac:(lia)) as Hd.
  destruct (device_test i _ Hd Hl) as [-> Hie]. destruct (device i _) as [ie|]; [|done].
  rewrite (Hie ie eq_refl). cbn [of_option obind]. destruct (boot_entry i ie _) as [|m'] eqn:Ea; [done|].
  apply Hf in Ea as [_ Eseq]. fold (boot_sequence m'). by rewrite Eseq, wrap_small by (unfold in_u; lia).
Qed.

Lemma do_boot_tries i k m j : 0 <= bootorder i < 2 ^ 28 -> (length (bev i) <= 15)%nat -> keeps_sequence i -> ebda_high m ->
  (j + k = 7)%nat ->
  boot_seq (S k) i (writew m (boot_sequence m) (Z.of_nat j)) (Z.of_nat j) =
  Ok (Some (try_devices i (drop j (digits i)) (Z.of_nat j) m)).
Proof using.
  intros Ho Hl Hk. revert m j. assert (forall j, (j <= 7)%nat ->
    drop j (digits i) = bootorder i / 16 ^ Z.of_nat j mod 16 :: drop (S j) (digits i)) as Hdrop.
  { intros j Hj. apply drop_S. unfold digits. by rewrite list_lookup_fmap, lookup_seq_lt by lia. }
  induction k as [|k IH]; intros m j Hm Hj; rewrite Hdrop by lia; cbn [try_devices].
  - destruct (do_boot_step 0 i m (Z.of_nat j)) as [-> _]; [lia|done|done|done|lia|].
    replace (Z.of_nat j) with 7 by lia. rewrite (Z.div_small (bootorder i)) by (change (16 ^ 7) with (2 ^ 28); lia). done.
  - destruct (do_boot_step (S k) i m (Z.of_nat j)) as [-> Hh]; [lia|done|done|done|lia|].
    destruct (device i _) as [ie|]; [|done]. destruct (boot_entry i ie _) as [|m'] eqn:Ea; [done|].
    apply Hh in Ea. replace (Z.of_nat j + 1) with (Z.of_nat (S j)) by lia. apply IH; [done|lia].
Qed.
End Order.


(** ** A line of the menu is what gets booted *)

(** What choice number [k] of a boot device is. *)
Definition offers (D : drives_s) (i : ipl_s) (ie : ipl_entry_s) (k : nat) : outcome item :=
  if ie_type ie =? IPL_TYPE_FLOPPY then let! d := getDrive D EXTTYPE_FLOPPY (Z.of_nat k) in Ok (ItemDrive d)
  else if ie_type ie =? IPL_TYPE_HARDDISK then of_option (ItemEntry <$> bcv i !! k)
  else if ie_type ie =? IPL_TYPE_CDROM then let! d := getDrive D EXTTYPE_CD (Z.of_nat k) in Ok (ItemDrive d)
  else Ok (ItemEntry ie).

Lemma number_lookup mp l k n it : number mp l !! k = Some (n, it) -> n = mp + Z.of_nat k /\ l !! k = Some it.
Proof.
  revert mp k. induction l as [|x l IH]; intros mp [|k] H; simpl in *; try done.
  - injection H as -> ->. split; [lia|done].
  - apply IH in H as [-> H]. split; [lia|done].
Qed.

Lemma show_drives_lookup D t n0 j mp ls k n it : menu_show_drives D t n0 j mp = Ok ls -> ls !! k = Some (n, it) ->
  n = mp + Z.of_nat k /\ (let! d := getDrive D t (j + Z.of_nat k) in Ok (ItemDrive d)) = Ok it.
Proof.
  revert j mp ls k. induction n0 as [|n0 IH]; intros j mp ls k H Hk; simpl in H; inv_ok; [done|].
  destruct k as [|k]; simpl in Hk.
  - injection Hk as <- <-. rewrite !Z.add_0_r, E. split; [lia|done].
  - destruct (IH _ _ _ _ E0 Hk) as [-> H]. split; [lia|]. by replace (j + Z.of_nat (S k)) with (j + 1 + Z.of_nat k) by lia.
Qed.

Lemma menu_show_lookup D i ie mp ls k n it : menu_show D i ie mp = Ok ls -> ls !! k = Some (n, it) ->
  n = mp + Z.of_nat k /\ offers D i ie k = Ok it.
Proof.
  unfold menu_show, offers. intros H Hk. repeat case_match.
  - by apply (show_drives_lookup _ _ _ _ _ _ _ _ _ H) in Hk.
  - inv_ok. apply number_lookup in Hk as [-> Hk]. rewrite list_lookup_fmap in Hk. split; [done|].
    destruct (bcv i !! k); simplify_eq/=. done.
  - by apply (show_drives_lookup _ _ _ _ _ _ _ _ _ H) in Hk.
  - inv_ok. destruct k as [|[|k]]; simpl in Hk; simplify_eq. split; [lia|done].
Qed.

(** The number of a line counts the lines before it. *)
Lemma menu_lines_lookup D i l mp lines b ls k n it :
  menu_lines D i l mp = Ok lines -> lines !! b = Some ls -> ls !! k = Some (n, it) ->
  n = mp + foldr Z.add 0 ((fun l => Z.of_nat (length l)) <$> take b lines) + Z.of_nat k /\
  exists ie, l !! b = Some ie /\ offers D i ie k = Ok it.
Proof.
  revert mp lines b. induction l as [|ie l IH]; intros mp lines b H Hb Hk; simpl in H; inv_ok; [done|].
  destruct b as [|b]; simpl in Hb.
  - injection Hb as <-. destruct (menu_show_lookup _ _ _ _ _ _ _ _ E Hk) as [-> Ho]. simpl. split; [lia|eauto].
  - destruct (IH _ _ _ E0 Hb Hk) as [-> Ho]. cbn [take]. rewrite fmap_cons. cbn [foldr]. split; [lia|done].
Qed.

Lemma find_bev_spec lens b0 b sc k : lens !! b = Some sc -> Forall (fun x => 0 <= x) lens -> 0 <= k < sc ->
  find_bev lens b0 (foldr Z.add 0 (take b lens) + k + 1) = Ok ((b0 + b)%nat, k + 1).
Proof.
  revert b0 b. induction lens as [|x lens IH]; intros b0 b Hb Hf Hk; [done|]. apply Forall_cons in Hf as [Hx Hf].
  destruct b as [|b]; simpl in Hb |- *.
  - injection Hb as ->. rewrite (proj2 (Z.ltb_ge _ _)) by lia. by rewrite Nat.add_0_r.
  - assert (0 <= foldr Z.add 0 (take b lens)) as Hs.
    { clear -Hf. revert b. induction Hf; intros [|b]; simpl; [done..|]. specialize (IHHf b). simpl in *. lia. }
    rewrite (proj2 (Z.ltb_lt _ _)) by lia. replace (_ - x) with (foldr Z.add 0 (take b lens) + k + 1) by lia.
    rewrite IH by done. by rewrite Nat.add_succ_r.
Qed.

Lemma sum_take lens b sc : lens !! b = Some sc -> Forall (fun x => 0 <= x) lens ->
  0 <= foldr Z.add 0 (take b lens) /\ foldr Z.add 0 (take b lens) + sc <= foldr Z.add 0 lens.
Proof.
  revert b. induction lens as [|x lens IH]; intros b Hb Hf; [done|]. apply Forall_cons in Hf as [Hx Hf].
  destruct b as [|b]; simpl in Hb |- *.
  - injection Hb as ->. split; [done|]. assert (0 <= foldr Z.add 0 lens); [|lia].
    clear -Hf. induction Hf; simpl in *; lia.
  - specialize (IH b Hb Hf). lia.
Qed.

(** A digit put before the others. *)
Lemma digits_push i i' d : 0 <= d < 16 -> 0 <= bootorder i < 2 ^ 24 ->
  bootorder i' = u32 (Z.lor (Z.shiftl (bootorder i) 4) d) -> digits i' = d :: take 7 (digits i).
Proof.
  intros Hd Ho E. rewrite Z.lor_comm, lor_shiftl, wrap_small in E by (unfold in_u; lia).
  unfold digits. rewrite <- fmap_take. change (seq 0 8) with (0%nat :: seq 1 7) at 1. change (take 7 (seq 0 8)) with (seq 0 7).
  rewrite fmap_cons, <- fmap_S_seq, <- list_fmap_compose. f_equal.
  - simpl. rewrite E, Z.div_1_r, Z.add_mod, Z.mod_mul by lia. rewrite Z.add_0_r, Z.mod_mod, Z.mod_small; lia.
  - apply list_fmap_ext. intros _ j _. simpl. rewrite E, Nat2Z.inj_succ, Z.pow_succ_r, <- Z.div_div by lia.
    by rewrite Z.div_add, (Z.div_small d), Z.add_0_l by lia.
Qed.

(** C33.  The line of the boot menu the user picks is what is booted first: after F12 and the key of
    a line's number, the first device tried is the one the line belongs to, with the
    choice among its drives or vectors that the line showed; nothing else changes but
    that the old boot order follows. *)
Theorem bootmenu_choice keys fuel D i lines n0 n1 num it :
  menu_lines D i (bev i) 1 = Ok lines -> (num, it) ∈ mjoin lines ->
  (length (bev i) <= MAX_ENTRIES)%nat -> 0 <= bootorder i < 2 ^ 24 -> num < 2 ^ 16 -> (0 < fuel)%nat ->
  drain keys fuel 0 = Some n0 -> keys n0 = 0x86 -> drain keys fuel (S n0) = Some n1 -> keys n1 = num + 1 ->
  exists i' b ie k, interactive_bootmenu keys fuel true D i = Ok (Some i') /\
    bev i !! b = Some ie /\ offers D i ie k = Ok it /\
    bev i' = <[b := mk_entry (ie_type ie) (Z.of_nat k) (vector ie) (description ie)]> (bev i) /\
    bcv i' = bcv i /\ checkfloppysig i' = checkfloppysig i /\
    digits i' = Z.of_nat (S b) :: take 7 (digits i).
Proof.
  intros Hl Hin Hb Ho Hn Hfuel Hd0 Hf12 Hd1 Hkey.
  apply list_elem_of_join in Hin as (ls & [k Hk]%list_elem_of_lookup & [b Hls]%list_elem_of_lookup).
  destruct (menu_lines_lookup _ _ _ _ _ _ _ _ _ _ Hl Hls Hk) as (En & ie & Hie & Hoff).
  set (lens := (fun l => Z.of_nat (length l)) <$> lines).
  assert (lens !! b = Some (Z.of_nat (length ls))) as Hlen by (unfold lens; by rewrite list_lookup_fmap, Hls).
  assert (Forall (fun x => 0 <= x) lens) as Hpos by (apply Forall_fmap, Forall_true; intros; simpl; lia).
  apply lookup_lt_Some in Hk as Hkl. apply lookup_lt_Some in Hie as Hbl. rewrite fmap_take in En. fold lens in En.
  pose proof (sum_take lens b _ Hlen Hpos) as [Hs1 Hs2].
  pose proof (find_bev_spec lens 0 b _ (Z.of_nat k) Hlen Hpos ltac:(lia)) as Hfind.
  replace (_ + Z.of_nat k + 1) with num in Hfind by lia.
  eexists _, b, ie, k. unfold interactive_bootmenu. rewrite Hd0, Hf12. cbn [negb Z.eqb Pos.eqb]. rewrite Hd1, Hl.
  cbn [obind]. fold lens. destruct fuel as [|fuel]; [lia|]. cbn [menu_loop]. rewrite Hkey.
  rewrite (proj2 (Z.eqb_neq _ _)), (proj2 (Z.ltb_ge (num + 1) 1)), (proj2 (Z.ltb_ge _ (num + 1))) by lia. simpl orb. cbn match.
  unfold choose. replace (num + 1 - 1) with num by lia. rewrite Hfind. cbn [obind]. rewrite Nat.add_0_l, Hie. cbn [of_option obind].
  replace (Z.of_nat k + 1 - 1) with (Z.of_nat k) by lia. rewrite (wrap_small 16) by (unfold in_u; lia).
  split_and!; [done..|]. apply digits_push with (i := i); [unfold MAX_ENTRIES in *; lia|done|].
  simpl. do 3 f_equal. lia.
Qed.

(** ** The chosen disk becomes the first one *)

Ltac compute_offsets :=
  repeat match goal with
  | |- context [offsetof ?l ?f] => let v := eval vm_compute in (offsetof l f) in change (offsetof l f) with v
  end.

(** Filling a disk parameter table does not touch the BIOS data area. *)
Lemma fill_fdpt_frame m d hdid x : ebda_high m -> 0 <= hdid -> 0x400 <= x < 0x500 -> fill_fdpt m d hdid x = m x.
Proof.
  intros Hm Hh Hx. unfold ebda_high in Hm. unfold fill_fdpt, SET_IVT, ebda. case_match; [done|].
  destruct (lchs d) as [nlh nlc nlspt], (pchs d) as [nph npc npspt]. cbv beta zeta. compute_offsets.
  repeat case_match; repeat first [rewrite writew_other by lia|rewrite writeb_other by lia]; done.
Qed.

Lemma ebda_seg_bda m m' : (forall x, x <> hdcount -> 0x400 <= x < 0x500 -> m' x = m x) -> get_ebda_seg m' = get_ebda_seg m.
Proof.
  intros H. unfold get_ebda_seg. set (a := bda "ebda_seg"). vm_compute in a. subst a.
  apply readw_ext; apply H; (vm_compute; congruence) || lia.
Qed.

Section First.
Context (heap : gmap Z drive_s) (call_bcv : Z -> Z -> drives_s -> memory -> drives_s * memory).

(** Several vectors in turn. *)
Fixpoint run_bcvs (D : drives_s) (m : memory) (l : list ipl_entry_s) : outcome (drives_s * memory) :=
  match l with
  | [] => Ok (D, m)
  | ie :: l => let! '(D, m) := run_bcv heap call_bcv D m ie in run_bcvs D m l
  end.

Lemma run_others_spec D m k j l :
  run_others heap call_bcv D m k j l =
  run_bcvs D m (if (j <=? k) && (k <? j + Z.of_nat (length l)) then list_remove_at (Z.to_nat (k - j)) l else l).
Proof using.
  revert D m j. induction l as [|ie l IH]; intros D m j; simpl.
  { destruct (_ && _); [|done]. unfold list_remove_at. by rewrite take_nil, drop_nil. }
  destruct (Z.eqb_spec j k) as [->|Hne].
  - cbn [obind]. rewrite IH, Z.sub_diag. rewrite (proj2 (Z.leb_gt (k + 1) k)) by lia.
    rewrite (proj2 (Z.leb_le k k)), (proj2 (Z.ltb_lt k (k + Z.of_nat (S (length l))))) by lia. done.
  - destruct ((j <=? k) && _) eqn:E; bool_to_prop.
    + replace (Z.to_nat (k - j)) with (S (Z.to_nat (k - (j + 1)))) by lia. unfold list_remove_at. simpl.
      destruct (run_bcv heap call_bcv D m ie) as [[D1 m1]| |]; simpl; [|done|done]. rewrite IH.
      rewrite (proj2 (Z.leb_le _ _)), (proj2 (Z.ltb_lt _ _)) by lia. done.
    + simpl. destruct (run_bcv heap call_bcv D m ie) as [[D1 m1]| |]; simpl; [|done|done]. rewrite IH.
      replace ((j + 1 <=? k) && _) with false; [done|]. symmetry. apply andb_false_iff.
      rewrite Z.leb_gt, Z.ltb_ge in *. lia.
Qed.

Lemma set_row_set_row D t r1 r2 : set_row (set_row D t r1) t r2 = set_row D t r2.
Proof using. unfold set_row. simpl. by rewrite list_insert_insert_eq. Qed.

Definition is_drive (ie : ipl_entry_s) : Prop := ie_type ie = BCV_TYPE_INTERNAL /\ is_Some (heap !! vector ie).

Lemma run_bcvs_drives D m l row : Forall is_drive l -> idmap D !! EXTTYPE_HD = Some row -> length row = 16%nat ->
  0 <= m hdcount -> m hdcount + Z.of_nat (length l) <= 16 -> ebda_high m ->
  exists m', run_bcvs D m l = Ok (set_row D EXTTYPE_HD (take (Z.to_nat (m hdcount)) row ++ (vector <$> l) ++
      drop (Z.to_nat (m hdcount) + length l) row), m') /\
    m' hdcount = m hdcount + Z.of_nat (length l) /\ ebda_high m'.
Proof using.
  revert D m row. induction l as [|ie l IH]; intros D m row Hl Hrow Hlen H0 Hn Hm; simpl in Hn.
  { exists m. simpl. rewrite Nat.add_0_r, take_drop. split_and!; [|lia|done]. unfold set_row. rewrite list_insert_id by done. by destruct D. }
  apply Forall_cons in Hl as [[Ht [d Hd]] Hl]. cbn [run_bcvs]. unfold run_bcv, map_hd_drive, readb. rewrite Ht. cbn [Z.eqb Pos.eqb BCV_TYPE_INTERNAL].
  rewrite (proj2 (Z.leb_gt _ _)) by (unfold CONFIG_MAX_EXTDRIVE; lia). rewrite Hd, Hrow. cbn [of_option obind].
  set (n := m hdcount) in *. set (m1 := fill_fdpt _ d n).
  assert (forall x, 0x400 <= x < 0x500 -> m1 x = writeb m hdcount (n + 1) x) as Hm1.
  { intros x Hx. apply fill_fdpt_frame; [|lia|lia]. unfold ebda_high. rewrite (ebda_seg_bda m); [done|].
    intros y Hy _. by apply writeb_other. }
  assert (m1 hdcount = n + 1) as Hc by (rewrite Hm1, writeb_same, wrap_small; [done|unfold in_u; lia|vm_compute; split; congruence]).
  assert (ebda_high m1) as Hh1.
  { unfold ebda_high. rewrite (ebda_seg_bda m); [done|]. intros x Hx Hr. rewrite Hm1 by done. by apply writeb_other. }
  destruct (IH (set_row D EXTTYPE_HD (<[Z.to_nat n := vector ie]> row)) m1 (<[Z.to_nat n := vector ie]> row)) as (m' & -> & Hc' & Hh');
    [done| |by rewrite length_insert|lia|lia|done|].
  { unfold set_row. simpl. apply list_lookup_insert_eq. by eapply lookup_lt_Some. }
  exists m'. rewrite set_row_set_row. split_and!; [|simpl; lia|done]. do 2 f_equal. rewrite Hc.
  replace (Z.to_nat (n + 1)) with (S (Z.to_nat n)) by lia.
  rewrite (take_S_r _ _ (vector ie)) by (apply list_lookup_insert_eq; lia).
  rewrite take_insert_ge, drop_insert_lt by lia. cbn [length fmap list_fmap]. rewrite <- (assoc_L app). do 2 f_equal. simpl. by rewrite Nat.add_succ_r.
Qed.
End First.

(** The disk picked in the menu becomes drive 0x80, the others follow in their order, and the
    floppy picked becomes drive 0: if every vector is a drive of the BIOS, [boot_prep]
    maps each of them once. *)
Theorem boot_prep_maps heap call_bcv i D m floppy disk e row frow :
  bev i !! 0%nat = Some floppy -> bev i !! 1%nat = Some disk -> 0 <= subchoice floppy < 16 -> 0 <= subchoice disk ->
  bcv i !! Z.to_nat (subchoice disk) = Some e -> Forall (is_drive heap) (bcv i) -> (length (bcv i) <= 16)%nat ->
  idmap D !! EXTTYPE_HD = Some row -> length row = 16%nat -> idmap D !! EXTTYPE_FLOPPY = Some frow -> length frow = 16%nat ->
  m hdcount = 0 -> ebda_high m ->
  exists D' m', boot_prep heap call_bcv i D m = Ok (D', m') /\ m' hdcount = Z.of_nat (length (bcv i)) /\
    idmap D' !! EXTTYPE_HD = Some ((vector <$> e :: list_remove_at (Z.to_nat (subchoice disk)) (bcv i)) ++ drop (length (bcv i)) row) /\
    getDrive D' EXTTYPE_FLOPPY 0 = getDrive D EXTTYPE_FLOPPY (subchoice floppy).
Proof.
  intros Hf Hd Hfs Hds He Hb Hlen Hrow Hr16 Hfrow Hf16 H0 Hm. unfold boot_prep, swap_floppy. rewrite Hf, Hd, Hfrow.
  destruct (lookup_lt_is_Some_2 frow 0) as [tmp Htmp]; [lia|].
  destruct (lookup_lt_is_Some_2 frow (Z.to_nat (subchoice floppy))) as [f Hff]; [lia|].
  cbn [of_option obind]. rewrite Htmp, Hff. cbn [of_option obind]. rewrite He.
  set (D1 := set_row D EXTTYPE_FLOPPY _). apply lookup_lt_Some in He as Hk.
  assert (Forall (is_drive heap) (e :: list_remove_at (Z.to_nat (subchoice disk)) (bcv i))) as Hl.
  { constructor; [rewrite Forall_lookup in Hb; by eapply Hb|]. unfold list_remove_at.
    apply Forall_app. split; [by apply Forall_take|by apply Forall_drop]. }
  assert (length (e :: list_remove_at (Z.to_nat (subchoice disk)) (bcv i)) = length (bcv i)) as Hlen'.
  { unfold list_remove_at. simpl. rewrite length_app, length_take, length_drop. lia. }
  destruct (run_bcvs_drives heap call_bcv D1 m _ row Hl) as (m' & E & Hc & _);
    [unfold D1, set_row; simpl; by rewrite list_lookup_insert_ne|done|lia|lia|done|].
  exists (set_row D1 EXTTYPE_HD ((vector <$> e :: list_remove_at (Z.to_nat (subchoice disk)) (bcv i)) ++ drop (length (bcv i)) row)), m'.
  rewrite Hlen', H0 in E, Hc. rewrite Z.add_0_l in Hc. change (take (Z.to_nat 0) row) with (@nil Z) in E.
  change (Z.to_nat 0 + length (bcv i))%nat with (length (bcv i)) in E. rewrite app_nil_l in E. split_and!; [|done| |].
  - rewrite <- E. cbn [run_bcvs]. destruct (run_bcv heap call_bcv D1 m e) as [[D2 m2]| |]; cbn [obind]; [|done|done].
    rewrite run_others_spec, Z.sub_0_r. rewrite (proj2 (Z.leb_le _ _)), (proj2 (Z.ltb_lt _ _)) by lia. done.
  - unfold set_row. simpl. apply list_lookup_insert_eq. unfold D1, set_row. simpl. rewrite length_insert.
    by eapply lookup_lt_Some.
  - unfold getDrive. rewrite !(proj2 (Z.leb_gt _ _)) by (unfold CONFIG_MAX_EXTDRIVE; lia). unfold set_row at 1. simpl.
    rewrite list_lookup_insert_ne by done. unfold D1, set_row. simpl.
    rewrite list_lookup_insert_eq by (by eapply lookup_lt_Some). rewrite Hfrow. cbn [of_option obind].
    change (Z.to_nat 0) with 0%nat. rewrite Hff. destruct (decide (Z.to_nat (subchoice floppy) = 0%nat)) as [Ez|Ez].
    + rewrite Ez in Hff |- *. rewrite list_lookup_insert_eq by (rewrite length_insert; lia). congruence.
    + rewrite list_lookup_insert_ne, list_lookup_insert_eq by lia. done.
Qed.

(** ** Drives among the vectors are kept in order *)

(** The vectors of option ROMs, or of drives before one, come first. *)
Definition external_last (ext : list ipl_entry_s) : Prop :=
  forall e, last ext = Some e -> ie_type e <> BCV_TYPE_INTERNAL.

Lemma bcv_pos_drives heap ext ps suf d : external_last ext -> Forall (fun p => is_Some (heap !! p)) ps ->
  bcv_pos heap (ext ++ (internal <$> ps) ++ suf) d (length ext + length ps) =
  let! n := find_pos heap ps d (length ps) in Ok (length ext + n)%nat.
Proof.
  intros Hext. revert suf. assert (forall q row n, (n <= length row)%nat -> find_pos heap (row ++ q) d n = find_pos heap row d n) as Hfind.
  { intros q row n. induction n as [|n IH]; intros Hn; [done|]. cbn [find_pos]. rewrite lookup_app_l, IH by lia. done. }
  induction ps as [|p ps IH] using rev_ind; intros suf Hh; simpl.
  - rewrite !Nat.add_0_r. destruct ext as [|e ext _] using rev_ind; [done|].
    rewrite length_app, Nat.add_1_r. cbn [bcv_pos]. rewrite <- (assoc_L app). simpl. rewrite list_lookup_middle by done.
    cbn [of_option obind]. specialize (Hext e). rewrite last_snoc in Hext.
    by rewrite (proj2 (Z.eqb_neq _ _)) by auto.
  - apply Forall_app in Hh as [Hh Hp]. apply Forall_singleton in Hp as [dp Hp].
    rewrite length_app, Nat.add_1_r, Nat.add_succ_r. cbn [bcv_pos find_pos]. rewrite fmap_app, <- (assoc_L app). change (internal <$> [p]) with [internal p].
    assert ((ext ++ (internal <$> ps) ++ [internal p] ++ suf) !! (length ext + length ps)%nat = Some (internal p)) as ->.
    { rewrite (assoc_L app ext). apply list_lookup_middle. by rewrite length_app, length_fmap. }
    rewrite list_lookup_middle by done. cbn [of_option obind ie_type internal Z.eqb Pos.eqb negb BCV_TYPE_INTERNAL vector].
    rewrite Hp. cbn [of_option obind]. destruct (before dp d); cbn [obind]; [f_equal; lia|]. rewrite IH by done.
    by rewrite Hfind.
Qed.

(** A drive goes where its type and controller put it, after any option ROM. *)
Lemma add_bcv_internal_sorted heap i ext ps x : bcv i = ext ++ (internal <$> ps) -> external_last ext ->
  Forall (fun p => is_Some (heap !! p)) ps -> StronglySorted (ordered heap) ps -> is_Some (heap !! x) ->
  (length (bcv i) < MAX_ENTRIES)%nat ->
  exists ps', add_bcv_internal heap i x = Ok (set_bcv i (ext ++ (internal <$> ps'))) /\
    ps' ≡ₚ x :: ps /\ StronglySorted (ordered heap) ps'.
Proof.
  intros Hb Hext Hh Hs [d Hx] Hlen. unfold add_bcv_internal. rewrite bool_decide_false by lia. rewrite Hx. cbn [of_option obind].
  destruct (find_pos_spec heap ps ps d x Hx) as (l1 & l2 & -> & Hpos & H1 & H2); [done|done|done|].
  pose proof (bcv_pos_drives heap ext (l1 ++ l2) [] d Hext Hh) as Hp. rewrite app_nil_r, Hpos in Hp.
  rewrite Hb, length_app, length_fmap, Hp. cbn [obind]. exists (l1 ++ x :: l2). split_and!.
  - do 2 f_equal. rewrite !fmap_app, fmap_cons, (assoc_L app).
    replace (length ext + length l1)%nat with (length (ext ++ (internal <$> l1))) by (by rewrite length_app, length_fmap).
    rewrite list_insert_at_mid. by rewrite <- (assoc_L app).
  - by rewrite Permutation_middle.
  - by apply StronglySorted_insert.
Qed.

(** ** Runs *)

(** Two disks and a floppy; floppies first, then discs. *)
Definition demo_disks : gmap Z drive_s :=
  <[0x100 := mk_drive DTYPE_ATA 0 (mk_chs 16 10 63) 10080 0 0 512 (mk_chs 16 10 63)]>
  {[0x200 := mk_drive DTYPE_ATA 0 (mk_chs 16 10 63) 10080 1 0 512 (mk_chs 16 10 63)]}.
Definition demo_map : drives_s := mk_drives 1 0 [0x300 :: replicate 15 0; replicate 16 0; replicate 16 0].
Definition demo_ipl : ipl_s :=
  set_bcv (boot_setup (fun r => if r =? CMOS_BIOS_BOOTFLAG2 then 0x31 else 0) (fun _ => 0)).1 [internal 0x100; internal 0x200].
Definition demo_memory : memory := writew (fun _ => 0) (bda "ebda_seg") 0x9fc0.
Definition read_fails (m : memory) (r : bregs) : memory * bregs := (m, set_cf r true).
Definition disc_boots (k : Z) (m : memory) : Z * memory := (0, writew m (cdemu m "load_segment") 0x07c0).


Lemma bootmenu_choice_witness : exists i',
  interactive_bootmenu (fun n => nth n [-1; 0x86; -1; 4] (-1)) 3 true demo_map demo_ipl = Ok (Some i') /\
  bev i' !! 1%nat = Some (mk_entry IPL_TYPE_HARDDISK 1 0 (Literal "Hard Disk")) /\ digits i' = [2; 1; 3; 0; 0; 0; 0; 0].
Proof.
  destruct (bootmenu_choice (fun n => nth n [-1; 0x86; -1; 4] (-1)) 3 demo_map demo_ipl
    [[(1, ItemDrive 0x300)]; [(2, ItemEntry (internal 0x100)); (3, ItemEntry (internal 0x200))]; []]
    1 3 3 (ItemEntry (internal 0x200))) as (i' & b & ie & k & E & Hb & Ho & Hbev & _ & _ & Hd);
    [by vm_compute|simpl; right; right; left|vm_compute; lia|vm_compute; split; congruence|lia|lia|done|done|done|done|].
  exists i'. split; [exact E|].
  vm_compute in E. injection E as <-. by vm_compute.
Defined.

Lemma boot_prep_maps_witness : exists D' m',
  boot_prep demo_disks (fun _ _ D m => (D, m)) (set_bev demo_ipl (<[1%nat := mk_entry IPL_TYPE_HARDDISK 1 0 (Literal "")]> (bev demo_ipl)))
    demo_map demo_memory = Ok (D', m') /\ getDrive D' EXTTYPE_HD 0 = Ok 0x200.
Proof.
  destruct (boot_prep_maps demo_disks (fun _ _ D m => (D, m))
    (set_bev demo_ipl (<[1%nat := mk_entry IPL_TYPE_HARDDISK 1 0 (Literal "")]> (bev demo_ipl))) demo_map demo_memory
    (mk_entry IPL_TYPE_FLOPPY 0 0 (Literal "Floppy")) (mk_entry IPL_TYPE_HARDDISK 1 0 (Literal "")) (internal 0x200)
    (replicate 16 0) (0x300 :: replicate 15 0)) as (D' & m' & E & _ & Hrow & _);
    [done|done|simpl; lia|simpl; lia|done| |simpl; lia|done|done|done|done|by vm_compute|vm_compute; congruence|].
  - repeat constructor; by eexists.
  - exists D', m'. split; [exact E|]. unfold getDrive. rewrite Hrow. by vm_compute.
Defined.
