(* ===== verification/Output.v ===== *)
(** * Formatted output: [bios/seabios/src/output.c]

    [bvprintf] hands characters to a [struct putcinfo]: here the class [Sink], whose
    state also holds the memory that the format and the strings are read from, since
    [snprintf] writes to that memory while it reads the format.  Variable arguments
    are a list; taking one more than there are has no meaning and is [None], as is
    running past [fuel] characters of a string that does not end. *)

From S2P Require Import Prelude BiosUtil Bregs.
Local Open Scope Z_scope.
Local Open Scope coremu_scope.

(** ** [struct putcinfo] *)

(** [sink_putc] is the member [func]; [sink_read] is a load, [None] outside the memory
    that the sink lets the caller read. *)
Class Sink (T : Type) := {
  sink_read : T -> Z -> option Z;
  sink_putc : T -> Z -> T }.

(** ** Characters *)

Definition chr (s : string) : Z := match s with String c _ => Z.of_N (Ascii.N_of_ascii c) | EmptyString => 0 end.
Arguments chr : simpl never.

Definition isdigit (c : Z) : bool := u8 (c - chr "0") <? 10.

(** ** Xprintf code *)

Section Printf.
Context {T : Type} `{Sink T}.

Definition putc (action : T) (c : Z) : T := sink_putc action (u8 c).

(** [puts] and [puts_cs] on a string in memory. *)
Fixpoint puts (fuel : nat) (action : T) (s : Z) : option T :=
  match fuel with
  | O => None
  | S fuel =>
      c ← sink_read action s;
      if c =? 0 then Some action else puts fuel (putc action c) (s + 1)
  end.

(** [puts] on a string in a local buffer. *)
Fixpoint puts_local (action : T) (s : list Z) : option T :=
  match s with
  | [] => None
  | c :: s => if c =? 0 then Some action else puts_local (putc action c) s
  end.

(** The loop of [putuint] over [buf] with [d] as an index; a store outside the buffer
    is [None].  A 32-bit value needs at most 10 rounds. *)
Fixpoint putuint_loop (fuel : nat) (buf : list Z) (d : Z) (val : Z) : option (list Z * Z) :=
  match fuel with
  | O => None
  | S fuel =>
      if (0 <=? d) && (d <? Z.of_nat (length buf)) then
        let buf := <[Z.to_nat d := u8 (val mod 10 + chr "0")]> buf in
        let val := val / 10 in
        if val =? 0 then Some (buf, d) else putuint_loop fuel buf (d - 1) val
      else None
  end.

Definition putuint (action : T) (val : Z) : option T :=
  let buf := replicate 12 0 in
  let d := 12 - 1 in
  '(buf, d) ← putuint_loop 11 (<[Z.to_nat d := 0]> buf) (d - 1) val;
  puts_local action (drop (Z.to_nat d) buf).

Definition putsinglehex (action : T) (val : Z) : T :=
  let val := if val <=? 9 then u32 (chr "0" + val) else u32 (chr "a" + val - 10) in
  putc action val.

(** The width that [puthex] chooses when none is given. *)
Definition hexwidth (val : Z) : Z :=
  let tmp := val in
  let width := 1 in
  let '(width, tmp) := if 0xffff <? tmp then (width + 4, Z.shiftr tmp 16) else (width, tmp) in
  let '(width, tmp) := if 0xff <? tmp then (width + 2, Z.shiftr tmp 8) else (width, tmp) in
  if 0xf <? tmp then width + 1 else width.

(** The [switch] falls through from the case of the width to case 1. *)
Fixpoint puthex_from (action : T) (val : Z) (digits : nat) : T :=
  match digits with
  | O => action
  | S d => puthex_from (putsinglehex action (Z.land (Z.shiftr val (4 * Z.of_nat d)) 0xf)) val d
  end.

Definition puthex (action : T) (val width : Z) : T :=
  let width := if width =? 0 then hexwidth val else width in
  puthex_from action val (if (1 <=? width) && (width <=? 7) then Z.to_nat width else 8).

(** The digits of a field width from [n]: the first other character, where it is, and
    the width. *)
Fixpoint field_digits (fuel : nat) (action : T) (n field_width : Z) : option (Z * Z * Z) :=
  match fuel with
  | O => None
  | S fuel =>
      c ← sink_read action n;
      if isdigit c then field_digits fuel action (n + 1) (s32 (field_width * 10 + c - chr "0"))
      else Some (c, n, field_width)
  end.

Definition va_arg (args : list Z) : option (Z * list Z) :=
  match args with a :: args => Some (a, args) | [] => None end.

(** The [switch] of [bvprintf] at the conversion character [c] at [n] of the
    specification that starts at [s]: the new position and the arguments left. *)
Definition convert (fuel : nat) (action : T) (s n c field_width : Z) (args : list Z)
  : option (T * Z * list Z) :=
  if c =? chr "%" then Some (putc action (chr "%"), n, args)
  else if c =? chr "d" then
    '(v, args) ← va_arg args;
    let val := s32 v in
    let '(action, val) := if val <? 0 then (putc action (chr "-"), s32 (- val)) else (action, val) in
    action ← putuint action (u32 val);
    Some (action, n, args)
  else if c =? chr "u" then
    '(v, args) ← va_arg args;
    action ← putuint action (u32 (s32 v));
    Some (action, n, args)
  else if (c =? chr "p") || (c =? chr "x") then
    let '(action, field_width) :=
      if c =? chr "p" then (putc (putc action (chr "0")) (chr "x"), 8) else (action, field_width) in
    '(v, args) ← va_arg args;
    Some (puthex action (u32 (s32 v)) field_width, n, args)
  else if c =? chr "c" then
    '(v, args) ← va_arg args;
    Some (putc action (s32 v), n, args)
  else if c =? chr "." then
    c1 ← sink_read action (n + 1);
    if negb (c1 =? chr "s") then Some (action, n, args)
    else
      '(sarg, args) ← va_arg args;
      action ← puts fuel action sarg;
      Some (action, n + 1, args)
  else if c =? chr "s" then
    '(sarg, args) ← va_arg args;
    action ← puts fuel action sarg;
    Some (action, n, args)
  else Some (putc action (chr "%"), s, args).

Fixpoint bvprintf (fuel : nat) (action : T) (s : Z) (args : list Z) : option T :=
  match fuel with
  | O => None
  | S fuel =>
      c ← sink_read action s;
      if c =? 0 then Some action
      else if negb (c =? chr "%") then bvprintf fuel (putc action c) (s + 1) args
      else
        '(c, n, field_width) ← field_digits fuel action (s + 1) 0;
        '(c, n) ← (if c =? chr "l" then
                     c ← sink_read action (n + 1);
                     Some (c, n + 1)
                   else Some (c, n));
        '(action, s, args) ← convert fuel action s n c field_width args;
        bvprintf fuel action (s + 1) args
  end.
End Printf.

(** ** Debug output and the screen *)

(** The ports and calls that output goes to: [outb]s in order, the calls of interrupt
    0x10, and the line status that the serial port gives at each look. *)
Record console := mk_console {
  con_mem : memory; con_ports : list (Z * Z); con_int10 : list bregs; con_lsr : nat -> Z; con_looks : nat }.

Definition CONFIG_COREBOOT : bool := false.
Definition CONFIG_DEBUG_LEVEL : Z := 1.
Definition CONFIG_DEBUG_SERIAL : bool := false.
Definition CONFIG_SCREEN_AND_DEBUG : bool := true.
Definition PORT_BIOS_DEBUG : Z := 0x402.
Definition DEBUG_PORT : Z := 0x3f8.
Definition DEBUG_TIMEOUT : nat := Z.to_nat 100000.

Definition con_outb (k : console) (v port : Z) : console :=
  mk_console (con_mem k) (con_ports k ++ [(port, v)]) (con_int10 k) (con_lsr k) (con_looks k).

(** The wait for bits of the line status: whether they came before the time out. *)
Fixpoint serial_wait (timeout : nat) (k : console) (bits : Z) : bool * console :=
  let v := con_lsr k (con_looks k) in
  let k := mk_console (con_mem k) (con_ports k) (con_int10 k) (con_lsr k) (S (con_looks k)) in
  if Z.land v bits =? bits then (true, k)
  else match timeout with O => (false, k) | S timeout => serial_wait timeout k bits end.

(** [serial] is the compile-time choice [CONFIG_DEBUG_SERIAL]. *)
Definition debug_serial (serial : bool) (k : console) (c : Z) : console :=
  if negb serial then k
  else let '(ready, k) := serial_wait DEBUG_TIMEOUT k 0x60 in
       if ready then con_outb k c DEBUG_PORT else k.

Definition debug_serial_flush (serial : bool) (k : console) : console :=
  if negb serial then k else snd (serial_wait DEBUG_TIMEOUT k 0x40).

Definition putc_debug (serial : bool) (k : console) (c : Z) : console :=
  let k := if CONFIG_COREBOOT then k else con_outb k c PORT_BIOS_DEBUG in
  let k := if c =? 10 then debug_serial serial k 13 else k in
  debug_serial serial k c.

Definition screenc (k : console) (c : Z) : console :=
  let br := set_al (set_ah (mk_bregs 0 0 0 0 0 0 0 0 0 F_IF) 0x0e) c in
  mk_console (con_mem k) (con_ports k) (con_int10 k ++ [br]) (con_lsr k) (con_looks k).

Definition putc_screen (serial : bool) (k : console) (c : Z) : console :=
  let k := if CONFIG_SCREEN_AND_DEBUG then putc_debug serial k c else k in
  let k := if c =? 10 then screenc k 13 else k in
  screenc k c.

(** [debuginfo] and [screeninfo]. *)
Record debuginfo := mk_debuginfo { debug_con : console }.
#[export] Instance debug_sink : Sink debuginfo := {
  sink_read k a := Some (con_mem (debug_con k) a);
  sink_putc k c := mk_debuginfo (putc_debug CONFIG_DEBUG_SERIAL (debug_con k) c) }.

Record screeninfo := mk_screeninfo { screen_con : console }.
#[export] Instance screen_sink : Sink screeninfo := {
  sink_read k a := Some (con_mem (screen_con k) a);
  sink_putc k c := mk_screeninfo (putc_screen CONFIG_DEBUG_SERIAL (screen_con k) c) }.

(** The thread prefix needs a debug level above the one configured. *)
Definition dprintf (fuel : nat) (k : console) (fmt : Z) (args : list Z) : option console :=
  k ← bvprintf fuel (mk_debuginfo k) fmt args;
  Some (debug_serial_flush CONFIG_DEBUG_SERIAL (debug_con k)).

Definition printf (fuel : nat) (k : console) (fmt : Z) (args : list Z) : option console :=
  k ← bvprintf fuel (mk_screeninfo k) fmt args;
  Some (if CONFIG_SCREEN_AND_DEBUG then debug_serial_flush CONFIG_DEBUG_SERIAL (screen_con k)
        else screen_con k).

(** ** [snprintf] *)

Record snprintfinfo := mk_snprintfinfo { sn_mem : memory; sn_str : Z; sn_end : Z }.

Definition putc_str (sinfo : snprintfinfo) (c : Z) : snprintfinfo :=
  if sn_end sinfo <=? sn_str sinfo then sinfo
  else mk_snprintfinfo (writeb (sn_mem sinfo) (sn_str sinfo) c) (sn_str sinfo + 1) (sn_end sinfo).

#[export] Instance str_sink : Sink snprintfinfo := {
  sink_read i a := Some (sn_mem i a);
  sink_putc := putc_str }.

(** The memory after the call and the value returned. *)
Definition snprintf (fuel : nat) (m : memory) (str size fmt : Z) (args : list Z) : option (memory * Z) :=
  if size =? 0 then Some (m, 0)
  else
    i ← bvprintf fuel (mk_snprintfinfo m str (str + size)) fmt args;
    let last := if sn_end i <=? sn_str i then sn_end i - 1 else sn_str i in
    Some (writeb (sn_mem i) last 0, last - str).

(** ** Two sinks that take the same characters *)

(** A sink that collects what it gets and lets [tr_mem] be read. *)
Record trace := mk_trace { tr_mem : Z -> option Z; tr_out : list Z }.
#[export] Instance trace_sink : Sink trace := {
  sink_read t a := tr_mem t a;
  sink_putc t c := mk_trace (tr_mem t) (tr_out t ++ [c]) }.

(** Formatting only reads and puts, so a relation that both keep is kept by all of it. *)
Section Simulation.
Context {A B : Type} `{Sink A} `{Sink B} (R : A -> B -> Prop).
Context (Rread : forall a b x v, R a b -> sink_read a x = Some v -> sink_read b x = Some v).
Context (Rputc : forall a b c, R a b -> in_u 8 c -> R (sink_putc a c) (sink_putc b c)).

Definition sim (oa : option A) (ob : option B) : Prop :=
  forall a, oa = Some a -> exists b, ob = Some b /\ R a b.

Lemma putc_sim a b c : R a b -> R (putc a c) (putc b c).
Proof using Rputc. intros. apply Rputc; [done|apply wrap_range; lia]. Qed.

Lemma puts_sim fuel a b s : R a b -> sim (puts fuel a s) (puts fuel b s).
Proof using Rread Rputc.
  revert a b s. induction fuel as [|fuel IH]; intros a b s HR a' Ha; [done|]. cbn [puts] in *.
  destruct (sink_read a s) as [c|] eqn:Hc; [|done]. rewrite (Rread _ _ _ _ HR Hc). simpl in *.
  case_test; [naive_solver|]. eapply IH; [|done]. by apply putc_sim.
Qed.

Lemma puts_local_sim a b l : R a b -> sim (puts_local a l) (puts_local b l).
Proof using Rputc.
  revert a b. induction l as [|c l IH]; intros a b HR a' Ha; [done|]. cbn [puts_local] in *.
  case_test; [naive_solver|]. eapply IH; [|done]. by apply putc_sim.
Qed.

Lemma putuint_sim a b v : R a b -> sim (putuint a v) (putuint b v).
Proof using Rputc.
  intros HR a' Ha. unfold putuint in *. destruct (putuint_loop _ _ _ _) as [[buf d]|]; [|done].
  by apply (puts_local_sim a b).
Qed.

Lemma puthex_from_sim a b v d : R a b -> R (puthex_from a v d) (puthex_from b v d).
Proof using Rputc.
  revert a b. induction d as [|d IH]; intros a b HR; [done|]. apply IH. by apply putc_sim.
Qed.

Lemma puthex_sim a b v w : R a b -> R (puthex a v w) (puthex b v w).
Proof using Rputc. apply puthex_from_sim. Qed.

Lemma field_digits_sim fuel a b n w r :
  R a b -> field_digits fuel a n w = Some r -> field_digits fuel b n w = Some r.
Proof using Rread.
  intros HR. revert n w. induction fuel as [|fuel IH]; intros n w Ha; [done|]. cbn [field_digits] in *.
  destruct (sink_read a n) as [c|] eqn:Hc; [|done]. rewrite (Rread _ _ _ _ HR Hc). simpl in *.
  case_test; [by apply IH|done].
Qed.

(** Follow the run of the left sink with the right one. *)
Ltac follow :=
  repeat match goal with
  | Ha : context [if ?b then _ else _] |- _ => destruct b eqn:?
  | Ha : (va_arg ?l ≫= _) = Some _ |- _ => destruct l; simpl in Ha |- *; [done|]
  | HR : R ?a ?b, Ha : (puts ?f ?a ?s ≫= _) = Some _ |- _ =>
      let x := fresh "a" in let E := fresh "E" in
      destruct (puts f a s) as [x|] eqn:E; [|done];
      destruct (puts_sim f a b s HR x E) as (? & -> & ?); simpl in Ha |- *
  | HR : R ?a ?b, Ha : (putuint ?a ?s ≫= _) = Some _ |- _ =>
      let x := fresh "a" in let E := fresh "E" in
      destruct (putuint a s) as [x|] eqn:E; [|done];
      destruct (putuint_sim a b s HR x E) as (? & -> & ?); simpl in Ha |- *
  | HR : R ?a ?b, Ha : (sink_read ?a ?s ≫= _) = Some _ |- _ =>
      let E := fresh "E" in
      destruct (sink_read a s) eqn:E; [|done]; rewrite (Rread _ _ _ _ HR E); simpl in Ha |- *
  end; simplify_eq.

Lemma convert_sim fuel a b s n c w args a' s' args' :
  R a b -> convert fuel a s n c w args = Some (a', s', args') ->
  exists b', convert fuel b s n c w args = Some (b', s', args') /\ R a' b'.
Proof using Rread Rputc.
  intros HR Ha. unfold convert in *.
  destruct (c =? chr "%"). { simplify_eq. eauto using putc_sim. }
  destruct (c =? chr "d").
  { destruct args as [|v args]; [done|]; simpl in *. destruct (s32 v <? 0).
    - pose proof (putc_sim a b (chr "-") HR). cbn beta iota in *. follow. eauto.
    - cbn beta iota in *. follow. eauto. }
  destruct (c =? chr "u"). { follow. eauto. }
  destruct ((c =? chr "p") || (c =? chr "x")).
  { destruct (c =? chr "p"); follow; eauto 6 using puthex_sim, putc_sim. }
  destruct (c =? chr "c"). { follow. eauto using putc_sim. }
  destruct (c =? chr "."). { follow; eauto. }
  destruct (c =? chr "s"). { follow. eauto. }
  simplify_eq. eauto using putc_sim.
Qed.

Lemma bvprintf_sim fuel a b s args : R a b -> sim (bvprintf fuel a s args) (bvprintf fuel b s args).
Proof using Rread Rputc.
  revert a b s args. induction fuel as [|fuel IH]; intros a b s args HR a' Ha; [done|]. cbn [bvprintf] in *.
  destruct (sink_read a s) as [c|] eqn:Hc; [|done]. rewrite (Rread _ _ _ _ HR Hc). simpl in *.
  destruct (c =? 0); [naive_solver|]. destruct (negb _).
  { eapply IH; [|done]. by apply putc_sim. }
  destruct (field_digits fuel a (s + 1) 0) as [[[c' n] w]|] eqn:Hf; [|done].
  rewrite (field_digits_sim _ _ _ _ _ _ HR Hf). simpl in *.
  assert (exists c1 n1,
    (if c' =? chr "l" then c ← sink_read a (n + 1); Some (c, n + 1) else Some (c', n)) = Some (c1, n1) /\
    (if c' =? chr "l" then c ← sink_read b (n + 1); Some (c, n + 1) else Some (c', n)) = Some (c1, n1))
    as (c1 & n1 & E1 & E2).
  { destruct (c' =? chr "l"); [|eauto]. destruct (sink_read a (n + 1)) as [v|] eqn:Hv; [|done].
    rewrite (Rread _ _ _ _ HR Hv). simpl. eauto. }
  rewrite E1 in Ha. rewrite E2. simpl in *.
  destruct (convert fuel a s n1 c1 w args) as [[[a1 s1] args1]|] eqn:Hconv; [|done].
  destruct (convert_sim _ _ _ _ _ _ _ _ _ _ _ HR Hconv) as (b1 & -> & HR1). simpl in *. by eapply IH.
Qed.
End Simulation.

(** ** [snprintf] stays in its buffer *)

(** The memory outside the [size] bytes at [str]. *)
Definition outside (m : memory) (str size : Z) (a : Z) : option Z :=
  if (str <=? a) && (a <? str + size) then None else Some (m a).

(** The first [n] characters of [l] stored at [str]. *)
Definition stored (m : memory) (str : Z) (l : list Z) (n : Z) (a : Z) : Z :=
  if (str <=? a) && (a <? str + n) then default 0 (l !! Z.to_nat (a - str)) else m a.

Section Snprintf.
Context (m : memory) (str size : Z) (Hsize : 0 < size).

Definition sn_confined (i j : snprintfinfo) : Prop :=
  i = j /\ sn_end i = str + size /\ str <= sn_str i <= str + size /\
  forall a, ~ str <= a < str + size -> sn_mem i a = m a.

Definition sn_follows (t : trace) (i : snprintfinfo) : Prop :=
  let n := Z.min (Z.of_nat (length (tr_out t))) size in
  tr_mem t = outside m str size /\ sn_end i = str + size /\ sn_str i = str + n /\
  forall a, sn_mem i a = stored m str (tr_out t) n a.

Lemma sn_read_confined i j x v : sn_confined i j -> sink_read i x = Some v -> sink_read j x = Some v.
Proof using. by intros [-> _]. Qed.

Lemma putc_str_confined i j c : sn_confined i j -> sn_confined (putc_str i c) (putc_str j c).
Proof using Hsize.
  intros (-> & He & Hs & Hm). unfold putc_str, sn_confined. case_test; [done|].
  cbn [sn_end sn_str sn_mem]. split_and!; try done; try lia.
  intros a Ha. rewrite writeb_other by lia. by apply Hm.
Qed.

Lemma putc_str_follows t i c :
  sn_follows t i -> in_u 8 c -> sn_follows (sink_putc t c) (putc_str i c).
Proof using Hsize.
  intros (Ht & He & Hs & Hm) Hc. unfold putc_str, sn_follows. simpl. rewrite length_app. simpl.
  rewrite He, Hs. case_test.
  - split_and!; [done|done|lia|]. intros a. rewrite Hm. unfold stored. addr_cases; try lia; try done.
    by rewrite lookup_app_l by lia.
  - cbn [sn_end sn_str sn_mem]. split_and!; [done|done|lia|]. intros a. unfold writeb.
    rewrite Hm, (wrap_small 8 c) by done. unfold stored. addr_cases; try lia; try done.
    + rewrite lookup_app_r by lia. by replace (_ - _)%nat with 0%nat by lia.
    + by rewrite lookup_app_l by lia.
Qed.

Lemma sn_read_follows t i x v : sn_follows t i -> sink_read t x = Some v -> sink_read i x = Some v.
Proof using.
  intros (Ht & _ & _ & Hm). simpl. rewrite Ht, Hm. unfold outside, stored. addr_cases; done || lia.
Qed.
End Snprintf.

(** The formatted text, cut to the buffer, when nothing it is made of lies in the buffer. *)
Lemma snprintf_text fuel m str size fmt args t :
  0 < size -> bvprintf fuel (mk_trace (outside m str size) []) fmt args = Some t ->
  let n := Z.min (Z.of_nat (length (tr_out t))) (size - 1) in
  exists m', snprintf fuel m str size fmt args = Some (m', n) /\
    forall a, m' a = (if a =? str + n then 0 else stored m str (tr_out t) n a).
Proof.
  intros Hsize Ht. cbv zeta. unfold snprintf. rewrite (proj2 (Z.eqb_neq size 0)) by lia.
  set (i0 := mk_snprintfinfo m str (str + size)).
  destruct (bvprintf_sim (sn_follows m str size) (sn_read_follows m str size) (putc_str_follows m str size Hsize)
    fuel (mk_trace (outside m str size) []) i0 fmt args) with t as (i & -> & HR); [|done|].
  { unfold sn_follows. split_and!; simpl; [done|done|lia|]. intros a. unfold stored. addr_cases; done || lia. }
  destruct HR as (_ & He & Hs & Hm). simpl. rewrite He, Hs.
  set (n := Z.min _ size) in *. set (k := Z.min _ (size - 1)).
  assert ((if str + size <=? str + n then str + size - 1 else str + n) = str + k) as ->
    by (case_test; lia).
  eexists. split; [do 2 f_equal; lia|]. intros a. unfold writeb. rewrite Hm. unfold stored.
  addr_cases; done || lia.
Qed.


(** ** Numbers can be read back *)

Definition digit (c : Z) : Z := if isdigit c then c - chr "0" else c - chr "a" + 10.

(** The number that a list of digits stands for, after a prefix worth [acc]. *)
Fixpoint value_from (base acc : Z) (l : list Z) : Z :=
  match l with [] => acc | c :: l => value_from base (acc * base + digit c) l end.
Definition value (base : Z) (l : list Z) : Z := value_from base 0 l.

Definition parse_int (l : list Z) : Z :=
  match l with
  | c :: l' => if c =? chr "-" then - value 10 l' else value 10 l
  | [] => 0
  end.

(** [l] is the shortest numeral of [v]. *)
Definition numeral (base : Z) (l : list Z) (v : Z) : Prop :=
  value base l = v /\ l <> [] /\ Forall (fun c => 0 <= digit c < base /\ in_u 8 c /\ c <> 0 /\ c <> chr "-") l /\
  (hd 0 l = chr "0" -> v = 0 /\ length l = 1%nat).

Lemma value_app base acc l1 l2 : value_from base acc (l1 ++ l2) = value_from base (value_from base acc l1) l2.
Proof. revert acc. induction l1; intros; simpl; auto. Qed.

Lemma digit_dec d : 0 <= d < 10 -> let c := u8 (d + chr "0") in
  digit c = d /\ in_u 8 c /\ c <> 0 /\ c <> chr "-" /\ (c = chr "0" -> d = 0).
Proof.
  intros Hd c. assert (d = 0 \/ d = 1 \/ d = 2 \/ d = 3 \/ d = 4 \/ d = 5 \/ d = 6 \/ d = 7 \/ d = 8 \/ d = 9) by lia.
  subst c. unfold in_u. naive_solver (vm_compute; done || lia).
Qed.

Definition hexchar (d : Z) : Z := u8 (if d <=? 9 then u32 (chr "0" + d) else u32 (chr "a" + d - 10)).

Lemma digit_hex d : 0 <= d < 16 -> let c := hexchar d in
  digit c = d /\ in_u 8 c /\ c <> 0 /\ c <> chr "-" /\ (c = chr "0" -> d = 0).
Proof.
  intros Hd c. assert (d < 10 \/ d = 10 \/ d = 11 \/ d = 12 \/ d = 13 \/ d = 14 \/ d = 15) as [H|H] by lia.
  - subst c. unfold hexchar. rewrite (proj2 (Z.leb_le d 9)) by lia.
    rewrite (wrap_small 32 (chr "0" + d)) by (unfold in_u; change (chr "0") with 48; lia).
    rewrite (Z.add_comm (chr "0")). apply digit_dec. lia.
  - subst c. unfold in_u. naive_solver (vm_compute; done || lia).
Qed.

Lemma putuint_loop_spec fuel buf d v :
  (0 < fuel)%nat -> 0 <= v < 10 ^ Z.of_nat fuel -> Z.of_nat fuel <= d + 1 -> d < Z.of_nat (length buf) ->
  exists buf' d' l, putuint_loop fuel buf d v = Some (buf', d') /\
    drop (Z.to_nat d') buf' = l ++ drop (Z.to_nat (d + 1)) buf /\ numeral 10 l v.
Proof.
  revert buf d v. induction fuel as [|fuel IH]; intros buf d v Hf Hv Hd Hlen; [lia|]. cbn [putuint_loop].
  rewrite (proj2 (Z.leb_le 0 d)), (proj2 (Z.ltb_lt d _)) by lia. cbn [andb].
  pose proof (Z.mod_pos_bound v 10 ltac:(lia)) as Hm. pose proof (Z.div_mod v 10 ltac:(lia)) as Hdm.
  destruct (digit_dec (v mod 10) Hm) as (D1 & D2 & D3 & D4 & D5).
  set (c := u8 (v mod 10 + chr "0")) in *.
  assert (drop (Z.to_nat d) (<[Z.to_nat d:=c]> buf) = c :: drop (Z.to_nat (d + 1)) buf) as Hdrop.
  { replace (Z.to_nat (d + 1)) with (S (Z.to_nat d)) by lia.
    rewrite (drop_S _ c) by (apply list_lookup_insert_eq; lia). f_equal. by rewrite drop_insert_lt by lia. }
  case_test.
  { eexists _, _, [c]. split; [done|]. split; [done|]. unfold numeral, value. simpl. rewrite D1.
    split_and!; [lia|done|apply Forall_singleton; by rewrite D1|intros E0%D5; lia]. }
  assert (0 < v / 10) by (pose proof (Z.div_pos v 10); lia).
  assert (v / 10 < 10 ^ Z.of_nat fuel).
  { apply Z.div_lt_upper_bound; [lia|]. rewrite Nat2Z.inj_succ, Z.pow_succ_r in Hv by lia. lia. }
  destruct fuel as [|fuel]; [simpl in *; lia|].
  destruct (IH (<[Z.to_nat d:=c]> buf) (d - 1) (v / 10)) as (buf' & d' & l & -> & E' & N1 & N2 & N3 & N4);
    [lia..|by rewrite length_insert; lia|].
  eexists _, _, (l ++ [c]). split; [done|]. split.
  { rewrite E'. replace (d - 1 + 1) with d by lia. rewrite Hdrop. by rewrite <- app_assoc. }
  unfold numeral, value in *. rewrite value_app, N1. simpl. rewrite D1.
  split_and!; [lia|by destruct l| |].
  { apply Forall_app. split; [done|]. apply Forall_singleton. by rewrite D1. }
  destruct l as [|c0 l]; [done|]. simpl in *. intros ?%N4. lia.
Qed.

Section Numbers.
Context {T : Type} `{Sink T}.
Implicit Types action : T.

Lemma puts_local_spec action l rest :
  Forall (fun c => c <> 0) l -> puts_local action (l ++ 0 :: rest) = Some (foldl putc action l).
Proof using.
  revert action. induction l as [|c l IH]; intros action Hl; [done|]. apply Forall_cons in Hl as [Hc Hl].
  simpl. rewrite (proj2 (Z.eqb_neq c 0)) by done. by apply IH.
Qed.

(** [putuint] puts the shortest decimal numeral, from a buffer that is large enough. *)
Lemma putuint_spec action v :
  in_u 32 v -> exists l, putuint action v = Some (foldl putc action l) /\ numeral 10 l v.
Proof using.
  intros Hv. unfold in_u in Hv. unfold putuint.
  destruct (putuint_loop_spec 11 (<[Z.to_nat (12 - 1):=0]> (replicate 12 0)) (12 - 1 - 1) v)
    as (buf & d & l & -> & E & Hl); [lia|simpl; lia|lia|simpl; lia|].
  exists l. split; [|done]. simpl. rewrite E. apply puts_local_spec.
  destruct Hl as (_ & _ & Hl & _). eapply Forall_impl; [exact Hl|]. naive_solver.
Qed.

Fixpoint hexdigits (v : Z) (digits : nat) : list Z :=
  match digits with
  | O => []
  | S d => hexchar (Z.land (Z.shiftr v (4 * Z.of_nat d)) 0xf) :: hexdigits v d
  end.

Lemma putc_idem action c : putc action (u8 c) = putc action c.
Proof using. unfold putc. by rewrite wrap_idem by lia. Qed.

Lemma puthex_from_spec action v d : puthex_from action v d = foldl putc action (hexdigits v d).
Proof using.
  revert action. induction d as [|d IH]; intros action; [done|].
  cbn [puthex_from hexdigits foldl]. rewrite IH. f_equal. unfold putsinglehex, hexchar. by rewrite putc_idem.
Qed.
End Numbers.

Lemma nibble v d : 0 <= v -> Z.land (Z.shiftr v (4 * Z.of_nat d)) 0xf = (v / 16 ^ Z.of_nat d) mod 16.
Proof.
  intros. change 0xf with (Z.ones 4). rewrite Z.land_ones, Z.shiftr_div_pow2, Z.pow_mul_r by lia. done.
Qed.

Lemma hexdigits_value v d acc :
  0 <= v -> value_from 16 acc (hexdigits v d) = acc * 16 ^ Z.of_nat d + v mod 16 ^ Z.of_nat d.
Proof.
  intros Hv. revert acc. induction d as [|d IH]; intros acc.
  { simpl. rewrite Z.mod_1_r. lia. }
  cbn [hexdigits value_from]. rewrite IH. rewrite nibble by done.
  destruct (digit_hex ((v / 16 ^ Z.of_nat d) mod 16)) as [-> _]; [apply Z.mod_pos_bound; lia|].
  rewrite Nat2Z.inj_succ, Z.pow_succ_r by lia. rewrite (Z.mul_comm 16 (16 ^ _)), Z.rem_mul_r by lia. lia.
Qed.

Lemma hexdigits_length v d : length (hexdigits v d) = d.
Proof. induction d; simpl; congruence. Qed.

Lemma hexdigits_ok v d :
  0 <= v -> Forall (fun c => 0 <= digit c < 16 /\ in_u 8 c /\ c <> 0 /\ c <> chr "-") (hexdigits v d).
Proof.
  intros Hv. induction d as [|d IH]; constructor; [|done]. rewrite nibble by done.
  pose proof (Z.mod_pos_bound (v / 16 ^ Z.of_nat d) 16 ltac:(lia)).
  destruct (digit_hex ((v / 16 ^ Z.of_nat d) mod 16)) as (-> & ? & ? & ? & _); done.
Qed.

(** The width chosen is that of the shortest hexadecimal numeral. *)
Lemma hexwidth_spec v : in_u 32 v -> let w := hexwidth v in
  1 <= w <= 8 /\ v < 16 ^ w /\ (1 < w -> 16 ^ (w - 1) <= v).
Proof.
  intros Hv. unfold in_u in Hv. change (2 ^ 32) with 4294967296 in Hv. unfold hexwidth.
  repeat (case_test; cbv beta iota zeta in * ); rewrite ?Z.shiftr_div_pow2 in * by lia;
    change (2 ^ 16) with 65536 in *; change (2 ^ 8) with 256 in *; simpl; Z.to_euclidean_division_equations; lia.
Qed.

Lemma hex_numeral v : in_u 32 v -> numeral 16 (hexdigits v (Z.to_nat (hexwidth v))) v.
Proof.
  intros Hv. destruct (hexwidth_spec v Hv) as (Hw & Hup & Hlo). unfold in_u in Hv.
  unfold numeral, value. rewrite hexdigits_value, hexdigits_length by lia. rewrite Z2Nat.id by lia.
  split_and!; [rewrite Z.mod_small by lia; lia| |apply hexdigits_ok; lia|].
  { intros E%(f_equal length). rewrite hexdigits_length in E. simpl in E. lia. }
  replace (Z.to_nat (hexwidth v)) with (S (Z.to_nat (hexwidth v - 1))) by lia.
  cbn [hexdigits hd]. rewrite nibble, Z2Nat.id by lia. intros E.
  pose proof (Z.mod_pos_bound (v / 16 ^ (hexwidth v - 1)) 16 ltac:(lia)).
  destruct (digit_hex ((v / 16 ^ (hexwidth v - 1)) mod 16)) as (_ & _ & _ & _ & D); [done|].
  apply D in E. rewrite Z.mod_small in E.
  - apply Z.div_small_iff in E; [|apply Z.pow_nonzero; lia].
    destruct (Z.eq_dec (hexwidth v) 1) as [E1|]; [rewrite E1 in *; simpl in *; lia|lia].
  - assert (0 < 16 ^ (hexwidth v - 1)) by (apply Z.pow_pos_nonneg; lia).
    split; [apply Z.div_pos; lia|]. apply Z.div_lt_upper_bound; [lia|].
    rewrite Z.mul_comm, <- Z.pow_succ_r by lia. replace (Z.succ (hexwidth v - 1)) with (hexwidth v) by lia. lia.
Qed.

Section Conversions.
Context {T : Type} `{Sink T}.
Implicit Types action : T.

Lemma bvprintf_conversion fuel action s args c n w :
  sink_read action s = Some (chr "%") -> field_digits fuel action (s + 1) 0 = Some (c, n, w) -> c <> chr "l" ->
  bvprintf (S fuel) action s args =
  ('(action, s, args) ← convert fuel action s n c w args; bvprintf fuel action (s + 1) args).
Proof using.
  intros Hp Hf Hl. cbn [bvprintf]. rewrite Hp. cbn [mbind option_bind].
  change (chr "%" =? 0) with false. rewrite Z.eqb_refl. cbn [negb].
  rewrite Hf. cbn [mbind option_bind]. by rewrite (proj2 (Z.eqb_neq c (chr "l"))).
Qed.

Lemma field_digits_none fuel action n w c :
  sink_read action n = Some c -> isdigit c = false -> field_digits (S fuel) action n w = Some (c, n, w).
Proof using. intros Hr Hd. cbn [field_digits]. rewrite Hr. simpl. by rewrite Hd. Qed.

Lemma field_digits_one fuel action n w c :
  1 <= w <= 9 -> sink_read action n = Some (chr "0" + w) -> sink_read action (n + 1) = Some c -> isdigit c = false ->
  field_digits (S (S fuel)) action n 0 = Some (c, n + 1, w).
Proof using.
  intros Hw Hn Hc Hd. cbn [field_digits]. rewrite Hn. cbn [mbind option_bind].
  assert (isdigit (chr "0" + w) = true) as ->.
  { unfold isdigit. replace (chr "0" + w - chr "0") with w by lia. rewrite wrap_small by (unfold in_u; lia). lia. }
  replace (0 * 10 + (chr "0" + w) - chr "0") with w by lia.
  rewrite Hc, swrap_small by (simpl; lia). simpl. by rewrite Hd.
Qed.

Lemma parse_int_numeral l v : numeral 10 l v -> parse_int l = v.
Proof using.
  intros (Hv & Hne & Hl & _). destruct l as [|c l]; [done|]. simpl.
  apply Forall_cons in Hl as [(_ & _ & _ & Hc) _]. by rewrite (proj2 (Z.eqb_neq _ _) Hc).
Qed.

(** [%d] on any 32-bit argument, the least included. *)
Lemma convert_d fuel action s n w v args :
  -2 ^ 31 <= v < 2 ^ 31 -> exists l, parse_int l = v /\
  convert fuel action s n (chr "d") w (v :: args) = Some (foldl putc action l, n, args).
Proof using.
  intros Hv. unfold convert. change (chr "d" =? chr "%") with false. change (chr "d" =? chr "d") with true.
  cbn [va_arg mbind option_bind]. rewrite (swrap_small 32 v) by (simpl in *; lia). case_test.
  - assert (u32 (s32 (- v)) = - v) as ->.
    { destruct (Z.eq_dec v (-2 ^ 31)) as [->|]; [done|].
      rewrite swrap_small by (simpl in *; lia). apply wrap_small. unfold in_u. simpl in *. lia. }
    destruct (putuint_spec (putc action (chr "-")) (- v)) as (l & -> & Hl); [unfold in_u; simpl in *; lia|].
    exists (chr "-" :: l). split; [|done]. unfold parse_int. rewrite Z.eqb_refl. destruct Hl as [-> _]. lia.
  - rewrite wrap_small by (unfold in_u; simpl in *; lia).
    destruct (putuint_spec action v) as (l & -> & Hl); [unfold in_u; simpl in *; lia|].
    exists l. split; [by apply parse_int_numeral|done].
Qed.

Lemma u32_s32 v : in_u 32 v -> u32 (s32 v) = v.
Proof using.
  unfold in_u, wrap, swrap. simpl. change (2 ^ 32) with 4294967296. intros.
  Z.to_euclidean_division_equations; lia.
Qed.

Lemma convert_u fuel action s n w v args :
  in_u 32 v -> exists l, numeral 10 l v /\
  convert fuel action s n (chr "u") w (v :: args) = Some (foldl putc action l, n, args).
Proof using.
  intros Hv. unfold convert. change (chr "u" =? chr "%") with false. change (chr "u" =? chr "d") with false.
  change (chr "u" =? chr "u") with true. cbn [va_arg mbind option_bind].
  rewrite u32_s32 by done. destruct (putuint_spec action v) as (l & -> & Hl); [done|]. by exists l.
Qed.

Lemma convert_x fuel action s n w v args :
  in_u 32 v -> convert fuel action s n (chr "x") w (v :: args) = Some (puthex action v w, n, args).
Proof using.
  intros Hv. unfold convert. change (chr "x" =? chr "%") with false. change (chr "x" =? chr "d") with false.
  change (chr "x" =? chr "u") with false. change ((chr "x" =? chr "p") || (chr "x" =? chr "x")) with true.
  change (chr "x" =? chr "p") with false. cbn [va_arg mbind option_bind]. by rewrite u32_s32.
Qed.

(** One conversion without a width, from the run of [convert]. *)
Lemma bvprintf_letter fuel action action' s args args' c :
  sink_read action s = Some (chr "%") -> sink_read action (s + 1) = Some c -> isdigit c = false -> c <> chr "l" ->
  convert (S fuel) action s (s + 1) c 0 args = Some (action', s + 1, args') ->
  bvprintf (S (S fuel)) action s args = bvprintf (S fuel) action' (s + 2) args'.
Proof using.
  intros Hp Hc Hd Hl E. rewrite (bvprintf_conversion _ _ _ _ c (s + 1) 0 Hp) by (done || by apply field_digits_none).
  rewrite E. cbn [mbind option_bind]. f_equal. lia.
Qed.

Lemma puthex_spec action v w :
  in_u 32 v -> 0 <= w <= 8 ->
  puthex action v w = foldl putc action (hexdigits v (Z.to_nat (if w =? 0 then hexwidth v else w))).
Proof using.
  intros Hv Hw. unfold puthex. rewrite puthex_from_spec. do 2 f_equal.
  destruct (hexwidth_spec v Hv) as [Hw' _]. set (k := if w =? 0 then _ else _).
  assert (1 <= k <= 8) by (subst k; case_test; lia).
  destruct ((1 <=? k) && (k <=? 7)) eqn:E; [done|]. bool_to_prop. lia.
Qed.

(** Numbers are printed so that they can be read back: [%d] as a signed decimal
    numeral, for every 32-bit value, [%u] and [%x] as the shortest unsigned numeral,
    and [%Wx] as the last [W] hexadecimal digits.  In each case formatting goes on
    after the conversion. *)
Theorem number_conversions fuel action s v args :
  sink_read action s = Some (chr "%") ->
  (sink_read action (s + 1) = Some (chr "d") -> -2 ^ 31 <= v < 2 ^ 31 ->
     exists l, bvprintf (S (S fuel)) action s (v :: args) = bvprintf (S fuel) (foldl putc action l) (s + 2) args /\
       parse_int l = v) /\
  (sink_read action (s + 1) = Some (chr "u") -> in_u 32 v ->
     exists l, bvprintf (S (S fuel)) action s (v :: args) = bvprintf (S fuel) (foldl putc action l) (s + 2) args /\
       numeral 10 l v) /\
  (sink_read action (s + 1) = Some (chr "x") -> in_u 32 v ->
     exists l, bvprintf (S (S fuel)) action s (v :: args) = bvprintf (S fuel) (foldl putc action l) (s + 2) args /\
       numeral 16 l v) /\
  (forall w, 1 <= w <= 8 -> sink_read action (s + 1) = Some (chr "0" + w) ->
     sink_read action (s + 2) = Some (chr "x") -> in_u 32 v ->
     exists l, bvprintf (S (S (S fuel))) action s (v :: args) =
         bvprintf (S (S fuel)) (foldl putc action l) (s + 3) args /\
       Z.of_nat (length l) = w /\ value 16 l = v mod 16 ^ w).
Proof using.
  intros Hp. split_and!.
  - intros Hc Hv. destruct (convert_d (S fuel) action s (s + 1) 0 v args Hv) as (l & Hl & E).
    exists l. split; [|done]. by apply (bvprintf_letter _ _ _ _ _ _ (chr "d")).
  - intros Hc Hv. destruct (convert_u (S fuel) action s (s + 1) 0 v args Hv) as (l & Hl & E).
    exists l. split; [|done]. by apply (bvprintf_letter _ _ _ _ _ _ (chr "u")).
  - intros Hc Hv. exists (hexdigits v (Z.to_nat (hexwidth v))). split; [|by apply hex_numeral].
    apply (bvprintf_letter _ _ _ _ _ _ (chr "x")); try done. by rewrite convert_x, puthex_spec by (done || lia).
  - intros w Hw Hc Hx Hv. exists (hexdigits v (Z.to_nat w)).
    rewrite hexdigits_length. unfold value. rewrite hexdigits_value by apply Hv.
    rewrite Z2Nat.id by lia. split; [|lia].
    replace (s + 2) with (s + 1 + 1) in Hx by lia.
    rewrite (bvprintf_conversion _ _ _ _ (chr "x") (s + 1 + 1) w Hp) by (done || apply field_digits_one; done || lia).
    rewrite convert_x, puthex_spec by (done || lia). cbn [mbind option_bind].
    rewrite (proj2 (Z.eqb_neq w 0)) by lia. f_equal. lia.
Qed.
End Conversions.

(** ** What is printed reaches the screen *)

(** A newline goes to the screen as two characters. *)
Definition crlf (c : Z) : list Z := if c =? 10 then [13; c] else [c].

(** The call of interrupt 0x10 for a character. *)
Definition teletype_regs (c : Z) : bregs := set_al (set_ah (mk_bregs 0 0 0 0 0 0 0 0 0 F_IF) 0x0e) c.

Definition con_follows (k0 : console) (t : trace) (i : screeninfo) : Prop :=
  let k := screen_con i in
  tr_mem t = (fun a => Some (con_mem k a)) /\ con_mem k = con_mem k0 /\
  con_int10 k = con_int10 k0 ++ map teletype_regs (flat_map crlf (tr_out t)) /\
  con_ports k = con_ports k0 ++ map (fun c => (PORT_BIOS_DEBUG, c)) (tr_out t).

Lemma putc_screen_follows k0 t i c :
  con_follows k0 t i -> in_u 8 c -> con_follows k0 (sink_putc t c) (sink_putc i c).
Proof.
  intros (Ht & Hm & Hs & Hp) _. unfold con_follows. simpl in *.
  rewrite flat_map_app, !map_app, (assoc_L app), <- Hs, (assoc_L app), <- Hp. simpl.
  unfold putc_screen, putc_debug, crlf. cbn. destruct (c =? 10); cbn; rewrite ?app_nil_r, <- ?(assoc_L app); done.
Qed.

(** [printf] sends each formatted character to the debug port and to the teletype
    service of interrupt 0x10, a newline as carriage return and line feed, in order,
    and changes no memory itself. *)
Theorem printf_screen fuel k fmt args t :
  bvprintf fuel (mk_trace (fun a => Some (con_mem k a)) []) fmt args = Some t ->
  exists k', printf fuel k fmt args = Some k' /\ con_mem k' = con_mem k /\
    con_int10 k' = con_int10 k ++ map teletype_regs (flat_map crlf (tr_out t)) /\
    con_ports k' = con_ports k ++ map (fun c => (PORT_BIOS_DEBUG, c)) (tr_out t).
Proof.
  intros Ht.
  destruct (bvprintf_sim (con_follows k)) with fuel (mk_trace (fun a => Some (con_mem k a)) []) (mk_screeninfo k) fmt args t
    as (i & Hi & HR); try done.
  { intros a b x v (Hm & _). simpl. by rewrite Hm. }
  { apply putc_screen_follows. }
  { unfold con_follows. simpl. by rewrite !app_nil_r. }
  unfold printf. rewrite Hi. simpl. eexists. split; [done|]. by destruct HR as (_ & ? & ? & ?).
Qed.

(** ** Witnesses *)

(** A memory that holds [l] at [base] and zeros elsewhere. *)
Definition mem_text (base : Z) (l : list Z) : memory := fun a =>
  if base <=? a then default 0 (l !! Z.to_nat (a - base)) else 0.

Definition codes (s : string) : list Z := map (fun c => Z.of_N (Ascii.N_of_ascii c)) (String.list_ascii_of_string s).

Definition demo_fmt : memory := mem_text 1000 (codes "%d|%02x|%s" ++ [0] ++ codes "hello" ++ [0]).


Lemma number_conversions_witness :
  sink_read (mk_trace (fun a => Some (demo_fmt a)) []) 1000 = Some (chr "%") /\
  exists l, bvprintf 20 (mk_trace (fun a => Some (demo_fmt a)) []) 1000 [-2 ^ 31; 0x1a; 1011] =
    bvprintf 19 (foldl putc (mk_trace (fun a => Some (demo_fmt a)) []) l) 1002 [0x1a; 1011] /\
    parse_int l = -2 ^ 31.
Proof.
  split; [reflexivity|].
  destruct (number_conversions (H := trace_sink) 18 (mk_trace (fun a => Some (demo_fmt a)) []) 1000 (-2 ^ 31) [0x1a; 1011] ltac:(reflexivity)) as [H _].
  apply H; [reflexivity|lia].
Defined.

Lemma printf_screen_witness :
  exists k', printf 20 (mk_console demo_fmt [] [] (fun _ => 0) 0) 1000 [-5; 0x1a; 1011] = Some k' /\
    con_mem k' = demo_fmt /\
    con_int10 k' = map teletype_regs (codes "-5|1a|hello") /\
    con_ports k' = map (fun c => (PORT_BIOS_DEBUG, c)) (codes "-5|1a|hello").
Proof.
  apply (printf_screen 20 (mk_console demo_fmt [] [] (fun _ => 0) 0) 1000 [-5; 0x1a; 1011]
    (mk_trace (fun a => Some (demo_fmt a)) (codes "-5|1a|hello"))). reflexivity.
Defined.
