(* ===== verification/VgaTables.v ===== *)
(** * Tables of the VGA firmware: [bios/seabios/vgasrc/vgatables.c], [vgatables.h],
    [vgafonts.c]

    The constant tables, entry by entry, and the search for a mode. *)

From S2P Require Import Prelude.
Local Open Scope Z_scope.

(** ** [vgatables.h] *)

Definition SEG_GRAPH : Z := 0xA000.
Definition SEG_CTEXT : Z := 0xB800.
Definition SEG_MTEXT : Z := 0xB000.

(** The memory models; [is_text] is the bit [TEXT]. *)
Inductive memmodel_t := CTEXT | MTEXT | CGA | PLANAR1 | PLANAR4 | LINEAR8.

Definition is_text (mm : memmodel_t) : bool := match mm with CTEXT | MTEXT => true | _ => false end.

Definition SCREEN_IO_START (x y p : Z) : Z := (Z.lor (x * y) 0x00ff + 1) * p.
Definition SCREEN_MEM_START (x y p : Z) : Z := SCREEN_IO_START (x * 2) y p.

Record VideoParam_s := mk_VideoParam_s {
  twidth : Z; theightm1 : Z; cheight : Z; slength : Z; sequ_regs : list Z; miscreg : Z;
  crtc_regs : list Z; actl_regs : list Z; grdc_regs : list Z }.

Inductive palette_t := palette0 | palette1 | palette2 | palette3.

Record vgamode_s := mk_vgamode_s {
  svgamode : Z; vparam : VideoParam_s; memmodel : memmodel_t; pixbits : Z; sstart : Z;
  pelmask : Z; dac : palette_t; dacsize : Z }.

Record carattr := mk_carattr { car : Z; attr : Z; use_attr : bool }.
Record cursorpos := mk_cursorpos { cp_x : Z; cp_y : Z; cp_page : Z }.

(** ** Video parameter table *)

(** An entry that is not given is all zero. *)
Definition vp_none : VideoParam_s := mk_VideoParam_s 0 0 0 0 [] 0 [] [] [].

Definition vp_04 : VideoParam_s := mk_VideoParam_s 40 24 8 0x0800 [0x09; 0x03; 0x00; 0x02]
  0x63
  [45; 39; 40; 144; 43; 128; 191; 31; 0; 193; 0; 0; 0; 0; 0; 0; 156; 142; 143; 20; 0; 150; 185; 162; 255]
  [0; 19; 21; 23; 2; 4; 6; 7; 16; 17; 18; 19; 20; 21; 22; 23; 1; 0; 3; 0]
  [0; 0; 0; 0; 0; 48; 15; 15; 255].

Definition vp_05 : VideoParam_s := mk_VideoParam_s 40 24 8 0x0800 [0x09; 0x03; 0x00; 0x02]
  0x63
  [45; 39; 40; 144; 43; 128; 191; 31; 0; 193; 0; 0; 0; 0; 0; 0; 156; 142; 143; 20; 0; 150; 185; 162; 255]
  [0; 19; 21; 23; 2; 4; 6; 7; 16; 17; 18; 19; 20; 21; 22; 23; 1; 0; 3; 0]
  [0; 0; 0; 0; 0; 48; 15; 15; 255].

Definition vp_06 : VideoParam_s := mk_VideoParam_s 80 24 8 0x1000 [0x01; 0x01; 0x00; 0x06]
  0x63
  [95; 79; 80; 130; 84; 128; 191; 31; 0; 193; 0; 0; 0; 0; 0; 0; 156; 142; 143; 40; 0; 150; 185; 194; 255]
  [0; 23; 23; 23; 23; 23; 23; 23; 23; 23; 23; 23; 23; 23; 23; 23; 1; 0; 1; 0]
  [0; 0; 0; 0; 0; 0; 13; 15; 255].

Definition vp_07 : VideoParam_s := mk_VideoParam_s 80 24 16 0x1000 [0x00; 0x03; 0x00; 0x02]
  0x66
  [95; 79; 80; 130; 85; 129; 191; 31; 0; 79; 13; 14; 0; 0; 0; 0; 156; 142; 143; 40; 15; 150; 185; 163; 255]
  [0; 8; 8; 8; 8; 8; 8; 8; 16; 24; 24; 24; 24; 24; 24; 24; 14; 0; 15; 8]
  [0; 0; 0; 0; 0; 16; 10; 15; 255].

Definition vp_0d : VideoParam_s := mk_VideoParam_s 40 24 8 0x2000 [0x09; 0x0f; 0x00; 0x06]
  0x63
  [45; 39; 40; 144; 43; 128; 191; 31; 0; 192; 0; 0; 0; 0; 0; 0; 156; 142; 143; 20; 0; 150; 185; 227; 255]
  [0; 1; 2; 3; 4; 5; 6; 7; 16; 17; 18; 19; 20; 21; 22; 23; 1; 0; 15; 0]
  [0; 0; 0; 0; 0; 0; 5; 15; 255].

Definition vp_0e : VideoParam_s := mk_VideoParam_s 80 24 8 0x4000 [0x01; 0x0f; 0x00; 0x06]
  0x63
  [95; 79; 80; 130; 84; 128; 191; 31; 0; 192; 0; 0; 0; 0; 0; 0; 156; 142; 143; 40; 0; 150; 185; 227; 255]
  [0; 1; 2; 3; 4; 5; 6; 7; 16; 17; 18; 19; 20; 21; 22; 23; 1; 0; 15; 0]
  [0; 0; 0; 0; 0; 0; 5; 15; 255].

Definition vp_11 : VideoParam_s := mk_VideoParam_s 80 24 14 0x8000 [0x01; 0x0f; 0x00; 0x06]
  0xa3
  [95; 79; 80; 130; 84; 128; 191; 31; 0; 64; 0; 0; 0; 0; 0; 0; 131; 133; 93; 40; 15; 99; 186; 227; 255]
  [0; 8; 0; 0; 24; 24; 0; 0; 0; 8; 0; 0; 0; 24; 0; 0; 1; 0; 1; 0]
  [0; 0; 0; 0; 0; 0; 5; 15; 255].

Definition vp_12 : VideoParam_s := mk_VideoParam_s 80 24 14 0x8000 [0x01; 0x0f; 0x00; 0x06]
  0xa3
  [95; 79; 80; 130; 84; 128; 191; 31; 0; 64; 0; 0; 0; 0; 0; 0; 131; 133; 93; 40; 15; 99; 186; 227; 255]
  [0; 1; 2; 3; 4; 5; 20; 7; 56; 57; 58; 59; 60; 61; 62; 63; 1; 0; 15; 0]
  [0; 0; 0; 0; 0; 0; 5; 15; 255].

Definition vp_17 : VideoParam_s := mk_VideoParam_s 40 24 16 0x0800 [0x08; 0x03; 0x00; 0x02]
  0x67
  [45; 39; 40; 144; 43; 160; 191; 31; 0; 79; 13; 14; 0; 0; 0; 0; 156; 142; 143; 20; 31; 150; 185; 163; 255]
  [0; 1; 2; 3; 4; 5; 20; 7; 56; 57; 58; 59; 60; 61; 62; 63; 12; 0; 15; 8]
  [0; 0; 0; 0; 0; 16; 14; 15; 255].

Definition vp_18 : VideoParam_s := mk_VideoParam_s 80 24 16 0x1000 [0x00; 0x03; 0x00; 0x02]
  0x67
  [95; 79; 80; 130; 85; 129; 191; 31; 0; 79; 13; 14; 0; 0; 0; 0; 156; 142; 143; 40; 31; 150; 185; 163; 255]
  [0; 1; 2; 3; 4; 5; 20; 7; 56; 57; 58; 59; 60; 61; 62; 63; 12; 0; 15; 8]
  [0; 0; 0; 0; 0; 16; 14; 15; 255].

Definition vp_19 : VideoParam_s := mk_VideoParam_s 80 24 16 0x1000 [0x00; 0x03; 0x00; 0x02]
  0x66
  [95; 79; 80; 130; 85; 129; 191; 31; 0; 79; 13; 14; 0; 0; 0; 0; 156; 142; 143; 40; 15; 150; 185; 163; 255]
  [0; 8; 8; 8; 8; 8; 8; 8; 16; 24; 24; 24; 24; 24; 24; 24; 14; 0; 15; 8]
  [0; 0; 0; 0; 0; 16; 10; 15; 255].

Definition vp_1a : VideoParam_s := mk_VideoParam_s 80 29 16 0x0000 [0x01; 0x0f; 0x00; 0x06]
  0xe3
  [95; 79; 80; 130; 84; 128; 11; 62; 0; 64; 0; 0; 0; 0; 0; 0; 234; 140; 223; 40; 0; 231; 4; 227; 255]
  [0; 63; 0; 63; 0; 63; 0; 63; 0; 63; 0; 63; 0; 63; 0; 63; 1; 0; 15; 0]
  [0; 0; 0; 0; 0; 0; 5; 15; 255].

Definition vp_1b : VideoParam_s := mk_VideoParam_s 80 29 16 0x0000 [0x01; 0x0f; 0x00; 0x06]
  0xe3
  [95; 79; 80; 130; 84; 128; 11; 62; 0; 64; 0; 0; 0; 0; 0; 0; 234; 140; 223; 40; 0; 231; 4; 227; 255]
  [0; 1; 2; 3; 4; 5; 20; 7; 56; 57; 58; 59; 60; 61; 62; 63; 1; 0; 15; 0]
  [0; 0; 0; 0; 0; 0; 5; 15; 255].

Definition vp_1c : VideoParam_s := mk_VideoParam_s 40 24 8 0x0000 [0x01; 0x0f; 0x00; 0x0e]
  0x63
  [95; 79; 80; 130; 84; 128; 191; 31; 0; 65; 0; 0; 0; 0; 0; 0; 156; 142; 143; 40; 64; 150; 185; 163; 255]
  [0; 1; 2; 3; 4; 5; 6; 7; 8; 9; 10; 11; 12; 13; 14; 15; 65; 0; 15; 0]
  [0; 0; 0; 0; 0; 64; 5; 15; 255].

Definition vp_1d : VideoParam_s := mk_VideoParam_s 100 36 16 0x0000 [0x01; 0x0f; 0x00; 0x06]
  0xe3
  [127; 99; 99; 131; 107; 27; 114; 240; 0; 96; 0; 0; 0; 0; 0; 0; 89; 141; 87; 50; 0; 87; 115; 227; 255]
  [0; 1; 2; 3; 4; 5; 20; 7; 56; 57; 58; 59; 60; 61; 62; 63; 1; 0; 15; 0]
  [0; 0; 0; 0; 0; 0; 5; 15; 255].

Definition video_param_table : list VideoParam_s := [
  vp_none; vp_none; vp_none; vp_none; vp_04; vp_05; vp_06; vp_07;
  vp_none; vp_none; vp_none; vp_none; vp_none; vp_0d; vp_0e; vp_none;
  vp_none; vp_11; vp_12; vp_none; vp_none; vp_none; vp_none; vp_17;
  vp_18; vp_19; vp_1a; vp_1b; vp_1c; vp_1d].

(** ** Palettes *)

Definition palette0_data : list Z := [
  0; 0; 0; 0; 0; 0; 0; 0; 0; 0; 0; 0; 0; 0; 0; 0; 0; 0; 0; 0; 0; 0; 0; 0;
  42; 42; 42; 42; 42; 42; 42; 42; 42; 42; 42; 42; 42; 42; 42; 42; 42; 42; 42; 42; 42; 42; 42; 42;
  42; 42; 42; 42; 42; 42; 42; 42; 42; 42; 42; 42; 42; 42; 42; 42; 42; 42; 42; 42; 42; 42; 42; 42;
  63; 63; 63; 63; 63; 63; 63; 63; 63; 63; 63; 63; 63; 63; 63; 63; 63; 63; 63; 63; 63; 63; 63; 63;
  0; 0; 0; 0; 0; 0; 0; 0; 0; 0; 0; 0; 0; 0; 0; 0; 0; 0; 0; 0; 0; 0; 0; 0;
  42; 42; 42; 42; 42; 42; 42; 42; 42; 42; 42; 42; 42; 42; 42; 42; 42; 42; 42; 42; 42; 42; 42; 42;
  42; 42; 42; 42; 42; 42; 42; 42; 42; 42; 42; 42; 42; 42; 42; 42; 42; 42; 42; 42; 42; 42; 42; 42;
  63; 63; 63; 63; 63; 63; 63; 63; 63; 63; 63; 63; 63; 63; 63; 63; 63; 63; 63; 63; 63; 63; 63; 63].

Definition palette1_data : list Z := [
  0; 0; 0; 0; 0; 42; 0; 42; 0; 0; 42; 42; 42; 0; 0; 42; 0; 42; 42; 21; 0; 42; 42; 42;
  0; 0; 0; 0; 0; 42; 0; 42; 0; 0; 42; 42; 42; 0; 0; 42; 0; 42; 42; 21; 0; 42; 42; 42;
  21; 21; 21; 21; 21; 63; 21; 63; 21; 21; 63; 63; 63; 21; 21; 63; 21; 63; 63; 63; 21; 63; 63; 63;
  21; 21; 21; 21; 21; 63; 21; 63; 21; 21; 63; 63; 63; 21; 21; 63; 21; 63; 63; 63; 21; 63; 63; 63;
  0; 0; 0; 0; 0; 42; 0; 42; 0; 0; 42; 42; 42; 0; 0; 42; 0; 42; 42; 21; 0; 42; 42; 42;
  0; 0; 0; 0; 0; 42; 0; 42; 0; 0; 42; 42; 42; 0; 0; 42; 0; 42; 42; 21; 0; 42; 42; 42;
  21; 21; 21; 21; 21; 63; 21; 63; 21; 21; 63; 63; 63; 21; 21; 63; 21; 63; 63; 63; 21; 63; 63; 63;
  21; 21; 21; 21; 21; 63; 21; 63; 21; 21; 63; 63; 63; 21; 21; 63; 21; 63; 63; 63; 21; 63; 63; 63].

Definition palette2_data : list Z := [
  0; 0; 0; 0; 0; 42; 0; 42; 0; 0; 42; 42; 42; 0; 0; 42; 0; 42; 42; 42; 0; 42; 42; 42;
  0; 0; 21; 0; 0; 63; 0; 42; 21; 0; 42; 63; 42; 0; 21; 42; 0; 63; 42; 42; 21; 42; 42; 63;
  0; 21; 0; 0; 21; 42; 0; 63; 0; 0; 63; 42; 42; 21; 0; 42; 21; 42; 42; 63; 0; 42; 63; 42;
  0; 21; 21; 0; 21; 63; 0; 63; 21; 0; 63; 63; 42; 21; 21; 42; 21; 63; 42; 63; 21; 42; 63; 63;
  21; 0; 0; 21; 0; 42; 21; 42; 0; 21; 42; 42; 63; 0; 0; 63; 0; 42; 63; 42; 0; 63; 42; 42;
  21; 0; 21; 21; 0; 63; 21; 42; 21; 21; 42; 63; 63; 0; 21; 63; 0; 63; 63; 42; 21; 63; 42; 63;
  21; 21; 0; 21; 21; 42; 21; 63; 0; 21; 63; 42; 63; 21; 0; 63; 21; 42; 63; 63; 0; 63; 63; 42;
  21; 21; 21; 21; 21; 63; 21; 63; 21; 21; 63; 63; 63; 21; 21; 63; 21; 63; 63; 63; 21; 63; 63; 63].

Definition palette3_data : list Z := [
  0; 0; 0; 0; 0; 42; 0; 42; 0; 0; 42; 42; 42; 0; 0; 42; 0; 42; 42; 21; 0; 42; 42; 42;
  21; 21; 21; 21; 21; 63; 21; 63; 21; 21; 63; 63; 63; 21; 21; 63; 21; 63; 63; 63; 21; 63; 63; 63;
  0; 0; 0; 5; 5; 5; 8; 8; 8; 11; 11; 11; 14; 14; 14; 17; 17; 17; 20; 20; 20; 24; 24; 24;
  28; 28; 28; 32; 32; 32; 36; 36; 36; 40; 40; 40; 45; 45; 45; 50; 50; 50; 56; 56; 56; 63; 63; 63;
  0; 0; 63; 16; 0; 63; 31; 0; 63; 47; 0; 63; 63; 0; 63; 63; 0; 47; 63; 0; 31; 63; 0; 16;
  63; 0; 0; 63; 16; 0; 63; 31; 0; 63; 47; 0; 63; 63; 0; 47; 63; 0; 31; 63; 0; 16; 63; 0;
  0; 63; 0; 0; 63; 16; 0; 63; 31; 0; 63; 47; 0; 63; 63; 0; 47; 63; 0; 31; 63; 0; 16; 63;
  31; 31; 63; 39; 31; 63; 47; 31; 63; 55; 31; 63; 63; 31; 63; 63; 31; 55; 63; 31; 47; 63; 31; 39;
  63; 31; 31; 63; 39; 31; 63; 47; 31; 63; 55; 31; 63; 63; 31; 55; 63; 31; 47; 63; 31; 39; 63; 31;
  31; 63; 31; 31; 63; 39; 31; 63; 47; 31; 63; 55; 31; 63; 63; 31; 55; 63; 31; 47; 63; 31; 39; 63;
  45; 45; 63; 49; 45; 63; 54; 45; 63; 58; 45; 63; 63; 45; 63; 63; 45; 58; 63; 45; 54; 63; 45; 49;
  63; 45; 45; 63; 49; 45; 63; 54; 45; 63; 58; 45; 63; 63; 45; 58; 63; 45; 54; 63; 45; 49; 63; 45;
  45; 63; 45; 45; 63; 49; 45; 63; 54; 45; 63; 58; 45; 63; 63; 45; 58; 63; 45; 54; 63; 45; 49; 63;
  0; 0; 28; 7; 0; 28; 14; 0; 28; 21; 0; 28; 28; 0; 28; 28; 0; 21; 28; 0; 14; 28; 0; 7;
  28; 0; 0; 28; 7; 0; 28; 14; 0; 28; 21; 0; 28; 28; 0; 21; 28; 0; 14; 28; 0; 7; 28; 0;
  0; 28; 0; 0; 28; 7; 0; 28; 14; 0; 28; 21; 0; 28; 28; 0; 21; 28; 0; 14; 28; 0; 7; 28;
  14; 14; 28; 17; 14; 28; 21; 14; 28; 24; 14; 28; 28; 14; 28; 28; 14; 24; 28; 14; 21; 28; 14; 17;
  28; 14; 14; 28; 17; 14; 28; 21; 14; 28; 24; 14; 28; 28; 14; 24; 28; 14; 21; 28; 14; 17; 28; 14;
  14; 28; 14; 14; 28; 17; 14; 28; 21; 14; 28; 24; 14; 28; 28; 14; 24; 28; 14; 21; 28; 14; 17; 28;
  20; 20; 28; 22; 20; 28; 24; 20; 28; 26; 20; 28; 28; 20; 28; 28; 20; 26; 28; 20; 24; 28; 20; 22;
  28; 20; 20; 28; 22; 20; 28; 24; 20; 28; 26; 20; 28; 28; 20; 26; 28; 20; 24; 28; 20; 22; 28; 20;
  20; 28; 20; 20; 28; 22; 20; 28; 24; 20; 28; 26; 20; 28; 28; 20; 26; 28; 20; 24; 28; 20; 22; 28;
  0; 0; 16; 4; 0; 16; 8; 0; 16; 12; 0; 16; 16; 0; 16; 16; 0; 12; 16; 0; 8; 16; 0; 4;
  16; 0; 0; 16; 4; 0; 16; 8; 0; 16; 12; 0; 16; 16; 0; 12; 16; 0; 8; 16; 0; 4; 16; 0;
  0; 16; 0; 0; 16; 4; 0; 16; 8; 0; 16; 12; 0; 16; 16; 0; 12; 16; 0; 8; 16; 0; 4; 16;
  8; 8; 16; 10; 8; 16; 12; 8; 16; 14; 8; 16; 16; 8; 16; 16; 8; 14; 16; 8; 12; 16; 8; 10;
  16; 8; 8; 16; 10; 8; 16; 12; 8; 16; 14; 8; 16; 16; 8; 14; 16; 8; 12; 16; 8; 10; 16; 8;
  8; 16; 8; 8; 16; 10; 8; 16; 12; 8; 16; 14; 8; 16; 16; 8; 14; 16; 8; 12; 16; 8; 10; 16;
  11; 11; 16; 12; 11; 16; 13; 11; 16; 15; 11; 16; 16; 11; 16; 16; 11; 15; 16; 11; 13; 16; 11; 12;
  16; 11; 11; 16; 12; 11; 16; 13; 11; 16; 15; 11; 16; 16; 11; 15; 16; 11; 13; 16; 11; 12; 16; 11;
  11; 16; 11; 11; 16; 12; 11; 16; 13; 11; 16; 15; 11; 16; 16; 11; 15; 16; 11; 13; 16; 11; 12; 16;
  0; 0; 0; 0; 0; 0; 0; 0; 0; 0; 0; 0; 0; 0; 0; 0; 0; 0; 0; 0; 0; 0; 0; 0].

Definition palette_data (p : palette_t) : list Z :=
  match p with
  | palette0 => palette0_data | palette1 => palette1_data | palette2 => palette2_data | palette3 => palette3_data
  end.

(** ** Video mode list *)

Definition VPARAM (i : Z) : VideoParam_s := default vp_none (video_param_table !! Z.to_nat i).
Definition mode_entry (mode vp : Z) (mm : memmodel_t) (bits start mask : Z) (p : palette_t) : vgamode_s :=
  mk_vgamode_s mode (VPARAM vp) mm bits start mask p (Z.of_nat (length (palette_data p))).

Definition vga_modes : list vgamode_s := [
  mode_entry 0x00 0x17 CTEXT 4 SEG_CTEXT 0xFF palette2;
  mode_entry 0x01 0x17 CTEXT 4 SEG_CTEXT 0xFF palette2;
  mode_entry 0x02 0x18 CTEXT 4 SEG_CTEXT 0xFF palette2;
  mode_entry 0x03 0x18 CTEXT 4 SEG_CTEXT 0xFF palette2;
  mode_entry 0x04 0x04 CGA 2 SEG_CTEXT 0xFF palette1;
  mode_entry 0x05 0x05 CGA 2 SEG_CTEXT 0xFF palette1;
  mode_entry 0x06 0x06 CGA 1 SEG_CTEXT 0xFF palette1;
  mode_entry 0x07 0x07 MTEXT 4 SEG_MTEXT 0xFF palette0;
  mode_entry 0x0D 0x0d PLANAR4 4 SEG_GRAPH 0xFF palette1;
  mode_entry 0x0E 0x0e PLANAR4 4 SEG_GRAPH 0xFF palette1;
  mode_entry 0x0F 0x11 PLANAR1 1 SEG_GRAPH 0xFF palette0;
  mode_entry 0x10 0x12 PLANAR4 4 SEG_GRAPH 0xFF palette2;
  mode_entry 0x11 0x1a PLANAR1 1 SEG_GRAPH 0xFF palette2;
  mode_entry 0x12 0x1b PLANAR4 4 SEG_GRAPH 0xFF palette2;
  mode_entry 0x13 0x1c LINEAR8 8 SEG_GRAPH 0xFF palette3;
  mode_entry 0x6A 0x1d PLANAR4 4 SEG_GRAPH 0xFF palette2].

(** The first entry for the mode, [None] for the null pointer. *)
Fixpoint find_mode (l : list vgamode_s) (mode : Z) : option vgamode_s :=
  match l with
  | [] => None
  | e :: l => if svgamode e =? mode then Some e else find_mode l mode
  end.
Definition find_vga_entry (mode : Z) : option vgamode_s := find_mode vga_modes mode.

(** ** Fonts *)

Definition vgafont8 : list Z := [
  0; 0; 0; 0; 0; 0; 0; 0; 126; 129; 165; 129; 189; 153; 129; 126;
  126; 255; 219; 255; 195; 231; 255; 126; 108; 254; 254; 254; 124; 56; 16; 0;
  16; 56; 124; 254; 124; 56; 16; 0; 56; 124; 56; 254; 254; 124; 56; 124;
  16; 16; 56; 124; 254; 124; 56; 124; 0; 0; 24; 60; 60; 24; 0; 0;
  255; 255; 231; 195; 195; 231; 255; 255; 0; 60; 102; 66; 66; 102; 60; 0;
  255; 195; 153; 189; 189; 153; 195; 255; 15; 7; 15; 125; 204; 204; 204; 120;
  60; 102; 102; 102; 60; 24; 126; 24; 63; 51; 63; 48; 48; 112; 240; 224;
  127; 99; 127; 99; 99; 103; 230; 192; 153; 90; 60; 231; 231; 60; 90; 153;
  128; 224; 248; 254; 248; 224; 128; 0; 2; 14; 62; 254; 62; 14; 2; 0;
  24; 60; 126; 24; 24; 126; 60; 24; 102; 102; 102; 102; 102; 0; 102; 0;
  127; 219; 219; 123; 27; 27; 27; 0; 62; 99; 56; 108; 108; 56; 204; 120;
  0; 0; 0; 0; 126; 126; 126; 0; 24; 60; 126; 24; 126; 60; 24; 255;
  24; 60; 126; 24; 24; 24; 24; 0; 24; 24; 24; 24; 126; 60; 24; 0;
  0; 24; 12; 254; 12; 24; 0; 0; 0; 48; 96; 254; 96; 48; 0; 0;
  0; 0; 192; 192; 192; 254; 0; 0; 0; 36; 102; 255; 102; 36; 0; 0;
  0; 24; 60; 126; 255; 255; 0; 0; 0; 255; 255; 126; 60; 24; 0; 0;
  0; 0; 0; 0; 0; 0; 0; 0; 48; 120; 120; 48; 48; 0; 48; 0;
  108; 108; 108; 0; 0; 0; 0; 0; 108; 108; 254; 108; 254; 108; 108; 0;
  48; 124; 192; 120; 12; 248; 48; 0; 0; 198; 204; 24; 48; 102; 198; 0;
  56; 108; 56; 118; 220; 204; 118; 0; 96; 96; 192; 0; 0; 0; 0; 0;
  24; 48; 96; 96; 96; 48; 24; 0; 96; 48; 24; 24; 24; 48; 96; 0;
  0; 102; 60; 255; 60; 102; 0; 0; 0; 48; 48; 252; 48; 48; 0; 0;
  0; 0; 0; 0; 0; 48; 48; 96; 0; 0; 0; 252; 0; 0; 0; 0;
  0; 0; 0; 0; 0; 48; 48; 0; 6; 12; 24; 48; 96; 192; 128; 0;
  124; 198; 206; 222; 246; 230; 124; 0; 48; 112; 48; 48; 48; 48; 252; 0;
  120; 204; 12; 56; 96; 204; 252; 0; 120; 204; 12; 56; 12; 204; 120; 0;
  28; 60; 108; 204; 254; 12; 30; 0; 252; 192; 248; 12; 12; 204; 120; 0;
  56; 96; 192; 248; 204; 204; 120; 0; 252; 204; 12; 24; 48; 48; 48; 0;
  120; 204; 204; 120; 204; 204; 120; 0; 120; 204; 204; 124; 12; 24; 112; 0;
  0; 48; 48; 0; 0; 48; 48; 0; 0; 48; 48; 0; 0; 48; 48; 96;
  24; 48; 96; 192; 96; 48; 24; 0; 0; 0; 252; 0; 0; 252; 0; 0;
  96; 48; 24; 12; 24; 48; 96; 0; 120; 204; 12; 24; 48; 0; 48; 0;
  124; 198; 222; 222; 222; 192; 120; 0; 48; 120; 204; 204; 252; 204; 204; 0;
  252; 102; 102; 124; 102; 102; 252; 0; 60; 102; 192; 192; 192; 102; 60; 0;
  248; 108; 102; 102; 102; 108; 248; 0; 254; 98; 104; 120; 104; 98; 254; 0;
  254; 98; 104; 120; 104; 96; 240; 0; 60; 102; 192; 192; 206; 102; 62; 0;
  204; 204; 204; 252; 204; 204; 204; 0; 120; 48; 48; 48; 48; 48; 120; 0;
  30; 12; 12; 12; 204; 204; 120; 0; 230; 102; 108; 120; 108; 102; 230; 0;
  240; 96; 96; 96; 98; 102; 254; 0; 198; 238; 254; 254; 214; 198; 198; 0;
  198; 230; 246; 222; 206; 198; 198; 0; 56; 108; 198; 198; 198; 108; 56; 0;
  252; 102; 102; 124; 96; 96; 240; 0; 120; 204; 204; 204; 220; 120; 28; 0;
  252; 102; 102; 124; 108; 102; 230; 0; 120; 204; 224; 112; 28; 204; 120; 0;
  252; 180; 48; 48; 48; 48; 120; 0; 204; 204; 204; 204; 204; 204; 252; 0;
  204; 204; 204; 204; 204; 120; 48; 0; 198; 198; 198; 214; 254; 238; 198; 0;
  198; 198; 108; 56; 56; 108; 198; 0; 204; 204; 204; 120; 48; 48; 120; 0;
  254; 198; 140; 24; 50; 102; 254; 0; 120; 96; 96; 96; 96; 96; 120; 0;
  192; 96; 48; 24; 12; 6; 2; 0; 120; 24; 24; 24; 24; 24; 120; 0;
  16; 56; 108; 198; 0; 0; 0; 0; 0; 0; 0; 0; 0; 0; 0; 255;
  48; 48; 24; 0; 0; 0; 0; 0; 0; 0; 120; 12; 124; 204; 118; 0;
  224; 96; 96; 124; 102; 102; 220; 0; 0; 0; 120; 204; 192; 204; 120; 0;
  28; 12; 12; 124; 204; 204; 118; 0; 0; 0; 120; 204; 252; 192; 120; 0;
  56; 108; 96; 240; 96; 96; 240; 0; 0; 0; 118; 204; 204; 124; 12; 248;
  224; 96; 108; 118; 102; 102; 230; 0; 48; 0; 112; 48; 48; 48; 120; 0;
  12; 0; 12; 12; 12; 204; 204; 120; 224; 96; 102; 108; 120; 108; 230; 0;
  112; 48; 48; 48; 48; 48; 120; 0; 0; 0; 204; 254; 254; 214; 198; 0;
  0; 0; 248; 204; 204; 204; 204; 0; 0; 0; 120; 204; 204; 204; 120; 0;
  0; 0; 220; 102; 102; 124; 96; 240; 0; 0; 118; 204; 204; 124; 12; 30;
  0; 0; 220; 118; 102; 96; 240; 0; 0; 0; 124; 192; 120; 12; 248; 0;
  16; 48; 124; 48; 48; 52; 24; 0; 0; 0; 204; 204; 204; 204; 118; 0;
  0; 0; 204; 204; 204; 120; 48; 0; 0; 0; 198; 214; 254; 254; 108; 0;
  0; 0; 198; 108; 56; 108; 198; 0; 0; 0; 204; 204; 204; 124; 12; 248;
  0; 0; 252; 152; 48; 100; 252; 0; 28; 48; 48; 224; 48; 48; 28; 0;
  24; 24; 24; 0; 24; 24; 24; 0; 224; 48; 48; 28; 48; 48; 224; 0;
  118; 220; 0; 0; 0; 0; 0; 0; 0; 16; 56; 108; 198; 198; 254; 0;
  120; 204; 192; 204; 120; 24; 12; 120; 0; 204; 0; 204; 204; 204; 126; 0;
  28; 0; 120; 204; 252; 192; 120; 0; 126; 195; 60; 6; 62; 102; 63; 0;
  204; 0; 120; 12; 124; 204; 126; 0; 224; 0; 120; 12; 124; 204; 126; 0;
  48; 48; 120; 12; 124; 204; 126; 0; 0; 0; 120; 192; 192; 120; 12; 56;
  126; 195; 60; 102; 126; 96; 60; 0; 204; 0; 120; 204; 252; 192; 120; 0;
  224; 0; 120; 204; 252; 192; 120; 0; 204; 0; 112; 48; 48; 48; 120; 0;
  124; 198; 56; 24; 24; 24; 60; 0; 224; 0; 112; 48; 48; 48; 120; 0;
  198; 56; 108; 198; 254; 198; 198; 0; 48; 48; 0; 120; 204; 252; 204; 0;
  28; 0; 252; 96; 120; 96; 252; 0; 0; 0; 127; 12; 127; 204; 127; 0;
  62; 108; 204; 254; 204; 204; 206; 0; 120; 204; 0; 120; 204; 204; 120; 0;
  0; 204; 0; 120; 204; 204; 120; 0; 0; 224; 0; 120; 204; 204; 120; 0;
  120; 204; 0; 204; 204; 204; 126; 0; 0; 224; 0; 204; 204; 204; 126; 0;
  0; 204; 0; 204; 204; 124; 12; 248; 195; 24; 60; 102; 102; 60; 24; 0;
  204; 0; 204; 204; 204; 204; 120; 0; 24; 24; 126; 192; 192; 126; 24; 24;
  56; 108; 100; 240; 96; 230; 252; 0; 204; 204; 120; 252; 48; 252; 48; 48;
  248; 204; 204; 250; 198; 207; 198; 199; 14; 27; 24; 60; 24; 24; 216; 112;
  28; 0; 120; 12; 124; 204; 126; 0; 56; 0; 112; 48; 48; 48; 120; 0;
  0; 28; 0; 120; 204; 204; 120; 0; 0; 28; 0; 204; 204; 204; 126; 0;
  0; 248; 0; 248; 204; 204; 204; 0; 252; 0; 204; 236; 252; 220; 204; 0;
  60; 108; 108; 62; 0; 126; 0; 0; 56; 108; 108; 56; 0; 124; 0; 0;
  48; 0; 48; 96; 192; 204; 120; 0; 0; 0; 0; 252; 192; 192; 0; 0;
  0; 0; 0; 252; 12; 12; 0; 0; 195; 198; 204; 222; 51; 102; 204; 15;
  195; 198; 204; 219; 55; 111; 207; 3; 24; 24; 0; 24; 24; 24; 24; 0;
  0; 51; 102; 204; 102; 51; 0; 0; 0; 204; 102; 51; 102; 204; 0; 0;
  34; 136; 34; 136; 34; 136; 34; 136; 85; 170; 85; 170; 85; 170; 85; 170;
  219; 119; 219; 238; 219; 119; 219; 238; 24; 24; 24; 24; 24; 24; 24; 24;
  24; 24; 24; 24; 248; 24; 24; 24; 24; 24; 248; 24; 248; 24; 24; 24;
  54; 54; 54; 54; 246; 54; 54; 54; 0; 0; 0; 0; 254; 54; 54; 54;
  0; 0; 248; 24; 248; 24; 24; 24; 54; 54; 246; 6; 246; 54; 54; 54;
  54; 54; 54; 54; 54; 54; 54; 54; 0; 0; 254; 6; 246; 54; 54; 54;
  54; 54; 246; 6; 254; 0; 0; 0; 54; 54; 54; 54; 254; 0; 0; 0;
  24; 24; 248; 24; 248; 0; 0; 0; 0; 0; 0; 0; 248; 24; 24; 24;
  24; 24; 24; 24; 31; 0; 0; 0; 24; 24; 24; 24; 255; 0; 0; 0;
  0; 0; 0; 0; 255; 24; 24; 24; 24; 24; 24; 24; 31; 24; 24; 24;
  0; 0; 0; 0; 255; 0; 0; 0; 24; 24; 24; 24; 255; 24; 24; 24;
  24; 24; 31; 24; 31; 24; 24; 24; 54; 54; 54; 54; 55; 54; 54; 54;
  54; 54; 55; 48; 63; 0; 0; 0; 0; 0; 63; 48; 55; 54; 54; 54;
  54; 54; 247; 0; 255; 0; 0; 0; 0; 0; 255; 0; 247; 54; 54; 54;
  54; 54; 55; 48; 55; 54; 54; 54; 0; 0; 255; 0; 255; 0; 0; 0;
  54; 54; 247; 0; 247; 54; 54; 54; 24; 24; 255; 0; 255; 0; 0; 0;
  54; 54; 54; 54; 255; 0; 0; 0; 0; 0; 255; 0; 255; 24; 24; 24;
  0; 0; 0; 0; 255; 54; 54; 54; 54; 54; 54; 54; 63; 0; 0; 0;
  24; 24; 31; 24; 31; 0; 0; 0; 0; 0; 31; 24; 31; 24; 24; 24;
  0; 0; 0; 0; 63; 54; 54; 54; 54; 54; 54; 54; 255; 54; 54; 54;
  24; 24; 255; 24; 255; 24; 24; 24; 24; 24; 24; 24; 248; 0; 0; 0;
  0; 0; 0; 0; 31; 24; 24; 24; 255; 255; 255; 255; 255; 255; 255; 255;
  0; 0; 0; 0; 255; 255; 255; 255; 240; 240; 240; 240; 240; 240; 240; 240;
  15; 15; 15; 15; 15; 15; 15; 15; 255; 255; 255; 255; 0; 0; 0; 0;
  0; 0; 118; 220; 200; 220; 118; 0; 0; 120; 204; 248; 204; 248; 192; 192;
  0; 252; 204; 192; 192; 192; 192; 0; 0; 254; 108; 108; 108; 108; 108; 0;
  252; 204; 96; 48; 96; 204; 252; 0; 0; 0; 126; 216; 216; 216; 112; 0;
  0; 102; 102; 102; 102; 124; 96; 192; 0; 118; 220; 24; 24; 24; 24; 0;
  252; 48; 120; 204; 204; 120; 48; 252; 56; 108; 198; 254; 198; 108; 56; 0;
  56; 108; 198; 198; 108; 108; 238; 0; 28; 48; 24; 124; 204; 204; 120; 0;
  0; 0; 126; 219; 219; 126; 0; 0; 6; 12; 126; 219; 219; 126; 96; 192;
  56; 96; 192; 248; 192; 96; 56; 0; 120; 204; 204; 204; 204; 204; 204; 0;
  0; 252; 0; 252; 0; 252; 0; 0; 48; 48; 252; 48; 48; 0; 252; 0;
  96; 48; 24; 48; 96; 0; 252; 0; 24; 48; 96; 48; 24; 0; 252; 0;
  14; 27; 27; 24; 24; 24; 24; 24; 24; 24; 24; 24; 24; 216; 216; 112;
  48; 48; 0; 252; 0; 48; 48; 0; 0; 118; 220; 0; 118; 220; 0; 0;
  56; 108; 108; 56; 0; 0; 0; 0; 0; 0; 0; 24; 24; 0; 0; 0;
  0; 0; 0; 0; 24; 0; 0; 0; 15; 12; 12; 12; 236; 108; 60; 28;
  120; 108; 108; 108; 108; 0; 0; 0; 112; 24; 48; 96; 120; 0; 0; 0;
  0; 0; 60; 60; 60; 60; 0; 0; 0; 0; 0; 0; 0; 0; 0; 0].

Definition vgafont14 : list Z := [
  0; 0; 0; 0; 0; 0; 0; 0; 0; 0; 0; 0; 0; 0; 0; 0; 126; 129; 165; 129; 129; 189; 153; 129; 126; 0; 0; 0;
  0; 0; 126; 255; 219; 255; 255; 195; 231; 255; 126; 0; 0; 0; 0; 0; 0; 108; 254; 254; 254; 254; 124; 56; 16; 0; 0; 0;
  0; 0; 0; 16; 56; 124; 254; 124; 56; 16; 0; 0; 0; 0; 0; 0; 24; 60; 60; 231; 231; 231; 24; 24; 60; 0; 0; 0;
  0; 0; 24; 60; 126; 255; 255; 126; 24; 24; 60; 0; 0; 0; 0; 0; 0; 0; 0; 24; 60; 60; 24; 0; 0; 0; 0; 0;
  255; 255; 255; 255; 255; 231; 195; 195; 231; 255; 255; 255; 255; 255; 0; 0; 0; 0; 60; 102; 66; 66; 102; 60; 0; 0; 0; 0;
  255; 255; 255; 255; 195; 153; 189; 189; 153; 195; 255; 255; 255; 255; 0; 0; 30; 14; 26; 50; 120; 204; 204; 204; 120; 0; 0; 0;
  0; 0; 60; 102; 102; 102; 60; 24; 126; 24; 24; 0; 0; 0; 0; 0; 63; 51; 63; 48; 48; 48; 112; 240; 224; 0; 0; 0;
  0; 0; 127; 99; 127; 99; 99; 99; 103; 231; 230; 192; 0; 0; 0; 0; 24; 24; 219; 60; 231; 60; 219; 24; 24; 0; 0; 0;
  0; 0; 128; 192; 224; 248; 254; 248; 224; 192; 128; 0; 0; 0; 0; 0; 2; 6; 14; 62; 254; 62; 14; 6; 2; 0; 0; 0;
  0; 0; 24; 60; 126; 24; 24; 24; 126; 60; 24; 0; 0; 0; 0; 0; 102; 102; 102; 102; 102; 102; 0; 102; 102; 0; 0; 0;
  0; 0; 127; 219; 219; 219; 123; 27; 27; 27; 27; 0; 0; 0; 0; 124; 198; 96; 56; 108; 198; 198; 108; 56; 12; 198; 124; 0;
  0; 0; 0; 0; 0; 0; 0; 0; 254; 254; 254; 0; 0; 0; 0; 0; 24; 60; 126; 24; 24; 24; 126; 60; 24; 126; 0; 0;
  0; 0; 24; 60; 126; 24; 24; 24; 24; 24; 24; 0; 0; 0; 0; 0; 24; 24; 24; 24; 24; 24; 126; 60; 24; 0; 0; 0;
  0; 0; 0; 0; 24; 12; 254; 12; 24; 0; 0; 0; 0; 0; 0; 0; 0; 0; 48; 96; 254; 96; 48; 0; 0; 0; 0; 0;
  0; 0; 0; 0; 0; 192; 192; 192; 254; 0; 0; 0; 0; 0; 0; 0; 0; 0; 40; 108; 254; 108; 40; 0; 0; 0; 0; 0;
  0; 0; 0; 16; 56; 56; 124; 124; 254; 254; 0; 0; 0; 0; 0; 0; 0; 254; 254; 124; 124; 56; 56; 16; 0; 0; 0; 0;
  0; 0; 0; 0; 0; 0; 0; 0; 0; 0; 0; 0; 0; 0; 0; 0; 24; 60; 60; 60; 24; 24; 0; 24; 24; 0; 0; 0;
  0; 102; 102; 102; 36; 0; 0; 0; 0; 0; 0; 0; 0; 0; 0; 0; 108; 108; 254; 108; 108; 108; 254; 108; 108; 0; 0; 0;
  24; 24; 124; 198; 194; 192; 124; 6; 134; 198; 124; 24; 24; 0; 0; 0; 0; 0; 194; 198; 12; 24; 48; 102; 198; 0; 0; 0;
  0; 0; 56; 108; 108; 56; 118; 220; 204; 204; 118; 0; 0; 0; 0; 48; 48; 48; 96; 0; 0; 0; 0; 0; 0; 0; 0; 0;
  0; 0; 12; 24; 48; 48; 48; 48; 48; 24; 12; 0; 0; 0; 0; 0; 48; 24; 12; 12; 12; 12; 12; 24; 48; 0; 0; 0;
  0; 0; 0; 0; 102; 60; 255; 60; 102; 0; 0; 0; 0; 0; 0; 0; 0; 0; 24; 24; 126; 24; 24; 0; 0; 0; 0; 0;
  0; 0; 0; 0; 0; 0; 0; 0; 24; 24; 24; 48; 0; 0; 0; 0; 0; 0; 0; 0; 254; 0; 0; 0; 0; 0; 0; 0;
  0; 0; 0; 0; 0; 0; 0; 0; 0; 24; 24; 0; 0; 0; 0; 0; 2; 6; 12; 24; 48; 96; 192; 128; 0; 0; 0; 0;
  0; 0; 124; 198; 206; 222; 246; 230; 198; 198; 124; 0; 0; 0; 0; 0; 24; 56; 120; 24; 24; 24; 24; 24; 126; 0; 0; 0;
  0; 0; 124; 198; 6; 12; 24; 48; 96; 198; 254; 0; 0; 0; 0; 0; 124; 198; 6; 6; 60; 6; 6; 198; 124; 0; 0; 0;
  0; 0; 12; 28; 60; 108; 204; 254; 12; 12; 30; 0; 0; 0; 0; 0; 254; 192; 192; 192; 252; 6; 6; 198; 124; 0; 0; 0;
  0; 0; 56; 96; 192; 192; 252; 198; 198; 198; 124; 0; 0; 0; 0; 0; 254; 198; 6; 12; 24; 48; 48; 48; 48; 0; 0; 0;
  0; 0; 124; 198; 198; 198; 124; 198; 198; 198; 124; 0; 0; 0; 0; 0; 124; 198; 198; 198; 126; 6; 6; 12; 120; 0; 0; 0;
  0; 0; 0; 24; 24; 0; 0; 0; 24; 24; 0; 0; 0; 0; 0; 0; 0; 24; 24; 0; 0; 0; 24; 24; 48; 0; 0; 0;
  0; 0; 6; 12; 24; 48; 96; 48; 24; 12; 6; 0; 0; 0; 0; 0; 0; 0; 0; 126; 0; 0; 126; 0; 0; 0; 0; 0;
  0; 0; 96; 48; 24; 12; 6; 12; 24; 48; 96; 0; 0; 0; 0; 0; 124; 198; 198; 12; 24; 24; 0; 24; 24; 0; 0; 0;
  0; 0; 124; 198; 198; 222; 222; 222; 220; 192; 124; 0; 0; 0; 0; 0; 16; 56; 108; 198; 198; 254; 198; 198; 198; 0; 0; 0;
  0; 0; 252; 102; 102; 102; 124; 102; 102; 102; 252; 0; 0; 0; 0; 0; 60; 102; 194; 192; 192; 192; 194; 102; 60; 0; 0; 0;
  0; 0; 248; 108; 102; 102; 102; 102; 102; 108; 248; 0; 0; 0; 0; 0; 254; 102; 98; 104; 120; 104; 98; 102; 254; 0; 0; 0;
  0; 0; 254; 102; 98; 104; 120; 104; 96; 96; 240; 0; 0; 0; 0; 0; 60; 102; 194; 192; 192; 222; 198; 102; 58; 0; 0; 0;
  0; 0; 198; 198; 198; 198; 254; 198; 198; 198; 198; 0; 0; 0; 0; 0; 60; 24; 24; 24; 24; 24; 24; 24; 60; 0; 0; 0;
  0; 0; 30; 12; 12; 12; 12; 12; 204; 204; 120; 0; 0; 0; 0; 0; 230; 102; 108; 108; 120; 108; 108; 102; 230; 0; 0; 0;
  0; 0; 240; 96; 96; 96; 96; 96; 98; 102; 254; 0; 0; 0; 0; 0; 198; 238; 254; 254; 214; 198; 198; 198; 198; 0; 0; 0;
  0; 0; 198; 230; 246; 254; 222; 206; 198; 198; 198; 0; 0; 0; 0; 0; 56; 108; 198; 198; 198; 198; 198; 108; 56; 0; 0; 0;
  0; 0; 252; 102; 102; 102; 124; 96; 96; 96; 240; 0; 0; 0; 0; 0; 124; 198; 198; 198; 198; 214; 222; 124; 12; 14; 0; 0;
  0; 0; 252; 102; 102; 102; 124; 108; 102; 102; 230; 0; 0; 0; 0; 0; 124; 198; 198; 96; 56; 12; 198; 198; 124; 0; 0; 0;
  0; 0; 126; 126; 90; 24; 24; 24; 24; 24; 60; 0; 0; 0; 0; 0; 198; 198; 198; 198; 198; 198; 198; 198; 124; 0; 0; 0;
  0; 0; 198; 198; 198; 198; 198; 198; 108; 56; 16; 0; 0; 0; 0; 0; 198; 198; 198; 198; 214; 214; 254; 124; 108; 0; 0; 0;
  0; 0; 198; 198; 108; 56; 56; 56; 108; 198; 198; 0; 0; 0; 0; 0; 102; 102; 102; 102; 60; 24; 24; 24; 60; 0; 0; 0;
  0; 0; 254; 198; 140; 24; 48; 96; 194; 198; 254; 0; 0; 0; 0; 0; 60; 48; 48; 48; 48; 48; 48; 48; 60; 0; 0; 0;
  0; 0; 128; 192; 224; 112; 56; 28; 14; 6; 2; 0; 0; 0; 0; 0; 60; 12; 12; 12; 12; 12; 12; 12; 60; 0; 0; 0;
  16; 56; 108; 198; 0; 0; 0; 0; 0; 0; 0; 0; 0; 0; 0; 0; 0; 0; 0; 0; 0; 0; 0; 0; 0; 0; 255; 0;
  48; 48; 24; 0; 0; 0; 0; 0; 0; 0; 0; 0; 0; 0; 0; 0; 0; 0; 0; 120; 12; 124; 204; 204; 118; 0; 0; 0;
  0; 0; 224; 96; 96; 120; 108; 102; 102; 102; 124; 0; 0; 0; 0; 0; 0; 0; 0; 124; 198; 192; 192; 198; 124; 0; 0; 0;
  0; 0; 28; 12; 12; 60; 108; 204; 204; 204; 118; 0; 0; 0; 0; 0; 0; 0; 0; 124; 198; 254; 192; 198; 124; 0; 0; 0;
  0; 0; 56; 108; 100; 96; 240; 96; 96; 96; 240; 0; 0; 0; 0; 0; 0; 0; 0; 118; 204; 204; 204; 124; 12; 204; 120; 0;
  0; 0; 224; 96; 96; 108; 118; 102; 102; 102; 230; 0; 0; 0; 0; 0; 24; 24; 0; 56; 24; 24; 24; 24; 60; 0; 0; 0;
  0; 0; 6; 6; 0; 14; 6; 6; 6; 6; 102; 102; 60; 0; 0; 0; 224; 96; 96; 102; 108; 120; 108; 102; 230; 0; 0; 0;
  0; 0; 56; 24; 24; 24; 24; 24; 24; 24; 60; 0; 0; 0; 0; 0; 0; 0; 0; 236; 254; 214; 214; 214; 198; 0; 0; 0;
  0; 0; 0; 0; 0; 220; 102; 102; 102; 102; 102; 0; 0; 0; 0; 0; 0; 0; 0; 124; 198; 198; 198; 198; 124; 0; 0; 0;
  0; 0; 0; 0; 0; 220; 102; 102; 102; 124; 96; 96; 240; 0; 0; 0; 0; 0; 0; 118; 204; 204; 204; 124; 12; 12; 30; 0;
  0; 0; 0; 0; 0; 220; 118; 102; 96; 96; 240; 0; 0; 0; 0; 0; 0; 0; 0; 124; 198; 112; 28; 198; 124; 0; 0; 0;
  0; 0; 16; 48; 48; 252; 48; 48; 48; 54; 28; 0; 0; 0; 0; 0; 0; 0; 0; 204; 204; 204; 204; 204; 118; 0; 0; 0;
  0; 0; 0; 0; 0; 102; 102; 102; 102; 60; 24; 0; 0; 0; 0; 0; 0; 0; 0; 198; 198; 214; 214; 254; 108; 0; 0; 0;
  0; 0; 0; 0; 0; 198; 108; 56; 56; 108; 198; 0; 0; 0; 0; 0; 0; 0; 0; 198; 198; 198; 198; 126; 6; 12; 248; 0;
  0; 0; 0; 0; 0; 254; 204; 24; 48; 102; 254; 0; 0; 0; 0; 0; 14; 24; 24; 24; 112; 24; 24; 24; 14; 0; 0; 0;
  0; 0; 24; 24; 24; 24; 0; 24; 24; 24; 24; 0; 0; 0; 0; 0; 112; 24; 24; 24; 14; 24; 24; 24; 112; 0; 0; 0;
  0; 0; 118; 220; 0; 0; 0; 0; 0; 0; 0; 0; 0; 0; 0; 0; 0; 0; 16; 56; 108; 198; 198; 254; 0; 0; 0; 0;
  0; 0; 60; 102; 194; 192; 192; 194; 102; 60; 12; 6; 124; 0; 0; 0; 204; 204; 0; 204; 204; 204; 204; 204; 118; 0; 0; 0;
  0; 12; 24; 48; 0; 124; 198; 254; 192; 198; 124; 0; 0; 0; 0; 16; 56; 108; 0; 120; 12; 124; 204; 204; 118; 0; 0; 0;
  0; 0; 204; 204; 0; 120; 12; 124; 204; 204; 118; 0; 0; 0; 0; 96; 48; 24; 0; 120; 12; 124; 204; 204; 118; 0; 0; 0;
  0; 56; 108; 56; 0; 120; 12; 124; 204; 204; 118; 0; 0; 0; 0; 0; 0; 0; 60; 102; 96; 102; 60; 12; 6; 60; 0; 0;
  0; 16; 56; 108; 0; 124; 198; 254; 192; 198; 124; 0; 0; 0; 0; 0; 204; 204; 0; 124; 198; 254; 192; 198; 124; 0; 0; 0;
  0; 96; 48; 24; 0; 124; 198; 254; 192; 198; 124; 0; 0; 0; 0; 0; 102; 102; 0; 56; 24; 24; 24; 24; 60; 0; 0; 0;
  0; 24; 60; 102; 0; 56; 24; 24; 24; 24; 60; 0; 0; 0; 0; 96; 48; 24; 0; 56; 24; 24; 24; 24; 60; 0; 0; 0;
  0; 198; 198; 16; 56; 108; 198; 198; 254; 198; 198; 0; 0; 0; 56; 108; 56; 0; 56; 108; 198; 198; 254; 198; 198; 0; 0; 0;
  24; 48; 96; 0; 254; 102; 96; 124; 96; 102; 254; 0; 0; 0; 0; 0; 0; 0; 204; 118; 54; 126; 216; 216; 110; 0; 0; 0;
  0; 0; 62; 108; 204; 204; 254; 204; 204; 204; 206; 0; 0; 0; 0; 16; 56; 108; 0; 124; 198; 198; 198; 198; 124; 0; 0; 0;
  0; 0; 198; 198; 0; 124; 198; 198; 198; 198; 124; 0; 0; 0; 0; 96; 48; 24; 0; 124; 198; 198; 198; 198; 124; 0; 0; 0;
  0; 48; 120; 204; 0; 204; 204; 204; 204; 204; 118; 0; 0; 0; 0; 96; 48; 24; 0; 204; 204; 204; 204; 204; 118; 0; 0; 0;
  0; 0; 198; 198; 0; 198; 198; 198; 198; 126; 6; 12; 120; 0; 0; 198; 198; 56; 108; 198; 198; 198; 198; 108; 56; 0; 0; 0;
  0; 198; 198; 0; 198; 198; 198; 198; 198; 198; 124; 0; 0; 0; 0; 24; 24; 60; 102; 96; 96; 102; 60; 24; 24; 0; 0; 0;
  0; 56; 108; 100; 96; 240; 96; 96; 96; 230; 252; 0; 0; 0; 0; 0; 102; 102; 60; 24; 126; 24; 126; 24; 24; 0; 0; 0;
  0; 248; 204; 204; 248; 196; 204; 222; 204; 204; 198; 0; 0; 0; 0; 14; 27; 24; 24; 24; 126; 24; 24; 24; 24; 216; 112; 0;
  0; 24; 48; 96; 0; 120; 12; 124; 204; 204; 118; 0; 0; 0; 0; 12; 24; 48; 0; 56; 24; 24; 24; 24; 60; 0; 0; 0;
  0; 24; 48; 96; 0; 124; 198; 198; 198; 198; 124; 0; 0; 0; 0; 24; 48; 96; 0; 204; 204; 204; 204; 204; 118; 0; 0; 0;
  0; 0; 118; 220; 0; 220; 102; 102; 102; 102; 102; 0; 0; 0; 118; 220; 0; 198; 230; 246; 254; 222; 206; 198; 198; 0; 0; 0;
  0; 60; 108; 108; 62; 0; 126; 0; 0; 0; 0; 0; 0; 0; 0; 56; 108; 108; 56; 0; 124; 0; 0; 0; 0; 0; 0; 0;
  0; 0; 48; 48; 0; 48; 48; 96; 198; 198; 124; 0; 0; 0; 0; 0; 0; 0; 0; 0; 254; 192; 192; 192; 0; 0; 0; 0;
  0; 0; 0; 0; 0; 0; 254; 6; 6; 6; 0; 0; 0; 0; 0; 192; 192; 198; 204; 216; 48; 96; 220; 134; 12; 24; 62; 0;
  0; 192; 192; 198; 204; 216; 48; 102; 206; 158; 62; 6; 6; 0; 0; 0; 24; 24; 0; 24; 24; 60; 60; 60; 24; 0; 0; 0;
  0; 0; 0; 0; 54; 108; 216; 108; 54; 0; 0; 0; 0; 0; 0; 0; 0; 0; 216; 108; 54; 108; 216; 0; 0; 0; 0; 0;
  17; 68; 17; 68; 17; 68; 17; 68; 17; 68; 17; 68; 17; 68; 85; 170; 85; 170; 85; 170; 85; 170; 85; 170; 85; 170; 85; 170;
  221; 119; 221; 119; 221; 119; 221; 119; 221; 119; 221; 119; 221; 119; 24; 24; 24; 24; 24; 24; 24; 24; 24; 24; 24; 24; 24; 24;
  24; 24; 24; 24; 24; 24; 24; 248; 24; 24; 24; 24; 24; 24; 24; 24; 24; 24; 24; 248; 24; 248; 24; 24; 24; 24; 24; 24;
  54; 54; 54; 54; 54; 54; 54; 246; 54; 54; 54; 54; 54; 54; 0; 0; 0; 0; 0; 0; 0; 254; 54; 54; 54; 54; 54; 54;
  0; 0; 0; 0; 0; 248; 24; 248; 24; 24; 24; 24; 24; 24; 54; 54; 54; 54; 54; 246; 6; 246; 54; 54; 54; 54; 54; 54;
  54; 54; 54; 54; 54; 54; 54; 54; 54; 54; 54; 54; 54; 54; 0; 0; 0; 0; 0; 254; 6; 246; 54; 54; 54; 54; 54; 54;
  54; 54; 54; 54; 54; 246; 6; 254; 0; 0; 0; 0; 0; 0; 54; 54; 54; 54; 54; 54; 54; 254; 0; 0; 0; 0; 0; 0;
  24; 24; 24; 24; 24; 248; 24; 248; 0; 0; 0; 0; 0; 0; 0; 0; 0; 0; 0; 0; 0; 248; 24; 24; 24; 24; 24; 24;
  24; 24; 24; 24; 24; 24; 24; 31; 0; 0; 0; 0; 0; 0; 24; 24; 24; 24; 24; 24; 24; 255; 0; 0; 0; 0; 0; 0;
  0; 0; 0; 0; 0; 0; 0; 255; 24; 24; 24; 24; 24; 24; 24; 24; 24; 24; 24; 24; 24; 31; 24; 24; 24; 24; 24; 24;
  0; 0; 0; 0; 0; 0; 0; 255; 0; 0; 0; 0; 0; 0; 24; 24; 24; 24; 24; 24; 24; 255; 24; 24; 24; 24; 24; 24;
  24; 24; 24; 24; 24; 31; 24; 31; 24; 24; 24; 24; 24; 24; 54; 54; 54; 54; 54; 54; 54; 55; 54; 54; 54; 54; 54; 54;
  54; 54; 54; 54; 54; 55; 48; 63; 0; 0; 0; 0; 0; 0; 0; 0; 0; 0; 0; 63; 48; 55; 54; 54; 54; 54; 54; 54;
  54; 54; 54; 54; 54; 247; 0; 255; 0; 0; 0; 0; 0; 0; 0; 0; 0; 0; 0; 255; 0; 247; 54; 54; 54; 54; 54; 54;
  54; 54; 54; 54; 54; 55; 48; 55; 54; 54; 54; 54; 54; 54; 0; 0; 0; 0; 0; 255; 0; 255; 0; 0; 0; 0; 0; 0;
  54; 54; 54; 54; 54; 247; 0; 247; 54; 54; 54; 54; 54; 54; 24; 24; 24; 24; 24; 255; 0; 255; 0; 0; 0; 0; 0; 0;
  54; 54; 54; 54; 54; 54; 54; 255; 0; 0; 0; 0; 0; 0; 0; 0; 0; 0; 0; 255; 0; 255; 24; 24; 24; 24; 24; 24;
  0; 0; 0; 0; 0; 0; 0; 255; 54; 54; 54; 54; 54; 54; 54; 54; 54; 54; 54; 54; 54; 63; 0; 0; 0; 0; 0; 0;
  24; 24; 24; 24; 24; 31; 24; 31; 0; 0; 0; 0; 0; 0; 0; 0; 0; 0; 0; 31; 24; 31; 24; 24; 24; 24; 24; 24;
  0; 0; 0; 0; 0; 0; 0; 63; 54; 54; 54; 54; 54; 54; 54; 54; 54; 54; 54; 54; 54; 255; 54; 54; 54; 54; 54; 54;
  24; 24; 24; 24; 24; 255; 24; 255; 24; 24; 24; 24; 24; 24; 24; 24; 24; 24; 24; 24; 24; 248; 0; 0; 0; 0; 0; 0;
  0; 0; 0; 0; 0; 0; 0; 31; 24; 24; 24; 24; 24; 24; 255; 255; 255; 255; 255; 255; 255; 255; 255; 255; 255; 255; 255; 255;
  0; 0; 0; 0; 0; 0; 0; 255; 255; 255; 255; 255; 255; 255; 240; 240; 240; 240; 240; 240; 240; 240; 240; 240; 240; 240; 240; 240;
  15; 15; 15; 15; 15; 15; 15; 15; 15; 15; 15; 15; 15; 15; 255; 255; 255; 255; 255; 255; 255; 0; 0; 0; 0; 0; 0; 0;
  0; 0; 0; 0; 0; 118; 220; 216; 216; 220; 118; 0; 0; 0; 0; 0; 0; 0; 124; 198; 252; 198; 198; 252; 192; 192; 64; 0;
  0; 0; 254; 198; 198; 192; 192; 192; 192; 192; 192; 0; 0; 0; 0; 0; 0; 0; 254; 108; 108; 108; 108; 108; 108; 0; 0; 0;
  0; 0; 254; 198; 96; 48; 24; 48; 96; 198; 254; 0; 0; 0; 0; 0; 0; 0; 0; 126; 216; 216; 216; 216; 112; 0; 0; 0;
  0; 0; 0; 0; 102; 102; 102; 102; 124; 96; 96; 192; 0; 0; 0; 0; 0; 0; 118; 220; 24; 24; 24; 24; 24; 0; 0; 0;
  0; 0; 126; 24; 60; 102; 102; 102; 60; 24; 126; 0; 0; 0; 0; 0; 56; 108; 198; 198; 254; 198; 198; 108; 56; 0; 0; 0;
  0; 0; 56; 108; 198; 198; 198; 108; 108; 108; 238; 0; 0; 0; 0; 0; 30; 48; 24; 12; 62; 102; 102; 102; 60; 0; 0; 0;
  0; 0; 0; 0; 0; 126; 219; 219; 126; 0; 0; 0; 0; 0; 0; 0; 3; 6; 126; 219; 219; 243; 126; 96; 192; 0; 0; 0;
  0; 0; 28; 48; 96; 96; 124; 96; 96; 48; 28; 0; 0; 0; 0; 0; 0; 124; 198; 198; 198; 198; 198; 198; 198; 0; 0; 0;
  0; 0; 0; 254; 0; 0; 254; 0; 0; 254; 0; 0; 0; 0; 0; 0; 0; 24; 24; 126; 24; 24; 0; 0; 255; 0; 0; 0;
  0; 0; 48; 24; 12; 6; 12; 24; 48; 0; 126; 0; 0; 0; 0; 0; 12; 24; 48; 96; 48; 24; 12; 0; 126; 0; 0; 0;
  0; 0; 14; 27; 27; 24; 24; 24; 24; 24; 24; 24; 24; 24; 24; 24; 24; 24; 24; 24; 24; 24; 216; 216; 112; 0; 0; 0;
  0; 0; 0; 24; 24; 0; 126; 0; 24; 24; 0; 0; 0; 0; 0; 0; 0; 0; 118; 220; 0; 118; 220; 0; 0; 0; 0; 0;
  0; 56; 108; 108; 56; 0; 0; 0; 0; 0; 0; 0; 0; 0; 0; 0; 0; 0; 0; 0; 24; 24; 0; 0; 0; 0; 0; 0;
  0; 0; 0; 0; 0; 0; 0; 24; 0; 0; 0; 0; 0; 0; 0; 15; 12; 12; 12; 12; 12; 236; 108; 60; 28; 0; 0; 0;
  0; 216; 108; 108; 108; 108; 108; 0; 0; 0; 0; 0; 0; 0; 0; 112; 216; 48; 96; 200; 248; 0; 0; 0; 0; 0; 0; 0;
  0; 0; 0; 0; 124; 124; 124; 124; 124; 124; 0; 0; 0; 0; 0; 0; 0; 0; 0; 0; 0; 0; 0; 0; 0; 0; 0; 0].

Definition vgafont16 : list Z := [
  0; 0; 0; 0; 0; 0; 0; 0; 0; 0; 0; 0; 0; 0; 0; 0; 0; 0; 126; 129; 165; 129; 129; 189; 153; 129; 129; 126; 0; 0; 0; 0;
  0; 0; 126; 255; 219; 255; 255; 195; 231; 255; 255; 126; 0; 0; 0; 0; 0; 0; 0; 0; 108; 254; 254; 254; 254; 124; 56; 16; 0; 0; 0; 0;
  0; 0; 0; 0; 16; 56; 124; 254; 124; 56; 16; 0; 0; 0; 0; 0; 0; 0; 0; 24; 60; 60; 231; 231; 231; 24; 24; 60; 0; 0; 0; 0;
  0; 0; 0; 24; 60; 126; 255; 255; 126; 24; 24; 60; 0; 0; 0; 0; 0; 0; 0; 0; 0; 0; 24; 60; 60; 24; 0; 0; 0; 0; 0; 0;
  255; 255; 255; 255; 255; 255; 231; 195; 195; 231; 255; 255; 255; 255; 255; 255; 0; 0; 0; 0; 0; 60; 102; 66; 66; 102; 60; 0; 0; 0; 0; 0;
  255; 255; 255; 255; 255; 195; 153; 189; 189; 153; 195; 255; 255; 255; 255; 255; 0; 0; 30; 14; 26; 50; 120; 204; 204; 204; 204; 120; 0; 0; 0; 0;
  0; 0; 60; 102; 102; 102; 102; 60; 24; 126; 24; 24; 0; 0; 0; 0; 0; 0; 63; 51; 63; 48; 48; 48; 48; 112; 240; 224; 0; 0; 0; 0;
  0; 0; 127; 99; 127; 99; 99; 99; 99; 103; 231; 230; 192; 0; 0; 0; 0; 0; 0; 24; 24; 219; 60; 231; 60; 219; 24; 24; 0; 0; 0; 0;
  0; 128; 192; 224; 240; 248; 254; 248; 240; 224; 192; 128; 0; 0; 0; 0; 0; 2; 6; 14; 30; 62; 254; 62; 30; 14; 6; 2; 0; 0; 0; 0;
  0; 0; 24; 60; 126; 24; 24; 24; 126; 60; 24; 0; 0; 0; 0; 0; 0; 0; 102; 102; 102; 102; 102; 102; 102; 0; 102; 102; 0; 0; 0; 0;
  0; 0; 127; 219; 219; 219; 123; 27; 27; 27; 27; 27; 0; 0; 0; 0; 0; 124; 198; 96; 56; 108; 198; 198; 108; 56; 12; 198; 124; 0; 0; 0;
  0; 0; 0; 0; 0; 0; 0; 0; 254; 254; 254; 254; 0; 0; 0; 0; 0; 0; 24; 60; 126; 24; 24; 24; 126; 60; 24; 126; 0; 0; 0; 0;
  0; 0; 24; 60; 126; 24; 24; 24; 24; 24; 24; 24; 0; 0; 0; 0; 0; 0; 24; 24; 24; 24; 24; 24; 24; 126; 60; 24; 0; 0; 0; 0;
  0; 0; 0; 0; 0; 24; 12; 254; 12; 24; 0; 0; 0; 0; 0; 0; 0; 0; 0; 0; 0; 48; 96; 254; 96; 48; 0; 0; 0; 0; 0; 0;
  0; 0; 0; 0; 0; 0; 192; 192; 192; 254; 0; 0; 0; 0; 0; 0; 0; 0; 0; 0; 0; 36; 102; 255; 102; 36; 0; 0; 0; 0; 0; 0;
  0; 0; 0; 0; 16; 56; 56; 124; 124; 254; 254; 0; 0; 0; 0; 0; 0; 0; 0; 0; 254; 254; 124; 124; 56; 56; 16; 0; 0; 0; 0; 0;
  0; 0; 0; 0; 0; 0; 0; 0; 0; 0; 0; 0; 0; 0; 0; 0; 0; 0; 24; 60; 60; 60; 24; 24; 24; 0; 24; 24; 0; 0; 0; 0;
  0; 102; 102; 102; 36; 0; 0; 0; 0; 0; 0; 0; 0; 0; 0; 0; 0; 0; 0; 108; 108; 254; 108; 108; 108; 254; 108; 108; 0; 0; 0; 0;
  24; 24; 124; 198; 194; 192; 124; 6; 6; 134; 198; 124; 24; 24; 0; 0; 0; 0; 0; 0; 194; 198; 12; 24; 48; 96; 198; 134; 0; 0; 0; 0;
  0; 0; 56; 108; 108; 56; 118; 220; 204; 204; 204; 118; 0; 0; 0; 0; 0; 48; 48; 48; 96; 0; 0; 0; 0; 0; 0; 0; 0; 0; 0; 0;
  0; 0; 12; 24; 48; 48; 48; 48; 48; 48; 24; 12; 0; 0; 0; 0; 0; 0; 48; 24; 12; 12; 12; 12; 12; 12; 24; 48; 0; 0; 0; 0;
  0; 0; 0; 0; 0; 102; 60; 255; 60; 102; 0; 0; 0; 0; 0; 0; 0; 0; 0; 0; 0; 24; 24; 126; 24; 24; 0; 0; 0; 0; 0; 0;
  0; 0; 0; 0; 0; 0; 0; 0; 0; 24; 24; 24; 48; 0; 0; 0; 0; 0; 0; 0; 0; 0; 0; 254; 0; 0; 0; 0; 0; 0; 0; 0;
  0; 0; 0; 0; 0; 0; 0; 0; 0; 0; 24; 24; 0; 0; 0; 0; 0; 0; 0; 0; 2; 6; 12; 24; 48; 96; 192; 128; 0; 0; 0; 0;
  0; 0; 60; 102; 195; 195; 219; 219; 195; 195; 102; 60; 0; 0; 0; 0; 0; 0; 24; 56; 120; 24; 24; 24; 24; 24; 24; 126; 0; 0; 0; 0;
  0; 0; 124; 198; 6; 12; 24; 48; 96; 192; 198; 254; 0; 0; 0; 0; 0; 0; 124; 198; 6; 6; 60; 6; 6; 6; 198; 124; 0; 0; 0; 0;
  0; 0; 12; 28; 60; 108; 204; 254; 12; 12; 12; 30; 0; 0; 0; 0; 0; 0; 254; 192; 192; 192; 252; 6; 6; 6; 198; 124; 0; 0; 0; 0;
  0; 0; 56; 96; 192; 192; 252; 198; 198; 198; 198; 124; 0; 0; 0; 0; 0; 0; 254; 198; 6; 6; 12; 24; 48; 48; 48; 48; 0; 0; 0; 0;
  0; 0; 124; 198; 198; 198; 124; 198; 198; 198; 198; 124; 0; 0; 0; 0; 0; 0; 124; 198; 198; 198; 126; 6; 6; 6; 12; 120; 0; 0; 0; 0;
  0; 0; 0; 0; 24; 24; 0; 0; 0; 24; 24; 0; 0; 0; 0; 0; 0; 0; 0; 0; 24; 24; 0; 0; 0; 24; 24; 48; 0; 0; 0; 0;
  0; 0; 0; 6; 12; 24; 48; 96; 48; 24; 12; 6; 0; 0; 0; 0; 0; 0; 0; 0; 0; 126; 0; 0; 126; 0; 0; 0; 0; 0; 0; 0;
  0; 0; 0; 96; 48; 24; 12; 6; 12; 24; 48; 96; 0; 0; 0; 0; 0; 0; 124; 198; 198; 12; 24; 24; 24; 0; 24; 24; 0; 0; 0; 0;
  0; 0; 0; 124; 198; 198; 222; 222; 222; 220; 192; 124; 0; 0; 0; 0; 0; 0; 16; 56; 108; 198; 198; 254; 198; 198; 198; 198; 0; 0; 0; 0;
  0; 0; 252; 102; 102; 102; 124; 102; 102; 102; 102; 252; 0; 0; 0; 0; 0; 0; 60; 102; 194; 192; 192; 192; 192; 194; 102; 60; 0; 0; 0; 0;
  0; 0; 248; 108; 102; 102; 102; 102; 102; 102; 108; 248; 0; 0; 0; 0; 0; 0; 254; 102; 98; 104; 120; 104; 96; 98; 102; 254; 0; 0; 0; 0;
  0; 0; 254; 102; 98; 104; 120; 104; 96; 96; 96; 240; 0; 0; 0; 0; 0; 0; 60; 102; 194; 192; 192; 222; 198; 198; 102; 58; 0; 0; 0; 0;
  0; 0; 198; 198; 198; 198; 254; 198; 198; 198; 198; 198; 0; 0; 0; 0; 0; 0; 60; 24; 24; 24; 24; 24; 24; 24; 24; 60; 0; 0; 0; 0;
  0; 0; 30; 12; 12; 12; 12; 12; 204; 204; 204; 120; 0; 0; 0; 0; 0; 0; 230; 102; 102; 108; 120; 120; 108; 102; 102; 230; 0; 0; 0; 0;
  0; 0; 240; 96; 96; 96; 96; 96; 96; 98; 102; 254; 0; 0; 0; 0; 0; 0; 195; 231; 255; 255; 219; 195; 195; 195; 195; 195; 0; 0; 0; 0;
  0; 0; 198; 230; 246; 254; 222; 206; 198; 198; 198; 198; 0; 0; 0; 0; 0; 0; 124; 198; 198; 198; 198; 198; 198; 198; 198; 124; 0; 0; 0; 0;
  0; 0; 252; 102; 102; 102; 124; 96; 96; 96; 96; 240; 0; 0; 0; 0; 0; 0; 124; 198; 198; 198; 198; 198; 198; 214; 222; 124; 12; 14; 0; 0;
  0; 0; 252; 102; 102; 102; 124; 108; 102; 102; 102; 230; 0; 0; 0; 0; 0; 0; 124; 198; 198; 96; 56; 12; 6; 198; 198; 124; 0; 0; 0; 0;
  0; 0; 255; 219; 153; 24; 24; 24; 24; 24; 24; 60; 0; 0; 0; 0; 0; 0; 198; 198; 198; 198; 198; 198; 198; 198; 198; 124; 0; 0; 0; 0;
  0; 0; 195; 195; 195; 195; 195; 195; 195; 102; 60; 24; 0; 0; 0; 0; 0; 0; 195; 195; 195; 195; 195; 219; 219; 255; 102; 102; 0; 0; 0; 0;
  0; 0; 195; 195; 102; 60; 24; 24; 60; 102; 195; 195; 0; 0; 0; 0; 0; 0; 195; 195; 195; 102; 60; 24; 24; 24; 24; 60; 0; 0; 0; 0;
  0; 0; 255; 195; 134; 12; 24; 48; 96; 193; 195; 255; 0; 0; 0; 0; 0; 0; 60; 48; 48; 48; 48; 48; 48; 48; 48; 60; 0; 0; 0; 0;
  0; 0; 0; 128; 192; 224; 112; 56; 28; 14; 6; 2; 0; 0; 0; 0; 0; 0; 60; 12; 12; 12; 12; 12; 12; 12; 12; 60; 0; 0; 0; 0;
  16; 56; 108; 198; 0; 0; 0; 0; 0; 0; 0; 0; 0; 0; 0; 0; 0; 0; 0; 0; 0; 0; 0; 0; 0; 0; 0; 0; 0; 255; 0; 0;
  48; 48; 24; 0; 0; 0; 0; 0; 0; 0; 0; 0; 0; 0; 0; 0; 0; 0; 0; 0; 0; 120; 12; 124; 204; 204; 204; 118; 0; 0; 0; 0;
  0; 0; 224; 96; 96; 120; 108; 102; 102; 102; 102; 124; 0; 0; 0; 0; 0; 0; 0; 0; 0; 124; 198; 192; 192; 192; 198; 124; 0; 0; 0; 0;
  0; 0; 28; 12; 12; 60; 108; 204; 204; 204; 204; 118; 0; 0; 0; 0; 0; 0; 0; 0; 0; 124; 198; 254; 192; 192; 198; 124; 0; 0; 0; 0;
  0; 0; 56; 108; 100; 96; 240; 96; 96; 96; 96; 240; 0; 0; 0; 0; 0; 0; 0; 0; 0; 118; 204; 204; 204; 204; 204; 124; 12; 204; 120; 0;
  0; 0; 224; 96; 96; 108; 118; 102; 102; 102; 102; 230; 0; 0; 0; 0; 0; 0; 24; 24; 0; 56; 24; 24; 24; 24; 24; 60; 0; 0; 0; 0;
  0; 0; 6; 6; 0; 14; 6; 6; 6; 6; 6; 6; 102; 102; 60; 0; 0; 0; 224; 96; 96; 102; 108; 120; 120; 108; 102; 230; 0; 0; 0; 0;
  0; 0; 56; 24; 24; 24; 24; 24; 24; 24; 24; 60; 0; 0; 0; 0; 0; 0; 0; 0; 0; 230; 255; 219; 219; 219; 219; 219; 0; 0; 0; 0;
  0; 0; 0; 0; 0; 220; 102; 102; 102; 102; 102; 102; 0; 0; 0; 0; 0; 0; 0; 0; 0; 124; 198; 198; 198; 198; 198; 124; 0; 0; 0; 0;
  0; 0; 0; 0; 0; 220; 102; 102; 102; 102; 102; 124; 96; 96; 240; 0; 0; 0; 0; 0; 0; 118; 204; 204; 204; 204; 204; 124; 12; 12; 30; 0;
  0; 0; 0; 0; 0; 220; 118; 102; 96; 96; 96; 240; 0; 0; 0; 0; 0; 0; 0; 0; 0; 124; 198; 96; 56; 12; 198; 124; 0; 0; 0; 0;
  0; 0; 16; 48; 48; 252; 48; 48; 48; 48; 54; 28; 0; 0; 0; 0; 0; 0; 0; 0; 0; 204; 204; 204; 204; 204; 204; 118; 0; 0; 0; 0;
  0; 0; 0; 0; 0; 195; 195; 195; 195; 102; 60; 24; 0; 0; 0; 0; 0; 0; 0; 0; 0; 195; 195; 195; 219; 219; 255; 102; 0; 0; 0; 0;
  0; 0; 0; 0; 0; 195; 102; 60; 24; 60; 102; 195; 0; 0; 0; 0; 0; 0; 0; 0; 0; 198; 198; 198; 198; 198; 198; 126; 6; 12; 248; 0;
  0; 0; 0; 0; 0; 254; 204; 24; 48; 96; 198; 254; 0; 0; 0; 0; 0; 0; 14; 24; 24; 24; 112; 24; 24; 24; 24; 14; 0; 0; 0; 0;
  0; 0; 24; 24; 24; 24; 0; 24; 24; 24; 24; 24; 0; 0; 0; 0; 0; 0; 112; 24; 24; 24; 14; 24; 24; 24; 24; 112; 0; 0; 0; 0;
  0; 0; 118; 220; 0; 0; 0; 0; 0; 0; 0; 0; 0; 0; 0; 0; 0; 0; 0; 0; 16; 56; 108; 198; 198; 198; 254; 0; 0; 0; 0; 0;
  0; 0; 60; 102; 194; 192; 192; 192; 194; 102; 60; 12; 6; 124; 0; 0; 0; 0; 204; 0; 0; 204; 204; 204; 204; 204; 204; 118; 0; 0; 0; 0;
  0; 12; 24; 48; 0; 124; 198; 254; 192; 192; 198; 124; 0; 0; 0; 0; 0; 16; 56; 108; 0; 120; 12; 124; 204; 204; 204; 118; 0; 0; 0; 0;
  0; 0; 204; 0; 0; 120; 12; 124; 204; 204; 204; 118; 0; 0; 0; 0; 0; 96; 48; 24; 0; 120; 12; 124; 204; 204; 204; 118; 0; 0; 0; 0;
  0; 56; 108; 56; 0; 120; 12; 124; 204; 204; 204; 118; 0; 0; 0; 0; 0; 0; 0; 0; 60; 102; 96; 96; 102; 60; 12; 6; 60; 0; 0; 0;
  0; 16; 56; 108; 0; 124; 198; 254; 192; 192; 198; 124; 0; 0; 0; 0; 0; 0; 198; 0; 0; 124; 198; 254; 192; 192; 198; 124; 0; 0; 0; 0;
  0; 96; 48; 24; 0; 124; 198; 254; 192; 192; 198; 124; 0; 0; 0; 0; 0; 0; 102; 0; 0; 56; 24; 24; 24; 24; 24; 60; 0; 0; 0; 0;
  0; 24; 60; 102; 0; 56; 24; 24; 24; 24; 24; 60; 0; 0; 0; 0; 0; 96; 48; 24; 0; 56; 24; 24; 24; 24; 24; 60; 0; 0; 0; 0;
  0; 198; 0; 16; 56; 108; 198; 198; 254; 198; 198; 198; 0; 0; 0; 0; 56; 108; 56; 0; 56; 108; 198; 198; 254; 198; 198; 198; 0; 0; 0; 0;
  24; 48; 96; 0; 254; 102; 96; 124; 96; 96; 102; 254; 0; 0; 0; 0; 0; 0; 0; 0; 0; 110; 59; 27; 126; 216; 220; 119; 0; 0; 0; 0;
  0; 0; 62; 108; 204; 204; 254; 204; 204; 204; 204; 206; 0; 0; 0; 0; 0; 16; 56; 108; 0; 124; 198; 198; 198; 198; 198; 124; 0; 0; 0; 0;
  0; 0; 198; 0; 0; 124; 198; 198; 198; 198; 198; 124; 0; 0; 0; 0; 0; 96; 48; 24; 0; 124; 198; 198; 198; 198; 198; 124; 0; 0; 0; 0;
  0; 48; 120; 204; 0; 204; 204; 204; 204; 204; 204; 118; 0; 0; 0; 0; 0; 96; 48; 24; 0; 204; 204; 204; 204; 204; 204; 118; 0; 0; 0; 0;
  0; 0; 198; 0; 0; 198; 198; 198; 198; 198; 198; 126; 6; 12; 120; 0; 0; 198; 0; 124; 198; 198; 198; 198; 198; 198; 198; 124; 0; 0; 0; 0;
  0; 198; 0; 198; 198; 198; 198; 198; 198; 198; 198; 124; 0; 0; 0; 0; 0; 24; 24; 126; 195; 192; 192; 192; 195; 126; 24; 24; 0; 0; 0; 0;
  0; 56; 108; 100; 96; 240; 96; 96; 96; 96; 230; 252; 0; 0; 0; 0; 0; 0; 195; 102; 60; 24; 255; 24; 255; 24; 24; 24; 0; 0; 0; 0;
  0; 252; 102; 102; 124; 98; 102; 111; 102; 102; 102; 243; 0; 0; 0; 0; 0; 14; 27; 24; 24; 24; 126; 24; 24; 24; 24; 24; 216; 112; 0; 0;
  0; 24; 48; 96; 0; 120; 12; 124; 204; 204; 204; 118; 0; 0; 0; 0; 0; 12; 24; 48; 0; 56; 24; 24; 24; 24; 24; 60; 0; 0; 0; 0;
  0; 24; 48; 96; 0; 124; 198; 198; 198; 198; 198; 124; 0; 0; 0; 0; 0; 24; 48; 96; 0; 204; 204; 204; 204; 204; 204; 118; 0; 0; 0; 0;
  0; 0; 118; 220; 0; 220; 102; 102; 102; 102; 102; 102; 0; 0; 0; 0; 118; 220; 0; 198; 230; 246; 254; 222; 206; 198; 198; 198; 0; 0; 0; 0;
  0; 60; 108; 108; 62; 0; 126; 0; 0; 0; 0; 0; 0; 0; 0; 0; 0; 56; 108; 108; 56; 0; 124; 0; 0; 0; 0; 0; 0; 0; 0; 0;
  0; 0; 48; 48; 0; 48; 48; 96; 192; 198; 198; 124; 0; 0; 0; 0; 0; 0; 0; 0; 0; 0; 254; 192; 192; 192; 192; 0; 0; 0; 0; 0;
  0; 0; 0; 0; 0; 0; 254; 6; 6; 6; 6; 0; 0; 0; 0; 0; 0; 192; 192; 194; 198; 204; 24; 48; 96; 206; 155; 6; 12; 31; 0; 0;
  0; 192; 192; 194; 198; 204; 24; 48; 102; 206; 150; 62; 6; 6; 0; 0; 0; 0; 24; 24; 0; 24; 24; 24; 60; 60; 60; 24; 0; 0; 0; 0;
  0; 0; 0; 0; 0; 54; 108; 216; 108; 54; 0; 0; 0; 0; 0; 0; 0; 0; 0; 0; 0; 216; 108; 54; 108; 216; 0; 0; 0; 0; 0; 0;
  17; 68; 17; 68; 17; 68; 17; 68; 17; 68; 17; 68; 17; 68; 17; 68; 85; 170; 85; 170; 85; 170; 85; 170; 85; 170; 85; 170; 85; 170; 85; 170;
  221; 119; 221; 119; 221; 119; 221; 119; 221; 119; 221; 119; 221; 119; 221; 119; 24; 24; 24; 24; 24; 24; 24; 24; 24; 24; 24; 24; 24; 24; 24; 24;
  24; 24; 24; 24; 24; 24; 24; 248; 24; 24; 24; 24; 24; 24; 24; 24; 24; 24; 24; 24; 24; 248; 24; 248; 24; 24; 24; 24; 24; 24; 24; 24;
  54; 54; 54; 54; 54; 54; 54; 246; 54; 54; 54; 54; 54; 54; 54; 54; 0; 0; 0; 0; 0; 0; 0; 254; 54; 54; 54; 54; 54; 54; 54; 54;
  0; 0; 0; 0; 0; 248; 24; 248; 24; 24; 24; 24; 24; 24; 24; 24; 54; 54; 54; 54; 54; 246; 6; 246; 54; 54; 54; 54; 54; 54; 54; 54;
  54; 54; 54; 54; 54; 54; 54; 54; 54; 54; 54; 54; 54; 54; 54; 54; 0; 0; 0; 0; 0; 254; 6; 246; 54; 54; 54; 54; 54; 54; 54; 54;
  54; 54; 54; 54; 54; 246; 6; 254; 0; 0; 0; 0; 0; 0; 0; 0; 54; 54; 54; 54; 54; 54; 54; 254; 0; 0; 0; 0; 0; 0; 0; 0;
  24; 24; 24; 24; 24; 248; 24; 248; 0; 0; 0; 0; 0; 0; 0; 0; 0; 0; 0; 0; 0; 0; 0; 248; 24; 24; 24; 24; 24; 24; 24; 24;
  24; 24; 24; 24; 24; 24; 24; 31; 0; 0; 0; 0; 0; 0; 0; 0; 24; 24; 24; 24; 24; 24; 24; 255; 0; 0; 0; 0; 0; 0; 0; 0;
  0; 0; 0; 0; 0; 0; 0; 255; 24; 24; 24; 24; 24; 24; 24; 24; 24; 24; 24; 24; 24; 24; 24; 31; 24; 24; 24; 24; 24; 24; 24; 24;
  0; 0; 0; 0; 0; 0; 0; 255; 0; 0; 0; 0; 0; 0; 0; 0; 24; 24; 24; 24; 24; 24; 24; 255; 24; 24; 24; 24; 24; 24; 24; 24;
  24; 24; 24; 24; 24; 31; 24; 31; 24; 24; 24; 24; 24; 24; 24; 24; 54; 54; 54; 54; 54; 54; 54; 55; 54; 54; 54; 54; 54; 54; 54; 54;
  54; 54; 54; 54; 54; 55; 48; 63; 0; 0; 0; 0; 0; 0; 0; 0; 0; 0; 0; 0; 0; 63; 48; 55; 54; 54; 54; 54; 54; 54; 54; 54;
  54; 54; 54; 54; 54; 247; 0; 255; 0; 0; 0; 0; 0; 0; 0; 0; 0; 0; 0; 0; 0; 255; 0; 247; 54; 54; 54; 54; 54; 54; 54; 54;
  54; 54; 54; 54; 54; 55; 48; 55; 54; 54; 54; 54; 54; 54; 54; 54; 0; 0; 0; 0; 0; 255; 0; 255; 0; 0; 0; 0; 0; 0; 0; 0;
  54; 54; 54; 54; 54; 247; 0; 247; 54; 54; 54; 54; 54; 54; 54; 54; 24; 24; 24; 24; 24; 255; 0; 255; 0; 0; 0; 0; 0; 0; 0; 0;
  54; 54; 54; 54; 54; 54; 54; 255; 0; 0; 0; 0; 0; 0; 0; 0; 0; 0; 0; 0; 0; 255; 0; 255; 24; 24; 24; 24; 24; 24; 24; 24;
  0; 0; 0; 0; 0; 0; 0; 255; 54; 54; 54; 54; 54; 54; 54; 54; 54; 54; 54; 54; 54; 54; 54; 63; 0; 0; 0; 0; 0; 0; 0; 0;
  24; 24; 24; 24; 24; 31; 24; 31; 0; 0; 0; 0; 0; 0; 0; 0; 0; 0; 0; 0; 0; 31; 24; 31; 24; 24; 24; 24; 24; 24; 24; 24;
  0; 0; 0; 0; 0; 0; 0; 63; 54; 54; 54; 54; 54; 54; 54; 54; 54; 54; 54; 54; 54; 54; 54; 255; 54; 54; 54; 54; 54; 54; 54; 54;
  24; 24; 24; 24; 24; 255; 24; 255; 24; 24; 24; 24; 24; 24; 24; 24; 24; 24; 24; 24; 24; 24; 24; 248; 0; 0; 0; 0; 0; 0; 0; 0;
  0; 0; 0; 0; 0; 0; 0; 31; 24; 24; 24; 24; 24; 24; 24; 24; 255; 255; 255; 255; 255; 255; 255; 255; 255; 255; 255; 255; 255; 255; 255; 255;
  0; 0; 0; 0; 0; 0; 0; 255; 255; 255; 255; 255; 255; 255; 255; 255; 240; 240; 240; 240; 240; 240; 240; 240; 240; 240; 240; 240; 240; 240; 240; 240;
  15; 15; 15; 15; 15; 15; 15; 15; 15; 15; 15; 15; 15; 15; 15; 15; 255; 255; 255; 255; 255; 255; 255; 0; 0; 0; 0; 0; 0; 0; 0; 0;
  0; 0; 0; 0; 0; 118; 220; 216; 216; 216; 220; 118; 0; 0; 0; 0; 0; 0; 120; 204; 204; 204; 216; 204; 198; 198; 198; 204; 0; 0; 0; 0;
  0; 0; 254; 198; 198; 192; 192; 192; 192; 192; 192; 192; 0; 0; 0; 0; 0; 0; 0; 0; 254; 108; 108; 108; 108; 108; 108; 108; 0; 0; 0; 0;
  0; 0; 0; 254; 198; 96; 48; 24; 48; 96; 198; 254; 0; 0; 0; 0; 0; 0; 0; 0; 0; 126; 216; 216; 216; 216; 216; 112; 0; 0; 0; 0;
  0; 0; 0; 0; 102; 102; 102; 102; 102; 124; 96; 96; 192; 0; 0; 0; 0; 0; 0; 0; 118; 220; 24; 24; 24; 24; 24; 24; 0; 0; 0; 0;
  0; 0; 0; 126; 24; 60; 102; 102; 102; 60; 24; 126; 0; 0; 0; 0; 0; 0; 0; 56; 108; 198; 198; 254; 198; 198; 108; 56; 0; 0; 0; 0;
  0; 0; 56; 108; 198; 198; 198; 108; 108; 108; 108; 238; 0; 0; 0; 0; 0; 0; 30; 48; 24; 12; 62; 102; 102; 102; 102; 60; 0; 0; 0; 0;
  0; 0; 0; 0; 0; 126; 219; 219; 219; 126; 0; 0; 0; 0; 0; 0; 0; 0; 0; 3; 6; 126; 219; 219; 243; 126; 96; 192; 0; 0; 0; 0;
  0; 0; 28; 48; 96; 96; 124; 96; 96; 96; 48; 28; 0; 0; 0; 0; 0; 0; 0; 124; 198; 198; 198; 198; 198; 198; 198; 198; 0; 0; 0; 0;
  0; 0; 0; 0; 254; 0; 0; 254; 0; 0; 254; 0; 0; 0; 0; 0; 0; 0; 0; 0; 24; 24; 126; 24; 24; 0; 0; 255; 0; 0; 0; 0;
  0; 0; 0; 48; 24; 12; 6; 12; 24; 48; 0; 126; 0; 0; 0; 0; 0; 0; 0; 12; 24; 48; 96; 48; 24; 12; 0; 126; 0; 0; 0; 0;
  0; 0; 14; 27; 27; 24; 24; 24; 24; 24; 24; 24; 24; 24; 24; 24; 24; 24; 24; 24; 24; 24; 24; 24; 216; 216; 216; 112; 0; 0; 0; 0;
  0; 0; 0; 0; 24; 24; 0; 126; 0; 24; 24; 0; 0; 0; 0; 0; 0; 0; 0; 0; 0; 118; 220; 0; 118; 220; 0; 0; 0; 0; 0; 0;
  0; 56; 108; 108; 56; 0; 0; 0; 0; 0; 0; 0; 0; 0; 0; 0; 0; 0; 0; 0; 0; 0; 0; 24; 24; 0; 0; 0; 0; 0; 0; 0;
  0; 0; 0; 0; 0; 0; 0; 0; 24; 0; 0; 0; 0; 0; 0; 0; 0; 15; 12; 12; 12; 12; 12; 236; 108; 108; 60; 28; 0; 0; 0; 0;
  0; 216; 108; 108; 108; 108; 108; 0; 0; 0; 0; 0; 0; 0; 0; 0; 0; 112; 216; 48; 96; 200; 248; 0; 0; 0; 0; 0; 0; 0; 0; 0;
  0; 0; 0; 0; 124; 124; 124; 124; 124; 124; 124; 0; 0; 0; 0; 0; 0; 0; 0; 0; 0; 0; 0; 0; 0; 0; 0; 0; 0; 0; 0; 0].
