(* ===== verification/VgaIo.v ===== *)
(** * VGA registers: [bios/seabios/vgasrc/vgaio.c]

    The adapter is a device: the class [VgaDevice] gives what an access to a port and to
    the graphics window at segment 0xA000 does.  Text memory and everything else are
    plain memory.  A function of the firmware is a state transformer [V] on memory and
    device. *)

From S2P Require Import Prelude BiosUtil Bregs VgaTables.
Local Open Scope Z_scope.
Local Open Scope coremu_scope.

(** ** The machine *)

Class VgaDevice (D : Type) := {
  dev_inb : Z -> D -> Z * D;
  dev_inw : Z -> D -> Z * D;
  dev_outb : Z -> Z -> D -> D;
  dev_outw : Z -> Z -> D -> D;
  graph_read : Z -> D -> Z * D;
  graph_write : Z -> Z -> D -> D }.

Record vga (D : Type) := mk_vga { vmem : memory; vdev : D }.
Arguments mk_vga {D} _ _.
Arguments vmem {D} _.
Arguments vdev {D} _.

Definition V (D A : Type) : Type := vga D -> A * vga D.
#[export] Instance V_ret D : MRet (V D) := fun A a s => (a, s).
#[export] Instance V_bind D : MBind (V D) := fun A B k m s => let '(a, s) := m s in k a s.

Section Access.
Context {D : Type} `{VgaDevice D}.

Definition inb (port : Z) : V D Z := fun s =>
  let '(v, d) := dev_inb port (vdev s) in (u8 v, mk_vga (vmem s) d).
Definition inw (port : Z) : V D Z := fun s =>
  let '(v, d) := dev_inw port (vdev s) in (u16 v, mk_vga (vmem s) d).
Definition outb (v port : Z) : V D unit := fun s => (tt, mk_vga (vmem s) (dev_outb (u8 v) (u16 port) (vdev s))).
Definition outw (v port : Z) : V D unit := fun s => (tt, mk_vga (vmem s) (dev_outw (u16 v) (u16 port) (vdev s))).

(** Reads and updates of plain memory. *)
Definition gets {A} (f : memory -> A) : V D A := fun s => (f (vmem s), s).
Definition modify (f : memory -> memory) : V D unit := fun s => (tt, mk_vga (f (vmem s)) (vdev s)).

(** [GET_BDA] and [SET_BDA] of a byte and a word. *)
Definition get_bda8 (f : string) : V D Z := gets (fun m => readb m (bda f)).
Definition get_bda16 (f : string) : V D Z := gets (fun m => readw m (bda f)).
Definition set_bda8 (f : string) (v : Z) : V D unit := modify (fun m => writeb m (bda f) v).
Definition set_bda16 (f : string) (v : Z) : V D unit := modify (fun m => writew m (bda f) v).

(** A far access: the 64 KiB at segment [SEG_GRAPH] are the adapter's. *)
Definition in_graph (a : Z) : bool := (SEG_GRAPH * 16 <=? a) && (a <? SEG_GRAPH * 16 + 0x10000).

Definition far_readb (seg off : Z) : V D Z := fun s =>
  let a := seg * 16 + off in
  if in_graph a then let '(v, d) := graph_read (a - SEG_GRAPH * 16) (vdev s) in (u8 v, mk_vga (vmem s) d)
  else (readb (vmem s) a, s).
Definition far_writeb (seg off v : Z) : V D unit := fun s =>
  let a := seg * 16 + off in
  if in_graph a then (tt, mk_vga (vmem s) (graph_write (a - SEG_GRAPH * 16) (u8 v) (vdev s)))
  else (tt, mk_vga (writeb (vmem s) a v) (vdev s)).
Definition far_readw (seg off : Z) : V D Z :=
  lo ← far_readb seg off;
  hi ← far_readb seg (off + 1);
  mret (Z.lor lo (Z.shiftl hi 8)).
Definition far_writew (seg off v : Z) : V D unit :=
  far_writeb seg off v;;
  far_writeb seg (off + 1) (Z.shiftr v 8).
Definition far_readl (seg off : Z) : V D Z :=
  lo ← far_readw seg off;
  hi ← far_readw seg (off + 2);
  mret (Z.lor lo (Z.shiftl hi 16)).
Definition far_writel (seg off v : Z) : V D unit :=
  far_writew seg off v;;
  far_writew seg (off + 2) (Z.shiftr v 16).

(** [for (i = from; n rounds; i++) body]. *)
Fixpoint for_up (n : nat) (i : Z) (body : Z -> V D unit) : V D unit :=
  match n with
  | O => mret tt
  | S n => body i;; for_up n (i + 1) body
  end.

(** [memset_far], [memset16_far] and [memcpy_far] of [util.c], for offsets that stay below
    64 KiB, as those of the text modes, fonts and tables of the firmware do; the 16-bit
    index registers, which would wrap around above, are those of [BiosUtil.memcpy_far]. *)
Definition vmemset_far (d_seg d_far c len : Z) : V D unit :=
  for_up (Z.to_nat len) 0 (fun i => far_writeb d_seg (d_far + i) c).
Definition vmemset16_far (d_seg d_far c len : Z) : V D unit :=
  for_up (Z.to_nat (len / 2)) 0 (fun i => far_writew d_seg (d_far + 2 * i) c).
Definition vmemcpy_far (d_seg d_far s_seg s_far len : Z) : V D unit :=
  for_up (Z.to_nat len) 0 (fun i => v ← far_readb s_seg (s_far + i); far_writeb d_seg (d_far + i) v).
End Access.

(** ** Ports *)

Definition VGAREG_ACTL_ADDRESS : Z := 0x3c0.
Definition VGAREG_ACTL_WRITE_DATA : Z := 0x3c0.
Definition VGAREG_ACTL_READ_DATA : Z := 0x3c1.
Definition VGAREG_WRITE_MISC_OUTPUT : Z := 0x3c2.
Definition VGAREG_SEQU_ADDRESS : Z := 0x3c4.
Definition VGAREG_SEQU_DATA : Z := 0x3c5.
Definition VGAREG_PEL_MASK : Z := 0x3c6.
Definition VGAREG_DAC_STATE : Z := 0x3c7.
Definition VGAREG_DAC_READ_ADDRESS : Z := 0x3c7.
Definition VGAREG_DAC_WRITE_ADDRESS : Z := 0x3c8.
Definition VGAREG_DAC_DATA : Z := 0x3c9.
Definition VGAREG_READ_FEATURE_CTL : Z := 0x3ca.
Definition VGAREG_READ_MISC_OUTPUT : Z := 0x3cc.
Definition VGAREG_GRDC_ADDRESS : Z := 0x3ce.
Definition VGAREG_GRDC_DATA : Z := 0x3cf.
Definition VGAREG_MDA_CRTC_ADDRESS : Z := 0x3b4.
Definition VGAREG_VGA_CRTC_ADDRESS : Z := 0x3d4.
Definition VGAREG_ACTL_RESET : Z := 0x3da.

Section Registers.
Context {D : Type} `{VgaDevice D}.

(** ** Attribute control *)

Definition actl_reset : V D unit := _ ← inb VGAREG_ACTL_RESET; mret tt.

Definition vgahw_screen_disable : V D unit :=
  actl_reset;;
  outb 0x00 VGAREG_ACTL_ADDRESS.

Definition vgahw_screen_enable : V D unit :=
  actl_reset;;
  outb 0x20 VGAREG_ACTL_ADDRESS.

Definition vgahw_set_border_color (color : Z) : V D unit :=
  actl_reset;;
  outb 0x00 VGAREG_ACTL_ADDRESS;;
  let v1 := Z.land color 0x0f in
  let v1 := if negb (Z.land v1 0x08 =? 0) then v1 + 0x08 else v1 in
  outb v1 VGAREG_ACTL_WRITE_DATA;;
  let v2 := Z.land color 0x10 in
  for_up 3 1 (fun i =>
    outb i VGAREG_ACTL_ADDRESS;;
    cur ← inb VGAREG_ACTL_READ_DATA;
    outb (Z.lor (Z.land cur 0xef) v2) VGAREG_ACTL_WRITE_DATA);;
  outb 0x20 VGAREG_ACTL_ADDRESS.

Definition vgahw_set_overscan_border_color (color : Z) : V D unit :=
  actl_reset;;
  outb 0x11 VGAREG_ACTL_ADDRESS;;
  outb color VGAREG_ACTL_WRITE_DATA;;
  outb 0x20 VGAREG_ACTL_ADDRESS.

Definition vgahw_get_overscan_border_color : V D Z :=
  actl_reset;;
  outb 0x11 VGAREG_ACTL_ADDRESS;;
  v ← inb VGAREG_ACTL_READ_DATA;
  actl_reset;;
  outb 0x20 VGAREG_ACTL_ADDRESS;;
  mret v.

Definition vgahw_set_palette (palid : Z) : V D unit :=
  actl_reset;;
  let palid := Z.land palid 0x01 in
  for_up 3 1 (fun i =>
    outb i VGAREG_ACTL_ADDRESS;;
    v ← inb VGAREG_ACTL_READ_DATA;
    outb (Z.lor (Z.land v 0xfe) palid) VGAREG_ACTL_WRITE_DATA);;
  outb 0x20 VGAREG_ACTL_ADDRESS.

Definition vgahw_set_single_palette_reg (reg val : Z) : V D unit :=
  actl_reset;;
  outb reg VGAREG_ACTL_ADDRESS;;
  outb val VGAREG_ACTL_WRITE_DATA;;
  outb 0x20 VGAREG_ACTL_ADDRESS.

Definition vgahw_get_single_palette_reg (reg : Z) : V D Z :=
  actl_reset;;
  outb reg VGAREG_ACTL_ADDRESS;;
  v ← inb VGAREG_ACTL_READ_DATA;
  actl_reset;;
  outb 0x20 VGAREG_ACTL_ADDRESS;;
  mret v.

Definition vgahw_set_all_palette_reg (seg data_far : Z) : V D unit :=
  actl_reset;;
  for_up 16 0 (fun i =>
    outb i VGAREG_ACTL_ADDRESS;;
    val ← far_readb seg (data_far + i);
    outb val VGAREG_ACTL_WRITE_DATA);;
  outb 0x11 VGAREG_ACTL_ADDRESS;;
  v ← far_readb seg (data_far + 16);
  outb v VGAREG_ACTL_WRITE_DATA;;
  outb 0x20 VGAREG_ACTL_ADDRESS.

Definition vgahw_get_all_palette_reg (seg data_far : Z) : V D unit :=
  for_up 16 0 (fun i =>
    actl_reset;;
    outb i VGAREG_ACTL_ADDRESS;;
    v ← inb VGAREG_ACTL_READ_DATA;
    far_writeb seg (data_far + i) v);;
  actl_reset;;
  outb 0x11 VGAREG_ACTL_ADDRESS;;
  v ← inb VGAREG_ACTL_READ_DATA;
  far_writeb seg (data_far + 16) v;;
  actl_reset;;
  outb 0x20 VGAREG_ACTL_ADDRESS.

Definition vgahw_toggle_intensity (flag : Z) : V D unit :=
  actl_reset;;
  outb 0x10 VGAREG_ACTL_ADDRESS;;
  v ← inb VGAREG_ACTL_READ_DATA;
  outb (Z.lor (Z.land v 0xf7) (Z.shiftl (Z.land flag 0x01) 3)) VGAREG_ACTL_WRITE_DATA;;
  outb 0x20 VGAREG_ACTL_ADDRESS.

Definition vgahw_select_video_dac_color_page (flag data : Z) : V D unit :=
  actl_reset;;
  outb 0x10 VGAREG_ACTL_ADDRESS;;
  val ← inb VGAREG_ACTL_READ_DATA;
  if Z.land flag 0x01 =? 0 then
    outb (u8 (Z.lor (Z.land val 0x7f) (Z.shiftl data 7))) VGAREG_ACTL_WRITE_DATA;;
    outb 0x20 VGAREG_ACTL_ADDRESS
  else
    actl_reset;;
    outb 0x14 VGAREG_ACTL_ADDRESS;;
    let data := if Z.land val 0x80 =? 0 then u8 (Z.shiftl data 2) else data in
    outb (Z.land data 0x0f) VGAREG_ACTL_WRITE_DATA;;
    outb 0x20 VGAREG_ACTL_ADDRESS.

(** The paging mode and the current page. *)
Definition vgahw_read_video_dac_state : V D (Z * Z) :=
  actl_reset;;
  outb 0x10 VGAREG_ACTL_ADDRESS;;
  v ← inb VGAREG_ACTL_READ_DATA;
  let val1 := Z.shiftr v 7 in
  actl_reset;;
  outb 0x14 VGAREG_ACTL_ADDRESS;;
  v ← inb VGAREG_ACTL_READ_DATA;
  let val2 := Z.land v 0x0f in
  let val2 := if Z.land val1 0x01 =? 0 then Z.shiftr val2 2 else val2 in
  actl_reset;;
  outb 0x20 VGAREG_ACTL_ADDRESS;;
  mret (val1, val2).

(** ** DAC control *)

Definition vgahw_set_dac_regs (seg data_far start : Z) (count : nat) : V D unit :=
  outb start VGAREG_DAC_WRITE_ADDRESS;;
  for_up count 0 (fun i =>
    v ← far_readb seg (data_far + 3 * i); outb v VGAREG_DAC_DATA;;
    v ← far_readb seg (data_far + 3 * i + 1); outb v VGAREG_DAC_DATA;;
    v ← far_readb seg (data_far + 3 * i + 2); outb v VGAREG_DAC_DATA).

Definition vgahw_get_dac_regs (seg data_far start : Z) (count : nat) : V D unit :=
  outb start VGAREG_DAC_READ_ADDRESS;;
  for_up count 0 (fun i =>
    v ← inb VGAREG_DAC_DATA; far_writeb seg (data_far + 3 * i) v;;
    v ← inb VGAREG_DAC_DATA; far_writeb seg (data_far + 3 * i + 1) v;;
    v ← inb VGAREG_DAC_DATA; far_writeb seg (data_far + 3 * i + 2) v).

(** The same two with the three bytes in a local array, one register. *)
Definition set_dac_reg (r g b start : Z) : V D unit :=
  outb start VGAREG_DAC_WRITE_ADDRESS;;
  outb r VGAREG_DAC_DATA;; outb g VGAREG_DAC_DATA;; outb b VGAREG_DAC_DATA.
Definition get_dac_reg (start : Z) : V D (Z * Z * Z) :=
  outb start VGAREG_DAC_READ_ADDRESS;;
  r ← inb VGAREG_DAC_DATA; g ← inb VGAREG_DAC_DATA; b ← inb VGAREG_DAC_DATA;
  mret (r, g, b).

Definition vgahw_set_pel_mask (val : Z) : V D unit := outb val VGAREG_PEL_MASK.
Definition vgahw_get_pel_mask : V D Z := inb VGAREG_PEL_MASK.

(** [struct saveDACcolors]: offsets of its fields. *)
Definition saveDACcolors : layout :=
  [("rwmode", 1); ("peladdr", 1); ("pelmask", 1); ("dac", 768); ("color_select", 1)].

Definition vgahw_save_dac_state (seg info : Z) : V D unit :=
  let at_ f := info + offsetof saveDACcolors f in
  v ← inb VGAREG_DAC_STATE; far_writeb seg (at_ "rwmode") v;;
  v ← inb VGAREG_DAC_WRITE_ADDRESS; far_writeb seg (at_ "peladdr") v;;
  v ← inb VGAREG_PEL_MASK; far_writeb seg (at_ "pelmask") v;;
  vgahw_get_dac_regs seg (at_ "dac") 0 256;;
  far_writeb seg (at_ "color_select") 0.

Definition vgahw_restore_dac_state (seg info : Z) : V D unit :=
  let at_ f := info + offsetof saveDACcolors f in
  v ← far_readb seg (at_ "pelmask"); outb v VGAREG_PEL_MASK;;
  vgahw_set_dac_regs seg (at_ "dac") 0 256;;
  v ← far_readb seg (at_ "peladdr"); outb v VGAREG_DAC_WRITE_ADDRESS.

(** ** Memory control *)

Definition vgahw_sequ_write (index value : Z) : V D unit :=
  outw (Z.lor (Z.shiftl value 8) index) VGAREG_SEQU_ADDRESS.
Definition vgahw_grdc_write (index value : Z) : V D unit :=
  outw (Z.lor (Z.shiftl value 8) index) VGAREG_GRDC_ADDRESS.
Definition vgahw_set_text_block_specifier (spec : Z) : V D unit :=
  outw (Z.lor (Z.shiftl spec 8) 0x03) VGAREG_SEQU_ADDRESS.

Definition get_font_access : V D unit :=
  outw 0x0100 VGAREG_SEQU_ADDRESS;;
  outw 0x0402 VGAREG_SEQU_ADDRESS;;
  outw 0x0704 VGAREG_SEQU_ADDRESS;;
  outw 0x0300 VGAREG_SEQU_ADDRESS;;
  outw 0x0204 VGAREG_GRDC_ADDRESS;;
  outw 0x0005 VGAREG_GRDC_ADDRESS;;
  outw 0x0406 VGAREG_GRDC_ADDRESS.

Definition release_font_access : V D unit :=
  outw 0x0100 VGAREG_SEQU_ADDRESS;;
  outw 0x0302 VGAREG_SEQU_ADDRESS;;
  outw 0x0304 VGAREG_SEQU_ADDRESS;;
  outw 0x0300 VGAREG_SEQU_ADDRESS;;
  r ← inw VGAREG_READ_MISC_OUTPUT;
  let v := if negb (Z.land r 0x01 =? 0) then 0x0e else 0x0a in
  outw (Z.lor (Z.shiftl v 8) 0x06) VGAREG_GRDC_ADDRESS;;
  outw 0x0004 VGAREG_GRDC_ADDRESS;;
  outw 0x1005 VGAREG_GRDC_ADDRESS.

(** ** CRTC registers *)

Definition get_crtc : V D Z := get_bda16 "crtc_address".

Definition vgahw_set_cursor_shape (start end_ : Z) : V D unit :=
  crtc_addr ← get_crtc;
  outb 0x0a crtc_addr;;
  outb start (crtc_addr + 1);;
  outb 0x0b crtc_addr;;
  outb end_ (crtc_addr + 1).

Definition vgahw_set_active_page (address : Z) : V D unit :=
  crtc_addr ← get_crtc;
  outb 0x0c crtc_addr;;
  outb (Z.shiftr (Z.land address 0xff00) 8) (crtc_addr + 1);;
  outb 0x0d crtc_addr;;
  outb (Z.land address 0x00ff) (crtc_addr + 1).

Definition vgahw_set_cursor_pos (address : Z) : V D unit :=
  crtc_addr ← get_crtc;
  outb 0x0e crtc_addr;;
  outb (Z.shiftr (Z.land address 0xff00) 8) (crtc_addr + 1);;
  outb 0x0f crtc_addr;;
  outb (Z.land address 0x00ff) (crtc_addr + 1).

Definition vgahw_set_scan_lines (lines : Z) : V D unit :=
  crtc_addr ← get_crtc;
  outb 0x09 crtc_addr;;
  crtc_r9 ← inb (crtc_addr + 1);
  outb (u8 (Z.lor (Z.land crtc_r9 0xe0) (lines - 1))) (crtc_addr + 1).

Definition vgahw_get_vde : V D Z :=
  crtc_addr ← get_crtc;
  outb 0x12 crtc_addr;;
  vde ← inb (crtc_addr + 1);
  outb 0x07 crtc_addr;;
  ovl ← inb (crtc_addr + 1);
  mret (u16 (vde + (Z.shiftl (Z.land ovl 0x02) 7 + Z.shiftl (Z.land ovl 0x40) 3 + 1))).
End Registers.

(** ** Save, restore and set *)

Definition saveVideoHardware : layout :=
  [("sequ_index", 1); ("crtc_index", 1); ("grdc_index", 1); ("actl_index", 1); ("feature", 1); ("sequ_regs", 4);
   ("sequ0", 1); ("crtc_regs", 25); ("actl_regs", 20); ("grdc_regs", 9); ("crtc_addr", 2); ("plane_latch", 4)].

Section State.
Context {D : Type} `{VgaDevice D}.

(** Read an indexed register into memory, and the reverse. *)
Definition save_reg (index addr data seg off : Z) : V D unit :=
  outb index addr;;
  v ← inb data; far_writeb seg off v.
Definition load_reg (index addr data seg off : Z) : V D unit :=
  outb index addr;;
  v ← far_readb seg off; outb v data.

Definition vgahw_save_state (seg info : Z) : V D unit :=
  let at_ f := info + offsetof saveVideoHardware f in
  crtc_addr ← get_crtc;
  v ← inb VGAREG_SEQU_ADDRESS; far_writeb seg (at_ "sequ_index") v;;
  v ← inb crtc_addr; far_writeb seg (at_ "crtc_index") v;;
  v ← inb VGAREG_GRDC_ADDRESS; far_writeb seg (at_ "grdc_index") v;;
  actl_reset;;
  ar_index ← inb VGAREG_ACTL_ADDRESS;
  far_writeb seg (at_ "actl_index") ar_index;;
  v ← inb VGAREG_READ_FEATURE_CTL; far_writeb seg (at_ "feature") v;;
  for_up 4 0 (fun i => save_reg (i + 1) VGAREG_SEQU_ADDRESS VGAREG_SEQU_DATA seg (at_ "sequ_regs" + i));;
  save_reg 0 VGAREG_SEQU_ADDRESS VGAREG_SEQU_DATA seg (at_ "sequ0");;
  for_up 25 0 (fun i => save_reg i crtc_addr (crtc_addr + 1) seg (at_ "crtc_regs" + i));;
  for_up 20 0 (fun i =>
    actl_reset;;
    save_reg (Z.lor i (Z.land ar_index 0x20)) VGAREG_ACTL_ADDRESS VGAREG_ACTL_READ_DATA seg (at_ "actl_regs" + i));;
  actl_reset;;
  for_up 9 0 (fun i => save_reg i VGAREG_GRDC_ADDRESS VGAREG_GRDC_DATA seg (at_ "grdc_regs" + i));;
  far_writew seg (at_ "crtc_addr") crtc_addr;;
  for_up 4 0 (fun i => far_writeb seg (at_ "plane_latch" + i) 0).

Definition vgahw_restore_state (seg info : Z) : V D unit :=
  let at_ f := info + offsetof saveVideoHardware f in
  actl_reset;;
  crtc_addr ← far_readw seg (at_ "crtc_addr");
  for_up 4 0 (fun i => load_reg (i + 1) VGAREG_SEQU_ADDRESS VGAREG_SEQU_DATA seg (at_ "sequ_regs" + i));;
  load_reg 0 VGAREG_SEQU_ADDRESS VGAREG_SEQU_DATA seg (at_ "sequ0");;
  outw 0x0011 crtc_addr;;
  for_up 25 0 (fun i =>
    if negb (i =? 0x11) then load_reg i crtc_addr (crtc_addr + 1) seg (at_ "crtc_regs" + i) else mret tt);;
  v ← inb VGAREG_READ_MISC_OUTPUT;
  let v := Z.ldiff v 0x01 in
  let v := if crtc_addr =? VGAREG_VGA_CRTC_ADDRESS then Z.lor v 0x01 else v in
  outb v VGAREG_WRITE_MISC_OUTPUT;;
  load_reg 0x11 crtc_addr (crtc_addr + 1) seg (at_ "crtc_regs" + 0x11);;
  ar_index ← far_readb seg (at_ "actl_index");
  actl_reset;;
  for_up 20 0 (fun i =>
    load_reg (Z.lor i (Z.land ar_index 0x20)) VGAREG_ACTL_ADDRESS VGAREG_ACTL_WRITE_DATA seg (at_ "actl_regs" + i));;
  outb ar_index VGAREG_ACTL_ADDRESS;;
  actl_reset;;
  for_up 9 0 (fun i => load_reg i VGAREG_GRDC_ADDRESS VGAREG_GRDC_DATA seg (at_ "grdc_regs" + i));;
  v ← far_readb seg (at_ "sequ_index"); outb v VGAREG_SEQU_ADDRESS;;
  v ← far_readb seg (at_ "crtc_index"); outb v crtc_addr;;
  v ← far_readb seg (at_ "grdc_index"); outb v VGAREG_GRDC_ADDRESS;;
  v ← far_readb seg (at_ "feature"); outb v (crtc_addr - 0x4 + 0xa).

(** A register from a table entry; the entry has a value for each register. *)
Definition set_reg (index addr data : Z) (l : list Z) (i : Z) : V D unit :=
  outb index addr;;
  outb (default 0 (l !! Z.to_nat i)) data.

Definition vgahw_set_mode (vparam_g : VideoParam_s) : V D unit :=
  actl_reset;;
  for_up 20 0 (fun i => set_reg i VGAREG_ACTL_ADDRESS VGAREG_ACTL_WRITE_DATA (actl_regs vparam_g) i);;
  outb 0x14 VGAREG_ACTL_ADDRESS;;
  outb 0x00 VGAREG_ACTL_WRITE_DATA;;
  outb 0 VGAREG_SEQU_ADDRESS;;
  outb 0x03 VGAREG_SEQU_DATA;;
  for_up 4 1 (fun i => set_reg i VGAREG_SEQU_ADDRESS VGAREG_SEQU_DATA (sequ_regs vparam_g) (i - 1));;
  for_up 9 0 (fun i => set_reg i VGAREG_GRDC_ADDRESS VGAREG_GRDC_DATA (grdc_regs vparam_g) i);;
  let crtc_addr := if Z.land (miscreg vparam_g) 1 =? 0 then VGAREG_MDA_CRTC_ADDRESS else VGAREG_VGA_CRTC_ADDRESS in
  outw 0x0011 crtc_addr;;
  for_up 25 0 (fun i => set_reg i crtc_addr (crtc_addr + 1) (crtc_regs vparam_g) i);;
  outb (miscreg vparam_g) VGAREG_WRITE_MISC_OUTPUT;;
  outb 0x20 VGAREG_ACTL_ADDRESS;;
  actl_reset.

Definition vgahw_enable_video_addressing (disable : Z) : V D unit :=
  let v := if negb (Z.land disable 1 =? 0) then 0x00 else 0x02 in
  r ← inb VGAREG_READ_MISC_OUTPUT;
  let v2 := Z.ldiff r 0x02 in
  outb (Z.lor v v2) VGAREG_WRITE_MISC_OUTPUT.

Definition vgahw_init : V D unit :=
  outb 0xc3 VGAREG_WRITE_MISC_OUTPUT;;
  outb 0x04 VGAREG_SEQU_ADDRESS;;
  outb 0x02 VGAREG_SEQU_DATA.
End State.
