(* ===== verification/VgaFb.v ===== *)
(** * VGA frame buffers: [bios/seabios/vgasrc/vgafb.c]

    Scrolling, characters, pixels and fonts in each memory model.  Offsets are the
    integers of the source; character positions and colours are bytes. *)

From S2P Require Import Prelude BiosUtil Bregs VgaTables VgaIo.
Local Open Scope Z_scope.
Local Open Scope coremu_scope.

Section Framebuffer.
Context {D : Type} `{VgaDevice D}.

(** ** Screen scrolling *)

Fixpoint memcpy_stride (seg dst src copylen stride : Z) (lines : nat) : V D Z :=
  match lines with
  | O => mret dst
  | S lines =>
      vmemcpy_far seg dst seg src copylen;;
      memcpy_stride seg (dst + stride) (src + stride) copylen stride lines
  end.

Fixpoint memset_stride (seg dst val setlen stride : Z) (lines : nat) : V D unit :=
  match lines with
  | O => mret tt
  | S lines => vmemset_far seg dst val setlen;; memset_stride seg (dst + stride) val setlen stride lines
  end.

Fixpoint memset16_stride (seg dst val setlen stride : Z) (lines : nat) : V D unit :=
  match lines with
  | O => mret tt
  | S lines => vmemset16_far seg dst val setlen;; memset16_stride seg (dst + stride) val setlen stride lines
  end.

Definition scroll_pl4 (vmode_g : vgamode_s) (nblines attr : Z) (ul lr : cursorpos) : V D unit :=
  let cheight := cheight (vparam vmode_g) in
  stride ← get_bda16 "video_cols";
  let '(nblines, dest_far, src_far, stride) :=
    if 0 <=? nblines then
      let dest_far := cp_y ul * cheight * stride + cp_x ul in
      (nblines, dest_far, dest_far + nblines * cheight * stride, stride)
    else
      let nblines := - nblines in
      let dest_far := cp_y lr * cheight * stride + cp_x ul in
      (nblines, dest_far, dest_far - nblines * cheight * stride, - stride) in
  let cols := cp_x lr - cp_x ul + 1 in
  let rows := cp_y lr - cp_y ul + 1 in
  dest_far ← (if nblines <? rows then
                vgahw_grdc_write 0x05 0x01;;
                memcpy_stride SEG_GRAPH dest_far src_far cols stride (Z.to_nat ((rows - nblines) * cheight))
              else mret dest_far);
  let attr := if attr <? 0 then 0 else attr in
  vgahw_grdc_write 0x05 0x02;;
  memset_stride SEG_GRAPH dest_far attr cols stride (Z.to_nat (nblines * cheight));;
  vgahw_grdc_write 0x05 0x00.

Definition scroll_cga (vmode_g : vgamode_s) (nblines attr : Z) (ul lr : cursorpos) : V D unit :=
  let cheight := cheight (vparam vmode_g) in
  let bpp := pixbits vmode_g in
  video_cols ← get_bda16 "video_cols";
  let stride := video_cols * bpp in
  let '(nblines, dest_far, src_far, stride) :=
    if 0 <=? nblines then
      let dest_far := cp_y ul * cheight * stride + cp_x ul * bpp in
      (nblines, dest_far, dest_far + nblines * cheight * stride, stride)
    else
      let nblines := - nblines in
      let dest_far := cp_y lr * cheight * stride + cp_x ul * bpp in
      (nblines, dest_far, dest_far - nblines * cheight * stride, - stride) in
  let cols := (cp_x lr - cp_x ul + 1) * bpp in
  let rows := cp_y lr - cp_y ul + 1 in
  dest_far ← (if nblines <? rows then
                memcpy_stride SEG_CTEXT (dest_far + 0x2000) (src_far + 0x2000) cols stride
                  (Z.to_nat ((rows - nblines) * cheight / 2));;
                memcpy_stride SEG_CTEXT dest_far src_far cols stride (Z.to_nat ((rows - nblines) * cheight / 2))
              else mret dest_far);
  let attr := if attr <? 0 then 0 else attr in
  memset_stride SEG_CTEXT (dest_far + 0x2000) attr cols stride (Z.to_nat (nblines * cheight / 2));;
  memset_stride SEG_CTEXT dest_far attr cols stride (Z.to_nat (nblines * cheight / 2)).

Definition scroll_text (vmode_g : vgamode_s) (nblines attr : Z) (ul lr : cursorpos) : V D unit :=
  video_rows ← get_bda8 "video_rows";
  let nbrows := u16 (video_rows + 1) in
  nbcols ← get_bda16 "video_cols";
  let dest_far := SCREEN_MEM_START nbcols nbrows (cp_page ul) in
  let stride := nbcols * 2 in
  let '(nblines, dest_far, src_far, stride) :=
    if 0 <=? nblines then
      let dest_far := dest_far + (cp_y ul * stride + cp_x ul * 2) in
      (nblines, dest_far, dest_far + nblines * stride, stride)
    else
      let nblines := - nblines in
      let dest_far := dest_far + (cp_y lr * stride + cp_x ul * 2) in
      (nblines, dest_far, dest_far - nblines * stride, - stride) in
  let cols := (cp_x lr - cp_x ul + 1) * 2 in
  let rows := cp_y lr - cp_y ul + 1 in
  let seg := sstart vmode_g in
  dest_far ← (if nblines <? rows then
                memcpy_stride seg dest_far src_far cols stride (Z.to_nat (rows - nblines))
              else mret dest_far);
  let attr := if attr <? 0 then 0x07 else attr in
  let attr := Z.lor (Z.shiftl attr 8) 0x20 in
  memset16_stride seg dest_far attr cols stride (Z.to_nat nblines).

Definition vgafb_scroll (nblines attr : Z) (ul lr : cursorpos) : V D unit :=
  mode ← get_bda8 "video_mode";
  match find_vga_entry mode with
  | None => mret tt
  | Some vmode_g =>
      match memmodel vmode_g with
      | CTEXT | MTEXT => scroll_text vmode_g nblines attr ul lr
      | PLANAR4 | PLANAR1 => scroll_pl4 vmode_g nblines attr ul lr
      | CGA => scroll_cga vmode_g nblines attr ul lr
      | LINEAR8 => mret tt
      end
  end.

Definition clear_screen (vmode_g : vgamode_s) : V D unit :=
  match memmodel vmode_g with
  | CTEXT | MTEXT => vmemset16_far (sstart vmode_g) 0 0x0720 (32 * 1024)
  | CGA => vmemset16_far (sstart vmode_g) 0 0x0000 (32 * 1024)
  | _ => vmemset16_far (sstart vmode_g) 0 0x0000 (64 * 1024)
  end.

(** ** Characters *)

(** [GET_GLOBAL(fdata_g[i])]. *)
Definition font_byte (fdata : list Z) (i : Z) : Z := default 0 (fdata !! Z.to_nat i).

Definition font_of_height (cheight : Z) : list Z :=
  if cheight =? 14 then vgafont14 else if cheight =? 16 then vgafont16 else vgafont8.

Definition write_gfx_char_pl4 (vmode_g : vgamode_s) (cp : cursorpos) (ca : carattr) : V D unit :=
  nbcols ← get_bda16 "video_cols";
  if nbcols <=? cp_x cp then mret tt
  else
    let cheight := cheight (vparam vmode_g) in
    let fdata_g := font_of_height cheight in
    let addr := u16 (cp_x cp + cp_y cp * cheight * nbcols) in
    let src := u16 (car ca * cheight) in
    vgahw_sequ_write 0x02 0x0f;;
    vgahw_grdc_write 0x05 0x02;;
    (if negb (Z.land (attr ca) 0x80 =? 0) then vgahw_grdc_write 0x03 0x18 else vgahw_grdc_write 0x03 0x00);;
    for_up (Z.to_nat cheight) 0 (fun i =>
      let dest_far := addr + i * nbcols in
      for_up 8 0 (fun j =>
        let mask := Z.shiftr 0x80 j in
        vgahw_grdc_write 0x08 mask;;
        _ ← far_readb SEG_GRAPH dest_far;
        if negb (Z.land (font_byte fdata_g (src + i)) mask =? 0)
        then far_writeb SEG_GRAPH dest_far (Z.land (attr ca) 0x0f)
        else far_writeb SEG_GRAPH dest_far 0x00));;
    vgahw_grdc_write 0x08 0xff;;
    vgahw_grdc_write 0x05 0x00;;
    vgahw_grdc_write 0x03 0x00.

(** The pixels of [n] bits of a font row from [mask] on, each of [bpp] bits of the
    colour, combined into [data]. *)
Fixpoint cga_pixels (n : nat) (row mask bpp attr data : Z) : Z :=
  match n with
  | O => data
  | S k =>
      let v := Z.shiftl (Z.land attr (Z.ones bpp)) (Z.of_nat k * bpp) in
      let data :=
        if negb (Z.land row mask =? 0) then
          if negb (Z.land attr 0x80 =? 0) then Z.lxor data v else Z.lor data v
        else data in
      cga_pixels k row (Z.shiftr mask 1) bpp attr data
  end.

Definition write_gfx_char_cga (vmode_g : vgamode_s) (cp : cursorpos) (ca : carattr) : V D unit :=
  nbcols ← get_bda16 "video_cols";
  if nbcols <=? cp_x cp then mret tt
  else
    let bpp := pixbits vmode_g in
    let addr := u16 (cp_x cp * bpp + cp_y cp * 320) in
    let src := u16 (car ca * 8) in
    for_up 8 0 (fun i =>
      let dest_far := addr + Z.shiftr i 1 * 80 in
      let dest_far := if negb (Z.land i 1 =? 0) then dest_far + 0x2000 else dest_far in
      let row := font_byte vgafont8 (src + i) in
      if bpp =? 1 then
        data ← (if negb (Z.land (attr ca) 0x80 =? 0) then far_readb SEG_CTEXT dest_far else mret 0);
        far_writeb SEG_CTEXT dest_far (u8 (cga_pixels 8 row 0x80 1 (attr ca) data))
      else
        for_up 2 0 (fun half =>
          data ← (if negb (Z.land (attr ca) 0x80 =? 0) then far_readb SEG_CTEXT (dest_far + half) else mret 0);
          far_writeb SEG_CTEXT (dest_far + half)
            (u8 (cga_pixels 4 row (Z.shiftr 0x80 (4 * half)) 2 (attr ca) data)))).

Definition write_gfx_char_lin (vmode_g : vgamode_s) (cp : cursorpos) (ca : carattr) : V D unit :=
  nbcols ← get_bda16 "video_cols";
  if nbcols <=? cp_x cp then mret tt
  else
    let addr := u16 (cp_x cp * 8 + cp_y cp * nbcols * 64) in
    let src := u16 (car ca * 8) in
    for_up 8 0 (fun i =>
      let dest_far := addr + i * nbcols * 8 in
      for_up 8 0 (fun j =>
        let mask := Z.shiftr 0x80 j in
        let data := if negb (Z.land (font_byte vgafont8 (src + i)) mask =? 0) then attr ca else 0x00 in
        far_writeb SEG_GRAPH (dest_far + j) data)).

(** The offset of a character cell. *)
Definition text_address (nbcols nbrows : Z) (cp : cursorpos) : Z :=
  SCREEN_MEM_START nbcols nbrows (cp_page cp) + (cp_x cp + cp_y cp * nbcols) * 2.

Definition write_text_char (vmode_g : vgamode_s) (cp : cursorpos) (ca : carattr) : V D unit :=
  video_rows ← get_bda8 "video_rows";
  let nbrows := u16 (video_rows + 1) in
  nbcols ← get_bda16 "video_cols";
  let address_far := text_address nbcols nbrows cp in
  if use_attr ca then far_writew (sstart vmode_g) address_far (u16 (Z.lor (Z.shiftl (attr ca) 8) (car ca)))
  else far_writeb (sstart vmode_g) address_far (car ca).

Definition vgafb_write_char (cp : cursorpos) (ca : carattr) : V D unit :=
  mode ← get_bda8 "video_mode";
  match find_vga_entry mode with
  | None => mret tt
  | Some vmode_g =>
      match memmodel vmode_g with
      | CTEXT | MTEXT => write_text_char vmode_g cp ca
      | PLANAR4 | PLANAR1 => write_gfx_char_pl4 vmode_g cp ca
      | CGA => write_gfx_char_cga vmode_g cp ca
      | LINEAR8 => write_gfx_char_lin vmode_g cp ca
      end
  end.

Definition vgafb_read_char (cp : cursorpos) : V D carattr :=
  mode ← get_bda8 "video_mode";
  match find_vga_entry mode with
  | None => mret (mk_carattr 0 0 false)
  | Some vmode_g =>
      if negb (is_text (memmodel vmode_g)) then mret (mk_carattr 0 0 false)
      else
        video_rows ← get_bda8 "video_rows";
        let nbrows := u16 (video_rows + 1) in
        nbcols ← get_bda16 "video_cols";
        v ← far_readw (sstart vmode_g) (text_address nbcols nbrows cp);
        mret (mk_carattr (u8 v) (u8 (Z.shiftr v 8)) false)
  end.

(** ** Pixels *)

Definition vgafb_write_pixel (color x y : Z) : V D unit :=
  mode ← get_bda8 "video_mode";
  match find_vga_entry mode with
  | None => mret tt
  | Some vmode_g =>
      match memmodel vmode_g with
      | CTEXT | MTEXT => mret tt
      | PLANAR4 | PLANAR1 =>
          video_cols ← get_bda16 "video_cols";
          let addr_far := x / 8 + y * video_cols in
          let mask := Z.shiftr 0x80 (Z.land x 0x07) in
          vgahw_grdc_write 0x08 mask;;
          vgahw_grdc_write 0x05 0x02;;
          _ ← far_readb SEG_GRAPH addr_far;
          (if negb (Z.land color 0x80 =? 0) then vgahw_grdc_write 0x03 0x18 else mret tt);;
          far_writeb SEG_GRAPH addr_far color;;
          vgahw_grdc_write 0x08 0xff;;
          vgahw_grdc_write 0x05 0x00;;
          vgahw_grdc_write 0x03 0x00
      | CGA =>
          let addr_far :=
            if pixbits vmode_g =? 2 then Z.shiftr x 2 + Z.shiftr y 1 * 80
            else Z.shiftr x 3 + Z.shiftr y 1 * 80 in
          let addr_far := if negb (Z.land y 1 =? 0) then addr_far + 0x2000 else addr_far in
          data ← far_readb SEG_CTEXT addr_far;
          let '(attr, mask) :=
            if pixbits vmode_g =? 2 then
              (u8 (Z.shiftl (Z.land color 0x03) ((3 - Z.land x 0x03) * 2)),
               u8 (Z.shiftl 0x03 ((3 - Z.land x 0x03) * 2)))
            else
              (u8 (Z.shiftl (Z.land color 0x01) (7 - Z.land x 0x07)),
               u8 (Z.shiftl 0x01 (7 - Z.land x 0x07))) in
          let data := if negb (Z.land color 0x80 =? 0) then Z.lxor data attr else Z.lor (Z.ldiff data mask) attr in
          far_writeb SEG_CTEXT addr_far data
      | LINEAR8 =>
          video_cols ← get_bda16 "video_cols";
          far_writeb SEG_GRAPH (x + y * (video_cols * 8)) color
      end
  end.

Definition vgafb_read_pixel (x y : Z) : V D Z :=
  mode ← get_bda8 "video_mode";
  match find_vga_entry mode with
  | None => mret 0
  | Some vmode_g =>
      match memmodel vmode_g with
      | CTEXT | MTEXT => mret 0
      | PLANAR4 | PLANAR1 =>
          video_cols ← get_bda16 "video_cols";
          let addr_far := x / 8 + y * video_cols in
          let mask := Z.shiftr 0x80 (Z.land x 0x07) in
          let plane (i attr : Z) : V D Z :=
            vgahw_grdc_write 0x04 i;;
            v ← far_readb SEG_GRAPH addr_far;
            mret (if 0 <? Z.land v mask then Z.lor attr (Z.shiftl 0x01 i) else attr) in
          attr ← plane 0 0x00; attr ← plane 1 attr; attr ← plane 2 attr; plane 3 attr
      | CGA =>
          let addr_far := Z.shiftr x 2 + Z.shiftr y 1 * 80 in
          let addr_far := if negb (Z.land y 1 =? 0) then addr_far + 0x2000 else addr_far in
          data ← far_readb SEG_CTEXT addr_far;
          mret (if pixbits vmode_g =? 2 then Z.land (Z.shiftr data ((3 - Z.land x 0x03) * 2)) 0x03
                else Z.land (Z.shiftr data (7 - Z.land x 0x07)) 0x01)
      | LINEAR8 =>
          video_cols ← get_bda16 "video_cols";
          far_readb SEG_GRAPH (x + y * (video_cols * 8))
      end
  end.

(** ** Font loading *)

Definition vgafb_load_font (seg src_far count start destflags fontsize : Z) : V D unit :=
  get_font_access;;
  let blockaddr := u16 (Z.shiftl (Z.land destflags 0x03) 14 + Z.shiftl (Z.land destflags 0x04) 11) in
  let dest_far := blockaddr + start * 32 in
  for_up (Z.to_nat count) 0 (fun i =>
    vmemcpy_far SEG_GRAPH (dest_far + i * 32) seg (src_far + i * fontsize) fontsize);;
  release_font_access.
End Framebuffer.
