(* ===== verification/Vga.v ===== *)
(** * The video service: [bios/seabios/vgasrc/vga.c]

    Interrupt 0x10.  Each handler takes the caller's registers and returns them; memory
    and adapter are the state of [V].  What the linker decides (the segment of the
    firmware and the offsets of its tables) is the record [vga_link]. *)

From S2P Require Import Prelude BiosUtil Bregs VgaTables VgaIo VgaFb.
Local Open Scope Z_scope.
Local Open Scope coremu_scope.

Record vga_link := mk_vga_link {
  global_seg : Z; lk_vgafont8 : Z; lk_vgafont14 : Z; lk_vgafont16 : Z; lk_vgafont14alt : Z; lk_vgafont16alt : Z;
  lk_palette : palette_t -> Z; lk_black : Z; lk_save_pointer_table : Z; lk_param_table : Z; lk_static_functionality : Z;
  lk_entry_10 : Z; lk_rom_header_size : Z; lk_rom_header_checksum : Z }.

Definition SET_IVT (m : memory) (vector seg off : Z) : memory :=
  writew (writew m (vector * 4) off) (vector * 4 + 2) seg.
Definition GET_IVT (m : memory) (vector : Z) : Z * Z := (readw m (vector * 4 + 2), readw m (vector * 4)).

(** ** Helper functions *)

Section Helpers.
Context {D : Type} `{VgaDevice D}.

(** The colour registers are read into [rgb] and [rgb] is written back. *)
Definition perform_gray_scale_summing (start count : Z) : V D unit :=
  vgahw_screen_disable;;
  for_up (Z.to_nat count) start (fun i =>
    rgb ← get_dac_reg i;
    let '(r, g, b) := rgb in
    let intensity := u16 (Z.shiftr (77 * r + 151 * g + 28 * b + 0x80) 8) in
    let intensity := if 0x3f <? intensity then 0x3f else intensity in
    set_dac_reg r g b i);;
  vgahw_screen_enable.

Definition set_cursor_shape (start end_ : Z) : V D unit :=
  let start := Z.land start 0x3f in
  let end_ := Z.land end_ 0x1f in
  set_bda16 "cursor_type" (Z.shiftl start 8 + end_);;
  modeset_ctl ← get_bda8 "modeset_ctl";
  cheight ← get_bda16 "char_height";
  let '(start, end_) :=
    if negb (Z.land modeset_ctl 0x01 =? 0) && (8 <? cheight) && (end_ <? 8) && (start <? 0x20) then
      (if negb (end_ =? start + 1) then u8 ((start + 1) * cheight / 8 - 1) else u8 ((end_ + 1) * cheight / 8 - 2),
       u8 ((end_ + 1) * cheight / 8 - 1))
    else (start, end_) in
  vgahw_set_cursor_shape start end_.

Definition get_cursor_shape (page : Z) : V D Z :=
  if 7 <? page then mret 0 else get_bda16 "cursor_type".

(** [cursor_pos[page]]. *)
Definition bda_cursor_pos (page : Z) : Z := bda "cursor_pos" + 2 * page.

Definition set_cursor_pos (cp : cursorpos) : V D unit :=
  if 7 <? cp_page cp then mret tt
  else
    modify (fun m => writew m (bda_cursor_pos (cp_page cp)) (Z.lor (Z.shiftl (cp_y cp) 8) (cp_x cp)));;
    current ← get_bda8 "video_page";
    if negb (cp_page cp =? current) then mret tt
    else
      nbcols ← get_bda16 "video_cols";
      video_rows ← get_bda8 "video_rows";
      let nbrows := u16 (video_rows + 1) in
      let address := u16 (SCREEN_IO_START nbcols nbrows (cp_page cp) + cp_x cp + cp_y cp * nbcols) in
      vgahw_set_cursor_pos address.

Definition get_cursor_pos (page : Z) : V D cursorpos :=
  page ← (if page =? 0xff then get_bda8 "video_page" else mret page);
  if 7 <? page then mret (mk_cursorpos 0 0 0xfe)
  else
    xy ← gets (fun m => readw m (bda_cursor_pos page));
    mret (mk_cursorpos (u8 xy) (u8 (Z.shiftr xy 8)) page).

Definition set_active_page (page : Z) : V D unit :=
  if 7 <? page then mret tt
  else
    mode ← get_bda8 "video_mode";
    match find_vga_entry mode with
    | None => mret tt
    | Some vmode_g =>
        cp ← get_cursor_pos page;
        address ← (if is_text (memmodel vmode_g) then
            nbcols ← get_bda16 "video_cols";
            video_rows ← get_bda8 "video_rows";
            let nbrows := u16 (video_rows + 1) in
            set_bda16 "video_pagestart" (u16 (SCREEN_MEM_START nbcols nbrows page));;
            mret (u16 (SCREEN_IO_START nbcols nbrows page))
          else mret (u16 (page * slength (vparam vmode_g))));
        vgahw_set_active_page address;;
        set_bda8 "video_page" page;;
        set_cursor_pos cp
    end.

(** [false] when the division by [lines] raises a divide error. *)
Definition set_scan_lines (lines : Z) : V D bool :=
  vgahw_set_scan_lines lines;;
  (if lines =? 8 then set_cursor_shape 0x06 0x07 else set_cursor_shape (u8 (lines - 4)) (u8 (lines - 3)));;
  set_bda16 "char_height" lines;;
  vde ← vgahw_get_vde;
  if lines =? 0 then mret false
  else
    let rows := u8 (vde / lines) in
    set_bda8 "video_rows" (rows - 1);;
    cols ← get_bda16 "video_cols";
    set_bda16 "video_pagesize" (rows * cols * 2);;
    mret true.

(** ** Character writing *)

Definition scroll_one (nbrows nbcols page : Z) : V D unit :=
  vgafb_scroll 1 (-1) (mk_cursorpos 0 0 page) (mk_cursorpos (u8 (nbcols - 1)) (u8 (nbrows - 1)) page).

(** The loop for a tab; at most 8 rounds reach a multiple of 8. *)
Fixpoint write_tab (fuel : nat) (cp : cursorpos) (nbcols : Z) (ca : carattr) : V D cursorpos :=
  match fuel with
  | O => mret cp
  | S fuel =>
      vgafb_write_char cp (mk_carattr 0x20 (attr ca) (use_attr ca));;
      let cp := mk_cursorpos (u8 (cp_x cp + 1)) (cp_y cp) (cp_page cp) in
      if (cp_x cp <? nbcols) && negb (cp_x cp mod 8 =? 0) then write_tab fuel cp nbcols ca else mret cp
  end.

(** The new position is the result. *)
Definition write_teletype (cp : cursorpos) (ca : carattr) : V D cursorpos :=
  video_rows ← get_bda8 "video_rows";
  let nbrows := u16 (video_rows + 1) in
  nbcols ← get_bda16 "video_cols";
  cp ← (if car ca =? 7 then mret cp
        else if car ca =? 8 then
          mret (if 0 <? cp_x cp then mk_cursorpos (cp_x cp - 1) (cp_y cp) (cp_page cp) else cp)
        else if car ca =? 13 then mret (mk_cursorpos 0 (cp_y cp) (cp_page cp))
        else if car ca =? 10 then mret (mk_cursorpos (cp_x cp) (u8 (cp_y cp + 1)) (cp_page cp))
        else if car ca =? 9 then write_tab 8 cp nbcols ca
        else
          vgafb_write_char cp ca;;
          mret (mk_cursorpos (u8 (cp_x cp + 1)) (cp_y cp) (cp_page cp)));
  let cp := if cp_x cp =? nbcols then mk_cursorpos 0 (u8 (cp_y cp + 1)) (cp_page cp) else cp in
  if cp_y cp <? nbrows then mret cp
  else
    let cp := mk_cursorpos (cp_x cp) (u8 (cp_y cp - 1)) (cp_page cp) in
    scroll_one nbrows nbcols (cp_page cp);;
    mret cp.

Fixpoint write_attr_string (cp : cursorpos) (count : nat) (seg offset_far : Z) : V D cursorpos :=
  match count with
  | O => mret cp
  | S count =>
      car ← far_readb seg offset_far;
      attr ← far_readb seg (offset_far + 1);
      cp ← write_teletype cp (mk_carattr car attr true);
      write_attr_string cp count seg (offset_far + 2)
  end.

Fixpoint write_string (cp : cursorpos) (attr : Z) (count : nat) (seg offset_far : Z) : V D cursorpos :=
  match count with
  | O => mret cp
  | S count =>
      car ← far_readb seg offset_far;
      cp ← write_teletype cp (mk_carattr car attr true);
      write_string cp attr count seg (offset_far + 1)
  end.

(** ** Save and restore bda state *)

(** [struct saveBDAstate] with its padding. *)
Definition saveBDAstate : layout :=
  [("video_mode", 1); ("pad1", 1); ("video_cols", 2); ("video_pagesize", 2); ("crtc_address", 2); ("video_rows", 1);
   ("pad2", 1); ("char_height", 2); ("video_ctl", 1); ("video_switches", 1); ("modeset_ctl", 1); ("pad3", 1);
   ("cursor_type", 2); ("cursor_pos", 16); ("video_pagestart", 2); ("video_page", 1); ("pad4", 3); ("font0", 4);
   ("font1", 4)].
Definition saveBDAstate_size : Z := 48.

Definition save8 (seg info : Z) (f : string) : V D unit :=
  v ← get_bda8 f; far_writeb seg (info + offsetof saveBDAstate f) v.
Definition save16 (seg info : Z) (f : string) : V D unit :=
  v ← get_bda16 f; far_writew seg (info + offsetof saveBDAstate f) v.

Definition save_bda_state (seg info : Z) : V D unit :=
  save8 seg info "video_mode";;
  save16 seg info "video_cols";;
  save16 seg info "video_pagesize";;
  save16 seg info "crtc_address";;
  save8 seg info "video_rows";;
  save16 seg info "char_height";;
  save8 seg info "video_ctl";;
  save8 seg info "video_switches";;
  save8 seg info "modeset_ctl";;
  save16 seg info "cursor_type";;
  for_up 8 0 (fun i =>
    v ← gets (fun m => readw m (bda_cursor_pos i)); far_writew seg (info + offsetof saveBDAstate "cursor_pos" + 2 * i) v);;
  save16 seg info "video_pagestart";;
  save8 seg info "video_page";;
  v ← gets (fun m => readl m (0x1f * 4)); far_writel seg (info + offsetof saveBDAstate "font0") v;;
  v ← gets (fun m => readl m (0x43 * 4)); far_writel seg (info + offsetof saveBDAstate "font1") v.

Definition load8 (seg info : Z) (f : string) : V D unit :=
  v ← far_readb seg (info + offsetof saveBDAstate f); set_bda8 f v.
Definition load16 (seg info : Z) (f : string) : V D unit :=
  v ← far_readw seg (info + offsetof saveBDAstate f); set_bda16 f v.

Definition restore_bda_state (seg info : Z) : V D unit :=
  load8 seg info "video_mode";;
  load16 seg info "video_cols";;
  load16 seg info "video_pagesize";;
  load16 seg info "crtc_address";;
  load8 seg info "video_rows";;
  load16 seg info "char_height";;
  load8 seg info "video_ctl";;
  load8 seg info "video_switches";;
  load8 seg info "modeset_ctl";;
  load16 seg info "cursor_type";;
  for_up 8 0 (fun i =>
    v ← far_readw seg (info + offsetof saveBDAstate "cursor_pos" + 2 * i); modify (fun m => writew m (bda_cursor_pos i) v));;
  load16 seg info "video_pagestart";;
  load8 seg info "video_page";;
  v ← far_readl seg (info + offsetof saveBDAstate "font0"); modify (fun m => writel m (0x1f * 4) v);;
  v ← far_readl seg (info + offsetof saveBDAstate "font1"); modify (fun m => writel m (0x43 * 4) v).
End Helpers.

(** ** Interrupt 0x10 *)

Section Handlers.
Context {D : Type} `{VgaDevice D} (lk : vga_link).

(** A handler that leaves the registers alone. *)
Definition keep (regs : bregs) (f : V D unit) : V D bregs := f;; mret regs.

(** [call16_vgaint eax ebx] raises interrupt 0x10 again. *)
Definition handle_1000 (call16_vgaint : Z -> Z -> V D unit) (regs : bregs) : V D bregs :=
  let noclearmem := Z.land (al regs) 0x80 in
  let mode := Z.land (al regs) 0x7f in
  let regs := if 7 <? mode then set_al regs 0x20 else if mode =? 6 then set_al regs 0x3f else set_al regs 0x30 in
  match find_vga_entry mode with
  | None => mret regs
  | Some vmode_g =>
      modeset_ctl ← get_bda8 "modeset_ctl";
      (if Z.land modeset_ctl 0x08 =? 0 then
         vgahw_set_pel_mask (pelmask vmode_g);;
         let palsize := u16 (dacsize vmode_g / 3) in
         vgahw_set_dac_regs (global_seg lk) (lk_palette lk (dac vmode_g)) 0 (Z.to_nat palsize);;
         for_up (Z.to_nat (0x100 - palsize)) palsize (fun i => vgahw_set_dac_regs (global_seg lk) (lk_black lk) (u8 i) 1);;
         (if Z.land modeset_ctl 0x02 =? 0x02 then perform_gray_scale_summing 0x00 0x100 else mret tt)
       else mret tt);;
      let vparam_g := vparam vmode_g in
      vgahw_set_mode vparam_g;;
      (if noclearmem =? 0 then clear_screen vmode_g else mret tt);;
      let crtc_addr :=
        match memmodel vmode_g with MTEXT => VGAREG_MDA_CRTC_ADDRESS | _ => VGAREG_VGA_CRTC_ADDRESS end in
      let cheight := cheight vparam_g in
      set_bda8 "video_mode" mode;;
      set_bda16 "video_cols" (twidth vparam_g);;
      set_bda16 "video_pagesize" (slength vparam_g);;
      set_bda16 "crtc_address" crtc_addr;;
      set_bda8 "video_rows" (theightm1 vparam_g);;
      set_bda16 "char_height" cheight;;
      set_bda8 "video_ctl" (Z.lor 0x60 noclearmem);;
      set_bda8 "video_switches" 0xF9;;
      v ← get_bda8 "modeset_ctl"; set_bda8 "modeset_ctl" (Z.land v 0x7f);;
      set_bda8 "dcc_index" 0x08;;
      modify (fun m => writew (writew m (bda "video_savetable") (lk_save_pointer_table lk))
                         (bda "video_savetable" + 2) (global_seg lk));;
      set_bda8 "video_msr" 0x00;;
      set_bda8 "video_pal" 0x00;;
      (if is_text (memmodel vmode_g) then set_cursor_shape 0x06 0x07 else mret tt);;
      for_up 8 0 (fun i => set_cursor_pos (mk_cursorpos 0 0 i));;
      set_active_page 0x00;;
      (if is_text (memmodel vmode_g) then call16_vgaint 0x1104 0;; call16_vgaint 0x1103 0 else mret tt);;
      modify (fun m => SET_IVT m 0x1f (global_seg lk) (lk_vgafont8 lk + 128 * 8));;
      (if cheight =? 8 then modify (fun m => SET_IVT m 0x43 (global_seg lk) (lk_vgafont8 lk))
       else if cheight =? 14 then modify (fun m => SET_IVT m 0x43 (global_seg lk) (lk_vgafont14 lk))
       else if cheight =? 16 then modify (fun m => SET_IVT m 0x43 (global_seg lk) (lk_vgafont16 lk))
       else mret tt);;
      mret regs
  end.

Definition handle_1001 (regs : bregs) : V D bregs := keep regs (set_cursor_shape (ch regs) (cl regs)).
Definition handle_1002 (regs : bregs) : V D bregs :=
  keep regs (set_cursor_pos (mk_cursorpos (dl regs) (dh regs) (bh regs))).
Definition handle_1003 (regs : bregs) : V D bregs :=
  shape ← get_cursor_shape (bh regs);
  let regs := set_cx regs shape in
  cp ← get_cursor_pos (bh regs);
  mret (set_dh (set_dl regs (cp_x cp)) (cp_y cp)).
Definition handle_1004 (regs : bregs) : V D bregs := mret (set_ax (set_bx (set_cx (set_dx regs 0) 0) 0) 0).
Definition handle_1005 (regs : bregs) : V D bregs := keep regs (set_active_page (al regs)).

Definition verify_scroll (regs : bregs) (dir : Z) : V D unit :=
  page ← get_bda8 "video_page";
  video_rows ← get_bda8 "video_rows";
  let nbrows := u16 (video_rows + 1) in
  let lr_y := if nbrows <=? dh regs then u8 (nbrows - 1) else dh regs in
  nbcols ← get_bda16 "video_cols";
  let lr_x := if nbcols <=? dl regs then u8 (nbcols - 1) else dl regs in
  let ul := mk_cursorpos (cl regs) (ch regs) page in
  let lr := mk_cursorpos lr_x lr_y page in
  if (cp_x lr <? cp_x ul) || (cp_y lr <? cp_y ul) then mret tt
  else
    let nblines := al regs in
    let nblines :=
      if (nblines =? 0) || (cp_y lr - cp_y ul + 1 <? nblines) then u16 (cp_y lr - cp_y ul + 1) else nblines in
    vgafb_scroll (dir * nblines) (bh regs) ul lr.

Definition handle_1006 (regs : bregs) : V D bregs := keep regs (verify_scroll regs 1).
Definition handle_1007 (regs : bregs) : V D bregs := keep regs (verify_scroll regs (-1)).
Definition handle_1008 (regs : bregs) : V D bregs :=
  cp ← get_cursor_pos (bh regs);
  ca ← vgafb_read_char cp;
  mret (set_ah (set_al regs (car ca)) (attr ca)).

Fixpoint write_chars_loop (cp : cursorpos) (ca : carattr) (count : nat) : V D unit :=
  match count with
  | O => mret tt
  | S count =>
      vgafb_write_char cp ca;;
      write_chars_loop (mk_cursorpos (u8 (cp_x cp + 1)) (cp_y cp) (cp_page cp)) ca count
  end.
Definition write_chars (page : Z) (ca : carattr) (count : Z) : V D unit :=
  cp ← get_cursor_pos page;
  write_chars_loop cp ca (Z.to_nat count).

Definition handle_1009 (regs : bregs) : V D bregs :=
  keep regs (write_chars (bh regs) (mk_carattr (al regs) (bl regs) true) (cx regs)).
Definition handle_100a (regs : bregs) : V D bregs :=
  keep regs (write_chars (bh regs) (mk_carattr (al regs) (bl regs) false) (cx regs)).

Definition handle_100b (regs : bregs) : V D bregs :=
  keep regs (if bh regs =? 0x00 then vgahw_set_border_color (bl regs)
             else if bh regs =? 0x01 then vgahw_set_palette (bl regs) else mret tt).

Definition handle_100c (regs : bregs) : V D bregs :=
  keep regs (vgafb_write_pixel (al regs) (cx regs) (dx regs)).
Definition handle_100d (regs : bregs) : V D bregs :=
  v ← vgafb_read_pixel (cx regs) (dx regs);
  mret (set_al regs v).

Definition handle_100e (regs : bregs) : V D bregs :=
  cp ← get_cursor_pos 0xff;
  cp ← write_teletype cp (mk_carattr (al regs) (bl regs) false);
  set_cursor_pos cp;;
  mret regs.

Definition handle_100f (regs : bregs) : V D bregs :=
  page ← get_bda8 "video_page";
  mode ← get_bda8 "video_mode";
  ctl ← get_bda8 "video_ctl";
  cols ← get_bda16 "video_cols";
  mret (set_ah (set_al (set_bh regs page) (Z.lor mode (Z.land ctl 0x80))) cols).

Definition handle_1010 (regs : bregs) : V D bregs :=
  match al regs with
  | 0x00 => if 0x14 <? bl regs then mret regs else keep regs (vgahw_set_single_palette_reg (bl regs) (bh regs))
  | 0x01 => keep regs (vgahw_set_overscan_border_color (bh regs))
  | 0x02 => keep regs (vgahw_set_all_palette_reg (es regs) (dx regs))
  | 0x03 => keep regs (vgahw_toggle_intensity (bl regs))
  | 0x07 => if 0x14 <? bl regs then mret regs
            else v ← vgahw_get_single_palette_reg (bl regs); mret (set_bh regs v)
  | 0x08 => v ← vgahw_get_overscan_border_color; mret (set_bh regs v)
  | 0x09 => keep regs (vgahw_get_all_palette_reg (es regs) (dx regs))
  | 0x10 => keep regs (set_dac_reg (dh regs) (ch regs) (cl regs) (u8 (bx regs)))
  | 0x12 => keep regs (vgahw_set_dac_regs (es regs) (dx regs) (u8 (bx regs)) (Z.to_nat (cx regs)))
  | 0x13 => keep regs (vgahw_select_video_dac_color_page (bl regs) (bh regs))
  | 0x15 => rgb ← get_dac_reg (u8 (bx regs));
            let '(r, g, b) := rgb in
            mret (set_cl (set_ch (set_dh regs r) g) b)
  | 0x17 => keep regs (vgahw_get_dac_regs (es regs) (dx regs) (u8 (bx regs)) (Z.to_nat (cx regs)))
  | 0x18 => keep regs (vgahw_set_pel_mask (bl regs))
  | 0x19 => v ← vgahw_get_pel_mask; mret (set_bl regs v)
  | 0x1a => st ← vgahw_read_video_dac_state; mret (set_bh (set_bl regs (fst st)) (snd st))
  | 0x1b => keep regs (perform_gray_scale_summing (bx regs) (cx regs))
  | _ => mret regs
  end.

(** A handler that ends with a divide error when the flag is [false]. *)
Definition unless_trap (regs : bregs) (f : V D bool) : V D (option bregs) :=
  f ≫= λ ok : bool, mret (if ok then Some regs else None).

Definition handle_101130 (regs : bregs) : V D bregs :=
  let found (es bp : Z) : V D bregs :=
    let regs := set_bp (set_es regs (u16 es)) bp in
    char_height ← get_bda16 "char_height";
    video_rows ← get_bda8 "video_rows";
    mret (set_dx (set_cx regs (Z.land char_height 0xff)) video_rows) in
  match bh regs with
  | 0x00 => so ← gets (fun m => GET_IVT m 0x1f); found (fst so) (snd so)
  | 0x01 => so ← gets (fun m => GET_IVT m 0x43); found (fst so) (snd so)
  | 0x02 => found (global_seg lk) (lk_vgafont14 lk)
  | 0x03 => found (global_seg lk) (lk_vgafont8 lk)
  | 0x04 => found (global_seg lk) (lk_vgafont8 lk + 128 * 8)
  | 0x05 => found (global_seg lk) (lk_vgafont14alt lk)
  | 0x06 => found (global_seg lk) (lk_vgafont16 lk)
  | 0x07 => found (global_seg lk) (lk_vgafont16alt lk)
  | _ => mret regs
  end.

Definition handle_1011 (regs : bregs) : V D (option bregs) :=
  let load_user := vgafb_load_font (es regs) (bp regs) (cx regs) (dx regs) (bl regs) (bh regs) in
  let load off size := vgafb_load_font (global_seg lk) off 0x100 0 (bl regs) size in
  match al regs with
  | 0x00 => load_user;; mret (Some regs)
  | 0x01 => load (lk_vgafont14 lk) 14;; mret (Some regs)
  | 0x02 => load (lk_vgafont8 lk) 8;; mret (Some regs)
  | 0x03 => vgahw_set_text_block_specifier (bl regs);; mret (Some regs)
  | 0x04 => load (lk_vgafont16 lk) 16;; mret (Some regs)
  | 0x10 => load_user;; unless_trap regs (set_scan_lines (bh regs))
  | 0x11 => load (lk_vgafont14 lk) 14;; unless_trap regs (set_scan_lines 14)
  | 0x12 => load (lk_vgafont8 lk) 8;; unless_trap regs (set_scan_lines 8)
  | 0x14 => load (lk_vgafont16 lk) 16;; unless_trap regs (set_scan_lines 16)
  | 0x30 => regs ← handle_101130 regs; mret (Some regs)
  | _ => mret (Some regs)
  end.

Definition handle_101210 (regs : bregs) : V D bregs :=
  crtc_addr ← get_bda16 "crtc_address";
  let regs := if crtc_addr =? VGAREG_MDA_CRTC_ADDRESS then set_bx regs 0x0103 else set_bx regs 0x0003 in
  sw ← get_bda8 "video_switches";
  mret (set_cx regs (Z.land sw 0x0f)).

Definition handle_101230 (regs : bregs) : V D bregs :=
  mctl ← get_bda8 "modeset_ctl";
  vswt ← get_bda8 "video_switches";
  let '(mctl, vswt) :=
    match al regs with
    | 0x00 => (Z.lor (Z.ldiff mctl 0x10) 0x80, Z.lor (Z.ldiff vswt 0x0f) 0x08)
    | 0x01 => (Z.ldiff mctl 0x90, Z.lor (Z.ldiff vswt 0x0f) 0x09)
    | 0x02 => (Z.lor (Z.ldiff mctl 0x80) 0x10, Z.lor (Z.ldiff vswt 0x0f) 0x09)
    | _ => (mctl, vswt)
    end in
  set_bda8 "modeset_ctl" mctl;;
  set_bda8 "video_switches" vswt;;
  mret (set_al regs 0x12).

Definition handle_101231 (regs : bregs) : V D bregs :=
  let v := Z.shiftl (Z.land (al regs) 0x01) 3 in
  ctl ← get_bda8 "video_ctl";
  set_bda8 "video_ctl" (Z.lor (Z.ldiff ctl 0x08) v);;
  mret (set_al regs 0x12).

Definition handle_101232 (regs : bregs) : V D bregs :=
  vgahw_enable_video_addressing (al regs);;
  mret (set_al regs 0x12).

Definition handle_101233 (regs : bregs) : V D bregs :=
  let v := Z.lxor (Z.land (Z.shiftl (al regs) 1) 0x02) 0x02 in
  ctl ← get_bda8 "modeset_ctl";
  set_bda8 "modeset_ctl" (Z.lor v (Z.ldiff ctl 0x02));;
  mret (set_al regs 0x12).

Definition handle_101234 (regs : bregs) : V D bregs :=
  let v := Z.lxor (Z.land (al regs) 0x01) 0x01 in
  ctl ← get_bda8 "modeset_ctl";
  set_bda8 "modeset_ctl" (Z.lor v (Z.ldiff ctl 0x01));;
  mret (set_al regs 0x12).

Definition handle_1012 (regs : bregs) : V D bregs :=
  match bl regs with
  | 0x10 => handle_101210 regs
  | 0x30 => handle_101230 regs
  | 0x31 => handle_101231 regs
  | 0x32 => handle_101232 regs
  | 0x33 => handle_101233 regs
  | 0x34 => handle_101234 regs
  | 0x35 | 0x36 => mret (set_al regs 0x12)
  | _ => mret regs
  end.

Definition handle_1013 (regs : bregs) : V D bregs :=
  let cp := mk_cursorpos (dl regs) (dh regs) (bh regs) in
  cp ← (if cp_y cp =? 0xff then get_cursor_pos (cp_page cp) else mret cp);
  let flag := al regs in
  cp ← (if negb (Z.land flag 2 =? 0) then write_attr_string cp (Z.to_nat (cx regs)) (es regs) (bp regs)
        else write_string cp (bl regs) (Z.to_nat (cx regs)) (es regs) (bp regs));
  (if negb (Z.land flag 1 =? 0) then set_cursor_pos cp else mret tt);;
  mret regs.

Definition handle_101a (regs : bregs) : V D bregs :=
  match al regs with
  | 0x00 => v ← get_bda8 "dcc_index"; mret (set_al (set_bx regs v) 0x1a)
  | 0x01 => set_bda8 "dcc_index" (bl regs);; mret (set_al regs 0x1a)
  | _ => mret regs
  end.

(** [struct funcInfo], which is not packed: a byte of padding before [colors]. *)
Definition funcInfo : layout :=
  [("static_functionality_off", 2); ("static_functionality_seg", 2); ("bda_0x49", 30); ("bda_0x84", 3);
   ("dcc_index", 1); ("dcc_alt", 1); ("pad", 1); ("colors", 2); ("pages", 1); ("scan_lines", 1); ("primary_char", 1);
   ("secondar_char", 1); ("misc", 1); ("non_vga_mode", 1); ("reserved_2f", 2); ("video_mem", 1); ("save_flags", 1);
   ("disp_info", 1); ("reserved_34", 12); ("pad_end", 1)].
Definition funcInfo_size : Z := 66.

Definition handle_101b (regs : bregs) : V D bregs :=
  let seg := es regs in
  let info := di regs in
  let at_ f := info + offsetof funcInfo f in
  vmemset_far seg info 0 funcInfo_size;;
  far_writew seg (at_ "static_functionality_off") (lk_static_functionality lk);;
  far_writew seg (at_ "static_functionality_seg") (global_seg lk);;
  vmemcpy_far seg (at_ "bda_0x49") SEG_BDA 0x49 30;;
  vmemcpy_far seg (at_ "bda_0x84") SEG_BDA 0x84 3;;
  v ← get_bda8 "dcc_index"; far_writeb seg (at_ "dcc_index") v;;
  far_writew seg (at_ "colors") 16;;
  far_writeb seg (at_ "pages") 8;;
  far_writeb seg (at_ "scan_lines") 2;;
  far_writeb seg (at_ "video_mem") 3;;
  mret (set_al regs 0x1b).

Definition saveVideoHardware_size : Z := 70.
Definition saveDACcolors_size : Z := 772.

Definition handle_101c00 (regs : bregs) : V D bregs :=
  let flags := cx regs in
  let size := (if negb (Z.land flags 1 =? 0) then saveVideoHardware_size else 0)
              + (if negb (Z.land flags 2 =? 0) then saveBDAstate_size else 0)
              + (if negb (Z.land flags 4 =? 0) then saveDACcolors_size else 0) in
  mret (set_al (set_bx regs (u16 size)) 0x1c).

Definition handle_101c01 (regs : bregs) : V D bregs :=
  let flags := cx regs in
  let seg := es regs in
  let data := bx regs in
  data ← (if negb (Z.land flags 1 =? 0) then vgahw_save_state seg data;; mret (data + saveVideoHardware_size)
          else mret data);
  data ← (if negb (Z.land flags 2 =? 0) then save_bda_state seg data;; mret (data + saveBDAstate_size) else mret data);
  (if negb (Z.land flags 4 =? 0) then vgahw_save_dac_state seg data else mret tt);;
  mret (set_al regs 0x1c).

Definition handle_101c02 (regs : bregs) : V D bregs :=
  let flags := cx regs in
  let seg := es regs in
  let data := bx regs in
  data ← (if negb (Z.land flags 1 =? 0) then vgahw_restore_state seg data;; mret (data + saveVideoHardware_size)
          else mret data);
  data ← (if negb (Z.land flags 2 =? 0) then restore_bda_state seg data;; mret (data + saveBDAstate_size) else mret data);
  (if negb (Z.land flags 4 =? 0) then vgahw_restore_dac_state seg data else mret tt);;
  mret (set_al regs 0x1c).

Definition handle_101c (regs : bregs) : V D bregs :=
  match al regs with
  | 0x00 => handle_101c00 regs
  | 0x01 => handle_101c01 regs
  | 0x02 => handle_101c02 regs
  | _ => mret regs
  end.

(** Without [CONFIG_VBE] every function is refused. *)
Definition handle_104f (regs : bregs) : V D bregs := mret (set_ax regs 0x0100).

(** The calls of the video service itself from inside: the vector is this handler's. *)
Definition call16_vgaint (eax ebx : Z) : V D unit :=
  _ ← handle_1011 (mk_bregs 0 0 0 0 0 ebx 0 0 eax 0);
  mret tt.

(** [None]: the handler ended in a divide error. *)
Definition handle_10 (regs : bregs) : V D (option bregs) :=
  let ok (f : bregs -> V D bregs) : V D (option bregs) := r ← f regs; mret (Some r) in
  match ah regs with
  | 0x00 => ok (handle_1000 call16_vgaint)
  | 0x01 => ok handle_1001
  | 0x02 => ok handle_1002
  | 0x03 => ok handle_1003
  | 0x04 => ok handle_1004
  | 0x05 => ok handle_1005
  | 0x06 => ok handle_1006
  | 0x07 => ok handle_1007
  | 0x08 => ok handle_1008
  | 0x09 => ok handle_1009
  | 0x0a => ok handle_100a
  | 0x0b => ok handle_100b
  | 0x0c => ok handle_100c
  | 0x0d => ok handle_100d
  | 0x0e => ok handle_100e
  | 0x0f => ok handle_100f
  | 0x10 => ok handle_1010
  | 0x11 => handle_1011 regs
  | 0x12 => ok handle_1012
  | 0x13 => ok handle_1013
  | 0x1a => ok handle_101a
  | 0x1b => ok handle_101b
  | 0x1c => ok handle_101c
  | 0x4f => ok handle_104f
  | _ => mret (Some regs)
  end.

(** ** VGA post *)

Definition init_bios_area : V D unit :=
  eqf ← get_bda16 "equipment_list_flags";
  set_bda16 "equipment_list_flags" (Z.lor (Z.land eqf 0xffcf) 0x20);;
  set_bda16 "char_height" 0x10;;
  set_bda8 "video_ctl" 0x60;;
  set_bda8 "video_switches" 0xf9;;
  set_bda8 "modeset_ctl" 0x51;;
  set_bda8 "video_msr" 0x09.

Definition vga_post (regs : bregs) : V D bregs :=
  vgahw_init;;
  init_bios_area;;
  modify (fun m => SET_IVT m 0x10 (global_seg lk) (lk_entry_10 lk));;
  far_writew (global_seg lk) (lk_save_pointer_table lk) (lk_param_table lk);;
  far_writew (global_seg lk) (lk_save_pointer_table lk + 2) (global_seg lk);;
  far_writeb (global_seg lk) (lk_rom_header_checksum lk) 0;;
  size ← far_readb (global_seg lk) (lk_rom_header_size lk);
  sum ← gets (fun m => u8 (- checksum m (global_seg lk * 16) (size * 512)));
  far_writeb (global_seg lk) (lk_rom_header_checksum lk) sum;;
  mret regs.
End Handlers.
