(* ===== verification/VgaText.v ===== *)
(** * Text screens: what the scrolling and the teletype service of [vgafb.c] and [vga.c] do

    A text page is a grid of words in memory.  Scrolling moves the cells of a window and
    nothing else, and the teletype service is an abstract terminal. *)

From S2P Require Import Prelude BiosUtil Bregs Output VgaTables VgaIo VgaFb Vga.
Local Open Scope Z_scope.
Local Open Scope coremu_scope.

(** ** Rows of memory *)

(** Position of an address in rows of [W] bytes from [base]. *)
Definition row_of (base W a : Z) : Z := (a - base) / W.
Definition col_of (base W a : Z) : Z := (a - base) mod W.

Section Rows.
Context (base W : Z) (HW : 0 < W).

Lemma row_col a : a = base + row_of base W a * W + col_of base W a /\ 0 <= col_of base W a < W.
Proof using HW.
  unfold row_of, col_of. pose proof (Z.div_mod (a - base) W). pose proof (Z.mod_pos_bound (a - base) W). lia.
Qed.

Lemma row_col_at r c : 0 <= c < W -> row_of base W (base + r * W + c) = r /\ col_of base W (base + r * W + c) = c.
Proof using HW.
  intros Hc. unfold row_of, col_of. replace (base + r * W + c - base) with (c + r * W) by lia.
  rewrite Z.div_add, Z.mod_add, Z.div_small, Z.mod_small by lia. lia.
Qed.

Lemma row_col_shift a n :
  row_of base W (a + n * W) = row_of base W a + n /\ col_of base W (a + n * W) = col_of base W a.
Proof using HW.
  unfold row_of, col_of. replace (a + n * W - base) with (a - base + n * W) by lia.
  rewrite Z.div_add, Z.mod_add by lia. lia.
Qed.

(** A stretch of a row, by address and by position. *)
Lemma in_row r off len a :
  0 <= off -> off + len <= W ->
  ((base + r * W + off <=? a) && (a <? base + r * W + off + len) =
   (row_of base W a =? r) && (off <=? col_of base W a) && (col_of base W a <? off + len)).
Proof using HW.
  intros Ho Hl. destruct (row_col a) as [Ha Hc].
  set (q := row_of base W a) in *. set (c := col_of base W a) in *.
  destruct (Z.eqb_spec q r) as [->|Hn]; simpl; [addr_cases; lia|].
  apply andb_false_iff. rewrite Z.leb_gt, Z.ltb_ge.
  destruct (Z.lt_ge_cases q r); [left; assert (q + 1 <= r) by lia; nia|right; assert (r + 1 <= q) by lia; nia].
Qed.
End Rows.

(** ** Accesses outside the graphics window *)

Section Plain.
Context {D : Type} `{VgaDevice D}.
Implicit Types s : vga D.

Lemma far_readb_ram seg off s :
  in_graph (seg * 16 + off) = false -> far_readb seg off s = (vmem s (seg * 16 + off), s).
Proof using. intros Hp. unfold far_readb. by rewrite Hp. Qed.

Lemma far_writeb_ram seg off v s :
  in_graph (seg * 16 + off) = false ->
  far_writeb seg off v s = (tt, mk_vga (writeb (vmem s) (seg * 16 + off) v) (vdev s)).
Proof using. intros Hp. unfold far_writeb. by rewrite Hp. Qed.

(** From here on far pointers reach only plain memory. *)
Definition plain (a : Z) : Prop := SEG_GRAPH * 16 + 0x10000 <= a.

Lemma plain_in_graph a : plain a -> in_graph a = false.
Proof using. unfold plain, in_graph. intros. apply andb_false_iff. right. apply Z.ltb_ge. done. Qed.

Lemma far_readb_plain seg off s :
  plain (seg * 16 + off) -> far_readb seg off s = (vmem s (seg * 16 + off), s).
Proof using. intros Hp. by apply far_readb_ram, plain_in_graph. Qed.

Lemma far_writeb_plain seg off v s :
  plain (seg * 16 + off) -> far_writeb seg off v s = (tt, mk_vga (writeb (vmem s) (seg * 16 + off) v) (vdev s)).
Proof using. intros Hp. by apply far_writeb_ram, plain_in_graph. Qed.

Lemma far_writew_plain seg off v s :
  plain (seg * 16 + off) -> far_writew seg off v s = (tt, mk_vga (writew (vmem s) (seg * 16 + off) v) (vdev s)).
Proof using.
  intros Hp. unfold far_writew, mbind, V_bind. rewrite far_writeb_plain by done.
  rewrite far_writeb_plain by (unfold plain in *; lia). cbn. by rewrite Z.add_assoc.
Qed.

Lemma far_readw_plain seg off s :
  plain (seg * 16 + off) -> far_readw seg off s = (readw (vmem s) (seg * 16 + off), s).
Proof using.
  intros Hp. unfold far_readw, mbind, V_bind. rewrite far_readb_plain by done.
  rewrite far_readb_plain by (unfold plain in *; lia). unfold readw. by rewrite Z.add_assoc.
Qed.

Lemma vmemcpy_far_plain d_seg d s_seg sr len s :
  plain (d_seg * 16 + d) -> plain (s_seg * 16 + sr) ->
  vmemcpy_far d_seg d s_seg sr len s =
  (tt, mk_vga (movsb (vmem s) (d_seg * 16 + d) (s_seg * 16 + sr) (Z.to_nat len)) (vdev s)).
Proof using.
  intros Hd Hs. unfold vmemcpy_far. generalize (Z.to_nat len) as n. intros n.
  assert (forall i, 0 <= i ->
    for_up n i (fun i => v ← far_readb s_seg (sr + i); far_writeb d_seg (d + i) v) s =
    (tt, mk_vga (movsb (vmem s) (d_seg * 16 + d + i) (s_seg * 16 + sr + i) n) (vdev s))) as E.
  { revert s. induction n as [|n IH]; intros [m dv] i Hi; [done|]. cbn [for_up movsb].
    unfold mbind, V_bind. rewrite far_readb_plain by (unfold plain in *; lia).
    rewrite far_writeb_plain by (unfold plain in *; lia). cbn [vmem vdev].
    unfold mbind, V_bind in IH. rewrite IH by lia. cbn [vmem vdev]. by rewrite !Z.add_assoc. }
  rewrite E by lia. by rewrite !Z.add_0_r.
Qed.

Lemma vmemset16_far_plain d_seg d c n s :
  plain (d_seg * 16 + d) ->
  vmemset16_far d_seg d c (2 * Z.of_nat n) s =
  (tt, mk_vga (stosw (vmem s) (d_seg * 16 + d) c n) (vdev s)).
Proof using.
  intros Hd. unfold vmemset16_far. rewrite Z.mul_comm, Z.div_mul, Nat2Z.id by lia.
  assert (forall i, 0 <= i -> for_up n i (fun i => far_writew d_seg (d + 2 * i) c) s =
    (tt, mk_vga (stosw (vmem s) (d_seg * 16 + d + 2 * i) c n) (vdev s))) as E.
  { revert s. induction n as [|n IH]; intros [m dv] i Hi; [done|]. cbn [for_up stosw].
    unfold mbind, V_bind. rewrite far_writew_plain by (unfold plain in *; lia). cbn [vmem vdev].
    rewrite IH by lia. cbn [vmem vdev]. do 3 f_equal; [f_equal|]; lia. }
  rewrite E by lia. do 3 f_equal. lia.
Qed.
End Plain.

Lemma stosw_spec n m d c a :
  stosw m d c n a =
  (if (d <=? a) && (a <? d + 2 * Z.of_nat n) then u8 (if Z.even (a - d) then c else Z.shiftr c 8) else m a).
Proof.
  revert m d. induction n as [|n IH]; intros m d; cbn [stosw].
  { addr_cases; done || lia. }
  rewrite IH. replace (a - (d + 2)) with (a - d + 2 * (-1)) by lia. rewrite Z.even_add_mul_2.
  unfold writew, writeb. addr_cases; try lia; try done.
  - by replace (a - d) with 1 by lia.
  - by replace (a - d) with 0 by lia.
Qed.

(** ** Copies and fills of a window *)

Section Window.
Context {D : Type} `{VgaDevice D}.
Context (seg start W : Z) (HW : 0 < W) (Hbase : plain (seg * 16 + start)).
Implicit Types s : vga D.

Notation base := (seg * 16 + start).
Notation row := (row_of base W).
Notation col := (col_of base W).

Definition direction (sg n : Z) : Prop := sg = 1 /\ 0 <= n \/ sg = -1 /\ n < 0.

(** Rows [y], [y + sg], ... of the stretch, [lines] of them. *)
Definition in_rows (sg y : Z) (lines : nat) (off len a : Z) : bool :=
  (0 <=? sg * (row a - y)) && (sg * (row a - y) <? Z.of_nat lines) && (off <=? col a) && (col a <? off + len).

Lemma in_rows_S sg y lines off len a :
  sg = 1 \/ sg = -1 ->
  in_rows sg y (S lines) off len a =
  (row a =? y) && (off <=? col a) && (col a <? off + len) || in_rows sg (y + sg) lines off len a.
Proof using. intros Hsg. unfold in_rows. addr_cases; try lia; destruct Hsg; subst; lia. Qed.

Lemma memcpy_stride_spec sg n y off len lines s :
  direction sg n -> 0 <= off -> 0 <= len -> off + len <= W -> bytes (vmem s) ->
  (forall j, 0 <= j < Z.of_nat lines -> 0 <= y + sg * j /\ 0 <= y + sg * j + n) ->
  exists m', memcpy_stride seg (start + y * W + off) (start + (y + n) * W + off) len (sg * W) lines s =
      (start + (y + sg * Z.of_nat lines) * W + off, mk_vga m' (vdev s)) /\ bytes m' /\
    forall a, m' a = (if in_rows sg y lines off len a then vmem s (a + n * W) else vmem s a).
Proof using HW Hbase.
  intros Hdir Ho Hl0 Hl. revert y s. induction lines as [|lines IH]; intros y [m dv] Hm Hrows; cbn [memcpy_stride vmem vdev].
  { exists m. split_and!; [|done|].
    - unfold mret, V_ret. do 2 f_equal. lia.
    - intros a. unfold in_rows. addr_cases; done || lia. }
  destruct (Hrows 0) as [Hy0 Hy1]; [lia|]. rewrite Z.mul_0_r, Z.add_0_r in Hy0, Hy1.
  assert (sg = 1 \/ sg = -1) as Hsg by (destruct Hdir; lia).
  unfold mbind, V_bind. rewrite vmemcpy_far_plain by (unfold plain in *; nia). cbn [vmem vdev].
  set (d := seg * 16 + (start + y * W + off)). set (sr := seg * 16 + (start + (y + n) * W + off)).
  set (m1 := movsb m d sr (Z.to_nat len)).
  assert (forall a, m1 a = (if (row a =? y) && (off <=? col a) && (col a <? off + len) then m (a + n * W) else m a)) as E1.
  { intros a. subst m1. rewrite movsb_spec, Z2Nat.id by (try done; unfold forward_safe, direction in *; nia).
    unfold copied. replace d with (base + y * W + off) by lia. rewrite (in_row _ _ HW) by done.
    case_test; [|done]. f_equal. lia. }
  destruct (IH (y + sg) (mk_vga m1 dv)) as (m' & Hrun & Hm' & E').
  { intros a. cbn. rewrite E1. case_test; apply Hm. }
  { intros j Hj. destruct (Hrows (j + 1)); [lia|]. lia. }
  exists m'. split_and!; [|done|].
  - replace (start + y * W + off + sg * W) with (start + (y + sg) * W + off) by lia.
    replace (start + (y + n) * W + off + sg * W) with (start + (y + sg + n) * W + off) by lia.
    rewrite Hrun. cbn. do 2 f_equal. lia.
  - intros a. rewrite E', in_rows_S by done. cbn [vmem]. rewrite !E1.
    destruct (row_col_shift base W HW a n) as [-> ->]. unfold in_rows, direction in *.
    addr_cases; try lia; done.
Qed.

Lemma memset16_stride_spec sg y off k c lines s :
  sg = 1 \/ sg = -1 -> 0 <= off -> Z.even off = true -> Z.even W = true -> off + 2 * Z.of_nat k <= W ->
  (forall j, 0 <= j < Z.of_nat lines -> 0 <= y + sg * j) ->
  exists m', memset16_stride seg (start + y * W + off) c (2 * Z.of_nat k) (sg * W) lines s = (tt, mk_vga m' (vdev s)) /\
    forall a, m' a = (if in_rows sg y lines off (2 * Z.of_nat k) a
                      then u8 (if Z.even (col a) then c else Z.shiftr c 8) else vmem s a).
Proof using HW Hbase.
  intros Hsg Ho Heo HeW Hl. revert y s.
  induction lines as [|lines IH]; intros y [m dv] Hrows; cbn [memset16_stride vmem vdev].
  { exists m. split; [done|]. intros a. unfold in_rows. addr_cases; done || lia. }
  pose proof (Hrows 0 ltac:(lia)) as Hy0. rewrite Z.mul_0_r, Z.add_0_r in Hy0.
  unfold mbind, V_bind. rewrite vmemset16_far_plain by (unfold plain in *; nia). cbn [vmem vdev].
  set (m1 := stosw m _ c k).
  assert (forall a, m1 a = (if (row a =? y) && (off <=? col a) && (col a <? off + 2 * Z.of_nat k)
      then u8 (if Z.even (col a) then c else Z.shiftr c 8) else m a)) as E1.
  { intros a. subst m1. rewrite stosw_spec.
    replace (seg * 16 + (start + y * W + off)) with (base + y * W + off) by lia.
    rewrite (in_row _ _ HW) by done. case_test; [|done]. do 2 f_equal.
    destruct (row_col base W HW a) as [Ha _]. replace (row a) with y in Ha by lia.
    rewrite Ha at 1. replace (base + y * W + col a - (base + y * W + off)) with (col a - off) by lia.
    rewrite Z.even_sub, Heo. by destruct (Z.even (col a)). }
  destruct (IH (y + sg) (mk_vga m1 dv)) as (m' & Hrun & E').
  { intros j Hj. specialize (Hrows (j + 1)). lia. }
  exists m'. split.
  - replace (start + y * W + off + sg * W) with (start + (y + sg) * W + off) by lia. done.
  - intros a. rewrite E', in_rows_S by done. cbn [vmem]. rewrite E1. unfold in_rows.
    addr_cases; try lia; done.
Qed.
End Window.

(** ** Text modes *)

(** The display is in a text mode of [rows] by [cols], as the data area has it. *)
Definition text_mode (m : memory) (vm : vgamode_s) (rows cols : Z) : Prop :=
  find_vga_entry (m (bda "video_mode")) = Some vm /\ is_text (memmodel vm) = true /\
  m (bda "video_rows") + 1 = rows /\ readw m (bda "video_cols") = cols /\ 0 < rows < 256 /\ 0 < cols < 256.

Lemma find_vga_entry_in mode vm : find_vga_entry mode = Some vm -> vm ∈ vga_modes.
Proof.
  unfold find_vga_entry. induction vga_modes as [|e l IH]; simpl; [done|].
  case_test; intros; simplify_eq; [left|right; auto].
Qed.

Lemma text_sstart mode vm :
  find_vga_entry mode = Some vm -> is_text (memmodel vm) = true -> plain (sstart vm * 16) /\ sstart vm * 16 < 0x100000.
Proof.
  intros Hf%find_vga_entry_in Ht.
  assert (Forall (fun e => is_text (memmodel e) = true -> plain (sstart e * 16) /\ sstart e * 16 < 0x100000) vga_modes) as HF.
  { unfold vga_modes, plain. repeat constructor; intros; vm_compute; done || split; done. }
  rewrite Forall_forall in HF. by apply HF.
Qed.

(** The first byte of a page, and the byte offset and address of a cell. *)
Definition page_start (rows cols page : Z) : Z := SCREEN_MEM_START cols rows page.
Definition page_base (vm : vgamode_s) (rows cols page : Z) : Z := sstart vm * 16 + page_start rows cols page.
Definition cell_addr (vm : vgamode_s) (rows cols page r c : Z) : Z := page_base vm rows cols page + (c + r * cols) * 2.

Lemma page_start_nonneg rows cols page : 0 <= rows -> 0 <= cols -> 0 <= page -> 0 <= page_start rows cols page.
Proof.
  intros. unfold page_start, SCREEN_MEM_START, SCREEN_IO_START. apply Z.mul_nonneg_nonneg; [|done].
  assert (0 <= Z.lor (cols * 2 * rows) 0xff) by (apply Z.lor_nonneg; split; [nia|lia]). lia.
Qed.

(** Memory after a window was scrolled by [n] lines, up when [n] is positive. *)
Definition scrolled (m : memory) (base W n : Z) (ul lr : cursorpos) (fill a : Z) : Z :=
  let r := row_of base W a in
  let c := col_of base W a in
  if (cp_y ul <=? r) && (r <=? cp_y lr) && (2 * cp_x ul <=? c) && (c <? 2 * cp_x lr + 2) then
    if (cp_y ul <=? r + n) && (r + n <=? cp_y lr) then m (a + n * W)
    else if Z.even c then 0x20 else fill
  else m a.

Section Scroll.
Context {D : Type} `{VgaDevice D}.
Implicit Types s : vga D.

(** [ul] and [lr] are the corners of a window of the screen. *)
Definition window (rows cols : Z) (ul lr : cursorpos) : Prop :=
  0 <= cp_x ul <= cp_x lr /\ cp_x lr < cols /\ 0 <= cp_y ul <= cp_y lr /\ cp_y lr < rows /\ 0 <= cp_page ul.

Lemma fill_bytes at_ : -1 <= at_ < 256 ->
  let c := Z.lor (Z.shiftl (if at_ <? 0 then 0x07 else at_) 8) 0x20 in
  u8 c = 0x20 /\ u8 (Z.shiftr c 8) = (if at_ <? 0 then 0x07 else at_).
Proof using.
  intros Ha c. set (v := if at_ <? 0 then 7 else at_) in *. assert (in_u 8 v) by (unfold in_u, v; case_test; lia).
  subst c. rewrite Z.lor_comm, lor_shiftl by lia. rewrite wrap_lo, shiftr_hi by (unfold in_u; lia).
  split; [done|]. by apply wrap_small.
Qed.

Lemma scroll_text_spec vm rows cols n at_ ul lr s :
  text_mode (vmem s) vm rows cols -> bytes (vmem s) -> window rows cols ul lr ->
  n <> 0 -> Z.abs n <= cp_y lr - cp_y ul + 1 -> -1 <= at_ < 256 ->
  exists m', scroll_text vm n at_ ul lr s = (tt, mk_vga m' (vdev s)) /\
    forall a, m' a = scrolled (vmem s) (page_base vm rows cols (cp_page ul)) (2 * cols) n ul lr
                       (if at_ <? 0 then 0x07 else at_) a.
Proof using.
  intros (Hf & Ht & Hr & Hc & Hrows & Hcols) Hb (Hx & Hxc & Hy & Hyr & Hp) Hn0 Hn Hat.
  destruct (text_sstart _ _ Hf Ht) as [Hss _].
  pose proof (page_start_nonneg rows cols (cp_page ul) ltac:(lia) ltac:(lia) Hp) as Hps.
  assert (plain (sstart vm * 16 + page_start rows cols (cp_page ul))) as Hbase by (unfold plain in *; lia).
  destruct (fill_bytes at_ Hat) as [Hc0 Hc1].
  unfold scroll_text, get_bda8, get_bda16, gets, mbind, V_bind, readb. rewrite Hr, Hc.
  rewrite (wrap_small 16 rows) by (unfold in_u; lia). cbn zeta.
  set (c := Z.lor _ _) in *.
  change (SCREEN_MEM_START cols rows (cp_page ul)) with (page_start rows cols (cp_page ul)).
  set (st := page_start rows cols (cp_page ul)) in *. set (W := 2 * cols). set (off := 2 * cp_x ul).
  set (k := cp_x lr - cp_x ul + 1).
  (* the two directions as one *)
  set (sg := if 0 <=? n then 1 else -1). set (y := if 0 <=? n then cp_y ul else cp_y lr).
  assert ((if 0 <=? n
       then (n, st + (cp_y ul * (cols * 2) + cp_x ul * 2), st + (cp_y ul * (cols * 2) + cp_x ul * 2) + n * (cols * 2), cols * 2)
       else (- n, st + (cp_y lr * (cols * 2) + cp_x ul * 2), st + (cp_y lr * (cols * 2) + cp_x ul * 2) - - n * (cols * 2), - (cols * 2)))
      = (Z.abs n, st + y * W + off, st + (y + n) * W + off, sg * W)) as ->.
  { subst sg y W off. case_test; f_equal; [f_equal; [f_equal|]| |f_equal; [f_equal|]|]; lia. }
  assert (direction sg n) as Hdir by (unfold direction; subst sg; case_test; lia).
  assert (sg = 1 \/ sg = -1) as Hsg by (subst sg; case_test; lia).
  rewrite (Z.mul_comm k 2).
  set (lines := cp_y lr - cp_y ul + 1 - Z.abs n).
  assert (exists m1, (if Z.abs n <? cp_y lr - cp_y ul + 1
      then memcpy_stride (sstart vm) (st + y * W + off) (st + (y + n) * W + off) (2 * k) (sg * W) (Z.to_nat lines)
      else mret (st + y * W + off)) s = (st + (y + sg * lines) * W + off, mk_vga m1 (vdev s)) /\
    forall a, m1 a = (if in_rows (sstart vm) st W sg y (Z.to_nat lines) off (2 * k) a then vmem s (a + n * W) else vmem s a))
    as (m1 & -> & E1).
  { case_test.
    - destruct (memcpy_stride_spec (sstart vm) st W ltac:(lia) Hbase sg n y off (2 * k) (Z.to_nat lines) s)
        as (m1 & -> & _ & E1); [done|lia..|done| |].
      + intros j Hj. subst sg y. case_test; lia.
      + exists m1. rewrite Z2Nat.id by lia. done.
    - exists (vmem s). split.
      + unfold mret, V_ret. replace lines with 0 by lia. destruct s. cbn. do 2 f_equal. lia.
      + intros a. replace (Z.to_nat lines) with 0%nat by lia. unfold in_rows. addr_cases; done || lia. }
  destruct (memset16_stride_spec (sstart vm) st W ltac:(lia) Hbase sg (y + sg * lines) off (Z.to_nat k) c
    (Z.to_nat (Z.abs n)) (mk_vga m1 (vdev s))) as (m2 & Hrun & E2);
    [done|lia|subst off; by rewrite Z.even_mul|subst W; by rewrite Z.even_mul|lia| |].
  { intros j Hj. subst sg y. case_test; lia. }
  exists m2. rewrite Z2Nat.id in Hrun by lia. split; [exact Hrun|].
  intros a. rewrite E2. cbn [vmem]. rewrite E1. unfold scrolled, in_rows, page_base. fold st.
  set (r := row_of _ _ a). set (q := col_of _ _ a). rewrite !Z2Nat.id by lia.
  assert (u8 (if Z.even q then c else Z.shiftr c 8) = (if Z.even q then 32 else if at_ <? 0 then 7 else at_)) as ->
    by (by destruct (Z.even q)).
  generalize (if Z.even q then 32 else if at_ <? 0 then 7 else at_). intros v.
  subst sg y. destruct (Z.leb_spec 0 n); repeat case_test; done || (exfalso; lia).
Qed.
End Scroll.

(** ** Scrolling by registers *)

Section ScrollCall.
Context {D : Type} `{VgaDevice D}.
Implicit Types s : vga D.

Lemma vgafb_scroll_text vm rows cols n at_ ul lr s :
  text_mode (vmem s) vm rows cols -> vgafb_scroll n at_ ul lr s = scroll_text vm n at_ ul lr s.
Proof using.
  intros (Hf & Ht & _). unfold vgafb_scroll, get_bda8, gets, readb, mbind, V_bind. rewrite Hf.
  by destruct (memmodel vm).
Qed.

Lemma scrolled_outside m base W n ul lr fill rows cols a :
  0 < cols -> W = 2 * cols -> window rows cols ul lr -> ~ base <= a < base + 2 * cols * rows ->
  scrolled m base W n ul lr fill a = m a.
Proof using.
  intros Hc -> (Hx & Hxc & Hy & Hyr & _) Ha. unfold scrolled.
  destruct (row_col base (2 * cols) ltac:(lia) a) as [E Hq]. set (r := row_of _ _ a) in *.
  case_test; [|done]. exfalso. apply Ha. assert (r * (2 * cols) <= (rows - 1) * (2 * cols)) by nia. nia.
Qed.

(** The window that CX and DX name, clipped to the screen, and the lines that AL asks
    for, all of them when 0 or too many. *)
Definition scroll_ul (regs : bregs) (page : Z) : cursorpos := mk_cursorpos (cl regs) (ch regs) page.
Definition scroll_lr (regs : bregs) (rows cols page : Z) : cursorpos :=
  mk_cursorpos (Z.min (dl regs) (cols - 1)) (Z.min (dh regs) (rows - 1)) page.
Definition scroll_lines (regs : bregs) (rows : Z) : Z :=
  let height := Z.min (dh regs) (rows - 1) - ch regs + 1 in
  if (al regs =? 0) || (height <? al regs) then height else al regs.

Lemma reg8_range r : in_u 8 (lo8 r) /\ in_u 8 (hi8 r).
Proof using. split; apply wrap_range; lia. Qed.

Lemma verify_scroll_text vm rows cols regs dir s :
  text_mode (vmem s) vm rows cols ->
  let page := vmem s (bda "video_page") in
  verify_scroll regs dir s =
  (if (Z.min (dl regs) (cols - 1) <? cl regs) || (Z.min (dh regs) (rows - 1) <? ch regs) then mret tt
   else vgafb_scroll (dir * scroll_lines regs rows) (bh regs) (scroll_ul regs page) (scroll_lr regs rows cols page)) s.
Proof using.
  intros (Hf & Ht & Hr & Hc & Hrows & Hcols) page.
  unfold verify_scroll, get_bda8, get_bda16, gets, readb, mbind, V_bind. rewrite Hr, Hc.
  rewrite (wrap_small 16 rows) by (unfold in_u; lia). cbn zeta. cbn [cp_x cp_y]. fold page.
  assert ((if rows <=? dh regs then u8 (rows - 1) else dh regs) = Z.min (dh regs) (rows - 1)) as ->
    by (case_test; [rewrite wrap_small by (unfold in_u; lia)|]; lia).
  assert ((if cols <=? dl regs then u8 (cols - 1) else dl regs) = Z.min (dl regs) (cols - 1)) as ->
    by (case_test; [rewrite wrap_small by (unfold in_u; lia)|]; lia).
  destruct ((_ <? cl regs) || _) eqn:E; [done|]. apply orb_false_iff in E as [E1 E2]. bool_to_prop.
  unfold scroll_lines, scroll_ul, scroll_lr. do 3 f_equal. rewrite (wrap_small 16); [done|].
  pose proof (reg8_range (ecx regs)). pose proof (reg8_range (edx regs)). unfold in_u, ch, dh in *. lia.
Qed.

(** Interrupt 0x10 function 6 moves the cells of the window that the registers name in
    the active page up, function 7 down; the lines that become free are filled with
    blanks of attribute BH.  Nothing else in memory changes, whatever the registers
    hold, nor does the adapter, and a window that is empty changes nothing. *)
Theorem scroll_window_correct vm rows cols regs s :
  text_mode (vmem s) vm rows cols -> bytes (vmem s) ->
  let page := vmem s (bda "video_page") in
  let ul := scroll_ul regs page in
  let lr := scroll_lr regs rows cols page in
  let n := scroll_lines regs rows in
  let base := page_base vm rows cols page in
  (cp_x ul <= cp_x lr /\ cp_y ul <= cp_y lr ->
     exists m1 m2, handle_1006 regs s = (regs, mk_vga m1 (vdev s)) /\ handle_1007 regs s = (regs, mk_vga m2 (vdev s)) /\
       (forall a, m1 a = scrolled (vmem s) base (2 * cols) n ul lr (bh regs) a) /\
       (forall a, m2 a = scrolled (vmem s) base (2 * cols) (- n) ul lr (bh regs) a) /\
       forall a, ~ base <= a < base + 2 * cols * rows -> m1 a = vmem s a /\ m2 a = vmem s a) /\
  (~ (cp_x ul <= cp_x lr /\ cp_y ul <= cp_y lr) -> handle_1006 regs s = (regs, s) /\ handle_1007 regs s = (regs, s)).
Proof using.
  intros Htm Hb page ul lr n base. pose proof Htm as (_ & _ & _ & _ & Hrows & Hcols).
  unfold handle_1006, handle_1007, keep, mbind, V_bind. rewrite !(verify_scroll_text vm rows cols) by done.
  fold page ul lr. split.
  - cbn [cp_x cp_y ul lr scroll_ul scroll_lr]. intros [Hx Hy].
    rewrite (proj2 (Z.ltb_ge _ _) Hx), (proj2 (Z.ltb_ge _ _) Hy). cbn [orb].
    rewrite !(vgafb_scroll_text vm rows cols) by done.
    pose proof (reg8_range (ecx regs)) as [? ?]. pose proof (reg8_range (edx regs)) as [? ?].
    pose proof (reg8_range (eax regs)) as [? ?]. pose proof (reg8_range (ebx regs)) as [? ?].
    pose proof (Hb (bda "video_page")) as Hpg. fold page in Hpg. unfold in_u in *.
    assert (window rows cols ul lr) as Hw.
    { unfold window. cbn [cp_x cp_y cp_page ul lr scroll_ul scroll_lr] in *. unfold cl, ch, dl, dh in *. lia. }
    assert (0 < n <= cp_y lr - cp_y ul + 1) as Hn.
    { unfold n, scroll_lines. cbn [cp_y lr ul scroll_ul scroll_lr]. destruct (_ || _) eqn:E; [lia|].
      apply orb_false_iff in E as [E1 E2]. bool_to_prop. unfold al in *. lia. }
    fold n. destruct (scroll_text_spec vm rows cols (1 * n) (bh regs) ul lr s) as (m1 & -> & E1); [done..|lia|lia|unfold bh; lia|].
    destruct (scroll_text_spec vm rows cols (-1 * n) (bh regs) ul lr s) as (m2 & -> & E2); [done..|lia|lia|unfold bh; lia|].
    rewrite (proj2 (Z.ltb_ge (bh regs) 0)) in E1, E2 by (unfold bh; lia).
    rewrite Z.mul_1_l in E1. replace (-1 * n) with (- n) in E2 by lia.
    exists m1, m2. split_and!; try done. intros a Ha. rewrite E1, E2.
    split; apply (scrolled_outside _ _ _ _ _ _ _ rows cols); done || lia.
  - cbn [cp_x cp_y ul lr scroll_ul scroll_lr]. intros Hn.
    assert ((Z.min (dl regs) (cols - 1) <? cl regs) || (Z.min (dh regs) (rows - 1) <? ch regs) = true) as ->; [|done].
    apply orb_true_iff. rewrite !Z.ltb_lt. lia.
Qed.
End ScrollCall.

(** ** An abstract terminal *)

Record tty := mk_tty { tty_x : Z; tty_y : Z; tty_cell : Z -> Z -> Z }.

(** Columns [x0 .. x1) of row [r] get character [ch] and keep their attributes. *)
Definition put_cells (cell : Z -> Z -> Z) (r x0 x1 ch : Z) : Z -> Z -> Z := fun r' c' =>
  if (r' =? r) && (x0 <=? c') && (c' <? x1) then put_lo8 (cell r' c') ch else cell r' c'.

(** The effect of a character before wrapping. *)
Definition tty_char (cols : Z) (t : tty) (ch : Z) : tty :=
  let x := tty_x t in
  let y := tty_y t in
  if ch =? 7 then t
  else if ch =? 8 then mk_tty (Z.max 0 (x - 1)) y (tty_cell t)
  else if ch =? 13 then mk_tty 0 y (tty_cell t)
  else if ch =? 10 then mk_tty x (y + 1) (tty_cell t)
  else if ch =? 9 then
    let x' := Z.min cols ((x / 8 + 1) * 8) in mk_tty x' y (put_cells (tty_cell t) y x x' 0x20)
  else mk_tty (x + 1) y (put_cells (tty_cell t) y x (x + 1) ch).

Definition tty_wrap (cols : Z) (t : tty) : tty :=
  if tty_x t =? cols then mk_tty 0 (tty_y t + 1) (tty_cell t) else t.

Definition tty_scroll (rows : Z) (t : tty) : tty :=
  if tty_y t <? rows then t
  else mk_tty (tty_x t) (tty_y t - 1) (fun r c => if r + 1 <? rows then tty_cell t (r + 1) c else 0x0720).

Definition tty_putc (rows cols : Z) (t : tty) (ch : Z) : tty := tty_scroll rows (tty_wrap cols (tty_char cols t ch)).

(** The cells of a page are those of the terminal. *)
Definition shows (m : memory) (vm : vgamode_s) (rows cols page : Z) (cell : Z -> Z -> Z) : Prop :=
  forall r c, 0 <= r < rows -> 0 <= c < cols -> readw m (cell_addr vm rows cols page r c) = cell r c.

(** Memory that differs at most in the cells of a page. *)
Definition only_page (m m' : memory) (vm : vgamode_s) (rows cols page : Z) : Prop :=
  let base := page_base vm rows cols page in forall a, ~ base <= a < base + 2 * cols * rows -> m' a = m a.

Section Teletype.
Context {D : Type} `{VgaDevice D}.
Context (vm : vgamode_s) (rows cols page : Z) (Hpage : 0 <= page).
Implicit Types s : vga D.

Notation base := (page_base vm rows cols page).
Notation addr := (cell_addr vm rows cols page).

(** A state of the screen: [m] is in the mode and shows [cell]. *)
Definition screen (m : memory) (cell : Z -> Z -> Z) : Prop :=
  text_mode m vm rows cols /\ bytes m /\ shows m vm rows cols page cell.

Lemma only_page_refl m : only_page m m vm rows cols page.
Proof using. by intros a. Qed.

Lemma only_page_trans m1 m2 m3 :
  only_page m1 m2 vm rows cols page -> only_page m2 m3 vm rows cols page -> only_page m1 m3 vm rows cols page.
Proof using. intros H1 H2 a Ha. by rewrite H2, H1. Qed.

Lemma base_plain m : text_mode m vm rows cols -> plain base.
Proof using Hpage.
  intros (Hf & Ht & _ & _ & Hr & Hc). destruct (text_sstart _ _ Hf Ht) as [Hp _].
  pose proof (page_start_nonneg rows cols page ltac:(lia) ltac:(lia) Hpage). unfold plain, page_base in *. lia.
Qed.

Lemma addr_bounds r c : 0 <= r < rows -> 0 <= c < cols -> base <= addr r c /\ addr r c + 1 < base + 2 * cols * rows.
Proof using. intros. unfold cell_addr. nia. Qed.

Lemma addr_row r c : addr r c = base + r * (2 * cols) + 2 * c.
Proof using. unfold cell_addr. lia. Qed.

(** Changes of the page keep the mode, the data area being below it. *)
Lemma only_page_low m m' a :
  text_mode m vm rows cols -> only_page m m' vm rows cols page -> a < 0xb0000 -> m' a = m a.
Proof using Hpage. intros Ht Ho Ha. apply Ho. pose proof (base_plain m Ht) as Hp. unfold plain, SEG_GRAPH in Hp. lia. Qed.

Lemma bda_low f : In f (map fst bios_data_area_s) -> bda f < 0x600.
Proof using. intros Hf. repeat (destruct Hf as [<-|Hf]; [vm_compute; done|]). done. Qed.

Lemma only_page_mode m m' :
  text_mode m vm rows cols -> only_page m m' vm rows cols page -> text_mode m' vm rows cols.
Proof using Hpage.
  intros Ht Ho. pose proof Ht as (Hf & Htx & Hr & Hc & Hb). unfold text_mode.
  rewrite !(only_page_low m m') by (done || vm_compute; done).
  rewrite (readw_ext m m') by (apply only_page_low; done || vm_compute; done). done.
Qed.

(** *** Writing a cell *)

Lemma write_char_screen s cell r c ch at_ :
  screen (vmem s) cell -> 0 <= r < rows -> 0 <= c < cols ->
  exists m', vgafb_write_char (mk_cursorpos c r page) (mk_carattr ch at_ false) s = (tt, mk_vga m' (vdev s)) /\
    screen m' (put_cells cell r c (c + 1) ch) /\ only_page (vmem s) m' vm rows cols page.
Proof using Hpage.
  intros (Ht & Hb & Hs) Hr Hc. pose proof Ht as (Hf & Htx & Hrows & Hcols & Hrb & Hcb).
  pose proof (addr_bounds r c Hr Hc) as Ha. pose proof (base_plain _ Ht) as Hp.
  exists (writeb (vmem s) (addr r c) ch).
  assert (only_page (vmem s) (writeb (vmem s) (addr r c) ch) vm rows cols page) as Ho.
  { intros a Hout. apply writeb_other. lia. }
  split_and!; [| |done].
  - unfold vgafb_write_char, get_bda8, get_bda16, gets, readb, mbind, V_bind. rewrite Hf.
    assert (write_text_char vm (mk_cursorpos c r page) (mk_carattr ch at_ false) s =
      (tt, mk_vga (writeb (vmem s) (addr r c) ch) (vdev s))) as E.
    { unfold write_text_char, get_bda8, get_bda16, gets, readb, mbind, V_bind. rewrite Hrows, Hcols.
      rewrite (wrap_small 16 rows) by (unfold in_u; lia). cbn [use_attr car].
      assert (sstart vm * 16 + text_address cols rows (mk_cursorpos c r page) = addr r c) as Ea.
      { unfold cell_addr, page_base, page_start, text_address. cbn [cp_x cp_y cp_page]. lia. }
      rewrite far_writeb_plain by (unfold plain in *; lia). by rewrite Ea. }
    by destruct (memmodel vm).
  - split_and!; [by eapply only_page_mode|by apply bytes_writeb|].
    intros r' c' Hr' Hc'. unfold put_cells.
    destruct (decide (r' = r /\ c' = c)) as [[-> ->]|Hne].
    + rewrite Z.eqb_refl, Z.leb_refl, (proj2 (Z.ltb_lt c (c + 1))) by lia. cbn [andb].
      rewrite <- (Hs r c) by done. rewrite !readw_sum by auto with coremu.
      rewrite writeb_same, writeb_other by lia. unfold put_lo8. change (2 ^ 8) with 256.
      pose proof (Hb (addr r c)). unfold in_u in *. rewrite Z.div_add, Z.div_small by (simpl in *; lia). lia.
    + assert ((r' =? r) && (c <=? c') && (c' <? c + 1) = false) as -> by (addr_cases; done || lia).
      rewrite <- (Hs r' c') by done. assert (addr r' c' <> addr r c /\ addr r' c' + 1 <> addr r c).
      { rewrite !addr_row. destruct (row_col_at base (2 * cols) ltac:(lia) r (2 * c) ltac:(lia)).
        destruct (row_col_at base (2 * cols) ltac:(lia) r' (2 * c') ltac:(lia)). split; intros E; [|lia].
        apply Hne. split; congruence || (assert (2 * c' = 2 * c) by congruence; lia). }
      apply readw_ext; apply writeb_other; lia.
Qed.

Lemma shows_ext m cell cell' :
  (forall r c, 0 <= r < rows -> 0 <= c < cols -> cell r c = cell' r c) ->
  screen m cell -> screen m cell'.
Proof using. intros He (Ht & Hb & Hs). split_and!; [done..|]. intros r c Hr Hc. rewrite Hs by done. auto. Qed.

Lemma put_lo8_idem x v : put_lo8 (put_lo8 x v) v = put_lo8 x v.
Proof using.
  unfold put_lo8. pose proof (wrap_range 8 ltac:(lia) v) as Hw. unfold in_u in Hw. change (2 ^ 8) with 256 in Hw.
  rewrite Z.div_add_l, (Z.div_small (u8 v)) by lia. lia.
Qed.

(** A tab blanks the cells up to the next multiple of 8 or the end of the row. *)
Lemma write_tab_screen fuel s cell r c ch at_ :
  screen (vmem s) cell -> 0 <= r < rows -> 0 <= c < cols -> 8 - c mod 8 <= Z.of_nat fuel ->
  let x' := Z.min cols ((c / 8 + 1) * 8) in
  exists m', write_tab fuel (mk_cursorpos c r page) cols (mk_carattr ch at_ false) s =
      (mk_cursorpos x' r page, mk_vga m' (vdev s)) /\
    screen m' (put_cells cell r c x' 0x20) /\ only_page (vmem s) m' vm rows cols page.
Proof using Hpage.
  revert s cell c. induction fuel as [|fuel IH]; intros s cell c Hs Hr Hc Hf x'.
  { pose proof (Z.mod_pos_bound c 8). lia. }
  assert (cols < 256) as Hcols by apply Hs.
  cbn [write_tab]. unfold mbind, V_bind. cbn [attr use_attr].
  destruct (write_char_screen s cell r c 0x20 at_ Hs Hr Hc) as (m1 & -> & Hs1 & Ho1).
  cbn [cp_x cp_y cp_page]. rewrite (wrap_small 8) by (unfold in_u; lia).
  pose proof (Z.div_mod c 8 ltac:(lia)) as Hdm. pose proof (Z.mod_pos_bound c 8 ltac:(lia)) as Hm.
  destruct ((c + 1 <? cols) && negb ((c + 1) mod 8 =? 0)) eqn:E.
  - apply andb_true_iff in E as [E1 E2]. bool_to_prop.
    assert ((c + 1) / 8 = c / 8 /\ (c + 1) mod 8 = c mod 8 + 1) as [Hd' Hm'].
    { clear - E2. Z.to_euclidean_division_equations; lia. }
    destruct (IH (mk_vga m1 (vdev s)) _ (c + 1) Hs1) as (m2 & Hrun & Hs2 & Ho2); [lia..|].
    rewrite Hd' in Hrun, Hs2. fold x' in Hrun, Hs2.
    exists m2. split_and!; [exact Hrun| |by eapply only_page_trans].
    eapply shows_ext; [|exact Hs2]. intros r' c' _ _. unfold put_cells.
    repeat case_test; rewrite ?put_lo8_idem; done || (exfalso; lia).
  - assert (x' = c + 1) as ->.
    { subst x'. apply andb_false_iff in E as [E|E]; bool_to_prop; [lia|].
      assert ((c / 8 + 1) * 8 = c + 1) by (clear - E; Z.to_euclidean_division_equations; lia). lia. }
    exists m1. by split_and!.
Qed.

(** *** Scrolling one line *)

Lemma scroll_one_screen s cell :
  screen (vmem s) cell ->
  exists m', scroll_one rows cols page s = (tt, mk_vga m' (vdev s)) /\
    screen m' (fun r c => if r + 1 <? rows then cell (r + 1) c else 0x0720) /\
    only_page (vmem s) m' vm rows cols page.
Proof using Hpage.
  intros (Ht & Hb & Hs). pose proof Ht as (_ & _ & _ & _ & Hr & Hc). unfold scroll_one.
  rewrite !(wrap_small 8) by (unfold in_u; lia). rewrite (vgafb_scroll_text vm rows cols) by done.
  set (ul := mk_cursorpos 0 0 page). set (lr := mk_cursorpos (cols - 1) (rows - 1) page).
  assert (window rows cols ul lr) as Hw by (unfold window; cbn; lia).
  destruct (scroll_text_spec vm rows cols 1 (-1) ul lr s) as (m' & -> & E); [done..|cbn; lia|lia|].
  change (-1 <? 0) with true in E. cbv iota in E. cbn [cp_page ul] in E.
  assert (only_page (vmem s) m' vm rows cols page) as Ho.
  { intros a Ha. rewrite E. apply (scrolled_outside _ _ _ _ _ _ _ rows cols); done || lia. }
  exists m'. split_and!; [done| |done]. split_and!; [by eapply only_page_mode| |].
  { intros a. rewrite E. unfold scrolled. repeat case_test; try apply Hb; unfold in_u; lia. }
  intros r c Hr' Hc'. rewrite addr_row.
  assert (forall i, 0 <= i < 2 -> m' (base + r * (2 * cols) + 2 * c + i) =
    (if r + 1 <? rows then vmem s (base + (r + 1) * (2 * cols) + 2 * c + i) else if i =? 0 then 0x20 else 0x07)) as Ei.
  { intros i Hi. rewrite E. unfold scrolled. rewrite <- Z.add_assoc.
    destruct (row_col_at base (2 * cols) ltac:(lia) r (2 * c + i) ltac:(lia)) as [-> ->]. cbn [cp_x cp_y ul lr].
    rewrite Z.even_add, Z.even_mul. cbn [Z.even orb].
    assert (i = 0 \/ i = 1) as [-> | ->] by lia; cbn [Z.even Bool.eqb Z.eqb]; repeat case_test; try (exfalso; lia); try done; f_equal; lia. }
  pose proof (Ei 0 ltac:(lia)) as E0. pose proof (Ei 1 ltac:(lia)) as E1. rewrite Z.add_0_r in E0.
  unfold readw. rewrite E0, E1. case_test; [|done].
  rewrite <- (Hs (r + 1) c) by lia. rewrite addr_row. unfold readw. by rewrite Z.add_0_r.
Qed.

(** *** The teletype *)

Lemma write_teletype_screen s t ch at_ :
  screen (vmem s) (tty_cell t) -> 0 <= tty_x t < cols -> 0 <= tty_y t < rows ->
  let t' := tty_putc rows cols t ch in
  0 <= tty_x t' < cols /\ 0 <= tty_y t' < rows /\
  exists m', write_teletype (mk_cursorpos (tty_x t) (tty_y t) page) (mk_carattr ch at_ false) s =
      (mk_cursorpos (tty_x t') (tty_y t') page, mk_vga m' (vdev s)) /\
    screen m' (tty_cell t') /\ only_page (vmem s) m' vm rows cols page.
Proof using Hpage.
  intros Hs Hx Hy t'. pose proof Hs as ((_ & _ & Hr & Hc & Hrb & Hcb) & _ & _).
  set (t1 := tty_char cols t ch) in *.
  assert (0 <= tty_x t1 <= cols /\ 0 <= tty_y t1 <= rows /\ (tty_x t1 = cols -> tty_y t1 < rows)) as (Hx1 & Hy1 & Hxy).
  { subst t1. unfold tty_char. pose proof (Z.mod_pos_bound (tty_x t) 8). pose proof (Z.div_mod (tty_x t) 8).
    repeat case_test; cbn; lia. }
  assert (0 <= tty_x t' < cols /\ 0 <= tty_y t' < rows) as [Hx' Hy'].
  { subst t'. unfold tty_putc, tty_scroll, tty_wrap. fold t1. repeat (case_test; cbn [tty_x tty_y] in * ); lia. }
  split_and!; [lia..|].
  unfold write_teletype, get_bda8, get_bda16, gets, readb, mbind, V_bind. rewrite Hr, Hc.
  rewrite (wrap_small 16 rows) by (unfold in_u; lia). cbn [car cp_x cp_y cp_page]. cbn zeta.
  match goal with |- context [let '(a, s0) := ?f s in _] =>
    assert (exists m1, f s = (mk_cursorpos (tty_x t1) (tty_y t1) page, mk_vga m1 (vdev s)) /\
      screen m1 (tty_cell t1) /\ only_page (vmem s) m1 vm rows cols page) as (m1 & -> & Hs1 & Ho1) end.
  { subst t1. unfold tty_char. destruct s as [m dv].
    case_test; [exists m; by split_and!|]. case_test.
    { exists m. split_and!; [|done..]. unfold mret, V_ret. cbn. do 2 f_equal. case_test; f_equal; lia. }
    case_test; [exists m; by split_and!|]. case_test.
    { exists m. split_and!; [|done..]. cbn. rewrite wrap_small by (unfold in_u; lia). done. }
    case_test.
    { apply write_tab_screen; try done. pose proof (Z.mod_pos_bound (tty_x t) 8). lia. }
    destruct (write_char_screen (mk_vga m dv) (tty_cell t) (tty_y t) (tty_x t) ch at_ Hs Hy Hx) as (m1 & -> & ? & ?).
    exists m1. split_and!; [|done..]. cbn. rewrite wrap_small by (unfold in_u; lia). done. }
  cbn [cp_x cp_y cp_page].
  set (t2 := tty_wrap cols t1).
  assert ((if tty_x t1 =? cols then mk_cursorpos 0 (u8 (tty_y t1 + 1)) page
    else mk_cursorpos (tty_x t1) (tty_y t1) page) = mk_cursorpos (tty_x t2) (tty_y t2) page /\ tty_cell t2 = tty_cell t1 /\
    0 <= tty_y t2 <= rows)
    as (-> & Hcell & Hy2).
  { subst t2. unfold tty_wrap. case_test; cbn; [|done]. rewrite wrap_small by (unfold in_u; lia). split_and!; done || lia. }
  cbn [cp_x cp_y cp_page]. subst t'. unfold tty_putc, tty_scroll. fold t1. fold t2.
  case_test; [exists m1; rewrite Hcell; by split_and!|]. cbn [tty_x tty_y tty_cell].
  destruct (scroll_one_screen (mk_vga m1 (vdev s)) _ Hs1) as (m2 & -> & Hs2 & Ho2). exists m2. rewrite Hcell.
  split_and!; [|done|by eapply only_page_trans]. cbn. rewrite wrap_small by (unfold in_u; lia). done.
Qed.
End Teletype.

(** ** The service and the screen *)

Section Service.
Context {D : Type} `{VgaDevice D} (lk : vga_link).
Context (vm : vgamode_s) (rows cols page : Z).
Implicit Types s : vga D.

(** Page [page] is active, shows the cells of [t] and has its cursor. *)
Definition terminal (s : vga D) (t : tty) : Prop :=
  vmem s (bda "video_page") = page /\ 0 <= page < 8 /\
  screen vm rows cols page (vmem s) (tty_cell t) /\
  readw (vmem s) (bda_cursor_pos page) = tty_y t * 256 + tty_x t /\
  0 <= tty_x t < cols /\ 0 <= tty_y t < rows.

(** The bytes that the teletype service may change. *)
Definition tty_bytes (a : Z) : bool :=
  let base := page_base vm rows cols page in
  (base <=? a) && (a <? base + 2 * cols * rows) || (a =? bda_cursor_pos page) || (a =? bda_cursor_pos page + 1).

Lemma set_cursor_hw address s : exists d, vgahw_set_cursor_pos address s = (tt, mk_vga (vmem s) d).
Proof using. unfold vgahw_set_cursor_pos, get_crtc, get_bda16, gets, outb, mbind, V_bind. cbn. eauto. Qed.

Lemma get_cursor_pos_terminal s t :
  terminal s t -> get_cursor_pos 0xff s = (mk_cursorpos (tty_x t) (tty_y t) page, s).
Proof using.
  intros (Hp & Hpr & Hs & Hcur & Hx & Hy). pose proof Hs as ((_ & _ & _ & _ & Hr & Hc) & _ & _).
  unfold get_cursor_pos, get_bda8, gets, readb, mbind, V_bind. cbn [Z.eqb Pos.eqb]. rewrite Hp.
  rewrite (proj2 (Z.ltb_ge 7 page)) by lia. cbn. rewrite Hcur. unfold mret, V_ret. do 2 f_equal.
  - rewrite Z.add_comm. change 256 with (2 ^ 8). apply wrap_lo; [lia|]. unfold in_u. lia.
  - rewrite Z.add_comm. change 256 with (2 ^ 8). rewrite shiftr_hi by (unfold in_u; lia). apply wrap_small. unfold in_u. lia.
Qed.

Lemma cursor_low : 0 <= page < 8 -> bda_cursor_pos page + 1 < 0xb0000 /\
  (forall f, In f ["video_mode"; "video_rows"; "video_page"] -> bda f <> bda_cursor_pos page /\ bda f <> bda_cursor_pos page + 1) /\
  (bda "video_cols" + 1 < bda_cursor_pos page).
Proof using.
  intros Hp. unfold bda_cursor_pos. change (bda "cursor_pos") with 0x450. split_and!; [lia| |].
  - intros f Hf. repeat (destruct Hf as [<-|Hf]; [vm_compute (bda _); lia|]). done.
  - change (bda "video_cols") with 0x44a. lia.
Qed.

Lemma teletype_step s t ch at_ :
  terminal s t -> exists s', 
    (cp ← write_teletype (mk_cursorpos (tty_x t) (tty_y t) page) (mk_carattr ch at_ false); set_cursor_pos cp) s = (tt, s') /\
    terminal s' (tty_putc rows cols t ch) /\ forall a, tty_bytes a = false -> vmem s' a = vmem s a.
Proof using.
  intros (Hp & Hpr & Hs & Hcur & Hx & Hy).
  destruct (write_teletype_screen vm rows cols page ltac:(lia) s t ch at_ Hs Hx Hy) as (Hx' & Hy' & m1 & E & Hs1 & Ho1).
  set (t' := tty_putc rows cols t ch) in *. destruct (cursor_low Hpr) as (Hlow & Hf & Hcols).
  pose proof Hs1 as (Ht1 & Hb1 & Hsh1). pose proof (base_plain vm rows cols page ltac:(lia) m1 Ht1) as Hpl.
  pose proof Ht1 as (_ & _ & _ & _ & Hrb & Hcb).
  unfold plain, SEG_GRAPH in Hpl.
  set (m2 := writew m1 (bda_cursor_pos page) (Z.lor (Z.shiftl (tty_y t') 8) (tty_x t'))).
  assert (forall a, a <> bda_cursor_pos page -> a <> bda_cursor_pos page + 1 -> m2 a = m1 a) as E2
    by (intros; by apply writew_other).
  assert (terminal (mk_vga m2 (vdev s)) t') as Hterm.
  { unfold terminal. cbn [vmem]. destruct (Hf "video_page") as [? ?]; [by right; right; left|].
    split_and!; try lia.
    - rewrite E2 by done. rewrite (only_page_low vm rows cols page ltac:(lia) (vmem s) m1); [done|apply Hs|done|vm_compute; done].
    - split_and!.
      + unfold text_mode. destruct (Hf "video_mode"); [by left|]. destruct (Hf "video_rows"); [by right; left|].
        rewrite !E2 by done. rewrite (readw_ext m1 m2) by (apply E2; lia). apply Ht1.
      + by apply bytes_writew.
      + intros r c Hr Hc. pose proof (addr_bounds vm rows cols page r c Hr Hc). rewrite <- (Hsh1 r c) by done.
        apply readw_ext; apply E2; lia.
    - subst m2. rewrite readw_writew, Z.lor_comm, lor_shiftl by lia. rewrite wrap_small by (unfold in_u; lia). lia. }
  assert (forall a, tty_bytes a = false -> m2 a = vmem s a) as Hsame.
  { intros a Ha. unfold tty_bytes in Ha. apply orb_false_iff in Ha as [Ha Ha2]. apply orb_false_iff in Ha as [Ha Ha1].
    bool_to_prop. rewrite E2 by done. apply Ho1. lia. }
  unfold mbind, V_bind. rewrite E. unfold set_cursor_pos, modify, get_bda8, get_bda16, gets, readb, mbind, V_bind.
  cbn [cp_x cp_y cp_page vmem vdev]. rewrite (proj2 (Z.ltb_ge 7 page)) by lia.
  cbn [vmem vdev]. fold m2.
  destruct Hterm as (Hpg & Hrest). cbn [vmem] in Hpg. rewrite Hpg, Z.eqb_refl. cbn [negb vmem vdev].
  destruct (set_cursor_hw (u16 (SCREEN_IO_START (readw m2 (bda "video_cols")) (u16 (m2 (bda "video_rows") + 1)) page + tty_x t' +
    tty_y t' * readw m2 (bda "video_cols"))) (mk_vga m2 (vdev s))) as (d & ->).
  exists (mk_vga m2 d). split_and!; [done|split; done|done].
Qed.

(** C7.  The teletype function of interrupt 0x10 is the abstract terminal: from a screen that
    shows [t], with the cursor on it, the call leaves a screen that shows [t] after the
    character (printed, or a bell, back space, tab, line feed or carriage return, with
    wrapping and scrolling), the cursor still on it; only the cells of the active page
    and its cursor word in the data area may change. *)
Theorem teletype_refines regs s t :
  terminal s t -> ah regs = 0x0e ->
  exists s', handle_10 lk regs s = (Some regs, s') /\ terminal s' (tty_putc rows cols t (al regs)) /\
    forall a, tty_bytes a = false -> vmem s' a = vmem s a.
Proof using.
  intros Ht Hah. destruct (teletype_step s t (al regs) (bl regs) Ht) as (s' & E & Ht' & Hs).
  exists s'. split_and!; [|done|done].
  unfold handle_10. rewrite Hah. unfold handle_100e, mbind, V_bind in *. rewrite (get_cursor_pos_terminal s t Ht).
  destruct (write_teletype _ _ s) as [cp s1]. by rewrite E.
Qed.

(** *** [printf] through interrupt 0x10 *)

Definition int10_putc (s : vga D) (c : Z) : vga D := snd (handle_10 lk (teletype_regs c) s).

(** [putc_screen] with the call of interrupt 0x10 served by this firmware. *)
Definition vga_putc (s : vga D) (c : Z) : vga D :=
  let s := snd (outb c PORT_BIOS_DEBUG s) in
  let s := if c =? 10 then int10_putc s 13 else s in
  int10_putc s c.

#[local] Instance vga_sink : Sink (vga D) := {
  sink_read s a := Some (vmem s a);
  sink_putc := vga_putc }.

(** The memory that the format and its strings may be in. *)
Definition beside_screen (m : memory) (a : Z) : option Z := if tty_bytes a then None else Some (m a).

Definition vga_follows (m : memory) (t0 : tty) (t : trace) (s : vga D) : Prop :=
  tr_mem t = beside_screen m /\ terminal s (foldl (tty_putc rows cols) t0 (flat_map crlf (tr_out t))) /\
  forall a, tty_bytes a = false -> vmem s a = m a.

Lemma int10_putc_terminal s t c :
  in_u 8 c -> terminal s t ->
  terminal (int10_putc s c) (tty_putc rows cols t c) /\ forall a, tty_bytes a = false -> vmem (int10_putc s c) a = vmem s a.
Proof using.
  intros Hc Ht. unfold int10_putc.
  assert (al (teletype_regs c) = c) as Hal by (unfold teletype_regs; reg_simpl; by apply wrap_small).
  assert (ah (teletype_regs c) = 0x0e) as Hah by (unfold teletype_regs; by reg_simpl).
  destruct (teletype_step s t c (bl (teletype_regs c)) Ht) as (s' & E & Ht' & Hs).
  assert (handle_10 lk (teletype_regs c) s = (Some (teletype_regs c), s')) as ->; [|done].
  unfold handle_10. rewrite Hah. unfold handle_100e, mbind, V_bind in *. rewrite (get_cursor_pos_terminal s t Ht), Hal.
  destruct (write_teletype _ _ s) as [cp s1]. by rewrite E.
Qed.

Lemma vga_putc_follows m t0 t s c :
  vga_follows m t0 t s -> in_u 8 c -> vga_follows m t0 (sink_putc t c) (vga_putc s c).
Proof using.
  intros (Hm & Ht & Hs) Hc. unfold vga_follows. cbn [sink_putc trace_sink tr_mem tr_out].
  split; [done|]. rewrite flat_map_app, foldl_app. cbn [flat_map]. rewrite app_nil_r. unfold vga_putc, crlf.
  set (t1 := foldl _ t0 _) in *. set (s1 := snd (outb c PORT_BIOS_DEBUG s)).
  assert (terminal s1 t1 /\ forall a, tty_bytes a = false -> vmem s1 a = m a) as [Ht1 Hs1] by done.
  case_test; cbn [foldl].
  - destruct (int10_putc_terminal s1 t1 13 ltac:(unfold in_u; lia) Ht1) as [Ht2 Hs2].
    destruct (int10_putc_terminal (int10_putc s1 13) _ c Hc Ht2) as [Ht3 Hs3].
    split; [done|]. intros a Ha. by rewrite Hs3, Hs2, Hs1.
  - destruct (int10_putc_terminal s1 t1 c Hc Ht1) as [Ht2 Hs2].
    split; [done|]. intros a Ha. by rewrite Hs2, Hs1.
Qed.

(** What is printed is what the screen shows: formatting with each character sent to
    interrupt 0x10, when the format and its strings do not lie in the screen, returns,
    and the screen is the abstract terminal after the formatted text, newlines as
    carriage return and line feed. *)
Theorem printf_shows_text fuel s t0 fmt args tr :
  terminal s t0 ->
  bvprintf fuel (mk_trace (beside_screen (vmem s)) []) fmt args = Some tr ->
  exists s', bvprintf fuel s fmt args = Some s' /\
    terminal s' (foldl (tty_putc rows cols) t0 (flat_map crlf (tr_out tr))) /\
    forall a, tty_bytes a = false -> vmem s' a = vmem s a.
Proof using.
  intros Ht Htr.
  destruct (bvprintf_sim (vga_follows (vmem s) t0)) with fuel (mk_trace (beside_screen (vmem s)) []) s fmt args tr
    as (s' & E & _ & HR); try done.
  { intros a b x v (Hm & _ & Hs) Hx. cbn in *. rewrite Hm in Hx. unfold beside_screen in Hx.
    destruct (tty_bytes x) eqn:Hb; [done|]. by rewrite Hs. }
  { intros. by apply vga_putc_follows. }
  by exists s'.
Qed.
End Service.

(** ** Witnesses *)

(** An adapter whose ports do nothing. *)
#[export] Instance silent_device : VgaDevice unit := {
  dev_inb _ d := (0, d); dev_inw _ d := (0, d); dev_outb _ _ d := d; dev_outw _ _ d := d;
  graph_read _ d := (0, d); graph_write _ _ d := d }.

Definition demo_link : vga_link :=
  mk_vga_link 0xc000 0x4000 0x4800 0x5600 0x6600 0x6610 (fun _ => 0x3000) 0x2ff0 0x2f00 0x2000 0x2e00 0x100 2 0x1f.

(** Mode 3 with an empty screen. *)
Definition mode3_mem : memory := fun a =>
  if a =? 0x449 then 3 else if a =? 0x44a then 80 else if a =? 0x484 then 24 else 0.
Definition mode3 : vgamode_s := mode_entry 0x03 0x18 CTEXT 4 SEG_CTEXT 0xFF palette2.
Definition mode3_state : vga unit := mk_vga mode3_mem tt.

Lemma mode3_text : text_mode mode3_mem mode3 25 80.
Proof. split_and!; [reflexivity..|lia|lia|lia|lia]. Qed.

Lemma mode3_bytes : bytes mode3_mem.
Proof. intros a. unfold mode3_mem, in_u. addr_cases; lia. Qed.

Lemma mode3_terminal : terminal mode3 25 80 0 mode3_state (mk_tty 0 0 (fun _ _ => 0)).
Proof.
  split_and!; cbn; try lia; try reflexivity.
  split_and!; [apply mode3_text|apply mode3_bytes|]. intros r c Hr Hc.
  pose proof (addr_bounds mode3 25 80 0 r c Hr Hc) as [Ha _].
  assert (0xb8000 <= cell_addr mode3 25 80 0 r c) as Hb by (etransitivity; [|exact Ha]; vm_compute; done).
  unfold readw, mode3_mem. by addr_decide.
Qed.

Lemma scroll_window_correct_witness :
  text_mode mode3_mem mode3 25 80 /\
  handle_1006 (D := unit) (mk_bregs 0 0 0 0 0 0 0 0x505 0x0601 0) mode3_state =
    (mk_bregs 0 0 0 0 0 0 0 0x505 0x0601 0, mode3_state).
Proof.
  split; [apply mode3_text|].
  destruct (scroll_window_correct mode3 25 80 (mk_bregs 0 0 0 0 0 0 0 0x505 0x0601 0) mode3_state mode3_text mode3_bytes)
    as [_ H]. apply H. vm_compute. intros [E _]. by apply E.
Defined.

Lemma teletype_refines_witness :
  terminal mode3 25 80 0 mode3_state (mk_tty 0 0 (fun _ _ => 0)) /\
  exists s', handle_10 demo_link (teletype_regs 0x41) mode3_state = (Some (teletype_regs 0x41), s') /\
    terminal mode3 25 80 0 s' (tty_putc 25 80 (mk_tty 0 0 (fun _ _ => 0)) (al (teletype_regs 0x41))) /\
    forall a, tty_bytes mode3 25 80 0 a = false -> vmem s' a = mode3_mem a.
Proof.
  split; [apply mode3_terminal|].
  apply (teletype_refines demo_link mode3 25 80 0 (teletype_regs 0x41) mode3_state); [apply mode3_terminal|reflexivity].
Defined.

(** The same with a format at 0x5000. *)
Definition mode3_fmt : memory := fun a =>
  if a =? 0x5000 then 0x25 else if a =? 0x5001 then 0x64 else if a =? 0x5002 then 10 else mode3_mem a.
Definition mode3_fmt_state : vga unit := mk_vga mode3_fmt tt.

Lemma mode3_fmt_terminal : terminal mode3 25 80 0 mode3_fmt_state (mk_tty 0 0 (fun _ _ => 0)).
Proof.
  split_and!; cbn; try lia; try reflexivity.
  split_and!; [split_and!; [reflexivity..|lia|lia|lia|lia]| |].
  { intros a. unfold mode3_fmt. repeat case_test; try apply mode3_bytes; unfold in_u; lia. }
  intros r c Hr Hc. pose proof (addr_bounds mode3 25 80 0 r c Hr Hc) as [Ha _].
  assert (0xb8000 <= cell_addr mode3 25 80 0 r c) as Hb by (etransitivity; [|exact Ha]; vm_compute; done).
  unfold readw, mode3_fmt, mode3_mem. by addr_decide.
Qed.

Lemma printf_shows_text_witness :
  terminal mode3 25 80 0 mode3_fmt_state (mk_tty 0 0 (fun _ _ => 0)) /\
  exists s', bvprintf (H := vga_sink demo_link) 9 mode3_fmt_state 0x5000 [42] = Some s' /\
    terminal mode3 25 80 0 s' (foldl (tty_putc 25 80) (mk_tty 0 0 (fun _ _ => 0)) [0x34; 0x32; 13; 10]) /\
    forall a, tty_bytes mode3 25 80 0 a = false -> vmem s' a = mode3_fmt a.
Proof.
  split; [apply mode3_fmt_terminal|].
  apply (printf_shows_text demo_link mode3 25 80 0 9 mode3_fmt_state (mk_tty 0 0 (fun _ _ => 0)) 0x5000 [42]
    (mk_trace (beside_screen mode3 25 80 0 mode3_fmt) [0x34; 0x32; 10])); [apply mode3_fmt_terminal|reflexivity].
Defined.
