(* ===== verification/VgaState.v ===== *)
(** * Pixels and saved state: more of [vgafb.c] and [vga.c]

    What a pixel written by interrupt 0x10 reads back as, and that the data area saved
    by function 0x1c comes back.  Runs at the end show where the code does not do what
    it means to. *)

From Stdlib Require Import FunctionalExtensionality.
From S2P Require Import Prelude BiosUtil Bregs Output VgaTables VgaIo VgaFb Vga VgaText.
Local Open Scope Z_scope.
Local Open Scope coremu_scope.

(** ** Pixels of two bits *)

Section Fields.
Context (sh : Z) (Hsh : 0 <= sh).

(** Store a field of [k] bits at [sh], and read it back. *)
Lemma field_same k data v :
  0 <= k -> Z.land (Z.shiftr (Z.lor (Z.ldiff data (Z.shiftl (Z.ones k) sh)) (Z.shiftl (Z.land v (Z.ones k)) sh)) sh) (Z.ones k)
  = Z.land v (Z.ones k).
Proof using Hsh.
  intros Hk. apply Z.bits_inj'. intros i Hi.
  rewrite !Z.land_spec, Z.shiftr_spec, Z.lor_spec, Z.ldiff_spec, !Z.shiftl_spec, Z.land_spec by lia.
  replace (i + sh - sh) with i by lia. destruct (Z.testbit (Z.ones k) i); simpl; [|by rewrite !andb_false_r].
  by rewrite !andb_false_r, !andb_true_r.
Qed.

(** A field beside it is not changed. *)
Lemma field_other k sh' data v :
  0 <= k -> 0 <= sh' -> sh' + k <= sh \/ sh + k <= sh' ->
  Z.land (Z.shiftr (Z.lor (Z.ldiff data (Z.shiftl (Z.ones k) sh)) (Z.shiftl (Z.land v (Z.ones k)) sh)) sh') (Z.ones k)
  = Z.land (Z.shiftr data sh') (Z.ones k).
Proof using Hsh.
  intros Hk Hsh' Hd. apply Z.bits_inj'. intros i Hi.
  rewrite !Z.land_spec, !Z.shiftr_spec, Z.lor_spec, Z.ldiff_spec, !Z.shiftl_spec, Z.land_spec by lia.
  rewrite (Z.testbit_ones_nonneg k i) by lia. destruct (Z.ltb_spec i k); [|by rewrite !andb_false_r].
  assert (Z.testbit (Z.ones k) (i + sh' - sh) = false) as ->; [|by rewrite !andb_false_r, orb_false_r, !andb_true_r].
  destruct (Z.lt_ge_cases (i + sh' - sh) 0); [by apply Z.testbit_neg_r|].
  rewrite Z.testbit_ones_nonneg by lia. apply Z.ltb_ge. lia.
Qed.

Lemma field_xor k data v :
  0 <= k -> Z.land (Z.shiftr (Z.lxor data (Z.shiftl (Z.land v (Z.ones k)) sh)) sh) (Z.ones k)
  = Z.lxor (Z.land (Z.shiftr data sh) (Z.ones k)) (Z.land v (Z.ones k)).
Proof using Hsh.
  intros Hk. apply Z.bits_inj'. intros i Hi.
  rewrite !Z.land_spec, !Z.lxor_spec, !Z.land_spec, !Z.shiftr_spec, Z.lxor_spec, Z.shiftl_spec, Z.land_spec by lia.
  replace (i + sh - sh) with i by lia. by destruct (Z.testbit (Z.ones k) i), (Z.testbit data _), (Z.testbit v i).
Qed.

Lemma field_xor_other k sh' data v :
  0 <= k -> 0 <= sh' -> sh' + k <= sh \/ sh + k <= sh' ->
  Z.land (Z.shiftr (Z.lxor data (Z.shiftl (Z.land v (Z.ones k)) sh)) sh') (Z.ones k)
  = Z.land (Z.shiftr data sh') (Z.ones k).
Proof using Hsh.
  intros Hk Hsh' Hd. apply Z.bits_inj'. intros i Hi.
  rewrite !Z.land_spec, !Z.shiftr_spec, Z.lxor_spec, Z.shiftl_spec, Z.land_spec by lia.
  rewrite (Z.testbit_ones_nonneg k i) by lia. destruct (Z.ltb_spec i k); [|by rewrite !andb_false_r].
  assert (Z.testbit (Z.ones k) (i + sh' - sh) = false) as ->; [|by rewrite andb_false_r, xorb_false_r].
  destruct (Z.lt_ge_cases (i + sh' - sh) 0); [by apply Z.testbit_neg_r|].
  rewrite Z.testbit_ones_nonneg by lia. apply Z.ltb_ge. lia.
Qed.
End Fields.

(** A low part of a byte is not lost in a store to a byte. *)
Lemma land_shiftr_u8 x sh : 0 <= sh -> sh + 2 <= 8 -> Z.land (Z.shiftr (u8 x) sh) 3 = Z.land (Z.shiftr x sh) 3.
Proof.
  intros Hs Hb. apply Z.bits_inj'. intros i Hi. change 3 with (Z.ones 2).
  rewrite !Z.land_spec, !Z.shiftr_spec by lia. rewrite (Z.testbit_ones_nonneg 2 i) by lia.
  destruct (Z.ltb_spec i 2); [|by rewrite !andb_false_r]. f_equal. apply Z.mod_pow2_bits_low. lia.
Qed.

Section Pixels.
Context {D : Type} `{VgaDevice D}.
Implicit Types s : vga D.

(** The byte of a pixel with two bits and the place of the pixel in it. *)
Definition cga_addr (x y : Z) : Z :=
  SEG_CTEXT * 16 + (Z.shiftr x 2 + Z.shiftr y 1 * 80 + (if Z.land y 1 =? 0 then 0 else 0x2000)).
Definition cga_shift (x : Z) : Z := (3 - Z.land x 3) * 2.
Definition cga_pixel (m : memory) (x y : Z) : Z := Z.land (Z.shiftr (m (cga_addr x y)) (cga_shift x)) 3.

Definition cga4 (m : memory) (vm : vgamode_s) : Prop :=
  find_vga_entry (m (bda "video_mode")) = Some vm /\ memmodel vm = CGA /\ pixbits vm = 2.

Lemma cga_shift_range x : 0 <= cga_shift x <= 6.
Proof using. unfold cga_shift. change 3 with (Z.ones 2) at 2 4. rewrite Z.land_ones by lia. pose proof (Z.mod_pos_bound x (2 ^ 2)). lia. Qed.

Lemma cga_addr_eq x y : 0 <= x -> 0 <= y ->
  cga_addr x y = 0xb8000 + x / 4 + y / 2 * 80 + y mod 2 * 0x2000 /\ cga_shift x = (3 - x mod 4) * 2.
Proof using.
  intros Hx Hy. unfold cga_addr, cga_shift, SEG_CTEXT. change 3 with (Z.ones 2) at 2. change 1 with (Z.ones 1) at 2.
  rewrite !Z.land_ones, !Z.shiftr_div_pow2 by lia. change (2 ^ 2) with 4. change (2 ^ 1) with 2. split; [|done].
  pose proof (Z.mod_pos_bound y 2). case_test; lia.
Qed.

(** Two pixels of the screen share a byte only beside each other. *)
Lemma cga_addr_inj x y x' y' :
  0 <= x < 320 -> 0 <= y < 200 -> 0 <= x' < 320 -> 0 <= y' < 200 ->
  cga_addr x y = cga_addr x' y' -> x / 4 = x' / 4 /\ y = y'.
Proof using.
  intros Hx Hy Hx' Hy'. destruct (cga_addr_eq x y) as [-> _]; [lia..|]. destruct (cga_addr_eq x' y') as [-> _]; [lia..|].
  Z.to_euclidean_division_equations. lia.
Qed.

Lemma read_pixel_cga4 vm x y s :
  cga4 (vmem s) vm -> 0 <= x -> 0 <= y -> vgafb_read_pixel x y s = (cga_pixel (vmem s) x y, s).
Proof using.
  intros (Hf & Hm & Hb) Hx Hy. unfold vgafb_read_pixel, get_bda8, gets, readb, mbind, V_bind. rewrite Hf, Hm, Hb.
  rewrite far_readb_plain.
  - unfold cga_pixel, cga_addr. cbn. do 3 f_equal. by destruct (Z.land y 1 =? 0); cbn; rewrite ?Z.add_0_r.
  - unfold plain, SEG_CTEXT, SEG_GRAPH. pose proof (Z.shiftr_nonneg x 2). pose proof (Z.shiftr_nonneg y 1). case_test; lia.
Qed.

Definition set_pixel (data color x : Z) : Z :=
  let attr := Z.shiftl (Z.land color 3) (cga_shift x) in
  if negb (Z.land color 0x80 =? 0) then Z.lxor data attr
  else Z.lor (Z.ldiff data (Z.shiftl 3 (cga_shift x))) attr.

Lemma write_pixel_cga4 vm color x y s :
  cga4 (vmem s) vm -> 0 <= x -> 0 <= y ->
  vgafb_write_pixel color x y s =
  (tt, mk_vga (writeb (vmem s) (cga_addr x y) (set_pixel (vmem s (cga_addr x y)) color x)) (vdev s)).
Proof using.
  intros (Hf & Hm & Hb) Hx Hy. unfold vgafb_write_pixel, get_bda8, gets, readb, mbind, V_bind. rewrite Hf, Hm, Hb.
  cbn [Z.eqb Pos.eqb]. set (off := if negb _ then _ else _).
  assert (SEG_CTEXT * 16 + off = cga_addr x y) as Ea.
  { unfold off, cga_addr. by destruct (Z.land y 1 =? 0); cbn; rewrite ?Z.add_0_r. }
  assert (plain (cga_addr x y)) as Hp.
  { unfold plain, SEG_GRAPH. destruct (cga_addr_eq x y Hx Hy) as [-> _].
    pose proof (Z.div_pos x 4). pose proof (Z.div_pos y 2). pose proof (Z.mod_pos_bound y 2). lia. }
  rewrite far_readb_plain by (by rewrite Ea). rewrite far_writeb_plain by (by rewrite Ea). rewrite Ea.
  pose proof (cga_shift_range x) as Hs. fold (cga_shift x).
  assert (forall v, in_u 2 v -> u8 (Z.shiftl v (cga_shift x)) = Z.shiftl v (cga_shift x)) as E8.
  { intros v Hv. apply wrap_small. unfold in_u in *. rewrite Z.shiftl_mul_pow2 by lia.
    assert (2 ^ cga_shift x <= 2 ^ 6) by (apply Z.pow_le_mono_r; lia). nia. }
  rewrite !E8; [done|unfold in_u; lia|]. unfold in_u. change 3 with (Z.ones 2). rewrite Z.land_ones by lia.
  apply Z.mod_pos_bound. lia.
Qed.

(** Drawing in the modes with four colours: a pixel written reads back as the colour
    given, or, when bit 7 asks for it, as the exclusive or with what was there; every
    other pixel of the screen is as before. *)
Theorem pixel_roundtrip vm color x y s :
  cga4 (vmem s) vm -> 0 <= x < 320 -> 0 <= y < 200 ->
  exists s', vgafb_write_pixel color x y s = (tt, s') /\
    vgafb_read_pixel x y s' =
      (if Z.land color 0x80 =? 0 then Z.land color 3 else Z.lxor (fst (vgafb_read_pixel x y s)) (Z.land color 3), s') /\
    forall x' y', 0 <= x' < 320 -> 0 <= y' < 200 -> (x', y') <> (x, y) ->
      fst (vgafb_read_pixel x' y' s') = fst (vgafb_read_pixel x' y' s).
Proof using.
  intros Hm Hx Hy. rewrite (write_pixel_cga4 vm) by (done || lia). eexists. split; [done|].
  set (m' := writeb _ _ _).
  assert (cga4 m' vm) as Hm'.
  { destruct Hm as (Hf & ?). split; [|done]. subst m'. rewrite writeb_other; [done|].
    destruct (cga_addr_eq x y) as [-> _]; [lia..|]. change (bda "video_mode") with 0x449.
    pose proof (Z.div_pos x 4). pose proof (Z.div_pos y 2). pose proof (Z.mod_pos_bound y 2). lia. }
  pose proof (cga_shift_range x) as Hsh.
  split.
  - rewrite !(read_pixel_cga4 vm) by (done || lia). cbn [fst vmem]. f_equal. unfold cga_pixel. subst m'.
    rewrite writeb_same, land_shiftr_u8 by lia. unfold set_pixel. change 3 with (Z.ones 2).
    destruct (Z.land color 128 =? 0); cbn [negb]; [apply field_same; lia|apply field_xor; lia].
  - intros x' y' Hx' Hy' Hne. rewrite !(read_pixel_cga4 vm) by (done || lia). cbn [fst vmem].
    unfold cga_pixel. subst m'. pose proof (cga_shift_range x') as Hsh'.
    destruct (Z.eq_dec (cga_addr x' y') (cga_addr x y)) as [Ea|]; [|by rewrite writeb_other].
    destruct (cga_addr_inj x' y' x y) as [Eq ->]; [lia..|done|]. rewrite Ea, writeb_same, land_shiftr_u8 by lia.
    assert (cga_shift x' + 2 <= cga_shift x \/ cga_shift x + 2 <= cga_shift x') as Hd.
    { destruct (cga_addr_eq x y) as [_ ->]; [lia..|]. destruct (cga_addr_eq x' y) as [_ ->]; [lia..|].
      assert (x <> x') by congruence. pose proof (Z.div_mod x 4). pose proof (Z.div_mod x' 4). lia. }
    unfold set_pixel. change 3 with (Z.ones 2).
    destruct (Z.land color 128 =? 0); cbn [negb]; [apply field_other; lia|apply field_xor_other; lia].
Qed.
End Pixels.

(** ** Copies that do not interfere *)

(** Copies [(d, s, n)] of [n] bytes from [s] to [d], one after the other. *)
Definition copy_all (l : list (Z * Z * Z)) (m : memory) : memory :=
  foldl (fun m '(d, s, n) => copied m d s n) m l.

Definition apart (a n b k : Z) : Prop := a + n <= b \/ b + k <= a.

Fixpoint targets_apart (l : list (Z * Z * Z)) : Prop :=
  match l with
  | [] => True
  | (d, _, n) :: l => Forall (fun '(d', _, n') => apart d n d' n') l /\ targets_apart l
  end.

Fixpoint targets_apartb (l : list (Z * Z * Z)) : bool :=
  match l with
  | [] => true
  | (d, _, n) :: l => forallb (fun '(d', _, n') => (d + n <=? d') || (d' + n' <=? d)) l && targets_apartb l
  end.

Lemma targets_apartb_ok l : targets_apartb l = true -> targets_apart l.
Proof.
  induction l as [|[[d s] n] l IH]; [done|]. cbn. intros [Hf Ht]%andb_true_iff. split; [|by apply IH].
  rewrite forallb_forall in Hf. apply Forall_forall. intros [[d' s'] n'] Hin%list_elem_of_In%Hf. unfold apart. lia.
Qed.

Lemma copy_all_outside l m a :
  Forall (fun '(d, _, n) => ~ d <= a < d + n) l -> copy_all l m a = m a.
Proof.
  revert m. induction l as [|[[d s] n] l IH]; intros m Ha; [done|]. apply Forall_cons in Ha as [Hd Ha].
  cbn. fold (copy_all l (copied m d s n)). rewrite IH by done. unfold copied. by destruct (_ && _) eqn:E; bool_to_prop; [lia|].
Qed.

(** When no copy overwrites what another one reads or writes, all of them take effect. *)
Lemma copy_all_spec l m :
  targets_apart l -> (forall d s n d' s' n', (d, s, n) ∈ l -> (d', s', n') ∈ l -> apart d n s' n') ->
  forall d s n k, (d, s, n) ∈ l -> 0 <= k < n -> copy_all l m (d + k) = m (s + k).
Proof.
  revert m. induction l as [|[[d0 s0] n0] l IH]; intros m Ht Hs d s n k Hin Hk; [by apply not_elem_of_nil in Hin|].
  destruct Ht as [Hd Ht]. cbn. fold (copy_all l (copied m d0 s0 n0)).
  apply elem_of_cons in Hin as [Hin|Hin]; simplify_eq.
  - rewrite copy_all_outside; [unfold copied; by case_test; [f_equal; lia|lia]|].
    eapply Forall_impl; [exact Hd|]. intros [[d' s'] n']. unfold apart. lia.
  - rewrite (IH _ Ht) with (s := s) (n := n); [|intros; eapply Hs; by right|done|done].
    unfold copied. case_test; [|done]. pose proof (Hs d0 s0 n0 d s n ltac:(by left) ltac:(by right)). unfold apart in *. lia.
Qed.

Lemma bytes_copied m d s n : bytes m -> bytes (copied m d s n).
Proof. intros Hm a. unfold copied. case_test; apply Hm. Qed.

Lemma bytes_copy_all l m : bytes m -> bytes (copy_all l m).
Proof. revert m. induction l as [|[[d s] n] l IH]; intros m Hm; [done|]. apply IH. by apply bytes_copied. Qed.

Lemma writeb_copied m d s : bytes m -> writeb m d (m s) = copied m d s 1.
Proof.
  intros Hm. extensionality a. unfold writeb, copied. rewrite (wrap_small 8) by apply Hm.
  addr_cases; try lia; try done; f_equal; lia.
Qed.

Lemma writew_copied m d s : bytes m -> writew m d (readw m s) = copied m d s 2.
Proof.
  intros Hm. extensionality a. rewrite readw_sum by done. rewrite writew_eq by apply Hm. unfold writeb, copied.
  rewrite !(wrap_small 8 (m _)) by apply Hm. addr_cases; try lia; try done; f_equal; lia.
Qed.

Lemma writel_copied m d s : bytes m -> writel m d (readl m s) = copied m d s 4.
Proof. intros Hm. extensionality a. by apply movl_spec. Qed.

(** ** The saved data area *)

Section Saved.
Context {D : Type} `{VgaDevice D}.
Context (seg info : Z).
Notation buf := (seg * 16 + info).
(** The buffer is ordinary memory above the data area. *)
Context (Hram : 0x500 <= buf) (Hgraph : buf + saveBDAstate_size <= SEG_GRAPH * 16 \/ SEG_GRAPH * 16 + 0x10000 <= buf).

(** [f] copies [l] in memory and does nothing else. *)
Definition copies (f : V D unit) (l : list (Z * Z * Z)) : Prop :=
  forall m dv, bytes m -> f (mk_vga m dv) = (tt, mk_vga (copy_all l m) dv).

Lemma copies_seq f g l1 l2 : copies f l1 -> copies g l2 -> copies (f;; g) (l1 ++ l2).
Proof using.
  intros Hf Hg m dv Hm. unfold mbind, V_bind. rewrite Hf by done. rewrite Hg by (by apply bytes_copy_all).
  unfold copy_all. by rewrite foldl_app.
Qed.

Lemma copies_assoc {A} (f : V D A) (g : A -> V D unit) (h : V D unit) l :
  copies ((v ← f; g v);; h) l -> copies (v ← f; g v;; h) l.
Proof using.
  intros Hc m dv Hm. rewrite <- (Hc m dv Hm). unfold mbind, V_bind. by destruct (f _).
Qed.

Lemma buf_ram off : 0 <= off < saveBDAstate_size -> in_graph (seg * 16 + (info + off)) = false.
Proof using Hgraph.
  intros Ho. unfold in_graph. apply andb_false_iff. rewrite Z.leb_gt, Z.ltb_ge. lia.
Qed.

Lemma far_writew_ram off v s :
  0 <= off -> off + 1 < saveBDAstate_size ->
  far_writew seg (info + off) v s = (tt, mk_vga (writew (vmem s) (buf + off) v) (vdev s)).
Proof using Hgraph.
  intros. unfold far_writew, mbind, V_bind. rewrite far_writeb_ram by (apply buf_ram; lia).
  rewrite <- Z.add_assoc. rewrite far_writeb_ram by (apply buf_ram; lia). cbn [vmem vdev]. unfold writew.
  by replace (seg * 16 + (info + off)) with (buf + off) by lia; replace (seg * 16 + (info + (off + 1))) with (buf + off + 1) by lia.
Qed.

Lemma far_readw_ram off s :
  0 <= off -> off + 1 < saveBDAstate_size -> far_readw seg (info + off) s = (readw (vmem s) (buf + off), s).
Proof using Hgraph.
  intros. unfold far_readw, mbind, V_bind. rewrite far_readb_ram by (apply buf_ram; lia).
  rewrite <- Z.add_assoc. rewrite far_readb_ram by (apply buf_ram; lia). unfold readw, mret, V_ret.
  by replace (seg * 16 + (info + off)) with (buf + off) by lia; replace (seg * 16 + (info + (off + 1))) with (buf + off + 1) by lia.
Qed.

Lemma far_writel_ram off v s :
  0 <= off -> off + 3 < saveBDAstate_size ->
  far_writel seg (info + off) v s = (tt, mk_vga (writel (vmem s) (buf + off) v) (vdev s)).
Proof using Hgraph.
  intros. unfold far_writel, mbind, V_bind. rewrite far_writew_ram by lia. rewrite <- Z.add_assoc.
  rewrite far_writew_ram by lia. cbn. unfold writel. by rewrite Z.add_assoc.
Qed.

Lemma far_readl_ram off s :
  0 <= off -> off + 3 < saveBDAstate_size -> far_readl seg (info + off) s = (readl (vmem s) (buf + off), s).
Proof using Hgraph.
  intros. unfold far_readl, mbind, V_bind. rewrite far_readw_ram by lia. rewrite <- Z.add_assoc.
  rewrite far_readw_ram by lia. unfold readl. by rewrite Z.add_assoc.
Qed.

(** One saved or restored item of [n] bytes: offset in the buffer, address. *)
Lemma save1 off f : 0 <= off < saveBDAstate_size ->
  copies (v ← gets (fun m => readb m f); far_writeb seg (info + off) v) [(buf + off, f, 1)].
Proof using Hgraph.
  intros Ho m dv Hm. unfold gets, readb, mbind, V_bind. cbn [vmem]. rewrite far_writeb_ram by (by apply buf_ram).
  cbn [vmem vdev]. rewrite writeb_copied by done. by rewrite Z.add_assoc.
Qed.
Lemma save2 off f : 0 <= off -> off + 1 < saveBDAstate_size ->
  copies (v ← gets (fun m => readw m f); far_writew seg (info + off) v) [(buf + off, f, 2)].
Proof using Hgraph.
  intros Ho Ho' m dv Hm. unfold gets, mbind, V_bind. cbn [vmem]. rewrite far_writew_ram by done.
  cbn [vmem vdev]. by rewrite writew_copied.
Qed.
Lemma save4 off f : 0 <= off -> off + 3 < saveBDAstate_size ->
  copies (v ← gets (fun m => readl m f); far_writel seg (info + off) v) [(buf + off, f, 4)].
Proof using Hgraph.
  intros Ho Ho' m dv Hm. unfold gets, mbind, V_bind. cbn [vmem]. rewrite far_writel_ram by done.
  cbn [vmem vdev]. by rewrite writel_copied.
Qed.
Lemma load1 off f : 0 <= off < saveBDAstate_size ->
  copies (v ← far_readb seg (info + off); modify (fun m => writeb m f v)) [(f, buf + off, 1)].
Proof using Hgraph.
  intros Ho m dv Hm. unfold modify, mbind, V_bind. rewrite far_readb_ram by (by apply buf_ram).
  cbn [vmem vdev]. rewrite writeb_copied by done. by rewrite Z.add_assoc.
Qed.
Lemma load2 off f : 0 <= off -> off + 1 < saveBDAstate_size ->
  copies (v ← far_readw seg (info + off); modify (fun m => writew m f v)) [(f, buf + off, 2)].
Proof using Hgraph.
  intros Ho Ho' m dv Hm. unfold modify, mbind, V_bind. rewrite far_readw_ram by done.
  cbn [vmem vdev]. by rewrite writew_copied.
Qed.
Lemma load4 off f : 0 <= off -> off + 3 < saveBDAstate_size ->
  copies (v ← far_readl seg (info + off); modify (fun m => writel m f v)) [(f, buf + off, 4)].
Proof using Hgraph.
  intros Ho Ho' m dv Hm. unfold modify, mbind, V_bind. rewrite far_readl_ram by done.
  cbn [vmem vdev]. by rewrite writel_copied.
Qed.

(** The items: offset in the buffer, address of the item, size. *)
Definition saved_items : list (Z * Z * Z) :=
  let item f n := (offsetof saveBDAstate f, bda f, n) in
  [item "video_mode" 1; item "video_cols" 2; item "video_pagesize" 2; item "crtc_address" 2; item "video_rows" 1;
   item "char_height" 2; item "video_ctl" 1; item "video_switches" 1; item "modeset_ctl" 1; item "cursor_type" 2]
  ++ map (fun i => (offsetof saveBDAstate "cursor_pos" + 2 * i, bda_cursor_pos i, 2)) (seqZ 0 8)
  ++ [item "video_pagestart" 2; item "video_page" 1;
      (offsetof saveBDAstate "font0", 0x1f * 4, 4); (offsetof saveBDAstate "font1", 0x43 * 4, 4)].

Definition save_list : list (Z * Z * Z) := map (fun '(o, f, n) => (buf + o, f, n)) saved_items.
Definition load_list : list (Z * Z * Z) := map (fun '(o, f, n) => (f, buf + o, n)) saved_items.

Lemma for_up_copies n i body l :
  (forall j, i <= j < i + Z.of_nat n -> copies (body j) [l j]) -> copies (for_up n i body) (map l (seqZ i (Z.of_nat n))).
Proof using.
  revert i. induction n as [|n IH]; intros i Hb; [by intros m dv Hm|].
  cbn [for_up]. rewrite seqZ_cons by lia. replace (Z.pred (Z.of_nat (S n))) with (Z.of_nat n) by lia.
  cbn [map]. change (l i :: map l (seqZ (Z.succ i) (Z.of_nat n))) with ([l i] ++ map l (seqZ (i + 1) (Z.of_nat n))).
  apply copies_seq; [apply Hb; lia|]. apply IH. intros j Hj. apply Hb. lia.
Qed.

Lemma save_copies : copies (save_bda_state seg info) save_list.
Proof using Hgraph.
  unfold save_bda_state, save8, save16, get_bda8, get_bda16, save_list, saved_items. rewrite map_app, map_app, map_map.
  cbn [map app].
  do 10 (refine (copies_seq _ _ [_] _ _ _); [(apply save1 || apply save2); vm_compute; done|]).
  apply (copies_seq _ _ (map _ _)).
  { apply (for_up_copies 8 0). intros j Hj. rewrite <- Z.add_assoc. apply save2; change (offsetof saveBDAstate "cursor_pos") with 18; unfold saveBDAstate_size; lia. }
  do 2 (refine (copies_seq _ _ [_] _ _ _); [(apply save1 || apply save2); vm_compute; done|]).
  apply copies_assoc. refine (copies_seq _ _ [_] _ _ _); [apply save4; vm_compute; done|].
  apply save4; vm_compute; done.
Qed.

Lemma load_copies : copies (restore_bda_state seg info) load_list.
Proof using Hgraph.
  unfold restore_bda_state, load8, load16, set_bda8, set_bda16, load_list, saved_items. rewrite map_app, map_app, map_map.
  cbn [map app].
  do 10 (refine (copies_seq _ _ [_] _ _ _); [(apply load1 || apply load2); vm_compute; done|]).
  apply (copies_seq _ _ (map _ _)).
  { apply (for_up_copies 8 0). intros j Hj. rewrite <- Z.add_assoc. apply load2; change (offsetof saveBDAstate "cursor_pos") with 18; unfold saveBDAstate_size; lia. }
  do 2 (refine (copies_seq _ _ [_] _ _ _); [(apply load1 || apply load2); vm_compute; done|]).
  apply copies_assoc. refine (copies_seq _ _ [_] _ _ _); [apply load4; vm_compute; done|].
  apply load4; vm_compute; done.
Qed.

(** Items fit in the buffer and lie in the vectors and the data area, which are below it. *)
Lemma saved_items_range o f n : (o, f, n) ∈ saved_items -> 0 <= o /\ o + n <= saveBDAstate_size /\ 0 <= f /\ f + n <= 0x500.
Proof using.
  intros Hin. assert (Forall (fun '(o, f, n) => 0 <= o /\ o + n <= saveBDAstate_size /\ 0 <= f /\ f + n <= 0x500) saved_items) as HF.
  { vm_compute. repeat constructor; done. }
  rewrite Forall_forall in HF. exact (HF _ Hin).
Qed.

Lemma in_save_list o f n : (o, f, n) ∈ saved_items -> (buf + o, f, n) ∈ save_list.
Proof using. intros Hin. by apply (list_elem_of_fmap_2 (fun '(o, f, n) => (buf + o, f, n)) _ (o, f, n)). Qed.

Lemma in_load_list o f n : (o, f, n) ∈ saved_items -> (f, buf + o, n) ∈ load_list.
Proof using. intros Hin. by apply (list_elem_of_fmap_2 (fun '(o, f, n) => (f, buf + o, n)) _ (o, f, n)). Qed.

(** The buffer does not meet what is saved. *)
Lemma list_apart l d s n d' s' n' : l = save_list \/ l = load_list ->
  (d, s, n) ∈ l -> (d', s', n') ∈ l -> apart d n s' n'.
Proof using Hram.
  unfold apart. intros [-> | ->] ([[o f] k] & E & Hin)%list_elem_of_fmap ([[o' f'] k'] & E' & Hin')%list_elem_of_fmap;
    simplify_eq; apply saved_items_range in Hin, Hin'; unfold saveBDAstate_size in *; lia.
Qed.

Lemma save_list_apart : targets_apart save_list.
Proof using.
  assert (forall l, targets_apart l -> targets_apart (map (fun '(o, f, n) => (buf + o, f, n)) l)) as Hmap.
  { induction l as [|[[d s] n] l IH]; [done|]. cbn. intros [Hd Ht]. split; [|by apply IH].
    apply Forall_map. eapply Forall_impl; [exact Hd|]. intros [[d' s'] n']. unfold apart. cbn. lia. }
  apply Hmap, targets_apartb_ok. vm_compute. done.
Qed.

Lemma load_list_apart : targets_apart load_list.
Proof using.
  assert (forall l, targets_apart (map (fun '(o, f, n) => (f, o, n)) l) ->
    targets_apart (map (fun '(o, f, n) => (f, buf + o, n)) l)) as Hmap.
  { induction l as [|[[d s] n] l IH]; [done|]. cbn. rewrite !Forall_map. intros [Hd Ht]. split; [|by apply IH].
    eapply Forall_impl; [exact Hd|]. by intros [[d' s'] n']. }
  apply Hmap, targets_apartb_ok. vm_compute. done.
Qed.

(** C31.  What function 0x1c saves of the data area comes back: the save changes only the
    buffer; later, whatever happened to memory outside the buffer, the restore puts
    back the mode, the geometry, the cursors of all pages and both font vectors as
    they were, and changes nothing else. *)
Theorem video_state_roundtrip s :
  bytes (vmem s) ->
  exists m1, save_bda_state seg info s = (tt, mk_vga m1 (vdev s)) /\
    (forall a, ~ buf <= a < buf + saveBDAstate_size -> m1 a = vmem s a) /\
    forall m2 dv, bytes m2 -> (forall a, buf <= a < buf + saveBDAstate_size -> m2 a = m1 a) ->
      exists m3, restore_bda_state seg info (mk_vga m2 dv) = (tt, mk_vga m3 dv) /\
        (forall o f n k, (o, f, n) ∈ saved_items -> 0 <= k < n -> m3 (f + k) = vmem s (f + k)) /\
        (forall a, (forall o f n, (o, f, n) ∈ saved_items -> ~ f <= a < f + n) -> m3 a = m2 a).
Proof using Hram Hgraph.
  intros Hb. destruct s as [m dv0]. exists (copy_all save_list m). cbn [vmem vdev]. split_and!.
  - by apply save_copies.
  - intros a Ha. apply copy_all_outside. apply Forall_forall. intros x (y & -> & Hy)%list_elem_of_fmap.
    destruct y as [[o f] n]. cbn. pose proof (saved_items_range o f n Hy). unfold saveBDAstate_size in *. lia.
  - intros m2 dv Hb2 Hsame. exists (copy_all load_list m2). split_and!; [by apply load_copies| |].
    + intros o f n k Hin Hk. pose proof (saved_items_range o f n Hin) as Hr.
      rewrite (copy_all_spec load_list m2 load_list_apart) with (s := buf + o) (n := n); [|intros; eapply (list_apart load_list); eauto|by apply in_load_list|done].
      rewrite Hsame by lia.
      rewrite (copy_all_spec save_list m save_list_apart) with (s := f) (n := n); [done|intros; eapply (list_apart save_list); eauto|by apply in_save_list|done].
    + intros a Ha. apply copy_all_outside. apply Forall_forall. intros x (y & -> & Hy)%list_elem_of_fmap.
      destruct y as [[o f] n]. by apply (Ha o).
Qed.
End Saved.

(** ** Witnesses *)

Definition cga_mem (mode : Z) : memory := fun a =>
  if a =? 0x449 then mode else if a =? 0x44a then 40 else if a =? 0x484 then 24 else 0.
Definition mode4 : vgamode_s := mode_entry 0x04 0x04 CGA 2 SEG_CTEXT 0xFF palette1.

Lemma pixel_roundtrip_witness :
  cga4 (cga_mem 4) mode4 /\
  exists s', vgafb_write_pixel 2 100 51 (mk_vga (cga_mem 4) tt) = (tt, s') /\
    vgafb_read_pixel 100 51 s' = (2, s') /\
    forall x' y', 0 <= x' < 320 -> 0 <= y' < 200 -> (x', y') <> (100, 51) ->
      fst (vgafb_read_pixel x' y' s') = fst (vgafb_read_pixel x' y' (mk_vga (cga_mem 4) tt)).
Proof.
  split; [by split_and!|].
  apply (pixel_roundtrip mode4 2 100 51 (mk_vga (cga_mem 4) tt)); [by split_and!|lia|lia].
Defined.

Lemma video_state_roundtrip_witness :
  0x500 <= 0x9000 * 16 + 0x20 /\
  exists m1, save_bda_state 0x9000 0x20 mode3_state = (tt, mk_vga m1 tt) /\
    (forall a, ~ 0x90020 <= a < 0x90020 + saveBDAstate_size -> m1 a = mode3_mem a) /\
    forall m2 dv, bytes m2 -> (forall a, 0x90020 <= a < 0x90020 + saveBDAstate_size -> m2 a = m1 a) ->
      exists m3, restore_bda_state 0x9000 0x20 (mk_vga m2 dv) = (tt, mk_vga m3 dv) /\
        (forall o f n k, (o, f, n) ∈ saved_items -> 0 <= k < n -> m3 (f + k) = mode3_mem (f + k)) /\
        (forall a, (forall o f n, (o, f, n) ∈ saved_items -> ~ f <= a < f + n) -> m3 a = m2 a).
Proof.
  split; [lia|]. apply (video_state_roundtrip 0x9000 0x20 ltac:(lia) ltac:(vm_compute; left; discriminate) mode3_state).
  apply mode3_bytes.
Defined.

(** ** Where the code does not do what it means to *)

(** In the mode with two colours a pixel is written at [x >> 3] and read at [x >> 2]:
    a pixel that was set reads as not set. *)
Theorem read_pixel_wrong_byte :
  let s := snd (vgafb_write_pixel 1 8 0 (mk_vga (cga_mem 6) tt)) in
  vmem s 0xb8001 = 0x80 /\ fst (vgafb_read_pixel 8 0 s) = 0.
Proof. vm_compute. done. Qed.

(** In the graphics modes a character row takes four lines of each bank, as
    [write_gfx_char_cga] has it, but [scroll_cga] counts eight: function 6 with one line
    puts the third row where the second should go. *)
Definition cga_rows : memory := fun a => if a =? 0xb8140 then 0x11 else if a =? 0xb8280 then 0x22 else cga_mem 4 a.
Theorem scroll_cga_two_rows :
  let s := snd (handle_1006 (mk_bregs 0 0 0 0 0 0 0x0200 0x0000 0x0601 0) (mk_vga cga_rows tt)) in
  vmem s 0xb8000 = 0x22.
Proof. vm_compute. done. Qed.

(** A palette that reads as (10, 20, 30) and remembers what is written to it. *)
Record grey_device := mk_grey_device { gd_reads : Z; gd_writes : list Z }.
#[local] Instance grey_vga : VgaDevice grey_device := {
  dev_inb port d := if port =? VGAREG_DAC_DATA then
    (10 * (gd_reads d mod 3 + 1), mk_grey_device (gd_reads d + 1) (gd_writes d)) else (0, d);
  dev_inw _ d := (0, d);
  dev_outb v port d := if port =? VGAREG_DAC_DATA then mk_grey_device (gd_reads d) (gd_writes d ++ [v]) else d;
  dev_outw _ _ d := d; graph_read _ d := (0, d); graph_write _ _ d := d }.

(** Summing to grey computes the intensity and then stores the colour it read. *)
Theorem grey_scale_keeps_colour :
  gd_writes (vdev (snd (perform_gray_scale_summing 0 1 (mk_vga mode3_mem (mk_grey_device 0 []))))) = [10; 20; 30].
Proof. vm_compute. done. Qed.

(** The table of function 0x1b has its fields one byte late from [colors] on, so the
    fields named after their offsets are not there, and 66 bytes of the caller's 64 are
    cleared. *)
Theorem func_info_misplaced :
  offsetof funcInfo "reserved_2f" = 0x30 /\ offsetof funcInfo "reserved_34" = 0x35 /\
  let m := fun a => if 0x5000 <=? a then 0xff else mode3_mem a in
  vmem (snd (handle_101b demo_link (mk_bregs 0 0x500 0 0 0 0 0 0 0x1b00 0) (mk_vga m tt))) (0x5000 + 65) = 0.
Proof. vm_compute. done. Qed.

(** A font of height zero, which a caller can ask for, ends in a division by zero. *)
Theorem load_font_divide_error :
  fst (handle_10 demo_link (mk_bregs 0 0 0 0 0 0 0 0 0x1110 0) mode3_state) = None.
Proof. vm_compute. done. Qed.
