(* ===== verification/Pci.v ===== *)
(** * PCI: [bios/seabios/src/pci.c], [pci.h], [pciinit.c], [pcibios.c]

    Configuration space is reached through two ports: the command port names a register
    and the data port transfers it.  The command port is always written just before, so
    one access is one operation of the class [PciConfig], which gets the command word,
    the data port and the number of bytes.  Reading changes nothing. *)

From Stdlib Require Import Sorting.Sorted.
From S2P Require Import Prelude BiosUtil Bregs.
Local Open Scope Z_scope.
Local Open Scope coremu_scope.

Class PciConfig (D : Type) := {
  cfg_in : Z -> Z -> Z -> D -> Z;
  cfg_out : Z -> Z -> Z -> Z -> D -> D }.

(** ** Numbers of [pci_regs.h] and [pci_ids.h] *)

Definition PORT_PCI_DATA : Z := 0xcfc.
Definition PCI_VENDOR_ID : Z := 0x00.
Definition PCI_DEVICE_ID : Z := 0x02.
Definition PCI_COMMAND : Z := 0x04.
Definition PCI_COMMAND_IO : Z := 0x1.
Definition PCI_COMMAND_MEMORY : Z := 0x2.
Definition PCI_CLASS_REVISION : Z := 0x08.
Definition PCI_CLASS_DEVICE : Z := 0x0a.
Definition PCI_HEADER_TYPE : Z := 0x0e.
Definition PCI_HEADER_TYPE_BRIDGE : Z := 1.
Definition PCI_HEADER_TYPE_CARDBUS : Z := 2.
Definition PCI_BASE_ADDRESS_0 : Z := 0x10.
Definition PCI_BASE_ADDRESS_SPACE_IO : Z := 0x01.
Definition PCI_BASE_ADDRESS_MEM_MASK : Z := 0xfffffff0.
Definition PCI_BASE_ADDRESS_IO_MASK : Z := 0xfffffffc.
Definition PCI_PRIMARY_BUS : Z := 0x18.
Definition PCI_ROM_ADDRESS : Z := 0x30.
Definition PCI_ROM_ADDRESS_MASK : Z := 0xfffff800.
Definition PCI_INTERRUPT_LINE : Z := 0x3c.
Definition PCI_INTERRUPT_PIN : Z := 0x3d.
Definition PCI_BRIDGE_CONTROL : Z := 0x3e.
Definition PCI_BRIDGE_CTL_VGA : Z := 0x08.
Definition PCI_CLASS_STORAGE_IDE : Z := 0x0101.
Definition PCI_CLASS_DISPLAY_VGA : Z := 0x0300.
Definition PCI_CLASS_SYSTEM_PIC : Z := 0x0800.
Definition PCI_VENDOR_ID_IBM : Z := 0x1014.
Definition PCI_VENDOR_ID_APPLE : Z := 0x106b.
Definition PCI_VENDOR_ID_INTEL : Z := 0x8086.
Definition PCI_DEVICE_ID_INTEL_82371SB_0 : Z := 0x7000.
Definition PCI_DEVICE_ID_INTEL_82371SB_1 : Z := 0x7010.
Definition PCI_DEVICE_ID_INTEL_82371AB_0 : Z := 0x7110.
Definition PCI_DEVICE_ID_INTEL_82371AB : Z := 0x7111.
Definition PCI_DEVICE_ID_INTEL_82371AB_3 : Z := 0x7113.

Section Pci.
Context {D : Type} `{PciConfig D}.

(** ** Configuration space *)

Definition pci_cmd (bdf addr : Z) : Z :=
  u32 (Z.lor (Z.lor 0x80000000 (Z.shiftl (u16 bdf) 8)) (Z.land addr 0xfc)).

Definition pci_config_writel (d : D) (bdf addr val : Z) : D := cfg_out (pci_cmd bdf addr) PORT_PCI_DATA 4 (u32 val) d.
Definition pci_config_writew (d : D) (bdf addr val : Z) : D :=
  cfg_out (pci_cmd bdf addr) (PORT_PCI_DATA + Z.land addr 2) 2 (u16 val) d.
Definition pci_config_writeb (d : D) (bdf addr val : Z) : D :=
  cfg_out (pci_cmd bdf addr) (PORT_PCI_DATA + Z.land addr 3) 1 (u8 val) d.
Definition pci_config_readl (d : D) (bdf addr : Z) : Z := u32 (cfg_in (pci_cmd bdf addr) PORT_PCI_DATA 4 d).
Definition pci_config_readw (d : D) (bdf addr : Z) : Z :=
  u16 (cfg_in (pci_cmd bdf addr) (PORT_PCI_DATA + Z.land addr 2) 2 d).
Definition pci_config_readb (d : D) (bdf addr : Z) : Z :=
  u8 (cfg_in (pci_cmd bdf addr) (PORT_PCI_DATA + Z.land addr 3) 1 d).

Definition pci_config_maskw (d : D) (bdf addr off on : Z) : D :=
  let val := pci_config_readw d bdf addr in
  pci_config_writew d bdf addr (u16 (Z.lor (Z.ldiff val off) on)).

(** ** Enumeration *)

(** The loop of [pci_next]: the first function present from [bdf] on, -1 at [max].  No
    further root buses are configured.  [None]: out of fuel. *)
Fixpoint pci_scan (fuel : nat) (d : D) (bdf max : Z) : option Z :=
  match fuel with
  | O => None
  | S fuel =>
      if max <=? bdf then Some (-1)
      else
        let v := pci_config_readw d bdf PCI_VENDOR_ID in
        if negb (v =? 0x0000) && negb (v =? 0xffff) then Some bdf
        else if pci_bdf_to_fn bdf =? 0 then pci_scan fuel d (bdf + 8) max
        else pci_scan fuel d (bdf + 1) max
  end.

(** The function found and the new [*pmax]. *)
Definition pci_next (d : D) (bdf max : Z) : option (Z * Z) :=
  let bdf :=
    if (pci_bdf_to_fn bdf =? 1) && (Z.land (pci_config_readb d (bdf - 1) PCI_HEADER_TYPE) 0x80 =? 0)
    then bdf + 7 else bdf in
  bdf ← pci_scan (S (Z.to_nat (max - bdf))) d bdf max;
  if bdf =? -1 then Some (-1, max)
  else
    let v := Z.land (pci_config_readb d bdf PCI_HEADER_TYPE) 0x7f in
    if (v =? PCI_HEADER_TYPE_BRIDGE) || (v =? PCI_HEADER_TYPE_CARDBUS) then
      let v := pci_config_readl d bdf PCI_PRIMARY_BUS in
      let newmax := Z.land v 0xff00 + 0x0100 in
      Some (bdf, if max <? newmax then newmax else max)
    else Some (bdf, max).

(** The values of [BDF] in the rounds of [foreachpci] from [pci_next(bdf, &max)] on, and
    the final [MAX]; the body does not change what is enumerated. *)
Fixpoint foreachpci_from (fuel : nat) (d : D) (bdf max : Z) : option (list Z * Z) :=
  match fuel with
  | O => None
  | S fuel =>
      '(b, max) ← pci_next d bdf max;
      if b <? 0 then Some ([], max)
      else
        '(l, max) ← foreachpci_from fuel d (b + 1) max;
        Some (b :: l, max)
  end.
Definition foreachpci (d : D) : option (list Z * Z) := foreachpci_from (Z.to_nat 0x10001) d 0 0x0100.

(** A loop over [foreachpci] that returns at the [count]-th match, -1 when there is none. *)
Fixpoint pci_find_from (fuel : nat) (d : D) (p : Z -> bool) (count : nat) (bdf max : Z) : option Z :=
  match fuel with
  | O => None
  | S fuel =>
      '(b, max) ← pci_next d bdf max;
      if b <? 0 then Some (-1)
      else if negb (p b) then pci_find_from fuel d p count (b + 1) max
      else match count with
           | S count => pci_find_from fuel d p count (b + 1) max
           | O => Some b
           end
  end.
Definition pci_find (d : D) (p : Z -> bool) (count : nat) : option Z :=
  pci_find_from (Z.to_nat 0x10001) d p count 0 0x0100.

Definition pci_find_device (d : D) (vendid devid : Z) : option Z :=
  let id := u32 (Z.lor (Z.shiftl devid 16) vendid) in
  pci_find d (fun bdf => pci_config_readl d bdf PCI_VENDOR_ID =? id) 0.

Definition pci_find_class (d : D) (classid : Z) : option Z :=
  pci_find d (fun bdf => pci_config_readw d bdf PCI_CLASS_DEVICE =? classid) 0.

Fixpoint pci_find_vga (fuel : nat) (d : D) (bdf max : Z) : option Z :=
  match fuel with
  | O => None
  | S fuel =>
      if max <=? bdf then Some (-1)
      else
        let cls := pci_config_readw d bdf PCI_CLASS_DEVICE in
        if (cls =? 0x0000) || (cls =? 0xffff) then
          if pci_bdf_to_fn bdf =? 0 then pci_find_vga fuel d (bdf + 8) max else pci_find_vga fuel d (bdf + 1) max
        else
          let cmd := pci_config_readw d bdf PCI_COMMAND in
          if (cls =? PCI_CLASS_DISPLAY_VGA)
             && (negb (Z.land cmd PCI_COMMAND_IO =? 0) && negb (Z.land cmd PCI_COMMAND_MEMORY =? 0))
          then Some bdf
          else
            let hdr := pci_config_readb d bdf PCI_HEADER_TYPE in
            let ht := Z.land hdr 0x7f in
            let ctrl := pci_config_readb d bdf PCI_BRIDGE_CONTROL in
            if ((ht =? PCI_HEADER_TYPE_BRIDGE) || (ht =? PCI_HEADER_TYPE_CARDBUS))
               && negb (Z.land ctrl PCI_BRIDGE_CTL_VGA =? 0) then
              let pbus := pci_config_readl d bdf PCI_PRIMARY_BUS in
              pci_find_vga fuel d (Z.land pbus 0xff00) (Z.land pbus 0xff00 + 0x100)
            else if (pci_bdf_to_fn bdf =? 0) && (Z.land hdr 0x80 =? 0) then pci_find_vga fuel d (bdf + 8) max
            else pci_find_vga fuel d (bdf + 1) max
  end.

(** ** Interrupt 0x1a, function 0xb1 *)

Definition RET_FUNC_NOT_SUPPORTED : Z := 0x81.
Definition RET_DEVICE_NOT_FOUND : Z := 0x86.
Definition RET_BUFFER_TOO_SMALL : Z := 0x89.
Definition BUILD_BIOS_ADDR : Z := 0xf0000.

(** [pcibios32_entry] is the offset of the 32-bit entry point. *)
Definition handle_1ab101 (pcibios32_entry : Z) (d : D) (regs : bregs) : option bregs :=
  '(_, max) ← foreachpci d;
  Some (set_code_success (set_edi (set_edx (set_cl (set_bx (set_al regs 0x01) 0x0210) (pci_bdf_to_bus (max - 1)))
          0x20494350) (u32 (pcibios32_entry + BUILD_BIOS_ADDR)))).

Definition found_regs (regs : bregs) (b : Z) : bregs :=
  if b <? 0 then set_code_invalid regs RET_DEVICE_NOT_FOUND else set_code_success (set_bx regs b).

Definition handle_1ab102 (d : D) (regs : bregs) : option bregs :=
  let id := u32 (Z.lor (Z.shiftl (cx regs) 16) (dx regs)) in
  b ← pci_find d (fun bdf => pci_config_readl d bdf PCI_VENDOR_ID =? id) (Z.to_nat (si regs));
  Some (found_regs regs b).

Definition handle_1ab103 (d : D) (regs : bregs) : option bregs :=
  let classprog := ecx regs in
  b ← pci_find d (fun bdf => Z.shiftr (pci_config_readl d bdf PCI_CLASS_REVISION) 8 =? classprog) (Z.to_nat (si regs));
  Some (found_regs regs b).

Definition handle_1ab108 (d : D) (regs : bregs) : bregs :=
  set_code_success (set_cl regs (pci_config_readb d (bx regs) (di regs))).
Definition handle_1ab109 (d : D) (regs : bregs) : bregs :=
  set_code_success (set_cx regs (pci_config_readw d (bx regs) (di regs))).
Definition handle_1ab10a (d : D) (regs : bregs) : bregs :=
  set_code_success (set_ecx regs (pci_config_readl d (bx regs) (di regs))).
Definition handle_1ab10b (d : D) (regs : bregs) : D * bregs :=
  (pci_config_writeb d (bx regs) (di regs) (cl regs), set_code_success regs).
Definition handle_1ab10c (d : D) (regs : bregs) : D * bregs :=
  (pci_config_writew d (bx regs) (di regs) (cx regs), set_code_success regs).
Definition handle_1ab10d (d : D) (regs : bregs) : D * bregs :=
  (pci_config_writel d (bx regs) (di regs) (ecx regs), set_code_success regs).

(** [struct pir_header]. *)
Definition pir_header : layout :=
  [("signature", 4); ("version", 2); ("size", 2); ("router_bus", 1); ("router_devfunc", 1); ("exclusive_irqs", 2);
   ("compatible_devid", 4); ("miniport_data", 4); ("reserved", 11); ("checksum", 1)].
Definition pir_header_size : Z := 32.

(** [pir] is the flat address of the table, 0 when there is none. *)
Definition handle_1ab10e (pir : Z) (m : memory) (regs : bregs) : memory * bregs :=
  if pir =? 0 then (m, set_code_invalid regs RET_FUNC_NOT_SUPPORTED)
  else
    let param := es regs * 16 + di regs in
    let bufsize := readw m param in
    let pirsize := u16 (readw m (pir + offsetof pir_header "size") - pir_header_size) in
    let m := writew m param pirsize in
    if bufsize <? pirsize then (m, set_code_invalid regs RET_BUFFER_TOO_SMALL)
    else
      let buf_far := readw m (param + 2) in
      let buf_seg := readw m (param + 4) in
      let m := movsb m (buf_seg * 16 + buf_far) (pir + pir_header_size) (Z.to_nat pirsize) in
      (m, set_code_success (set_bx regs (readw m (pir + offsetof pir_header "exclusive_irqs")))).

Definition handle_1ab1 (pcibios32_entry pir : Z) (d : D) (m : memory) (regs : bregs) : option (D * memory * bregs) :=
  let pure r := Some (d, m, r) in
  let write (r : D * bregs) := Some (fst r, m, snd r) in
  match al regs with
  | 0x01 => r ← handle_1ab101 pcibios32_entry d regs; pure r
  | 0x02 => r ← handle_1ab102 d regs; pure r
  | 0x03 => r ← handle_1ab103 d regs; pure r
  | 0x08 => pure (handle_1ab108 d regs)
  | 0x09 => pure (handle_1ab109 d regs)
  | 0x0a => pure (handle_1ab10a d regs)
  | 0x0b => write (handle_1ab10b d regs)
  | 0x0c => write (handle_1ab10c d regs)
  | 0x0d => write (handle_1ab10d d regs)
  | 0x0e => let '(m, r) := handle_1ab10e pir m regs in Some (d, m, r)
  | _ => pure (set_code_unimplemented regs RET_FUNC_NOT_SUPPORTED)
  end.
End Pci.

(** ** [pciinit.c] *)

Definition PCI_ROM_SLOT : Z := 6.
Definition PCI_NUM_REGIONS : nat := 7.
Definition PORT_ATA1_CMD_BASE : Z := 0x1f0.
Definition PORT_ATA1_CTRL_BASE : Z := 0x3f4.
Definition PORT_ATA2_CMD_BASE : Z := 0x170.
Definition PORT_ATA2_CTRL_BASE : Z := 0x374.
Definition PORT_ACPI_PM_BASE : Z := 0xb000.
Definition PORT_SMB_BASE : Z := 0xb100.
Definition BUILD_PCIMEM_START : Z := 0xf0000000.

(** Host interrupts for the PCI interrupts A to D. *)
Definition pci_irqs (i : Z) : Z := default 0 ([10; 10; 11; 11] !! Z.to_nat i).

(** Configuration space, the next free addresses, and the ports of the edge and level
    register. *)
Record pci_state (D : Type) := mk_pci_state {
  pci_dev : D; pci_bios_io_addr : Z; pci_bios_mem_addr : Z; elcr : list (Z * Z) }.
Arguments mk_pci_state {D} _ _ _ _.
Arguments pci_dev {D} _.
Arguments pci_bios_io_addr {D} _.
Arguments pci_bios_mem_addr {D} _.
Arguments elcr {D} _.

Section PciInit.
Context {D : Type} `{PciConfig D}.
Notation state := (pci_state D).

Definition on_dev (s : state) (f : D -> D) : state :=
  mk_pci_state (f (pci_dev s)) (pci_bios_io_addr s) (pci_bios_mem_addr s) (elcr s).

Definition region_ofs (region_num : Z) : Z :=
  if region_num =? PCI_ROM_SLOT then PCI_ROM_ADDRESS else PCI_BASE_ADDRESS_0 + region_num * 4.

Definition pci_set_io_region_addr (d : D) (bdf region_num addr : Z) : D :=
  pci_config_writel d bdf (region_ofs region_num) addr.

Definition pci_slot_get_pirq (bdf irq_num : Z) : Z :=
  let slot_addend := pci_bdf_to_dev bdf - 1 in
  Z.land (irq_num + slot_addend) 3.

Definition pci_bios_init_bridges (s : state) (bdf : Z) : state :=
  let vendor_id := pci_config_readw (pci_dev s) bdf PCI_VENDOR_ID in
  let device_id := pci_config_readw (pci_dev s) bdf PCI_DEVICE_ID in
  if (vendor_id =? PCI_VENDOR_ID_INTEL)
     && ((device_id =? PCI_DEVICE_ID_INTEL_82371SB_0) || (device_id =? PCI_DEVICE_ID_INTEL_82371AB_0)) then
    let round '(s, e0, e1) i :=
      let irq := pci_irqs i in
      let bit := Z.shiftl 1 (Z.land irq 7) in
      let '(e0, e1) := if Z.shiftr irq 3 =? 0 then (Z.lor e0 bit, e1) else (e0, Z.lor e1 bit) in
      (on_dev s (fun d => pci_config_writeb d bdf (0x60 + i) irq), e0, e1) in
    let '(s, e0, e1) := foldl round (s, 0x00, 0x00) [0; 1; 2; 3] in
    mk_pci_state (pci_dev s) (pci_bios_io_addr s) (pci_bios_mem_addr s) (elcr s ++ [(0x4d0, e0); (0x4d1, e1)])
  else s.

(** What probing region [i] finds: the value read back after writing ones, and the
    device with the old value back. *)
Definition probe_region (d : D) (bdf i : Z) : Z * Z * D :=
  let ofs := region_ofs i in
  let old := pci_config_readl d bdf ofs in
  let '(mask, d) :=
    if i =? PCI_ROM_SLOT then (PCI_ROM_ADDRESS_MASK, pci_config_writel d bdf ofs PCI_ROM_ADDRESS_MASK)
    else
      (if negb (Z.land old PCI_BASE_ADDRESS_SPACE_IO =? 0) then PCI_BASE_ADDRESS_IO_MASK else PCI_BASE_ADDRESS_MEM_MASK,
       pci_config_writel d bdf ofs 0xffffffff) in
  let val := pci_config_readl d bdf ofs in
  (val, mask, pci_config_writel d bdf ofs old).

Definition map_region (s : state) (bdf i : Z) : state :=
  let '(val, mask, d) := probe_region (pci_dev s) bdf i in
  let s := on_dev s (fun _ => d) in
  if val =? 0 then s
  else
    let size := u32 (u32 (Z.lnot (Z.land val mask)) + 1) in
    if negb (Z.land val PCI_BASE_ADDRESS_SPACE_IO =? 0) then
      let addr := ALIGN (pci_bios_io_addr s) size in
      mk_pci_state (pci_set_io_region_addr (pci_dev s) bdf i addr) (u32 (addr + size)) (pci_bios_mem_addr s) (elcr s)
    else
      let addr := ALIGN (pci_bios_mem_addr s) size in
      mk_pci_state (pci_set_io_region_addr (pci_dev s) bdf i addr) (pci_bios_io_addr s) (u32 (addr + size)) (elcr s).

Definition default_map (s : state) (bdf : Z) : state :=
  foldl (fun s i => map_region s bdf i) s (seqZ 0 (Z.of_nat PCI_NUM_REGIONS)).

Definition pci_bios_init_device (s : state) (bdf : Z) : state :=
  let class := pci_config_readw (pci_dev s) bdf PCI_CLASS_DEVICE in
  let vendor_id := pci_config_readw (pci_dev s) bdf PCI_VENDOR_ID in
  let device_id := pci_config_readw (pci_dev s) bdf PCI_DEVICE_ID in
  let set s i a := on_dev s (fun d => pci_set_io_region_addr d bdf i a) in
  let s :=
    if class =? PCI_CLASS_STORAGE_IDE then
      if (vendor_id =? PCI_VENDOR_ID_INTEL)
         && ((device_id =? PCI_DEVICE_ID_INTEL_82371SB_1) || (device_id =? PCI_DEVICE_ID_INTEL_82371AB)) then
        let s := on_dev s (fun d => pci_config_writew d bdf 0x40 0x8000) in
        let s := on_dev s (fun d => pci_config_writew d bdf 0x42 0x8000) in
        default_map s bdf
      else
        set (set (set (set s 0 PORT_ATA1_CMD_BASE) 1 PORT_ATA1_CTRL_BASE) 2 PORT_ATA2_CMD_BASE) 3 PORT_ATA2_CTRL_BASE
    else if class =? PCI_CLASS_SYSTEM_PIC then
      if (vendor_id =? PCI_VENDOR_ID_IBM) && ((device_id =? 0x0046) || (device_id =? 0xFFFF))
      then set s 0 (0x80800000 + 0x00040000) else s
    else if class =? 0xff00 then
      if (vendor_id =? PCI_VENDOR_ID_APPLE) && ((device_id =? 0x0017) || (device_id =? 0x0022))
      then set s 0 0x80800000 else s
    else default_map s bdf in
  let s := on_dev s (fun d => pci_config_maskw d bdf PCI_COMMAND 0 (Z.lor PCI_COMMAND_IO PCI_COMMAND_MEMORY)) in
  let pin := pci_config_readb (pci_dev s) bdf PCI_INTERRUPT_PIN in
  let s :=
    if negb (pin =? 0) then
      let pin := pci_slot_get_pirq bdf (pin - 1) in
      on_dev s (fun d => pci_config_writeb d bdf PCI_INTERRUPT_LINE (pci_irqs pin))
    else s in
  if (vendor_id =? PCI_VENDOR_ID_INTEL) && (device_id =? PCI_DEVICE_ID_INTEL_82371AB_3) then
    on_dev s (fun d =>
      let d := pci_config_writeb d bdf PCI_INTERRUPT_LINE 9 in
      let d := pci_config_writel d bdf 0x40 (Z.lor PORT_ACPI_PM_BASE 1) in
      let d := pci_config_writeb d bdf 0x80 0x01 in
      let d := pci_config_writel d bdf 0x90 (Z.lor PORT_SMB_BASE 1) in
      pci_config_writeb d bdf 0xd2 0x09)
  else s.

(** [foreachpci] with a body that may write configuration space. *)
Fixpoint foreachpci_do (fuel : nat) (body : state -> Z -> state) (s : state) (bdf max : Z) : option state :=
  match fuel with
  | O => None
  | S fuel =>
      '(b, max) ← pci_next (pci_dev s) bdf max;
      if b <? 0 then Some s else foreachpci_do fuel body (body s b) (b + 1) max
  end.

Definition pci_setup (s : state) : option state :=
  let s := mk_pci_state (pci_dev s) 0xc000 BUILD_PCIMEM_START (elcr s) in
  s ← foreachpci_do (Z.to_nat 0x10001) pci_bios_init_bridges s 0 0x0100;
  foreachpci_do (Z.to_nat 0x10001) pci_bios_init_device s 0 0x0100.
End PciInit.

(** ** Enumeration finds every function once *)

Section Enumeration.
Context {D : Type} `{PciConfig D} (d : D).

Definition present (bdf : Z) : bool :=
  let v := pci_config_readw d bdf PCI_VENDOR_ID in negb (v =? 0x0000) && negb (v =? 0xffff).
Definition multi_function (bdf : Z) : bool := negb (Z.land (pci_config_readb d bdf PCI_HEADER_TYPE) 0x80 =? 0).

(** Function 0 of the same device. *)
Definition fn0 (bdf : Z) : Z := bdf - bdf mod 8.

(** A function exists when it answers and is number 0, or the device, which is there,
    says that it has several. *)
Definition exists_fn (bdf : Z) : bool :=
  present bdf && ((bdf mod 8 =? 0) || present (fn0 bdf) && multi_function (fn0 bdf)).

(** The end of the buses that a bridge leads to. *)
Definition is_bridge (bdf : Z) : bool :=
  let v := Z.land (pci_config_readb d bdf PCI_HEADER_TYPE) 0x7f in
  (v =? PCI_HEADER_TYPE_BRIDGE) || (v =? PCI_HEADER_TYPE_CARDBUS).
Definition bridge_end (bdf : Z) : Z := Z.land (pci_config_readl d bdf PCI_PRIMARY_BUS) 0xff00 + 0x0100.

Lemma fn_mod bdf : 0 <= bdf < 0x10000 -> pci_bdf_to_fn bdf = bdf mod 8.
Proof using.
  intros Hb. unfold pci_bdf_to_fn. rewrite wrap_small by (unfold in_u; lia).
  change 0x07 with (Z.ones 3). by rewrite Z.land_ones.
Qed.

Lemma bridge_end_range bdf : 0x100 <= bridge_end bdf <= 0x10000.
Proof using.
  unfold bridge_end. set (v := pci_config_readl _ _ _).
  assert (Z.land v 0xff00 = v / 256 mod 256 * 256) as ->.
  { change 0xff00 with (Z.shiftl (Z.ones 8) 8).
    replace (Z.land v _) with (Z.shiftl (Z.land (Z.shiftr v 8) (Z.ones 8)) 8).
    - by rewrite Z.land_ones, Z.shiftr_div_pow2, Z.shiftl_mul_pow2 by lia.
    - apply Z.bits_inj'. intros i Hi. rewrite Z.land_spec, !Z.shiftl_spec, Z.land_spec by lia.
      destruct (Z.lt_ge_cases i 8); [by rewrite !Z.testbit_neg_r, ?andb_false_r by lia|].
      rewrite Z.shiftr_spec by lia. do 2 f_equal. lia. }
  pose proof (Z.mod_pos_bound (v / 256) 256). lia.
Qed.

(** Where the loop may stand: at function 0, or inside a device with several functions. *)
Definition at_fn (b : Z) : Prop := b mod 8 = 0 \/ present (fn0 b) = true /\ multi_function (fn0 b) = true.

Lemma at_fn_succ b : at_fn b -> b mod 8 <> 0 -> at_fn (b + 1).
Proof using.
  intros [?|[Hp Hm]] Hb; [done|]. unfold at_fn. destruct (Z.eq_dec ((b + 1) mod 8) 0); [by left|right].
  assert (fn0 (b + 1) = fn0 b) as ->; [|done]. unfold fn0. Z.to_euclidean_division_equations. lia.
Qed.

Lemma exists_at b : at_fn b -> exists_fn b = present b.
Proof using.
  intros [E|[Hp Hm]]; unfold exists_fn; [rewrite E; simpl|rewrite Hp, Hm, orb_true_r]; by rewrite andb_true_r.
Qed.

(** A device that does not answer has no functions. *)
Lemma exists_absent b c : b mod 8 = 0 -> present b = false -> b <= c < b + 8 -> exists_fn c = false.
Proof using.
  intros Hb Hp Hc. unfold exists_fn. destruct (Z.eq_dec c b) as [->|Hne]; [by rewrite Hp|].
  assert (fn0 c = b) as -> by (unfold fn0; Z.to_euclidean_division_equations; lia).
  rewrite Hp. cbn [andb]. rewrite orb_false_r. apply andb_false_iff. right. apply Z.eqb_neq.
  Z.to_euclidean_division_equations. lia.
Qed.

Lemma pci_scan_spec fuel b max :
  0 <= b -> max <= 0x10000 -> at_fn b -> max - b < Z.of_nat fuel -> (0 < fuel)%nat ->
  exists r, pci_scan fuel d b max = Some r /\
    (r = -1 /\ (forall c, b <= c < max -> exists_fn c = false) \/
     b <= r < max /\ exists_fn r = true /\ at_fn r /\ forall c, b <= c < r -> exists_fn c = false).
Proof using.
  revert b. induction fuel as [|fuel IH]; intros b Hb Hmax Hat Hf Hf0; [lia|].
  cbn [pci_scan]. case_test; [exists (-1); split; [done|]; left; split; [done|]; intros; lia|].
  fold (present b). destruct (present b) eqn:Hp.
  { exists b. split; [done|]. right. split_and!; [lia..| |done|intros; lia]. by rewrite exists_at. }
  rewrite fn_mod by lia.
  assert (exists step, (if b mod 8 =? 0 then pci_scan fuel d (b + 8) max else pci_scan fuel d (b + 1) max) =
      pci_scan fuel d (b + step) max /\ 1 <= step /\ at_fn (b + step) /\
      forall c, b <= c < b + step -> exists_fn c = false) as (step & -> & Hs & Hat' & Hno).
  { case_test.
    - exists 8. split_and!; [done|lia| |].
      + left. rewrite <- E0. replace (b + 8) with (b + 1 * 8) by lia. by rewrite Z.mod_add by lia.
      + intros c Hc. by apply (exists_absent b c).
    - exists 1. split_and!; [done|lia|by apply at_fn_succ|]. intros c Hc. replace c with b by lia. by rewrite exists_at. }
  destruct (Z.lt_ge_cases (b + step) max).
  - destruct (IH (b + step)) as (r & -> & Hr); [lia..|done|lia|lia|]. exists r. split; [done|].
    destruct Hr as [[-> Hr]|(Hr1 & Hr2 & Hr3 & Hr4)]; [left|right].
    + split; [done|]. intros c Hc. destruct (Z.lt_ge_cases c (b + step)); [apply Hno|apply Hr]; lia.
    + split_and!; [lia..|done|done|]. intros c Hc. destruct (Z.lt_ge_cases c (b + step)); [apply Hno|apply Hr4]; lia.
  - destruct fuel as [|fuel]; [lia|]. cbn [pci_scan]. rewrite (proj2 (Z.leb_le _ _)) by lia. exists (-1).
    split; [done|]. left. split; [done|]. intros c Hc. apply Hno. lia.
Qed.

(** Where [pci_next] may be called: also just after function 0 of a device. *)
Definition at_next (b : Z) : Prop := at_fn b \/ b mod 8 = 1 /\ present (b - 1) = true.

Lemma pci_next_spec b max :
  0 <= b -> b <= 0x10000 -> max <= 0x10000 -> at_next b ->
  exists r max', pci_next d b max = Some (r, max') /\
    (r = -1 /\ max' = max /\ (forall c, b <= c < max -> exists_fn c = false) \/
     b <= r < max /\ exists_fn r = true /\ at_fn r /\ (forall c, b <= c < r -> exists_fn c = false) /\
     max' = Z.max max (if is_bridge r then bridge_end r else 0)).
Proof using.
  intros Hb Hb' Hmax Hat. unfold pci_next.
  set (b' := if (pci_bdf_to_fn b =? 1) && (Z.land (pci_config_readb d (b - 1) PCI_HEADER_TYPE) 0x80 =? 0)
             then b + 7 else b).
  assert (b <= b' /\ at_fn b' /\ forall c, b <= c < b' -> exists_fn c = false) as (Hle & Hat' & Hno).
  { destruct (Z.eq_dec b 0x10000) as [->|].
    { assert (b' = 0x10000) as -> by done. split_and!; [lia|by left|intros; lia]. }
    subst b'. rewrite fn_mod by lia. destruct (_ && _) eqn:E.
    - apply andb_true_iff in E as [E1 E2]. bool_to_prop. split_and!; [lia| |].
      + left. Z.to_euclidean_division_equations. lia.
      + intros c Hc. unfold exists_fn. assert (fn0 c = b - 1) as -> by (unfold fn0; Z.to_euclidean_division_equations; lia).
        assert ((c mod 8 =? 0) = false) as -> by (apply Z.eqb_neq; Z.to_euclidean_division_equations; lia).
        unfold multi_function. rewrite E2. cbn. by rewrite !andb_false_r.
    - split_and!; [lia| |intros; lia]. destruct Hat as [?|[E1 Hp]]; [done|]. right.
      assert (fn0 b = b - 1) as -> by (unfold fn0; lia). split; [done|]. unfold multi_function.
      rewrite E1, Z.eqb_refl in E. cbn [andb] in E. by rewrite E. }
  destruct (pci_scan_spec (S (Z.to_nat (max - b'))) b' max) as (r & -> & Hr); [lia|done|done|lia|lia|].
  cbn [mbind option_bind]. destruct Hr as [[-> Hr]|(Hr1 & Hr2 & Hr3 & Hr4)].
  { exists (-1), max. split; [done|]. left. split_and!; [done..|].
    intros c Hc. destruct (Z.lt_ge_cases c b'); [apply Hno|apply Hr]; lia. }
  rewrite (proj2 (Z.eqb_neq r (-1))) by lia. fold (is_bridge r) (bridge_end r).
  exists r, (Z.max max (if is_bridge r then bridge_end r else 0)). split.
  - destruct (is_bridge r); [|do 2 f_equal; lia]. case_test; do 2 f_equal; lia.
  - right. split_and!; [lia|lia|done|done| |done]. intros c Hc. destruct (Z.lt_ge_cases c b'); [apply Hno|apply Hr4]; lia.
Qed.

Lemma at_next_succ r : at_fn r -> present r = true -> at_next (r + 1).
Proof using.
  intros Hat Hp. destruct (Z.eq_dec (r mod 8) 0) as [E|E].
  - right. split; [Z.to_euclidean_division_equations; lia|]. by replace (r + 1 - 1) with r by lia.
  - left. by apply at_fn_succ.
Qed.

Lemma exists_present r : exists_fn r = true -> present r = true.
Proof using. unfold exists_fn. by intros [? _]%andb_true_iff. Qed.

Lemma foreachpci_from_spec fuel b max :
  0 <= b -> b <= 0x10000 -> 0x100 <= max <= 0x10000 -> at_next b -> 0x10000 - b < Z.of_nat fuel ->
  exists l M, foreachpci_from fuel d b max = Some (l, M) /\ max <= M <= 0x10000 /\
    StronglySorted Z.lt l /\ (forall c, c ∈ l <-> b <= c < M /\ exists_fn c = true) /\
    (forall c, c ∈ l -> is_bridge c = true -> bridge_end c <= M) /\
    (M = max \/ exists c, c ∈ l /\ is_bridge c = true /\ M = bridge_end c).
Proof using.
  revert b max. induction fuel as [|fuel IH]; intros b max Hb Hb' Hmax Hat Hf; [lia|].
  cbn [foreachpci_from]. destruct (pci_next_spec b max) as (r & max' & -> & Hr); [lia..|done|].
  cbn [mbind option_bind]. destruct Hr as [(-> & -> & Hr)|(Hr1 & Hr2 & Hr3 & Hr4 & Emax)].
  { exists [], max. split_and!; [done|lia|lia|constructor| | |by left].
    - intros c. split; [by intros ?%not_elem_of_nil|]. intros [Hc He]. rewrite Hr in He by lia. done.
    - by intros c ?%not_elem_of_nil. }
  rewrite (proj2 (Z.ltb_ge r 0)) by lia. pose proof (bridge_end_range r) as Hbe.
  assert (max <= max' <= 0x10000) as Hmax' by (rewrite Emax; case_test; lia).
  destruct (IH (r + 1) max') as (l & M & -> & HM & Hs & Hin & Hbr & Hend); [lia..| |lia|].
  { by apply at_next_succ, exists_present. }
  cbn [mbind option_bind]. exists (r :: l), M. split_and!; [done|lia|lia| | | |].
  - constructor; [done|]. apply Forall_forall. intros c Hc%Hin. lia.
  - intros c. rewrite elem_of_cons, Hin. split.
    + intros [->|[Hc He]]; (split; [lia|done]).
    + intros [Hc He]. destruct (Z.eq_dec c r) as [->|]; [by left|right]. split; [|done].
      destruct (Z.lt_ge_cases c r); [rewrite Hr4 in He by lia; done|lia].
  - intros c [->|Hc]%elem_of_cons Hbc; [rewrite Hbc in Emax; lia|by apply Hbr].
  - destruct Hend as [->|(c & Hc & Hbc & ->)]; [|right; exists c; split_and!; [by right|done..]].
    destruct (is_bridge r) eqn:Er; [|left; lia].
    destruct (Z.max_spec max (bridge_end r)) as [[_ E]|[_ E]]; [right; exists r; split_and!; [by left|done|lia]|left; lia].
Qed.

(** [foreachpci] always ends.  It visits each function that exists on buses 0 up to the
    last one some bridge it visits leads to, once, in order, and its final bound is the
    end of that bus. *)
Theorem foreachpci_complete :
  exists l M, foreachpci d = Some (l, M) /\ StronglySorted Z.lt l /\ 0x100 <= M <= 0x10000 /\
    (forall c, c ∈ l <-> 0 <= c < M /\ exists_fn c = true) /\
    (forall c, c ∈ l -> is_bridge c = true -> bridge_end c <= M) /\
    (M = 0x100 \/ exists c, c ∈ l /\ is_bridge c = true /\ M = bridge_end c).
Proof using.
  destruct (foreachpci_from_spec (Z.to_nat 0x10001) 0 0x100) as (l & M & E & HM & Hrest); [lia..|left; by left|lia|].
  exists l, M. unfold foreachpci. rewrite E. destruct Hrest as (Hs & Hin & Hb & He). by split_and!; try lia.
Qed.
End Enumeration.

(** ** Searches *)

Section Search.
Context {D : Type} `{PciConfig D} (d : D).

Lemma pci_find_from_spec fuel p count b max l M :
  foreachpci_from fuel d b max = Some (l, M) -> Forall (fun c => 0 <= c) l ->
  pci_find_from fuel d p count b max = Some (default (-1) (List.filter p l !! count)).
Proof using.
  revert count b max l. induction fuel as [|fuel IH]; intros count b max l Hl Hpos; [done|].
  cbn [foreachpci_from pci_find_from] in *. destruct (pci_next d b max) as [[r max']|]; [|done]. cbn [mbind option_bind] in *.
  destruct (r <? 0); [by simplify_eq|]. destruct (foreachpci_from fuel d (r + 1) max') as [[l' M']|] eqn:E; [|done].
  cbn [mbind option_bind] in Hl. simplify_eq. apply Forall_cons in Hpos as [_ Hpos]. cbn [List.filter].
  destruct (p r); cbn [negb]; [|by eapply IH]. destruct count as [|count]; [done|]. by eapply IH.
Qed.

(** A search ends, and finds the function that is the [count]-th match, from 0, in the
    order of the enumeration, or -1. *)
Lemma pci_find_spec p count :
  exists l M, foreachpci d = Some (l, M) /\ pci_find d p count = Some (default (-1) (List.filter p l !! count)).
Proof using.
  destruct (foreachpci_from_spec d (Z.to_nat 0x10001) 0 0x100) as (l & M & E & HM & _ & Hin & _); [lia..|left; by left|lia|].
  exists l, M. split; [done|]. eapply pci_find_from_spec; [exact E|]. apply Forall_forall. intros c Hc%Hin. lia.
Qed.

(** Interrupt 0x1a function 0xb102: the SI-th function with the vendor DX and device CX,
    in the order of the enumeration, is returned in BX; when there is none the call
    fails with code 0x86. *)
Theorem pcibios_find_device pcibios32_entry pir m regs :
  al regs = 0x02 ->
  exists l M regs', foreachpci d = Some (l, M) /\
    handle_1ab1 pcibios32_entry pir d m regs = Some (d, m, regs') /\
    let matches b := pci_config_readl d b PCI_VENDOR_ID =? u32 (Z.lor (Z.shiftl (cx regs) 16) (dx regs)) in
    match List.filter matches l !! Z.to_nat (si regs) with
    | Some b => bx regs' = b /\ ah regs' = 0 /\ cf regs' = false
    | None => ah regs' = RET_DEVICE_NOT_FOUND /\ cf regs' = true
    end.
Proof using.
  intros Hal. set (matches := fun b => pci_config_readl d b PCI_VENDOR_ID =? u32 (Z.lor (Z.shiftl (cx regs) 16) (dx regs))).
  destruct (foreachpci_from_spec d (Z.to_nat 0x10001) 0 0x100) as (l & M & E & HM & _ & Hin & _); [lia..|left; by left|lia|].
  fold (foreachpci d) in E. exists l, M.
  destruct (pci_find_spec matches (Z.to_nat (si regs))) as (l' & M' & E' & Hf). rewrite E in E'. simplify_eq.
  unfold handle_1ab1. rewrite Hal. unfold handle_1ab102. fold matches. rewrite Hf. cbn [mbind option_bind].
  eexists. split; [done|]. split; [done|]. cbn zeta.
  destruct (List.filter matches l' !! Z.to_nat (si regs)) as [b|] eqn:Eb; cbn [default]; unfold found_regs.
  - assert (b ∈ l') as Hb. { apply list_elem_of_lookup_2, list_elem_of_In, filter_In in Eb as [? _]. by apply list_elem_of_In. }
    apply Hin in Hb. change (id b) with b. rewrite (proj2 (Z.ltb_ge b 0)) by lia.
    split_and!; [|by reg_simpl|apply cf_set]. reg_simpl. apply wrap_small. unfold in_u. lia.
  - cbn -[ah cf set_code_invalid]. split; [by reg_simpl|apply cf_set].
Qed.
End Search.
