(* ===== verification/PciBars.v ===== *)
(** * Assignment of PCI addresses: what [pci_setup] of [pciinit.c] leaves

    The devices are described by two facts that the PCI specification gives: a
    configuration access touches only its own register, and a base address register
    keeps the writable bits of what is written to it and shows its type in the others. *)

From Stdlib Require Import Sorting.Sorted.
From S2P Require Import Prelude BiosUtil Bregs Pci.
Local Open Scope Z_scope.
Local Open Scope coremu_scope.

(** A region: whether it is in port space, the logarithm of its size, its type bits. *)
Record region := mk_region { r_io : bool; r_k : Z; r_flags : Z }.

(** Regions have at least the size their register has room for, and type bits that a
    device of that space has. *)
Definition region_ok (i : Z) (r : region) : Prop :=
  if i =? PCI_ROM_SLOT then r_io r = false /\ 11 <= r_k r < 32 /\ r_flags r = 0
  else if r_io r then 2 <= r_k r < 32 /\ r_flags r = 1
  else 4 <= r_k r < 32 /\ 0 <= r_flags r < 16 /\ Z.even (r_flags r) = true.

(** The value that the register of a region shows after [v] was written: nothing when
    there is no region. *)
Definition bar_value (r : option region) (v : Z) : Z :=
  match r with
  | None => 0
  | Some r => v - v mod 2 ^ r_k r + r_flags r
  end.

(** ** Command words *)

Lemma pci_cmd_eq bdf addr :
  0 <= bdf < 0x10000 -> 0 <= addr < 256 -> pci_cmd bdf addr = 2 ^ 31 + bdf * 256 + (addr - addr mod 4).
Proof.
  intros Hb Ha. unfold pci_cmd. rewrite (wrap_small 16 bdf) by (unfold in_u; lia).
  assert (Z.land addr 0xfc = addr - addr mod 4) as ->.
  { replace 0xfc with (Z.land 0xff (u32 (Z.lnot (2 ^ 2 - 1)))) by done. rewrite Z.land_assoc.
    change 0xff with (Z.ones 8). rewrite Z.land_ones, Z.mod_small by (simpl; lia). by rewrite land_lnot_ones by lia. }
  pose proof (Z.mod_pos_bound addr 4 ltac:(lia)) as Hm.
  assert (0 <= addr - addr mod 4 < 256) by (Z.to_euclidean_division_equations; lia).
  rewrite <- Z.lor_assoc, (Z.lor_comm (Z.shiftl bdf 8)), lor_shiftl by (simpl; lia).
  rewrite Z.lor_comm. change 0x80000000 with (Z.shiftl 1 31). rewrite lor_shiftl by (simpl; lia).
  rewrite wrap_small by (unfold in_u; simpl; lia). simpl. lia.
Qed.

Lemma pci_cmd_inj b a b' a' :
  0 <= b < 0x10000 -> 0 <= b' < 0x10000 -> 0 <= a < 256 -> 0 <= a' < 256 ->
  pci_cmd b a = pci_cmd b' a' -> b = b' /\ a / 4 = a' / 4.
Proof.
  intros Hb Hb' Ha Ha'. rewrite !pci_cmd_eq by done. intros E. Z.to_euclidean_division_equations. lia.
Qed.

(** ** The machine *)

Section Bars.
Context {D : Type} `{PciConfig D}.
Context (hw : Z -> Z -> option region).

(** A write is seen only by reads of the same register. *)
Context (Hframe : forall d cmd cmd' p p' n n' v, cmd <> cmd' -> cfg_in cmd' p' n' (cfg_out cmd p n v d) = cfg_in cmd' p' n' d).
(** A base address register after a write. *)
Context (Hbar : forall d b i v, 0 <= b < 0x10000 -> 0 <= i < 7 -> in_u 32 v ->
  pci_config_readl (pci_config_writel d b (region_ofs i) v) b (region_ofs i) = bar_value (hw b i) v).
Context (Hok : forall b i r, 0 <= i < 7 -> hw b i = Some r -> region_ok i r).

Notation state := (pci_state D).
Implicit Types s : state.

Definition bar s (b i : Z) : Z := pci_config_readl (pci_dev s) b (region_ofs i).

(** Registers that identify a function, and those that hold addresses. *)
Definition id_reg (x : Z) : Prop := x = 0 \/ x = 2 \/ x = 3.
Definition bar_reg (x : Z) : Prop := 4 <= x <= 9 \/ x = 12.

Lemma region_ofs_range i : 0 <= i < 7 -> 0 <= region_ofs i < 256 /\ bar_reg (region_ofs i / 4) /\ region_ofs i mod 4 = 0.
Proof using.
  intros Hi. unfold bar_reg, region_ofs, PCI_ROM_SLOT, PCI_ROM_ADDRESS, PCI_BASE_ADDRESS_0.
  destruct (Z.eqb_spec i 6); Z.to_euclidean_division_equations; lia.
Qed.

Lemma region_ofs_inj i j : 0 <= i < 7 -> 0 <= j < 7 -> region_ofs i / 4 = region_ofs j / 4 -> i = j.
Proof using.
  unfold region_ofs, PCI_ROM_SLOT, PCI_ROM_ADDRESS, PCI_BASE_ADDRESS_0. intros Hi Hj E.
  destruct (Z.eqb_spec i 6), (Z.eqb_spec j 6); Z.to_euclidean_division_equations; lia.
Qed.

(** [s'] differs from [s] at most in registers that neither identify a function nor hold
    an address, and in addresses of functions in [touched]. *)
Definition same_but (touched : Z -> Prop) s s' : Prop :=
  (forall b a p n, 0 <= b < 0x10000 -> 0 <= a < 256 -> id_reg (a / 4) ->
     cfg_in (pci_cmd b a) p n (pci_dev s') = cfg_in (pci_cmd b a) p n (pci_dev s)) /\
  (forall b i, 0 <= b < 0x10000 -> 0 <= i < 7 -> ~ touched b -> bar s' b i = bar s b i).

Definition same_ptrs s s' : Prop :=
  pci_bios_io_addr s' = pci_bios_io_addr s /\ pci_bios_mem_addr s' = pci_bios_mem_addr s.

Lemma same_but_refl t s : same_but t s s.
Proof using. by split. Qed.

Lemma same_but_trans t s1 s2 s3 : same_but t s1 s2 -> same_but t s2 s3 -> same_but t s1 s3.
Proof using. intros [A1 B1] [A2 B2]. split; intros; [rewrite A2, A1|rewrite B2, B1]; done. Qed.

(** Writes outside the identification and address registers of function [b]. *)
Lemma write_frame s b a p n v t :
  0 <= b < 0x10000 -> 0 <= a < 256 -> ~ id_reg (a / 4) -> ~ bar_reg (a / 4) \/ t b ->
  same_but t s (on_dev s (cfg_out (pci_cmd b a) p n v)).
Proof using Hframe.
  intros Hb Ha Hid Hbr. split.
  - intros b' a' p' n' Hb' Ha' Hin. apply Hframe. intros [-> E]%pci_cmd_inj; [|done..]. by rewrite E in Hid.
  - intros b' i Hb' Hi Ht. unfold bar, pci_config_readl. f_equal. apply Hframe.
    destruct (region_ofs_range i Hi) as (Hr & Hin & _). intros [-> E]%pci_cmd_inj; [|done..].
    destruct Hbr as [Hbr|Hbr]; [rewrite E in Hbr|]; done.
Qed.

(** ** One region *)

Definition ptr s (io : bool) : Z := if io then pci_bios_io_addr s else pci_bios_mem_addr s.
Definition align_up (x k : Z) : Z := (x + (2 ^ k - 1)) - (x + (2 ^ k - 1)) mod 2 ^ k.

Lemma align_up_spec x k : 0 <= k -> x <= align_up x k < x + 2 ^ k /\ align_up x k mod 2 ^ k = 0.
Proof using.
  intros Hk. assert (0 < 2 ^ k) by (apply Z.pow_pos_nonneg; lia). unfold align_up.
  pose proof (Z.mod_pos_bound (x + (2 ^ k - 1)) (2 ^ k)). split; [lia|].
  rewrite Zminus_mod_idemp_r. by rewrite Z.sub_diag.
Qed.

(** The registers of all regions show a region's type. *)
Definition bars_ok s : Prop :=
  forall b i, 0 <= b < 0x10000 -> 0 <= i < 7 -> exists v, in_u 32 v /\ bar s b i = bar_value (hw b i) v.

Lemma write_bar s b i v :
  0 <= b < 0x10000 -> 0 <= i < 7 -> in_u 32 v ->
  let s' := on_dev s (fun d => pci_config_writel d b (region_ofs i) v) in
  bar s' b i = bar_value (hw b i) v /\
  (forall b' j, 0 <= b' < 0x10000 -> 0 <= j < 7 -> (b', j) <> (b, i) -> bar s' b' j = bar s b' j) /\
  same_but (eq b) s s' /\ same_ptrs s s'.
Proof using Hframe Hbar.
  intros Hb Hi Hv s'. destruct (region_ofs_range i Hi) as (Hr & Hin & _). split_and!.
  - by apply Hbar.
  - intros b' j Hb' Hj Hne. unfold bar, pci_config_readl. f_equal. apply Hframe.
    destruct (region_ofs_range j Hj) as (Hr' & _ & _). intros [-> E]%pci_cmd_inj; [|done..].
    apply Hne. f_equal. by apply region_ofs_inj.
  - apply write_frame; [done..| |by right]. unfold id_reg, bar_reg in *. lia.
  - by split.
Qed.

(** Arithmetic of the size that a probed register encodes. *)
Lemma probe_size k j fl :
  0 <= j <= k -> k < 32 -> 0 <= fl < 2 ^ j ->
  let val := 2 ^ 32 - 2 ^ k + fl in
  Z.land val (u32 (Z.lnot (2 ^ j - 1))) = 2 ^ 32 - 2 ^ k /\
  u32 (u32 (Z.lnot (2 ^ 32 - 2 ^ k)) + 1) = 2 ^ k /\ val <> 0 /\ in_u 32 val.
Proof using.
  intros Hj Hk Hfl val. assert (0 < 2 ^ k) by (apply Z.pow_pos_nonneg; lia).
  assert (2 ^ k < 2 ^ 32) by (apply Z.pow_lt_mono_r; lia).
  assert (2 ^ j <= 2 ^ k) by (apply Z.pow_le_mono_r; lia).
  assert (exists q, 2 ^ 32 - 2 ^ k = q * 2 ^ j) as (q & Hq).
  { exists (2 ^ (32 - j) - 2 ^ (k - j)). rewrite Z.mul_sub_distr_r, <- !Z.pow_add_r by lia. f_equal; f_equal; lia. }
  split_and!.
  - rewrite land_lnot_ones by (unfold val; lia). unfold val. rewrite Hq, Z.add_comm, Z.mod_add by lia. rewrite Z.mod_small by lia. lia.
  - replace (Z.lnot (2 ^ 32 - 2 ^ k)) with (2 ^ k - 1 + (-1) * 2 ^ 32) by (unfold Z.lnot; lia).
    unfold wrap at 2. rewrite Z.mod_add, Z.mod_small by lia. rewrite wrap_small by (unfold in_u; lia). lia.
  - unfold val. lia.
  - unfold in_u, val. lia.
Qed.

Lemma land_1 x : Z.land x 1 = x mod 2.
Proof using. change 1 with (Z.ones 1). by rewrite Z.land_ones. Qed.

(** What the probe reads, with the mask that the code chooses. *)
Lemma bar_value_probe i r w :
  0 <= i < 7 -> region_ok i r -> w = (if i =? PCI_ROM_SLOT then PCI_ROM_ADDRESS_MASK else 0xffffffff) ->
  bar_value (Some r) w = 2 ^ 32 - 2 ^ r_k r + r_flags r.
Proof using.
  intros Hi Hr ->. unfold region_ok in Hr. cbn [bar_value]. f_equal.
  assert (0 <= r_k r < 32) as Hk by (destruct (i =? _), (r_io r); lia).
  assert (0 < 2 ^ r_k r) by (apply Z.pow_pos_nonneg; lia).
  assert (exists q, 2 ^ 32 = q * 2 ^ r_k r) as (q & Hq).
  { exists (2 ^ (32 - r_k r)). rewrite <- Z.pow_add_r by lia. f_equal. lia. }
  destruct (i =? PCI_ROM_SLOT).
  - destruct Hr as (_ & Hk11 & _). assert (2 ^ 11 <= 2 ^ r_k r) by (apply Z.pow_le_mono_r; lia).
    change PCI_ROM_ADDRESS_MASK with (2 ^ 32 - 2 ^ 11).
    replace (2 ^ 32 - 2 ^ 11) with (2 ^ r_k r - 2 ^ 11 + (q - 1) * 2 ^ r_k r) by lia.
    rewrite Z.mod_add, Z.mod_small by lia. lia.
  - change 0xffffffff with (2 ^ 32 - 1). replace (2 ^ 32 - 1) with (2 ^ r_k r - 1 + (q - 1) * 2 ^ r_k r) by lia.
    rewrite Z.mod_add, Z.mod_small by lia. lia.
Qed.

Lemma bar_value_parity i r v :
  0 <= i < 7 -> i <> PCI_ROM_SLOT -> region_ok i r -> Z.land (bar_value (Some r) v) 1 = (if r_io r then 1 else 0).
Proof using.
  intros Hi Hrom Hr. unfold region_ok in Hr. rewrite (proj2 (Z.eqb_neq _ _) Hrom) in Hr. rewrite land_1. cbn [bar_value].
  assert (exists q, v - v mod 2 ^ r_k r = q * 2) as (q & ->).
  { exists (v / 2 ^ r_k r * 2 ^ (r_k r - 1)). assert (1 <= r_k r) by (destruct (r_io r); lia).
    pose proof (Z.div_mod v (2 ^ r_k r) ltac:(apply Z.pow_nonzero; lia)).
    rewrite <- Z.mul_assoc, <- (Z.pow_add_r 2 _ 1) by lia. replace (r_k r - 1 + 1) with (r_k r) by lia. lia. }
  rewrite Z.add_comm, Z.mod_add by lia. destruct (r_io r); [by destruct Hr as [_ ->]|].
  destruct Hr as (_ & Hfl & He). apply Zeven_bool_iff in He. by rewrite Zeven_mod in He || (apply Zeven_ex in He as (h & ->); rewrite Z.mul_comm; apply Z.mod_mul).
Qed.

(** How a region is placed: at the next multiple of its size. *)
Definition placed s s' (b i : Z) : Prop :=
  match hw b i with
  | None => same_ptrs s s'
  | Some r =>
      let base := align_up (ptr s (r_io r)) (r_k r) in
      bar s' b i = base + r_flags r /\ ptr s' (r_io r) = base + 2 ^ r_k r /\
      ptr s' (negb (r_io r)) = ptr s (negb (r_io r))
  end.

(** There is room for the region. *)
Definition fits s (b i : Z) : Prop :=
  match hw b i with
  | None => True
  | Some r => 0 <= ptr s (r_io r) /\ align_up (ptr s (r_io r)) (r_k r) + 2 ^ r_k r < 2 ^ 32
  end.

Lemma bars_ok_write s s' b i v :
  bars_ok s -> in_u 32 v -> bar s' b i = bar_value (hw b i) v ->
  (forall b' j, 0 <= b' < 0x10000 -> 0 <= j < 7 -> (b', j) <> (b, i) -> bar s' b' j = bar s b' j) -> bars_ok s'.
Proof using.
  intros Hs Hv Hb Ho b' j Hb' Hj. destruct (decide ((b', j) = (b, i))) as [E|E]; simplify_eq; [by exists v|].
  rewrite Ho by done. by apply Hs.
Qed.

Lemma probe_region_spec s b i :
  bars_ok s -> 0 <= b < 0x10000 -> 0 <= i < 7 ->
  exists val mask d, probe_region (pci_dev s) b i = (val, mask, d) /\
    (forall b' j, 0 <= b' < 0x10000 -> 0 <= j < 7 -> (b', j) <> (b, i) -> bar (on_dev s (fun _ => d)) b' j = bar s b' j) /\
    same_but (eq b) s (on_dev s (fun _ => d)) /\ bars_ok (on_dev s (fun _ => d)) /\
    match hw b i with
    | None => val = 0
    | Some r => val <> 0 /\ u32 (u32 (Z.lnot (Z.land val mask)) + 1) = 2 ^ r_k r /\ negb (Z.land val 1 =? 0) = r_io r
    end.
Proof using Hframe Hbar Hok.
  intros Hs Hb Hi. set (old := bar s b i).
  set (w := if i =? PCI_ROM_SLOT then PCI_ROM_ADDRESS_MASK else 0xffffffff).
  assert (in_u 32 w) as Hw by (unfold w, in_u; by case_test).
  assert (in_u 32 old) as Hold by (apply wrap_range; lia).
  destruct (write_bar s b i w Hb Hi Hw) as (E1 & O1 & F1 & _). set (s1 := on_dev s _) in *.
  destruct (write_bar s1 b i old Hb Hi Hold) as (E2 & O2 & F2 & _). set (s2 := on_dev s1 _) in *.
  set (mask := if i =? PCI_ROM_SLOT then PCI_ROM_ADDRESS_MASK
    else if negb (Z.land old PCI_BASE_ADDRESS_SPACE_IO =? 0) then PCI_BASE_ADDRESS_IO_MASK else PCI_BASE_ADDRESS_MEM_MASK).
  exists (bar s1 b i), mask, (pci_dev s2).
  change (on_dev s (fun _ => pci_dev s2)) with s2.
  assert (forall b' j, 0 <= b' < 0x10000 -> 0 <= j < 7 -> (b', j) <> (b, i) -> bar s2 b' j = bar s b' j) as Ho
    by (intros; rewrite O2, O1; done).
  split_and!; [|done|by eapply same_but_trans|by apply (bars_ok_write s s2 b i old)|].
  { unfold probe_region. fold (bar s b i). fold old. subst s2 s1 w mask. by destruct (i =? PCI_ROM_SLOT). }
  rewrite E1. destruct (hw b i) as [r|] eqn:Er; [|done].
  pose proof (Hok b i r Hi Er) as Hr. rewrite (bar_value_probe i r w Hi Hr) by done.
  destruct (Hs b i Hb Hi) as (v & _ & Ev). fold old in Ev. rewrite Er in Ev.
  assert (exists j, mask = u32 (Z.lnot (2 ^ j - 1)) /\ 0 <= j <= r_k r /\ 0 <= r_flags r < 2 ^ j) as (j & Ej & Hj & Hfl).
  { subst mask. destruct (Z.eqb_spec i PCI_ROM_SLOT) as [->|Hrom].
    - destruct Hr as (_ & Hk & ->). exists 11. split_and!; [done|lia..].
    - rewrite Ev. change PCI_BASE_ADDRESS_SPACE_IO with 1. rewrite (bar_value_parity i r v Hi Hrom Hr).
      unfold region_ok in Hr. rewrite (proj2 (Z.eqb_neq _ _) Hrom) in Hr. destruct (r_io r).
      + destruct Hr as [Hk ->]. exists 2. split_and!; [done|lia..].
      + destruct Hr as (Hk & Hf & _). exists 4. split_and!; [done|lia..]. }
  assert (r_k r < 32) as Hk by (unfold region_ok in Hr; destruct (i =? _), (r_io r); lia).
  destruct (probe_size (r_k r) j (r_flags r) Hj Hk Hfl) as (P1 & P2 & P3 & P4). rewrite Ej, P1.
  split_and!; [done|done|]. rewrite <- (bar_value_probe i r w Hi Hr) by done.
  destruct (Z.eq_dec i PCI_ROM_SLOT) as [->|Hrom].
  - destruct Hr as (-> & Hk' & Hf0). rewrite (bar_value_probe PCI_ROM_SLOT r w Hi) by (done || by apply (Hok b)).
    rewrite land_1, Hf0, Z.add_0_r. apply negb_false_iff, Z.eqb_eq.
    replace (2 ^ 32 - 2 ^ r_k r) with ((2 ^ 31 - 2 ^ (r_k r - 1)) * 2); [apply Z.mod_mul; lia|].
    replace (r_k r) with (r_k r - 1 + 1) at 2 by lia. rewrite Z.pow_add_r by lia. lia.
  - rewrite (bar_value_parity i r w Hi Hrom Hr). by destruct (r_io r).
Qed.

Lemma map_region_spec s b i :
  bars_ok s -> 0 <= b < 0x10000 -> 0 <= i < 7 -> fits s b i ->
  let s' := map_region s b i in
  (forall b' j, 0 <= b' < 0x10000 -> 0 <= j < 7 -> (b', j) <> (b, i) -> bar s' b' j = bar s b' j) /\
  same_but (eq b) s s' /\ bars_ok s' /\ placed s s' b i.
Proof using Hframe Hbar Hok.
  intros Hs Hb Hi Hfit s'. subst s'. unfold map_region, placed, fits in *.
  destruct (probe_region_spec s b i Hs Hb Hi) as (val & mask & d & -> & Ho & Hf & Hs1 & Hv).
  set (s1 := on_dev s (fun _ => d)) in *.
  destruct (hw b i) as [r|] eqn:Er; [|rewrite Hv; by split_and!]. destruct Hv as (Hv0 & -> & Hio).
  rewrite (proj2 (Z.eqb_neq val 0)) by done. change PCI_BASE_ADDRESS_SPACE_IO with 1. rewrite Hio.
  pose proof (Hok b i r Hi Er) as Hr.
  assert (0 <= r_k r < 32 /\ 0 <= r_flags r) as [Hk Hfl].
  { unfold region_ok in Hr. destruct (i =? _), (r_io r); lia. }
  assert (0 < 2 ^ r_k r) by (apply Z.pow_pos_nonneg; lia).
  destruct Hfit as [Hp Hroom]. destruct (align_up_spec (ptr s (r_io r)) (r_k r) ltac:(lia)) as [Hal Hmod].
  set (base := align_up (ptr s (r_io r)) (r_k r)) in *.
  assert (ALIGN (ptr s (r_io r)) (2 ^ r_k r) = base) as HA by (unfold base, align_up; apply ALIGN_pow2; lia).
  assert (in_u 32 base) as Hbase by (unfold in_u; lia).
  assert (u32 (base + 2 ^ r_k r) = base + 2 ^ r_k r) as Hw by (apply wrap_small; unfold in_u; lia).
  destruct (write_bar s1 b i base Hb Hi Hbase) as (E2 & O2 & F2 & _). set (s2 := on_dev s1 _) in *.
  rewrite Er in E2. cbn [bar_value] in E2. rewrite Hmod, Z.sub_0_r in E2.
  assert (forall b' j, 0 <= b' < 0x10000 -> 0 <= j < 7 -> (b', j) <> (b, i) -> bar s2 b' j = bar s b' j) as Ho2
    by (intros; rewrite O2, Ho; done).
  assert (same_but (eq b) s s2) as Hf2 by (by eapply same_but_trans).
  assert (bars_ok s2) as Hs2.
  { apply (bars_ok_write s s2 b i base); try done. rewrite Er. cbn [bar_value]. by rewrite Hmod, Z.sub_0_r. }
  destruct (r_io r); cbn [ptr] in *; change (pci_bios_io_addr s1) with (pci_bios_io_addr s);
    change (pci_bios_mem_addr s1) with (pci_bios_mem_addr s); rewrite HA, Hw; by split_and!.
Qed.

(** ** All regions *)

Definition base_of s (b i : Z) (r : region) : Z := bar s b i - r_flags r.

(** The regions in [X] lie between [st] and the pointers, each at a multiple of its
    size, and no two of the same space meet. *)
Definition alloc_ok (st : bool -> Z) s (X : list (Z * Z)) : Prop :=
  (forall io, 0 <= st io <= ptr s io) /\
  (forall b i r, (b, i) ∈ X -> hw b i = Some r ->
     base_of s b i r mod 2 ^ r_k r = 0 /\ st (r_io r) <= base_of s b i r /\ base_of s b i r + 2 ^ r_k r <= ptr s (r_io r)) /\
  (forall b i r b' i' r', (b, i) ∈ X -> (b', i') ∈ X -> (b, i) <> (b', i') -> hw b i = Some r -> hw b' i' = Some r' ->
     r_io r = r_io r' ->
     base_of s b i r + 2 ^ r_k r <= base_of s b' i' r' \/ base_of s b' i' r' + 2 ^ r_k r' <= base_of s b i r).

Definition in_range (X : list (Z * Z)) : Prop := forall b i, (b, i) ∈ X -> 0 <= b < 0x10000 /\ 0 <= i < 7.

Lemma alloc_ok_same st s s' X :
  (forall b i, (b, i) ∈ X -> bar s' b i = bar s b i) -> same_ptrs s s' -> alloc_ok st s X -> alloc_ok st s' X.
Proof using.
  intros Hb [Hp1 Hp2] (A1 & A2 & A3). assert (forall io, ptr s' io = ptr s io) as Hp by (by intros []).
  unfold alloc_ok, base_of in *. split_and!.
  - intros io. rewrite Hp. apply A1.
  - intros b i r Hin Hr. rewrite Hb, Hp by done. by apply A2.
  - intros b i r b' i' r' Hin Hin' Hne Hr Hr' Hio. rewrite !Hb by done. by apply A3.
Qed.

Lemma alloc_ok_step st s s' X b i :
  alloc_ok st s X -> in_range X -> (b, i) ∉ X -> 0 <= i < 7 ->
  (forall b' j, 0 <= b' < 0x10000 -> 0 <= j < 7 -> (b', j) <> (b, i) -> bar s' b' j = bar s b' j) ->
  placed s s' b i -> alloc_ok st s' ((b, i) :: X).
Proof using Hok.
  intros HA Hrange Hnin Hi Ho Hp. unfold placed in Hp.
  assert (forall b' j, (b', j) ∈ X -> bar s' b' j = bar s b' j) as HX.
  { intros b' j Hin. destruct (Hrange b' j Hin). apply Ho; [done..|]. intros [= -> ->]. done. }
  destruct (hw b i) as [r|] eqn:Er.
  2:{ pose proof (alloc_ok_same st s s' X HX Hp HA) as (A1 & A2 & A3). split_and!; [done| |].
      - intros b' i' r [E|Hin]%elem_of_cons Hr; simplify_eq. by apply A2.
      - intros b1 i1 r1 b2 i2 r2 [E|Hin1]%elem_of_cons [E'|Hin2]%elem_of_cons Hne Hr1 Hr2 Hio; simplify_eq.
        by eapply A3. }
  destruct Hp as (Hb & Hp1 & Hp2). destruct HA as (A1 & A2 & A3).
  assert (0 <= r_k r) as Hk. { pose proof (Hok b i r Hi Er) as Hr. unfold region_ok in Hr. destruct (i =? _), (r_io r); lia. }
  assert (0 < 2 ^ r_k r) by (apply Z.pow_pos_nonneg; lia).
  destruct (align_up_spec (ptr s (r_io r)) (r_k r) Hk) as [Hal Hmod].
  assert (forall io, ptr s io <= ptr s' io) as Hmono.
  { intros io. destruct (decide (io = r_io r)) as [->|]; [rewrite Hp1; lia|].
    replace io with (negb (r_io r)) by (by destruct io, (r_io r)). lia. }
  assert (base_of s' b i r = align_up (ptr s (r_io r)) (r_k r)) as Hbase by (unfold base_of; rewrite Hb; lia).
  assert (forall b' j r', (b', j) ∈ X -> base_of s' b' j r' = base_of s b' j r') as HbX by (intros; unfold base_of; by rewrite HX).
  split_and!.
  - intros io. pose proof (A1 io). pose proof (Hmono io). lia.
  - intros b' i' r' [E|Hin]%elem_of_cons Hr'; simplify_eq.
    + rewrite Hbase, Hp1. pose proof (A1 (r_io r)). split_and!; done || lia.
    + rewrite HbX by done. destruct (A2 b' i' r' Hin Hr') as (? & ? & ?). pose proof (Hmono (r_io r')). split_and!; done || lia.
  - intros b1 i1 r1 b2 i2 r2 [E|Hin1]%elem_of_cons [E'|Hin2]%elem_of_cons Hne Hr1 Hr2 Hio; simplify_eq.
    + rewrite Hbase, HbX by done. destruct (A2 b2 i2 r2 Hin2 Hr2) as (_ & _ & ?). rewrite <- Hio in *. lia.
    + rewrite Hbase, HbX by done. destruct (A2 b1 i1 r1 Hin1 Hr1) as (_ & _ & ?). rewrite Hio in *. lia.
    + rewrite !HbX by done. by eapply A3.
Qed.

(** The pointers after placing regions, without the limit of 32 bits. *)
Definition advance (p : Z * Z) (x : Z * Z) : Z * Z :=
  match hw (fst x) (snd x) with
  | None => p
  | Some r => if r_io r then (align_up (fst p) (r_k r) + 2 ^ r_k r, snd p)
              else (fst p, align_up (snd p) (r_k r) + 2 ^ r_k r)
  end.
Definition room (p : Z * Z) : Prop := fst p < 2 ^ 32 /\ snd p < 2 ^ 32.
Definition ptrs s : Z * Z := (pci_bios_io_addr s, pci_bios_mem_addr s).

Lemma advance_mono p x : 0 <= snd x < 7 -> fst p <= fst (advance p x) /\ snd p <= snd (advance p x).
Proof using Hok.
  intros Hx. unfold advance. destruct (hw _ _) as [r|] eqn:Er; [|lia]. pose proof (Hok _ _ r Hx Er) as Hr.
  assert (0 <= r_k r) as Hk by (unfold region_ok in Hr; destruct (snd x =? _), (r_io r); lia).
  assert (0 < 2 ^ r_k r) by (apply Z.pow_pos_nonneg; lia).
  destruct (r_io r); cbn; [pose proof (align_up_spec (fst p) (r_k r) Hk)|pose proof (align_up_spec (snd p) (r_k r) Hk)]; lia.
Qed.

Lemma advance_all_mono p l :
  Forall (fun x => 0 <= snd x < 7) l -> fst p <= fst (foldl advance p l) /\ snd p <= snd (foldl advance p l).
Proof using Hok.
  revert p. induction l as [|x l IH]; intros p Hl; [done|]. apply Forall_cons in Hl as [Hx Hl]. cbn.
  pose proof (advance_mono p x Hx). pose proof (IH (advance p x) Hl). lia.
Qed.

Lemma placed_ptrs s s' b i : placed s s' b i -> ptrs s' = advance (ptrs s) (b, i).
Proof using.
  unfold placed, advance, ptrs. cbn. destruct (hw b i) as [r|]; [|by intros [-> ->]].
  destruct (r_io r); cbn; intros (_ & -> & ->); done.
Qed.

Lemma room_fits s b i : (forall io, 0 <= ptr s io) -> room (advance (ptrs s) (b, i)) -> fits s b i.
Proof using.
  intros Hp. unfold room, advance, fits, ptrs. cbn. destruct (hw b i) as [r|]; [|done].
  pose proof (Hp (r_io r)). destruct (r_io r); cbn in *; lia.
Qed.

(** The regions of function [b]. *)
Definition regions_of (b : Z) : list (Z * Z) := map (fun i => (b, i)) (seqZ 0 7).

Lemma default_map_from st X b l s :
  alloc_ok st s X -> bars_ok s -> in_range X -> 0 <= b < 0x10000 ->
  NoDup l -> Forall (fun i => 0 <= i < 7 /\ (b, i) ∉ X) l ->
  room (foldl advance (ptrs s) (map (fun i => (b, i)) l)) ->
  let s' := foldl (fun s i => map_region s b i) s l in
  alloc_ok st s' (reverse (map (fun i => (b, i)) l) ++ X) /\ bars_ok s' /\ same_but (eq b) s s' /\
  ptrs s' = foldl advance (ptrs s) (map (fun i => (b, i)) l).
Proof using Hframe Hbar Hok.
  revert X s. induction l as [|i l IH]; intros X s HA Hs HX Hb Hnd Hl Hroom; [by split_and!|].
  apply NoDup_cons in Hnd as [Hni Hnd]. apply Forall_cons in Hl as [[Hi Hnx] Hl]. cbn [map foldl] in *.
  assert (Forall (fun x => 0 <= snd x < 7) (map (fun i => (b, i)) l)) as Hl7.
  { apply Forall_map. eapply Forall_impl; [exact Hl|]. intros j [? _]. done. }
  assert (fits s b i) as Hfit.
  { apply room_fits; [intros io; pose proof (proj1 HA io); lia|].
    pose proof (advance_all_mono (advance (ptrs s) (b, i)) _ Hl7). unfold room in *. lia. }
  destruct (map_region_spec s b i Hs Hb Hi Hfit) as (Ho & Hf & Hs1 & Hp). set (s1 := map_region s b i) in *.
  pose proof (alloc_ok_step st s s1 X b i HA HX Hnx Hi Ho Hp) as HA1.
  pose proof (placed_ptrs s s1 b i Hp) as Ep.
  destruct (IH ((b, i) :: X) s1) as (HA2 & Hs2 & Hf2 & Ep2); try done.
  - intros b' j [E|Hin]%elem_of_cons; simplify_eq; [done|by apply HX].
  - rewrite Forall_forall in Hl |- *. intros j Hj. destruct (Hl j Hj) as [? Hnin]. split; [done|].
    intros [E|Hin]%elem_of_cons; [simplify_eq|]; done.
  - by rewrite Ep.
  - split_and!; [|done|by eapply same_but_trans|by rewrite Ep2, Ep].
    cbn [map]. rewrite reverse_cons, <- (assoc_L app). done.
Qed.

(** ** A device *)

(** Steps that leave addresses, identification and pointers alone. *)
Definition benign s s' : Prop := same_but (fun _ => False) s s' /\ same_ptrs s s'.

Lemma benign_refl s : benign s s.
Proof using. by split. Qed.

Lemma benign_trans s1 s2 s3 : benign s1 s2 -> benign s2 s3 -> benign s1 s3.
Proof using.
  intros [A [P1 P2]] [B [Q1 Q2]]. split; [by eapply same_but_trans|]. unfold same_ptrs. by rewrite Q1, Q2, P1, P2.
Qed.

Lemma benign_weaken t s s' : benign s s' -> same_but t s s'.
Proof using. intros [[A B] _]. split; [done|]. intros. apply B; done || intros []. Qed.

Lemma benign_bars s s' : benign s s' -> bars_ok s -> bars_ok s'.
Proof using. intros [[_ B] _] Hs b i Hb Hi. rewrite B by (done || intros []). by apply Hs. Qed.

Lemma benign_alloc st s s' X : benign s s' -> in_range X -> alloc_ok st s X -> alloc_ok st s' X.
Proof using. intros [[_ B] P] HX. apply alloc_ok_same; [|done]. intros b i [Hb Hi]%HX. apply B; done || intros []. Qed.

Lemma benign_ptrs s s' : benign s s' -> ptrs s' = ptrs s.
Proof using. intros [_ [P1 P2]]. unfold ptrs. by rewrite P1, P2. Qed.

Lemma benign_write s b a p n v :
  0 <= b < 0x10000 -> 0 <= a < 256 -> ~ id_reg (a / 4) -> ~ bar_reg (a / 4) ->
  benign s (on_dev s (cfg_out (pci_cmd b a) p n v)).
Proof using Hframe. intros. split; [apply write_frame; auto|done]. Qed.

(** Functions whose addresses the default mapping assigns. *)
Definition mapped (d : D) (b : Z) : bool :=
  let class := pci_config_readw d b PCI_CLASS_DEVICE in
  if class =? PCI_CLASS_STORAGE_IDE then
    (pci_config_readw d b PCI_VENDOR_ID =? PCI_VENDOR_ID_INTEL)
    && ((pci_config_readw d b PCI_DEVICE_ID =? PCI_DEVICE_ID_INTEL_82371SB_1)
        || (pci_config_readw d b PCI_DEVICE_ID =? PCI_DEVICE_ID_INTEL_82371AB))
  else negb (class =? PCI_CLASS_SYSTEM_PIC) && negb (class =? 0xff00).

Lemma same_ids t s s' b :
  same_but t s s' -> 0 <= b < 0x10000 ->
  pci_config_readw (pci_dev s') b PCI_VENDOR_ID = pci_config_readw (pci_dev s) b PCI_VENDOR_ID /\
  pci_config_readw (pci_dev s') b PCI_DEVICE_ID = pci_config_readw (pci_dev s) b PCI_DEVICE_ID /\
  pci_config_readw (pci_dev s') b PCI_CLASS_DEVICE = pci_config_readw (pci_dev s) b PCI_CLASS_DEVICE /\
  pci_config_readb (pci_dev s') b PCI_HEADER_TYPE = pci_config_readb (pci_dev s) b PCI_HEADER_TYPE.
Proof using.
  intros [A _] Hb. unfold pci_config_readw, pci_config_readb.
  rewrite !A by (done || (vm_compute; tauto)). done.
Qed.

(** Functions on configuration space that are such steps. *)
Definition benign_fun (f : D -> D) : Prop := forall s, benign s (on_dev s f).

Lemma benign_fun_comp f g : benign_fun f -> benign_fun g -> benign_fun (fun d => g (f d)).
Proof using.
  intros Hf Hg s. apply (benign_trans s (on_dev s f)); [apply Hf|].
  change (on_dev s (fun d => g (f d))) with (on_dev (on_dev s f) g). apply Hg.
Qed.

Section OneDevice.
Context (b : Z) (Hb : 0 <= b < 0x10000).

(** A register that [pci_bios_init_device] writes and that is not an address. *)
Definition other_reg (a : Z) : Prop := 0 <= a < 256 /\ ~ id_reg (a / 4) /\ ~ bar_reg (a / 4).

Lemma benign_l a v : other_reg a -> benign_fun (fun d => pci_config_writel d b a v).
Proof using Hframe Hb. intros (? & ? & ?) s. by apply benign_write. Qed.
Lemma benign_w a v : other_reg a -> benign_fun (fun d => pci_config_writew d b a v).
Proof using Hframe Hb. intros (? & ? & ?) s. by apply benign_write. Qed.
Lemma benign_b a v : other_reg a -> benign_fun (fun d => pci_config_writeb d b a v).
Proof using Hframe Hb. intros (? & ? & ?) s. by apply benign_write. Qed.
Lemma benign_mask a off on : other_reg a -> benign_fun (fun d => pci_config_maskw d b a off on).
Proof using Hframe Hb.
  intros Ha s. unfold pci_config_maskw.
  apply (benign_w a (u16 (Z.lor (Z.ldiff (pci_config_readw (pci_dev s) b a) off) on)) Ha).
Qed.

Ltac other_reg := vm_compute; intuition discriminate.

(** The part of [pci_bios_init_device] after the [switch]. *)
Definition init_tail s vendor_id device_id : state :=
  let s := on_dev s (fun d => pci_config_maskw d b PCI_COMMAND 0 (Z.lor PCI_COMMAND_IO PCI_COMMAND_MEMORY)) in
  let pin := pci_config_readb (pci_dev s) b PCI_INTERRUPT_PIN in
  let s :=
    if negb (pin =? 0) then
      let pin := pci_slot_get_pirq b (pin - 1) in
      on_dev s (fun d => pci_config_writeb d b PCI_INTERRUPT_LINE (pci_irqs pin))
    else s in
  if (vendor_id =? PCI_VENDOR_ID_INTEL) && (device_id =? PCI_DEVICE_ID_INTEL_82371AB_3) then
    on_dev s (fun d =>
      let d := pci_config_writeb d b PCI_INTERRUPT_LINE 9 in
      let d := pci_config_writel d b 0x40 (Z.lor PORT_ACPI_PM_BASE 1) in
      let d := pci_config_writeb d b 0x80 0x01 in
      let d := pci_config_writel d b 0x90 (Z.lor PORT_SMB_BASE 1) in
      pci_config_writeb d b 0xd2 0x09)
  else s.

Lemma init_tail_benign s vendor_id device_id : benign s (init_tail s vendor_id device_id).
Proof using Hframe Hb.
  unfold init_tail. set (s1 := on_dev s _).
  assert (benign s s1) as B1 by (apply benign_mask; other_reg).
  set (s2 := if negb _ then _ else s1).
  assert (benign s1 s2) as B2 by (unfold s2; destruct (negb _); [apply benign_b; other_reg|apply benign_refl]).
  apply (benign_trans _ _ _ B1), (benign_trans _ _ _ B2).
  destruct (_ && _); [|apply benign_refl].
  apply (benign_fun_comp (fun d => _) (fun d => pci_config_writeb d b 0xd2 0x09)); [|apply benign_b; other_reg].
  apply (benign_fun_comp (fun d => _) (fun d => pci_config_writel d b 0x90 _)); [|apply benign_l; other_reg].
  apply (benign_fun_comp (fun d => _) (fun d => pci_config_writeb d b 0x80 _)); [|apply benign_b; other_reg].
  apply (benign_fun_comp (fun d => _) (fun d => pci_config_writel d b 0x40 _)); [|apply benign_l; other_reg].
  apply benign_b. other_reg.
Qed.
(** A step that may also change addresses of [b]. *)
Definition own_step s s' : Prop := same_but (eq b) s s' /\ same_ptrs s s' /\ (bars_ok s -> bars_ok s').

Lemma own_trans s1 s2 s3 : own_step s1 s2 -> own_step s2 s3 -> own_step s1 s3.
Proof using.
  intros (A & [P1 P2] & B) (A' & [Q1 Q2] & B'). split_and!; [by eapply same_but_trans| |auto].
  unfold same_ptrs. by rewrite Q1, Q2, P1, P2.
Qed.

Lemma own_set s i a : 0 <= i < 7 -> in_u 32 a -> own_step s (on_dev s (fun d => pci_set_io_region_addr d b i a)).
Proof using Hframe Hbar Hb.
  intros Hi Ha. destruct (write_bar s b i a Hb Hi Ha) as (E & O & F & P). split_and!; [done|done|].
  intros Hs. by apply (bars_ok_write s _ b i a).
Qed.

(** The state after the [switch] of [pci_bios_init_device]. *)
Definition init_switch s : state :=
  let class := pci_config_readw (pci_dev s) b PCI_CLASS_DEVICE in
  let vendor_id := pci_config_readw (pci_dev s) b PCI_VENDOR_ID in
  let device_id := pci_config_readw (pci_dev s) b PCI_DEVICE_ID in
  let set s i a := on_dev s (fun d => pci_set_io_region_addr d b i a) in
  if class =? PCI_CLASS_STORAGE_IDE then
    if (vendor_id =? PCI_VENDOR_ID_INTEL)
       && ((device_id =? PCI_DEVICE_ID_INTEL_82371SB_1) || (device_id =? PCI_DEVICE_ID_INTEL_82371AB)) then
      let s := on_dev s (fun d => pci_config_writew d b 0x40 0x8000) in
      let s := on_dev s (fun d => pci_config_writew d b 0x42 0x8000) in
      default_map s b
    else
      set (set (set (set s 0 PORT_ATA1_CMD_BASE) 1 PORT_ATA1_CTRL_BASE) 2 PORT_ATA2_CMD_BASE) 3 PORT_ATA2_CTRL_BASE
  else if class =? PCI_CLASS_SYSTEM_PIC then
    if (vendor_id =? PCI_VENDOR_ID_IBM) && ((device_id =? 0x0046) || (device_id =? 0xFFFF))
    then set s 0 (0x80800000 + 0x00040000) else s
  else if class =? 0xff00 then
    if (vendor_id =? PCI_VENDOR_ID_APPLE) && ((device_id =? 0x0017) || (device_id =? 0x0022))
    then set s 0 0x80800000 else s
  else default_map s b.

Lemma init_device_split s :
  pci_bios_init_device s b =
  init_tail (init_switch s) (pci_config_readw (pci_dev s) b PCI_VENDOR_ID) (pci_config_readw (pci_dev s) b PCI_DEVICE_ID).
Proof using. done. Qed.

Lemma init_switch_cases s :
  if mapped (pci_dev s) b then exists s1, benign s s1 /\ init_switch s = default_map s1 b
  else own_step s (init_switch s).
Proof using Hframe Hbar Hb.
  assert (forall s, own_step s s) as Hrefl by (by intros; split_and!).
  assert (forall s i a, 0 <= i < 7 -> in_u 32 a -> own_step s (on_dev s (fun d => pci_set_io_region_addr d b i a))) as Hset
    by (intros; by apply own_set).
  unfold mapped, init_switch.
  destruct (_ =? PCI_CLASS_STORAGE_IDE).
  { destruct (_ && _).
    - eexists. split; [|done].
      apply (benign_trans _ (on_dev s (fun d => pci_config_writew d b 0x40 0x8000))); apply benign_w; other_reg.
    - repeat (eapply own_trans; [|by apply Hset]). apply Hrefl. }
  destruct (_ =? PCI_CLASS_SYSTEM_PIC); cbn [negb andb]; [destruct (_ && _); [by apply Hset|apply Hrefl]|].
  destruct (_ =? 0xff00); cbn [negb]; [destruct (_ && _); [by apply Hset|apply Hrefl]|].
  exists s. split; [apply benign_refl|done].
Qed.

(** The regions that a function adds. *)
Definition new_regions (d : D) : list (Z * Z) := if mapped d b then regions_of b else [].

Lemma init_device_spec st X s :
  alloc_ok st s X -> bars_ok s -> in_range X -> (forall i, (b, i) ∉ X) ->
  room (foldl advance (ptrs s) (new_regions (pci_dev s))) ->
  let s' := pci_bios_init_device s b in
  alloc_ok st s' (reverse (new_regions (pci_dev s)) ++ X) /\ bars_ok s' /\ same_but (eq b) s s' /\
  ptrs s' = foldl advance (ptrs s) (new_regions (pci_dev s)).
Proof using Hframe Hbar Hok Hb.
  intros HA Hs HX Hnin Hroom s'. unfold new_regions in *. pose proof (init_switch_cases s) as Hsw.
  assert (benign (init_switch s) s') as Hb' by apply init_tail_benign.
  destruct (mapped (pci_dev s) b).
  - destruct Hsw as (s1 & B1 & E). rewrite <- (benign_ptrs _ _ B1) in Hroom |- *.
    destruct (default_map_from st X b (seqZ 0 7) s1) as (A2 & S2 & F2 & P2); try done.
    + by eapply benign_alloc.
    + by eapply benign_bars.
    + apply NoDup_seqZ.
    + apply Forall_forall. intros i Hi%elem_of_seqZ. split; [lia|done].
    + unfold default_map in E. change (Z.of_nat PCI_NUM_REGIONS) with 7 in E. rewrite <- E in *.
      split_and!.
      * eapply benign_alloc; [exact Hb'| |exact A2]. intros b' i [Hin|Hin]%elem_of_app; [|by apply HX].
        apply elem_of_reverse, list_elem_of_fmap in Hin as (j & [= -> ->] & Hj%elem_of_seqZ). split; [done|lia].
      * by eapply benign_bars.
      * eapply same_but_trans; [by apply benign_weaken|]. eapply same_but_trans; [exact F2|by apply benign_weaken].
      * by rewrite (benign_ptrs _ _ Hb').
  - destruct Hsw as (F & P & Bs). cbn [reverse foldl] in *. change (reverse []) with (@nil (Z * Z)). cbn [app].
    split_and!.
    + eapply benign_alloc; [exact Hb'|done|]. eapply alloc_ok_same; [|exact P|exact HA].
      intros b' i Hin. destruct (HX b' i Hin). destruct F as [_ F]. apply F; try done. intros <-. by apply (Hnin i).
    + by eapply benign_bars; [|apply Bs].
    + eapply same_but_trans; [exact F|by apply benign_weaken].
    + rewrite (benign_ptrs _ _ Hb'). destruct P as [P1 P2]. unfold ptrs. by rewrite P1, P2.
Qed.
End OneDevice.

(** ** The whole machine *)

(** The registers that enumeration reads, when there are no bridges, are those of [d]. *)
Definition same_enum (d d' : D) : Prop :=
  forall b, 0 <= b < 0x10000 ->
    pci_config_readw d' b PCI_VENDOR_ID = pci_config_readw d b PCI_VENDOR_ID /\
    pci_config_readw d' b PCI_DEVICE_ID = pci_config_readw d b PCI_DEVICE_ID /\
    pci_config_readw d' b PCI_CLASS_DEVICE = pci_config_readw d b PCI_CLASS_DEVICE /\
    pci_config_readb d' b PCI_HEADER_TYPE = pci_config_readb d b PCI_HEADER_TYPE.

Lemma same_enum_step t d s s' : same_enum d (pci_dev s) -> same_but t s s' -> same_enum d (pci_dev s').
Proof using.
  intros E F b Hb. destruct (same_ids t s s' b F Hb) as (-> & -> & -> & ->). by apply E.
Qed.

Lemma mapped_same d d' b : same_enum d d' -> 0 <= b < 0x10000 -> mapped d' b = mapped d b.
Proof using. intros E Hb. destruct (E b Hb) as (E1 & E2 & E3 & _). unfold mapped. by rewrite E1, E2, E3. Qed.

Section Setup.
Context (d : D) (Hnb : forall b, is_bridge d b = false).

Lemma pci_scan_same d' fuel b max :
  same_enum d d' -> 0 <= b -> max <= 0x10000 -> pci_scan fuel d' b max = pci_scan fuel d b max.
Proof using.
  intros E. revert b. induction fuel as [|fuel IH]; intros b Hb Hmax; [done|]. cbn [pci_scan]. case_test; [done|].
  destruct (E b) as [-> _]; [lia|]. rewrite !IH by lia. done.
Qed.

Lemma pci_next_same d' b max :
  same_enum d d' -> 0 <= b <= 0x10000 -> max <= 0x10000 -> at_next d b -> pci_next d' b max = pci_next d b max.
Proof using Hnb.
  intros E Hb Hmax Hat. unfold pci_next.
  assert ((if (pci_bdf_to_fn b =? 1) && (Z.land (pci_config_readb d' (b - 1) PCI_HEADER_TYPE) 0x80 =? 0) then b + 7 else b) =
          (if (pci_bdf_to_fn b =? 1) && (Z.land (pci_config_readb d (b - 1) PCI_HEADER_TYPE) 0x80 =? 0) then b + 7 else b)) as ->.
  { destruct (Z.eq_dec b 0x10000) as [->|]; [done|]. destruct (Z.eq_dec b 0) as [->|]; [done|].
    by destruct (E (b - 1)) as (_ & _ & _ & ->); [lia|]. }
  set (b' := if _ && _ then b + 7 else b). assert (b <= b') as Hb' by (unfold b'; case_test; lia).
  rewrite (pci_scan_same d') by (done || lia). destruct (pci_scan _ d b' max) as [r|] eqn:Er; [|done]. cbn [mbind option_bind].
  case_test; [done|]. fold (is_bridge d' r) (is_bridge d r). rewrite Hnb.
  assert (0 <= r < 0x10000) as Hr.
  { pose proof (pci_next_spec d b max ltac:(lia) ltac:(lia) Hmax Hat) as (r' & max' & Hn & Hr).
    unfold pci_next in Hn. fold b' in Hn. rewrite Er in Hn. cbn [mbind option_bind] in Hn.
    rewrite (proj2 (Z.eqb_neq r (-1))) in Hn by done. fold (is_bridge d r) in Hn. rewrite Hnb in Hn. simplify_eq.
    destruct Hr as [[? _]|[? _]]; lia. }
  assert (is_bridge d' r = false) as ->; [|done]. rewrite <- (Hnb r). unfold is_bridge. by destruct (E r Hr) as (_ & _ & _ & ->).
Qed.

(** A loop over the functions whose body keeps what enumeration reads. *)
Lemma foreachpci_do_inv (I : list Z -> state -> Prop) body fuel b max l M s seen :
  (forall dn s, I dn s -> same_enum d (pci_dev s)) ->
  (forall dn s r rest, seen ++ l = dn ++ r :: rest -> 0 <= r < 0x10000 -> I dn s -> I (dn ++ [r]) (body s r)) ->
  0 <= b <= 0x10000 -> max <= 0x10000 -> at_next d b ->
  foreachpci_from fuel d b max = Some (l, M) -> I seen s ->
  exists s', foreachpci_do fuel body s b max = Some s' /\ I (seen ++ l) s'.
Proof using Hnb.
  intros He Hstep. revert b max l s seen Hstep. induction fuel as [|fuel IH]; intros b max l s seen Hstep Hb Hmax Hat Hl HI; [done|].
  cbn [foreachpci_from foreachpci_do] in *. rewrite (pci_next_same (pci_dev s)) by (done || by eapply He).
  destruct (pci_next_spec d b max) as (r & max' & En & Hr); [lia..|done|]. rewrite En in *. cbn [mbind option_bind] in *.
  destruct Hr as [(-> & -> & _)|(Hr & Hex & Hfn & _ & ->)].
  { cbn in Hl. simplify_eq. exists s. rewrite app_nil_r. done. }
  rewrite (proj2 (Z.ltb_ge r 0)) in * by lia. rewrite Hnb in Hl |- *.
  destruct (foreachpci_from fuel d (r + 1) (Z.max max 0)) as [[l' M']|] eqn:El; [|done]. cbn in Hl. simplify_eq.
  destruct (IH (r + 1) (Z.max max 0) l' (body s r) (seen ++ [r])) as (s' & -> & HI'); try done.
  - intros dn s1 r1 rest E. apply (Hstep dn s1 r1 rest). by rewrite <- E, <- (assoc_L app).
  - lia.
  - lia.
  - by apply at_next_succ; [|apply exists_present].
  - apply (Hstep seen s r l'); [done|lia|done].
  - exists s'. by rewrite <- (assoc_L app) in HI'.
Qed.

(** The regions of the functions in [l] that the default mapping serves. *)
Definition all_regions (l : list Z) : list (Z * Z) := flat_map (fun b => new_regions b d) l.

Lemma in_all_regions l b i : (b, i) ∈ all_regions l -> b ∈ l /\ 0 <= i < 7.
Proof using.
  unfold all_regions. rewrite list_elem_of_In, in_flat_map. intros (c & Hc & Hin). unfold new_regions in Hin.
  destruct (mapped d c); [|done]. apply list_elem_of_In, list_elem_of_fmap in Hin as (j & [= -> ->] & Hj%elem_of_seqZ).
  split; [by apply list_elem_of_In|lia].
Qed.

Lemma init_bridges_benign s b : 0 <= b < 0x10000 -> benign s (pci_bios_init_bridges s b).
Proof using Hframe.
  intros Hb. unfold pci_bios_init_bridges. destruct (_ && _); [|apply benign_refl]. cbn [foldl].
  change (Z.shiftr (pci_irqs 0) 3 =? 0) with false. cbv beta iota zeta.
  change (Z.shiftr (pci_irqs 1) 3 =? 0) with false. cbv beta iota zeta.
  change (Z.shiftr (pci_irqs 2) 3 =? 0) with false. cbv beta iota zeta.
  change (Z.shiftr (pci_irqs 3) 3 =? 0) with false. cbv beta iota zeta.
  match goal with |- benign s (mk_pci_state (pci_dev ?x) _ _ _) => apply (benign_trans s x); [|done] end.
  assert (forall s i v, 0 <= i < 4 -> benign s (on_dev s (fun d => pci_config_writeb d b (0x60 + i) v))) as W.
  { intros s1 i v Hi. apply benign_write; [done|lia|..]; unfold id_reg, bar_reg; Z.to_euclidean_division_equations; lia. }
  repeat (eapply benign_trans; [|apply W; lia]). apply benign_refl.
Qed.
End Setup.

Lemma foreachpci_list d l M : foreachpci d = Some (l, M) -> NoDup l /\ forall c, c ∈ l -> 0 <= c < 0x10000.
Proof using.
  intros Hl.
  destruct (foreachpci_from_spec d (Z.to_nat 0x10001) 0 0x100) as (l' & M' & E & HM & Hsort & Hin & _); [lia..|left; by left|lia|].
  fold (foreachpci d) in E. rewrite E in Hl. simplify_eq. split; [|intros c [Hc _]%Hin; lia].
  clear -Hsort. induction Hsort as [|x l Hl IH Hx]; constructor; [|done].
  intros Hin. rewrite Forall_forall in Hx. specialize (Hx x Hin). lia.
Qed.

(** The state of the second loop after the functions in [dn]. *)
Definition setup_inv (st : bool -> Z) (p : Z * Z) (d : D) (dn : list Z) s : Prop :=
  alloc_ok st s (reverse (all_regions d dn)) /\ bars_ok s /\ same_enum d (pci_dev s) /\
  ptrs s = foldl advance p (all_regions d dn).

Lemma setup_step st p d l dn s r rest :
  NoDup l -> (forall c, c ∈ l -> 0 <= c < 0x10000) -> room (foldl advance p (all_regions d l)) ->
  l = dn ++ r :: rest -> 0 <= r < 0x10000 -> setup_inv st p d dn s ->
  setup_inv st p d (dn ++ [r]) (pci_bios_init_device s r).
Proof using Hframe Hbar Hok.
  intros Hnd Hrange Hroom El Hr (HA & Hbs & He & Hp).
  assert (new_regions r (pci_dev s) = new_regions r d) as En by (unfold new_regions; by rewrite (mapped_same d)).
  assert (all_regions d (dn ++ [r]) = all_regions d dn ++ new_regions r d) as Ea.
  { unfold all_regions. rewrite flat_map_app. cbn. by rewrite app_nil_r. }
  destruct (init_device_spec r Hr st (reverse (all_regions d dn)) s HA Hbs) as (A2 & S2 & F2 & P2).
  - intros b i [Hin Hi]%elem_of_reverse%in_all_regions. split; [|done]. apply Hrange. rewrite El. apply elem_of_app. by left.
  - intros i [Hin _]%elem_of_reverse%in_all_regions. rewrite El in Hnd. apply NoDup_app in Hnd as (_ & Hnd & _).
    apply (Hnd r Hin). by left.
  - rewrite En, Hp, <- foldl_app, <- Ea.
    assert (all_regions d l = all_regions d (dn ++ [r]) ++ all_regions d rest) as Eall.
    { rewrite El. unfold all_regions. rewrite <- flat_map_app. f_equal. by rewrite <- (assoc_L app). }
    rewrite Eall, foldl_app in Hroom. set (q := foldl advance _ (all_regions d (dn ++ [r]))) in *.
    pose proof (advance_all_mono q (all_regions d rest)) as Hm. unfold room in *. destruct Hm; [|lia].
    apply Forall_forall. intros [b i] [_ Hi]%in_all_regions. done.
  - rewrite En in *. split_and!; [|done|by eapply same_enum_step|].
    + by rewrite Ea, reverse_app.
    + by rewrite P2, Hp, Ea, foldl_app.
Qed.

End Bars.

(** ** A small machine *)

(** The registers of all functions by command word; base address registers keep what
    their region allows, the others what is written to them as a whole. *)
Definition demo_hw (b i : Z) : option region :=
  if (b =? 0x10) && (i =? 0) then Some (mk_region false 25 8)
  else if (b =? 0x10) && (i =? 6) then Some (mk_region false 16 0)
  else if (b =? 0x18) && (i =? 0) then Some (mk_region true 8 1)
  else if (b =? 0x18) && (i =? 1) then Some (mk_region false 12 0)
  else None.

Definition cmd_bdf (cmd : Z) : Z := cmd / 256 mod 0x10000.
Definition cmd_region (cmd : Z) : option Z :=
  let r := cmd mod 256 / 4 in
  if (4 <=? r) && (r <=? 9) then Some (r - 4) else if r =? 12 then Some 6 else None.

#[export] Instance demo_config : PciConfig (Z -> Z) := {
  cfg_in cmd port n d := Z.shiftr (d cmd) (8 * (port - PORT_PCI_DATA));
  cfg_out cmd port n v d := fun c =>
    if negb (c =? cmd) then d c
    else match cmd_region cmd with
         | Some i => bar_value (demo_hw (cmd_bdf cmd) i) v
         | None => v
         end }.

Definition demo_machine : Z -> Z := fun cmd =>
  let b := cmd_bdf cmd in
  match cmd_region cmd with
  | Some i => bar_value (demo_hw b i) 0
  | None =>
      if cmd mod 256 =? 0 then if b =? 0 then 0x12378086 else if b =? 0x10 then 0x00b81013 else if b =? 0x18 then 0x802910ec else 0
      else if cmd mod 256 =? 8 then if b =? 0 then 0x06000002 else if b =? 0x10 then 0x03000000 else 0x02000000
      else 0
  end.
Definition demo_state : pci_state (Z -> Z) := mk_pci_state demo_machine 0 0 [].

Lemma demo_cmd b a : 0 <= b < 0x10000 -> 0 <= a < 256 ->
  cmd_bdf (pci_cmd b a) = b /\ pci_cmd b a mod 256 = a - a mod 4.
Proof.
  intros Hb Ha. rewrite pci_cmd_eq by done. unfold cmd_bdf. change (2 ^ 31) with (0x8000 * 0x10000).
  Z.to_euclidean_division_equations. lia.
Qed.

Lemma demo_region b i : 0 <= b < 0x10000 -> 0 <= i < 7 -> cmd_region (pci_cmd b (region_ofs i)) = Some i.
Proof.
  intros Hb Hi. destruct (region_ofs_range i Hi) as (Hr & _ & Hm). unfold cmd_region.
  destruct (demo_cmd b (region_ofs i) Hb Hr) as [_ ->]. rewrite Hm, Z.sub_0_r.
  unfold region_ofs, PCI_ROM_SLOT, PCI_ROM_ADDRESS, PCI_BASE_ADDRESS_0.
  destruct (Z.eqb_spec i 6) as [->|]; [done|]. replace (16 + i * 4) with ((4 + i) * 4) by lia. rewrite Z.div_mul by lia.
  repeat case_test; f_equal; lia.
Qed.

Lemma demo_ok b i r : 0 <= i < 7 -> demo_hw b i = Some r -> region_ok i r.
Proof.
  intros Hi. unfold demo_hw. repeat case_test; intros E'; simplify_eq; unfold region_ok, PCI_ROM_SLOT in *;
    repeat case_test; cbn in *; first [lia|split_and!; first [lia|done]].
Qed.

Lemma demo_bar_range b i v : 0 <= i < 7 -> in_u 32 v -> in_u 32 (bar_value (demo_hw b i) v).
Proof.
  intros Hi Hv. unfold demo_hw, in_u in *. change (2 ^ 32) with 4294967296 in *.
  repeat case_test; cbn [bar_value r_k r_flags]; try lia;
    [change (2 ^ 25) with 33554432|change (2 ^ 16) with 65536|change (2 ^ 8) with 256|change (2 ^ 12) with 4096];
    Z.to_euclidean_division_equations; lia.
Qed.

Lemma demo_frame (d : Z -> Z) cmd cmd' p p' n n' v :
  cmd <> cmd' -> cfg_in cmd' p' n' (cfg_out cmd p n v d) = cfg_in cmd' p' n' d.
Proof. intros Hne. cbn. by rewrite (proj2 (Z.eqb_neq cmd' cmd)) by done. Qed.

Lemma demo_bar (d : Z -> Z) b i v : 0 <= b < 0x10000 -> 0 <= i < 7 -> in_u 32 v ->
  pci_config_readl (pci_config_writel d b (region_ofs i) v) b (region_ofs i) = bar_value (demo_hw b i) v.
Proof.
  intros Hb Hi Hv. unfold pci_config_readl, pci_config_writel. cbn [cfg_in cfg_out demo_config].
  rewrite Z.eqb_refl, demo_region, (wrap_small 32 v) by done. cbn [negb]. rewrite Z.sub_diag, Z.mul_0_r, Z.shiftr_0_r.
  destruct (region_ofs_range i Hi) as (Hr & _ & _). destruct (demo_cmd b (region_ofs i) Hb Hr) as [-> _].
  by apply wrap_small, demo_bar_range.
Qed.

Lemma demo_bars_ok : bars_ok demo_hw demo_state.
Proof.
  intros b i Hb Hi. exists 0. split; [unfold in_u; lia|]. unfold bar, demo_state, pci_config_readl. cbn [pci_dev cfg_in demo_config].
  rewrite Z.sub_diag, Z.mul_0_r, Z.shiftr_0_r. unfold demo_machine. rewrite demo_region by done.
  destruct (region_ofs_range i Hi) as (Hr & _ & _). destruct (demo_cmd b (region_ofs i) Hb Hr) as [-> _].
  apply wrap_small, demo_bar_range; [done|]. unfold in_u. lia.
Qed.

Lemma demo_no_bridge b : is_bridge demo_machine b = false.
Proof.
  unfold is_bridge, pci_config_readb. cbn [cfg_in demo_config].
  assert (demo_machine (pci_cmd b PCI_HEADER_TYPE) = 0) as ->; [|done].
  replace (pci_cmd b PCI_HEADER_TYPE) with (pci_cmd (u16 b) PCI_HEADER_TYPE)
    by (unfold pci_cmd; by rewrite wrap_idem by lia).
  destruct (demo_cmd (u16 b) PCI_HEADER_TYPE) as [_ E]; [apply (wrap_range 16); lia|done|].
  unfold demo_machine, cmd_region. rewrite E. done.
Qed.

Lemma foreachpci_demo : foreachpci demo_machine = Some ([0; 0x10; 0x18], 0x100).
Proof. vm_compute. done. Qed.


Lemma pcibios_find_device_witness :
  exists l M regs', foreachpci demo_machine = Some (l, M) /\
    handle_1ab1 0 0 demo_machine (fun _ => 0) (mk_bregs 0 0 0 0 0 0 0x10ec 0x8029 0xb102 0) = Some (demo_machine, fun _ => 0, regs') /\
    let matches b := pci_config_readl demo_machine b PCI_VENDOR_ID =? u32 (Z.lor (Z.shiftl 0x8029 16) 0x10ec) in
    match List.filter matches l !! 0%nat with
    | Some b => bx regs' = b /\ ah regs' = 0 /\ cf regs' = false
    | None => ah regs' = RET_DEVICE_NOT_FOUND /\ cf regs' = true
    end.
Proof.
  apply (pcibios_find_device demo_machine 0 0 (fun _ => 0) (mk_bregs 0 0 0 0 0 0 0x10ec 0x8029 0xb102 0)). reflexivity.
Defined.

(** ** Where the code does not do what it means to *)

(** A bridge at 0x08 whose only writable register is the one with its bus numbers, which
    stands where other functions have the third base address. *)
Record bridge_machine := mk_bridge_machine { bus_numbers : Z }.
#[local] Instance bridge_config : PciConfig bridge_machine := {
  cfg_in cmd port n d :=
    let v := if cmd =? pci_cmd 8 PCI_PRIMARY_BUS then bus_numbers d
             else if cmd =? pci_cmd 8 0 then 0x12341234
             else if cmd =? pci_cmd 8 8 then 0x06040000
             else if cmd =? pci_cmd 8 0xc then 0x00010000 else 0 in
    Z.shiftr v (8 * (port - PORT_PCI_DATA));
  cfg_out cmd port n v d := if cmd =? pci_cmd 8 PCI_PRIMARY_BUS then mk_bridge_machine v else d }.

(** [pci_bios_init_device] takes the bus numbers of a bridge for a base address: bus 1
    behind the bridge becomes bus 0xc0. *)
Theorem init_device_breaks_bridge :
  let d := mk_bridge_machine 0x00010100 in
  is_bridge d 8 = true /\ bridge_end d 8 = 0x200 /\
  let s := pci_bios_init_device (mk_pci_state d 0xc000 BUILD_PCIMEM_START []) 8 in
  bus_numbers (pci_dev s) = 0xc000 /\ bridge_end (pci_dev s) 8 = 0xc100.
Proof. vm_compute. done. Qed.

(** Two IDE functions at 0x08 and 0x10, of another vendor than Intel, each with a region of
    8 ports. *)
Record ide_machine := mk_ide_machine { ide_first : Z; ide_second : Z }.
#[local] Instance ide_config : PciConfig ide_machine := {
  cfg_in cmd port n d :=
    let v := if cmd =? pci_cmd 0x08 PCI_BASE_ADDRESS_0 then ide_first d
             else if cmd =? pci_cmd 0x10 PCI_BASE_ADDRESS_0 then ide_second d
             else if (cmd =? pci_cmd 0x08 0) || (cmd =? pci_cmd 0x10 0) then 0x06491095
             else if (cmd =? pci_cmd 0x08 8) || (cmd =? pci_cmd 0x10 8) then 0x01010000 else 0 in
    Z.shiftr v (8 * (port - PORT_PCI_DATA));
  cfg_out cmd port n v d :=
    if cmd =? pci_cmd 0x08 PCI_BASE_ADDRESS_0 then mk_ide_machine (bar_value (Some (mk_region true 3 1)) v) (ide_second d)
    else if cmd =? pci_cmd 0x10 PCI_BASE_ADDRESS_0 then mk_ide_machine (ide_first d) (bar_value (Some (mk_region true 3 1)) v)
    else d }.

(** Both are given port 0x1f0. *)
Theorem ide_functions_share_ports :
  let s := pci_bios_init_device (mk_pci_state (mk_ide_machine 1 1) 0xc000 BUILD_PCIMEM_START []) 0x08 in
  pci_dev (pci_bios_init_device s 0x10) = mk_ide_machine 0x1f1 0x1f1.
Proof. vm_compute. done. Qed.
