(* ===== verification/UsbHid.v ===== *)
(** * USB keyboard: [bios/seabios/src/usb-hid.c]

    A keyboard sends reports of the keys that are down; [handle_key] compares a report
    with the one before, kept in the extended BIOS data area, and turns the difference
    into scan codes for the keyboard service.  The functions below [handle_key] pass a
    state of any type to [process_key]: with lists of codes they say what is sent, with
    memory they are the code. *)

From S2P Require Import Prelude BiosUtil Bregs Kbd.
Local Open Scope Z_scope.
Local Open Scope coremu_scope.

(** ** Tables and data *)

Definition KeyToScanCode : list Z :=
  [0x0000; 0x0000; 0x0000; 0x0000; 0x001e; 0x0030; 0x002e; 0x0020;
   0x0012; 0x0021; 0x0022; 0x0023; 0x0017; 0x0024; 0x0025; 0x0026;
   0x0032; 0x0031; 0x0018; 0x0019; 0x0010; 0x0013; 0x001f; 0x0014;
   0x0016; 0x002f; 0x0011; 0x002d; 0x0015; 0x002c; 0x0002; 0x0003;
   0x0004; 0x0005; 0x0006; 0x0007; 0x0008; 0x0009; 0x000a; 0x000b;
   0x001c; 0x0001; 0x000e; 0x000f; 0x0039; 0x000c; 0x000d; 0x001a;
   0x001b; 0x002b; 0x0000; 0x0027; 0x0028; 0x0029; 0x0033; 0x0034;
   0x0035; 0x003a; 0x003b; 0x003c; 0x003d; 0x003e; 0x003f; 0x0040;
   0x0041; 0x0042; 0x0043; 0x0044; 0x0057; 0x0058; 0xe037; 0x0046;
   0xe11d; 0xe052; 0xe047; 0xe049; 0xe053; 0xe04f; 0xe051; 0xe04d;
   0xe04b; 0xe050; 0xe048; 0x0045; 0xe035; 0x0037; 0x004a; 0x004e;
   0xe01c; 0x004f; 0x0050; 0x0051; 0x004b; 0x004c; 0x004d; 0x0047;
   0x0048; 0x0049; 0x0052; 0x0053].

(** Left control, shift, alt and gui, then the right ones. *)
Definition ModifierToScanCode : list Z := [0x001d; 0x002a; 0x0038; 0xe05b; 0xe01d; 0x0036; 0xe038; 0xe05c].

Definition RELEASEBIT : Z := 0x80.
Definition KEYREPEATWAITMS : Z := 500.
Definition KEYREPEATMS : Z := 33.

Record keyevent := mk_keyevent { ev_modifiers : Z; ev_keys : list Z }.
Record usbkeyinfo := mk_usbkeyinfo { modifiers : Z; repeatcount : Z; keys : list Z }.

Definition NKEYS : nat := 6.

(** ** Events *)

Section Events.
Context {T : Type} (process_key : T -> Z -> T).

Definition prockeys (t : T) (keys : Z) : T :=
  if 0xff <? keys then
    let key := u8 (Z.shiftr keys 8) in
    if key =? 0xe1 then
      let t := process_key t 0xe1 in
      let t := process_key t (Z.lor 0x1d (Z.land keys RELEASEBIT)) in
      process_key t (Z.lor 0x45 (Z.land keys RELEASEBIT))
    else process_key (process_key t key) (u8 keys)
  else process_key t (u8 keys).

Definition procscankey (t : T) (key flags : Z) : T :=
  match KeyToScanCode !! Z.to_nat key with
  | None => t
  | Some keys => if negb (keys =? 0) then prockeys t (Z.lor keys flags) else t
  end.

(** From bit [i] on; a byte of modifiers has at most [n = 8 - i] bits left. *)
Fixpoint procmodkey_from (n i : nat) (t : T) (mods flags : Z) : T :=
  match n with
  | O => t
  | S n =>
      if mods =? 0 then t
      else if negb (Z.land mods (Z.shiftl 1 (Z.of_nat i)) =? 0) then
        let t := prockeys t (Z.lor (nth i ModifierToScanCode 0) flags) in
        procmodkey_from n (S i) t (Z.ldiff mods (Z.shiftl 1 (Z.of_nat i))) flags
      else procmodkey_from n (S i) t mods flags
  end.
Definition procmodkey (t : T) (mods flags : Z) : T := procmodkey_from 8 0 t mods flags.

(** The loop over [j]: the report without the key, if it has it. *)
Fixpoint still_pressed (dkeys : list Z) (key : Z) : option (list Z) :=
  match dkeys with
  | [] => None
  | k :: dkeys => if k =? key then Some (0 :: dkeys) else cons k <$> still_pressed dkeys key
  end.

(** The check for keys no longer pressed, from [i] on with [n] entries left. *)
Fixpoint release_loop (n i addpos : nat) (t : T) (old : usbkeyinfo) (dkeys : list Z)
  : T * nat * usbkeyinfo * list Z :=
  match n with
  | O => (t, addpos, old, dkeys)
  | S n =>
      let key := nth i (keys old) 0 in
      if key =? 0 then (t, addpos, old, dkeys)
      else
        match still_pressed dkeys key with
        | Some dkeys =>
            release_loop n (S i) (S addpos) t
              (mk_usbkeyinfo (modifiers old) (repeatcount old) (<[addpos := key]> (keys old))) dkeys
        | None =>
            let t := procscankey t key RELEASEBIT in
            let old :=
              if bool_decide (NKEYS <= i + 1)%nat || (nth (i + 1) (keys old) 0 =? 0)
              then mk_usbkeyinfo (modifiers old) 0xff (keys old) else old in
            release_loop n (S i) addpos t old dkeys
        end
  end.

(** The new keys of the report; a store outside [old.keys] is [None]. *)
Fixpoint press_loop (addpos : nat) (t : T) (old : usbkeyinfo) (dkeys : list Z) : option (T * nat * usbkeyinfo) :=
  match dkeys with
  | [] => Some (t, addpos, old)
  | key :: dkeys =>
      if key =? 0 then press_loop addpos t old dkeys
      else
        let t := procscankey t key 0 in
        if bool_decide (addpos < NKEYS)%nat then
          press_loop (S addpos) t
            (mk_usbkeyinfo (modifiers old) (KEYREPEATWAITMS / KEYREPEATMS + 1) (<[addpos := key]> (keys old))) dkeys
        else None
  end.

(** The check for a key repeat. *)
Definition repeat_key (t : T) (addpos : nat) (old : usbkeyinfo) : T * usbkeyinfo :=
  match addpos with
  | O => (t, old)
  | S last =>
      if repeatcount old =? 0 then (procscankey t (nth last (keys old) 0) 0, old)
      else if negb (repeatcount old =? 0xff) then
        (t, mk_usbkeyinfo (modifiers old) (u8 (repeatcount old - 1)) (keys old))
      else (t, old)
  end.

(** [handle_key] between the load and the store of [usbkey_last]. *)
Definition compare_keys (t : T) (old : usbkeyinfo) (data : keyevent) : option (T * usbkeyinfo) :=
  let '(t, addpos, old, dkeys) := release_loop NKEYS 0 0 t old (ev_keys data) in
  let t := procmodkey t (Z.ldiff (modifiers old) (ev_modifiers data)) RELEASEBIT in
  let t := procmodkey t (Z.ldiff (ev_modifiers data) (modifiers old)) 0 in
  let old := mk_usbkeyinfo (ev_modifiers data) (repeatcount old) (keys old) in
  '(t, addpos, old) ← press_loop addpos t old dkeys;
  let old := if bool_decide (addpos < NKEYS)%nat
             then mk_usbkeyinfo (modifiers old) (repeatcount old) (<[addpos := 0]> (keys old)) else old in
  Some (repeat_key t addpos old).
End Events.

(** ** The code on memory *)

Section Handle.
Context (int15 : memory -> Z -> memory * Z * Z).

(** After a reset nothing more is processed. *)
Definition send_key (r : key_result) (c : Z) : key_result :=
  match r with KeyDone m => process_key int15 m c | KeyReset m => KeyReset m end.

Definition load_keys (m : memory) (a : Z) : usbkeyinfo :=
  mk_usbkeyinfo (m a) (m (a + 1)) [m (a + 2); m (a + 3); m (a + 4); m (a + 5); m (a + 6); m (a + 7)].
Definition store_keys (m : memory) (a : Z) (old : usbkeyinfo) : memory :=
  fold_left (fun m '(i, v) => writeb m (a + i) v)
    (zip [0; 1; 2; 3; 4; 5; 6; 7] (modifiers old :: repeatcount old :: keys old)) m.

(** [None] is a store outside an array. *)
Definition handle_key (m : memory) (data : keyevent) : option key_result :=
  let ebda_seg := get_ebda_seg m in
  let a := ebda_seg * 16 + offsetof extended_bios_data_area_s "usbkey_last" in
  '(r, old) ← compare_keys send_key (KeyDone m) (load_keys m a) data;
  Some (match r with KeyDone m => KeyDone (store_keys m a old) | KeyReset m => KeyReset m end).

(** The loop of [usb_check_key] over the reports that polling gives. *)
Fixpoint usb_check_key (m : memory) (reports : list keyevent) : option key_result :=
  match reports with
  | [] => Some (KeyDone m)
  | data :: reports =>
      r ← handle_key m data;
      match r with KeyDone m => usb_check_key m reports | KeyReset m => Some (KeyReset m) end
  end.
End Handle.

(** ** A keyboard *)

(** What a user does, and the codes that a PS/2 keyboard sends for it. *)
Inductive event := KeyDown (k : Z) | KeyUp (k : Z) | KeyRepeat (k : Z) | ModDown (i : nat) | ModUp (i : nat).

Definition snoc (l : list Z) (c : Z) : list Z := l ++ [c].
Definition codes_of (e : event) : list Z :=
  match e with
  | KeyDown k | KeyRepeat k => procscankey snoc [] k 0
  | KeyUp k => procscankey snoc [] k RELEASEBIT
  | ModDown i => prockeys snoc [] (nth i ModifierToScanCode 0)
  | ModUp i => prockeys snoc [] (Z.lor (nth i ModifierToScanCode 0) RELEASEBIT)
  end.
Definition codes (es : list event) : list Z := mjoin (codes_of <$> es).

(** The keys and the modifiers that are down before and after; the keys are among [U]. *)
Inductive typed (U : gset Z) : gset Z -> Z -> list event -> gset Z -> Z -> Prop :=
| typed_nil h ms : typed U h ms [] h ms
| typed_down h ms k es h' ms' :
    k ∈ U -> k ∉ h -> typed U ({[k]} ∪ h) ms es h' ms' -> typed U h ms (KeyDown k :: es) h' ms'
| typed_up h ms k es h' ms' : k ∈ h -> typed U (h ∖ {[k]}) ms es h' ms' -> typed U h ms (KeyUp k :: es) h' ms'
| typed_repeat h ms k es h' ms' : k ∈ h -> typed U h ms es h' ms' -> typed U h ms (KeyRepeat k :: es) h' ms'
| typed_mod_down h ms i es h' ms' :
    Z.testbit ms (Z.of_nat i) = false -> typed U h (Z.setbit ms (Z.of_nat i)) es h' ms' -> typed U h ms (ModDown i :: es) h' ms'
| typed_mod_up h ms i es h' ms' :
    Z.testbit ms (Z.of_nat i) = true -> typed U h (Z.clearbit ms (Z.of_nat i)) es h' ms' -> typed U h ms (ModUp i :: es) h' ms'.
#[local] Hint Constructors typed : core.

Lemma typed_app U h ms es1 h1 ms1 es2 h2 ms2 :
  typed U h ms es1 h1 ms1 -> typed U h1 ms1 es2 h2 ms2 -> typed U h ms (es1 ++ es2) h2 ms2.
Proof. induction 1; simpl; eauto. Qed.

Lemma typed_eq U h h0 ms es h' h0' ms' : typed U h0 ms es h0' ms' -> h = h0 -> h' = h0' -> typed U h ms es h' ms'.
Proof. by intros ? -> ->. Qed.

Lemma codes_app es1 es2 : codes (es1 ++ es2) = codes es1 ++ codes es2.
Proof. unfold codes. by rewrite fmap_app, join_app. Qed.

(** ** The functions on a state send the codes *)

Section Sends.
Context {T : Type} (proc : T -> Z -> T).

(** [t'] is [t] after the codes of [es]. *)
Definition sends (t : T) (es : list event) (t' : T) : Prop := t' = foldl proc t (codes es).

Lemma sends_app t es1 t1 es2 t2 : sends t es1 t1 -> sends t1 es2 t2 -> sends t (es1 ++ es2) t2.
Proof. unfold sends. intros -> ->. by rewrite codes_app, foldl_app. Qed.

Lemma prockeys_fold t k : prockeys proc t k = foldl proc t (prockeys snoc [] k).
Proof. unfold prockeys. by repeat case_test. Qed.

Lemma procscankey_fold t k f : procscankey proc t k f = foldl proc t (procscankey snoc [] k f).
Proof. unfold procscankey. destruct (_ !! _); [|done]. case_test; [apply prockeys_fold|done]. Qed.

Lemma sends_nil t : sends t [] t.
Proof. done. Qed.

Lemma sends_one t e t' : t' = foldl proc t (codes_of e) -> sends t [e] t'.
Proof. intros ->. unfold sends, codes. simpl. by rewrite app_nil_r. Qed.

(** The modifiers named by the bits of [mods] go down or up, and only those. *)
Lemma procmodkey_spec U (down : bool) n i t h ms mods :
  (i + n = 8)%nat ->
  (forall b, 0 <= b -> Z.testbit mods b = true -> Z.of_nat i <= b < 8 /\ Z.testbit ms b = negb down) ->
  exists es, sends t es (procmodkey_from proc n i t mods (if down then 0 else RELEASEBIT)) /\
    typed U h ms es h (if down then Z.lor ms mods else Z.ldiff ms mods).
Proof.
  revert i t ms mods. induction n as [|n IH]; intros i t ms mods Hn Hms; cbn [procmodkey_from].
  { exists []. split; [done|]. assert (mods = 0) as ->.
    { apply Z.bits_inj'. intros b Hb. rewrite Z.bits_0. destruct (Z.testbit mods b) eqn:E; [|done].
      destruct (Hms b Hb E). lia. }
    destruct down; rewrite ?Z.lor_0_r, ?Z.ldiff_0_r; constructor. }
  destruct (Z.eqb_spec mods 0) as [->|].
  { exists []. split; [done|]. destruct down; rewrite ?Z.lor_0_r, ?Z.ldiff_0_r; constructor. }
  change (negb (Z.land mods (Z.shiftl 1 (Z.of_nat i)) =? 0)) with (has mods (Z.shiftl 1 (Z.of_nat i))).
  rewrite has_bit by lia. destruct (Z.testbit mods (Z.of_nat i)) eqn:Ei.
  - set (ms1 := if down then Z.setbit ms (Z.of_nat i) else Z.clearbit ms (Z.of_nat i)).
    replace (Z.ldiff mods (Z.shiftl 1 (Z.of_nat i))) with (Z.clearbit mods (Z.of_nat i))
      by reflexivity.
    destruct (IH (S i) (prockeys proc t (Z.lor (nth i ModifierToScanCode 0) (if down then 0 else RELEASEBIT))) ms1
      (Z.clearbit mods (Z.of_nat i))) as (es & Hs & Ht); [lia| |].
    + intros b Hb E. destruct (decide (b = Z.of_nat i)) as [->|]; [by rewrite Z.clearbit_eq in E|].
      rewrite Z.clearbit_neq in E by lia. destruct (Hms b Hb E) as [? <-]. split; [lia|].
      subst ms1. destruct down; [apply Z.setbit_neq|apply Z.clearbit_neq]; lia.
    + exists ((if down then ModDown i else ModUp i) :: es).
      split; [eapply (sends_app t [_]); [apply sends_one|exact Hs]|].
      * rewrite prockeys_fold. destruct down; [|done]. by rewrite Z.lor_0_r.
      * destruct (Hms (Z.of_nat i) ltac:(lia) Ei) as [_ Hi]. subst ms1.
        destruct down; constructor; [done| |done|].
        all: eapply eq_rect; [exact Ht|]; apply Z.bits_inj'; intros b Hb;
          rewrite ?Z.lor_spec, ?Z.ldiff_spec; destruct (decide (b = Z.of_nat i)) as [->|];
          rewrite ?Z.clearbit_eq, ?Z.setbit_eq, ?Z.clearbit_neq, ?Z.setbit_neq, ?Ei by lia; simpl;
          rewrite ?orb_true_r, ?andb_false_r; done.
  - apply IH; [lia|]. intros b Hb E. destruct (Hms b Hb E) as [? ?]. split; [|done].
    destruct (decide (b = Z.of_nat i)) as [->|]; [congruence|lia].
Qed.

(** ** Held keys *)

Definition nonzero (l : list Z) : list Z := filter (fun k => k <> 0) l.

Lemma still_pressed_spec dkeys key : key <> 0 ->
  match still_pressed dkeys key with
  | Some dkeys' => nonzero dkeys ≡ₚ key :: nonzero dkeys'
  | None => key ∉ nonzero dkeys
  end.
Proof.
  intros Hk. unfold nonzero. induction dkeys as [|k dkeys IH]; cbn [still_pressed]; [apply not_elem_of_nil|].
  destruct (Z.eqb_spec k key) as [->|Hne].
  - by rewrite filter_cons_True, (filter_cons_False _ 0) by lia.
  - destruct (still_pressed dkeys key) as [d|]; cbn [fmap option_fmap option_map].
    + destruct (decide (k = 0)) as [->|].
      * by rewrite !(filter_cons_False _ 0) by lia.
      * rewrite !filter_cons_True by done. rewrite IH. apply Permutation_swap.
    + destruct (decide (k = 0)) as [->|].
      * by rewrite filter_cons_False by lia.
      * rewrite filter_cons_True by done. rewrite not_elem_of_cons. auto.
Qed.

(** The keys of [usbkey_last], up to the first zero. *)
Fixpoint held_keys (l : list Z) : list Z :=
  match l with [] => [] | k :: l => if k =? 0 then [] else k :: held_keys l end.

Lemma drop_cons_nth (l : list Z) i : (i < length l)%nat -> drop i l = nth i l 0 :: drop (S i) l.
Proof.
  intros Hi. destruct (nth_lookup_or_length l i 0) as [H|H]; [|lia]. by apply drop_S.
Qed.

Lemma take_insert_S (l : list Z) i k : (i < length l)%nat -> take (S i) (<[i := k]> l) = take i l ++ [k].
Proof.
  intros Hi. rewrite (take_S_r _ _ k) by (by apply list_lookup_insert_eq). by rewrite take_insert_ge by lia.
Qed.

Lemma release_loop_spec U n i addpos t old dkeys ms :
  length (keys old) = NKEYS -> (i + n = NKEYS)%nat -> (addpos <= i)%nat -> 0 ∉ take addpos (keys old) ->
  NoDup (take addpos (keys old) ++ held_keys (drop i (keys old))) ->
  NoDup (take addpos (keys old) ++ nonzero dkeys) ->
  exists es t' addpos' old' dkeys',
    release_loop proc n i addpos t old dkeys = (t', addpos', old', dkeys') /\ sends t es t' /\
    typed U (list_to_set (take addpos (keys old) ++ held_keys (drop i (keys old)))) ms es
          (list_to_set (take addpos' (keys old'))) ms /\
    length (keys old') = NKEYS /\ (addpos' <= NKEYS)%nat /\ modifiers old' = modifiers old /\
    0 ∉ take addpos' (keys old') /\
    take addpos' (keys old') ++ nonzero dkeys' ≡ₚ take addpos (keys old) ++ nonzero dkeys.
Proof.
  revert i addpos t old dkeys. induction n as [|n IH]; intros i addpos t old dkeys Hlen Hi Ha H0 Hnd Hnd2; cbn [release_loop].
  { exists [], t, addpos, old, dkeys. rewrite drop_ge, app_nil_r by lia. split_and!; done || lia. }
  pose proof (drop_cons_nth (keys old) i ltac:(lia)) as Ed. rewrite Ed in *. cbn [held_keys] in *.
  destruct (Z.eqb_spec (nth i (keys old) 0) 0) as [Ek|Hk].
  { exists [], t, addpos, old, dkeys. rewrite app_nil_r. split_and!; done || lia. }
  set (key := nth i (keys old) 0) in *. pose proof (still_pressed_spec dkeys key Hk) as Hs.
  destruct (still_pressed dkeys key) as [d|].
  - set (old1 := mk_usbkeyinfo _ _ _).
    assert (take (S addpos) (keys old1) = take addpos (keys old) ++ [key]) as Et by (apply take_insert_S; lia).
    assert (drop (S i) (keys old1) = drop (S i) (keys old)) as Ed1 by (apply drop_insert_lt; lia).
    destruct (IH (S i) (S addpos) t old1 d) as (es & t' & a' & o' & d' & -> & Hsn & Hty & HH);
      [by rewrite <- Hlen; apply length_insert|lia|lia
      |rewrite Et; set_solver|by rewrite Et, Ed1, <- (assoc_L (++))|by rewrite Et, <- (assoc_L (++)), <- Hs|].
    exists es, t', a', o', d'. rewrite Et, Ed1, <- (assoc_L (++)) in Hty. destruct HH as (? & ? & ? & ? & HP).
    split_and!; try done. by rewrite HP, Et, <- (assoc_L (++)), Hs.
  - set (old1 := if _ : bool then _ else old). assert (keys old1 = keys old /\ modifiers old1 = modifiers old) as [Ek1 Em1]
      by (unfold old1; by case_match).
    rewrite <- Permutation_middle in Hnd. apply NoDup_cons in Hnd as [Hnin Hnd].
    destruct (IH (S i) addpos (procscankey proc t key RELEASEBIT) old1 dkeys) as (es & t' & a' & o' & d' & -> & Hsn & Hty & HH);
      rewrite ?Ek1 in *; [done|lia|lia|done..|].
    exists (KeyUp key :: es), t', a', o', d'. rewrite Em1 in HH. split; [done|]. split.
    { eapply (sends_app t [_]); [apply sends_one, procscankey_fold|done]. }
    split; [|done]. constructor; [set_solver|]. eapply typed_eq; [exact Hty|set_solver|done].
Qed.

Lemma press_loop_spec U addpos t old dkeys ms :
  length (keys old) = NKEYS -> (addpos + length (nonzero dkeys) <= NKEYS)%nat ->
  (forall k, k ∈ nonzero dkeys -> k ∈ U) ->
  NoDup (take addpos (keys old) ++ nonzero dkeys) ->
  exists es t' old', press_loop proc addpos t old dkeys = Some (t', addpos + length (nonzero dkeys), old')%nat /\
    sends t es t' /\
    typed U (list_to_set (take addpos (keys old))) ms es (list_to_set (take addpos (keys old) ++ nonzero dkeys)) ms /\
    length (keys old') = NKEYS /\ modifiers old' = modifiers old /\
    take (addpos + length (nonzero dkeys)) (keys old') = take addpos (keys old) ++ nonzero dkeys.
Proof.
  revert addpos t old. induction dkeys as [|k dkeys IH]; intros addpos t old Hlen Hb HU Hnd; cbn [press_loop].
  { exists [], t, old. unfold nonzero. simpl. rewrite Nat.add_0_r, app_nil_r. split_and!; done. }
  unfold nonzero in *. destruct (Z.eqb_spec k 0) as [->|Hk].
  { rewrite filter_cons_False in * by lia. by apply IH. }
  rewrite filter_cons_True in * by done. cbn [length] in *. rewrite bool_decide_true by lia.
  set (old1 := mk_usbkeyinfo _ _ _).
  assert (take (S addpos) (keys old1) = take addpos (keys old) ++ [k]) as Et by (apply take_insert_S; lia).
  destruct (IH (S addpos) (procscankey proc t k 0) old1) as (es & t' & o' & -> & Hsn & Hty & Hl & Hm & Htk);
    [by rewrite <- Hlen; apply length_insert|lia|set_solver|by rewrite Et, <- (assoc_L (++))|].
  rewrite Et, <- (assoc_L (++)) in *. simpl in Hty, Htk.
  exists (KeyDown k :: es), t', o'. rewrite Nat.add_succ_r. split; [done|]. split.
  { eapply (sends_app t [_]); [apply sends_one, procscankey_fold|done]. }
  split; [|done]. rewrite <- Permutation_middle, NoDup_cons in Hnd. destruct Hnd as [Hnin _].
  constructor; [set_solver|set_solver|]. eapply typed_eq; [exact Hty|set_solver|done].
Qed.

Definition keys_ok (old : usbkeyinfo) : Prop :=
  length (keys old) = NKEYS /\ NoDup (held_keys (keys old)) /\ in_u 8 (modifiers old).

(** A report names no key twice. *)
Definition report_ok (data : keyevent) : Prop :=
  length (ev_keys data) = NKEYS /\ NoDup (nonzero (ev_keys data)) /\ in_u 8 (ev_modifiers data).

Lemma u8_high_bits x b : in_u 8 x -> Z.testbit x b = true -> b < 8.
Proof.
  intros Hx Hb. destruct (decide (b < 8)); [done|].
  rewrite <- (wrap_small 8 x Hx) in Hb. unfold wrap in Hb. rewrite Z.mod_pow2_bits_high in Hb by lia. done.
Qed.

Lemma held_keys_app l l' : 0 ∉ l -> held_keys (l ++ 0 :: l') = l.
Proof.
  induction l as [|k l IH]; intros H0; [done|]. apply not_elem_of_cons in H0 as [? ?]. cbn.
  rewrite (proj2 (Z.eqb_neq k 0)) by done. by rewrite IH.
Qed.

Lemma held_keys_all l : 0 ∉ l -> held_keys l = l.
Proof.
  induction l as [|k l IH]; intros H0; [done|]. apply not_elem_of_cons in H0 as [? ?]. cbn.
  rewrite (proj2 (Z.eqb_neq k 0)) by done. by rewrite IH.
Qed.

Lemma nonzero_0 l : 0 ∉ nonzero l.
Proof. unfold nonzero. rewrite list_elem_of_filter. naive_solver. Qed.

(** The last keys and the terminator. *)
Lemma held_keys_end (l ks : list Z) n : length l = NKEYS -> (n <= NKEYS)%nat -> take n l = ks -> 0 ∉ ks ->
  held_keys (if bool_decide (n < NKEYS)%nat then <[n := 0]> l else l) = ks.
Proof.
  intros Hl Hn <- H0. case_bool_decide.
  - rewrite insert_take_drop by lia. by apply held_keys_app.
  - rewrite take_ge in * by lia. by apply held_keys_all.
Qed.

Lemma modifiers_spec U t h old new :
  in_u 8 old -> in_u 8 new ->
  exists es, sends t es (procmodkey proc (procmodkey proc t (Z.ldiff old new) RELEASEBIT) (Z.ldiff new old) 0) /\
    typed U h old es h new.
Proof.
  intros Ho Hn. unfold procmodkey.
  destruct (procmodkey_spec U false 8 0 t h old (Z.ldiff old new)) as (es1 & Hs1 & Ht1); [done| |].
  { intros b Hb E. rewrite Z.ldiff_spec in E. apply andb_true_iff in E as [E _]. split; [|done].
    pose proof (u8_high_bits _ _ Ho E). lia. }
  set (t1 := procmodkey_from _ 8 0 t _ _) in Hs1.
  destruct (procmodkey_spec U true 8 0 t1 h (Z.ldiff old (Z.ldiff old new)) (Z.ldiff new old)) as (es2 & Hs2 & Ht2); [done| |].
  { intros b Hb E. rewrite !Z.ldiff_spec in *. apply andb_true_iff in E as [E E'].
    pose proof (u8_high_bits _ _ Hn E). apply negb_true_iff in E'. rewrite E'. split; [lia|done]. }
  exists (es1 ++ es2). split; [by eapply sends_app|]. eapply typed_app; [exact Ht1|].
  eapply eq_rect; [exact Ht2|]. apply Z.bits_inj'. intros b Hb. rewrite Z.lor_spec, !Z.ldiff_spec.
  by destruct (Z.testbit old b), (Z.testbit new b).
Qed.

Lemma repeat_key_spec U t addpos old :
  length (keys old) = NKEYS -> (addpos <= NKEYS)%nat ->
  exists es t' old', repeat_key proc t addpos old = (t', old') /\ sends t es t' /\
    (forall h ms, (forall k, k ∈ take addpos (keys old) -> k ∈ h) -> typed U h ms es h ms) /\
    keys old' = keys old /\ modifiers old' = modifiers old.
Proof.
  intros Hl Ha. destruct addpos as [|last]; cbn [repeat_key]; [exists [], t, old; split_and!; done || constructor|].
  case_test; [|case_test; exists []; eexists t, _; split_and!; done || constructor].
  exists [KeyRepeat (nth last (keys old) 0)]. eexists _, old. split; [done|].
  split; [apply sends_one, procscankey_fold|]. split; [|done]. intros h ms Hin. constructor; [|constructor].
  apply Hin. destruct (nth_lookup_or_length (keys old) last 0) as [H|H]; [|lia].
  apply list_elem_of_lookup. exists last. by rewrite lookup_take_lt by lia.
Qed.

Lemma compare_keys_spec U t old data :
  keys_ok old -> report_ok data -> (forall k, k ∈ nonzero (ev_keys data) -> k ∈ U) ->
  exists es t' old', compare_keys proc t old data = Some (t', old') /\ sends t es t' /\
    typed U (list_to_set (held_keys (keys old))) (modifiers old) es
          (list_to_set (nonzero (ev_keys data))) (ev_modifiers data) /\
    held_keys (keys old') ≡ₚ nonzero (ev_keys data) /\ modifiers old' = ev_modifiers data /\ keys_ok old'.
Proof.
  intros (Hl & Hnd & Hm) (Hdl & Hdn & Hdm) HU. unfold compare_keys.
  destruct (release_loop_spec U NKEYS 0 0 t old (ev_keys data) (modifiers old))
    as (es1 & t1 & a1 & o1 & d1 & -> & Hs1 & Ht1 & Hl1 & Ha1 & Hm1 & H01 & HP); [done..|apply not_elem_of_nil|done|done|].
  cbn [take drop app] in Ht1, HP. rewrite Hm1.
  destruct (modifiers_spec U t1 (list_to_set (take a1 (keys o1))) (modifiers old) (ev_modifiers data) Hm Hdm) as (es2 & Hs2 & Ht2).
  assert (a1 + length (nonzero d1) <= NKEYS)%nat as Hb.
  { pose proof (Permutation_length HP) as HL. rewrite length_app, length_take_le in HL by lia. rewrite HL, <- Hdl.
    apply length_filter. }
  assert (NoDup (take a1 (keys o1) ++ nonzero d1)) as Hnd1 by (by rewrite HP).
  destruct (press_loop_spec U a1 (procmodkey proc (procmodkey proc t1 (Z.ldiff (modifiers old) (ev_modifiers data)) RELEASEBIT)
      (Z.ldiff (ev_modifiers data) (modifiers old)) 0) (mk_usbkeyinfo (ev_modifiers data) (repeatcount o1) (keys o1)) d1
      (ev_modifiers data)) as (es3 & t3 & o3 & -> & Hs3 & Ht3 & Hl3 & Hm3 & Htk);
    [done|done|intros k Hk; apply HU; rewrite <- HP; set_solver|done|].
  cbn [mbind option_bind keys modifiers] in *. set (n := (a1 + length (nonzero d1))%nat) in *.
  set (o4 := if _ : bool then _ else o3).
  assert (keys o4 = if bool_decide (n < NKEYS)%nat then <[n := 0]> (keys o3) else keys o3) as Ek4
    by (unfold o4; by case_bool_decide).
  assert (modifiers o4 = modifiers o3) as Em4 by (unfold o4; by case_bool_decide).
  assert (length (keys o4) = NKEYS) as Hl4 by (rewrite Ek4; case_bool_decide; by rewrite ?length_insert).
  assert (take n (keys o4) = take a1 (keys o1) ++ nonzero d1) as Htk4.
  { rewrite Ek4, <- Htk. case_bool_decide; [|done]. by rewrite take_insert_ge by lia. }
  destruct (repeat_key_spec U t3 n o4 Hl4 Hb) as (es4 & t4 & o5 & -> & Hs4 & Ht4 & Ek5 & Em5).
  assert (held_keys (keys o5) = take a1 (keys o1) ++ nonzero d1) as Eh.
  { rewrite Ek5, Ek4. apply held_keys_end; [done|lia|done|]. rewrite elem_of_app. intros [|?%nonzero_0]; done. }
  exists (es1 ++ es2 ++ es3 ++ es4), t4, o5. split; [done|].
  split; [eapply sends_app; [done|]; eapply sends_app; [done|]; by eapply sends_app|].
  assert (list_to_set (nonzero (ev_keys data)) =@{gset Z} list_to_set (take a1 (keys o1) ++ nonzero d1)) as Eset
    by (apply list_to_set_perm_L; by rewrite HP).
  split; [|rewrite Eh, HP; split_and!; [done|congruence|]].
  - rewrite Eset. eapply typed_app; [exact Ht1|]. eapply typed_app; [exact Ht2|]. eapply typed_app; [exact Ht3|].
    apply Ht4. rewrite Htk4. intros k Hk. by apply elem_of_list_to_set.
  - split_and!; [by rewrite Ek5|by rewrite Eh|by rewrite Em5, Em4, Hm3].
Qed.
End Sends.

(** ** Sequences of reports *)

Fixpoint compare_reports {T} (proc : T -> Z -> T) (t : T) (old : usbkeyinfo) (reports : list keyevent)
  : option (T * usbkeyinfo) :=
  match reports with
  | [] => Some (t, old)
  | data :: reports => '(t, old) ← compare_keys proc t old data; compare_reports proc t old reports
  end.

Definition no_keys : usbkeyinfo := mk_usbkeyinfo 0 0 (replicate NKEYS 0).
Definition no_report : keyevent := mk_keyevent 0 (replicate NKEYS 0).
Definition down (data : keyevent) : gset Z := list_to_set (nonzero (ev_keys data)).

Lemma compare_reports_spec {T} (proc : T -> Z -> T) U t old data0 reports :
  keys_ok old -> held_keys (keys old) ≡ₚ nonzero (ev_keys data0) -> modifiers old = ev_modifiers data0 ->
  Forall report_ok reports -> Forall (fun d => down d ⊆ U) reports ->
  exists es t' old', compare_reports proc t old reports = Some (t', old') /\ sends proc t es t' /\
    typed U (down data0) (ev_modifiers data0) es
          (down (List.last reports data0)) (ev_modifiers (List.last reports data0)).
Proof.
  revert t old data0. induction reports as [|data reports IH]; intros t old data0 Ho Hh Hm Hr HU.
  { exists [], t, old. split_and!; [done..|constructor]. }
  apply Forall_cons in Hr as [Hd Hr]. apply Forall_cons in HU as [HUd HU]. cbn [compare_reports].
  destruct (compare_keys_spec proc U t old data Ho Hd (fun k Hk => HUd k (proj2 (elem_of_list_to_set k _) Hk))) as (es1 & t1 & o1 & -> & Hs1 & Ht1 & Hh1 & Hm1 & Ho1).
  destruct (IH t1 o1 data Ho1 Hh1 Hm1 Hr HU) as (es2 & t2 & o2 & E2 & Hs2 & Ht2).
  exists (es1 ++ es2), t2, o2. split; [done|]. split; [by eapply sends_app|].
  rewrite last_cons. eapply typed_app; [|exact Ht2]. rewrite Hm in Ht1.
  eapply typed_eq; [exact Ht1|by apply list_to_set_perm_L|done].
Qed.

(** C10.  Whatever reports a keyboard sends, of those that name no key twice, the codes are
    those of a keyboard on which keys go down only when they are up, go up and repeat only
    when they are down, and which ends with exactly the keys and modifiers of the last
    report down; no such report makes the comparison write outside its array.  The
    proviso excludes the report by which a keyboard says that too many keys are pressed,
    six times usage 1: see [rollover_releases_keys] and [repeated_usage_repeats_codes]. *)
Theorem usb_keys_refine reports :
  Forall report_ok reports ->
  exists es old, compare_reports snoc [] no_keys reports = Some (codes es, old) /\
    typed (⋃ (down <$> reports)) ∅ 0 es (down (List.last reports no_report)) (ev_modifiers (List.last reports no_report)).
Proof.
  intros Hr. destruct (compare_reports_spec snoc (⋃ (down <$> reports)) [] no_keys no_report reports) as (es & t & old & E & Hs & Ht);
    [split_and!; [done|apply NoDup_nil_2|unfold in_u; simpl; lia]|done|done|done
    |apply Forall_forall; intros d Hd k Hk; apply elem_of_union_list; exists (down d); split; [by apply list_elem_of_fmap_2|done]|].
  exists es, old. split; [|exact Ht]. rewrite E, Hs. do 2 f_equal.
  generalize (codes es). clear. intros l. rewrite <- (app_nil_l l) at 2. generalize (@nil Z).
  induction l as [|c l IH]; intros l0; simpl; [by rewrite app_nil_r|]. rewrite IH. unfold snoc. by rewrite <- (assoc_L (++)).
Qed.

(** ** With the keyboard service *)

(** Interrupt 0x15 without an intercept: the carry flag is set. *)
Definition no_intercept (m : memory) (eax : Z) : memory * Z * Z := (m, eax, F_CF).

(** The codes that the event [e] may have: bytes, none a pause prefix, shift codes only
    for the shift keys. *)
Definition code_ok (e : event) (c : Z) : bool :=
  (0 <=? c) && (c <? 256) && negb (c =? 0xe1) &&
  (match e with ModDown 1 => true | _ => negb (c =? 0x2a) end) &&
  (match e with ModUp 1 => true | _ => negb (c =? 0xaa) end) &&
  (match e with ModDown 5 => true | _ => negb (c =? 0x36) end) &&
  (match e with ModUp 5 => true | _ => negb (c =? 0xb6) end).

Definition PAUSE_KEY : Z := 0x48.
Definition pause_free (e : event) : Prop :=
  match e with KeyDown k | KeyUp k | KeyRepeat k => 0 <= k /\ k <> PAUSE_KEY | _ => True end.

Lemma scan_codes_ok (flags k : Z) :
  flags = 0 \/ flags = RELEASEBIT -> 0 <= k -> k <> PAUSE_KEY ->
  forallb (code_ok (KeyDown k)) (procscankey snoc [] k flags) = true.
Proof.
  intros Hf Hk Hp. unfold PAUSE_KEY in Hp.
  assert (forallb (fun i => (i =? 72)%nat || forallb (fun f => forallb (code_ok (KeyDown 0)) (procscankey snoc [] (Z.of_nat i) f))
    [0; RELEASEBIT]) (seq 0 104) = true) as H by (by vm_compute).
  destruct (decide (k < 104)) as [Hlt|].
  - rewrite forallb_forall in H. specialize (H (Z.to_nat k) (proj2 (in_seq 104 0 (Z.to_nat k)) ltac:(lia))).
    rewrite (proj2 (Nat.eqb_neq (Z.to_nat k) 72)) in H by lia. rewrite Z2Nat.id in H by done.
    cbn [orb forallb] in H. rewrite !andb_true_iff in H. change (code_ok (KeyDown k)) with (code_ok (KeyDown 0)).
    destruct Hf as [-> | ->]; apply H.
  - unfold procscankey. rewrite (lookup_ge_None_2 KeyToScanCode) by (simpl; lia). done.
Qed.

Lemma codes_of_ok e : pause_free e -> forallb (code_ok e) (codes_of e) = true.
Proof.
  destruct e as [k|k|k|i|i]; simpl; intros Hp.
  1: apply scan_codes_ok; naive_solver.
  1: change (code_ok (KeyUp k)) with (code_ok (KeyDown k)); apply scan_codes_ok; naive_solver.
  1: change (code_ok (KeyRepeat k)) with (code_ok (KeyDown k)); apply scan_codes_ok; naive_solver.
  all: do 8 (destruct i as [|i]; [by vm_compute|]); simpl; by destruct i.
Qed.

(** Following the shift keys through the codes of an event. *)
Lemma shift_after_event e (i : nat) press release b :
  pause_free e -> (i, press, release) = (1%nat, 0x2a, 0xaa) \/ (i, press, release) = (5%nat, 0x36, 0xb6) ->
  foldl (modifier_after (Held press release)) b (codes_of e) =
  match e with ModDown j => if (j =? i)%nat then true else b | ModUp j => if (j =? i)%nat then false else b | _ => b end.
Proof.
  intros Hp Hi. pose proof (codes_of_ok e Hp) as Hok.
  assert ((forall c, c ∈ codes_of e -> c <> press /\ c <> release) ->
    foldl (modifier_after (Held press release)) b (codes_of e) = b) as Hsame.
  { generalize (codes_of e). clear. intros l. revert b. induction l as [|c l IH]; intros b Hl; [done|]. cbn.
    destruct (Hl c ltac:(left)) as [H1 H2]. rewrite (proj2 (Z.eqb_neq _ _) H1), (proj2 (Z.eqb_neq _ _) H2).
    apply IH. intros c' Hc'. apply Hl. by right. }
  rewrite forallb_forall in Hok. unfold code_ok in Hok.
  destruct e as [k|k|k|j|j].
  1,2,3: apply Hsame; intros c Hc; specialize (Hok c (proj1 (list_elem_of_In _ _) Hc)); bool_to_prop; destruct Hi; simplify_eq; lia.
  all: destruct Hi; simplify_eq; do 8 (destruct j as [|j]; [by vm_compute|]); simpl; by destruct j.
Qed.

Lemma typed_shift U h ms es h' ms' (i : nat) press release b :
  typed U h ms es h' ms' -> Forall pause_free es ->
  (i, press, release) = (1%nat, 0x2a, 0xaa) \/ (i, press, release) = (5%nat, 0x36, 0xb6) ->
  b = Z.testbit ms (Z.of_nat i) ->
  foldl (modifier_after (Held press release)) b (codes es) = Z.testbit ms' (Z.of_nat i).
Proof.
  intros Ht Hp Hi. revert b.
  induction Ht as [|h ms k es h' ms' HU Hk Ht IH|h ms k es h' ms' Hk Ht IH|h ms k es h' ms' Hk Ht IH|h ms j es h' ms' Hj Ht IH|h ms j es h' ms' Hj Ht IH]; intros b ->; [done|..].
  all: apply Forall_cons in Hp as [Hp1 Hp]; change (codes (?e :: ?es)) with (codes_of e ++ codes es);
    rewrite foldl_app, (shift_after_event _ i) by done; apply IH; [done|]; try done.
  all: destruct (Nat.eqb_spec j i) as [->|];
    rewrite ?Z.setbit_eq, ?Z.clearbit_eq, ?Z.setbit_neq, ?Z.clearbit_neq by lia; done.
Qed.

Lemma typed_pause_free U h ms es h' ms' :
  typed U h ms es h' ms' -> (forall k, k ∈ U \/ k ∈ h -> 0 <= k /\ k <> PAUSE_KEY) -> Forall pause_free es.
Proof.
  induction 1 as [|h ms k es h' ms' HU Hk Ht IH|h ms k es h' ms' Hk Ht IH|h ms k es h' ms' Hk Ht IH|? ? ? ? ? ? ? ? IH|? ? ? ? ? ? ? ? IH];
    intros Hall; constructor; try done; try (by apply Hall; auto); try (apply IH; set_solver).
Qed.

Lemma codes_bytes es : Forall pause_free es -> Forall (in_u 8) (codes es) /\ 0xe1 ∉ codes es.
Proof.
  intros Hp. assert (forall c, c ∈ codes es -> in_u 8 c /\ c <> 0xe1) as H.
  { intros c (cs & Hc & Hcs)%list_elem_of_join. apply list_elem_of_fmap in Hcs as (e & -> & He).
    rewrite Forall_forall in Hp. pose proof (codes_of_ok e (Hp e He)) as Hok. rewrite forallb_forall in Hok.
    specialize (Hok c (proj1 (list_elem_of_In _ _) Hc)). unfold code_ok in Hok. rewrite !andb_true_iff in Hok.
    destruct Hok as [[[[[[? ?] ?] _] _] _] _]. bool_to_prop. unfold in_u. lia. }
  split; [apply Forall_forall; intros c Hc; by apply H|]. intros Hc. by apply H in Hc as [_ ?].
Qed.

Lemma process_key_plain m c : in_u 8 c -> process_key no_intercept m c = __process_key m c.
Proof.
  intros Hc. unfold process_key, no_intercept. cbn [F_CF Z.testbit negb]. f_equal.
  rewrite Z.lor_comm, lor_shiftl by (lia || done). unfold in_u, wrap in *. Z.to_euclidean_division_equations; lia.
Qed.

Lemma send_keys_fold m cs : Forall (in_u 8) cs ->
  foldl (send_key no_intercept) (KeyDone m) cs = type_keys m cs.
Proof.
  revert m. induction cs as [|c cs IH]; intros m Hc; [done|]. apply Forall_cons in Hc as [Hc Hcs]. cbn [foldl type_keys send_key].
  rewrite process_key_plain by done. destruct (__process_key m c) as [m1|m1]; [by apply IH|].
  clear. induction cs as [|c cs IH]; [done|]. exact IH.
Qed.

(** *** The record of the last report in memory *)

Lemma load_store_keys m a old : length (keys old) = NKEYS ->
  load_keys (store_keys m a old) a = mk_usbkeyinfo (u8 (modifiers old)) (u8 (repeatcount old)) ((fun k => u8 k) <$> keys old).
Proof.
  destruct old as [ms rc ks]. cbn [keys modifiers repeatcount]. intros Hl.
  do 6 (destruct ks as [|? ks]; [done|]). destruct ks; [|done]. unfold load_keys, store_keys. cbn [zip zip_with fold_left keys modifiers repeatcount fmap list_fmap].
  rewrite Z.add_0_r. unfold writeb. by addr_decide.
Qed.

Lemma store_keys_other m a old x : length (keys old) = NKEYS -> x < a \/ a + 8 <= x -> store_keys m a old x = m x.
Proof.
  destruct old as [ms rc ks]. cbn [keys modifiers repeatcount]. intros Hl Hx.
  do 6 (destruct ks as [|? ks]; [done|]). destruct ks; [|done]. unfold store_keys. cbn [zip zip_with fold_left keys modifiers repeatcount fmap list_fmap].
  rewrite Z.add_0_r. unfold writeb. by addr_decide.
Qed.

Lemma store_keys_bytes m a old : bytes m -> bytes (store_keys m a old).
Proof.
  unfold store_keys. generalize (zip [0; 1; 2; 3; 4; 5; 6; 7] (modifiers old :: repeatcount old :: keys old)).
  intros l. revert m. induction l as [|[i v] l IH]; intros m Hm; [done|]. by apply IH, bytes_writeb.
Qed.

Lemma held_keys_wrap l : Forall (in_u 8) (held_keys l) -> held_keys ((fun k => u8 k) <$> l) = held_keys l.
Proof.
  induction l as [|k l IH]; [done|]. cbn [fmap list_fmap held_keys]. destruct (Z.eqb_spec k 0) as [->|Hk]; [done|].
  intros [Hu Hl]%Forall_cons. rewrite (wrap_small 8 k Hu), (proj2 (Z.eqb_neq k 0) Hk). by rewrite IH.
Qed.

(** A report of bytes that names no key twice, and not the pause key. *)
Definition plain (d : keyevent) : Prop := report_ok d /\ Forall (in_u 8) (ev_keys d) /\ PAUSE_KEY ∉ ev_keys d.

Definition usbkey_last (m : memory) : usbkeyinfo := load_keys m (ebda m "usbkey_last").

(** Memory after the report [d]: the ring is well formed, the extended area is above the
    BIOS data area and holds the report, and the shift flags are those of the report. *)
Definition in_step (m : memory) (d : keyevent) : Prop :=
  (exists q, kbd_repr m q) /\ Z.testbit (m kbd_flag2) 0 = false /\ 0x500 <= get_ebda_seg m * 16 /\
  plain d /\ keys_ok (usbkey_last m) /\ held_keys (keys (usbkey_last m)) ≡ₚ nonzero (ev_keys d) /\
  modifiers (usbkey_last m) = ev_modifiers d /\
  Z.testbit (m kbd_flag0) 1 = Z.testbit (ev_modifiers d) 1 /\ Z.testbit (m kbd_flag0) 0 = Z.testbit (ev_modifiers d) 5.

Lemma process_key_reset m c m' : __process_key m c = KeyReset m' -> readw m' soft_reset_flag = 0x1234.
Proof.
  unfold __process_key. destruct (has (readb m kbd_flag2) KF2_LAST_E1); [by case_test|]. do 2 (case_test; [done|]).
  destruct (modifier_key _ _ _ _) as [[[? ?] ?]|]; [done|]. case_test; [done|]. case_test.
  - intros [= <-]. by rewrite readw_writew.
  - destruct (_ !! _); [|done]. destruct (translate_key _ _ _ _). done.
Qed.

Lemma type_keys_reset m cs m' : type_keys m cs = KeyReset m' -> readw m' soft_reset_flag = 0x1234.
Proof.
  revert m. induction cs as [|c cs IH]; intros m; [done|]. cbn [type_keys].
  destruct (__process_key m c) as [m1|m1] eqn:E; [apply IH|]. intros [= <-]. by eapply process_key_reset.
Qed.

Lemma plain_keys d k : plain d -> k ∈ down d -> in_u 8 k /\ k <> PAUSE_KEY.
Proof.
  intros (_ & Hu & Hp). unfold down, nonzero. rewrite elem_of_list_to_set, list_elem_of_filter. intros [_ Hk].
  rewrite Forall_forall in Hu. split; [by apply Hu|]. by intros ->.
Qed.

Lemma handle_key_step m d0 d : in_step m d0 -> plain d ->
  exists r, handle_key no_intercept m d = Some r /\
    match r with KeyDone m' => in_step m' d | KeyReset m' => readw m' soft_reset_flag = 0x1234 end.
Proof.
  intros ((q & Hq) & H2 & He & Hd0 & Hok & Hh & Hm & Hl & Hr) Hd. unfold handle_key.
  fold (ebda m "usbkey_last"). fold (usbkey_last m). pose proof Hd as (Hrep & Hu & Hnp).
  destruct (compare_keys_spec (send_key no_intercept) (down d) (KeyDone m) (usbkey_last m) d Hok Hrep) as
    (es & r & o & -> & Hs & Ht & Hh1 & Hm1 & Hok1); [intros k Hk; by apply elem_of_list_to_set|]. cbn [mbind option_bind].
  assert (list_to_set (held_keys (keys (usbkey_last m))) =@{gset Z} down d0) as E0 by (by apply list_to_set_perm_L).
  rewrite E0, Hm in Ht.
  assert (Forall pause_free es) as Hpf.
  { eapply typed_pause_free; [exact Ht|]. intros k [Hk|Hk]; apply plain_keys in Hk as [[? _] ?]; done. }
  destruct (codes_bytes es Hpf) as [Hcb Hce]. unfold sends in Hs. rewrite send_keys_fold in Hs by done.
  eexists. split; [done|]. destruct r as [m1|m1]; [|by eapply type_keys_reset].
  destruct (type_keys_effect m q (codes es) m1 Hq H2 Hce (eq_sym Hs)) as ((q1 & Hq1) & H21 & Hf & Hmods).
  assert (get_ebda_seg m1 = get_ebda_seg m) as Eseg
    by (apply readw_ext; apply Hf; kbd_addr; rewrite ?(eq_refl : bda "ebda_seg" = 0x40e); lia).
  set (a := ebda m "usbkey_last") in *. assert (0x500 <= a) as Ha by (unfold a, ebda; simpl; lia).
  assert (forall x, x < 0x500 -> store_keys m1 a o x = m1 x) as Hlow
    by (intros x Hx; apply store_keys_other; [apply Hok1|lia]).
  assert (get_ebda_seg (store_keys m1 a o) = get_ebda_seg m) as Eseg2
    by (rewrite <- Eseg; apply readw_ext; apply Hlow; rewrite ?(eq_refl : bda "ebda_seg" = 0x40e); lia).
  unfold in_step. assert (usbkey_last (store_keys m1 a o) = mk_usbkeyinfo (u8 (modifiers o)) (u8 (repeatcount o))
    ((fun k => u8 k) <$> keys o)) as Eu.
  { unfold usbkey_last, ebda. rewrite Eseg2. apply load_store_keys, Hok1. }
  rewrite Eu, Eseg2. cbn [keys modifiers]. destruct Hok1 as (Hl1 & Hnd1 & Hmu).
  assert (Forall (in_u 8) (held_keys (keys o))) as Hhu
    by (rewrite Hh1; apply Forall_forall; intros k Hk; apply (plain_keys d); [done|by apply elem_of_list_to_set]).
  rewrite held_keys_wrap by done. rewrite !Hlow by (kbd_addr; lia). rewrite Hm1, wrap_small by (by rewrite <- Hm1).
  unfold Kbd.modifiers in Hmods. apply Forall_cons in Hmods as [HR [HL _]%Forall_cons].
  split_and!; try done.
  - exists q1. eapply kbd_repr_frame; [apply store_keys_bytes, Hq1| |exact Hq1]. intros x Hx. apply Hlow. kbd_addr. lia.
  - unfold keys_ok. cbn [keys modifiers]. rewrite length_fmap, held_keys_wrap, <- Hm1 by done. done.
  - rewrite HL. apply (typed_shift _ _ _ _ _ _ 1 _ _ _ Ht Hpf); [by left|done].
  - rewrite HR. apply (typed_shift _ _ _ _ _ _ 5 _ _ _ Ht Hpf); [by right|done].
Qed.

(** Whatever reports a keyboard sends, the firmware handles them, and unless control, alt
    and delete restart the machine the two shift flags of the BIOS data area are those of
    the last report. *)
Theorem usb_shift_tracks m reports :
  in_step m no_report -> Forall plain reports ->
  exists r, usb_check_key no_intercept m reports = Some r /\
    match r with
    | KeyDone m' =>
        has (m' kbd_flag0) KF0_LSHIFT = Z.testbit (ev_modifiers (List.last reports no_report)) 1 /\
        has (m' kbd_flag0) KF0_RSHIFT = Z.testbit (ev_modifiers (List.last reports no_report)) 5
    | KeyReset m' => readw m' soft_reset_flag = 0x1234
    end.
Proof.
  generalize no_report. revert m. induction reports as [|d reports IH]; intros m d0 Hs Hp.
  { exists (KeyDone m). split; [done|]. unfold KF0_LSHIFT, KF0_RSHIFT. rewrite !has_bit by lia. apply Hs. }
  apply Forall_cons in Hp as [Hd Hp]. cbn [usb_check_key].
  destruct (handle_key_step m d0 d Hs Hd) as (r & -> & Hr). cbn [mbind option_bind].
  destruct r as [m1|m1]; [|by exists (KeyReset m1)].
  destruct (IH m1 d Hr Hp) as (r & E & H). exists r. by rewrite last_cons.
Qed.

(** ** Witnesses *)

(** Left shift and A, then B joins, then all but B is let go. *)
Definition demo_reports : list keyevent :=
  [mk_keyevent 0x02 [4; 0; 0; 0; 0; 0]; mk_keyevent 0x02 [4; 5; 0; 0; 0; 0]; mk_keyevent 0x20 [5; 0; 0; 0; 0; 0]].

Lemma plain_check ms ks :
  in_u 8 ms -> bool_decide (length ks = NKEYS /\ NoDup (nonzero ks) /\ Forall (fun k => 0 <= k < 256) ks /\ PAUSE_KEY ∉ ks) = true ->
  plain (mk_keyevent ms ks).
Proof. by intros Hms (? & ? & ? & ?)%bool_decide_eq_true. Qed.

Lemma demo_plain : Forall plain demo_reports.
Proof.
  unfold demo_reports. rewrite !Forall_cons.
  split_and!; [..|constructor]; apply plain_check; (unfold in_u; lia) || by vm_compute.
Qed.

Lemma usb_keys_refine_witness :
  exists es old, compare_reports snoc [] no_keys demo_reports = Some (codes es, old) /\
    typed (⋃ (down <$> demo_reports)) ∅ 0 es (down (mk_keyevent 0x20 [5; 0; 0; 0; 0; 0])) 0x20.
Proof. apply (usb_keys_refine demo_reports). eapply Forall_impl; [apply demo_plain|]. by intros d [? _]. Defined.

Definition demo_usb : memory := writew demo_kbd (bda "ebda_seg") 0x9fc0.

Lemma demo_in_step : in_step demo_usb no_report.
Proof.
  assert (usbkey_last demo_usb = no_keys) as Eu by (by vm_compute).
  unfold in_step. rewrite Eu. split.
  { exists []. eapply kbd_repr_frame; [apply bytes_writew, demo_kbd_repr| |apply demo_kbd_repr].
    intros a Ha. apply writew_other; rewrite (eq_refl : bda "ebda_seg" = 0x40e); kbd_addr; lia. }
  split; [by vm_compute|]. split; [by vm_compute|].
  split; [apply plain_check; [unfold in_u; lia|by vm_compute]|].
  split; [split_and!; [done|apply NoDup_nil_2|unfold in_u; simpl; lia]|]. split_and!; by vm_compute.
Qed.

Lemma usb_shift_tracks_witness :
  exists r, usb_check_key no_intercept demo_usb demo_reports = Some r /\
    match r with
    | KeyDone m' => has (m' kbd_flag0) KF0_LSHIFT = false /\ has (m' kbd_flag0) KF0_RSHIFT = true
    | KeyReset m' => readw m' soft_reset_flag = 0x1234
    end.
Proof. apply (usb_shift_tracks demo_usb demo_reports demo_in_step demo_plain). Defined.

(** ** Where the code does not do what it means to *)

(** A report that names a key twice: its make and its break code are sent twice. *)
Theorem repeated_usage_repeats_codes :
  fst <$> compare_reports snoc [] no_keys [mk_keyevent 0 [4; 4; 0; 0; 0; 0]; no_report] = Some [0x1e; 0x1e; 0x9e; 0x9e].
Proof. by vm_compute. Qed.

(** A is held; the report for too many keys, which says nothing of any key, is taken for
    one in which A is up, and the next proper report presses A again. *)
Theorem rollover_releases_keys :
  fst <$> compare_reports snoc [] no_keys [mk_keyevent 0 [4; 0; 0; 0; 0; 0]; mk_keyevent 0 (replicate NKEYS 1);
    mk_keyevent 0 [4; 0; 0; 0; 0; 0]] = Some [0x1e; 0x9e; 0x1e].
Proof. by vm_compute. Qed.

(** Two control keys are held and one is let go: the firmware takes control for released
    although its own flag of the other key is still set. *)
Theorem control_released_early :
  match usb_check_key no_intercept demo_usb [mk_keyevent 0x11 (replicate NKEYS 0); mk_keyevent 0x01 (replicate NKEYS 0)] with
  | Some (KeyDone m) => has (m kbd_flag0) KF0_CTRLACTIVE = false /\ has (m kbd_flag1) KF1_LCTRL = true
  | _ => False
  end.
Proof. by vm_compute. Qed.
