(* ===== verification/Ports.v ===== *)
(** * Devices behind ports

    A device is what accesses to its ports, a look at the time stamp counter, a delay and
    a yield to other threads do: the class [PortDevice].  Code that talks to a device is a
    state transformer [P], which may have no result: an access outside an array, or a
    wait that lasts longer than the fuel given. *)

From S2P Require Import Prelude BiosUtil Bregs.
Local Open Scope Z_scope.
Local Open Scope coremu_scope.

Class PortDevice (D : Type) := {
  port_inb : Z -> D -> Z * D;
  port_outb : Z -> Z -> D -> D;
  port_rdtscll : D -> Z * D;
  port_udelay : Z -> D -> D;
  port_yield : D -> D }.

Definition P (D A : Type) : Type := D -> option (A * D).
#[export] Instance P_ret D : MRet (P D) := fun A a d => Some (a, d).
#[export] Instance P_bind D : MBind (P D) := fun A B k m d => match m d with Some (a, d) => k a d | None => None end.

Section Port.
Context {D : Type} `{PortDevice D}.

Definition inb (port : Z) : P D Z := fun d => let '(v, d) := port_inb port d in Some (u8 v, d).
Definition outb (v port : Z) : P D unit := fun d => Some (tt, port_outb (u8 v) port d).
Definition rdtscll : P D Z := fun d => let '(v, d) := port_rdtscll d in Some (u64 v, d).
Definition delay (usecs : Z) : P D unit := fun d => Some (tt, port_udelay usecs d).
Definition yield : P D unit := fun d => Some (tt, port_yield d).

(** Code that also reads and changes memory. *)
Definition on_port {A} (f : memory -> P D A) : P (memory * D) A := fun '(m, d) => '(a, d) ← f m d; Some (a, (m, d)).
Definition gets {A} (f : memory -> A) : P (memory * D) A := fun '(m, d) => Some (f m, (m, d)).
Definition modify (f : memory -> memory) : P (memory * D) unit := fun '(m, d) => Some (tt, (f m, d)).

Lemma on_port_inb p m d :
  on_port (fun _ => inb p) (m, d) = Some (u8 (port_inb p d).1, (m, (port_inb p d).2)).
Proof. unfold on_port, inb. by destruct (port_inb p d). Qed.
End Port.

Lemma P_bind_some {D A B} (f : P D A) (k : A -> P D B) s a s' : f s = Some (a, s') -> (f ≫= k) s = k a s'.
Proof. intros E. unfold mbind, P_bind. by rewrite E. Qed.

Lemma modify_bind {D A} f (k : unit -> P (memory * D) A) m d : (modify f ≫= k) (m, d) = k tt (f m, d).
Proof. done. Qed.

Lemma gets_bind {D A B} (f : memory -> B) (k : B -> P (memory * D) A) m d : (gets f ≫= k) (m, d) = k (f m) (m, d).
Proof. done. Qed.

Lemma P_bind_assoc {D A B C} (f : P D A) (g : A -> P D B) (h : B -> P D C) s :
  ((f ≫= g) ≫= h) s = (f ≫= fun a => g a ≫= h) s.
Proof. unfold mbind, P_bind. by destruct (f s) as [[? ?]|]. Qed.

(** ** Programs that always return *)

Section Total.
Context {D : Type} `{PortDevice D}.

(** [f] returns a value in [Q] from every state. *)
Definition total {A} (f : P D A) (Q : A -> Prop) : Prop := forall d, exists a d', f d = Some (a, d') /\ Q a.

Lemma total_ret {A} (a : A) (Q : A -> Prop) : Q a -> total (mret a) Q.
Proof. intros HQ d. by exists a, d. Qed.

Lemma total_bind {A B} (f : P D A) (k : A -> P D B) Q R :
  total f Q -> (forall a, Q a -> total (k a) R) -> total (f ≫= k) R.
Proof.
  intros Hf Hk d. destruct (Hf d) as (a & d1 & E & HQ). destruct (Hk a HQ d1) as (b & d2 & E2 & HR).
  exists b, d2. unfold mbind, P_bind. by rewrite E.
Qed.

Lemma total_inb p : total (inb p) (in_u 8).
Proof. intros d. unfold inb. destruct (port_inb p d) as [v d']. exists (u8 v), d'. split; [done|]. apply wrap_range. lia. Qed.

Lemma total_outb v p : total (outb v p) (fun _ => True).
Proof. intros d. by eexists _, _. Qed.

Lemma total_yield : total yield (fun _ => True).
Proof. intros d. by eexists _, _. Qed.

Lemma total_delay n : total (delay n) (fun _ => True).
Proof. intros d. by eexists _, _. Qed.

End Total.

(** ** Bits of bytes *)

Lemma bits_range w x : 0 <= w -> in_u w x <-> 0 <= x /\ forall b, w <= b -> Z.testbit x b = false.
Proof.
  intros Hw. split.
  - intros Hx. split; [apply Hx|]. intros b Hb. rewrite <- (wrap_small w x Hx). apply Z.mod_pow2_bits_high. lia.
  - intros [Hx Hb]. unfold in_u. split; [done|]. destruct (Z.lt_ge_cases x (2 ^ w)) as [|Hge]; [done|]. exfalso.
    pose proof (Z.pow_pos_nonneg 2 w ltac:(lia) Hw). assert (0 < x) as Hp by lia.
    pose proof (Z.log2_le_pow2 x w Hp) as [H1 _]. specialize (H1 Hge). pose proof (Z.bit_log2 x Hp) as E.
    by rewrite Hb in E.
Qed.

Lemma ldiff_u8 x y : in_u 8 x -> in_u 8 (Z.ldiff x y).
Proof.
  rewrite !bits_range by lia. intros [Hx Hb]. split; [apply Z.ldiff_nonneg; by left|].
  intros b H. by rewrite Z.ldiff_spec, Hb.
Qed.

Lemma lor_u8 x y : in_u 8 x -> in_u 8 y -> in_u 8 (Z.lor x y).
Proof.
  rewrite !bits_range by lia. intros [Hx Hxb] [Hy Hyb]. split; [by apply Z.lor_nonneg|].
  intros b H. by rewrite Z.lor_spec, Hxb, Hyb.
Qed.
