(* ===== verification/Ps2.v ===== *)
(** * PS/2 port and mouse: [bios/seabios/src/ps2port.c], [mouse.c]

    The functions of the port are state transformers on the controller, a device of the
    class [PortDevice]; those of the mouse also change memory.  [None] is an access outside
    a parameter array or a wait that lasts longer than [fuel] looks. *)

From S2P Require Import Prelude BiosUtil Bregs Ports Kbd Clock.
Local Open Scope Z_scope.
Local Open Scope coremu_scope.

Definition PORT_PS2_DATA : Z := 0x0060.
Definition PORT_PS2_STATUS : Z := 0x0064.
Definition PORT_PIC1_CMD : Z := 0x0020.
Definition PORT_PIC2_CMD : Z := 0x00a0.

Definition I8042_CMD_CTL_WCTR : Z := 0x1060.
Definition I8042_CMD_CTL_TEST : Z := 0x01aa.
Definition I8042_CMD_KBD_TEST : Z := 0x01ab.
Definition I8042_CMD_AUX_SEND : Z := 0x10d4.
Definition ATKBD_CMD_SSCANSET : Z := 0x10f0.
Definition ATKBD_CMD_ENABLE : Z := 0x00f4.
Definition ATKBD_CMD_RESET_DIS : Z := 0x00f5.
Definition ATKBD_CMD_RESET_BAT : Z := 0x02ff.
Definition PSMOUSE_CMD_SETSCALE11 : Z := 0x00e6.
Definition PSMOUSE_CMD_SETSCALE21 : Z := 0x00e7.
Definition PSMOUSE_CMD_SETRES : Z := 0x10e8.
Definition PSMOUSE_CMD_GETINFO : Z := 0x03e9.
Definition PSMOUSE_CMD_GETID : Z := 0x02f2.
Definition PSMOUSE_CMD_SETRATE : Z := 0x10f3.
Definition PSMOUSE_CMD_ENABLE : Z := 0x00f4.
Definition PSMOUSE_CMD_DISABLE : Z := 0x00f5.
Definition PSMOUSE_CMD_RESET_BAT : Z := 0x02ff.

Definition I8042_STR_AUXDATA : Z := 0x20.
Definition I8042_STR_IBF : Z := 0x02.
Definition I8042_STR_OBF : Z := 0x01.
Definition I8042_CTR_KBDINT : Z := 0x01.
Definition I8042_CTR_AUXINT : Z := 0x02.
Definition I8042_CTR_KBDDIS : Z := 0x10.
Definition I8042_CTR_AUXDIS : Z := 0x20.
Definition I8042_CTR_XLATE : Z := 0x40.
Definition I8042_CTL_TIMEOUT : nat := Z.to_nat 10000.
Definition I8042_BUFFER_SIZE : nat := 16.
Definition PS2_RET_ACK : Z := 0xfa.
Definition PS2_RET_NAK : Z := 0xfe.

Section Port.
Context {D : Type} `{PortDevice D}.

(** [param[i]] as a value and as the target of a store. *)
Definition get_param (param : list Z) (i : nat) : P D Z := fun d => v ← param !! i; Some (v, d).
Definition set_param (param : list Z) (i : nat) (v : Z) : P D (list Z) := fun d =>
  if bool_decide (i < length param)%nat then Some (<[i := u8 v]> param, d) else None.

(** ** Low level commands *)

(** Up to [n] looks at the status, 50 microseconds apart. *)
Fixpoint wait_status (n : nat) (ready : Z -> bool) : P D Z :=
  match n with
  | O => mret (-1)
  | S n =>
      status ← inb PORT_PS2_STATUS;
      if ready status then mret 0 else delay 50;; wait_status n ready
  end.
Definition i8042_wait_read : P D Z := wait_status I8042_CTL_TIMEOUT (fun status => has status I8042_STR_OBF).
Definition i8042_wait_write : P D Z := wait_status I8042_CTL_TIMEOUT (fun status => negb (has status I8042_STR_IBF)).

Fixpoint flush_loop (n : nat) : P D Z :=
  match n with
  | O => mret (-1)
  | S n =>
      status ← inb PORT_PS2_STATUS;
      if negb (has status I8042_STR_OBF) then mret 0
      else delay 50;; _ ← inb PORT_PS2_DATA; flush_loop n
  end.
Definition i8042_flush : P D Z := flush_loop I8042_BUFFER_SIZE.

Definition receive_count (command : Z) : nat := Z.to_nat (Z.land (Z.shiftr command 8) 0xf).
Definition send_count (command : Z) : nat := Z.to_nat (Z.land (Z.shiftr command 12) 0xf).

(** The two loops of [__i8042_command], with [n] rounds left. *)
Fixpoint i8042_send (n i : nat) (param : list Z) : P D Z :=
  match n with
  | O => mret 0
  | S n =>
      ret ← i8042_wait_write;
      if negb (ret =? 0) then mret ret
      else v ← get_param param i; outb v PORT_PS2_DATA;; i8042_send n (S i) param
  end.
Fixpoint i8042_receive (n i : nat) (param : list Z) : P D (Z * list Z) :=
  match n with
  | O => mret (0, param)
  | S n =>
      ret ← i8042_wait_read;
      if negb (ret =? 0) then mret (ret, param)
      else v ← inb PORT_PS2_DATA; param ← set_param param i v; i8042_receive n (S i) param
  end.

(** The return value and the parameters after. *)
Definition i8042_command (command : Z) (param : list Z) : P D (Z * list Z) :=
  ret ← i8042_wait_write;
  if negb (ret =? 0) then mret (ret, param)
  else
    outb command PORT_PS2_STATUS;;
    ret ← i8042_send (send_count command) 0 param;
    if negb (ret =? 0) then mret (ret, param)
    else i8042_receive (receive_count command) 0 param.

Definition i8042_kbd_write (c : Z) : P D Z :=
  ret ← i8042_wait_write;
  if ret =? 0 then outb c PORT_PS2_DATA;; mret ret else mret ret.

Definition i8042_aux_write (c : Z) : P D Z :=
  '(ret, _) ← i8042_command I8042_CMD_AUX_SEND [c]; mret ret.

(** ** Device commands *)

Context (fuel : nat) (cpu_khz : Z).

Definition b2z (b : bool) : Z := if b then 1 else 0.

Fixpoint recv_loop (fuel : nat) (aux : Z) (needack : bool) (end_ : Z) : P D Z :=
  match fuel with
  | O => fun _ => None
  | S fuel =>
      status ← inb PORT_PS2_STATUS;
      found ← (if has status I8042_STR_OBF then
                 data ← inb PORT_PS2_DATA;
                 mret (if (b2z (has status I8042_STR_AUXDATA) =? aux)
                          && (negb needack || (data =? PS2_RET_ACK) || (data =? PS2_RET_NAK))
                       then Some data else None)
               else mret None);
      match found with
      | Some data => mret data
      | None =>
          tsc ← rdtscll;
          if check_time tsc end_ then mret (-1) else yield;; recv_loop fuel aux needack end_
      end
  end.
Definition ps2_recvbyte (aux : Z) (needack : bool) (timeout : Z) : P D Z :=
  tsc ← rdtscll;
  recv_loop fuel aux needack (calc_future_tsc cpu_khz tsc timeout).

Definition ps2_sendbyte (aux command timeout : Z) : P D Z :=
  ret ← (if negb (aux =? 0) then i8042_aux_write (u8 command) else i8042_kbd_write (u8 command));
  if negb (ret =? 0) then mret ret
  else
    ret ← ps2_recvbyte aux true timeout;
    if ret <? 0 then mret ret else if negb (ret =? PS2_RET_ACK) then mret (-1) else mret 0.

Fixpoint ps2_send (n i : nat) (aux : Z) (param : list Z) : P D Z :=
  match n with
  | O => mret 0
  | S n =>
      v ← get_param param i;
      ret ← ps2_sendbyte aux v 200;
      if negb (ret =? 0) then mret ret else ps2_send n (S i) aux param
  end.
Fixpoint ps2_receive (n i : nat) (aux : Z) (param : list Z) : P D (Z * list Z) :=
  match n with
  | O => mret (0, param)
  | S n =>
      ret ← ps2_recvbyte aux false 500;
      if ret <? 0 then mret (ret, param)
      else param ← set_param param i ret; ps2_receive n (S i) aux param
  end.

(** [ps2_command] between the set-up of the controller and the label [fail]. *)
Definition ps2_exchange (aux command : Z) (param : list Z) : P D (Z * list Z) :=
  if command =? ATKBD_CMD_RESET_BAT then
    ret ← ps2_sendbyte aux command 1000;
    if negb (ret =? 0) then mret (ret, param)
    else
      ret ← ps2_recvbyte aux false 4000;
      if ret <? 0 then mret (ret, param)
      else
        param ← set_param param 0 ret;
        ret ← ps2_recvbyte aux false 100;
        let ret := if ret <? 0 then 0 else ret in
        param ← set_param param 1 ret;
        mret (0, param)
  else if command =? ATKBD_CMD_GETID then
    ret ← ps2_sendbyte aux command 200;
    if negb (ret =? 0) then mret (ret, param)
    else
      ret ← ps2_recvbyte aux false 500;
      if ret <? 0 then mret (ret, param)
      else
        param ← set_param param 0 ret;
        if existsb (Z.eqb ret) [0xab; 0xac; 0x2b; 0x5d; 0x60; 0x47] then
          ret ← ps2_recvbyte aux false 500;
          if ret <? 0 then mret (ret, param)
          else param ← set_param param 1 ret; mret (0, param)
        else param ← set_param param 1 0; mret (0, param)
  else
    ret ← ps2_sendbyte aux command 200;
    if negb (ret =? 0) then mret (ret, param)
    else
      ret ← ps2_send (send_count command) 0 aux param;
      if negb (ret =? 0) then mret (ret, param)
      else ps2_receive (receive_count command) 0 aux param.

(** [ps2ctr] is the byte of the extended BIOS data area. *)
Definition ps2_command (ps2ctr aux command : Z) (param : list Z) : P D (Z * list Z) :=
  let newctr := Z.ldiff (Z.lor ps2ctr (Z.lor I8042_CTR_AUXDIS I8042_CTR_KBDDIS)) (Z.lor I8042_CTR_KBDINT I8042_CTR_AUXINT) in
  '(ret, _) ← i8042_command I8042_CMD_CTL_WCTR [newctr];
  if negb (ret =? 0) then mret (ret, param)
  else
    yield;;
    let newctr := Z.ldiff newctr (if negb (aux =? 0) then I8042_CTR_AUXDIS else I8042_CTR_KBDDIS) in
    '(ret, _) ← i8042_command I8042_CMD_CTL_WCTR [newctr];
    '(ret, param) ← (if negb (ret =? 0) then mret (ret, param) else ps2_exchange aux command param);
    '(ret2, _) ← i8042_command I8042_CMD_CTL_WCTR [ps2ctr];
    if negb (ret2 =? 0) then mret (ret2, param) else mret (ret, param).
End Port.

(** ** Commands with memory *)

Section Mouse.
Context {D : Type} `{PortDevice D} (fuel : nat) (cpu_khz : Z).

Notation M A := (P (memory * D) A).

Definition get_ps2ctr (m : memory) : Z := readb m (ebda m "ps2ctr").

(** The return value and the parameters after. *)
Definition kbd_command (command : Z) (param : list Z) : M (Z * list Z) :=
  on_port (fun m => ps2_command fuel cpu_khz (get_ps2ctr m) 0 command param).
Definition aux_command (command : Z) (param : list Z) : M (Z * list Z) :=
  on_port (fun m => ps2_command fuel cpu_khz (get_ps2ctr m) 1 command param).

(** ** Mouse services: interrupt 0x15, function 0xc2 *)

Definition mouse_setup : M unit :=
  modify (fun m => writew m (bda "equipment_list_flags") (Z.lor (readw m (bda "equipment_list_flags")) 0x04)).

Definition RET_EINVFUNCTION : Z := 0x01.
Definition RET_EINVINPUT : Z := 0x02.
Definition RET_EINTERFACE : Z := 0x03.
Definition RET_ENEEDRESEND : Z := 0x04.
Definition RET_ENOHANDLER : Z := 0x05.

Definition disable_mouse (ebda_seg : Z) : M Z :=
  let a := ebda_seg * 16 + offsetof extended_bios_data_area_s "ps2ctr" in
  modify (fun m => writeb m a (Z.ldiff (Z.lor (readb m a) I8042_CTR_AUXDIS) I8042_CTR_AUXINT));;
  '(ret, _) ← aux_command PSMOUSE_CMD_DISABLE [];
  mret ret.

(** The answer to the caller: resend on an error of the port. *)
Definition result (regs : bregs) (ret : Z) : bregs :=
  if negb (ret =? 0) then set_code_invalid regs RET_ENEEDRESEND else set_code_success regs.

Definition mouse_15c20000 (regs : bregs) : M bregs :=
  ebda_seg ← gets get_ebda_seg;
  ret ← disable_mouse ebda_seg;
  mret (result regs ret).

Definition mouse_15c20001 (regs : bregs) : M bregs :=
  mouse_flags_2 ← gets (fun m => readb m (ebda m "mouse_flag2"));
  if Z.land mouse_flags_2 0x80 =? 0 then mret (set_code_invalid regs RET_ENOHANDLER)
  else
    modify (fun m => let a := ebda m "ps2ctr" in
                     writeb m a (Z.lor (Z.ldiff (readb m a) I8042_CTR_AUXDIS) I8042_CTR_AUXINT));;
    '(ret, _) ← aux_command PSMOUSE_CMD_ENABLE [];
    mret (result regs ret).

Definition mouse_15c200 (regs : bregs) : M bregs :=
  if bh regs =? 0x00 then mouse_15c20000 regs
  else if bh regs =? 0x01 then mouse_15c20001 regs
  else mret (set_code_unimplemented regs RET_EINVFUNCTION).

Definition mouse_15c201 (regs : bregs) : M bregs :=
  '(ret, param) ← aux_command PSMOUSE_CMD_RESET_BAT [0; 0];
  if negb (ret =? 0) then mret (set_code_invalid regs RET_ENEEDRESEND)
  else mret (set_code_success (set_bh (set_bl regs (nth 0 param 0)) (nth 1 param 0))).

Definition sample_rates : list Z := [10; 20; 40; 60; 80; 100; 200].

Definition mouse_15c202 (regs : bregs) : M bregs :=
  match sample_rates !! Z.to_nat (bh regs) with
  | None => mret (set_code_invalid regs RET_EINVINPUT)
  | Some mouse_data1 =>
      '(ret, _) ← aux_command PSMOUSE_CMD_SETRATE [mouse_data1];
      mret (result regs ret)
  end.

Definition mouse_15c203 (regs : bregs) : M bregs :=
  if 4 <=? bh regs then mret (set_code_invalid regs RET_EINVINPUT)
  else
    '(ret, _) ← aux_command PSMOUSE_CMD_SETRES [bh regs];
    mret (result regs ret).

Definition mouse_15c204 (regs : bregs) : M bregs :=
  '(ret, param) ← aux_command PSMOUSE_CMD_GETID [0; 0];
  if negb (ret =? 0) then mret (set_code_invalid regs RET_ENEEDRESEND)
  else mret (set_code_success (set_bh regs (nth 0 param 0))).

Definition mouse_15c205 (regs : bregs) : M bregs :=
  if negb (bh regs =? 3) then mret (set_code_invalid regs RET_EINTERFACE)
  else
    modify (fun m => writeb m (ebda m "mouse_flag1") 0x00);;
    modify (fun m => writeb m (ebda m "mouse_flag2") (bh regs));;
    mouse_15c201 regs.

Definition mouse_15c20600 (regs : bregs) : M bregs :=
  '(ret, param) ← aux_command PSMOUSE_CMD_GETINFO [0; 0; 0];
  if negb (ret =? 0) then mret (set_code_invalid regs RET_ENEEDRESEND)
  else mret (set_code_success (set_dl (set_cl (set_bl regs (nth 0 param 0)) (nth 1 param 0)) (nth 2 param 0))).

Definition mouse_15c206 (regs : bregs) : M bregs :=
  if bh regs =? 0x00 then mouse_15c20600 regs
  else if bh regs =? 0x01 then
    '(ret, _) ← aux_command PSMOUSE_CMD_SETSCALE11 []; mret (result regs ret)
  else if bh regs =? 0x02 then
    '(ret, _) ← aux_command PSMOUSE_CMD_SETSCALE21 []; mret (result regs ret)
  else mret (set_code_unimplemented regs RET_EINVFUNCTION).

(** A segment and offset as the 32-bit value [segoff]. *)
Definition SEGOFF (seg off : Z) : Z := u32 (Z.lor (Z.shiftl seg 16) off).

Definition mouse_15c207 (regs : bregs) : M bregs :=
  let farptr := SEGOFF (es regs) (bx regs) in
  ebda_seg ← gets get_ebda_seg;
  let at_ f := ebda_seg * 16 + offsetof extended_bios_data_area_s f in
  mouse_flags_2 ← gets (fun m => readb m (at_ "mouse_flag2"));
  mouse_flags_2 ←
    (if farptr =? 0 then
       if negb (Z.land mouse_flags_2 0x80 =? 0) then
         _ ← disable_mouse ebda_seg; mret (Z.ldiff mouse_flags_2 0x80)
       else mret mouse_flags_2
     else mret (Z.lor mouse_flags_2 0x80));
  modify (fun m => writeb m (at_ "mouse_flag2") mouse_flags_2);;
  modify (fun m => writel m (at_ "far_call_pointer") farptr);;
  mret (set_code_success regs).

Definition handle_15c2 (regs : bregs) : M bregs :=
  let f := al regs in
  if f =? 0x00 then mouse_15c200 regs
  else if f =? 0x01 then mouse_15c201 regs
  else if f =? 0x02 then mouse_15c202 regs
  else if f =? 0x03 then mouse_15c203 regs
  else if f =? 0x04 then mouse_15c204 regs
  else if f =? 0x05 then mouse_15c205 regs
  else if f =? 0x06 then mouse_15c206 regs
  else if f =? 0x07 then mouse_15c207 regs
  else mret (set_code_unimplemented regs RET_EINVFUNCTION).

(** ** Interrupts of the port *)

(** The far call to the driver of the pointing device, the last thing that
    [process_mouse] does: where to, and the words pushed. *)
Record mouse_call := mk_mouse_call { call_func : Z; call_status : Z; call_X : Z; call_Y : Z }.

Definition process_mouse (m : memory) (data : Z) : memory * option mouse_call :=
  let ebda_seg := get_ebda_seg m in
  let at_ f := ebda_seg * 16 + offsetof extended_bios_data_area_s f in
  let mouse_flags_1 := readb m (at_ "mouse_flag1") in
  let mouse_flags_2 := readb m (at_ "mouse_flag2") in
  if Z.land mouse_flags_2 0x80 =? 0 then (m, None)
  else
    let package_count := Z.land mouse_flags_2 0x07 in
    let index := Z.land mouse_flags_1 0x07 in
    let m := writeb m (at_ "mouse_data" + index) data in
    if index + 1 <? package_count then (writeb m (at_ "mouse_flag1") (u8 (mouse_flags_1 + 1)), None)
    else
      let status := readb m (at_ "mouse_data") in
      let X := readb m (at_ "mouse_data" + 1) in
      let Y := readb m (at_ "mouse_data" + 2) in
      let m := writeb m (at_ "mouse_flag1") 0 in
      (m, Some (mk_mouse_call (readl m (at_ "far_call_pointer")) status X Y)).

Definition eoi_pic1 : P D unit := outb 0x20 PORT_PIC1_CMD.
Definition eoi_pic2 : P D unit := outb 0x20 PORT_PIC2_CMD;; eoi_pic1.

Definition handle_74 : M (option mouse_call) :=
  v ← on_port (fun _ => inb PORT_PS2_STATUS);
  call ←
    (let bits := Z.lor I8042_STR_OBF I8042_STR_AUXDATA in
     if negb (Z.land v bits =? bits) then mret None
     else
       v ← on_port (fun _ => inb PORT_PS2_DATA);
       ps2ctr ← gets get_ps2ctr;
       if negb (has ps2ctr I8042_CTR_AUXINT) then mret None
       else fun '(m, d) => let '(m, call) := process_mouse m v in Some (call, (m, d)));
  on_port (fun _ => eoi_pic2);;
  mret call.

(** A key may restart the machine; then nothing follows. *)
Definition handle_09 (int15 : memory -> Z -> memory * Z * Z) : M bool :=
  v ← on_port (fun _ => inb PORT_PS2_STATUS);
  let finish := on_port (fun _ => eoi_pic1);; mret true in
  if has v I8042_STR_AUXDATA then finish
  else
    v ← on_port (fun _ => inb PORT_PS2_DATA);
    ps2ctr ← gets get_ps2ctr;
    if negb (has ps2ctr I8042_CTR_KBDINT) then finish
    else fun '(m, d) =>
      match process_key int15 m v with
      | KeyDone m => finish (m, d)
      | KeyReset m => Some (false, (m, d))
      end.

(** ** Set-up *)

(** The next step, unless the one before failed; [true] when all went well. *)
Definition unless_failed (ret : Z) (k : M bool) : M bool := if negb (ret =? 0) then mret false else k.

Definition keyboard_init : M bool :=
  ret ← on_port (fun _ => i8042_flush);
  unless_failed ret (
  '(ret, param) ← on_port (fun _ => i8042_command I8042_CMD_CTL_TEST [0; 0]);
  unless_failed ret (
  if negb (nth 0 param 0 =? 0x55) then mret false else
  '(ret, param) ← on_port (fun _ => i8042_command I8042_CMD_KBD_TEST param);
  unless_failed ret (
  if negb (nth 0 param 0 =? 0x00) then mret false else
  modify (fun m => writeb m (ebda m "ps2ctr") (Z.lor I8042_CTR_KBDDIS I8042_CTR_AUXDIS));;
  '(ret, param) ← kbd_command ATKBD_CMD_RESET_BAT param;
  unless_failed ret (
  if negb (nth 0 param 0 =? 0xaa) then mret false else
  '(ret, _) ← kbd_command ATKBD_CMD_RESET_DIS [];
  unless_failed ret (
  '(ret, _) ← kbd_command ATKBD_CMD_SSCANSET (<[0%nat := 0x02]> param);
  unless_failed ret (
  modify (fun m => writeb m (ebda m "ps2ctr") (Z.lor (Z.lor I8042_CTR_AUXDIS I8042_CTR_XLATE) I8042_CTR_KBDINT));;
  '(ret, _) ← kbd_command ATKBD_CMD_ENABLE [];
  unless_failed ret (mret true))))))).
End Mouse.

(** ** Commands end and leave the controller as it was *)

Section Restore.
Context {D : Type} `{PortDevice D} (ctr : D -> Z) (wctr : D -> bool) (now : D -> Z).

(** The controller takes every byte before the time-out, also between the command to
    set its mode byte and the byte. *)
Context (Hready : forall d, exists d', i8042_wait_write d = Some (0, d') /\ wctr d' = wctr d).
Context (Hwctr : forall d, wctr (port_outb 0x60 PORT_PS2_STATUS d) = true).
Context (Hctr : forall v d, wctr d = true -> ctr (port_outb v PORT_PS2_DATA d) = v).

(** Time: no operation goes back or lasts longer than [2 ^ 40] cycles, and a look at the
    counter takes time. *)
Context (Hin : forall p d, now d <= now (port_inb p d).2 <= now d + 2 ^ 40).
Context (Hyield : forall d, now d <= now (port_yield d) <= now d + 2 ^ 40).
Context (Htsc : forall d, (port_rdtscll d).1 = now d /\ now d < now (port_rdtscll d).2 <= now d + 2 ^ 40).

Local Notation total := (total (D := D)).

Lemma total_get param i : (i < length param)%nat -> total (get_param param i) (fun _ => True).
Proof using.
  intros Hi d. unfold get_param. destruct (lookup_lt_is_Some_2 param i Hi) as [v ->]. by exists v, d.
Qed.

Lemma total_set param i v : (i < length param)%nat -> total (set_param param i v) (fun p => length p = length param).
Proof using.
  intros Hi d. unfold set_param. rewrite bool_decide_true by done. eexists _, d. split; [done|]. apply length_insert.
Qed.

Lemma total_wait n ready : total (wait_status n ready) (fun _ => True).
Proof using.
  induction n as [|n IH]; cbn [wait_status]; [by apply total_ret|].
  eapply total_bind; [apply total_inb|]. intros status _. case_test; [by apply total_ret|].
  eapply total_bind; [apply total_delay|]. done.
Qed.

Lemma total_i8042_send n i param : (i + n <= length param)%nat -> total (i8042_send n i param) (fun _ => True).
Proof using.
  revert i. induction n as [|n IH]; intros i Hi; cbn [i8042_send]; [by apply total_ret|].
  eapply total_bind; [apply total_wait|]. intros ret _. case_test; [by apply total_ret|].
  eapply total_bind; [apply total_get; lia|]. intros v _. eapply total_bind; [apply total_outb|]. intros _ _. apply IH. lia.
Qed.

Lemma total_i8042_receive n i param :
  (i + n <= length param)%nat -> total (i8042_receive n i param) (fun r => length r.2 = length param).
Proof using.
  revert i param. induction n as [|n IH]; intros i param Hi; cbn [i8042_receive]; [by apply total_ret|].
  eapply total_bind; [apply total_wait|]. intros ret _. case_test; [by apply total_ret|].
  eapply total_bind; [apply total_inb|]. intros v _. eapply total_bind; [apply total_set; lia|].
  intros p Hp. rewrite <- Hp. apply IH. rewrite Hp. lia.
Qed.

Lemma total_i8042_command command param :
  (send_count command <= length param)%nat -> (receive_count command <= length param)%nat ->
  total (i8042_command command param) (fun r => length r.2 = length param).
Proof using.
  intros Hs Hr. unfold i8042_command. eapply total_bind; [apply total_wait|]. intros ret _. case_test; [by apply total_ret|].
  eapply total_bind; [apply total_outb|]. intros _ _. eapply total_bind; [by apply total_i8042_send|].
  intros ret2 _. case_test; [by apply total_ret|]. by apply total_i8042_receive.
Qed.

(** *** The wait for a byte *)

Lemma recv_loop_total fuel aux needack E d :
  E - 2 ^ 61 <= now d <= E + 2 ^ 43 -> Z.max 0 (E - now d + 1) < Z.of_nat fuel ->
  exists a d', recv_loop fuel aux needack (u64 E) d = Some (a, d') /\ (a = -1 \/ in_u 8 a).
Proof using Hin Hyield Htsc.
  revert d. induction fuel as [|fuel IH]; intros d Hd Hf; [lia|]. cbn [recv_loop].
  assert (exists o d1, now d <= now d1 <= now d + 2 ^ 41 /\ (forall v, o = Some v -> in_u 8 v) /\
    (status ← inb PORT_PS2_STATUS; if has status I8042_STR_OBF then
       data ← inb PORT_PS2_DATA;
       mret (if (b2z (has status I8042_STR_AUXDATA) =? aux) && (negb needack || (data =? PS2_RET_ACK) || (data =? PS2_RET_NAK))
             then Some data else None)
     else mret None) d = Some (o, d1)) as (o & d1 & Hd1 & Ho & E1).
  { pose proof (Hin PORT_PS2_STATUS d) as H1. unfold mbind, P_bind, inb.
    destruct (port_inb PORT_PS2_STATUS d) as [v1 d1]. cbn [snd] in H1. case_test.
    - pose proof (Hin PORT_PS2_DATA d1) as H2. destruct (port_inb PORT_PS2_DATA d1) as [v2 d2]. cbn [snd] in H2.
      eexists _, d2. split; [lia|]. split; [|done]. intros v. case_test; [|done]. intros [= <-]. apply wrap_range. lia.
    - exists None, d1. split; [lia|]. done. }
  assert (forall {A B C} (f : P D A) (g : A -> P D B) (k : B -> P D C) x,
    (a ← f; b ← g a; k b) x = (b ← (a ← f; g a); k b) x) as Hassoc
    by (intros A B C f g k x; unfold mbind, P_bind; by destruct (f x) as [[? ?]|]).
  rewrite Hassoc. unfold mbind at 1, P_bind at 1. rewrite E1. destruct o as [v|].
  { exists v, d1. split; [done|]. right. by apply Ho. }
  destruct (Htsc d1) as [Hv Ht]. unfold mbind at 1, P_bind at 1. unfold rdtscll.
  destruct (port_rdtscll d1) as [v d2]. cbn [fst snd] in *. subst v.
  rewrite check_time_spec by lia. case_test; [exists (-1), d2; split; [done|by left]|].
  pose proof (Hyield d2). unfold mbind, P_bind, yield. apply IH; lia.
Qed.

Context (fuel : nat) (cpu_khz : Z) (Hkhz : 0 <= cpu_khz < 2 ^ 32) (Hfuel : cpu_khz * 4000 + 1 < Z.of_nat fuel).

Lemma total_recvbyte aux needack timeout : 0 <= timeout <= 4000 ->
  total (ps2_recvbyte fuel cpu_khz aux needack timeout) (fun a => a = -1 \/ in_u 8 a).
Proof using Hin Hyield Htsc Hkhz Hfuel.
  intros Ht d. unfold ps2_recvbyte, mbind, P_bind, rdtscll. destruct (Htsc d) as [Hv Hn].
  destruct (port_rdtscll d) as [v d1]. cbn [fst snd] in *. subst v.
  rewrite calc_future_spec.
  assert (0 <= cpu_khz * timeout <= cpu_khz * 4000) by nia. apply recv_loop_total; lia.
Qed.

Lemma total_sendbyte aux command timeout : 0 <= timeout <= 4000 ->
  total (ps2_sendbyte fuel cpu_khz aux command timeout) (fun _ => True).
Proof using Hin Hyield Htsc Hkhz Hfuel.
  intros Ht. unfold ps2_sendbyte. eapply total_bind with (Q := fun _ => True).
  - case_test.
    + unfold i8042_aux_write. eapply total_bind; [apply total_i8042_command; vm_compute; lia|]. intros [ret p] _. by apply total_ret.
    + unfold i8042_kbd_write. eapply total_bind; [apply total_wait|]. intros ret _. case_test; [|by apply total_ret].
      eapply total_bind; [apply total_outb|]. intros _ _. by apply total_ret.
  - intros ret _. case_test; [by apply total_ret|]. eapply total_bind; [by apply total_recvbyte|].
    intros ret2 _. repeat case_test; by apply total_ret.
Qed.

Lemma total_ps2_send n i aux param : (i + n <= length param)%nat ->
  total (ps2_send fuel cpu_khz n i aux param) (fun _ => True).
Proof using Hin Hyield Htsc Hkhz Hfuel.
  revert i. induction n as [|n IH]; intros i Hi; cbn [ps2_send]; [by apply total_ret|].
  eapply total_bind; [apply total_get; lia|]. intros v _. eapply total_bind; [apply total_sendbyte; lia|].
  intros ret _. case_test; [by apply total_ret|]. apply IH. lia.
Qed.

Lemma total_ps2_receive n i aux param : (i + n <= length param)%nat ->
  total (ps2_receive fuel cpu_khz n i aux param) (fun r => length r.2 = length param).
Proof using Hin Hyield Htsc Hkhz Hfuel.
  revert i param. induction n as [|n IH]; intros i param Hi; cbn [ps2_receive]; [by apply total_ret|].
  eapply total_bind; [apply total_recvbyte; lia|]. intros ret _. case_test; [by apply total_ret|].
  eapply total_bind; [apply total_set; lia|]. intros p Hp. rewrite <- Hp. apply IH. rewrite Hp. lia.
Qed.

(** The parameters that a command needs. *)
Definition enough_params (command : Z) (param : list Z) : Prop :=
  if (command =? ATKBD_CMD_RESET_BAT) || (command =? ATKBD_CMD_GETID) then (2 <= length param)%nat
  else (send_count command <= length param)%nat /\ (receive_count command <= length param)%nat.

(** Store an answer and go on. *)
Lemma total_store param i v {B} (k : list Z -> P D B) R :
  (i < length param)%nat -> (forall p, length p = length param -> total (k p) R) -> total (set_param param i v ≫= k) R.
Proof using. intros Hi Hk. eapply total_bind; [by apply total_set|]. exact Hk. Qed.

Lemma total_exchange aux command param : enough_params command param ->
  total (ps2_exchange fuel cpu_khz aux command param) (fun r => length r.2 = length param).
Proof using Hin Hyield Htsc Hkhz Hfuel.
  unfold enough_params, ps2_exchange. destruct (Z.eqb_spec command ATKBD_CMD_RESET_BAT) as [_|_];
    [intros Hl|destruct (Z.eqb_spec command ATKBD_CMD_GETID) as [_|_]; [intros Hl|intros [Hs Hr]]]; cbn [orb] in *.
  all: eapply total_bind; [apply total_sendbyte; lia|]; intros ret _; case_test; [by apply total_ret|].
  - eapply total_bind; [apply total_recvbyte; lia|]. intros r1 _. case_test; [by apply total_ret|].
    apply total_store; [lia|]. intros p Hp. eapply total_bind; [apply total_recvbyte; lia|]. intros r2 _. cbv zeta.
    apply total_store; [lia|]. intros p2 Hp2. apply total_ret. simpl. lia.
  - eapply total_bind; [apply total_recvbyte; lia|]. intros r1 _. case_test; [by apply total_ret|].
    apply total_store; [lia|]. intros p Hp. case_test.
    + eapply total_bind; [apply total_recvbyte; lia|]. intros r2 _. case_test; [by apply total_ret|].
      apply total_store; [lia|]. intros p2 Hp2. apply total_ret. simpl. lia.
    + apply total_store; [lia|]. intros p2 Hp2. apply total_ret. simpl. lia.
  - eapply total_bind; [apply total_ps2_send; lia|]. intros r1 _. case_test; [by apply total_ret|].
    apply total_ps2_receive; lia.
Qed.

(** The mode byte is set from every state. *)
Lemma write_ctr v d : in_u 8 v ->
  exists d', i8042_command I8042_CMD_CTL_WCTR [v] d = Some ((0, [v]), d') /\ ctr d' = v.
Proof using Hready Hwctr Hctr.
  intros Hv. unfold i8042_command, mbind, P_bind. destruct (Hready d) as (d1 & -> & _). cbn [negb Z.eqb].
  unfold outb at 1. change (u8 I8042_CMD_CTL_WCTR) with 0x60. set (d2 := port_outb 0x60 PORT_PS2_STATUS d1).
  change (send_count I8042_CMD_CTL_WCTR) with 1%nat. cbn [i8042_send]. unfold mbind, P_bind.
  destruct (Hready d2) as (d3 & -> & E3). cbn [negb Z.eqb]. unfold get_param. cbn. eexists. split; [done|].
  rewrite wrap_small by done. apply Hctr. rewrite E3. apply Hwctr.
Qed.

(** C19.  Whatever the device at the port answers, or when it does not, a command ends within
    its time limits and inside its parameters, and leaves the mode byte of the controller,
    with the interrupts and the clocks of both ports, as the caller had it. *)
Theorem ps2_command_restores ps2ctr aux command param d :
  in_u 8 ps2ctr -> enough_params command param ->
  exists ret param' d', ps2_command fuel cpu_khz ps2ctr aux command param d = Some ((ret, param'), d') /\
    length param' = length param /\ ctr d' = ps2ctr.
Proof using All.
  intros Hc Hp. unfold ps2_command.
  set (c1 := Z.ldiff (Z.lor ps2ctr _) _). set (c2 := Z.ldiff c1 _).
  assert (in_u 8 c1) as Hc1 by (subst c1; apply ldiff_u8, lor_u8; [done|split; [done|reflexivity]]).
  assert (in_u 8 c2) as Hc2 by (by apply ldiff_u8).
  unfold mbind at 1, P_bind at 1. destruct (write_ctr c1 d Hc1) as (d1 & -> & _). cbn [negb Z.eqb].
  unfold mbind at 1, P_bind at 1, yield at 1. set (d2 := port_yield d1).
  unfold mbind at 1, P_bind at 1. destruct (write_ctr c2 d2 Hc2) as (d3 & -> & _). cbn [negb Z.eqb].
  unfold mbind at 1, P_bind at 1. destruct (total_exchange aux command param Hp d3) as ([ret p] & d4 & -> & Hl).
  unfold mbind at 1, P_bind at 1. destruct (write_ctr ps2ctr d4 Hc) as (d5 & -> & E5). cbn [negb Z.eqb].
  by exists ret, p, d5.
Qed.
End Restore.

(** ** Packets *)

(** A driver at [func] is installed for packets of three bytes, and the next byte is the
    first of one; the extended area is above the BIOS data area. *)
Definition packet_start (m : memory) (func : Z) : Prop :=
  0x500 <= get_ebda_seg m * 16 /\ has (m (ebda m "mouse_flag2")) 0x80 = true /\
  Z.land (m (ebda m "mouse_flag2")) 0x07 = 3 /\ m (ebda m "mouse_flag1") = 0 /\
  readl m (ebda m "far_call_pointer") = func.

(** The cells where packets are put together. *)
Definition packet_cell (m : memory) (a : Z) : Prop :=
  ebda m "mouse_flag1" = a \/ ebda m "mouse_data" <= a < ebda m "mouse_data" + 8.

(** Bytes that arrive one by one, and the calls they cause. *)
Fixpoint mouse_bytes (m : memory) (l : list Z) : memory * list mouse_call :=
  match l with
  | [] => (m, [])
  | v :: l =>
      let '(m, call) := process_mouse m v in
      let '(m, calls) := mouse_bytes m l in (m, option_list call ++ calls)
  end.

Ltac mouse_addr :=
  unfold ebda in *;
  change (offsetof extended_bios_data_area_s "far_call_pointer") with 34 in *;
  change (offsetof extended_bios_data_area_s "mouse_flag1") with 38 in *;
  change (offsetof extended_bios_data_area_s "mouse_flag2") with 39 in *;
  change (offsetof extended_bios_data_area_s "mouse_data") with 40 in *.

(** Byte [i] of a packet. *)
Lemma process_mouse_step m seg i v :
  get_ebda_seg m = seg -> has (m (seg * 16 + 39)) 0x80 = true -> Z.land (m (seg * 16 + 39)) 0x07 = 3 ->
  m (seg * 16 + 38) = i -> 0 <= i <= 2 ->
  process_mouse m v =
    let m1 := writeb m (seg * 16 + 40 + i) v in
    if i <? 2 then (writeb m1 (seg * 16 + 38) (i + 1), None)
    else let m2 := writeb m1 (seg * 16 + 38) 0 in
         (m2, Some (mk_mouse_call (readl m2 (seg * 16 + 34)) (m1 (seg * 16 + 40)) (m1 (seg * 16 + 40 + 1)) (m1 (seg * 16 + 40 + 2)))).
Proof.
  intros Es H80 H7 Hi Hr. unfold process_mouse, readb. mouse_addr. rewrite Es, Hi, H7.
  unfold has in H80. apply negb_true_iff in H80. rewrite H80.
  assert (Z.land i 7 = i) as -> by (assert (i = 0 \/ i = 1 \/ i = 2) as [-> | [-> | ->]] by lia; done).
  rewrite wrap_small by (unfold in_u; lia). destruct (Z.ltb_spec (i + 1) 3), (Z.ltb_spec i 2); done || lia.
Qed.

Lemma packet_step m func s x y :
  packet_start m func -> in_u 8 s -> in_u 8 x -> in_u 8 y ->
  exists m', (forall l, mouse_bytes m (s :: x :: y :: l) =
      let '(m2, calls) := mouse_bytes m' l in (m2, mk_mouse_call func s x y :: calls)) /\
    packet_start m' func /\ get_ebda_seg m' = get_ebda_seg m /\ (forall a, ~ packet_cell m a -> m' a = m a).
Proof.
  intros (He & H80 & H7 & H0 & Hf) Hs Hx Hy. set (seg := get_ebda_seg m) in *. mouse_addr.
  assert (forall m', (forall a, a < 0x500 -> m' a = m a) -> get_ebda_seg m' = seg) as Hseg.
  { intros m' Hm. apply readw_ext; apply Hm; rewrite (eq_refl : bda "ebda_seg" = 0x40e); lia. }
  fold seg in H80, H7, H0, Hf.
  set (m1 := writeb (writeb m (seg * 16 + 40 + 0) s) (seg * 16 + 38) 1).
  set (m2 := writeb (writeb m1 (seg * 16 + 40 + 1) x) (seg * 16 + 38) 2).
  set (m3 := writeb (writeb m2 (seg * 16 + 40 + 2) y) (seg * 16 + 38) 0).
  assert (forall a, a <> seg * 16 + 38 -> a <> seg * 16 + 40 -> a <> seg * 16 + 41 -> a <> seg * 16 + 42 -> m3 a = m a) as Hfr.
  { intros a ? ? ? ?. unfold m3, m2, m1, writeb. by addr_decide. }
  assert (get_ebda_seg m3 = seg) as Es3 by (apply Hseg; intros a Ha; apply Hfr; lia).
  exists m3. split; [|split; [|split]].
  - intros l. cbn [mouse_bytes].
    rewrite (process_mouse_step m seg 0) by done || lia. cbn [Z.ltb Z.compare]. cbv zeta. fold m1.
    rewrite (process_mouse_step m1 seg 1).
    2: { apply Hseg. intros a Ha. unfold m1. by rewrite !writeb_other by lia. }
    2,3: unfold m1; rewrite !writeb_other by lia; done.
    2: unfold m1; by rewrite writeb_same. 2: lia.
    cbn [Z.ltb Z.compare Pos.compare Pos.compare_cont]. cbv zeta. fold m2.
    rewrite (process_mouse_step m2 seg 2).
    2: { apply Hseg. intros a Ha. unfold m2, m1. by rewrite !writeb_other by lia. }
    2,3: unfold m2, m1; rewrite !writeb_other by lia; done.
    2: unfold m2; by rewrite writeb_same. 2: lia.
    cbn [Z.ltb Z.compare Pos.compare Pos.compare_cont]. cbv zeta. fold m3.
    destruct (mouse_bytes m3 l) as [m4 calls]. apply (f_equal (pair m4)). simpl. f_equal. f_equal.
    + rewrite <- Hf. apply readl_ext. intros a Ha. apply Hfr; lia.
    + unfold m2, m1, writeb. addr_decide. by apply wrap_small.
    + unfold m2, m1, writeb. addr_decide. by apply wrap_small.
    + unfold m2, m1, writeb. addr_decide. by apply wrap_small.
  - unfold packet_start. mouse_addr. rewrite Es3, (Hfr (seg * 16 + 39)) by lia. split_and!; [done..| |].
    + unfold m3. by rewrite writeb_same.
    + rewrite <- Hf. apply readl_ext. intros a Ha. apply Hfr; lia.
  - done.
  - unfold packet_cell. mouse_addr. fold seg. intros a Ha. apply Hfr; lia.
Qed.

(** The bytes of any number of packets call the installed driver once per packet, in
    order, each time with the status and the two movements of that packet, and change
    nothing but the cells where packets are put together. *)
Theorem mouse_packets m func (packets : list (Z * Z * Z)) :
  packet_start m func -> Forall (fun '(s, x, y) => in_u 8 s /\ in_u 8 x /\ in_u 8 y) packets ->
  exists m', mouse_bytes m (packets ≫= fun '(s, x, y) => [s; x; y]) =
      (m', (fun '(s, x, y) => mk_mouse_call func s x y) <$> packets) /\
    packet_start m' func /\ (forall a, ~ packet_cell m a -> m' a = m a).
Proof.
  revert m. induction packets as [|[[s x] y] packets IH]; intros m Hm Hp; [by exists m|].
  apply Forall_cons in Hp as [(Hs & Hx & Hy) Hp].
  destruct (packet_step m func s x y Hm Hs Hx Hy) as (m1 & E & Hm1 & Eseg & Hf1).
  destruct (IH m1 Hm1 Hp) as (m2 & E2 & Hm2 & Hf2). exists m2. split; [|split; [done|]].
  - change (((s, x, y) :: packets) ≫= fun '(s, x, y) => [s; x; y]) with
      (s :: x :: y :: (packets ≫= fun '(s, x, y) => [s; x; y])). by rewrite E, E2.
  - intros a Ha. rewrite Hf2, Hf1; [done|done|]. unfold packet_cell, ebda in *. by rewrite Eseg.
Qed.

(** ** Witnesses *)

(** A controller that is always ready to take bytes, and a device that never answers. *)
Record demo_port := mk_demo_port { port_ctr : Z; port_wctr : bool; port_now : Z }.
#[local] Instance demo_port_device : PortDevice demo_port := {
  port_inb p d := (0, d);
  port_outb v p d :=
    if p =? PORT_PS2_STATUS then mk_demo_port (port_ctr d) (v =? 0x60) (port_now d)
    else mk_demo_port (if port_wctr d then v else port_ctr d) false (port_now d);
  port_rdtscll d := (port_now d, mk_demo_port (port_ctr d) (port_wctr d) (port_now d + 1));
  port_udelay n d := d;
  port_yield d := d }.

Lemma ps2_command_restores_witness :
  exists ret param' d', ps2_command 4002 1 0x47 1 PSMOUSE_CMD_GETINFO [0; 0; 0] (mk_demo_port 0x47 false 0) = Some ((ret, param'), d') /\
    length param' = 3%nat /\ port_ctr d' = 0x47.
Proof.
  apply (ps2_command_restores port_ctr port_wctr port_now); try done.
  - intros d. by exists d.
  - intros v d Hd. simpl. by rewrite Hd.
  - intros p d. simpl. lia.
  - intros d. simpl. lia.
  - intros d. simpl. lia.
  - vm_compute. lia.
Defined.

Definition demo_mouse : memory :=
  let m := writew (fun _ => 0) (bda "ebda_seg") 0x9fc0 in
  writel (writeb m (ebda m "mouse_flag2") 0x83) (ebda m "far_call_pointer") 0x12340010.

Lemma mouse_packets_witness :
  exists m', mouse_bytes demo_mouse [0x08; 1; 2; 0x18; 0xff; 0] =
    (m', [mk_mouse_call 0x12340010 0x08 1 2; mk_mouse_call 0x12340010 0x18 0xff 0]) /\
    packet_start m' 0x12340010 /\ (forall a, ~ packet_cell demo_mouse a -> m' a = demo_mouse a).
Proof.
  apply (mouse_packets demo_mouse 0x12340010 [(0x08, 1, 2); (0x18, 0xff, 0)]).
  - vm_compute. split_and!; done.
  - repeat constructor; unfold in_u; lia.
Defined.
