(* ===== verification/System.v ===== *)
(** * System services: [bios/seabios/src/system.c], [misc.c]

    Interrupt 0x15 and the small services around it.  The state is memory and the system
    control port A, which keeps what is written to it.  Functions that live in other
    files, and the switch to protected mode, are arguments of the dispatcher. *)

From S2P Require Import Prelude BiosUtil Bregs E820.
Local Open Scope Z_scope.
Local Open Scope coremu_scope.

Definition RET_EUNSUPPORTED : Z := 0x86.
Definition A20_ENABLE_BIT : Z := 0x02.
Definition BUILD_BIOS_ADDR : Z := 0xf0000.
Definition BUILD_BIOS_SIZE : Z := 0x10000.
Definition SEG_BIOS : Z := 0xf000.

Record sys := mk_sys { smem : memory; port_a20 : Z }.
Definition set_smem (s : sys) (m : memory) : sys := mk_sys m (port_a20 s).

(** ** The A20 line *)

(** Whether it was on before. *)
Definition set_a20 (s : sys) (cond : bool) : bool * sys :=
  let oldval := port_a20 s in
  let newval := if cond then Z.lor oldval A20_ENABLE_BIT else Z.ldiff oldval A20_ENABLE_BIT in
  (negb (Z.land oldval A20_ENABLE_BIT =? 0), mk_sys (smem s) (u8 newval)).

Definition handle_1524 (s : sys) (regs : bregs) : sys * bregs :=
  let f := al regs in
  if f =? 0x00 then ((set_a20 s false).2, set_code_success regs)
  else if f =? 0x01 then ((set_a20 s true).2, set_code_success regs)
  else if f =? 0x02 then
    (s, set_code_success (set_al regs (if negb (Z.land (port_a20 s) A20_ENABLE_BIT =? 0) then 1 else 0)))
  else if f =? 0x03 then (s, set_code_success (set_bx regs 3))
  else (s, set_code_unimplemented regs RET_EUNSUPPORTED).

(** ** Block move *)

(** [util.h]: the parts of a segment descriptor. *)
Definition GDT_BASE (v : Z) : Z := Z.lor (Z.shiftl (Z.land v 0xff000000) 32) (Z.shiftl (Z.land v 0x00ffffff) 16).
Definition GDT_LIMIT (v : Z) : Z := Z.lor (Z.shiftl (Z.land v 0x000f0000) 32) (Z.land v 0x0000ffff).
Definition GDT_CODE : Z := Z.shiftl 0x9b 40.
Definition GDT_DATA : Z := Z.shiftl 0x93 40.

(** What the processor reads of the descriptor at [a]: base, limit, and from the byte of
    its type whether [%ds] and [%es] may be loaded with it (a present segment of data or
    of readable code), which sets the accessed bit in the table; whether its data may be
    stored to; and whether a word at an offset is inside. *)
Definition desc_base (m : memory) (a : Z) : Z :=
  Z.lor (Z.lor (readw m (a + 2)) (Z.shiftl (m (a + 4)) 16)) (Z.shiftl (m (a + 7)) 24).
Definition desc_limit (m : memory) (a : Z) : Z :=
  let l := Z.lor (readw m a) (Z.shiftl (Z.land (m (a + 6)) 0xf) 16) in
  if Z.testbit (m (a + 6)) 7 then Z.lor (Z.shiftl l 12) 0xfff else l.
Definition desc_loadable (m : memory) (a : Z) : bool :=
  let t := m (a + 5) in Z.testbit t 7 && Z.testbit t 4 && (negb (Z.testbit t 3) || Z.testbit t 1).
Definition load_segment (m : memory) (a : Z) : option memory :=
  if desc_loadable m a then Some (writeb m (a + 5) (Z.lor (m (a + 5)) 1)) else None.
Definition desc_stores (m : memory) (a : Z) : bool :=
  negb (Z.testbit (m (a + 5)) 3) && Z.testbit (m (a + 5)) 1.
Definition desc_word (m : memory) (a off : Z) : bool :=
  if Z.testbit (m (a + 5)) 3 || negb (Z.testbit (m (a + 5)) 2) then off + 1 <=? desc_limit m a
  else (desc_limit m a <? off) && (off + 1 <=? (if Z.testbit (m (a + 6)) 6 then 0xffffffff else 0xffff)).

(** [rep movsw] with 16-bit index registers; [reads] and [writes] are the offsets that
    the segments allow; [None] is another access, which shuts the machine down because
    its interrupt table is empty. *)
Fixpoint rep_movsw (n : nat) (m : memory) (sbase : Z) (reads : Z -> bool) (dbase : Z) (writes : Z -> bool) (si di : Z)
  : option memory :=
  match n with
  | O => Some m
  | S n =>
      if negb (reads si && writes di) then None
      else rep_movsw n (writew m (u32 (dbase + di)) (readw m (u32 (sbase + si)))) sbase reads dbase writes
             (u16 (si + 2)) (u16 (di + 2))
  end.

Definition handle_1587 (ss : Z) (s : sys) (regs : bregs) : option (sys * bregs) :=
  let '(prev_a20_enable, s) := set_a20 s true in
  let gdt_far := es regs * 16 + si regs in
  let loc := MAKE_FLATPTR (es regs) (si regs) in
  let m := smem s in
  let m := writeq m (gdt_far + 8 * 1) (Z.lor (Z.lor GDT_DATA (GDT_LIMIT (6 * 8 - 1))) (GDT_BASE loc)) in
  let m := writeq m (gdt_far + 8 * 4) (Z.lor (Z.lor GDT_CODE (GDT_LIMIT (BUILD_BIOS_SIZE - 1))) (GDT_BASE BUILD_BIOS_ADDR)) in
  let loc := MAKE_FLATPTR ss 0 in
  let m := writeq m (gdt_far + 8 * 5) (Z.lor (Z.lor GDT_DATA (GDT_LIMIT 0x0ffff)) (GDT_BASE loc)) in
  let count := cx regs in
  let src := gdt_far + 8 * 2 in
  let dst := gdt_far + 8 * 3 in
  m ← load_segment m src;
  m ← load_segment m dst;
  m ← rep_movsw (Z.to_nat count) m (desc_base m src) (desc_word m src)
        (desc_base m dst) (fun off => desc_stores m dst && desc_word m dst off) 0 0;
  m ← load_segment m (gdt_far + 8 * 5);
  Some ((set_a20 (set_smem s m) prev_a20_enable).2, set_code_success regs).

(** ** Memory sizes *)

Definition handle_1588 (RamSize : Z) (regs : bregs) : bregs :=
  let regs :=
    if 64 * 1024 * 1024 <? RamSize then set_ax regs (63 * 1024)
    else set_ax regs (u32 (RamSize - 1 * 1024 * 1024) / 1024) in
  set_success regs.

Definition handle_15e801 (RamSize : Z) (regs : bregs) : bregs :=
  let regs :=
    if 16 * 1024 * 1024 <? RamSize then
      set_dx (set_cx regs (15 * 1024)) (u32 (RamSize - 16 * 1024 * 1024) / (64 * 1024))
    else set_dx (set_cx regs (u32 (RamSize - 1 * 1024 * 1024) / 1024)) 0 in
  set_success (set_bx (set_ax regs (cx regs)) (dx regs)).

Definition sizeof_e820entry : Z := 20.

(** The copy of an entry of [e820_list] to the caller. *)
Definition put_entry (m : memory) (a : Z) (e : e820entry) : memory :=
  writel (writeq (writeq m a (start e)) (a + 8) (size e)) (a + 16) (type e).

Definition SMAP : Z := 0x534D4150.

Definition handle_15e820 (e820_list : list e820entry) (m : memory) (regs : bregs) : memory * bregs :=
  let count := Z.of_nat (length e820_list) in
  match e820_list !! Z.to_nat (bx regs) with
  | Some e =>
      if negb (edx regs =? SMAP) || (ecx regs <? sizeof_e820entry)
      then (m, set_code_invalid regs RET_EUNSUPPORTED)
      else
        let m := put_entry m (es regs * 16 + di regs) e in
        let regs := if bx regs =? count - 1 then set_ebx regs 0 else set_ebx regs (u32 (ebx regs + 1)) in
        (m, set_success (set_ecx (set_eax regs SMAP) sizeof_e820entry))
  | None => (m, set_code_invalid regs RET_EUNSUPPORTED)
  end.

(** ** The dispatcher *)

Section Int15.
Context (ss RamSize : Z) (e820_list : list e820entry) (bios_config_table : Z).
(** Functions 0x53, 0x5f, 0x83, 0x86, 0x89 and 0xc2. *)
Context (elsewhere : Z -> sys -> bregs -> option (sys * bregs)).

Definition handle_15e8 (s : sys) (regs : bregs) : option (sys * bregs) :=
  if al regs =? 0x01 then Some (s, handle_15e801 RamSize regs)
  else if al regs =? 0x20 then
    let '(m, regs) := handle_15e820 e820_list (smem s) regs in Some (set_smem s m, regs)
  else Some (s, set_code_unimplemented regs RET_EUNSUPPORTED).

Definition handle_154f (regs : bregs) : bregs := set_invalid_silent regs.
Definition handle_1552 (regs : bregs) : bregs := set_code_success regs.
Definition handle_15c0 (regs : bregs) : bregs := set_code_success (set_bx (set_es regs SEG_BIOS) bios_config_table).
Definition handle_15c1 (s : sys) (regs : bregs) : bregs := set_success (set_es regs (get_ebda_seg (smem s))).

Definition handle_15 (s : sys) (regs : bregs) : option (sys * bregs) :=
  let f := ah regs in
  if f =? 0x24 then let '(s, regs) := handle_1524 s regs in Some (s, regs)
  else if f =? 0x4f then Some (s, handle_154f regs)
  else if f =? 0x52 then Some (s, handle_1552 regs)
  else if f =? 0x87 then handle_1587 ss s regs
  else if f =? 0x88 then Some (s, handle_1588 RamSize regs)
  else if (f =? 0x90) || (f =? 0x91) then Some (s, regs)
  else if f =? 0xc0 then Some (s, handle_15c0 regs)
  else if f =? 0xc1 then Some (s, handle_15c1 s regs)
  else if f =? 0xe8 then handle_15e8 s regs
  else if existsb (Z.eqb f) [0x53; 0x5f; 0x83; 0x86; 0x89; 0xc2] then elsewhere f s regs
  else Some (s, set_code_unimplemented regs RET_EUNSUPPORTED).
End Int15.

(** ** [misc.c] *)

Definition handle_12 (m : memory) (regs : bregs) : bregs := set_ax regs (readw m (bda "mem_size_kb")).
Definition handle_11 (m : memory) (regs : bregs) : bregs := set_ax regs (readw m (bda "equipment_list_flags")).

(** [BIOS_CONFIG_TABLE], byte by byte. *)
Definition CBT_F1_2NDPIC : Z := Z.shiftl 1 6.
Definition CBT_F1_RTC : Z := Z.shiftl 1 5.
Definition CBT_F1_INT154F : Z := Z.shiftl 1 4.
Definition CBT_F1_EBDA : Z := Z.shiftl 1 2.
Definition CBT_F2_INT1609 : Z := Z.shiftl 1 6.
Definition BIOS_CONFIG_TABLE : list Z :=
  [8; 0; 0xFC; 0x00; 0x01; Z.lor (Z.lor (Z.lor CBT_F1_2NDPIC CBT_F1_RTC) CBT_F1_EBDA) CBT_F1_INT154F; CBT_F2_INT1609; 0; 0; 0].

(** ** A caller reads the memory map *)

Definition get_entry (m : memory) (a : Z) : e820entry := mk_e820 (readq m a) (readq m (a + 8)) (readl m (a + 16)).

Definition entry_ok (e : e820entry) : Prop := in_u 64 (start e) /\ in_u 64 (size e) /\ in_u 32 (type e).

Lemma get_put_entry m a e : entry_ok e -> get_entry (put_entry m a e) a = e.
Proof.
  intros (H1 & H2 & H3). unfold get_entry, put_entry. destruct e as [st sz ty]; cbn [start size type] in *. f_equal.
  - rewrite (readq_ext (writeq (writeq m a st) (a + 8) sz)) by (intros; apply writel_other; lia).
    rewrite (readq_ext (writeq m a st)) by (intros; apply writeq_other; lia). rewrite readq_writeq. by apply wrap_small.
  - rewrite (readq_ext (writeq (writeq m a st) (a + 8) sz)) by (intros; apply writel_other; lia).
    rewrite readq_writeq. by apply wrap_small.
  - rewrite readl_writel. by apply wrap_small.
Qed.

Section Enumeration.
Context (ss RamSize : Z) (e820_list : list e820entry) (table : Z) (elsewhere : Z -> sys -> bregs -> option (sys * bregs)).

(** What an operating system does: call function 0xe820 with a continuation value, take
    the entry from its buffer, and go on until the continuation is zero. *)
Fixpoint read_map (fuel : nat) (s : sys) (regs : bregs) : option (list e820entry) :=
  match fuel with
  | O => None
  | S fuel =>
      '(s, regs) ← handle_15 ss RamSize e820_list table elsewhere s
                     (set_ecx (set_edx (set_eax regs 0xe820) SMAP) sizeof_e820entry);
      if cf regs then Some []
      else
        let e := get_entry (smem s) (es regs * 16 + di regs) in
        if ebx regs =? 0 then Some [e] else cons e <$> read_map fuel s regs
  end.

Lemma handle_15e820_entry s regs k e :
  e820_list !! k = Some e -> entry_ok e -> Z.of_nat (length e820_list) < 2 ^ 15 -> ebx regs = Z.of_nat k ->
  exists s' regs', handle_15 ss RamSize e820_list table elsewhere s
      (set_ecx (set_edx (set_eax regs 0xe820) SMAP) sizeof_e820entry) = Some (s', regs') /\
    cf regs' = false /\ get_entry (smem s') (es regs' * 16 + di regs') = e /\
    ebx regs' = if bool_decide (S k = length e820_list) then 0 else Z.of_nat (S k).
Proof.
  intros Hk He Hl Hb. pose proof (lookup_lt_Some _ _ _ Hk) as Hlt.
  set (r0 := set_ecx _ _). assert (ah r0 = 0xe8 /\ al r0 = 0x20) as [Eh El] by done.
  assert (bx r0 = Z.of_nat k) as Ebx.
  { unfold bx, lo16. change (ebx r0) with (ebx regs). rewrite Hb. apply wrap_small. unfold in_u. lia. }
  unfold handle_15, handle_15e8. rewrite Eh, El. cbn [Z.eqb Pos.eqb orb]. unfold handle_15e820.
  rewrite Ebx, Nat2Z.id, Hk. change (edx r0) with SMAP. change (ecx r0) with sizeof_e820entry.
  cbn [negb orb]. rewrite Z.eqb_refl, Z.ltb_irrefl. cbn [negb orb]. eexists _, _. split; [done|].
  split; [apply cf_set|]. split.
  - case_test; cbn [smem set_smem]; by apply get_put_entry.
  - rewrite wrap_small by (change (ebx r0) with (ebx regs); rewrite Hb; unfold in_u; lia).
    change (ebx r0) with (ebx regs). rewrite Hb. case_bool_decide as Ek.
    + rewrite (proj2 (Z.eqb_eq _ _)) by lia. done.
    + rewrite (proj2 (Z.eqb_neq _ _)) by lia. cbn. lia.
Qed.

(** C27.  The calls return every entry of the map once, in order, and end. *)
Theorem e820_enumeration s regs :
  Forall entry_ok e820_list -> 0 < Z.of_nat (length e820_list) < 2 ^ 15 -> ebx regs = 0 ->
  read_map (length e820_list) s regs = Some e820_list.
Proof.
  intros Hall Hl Hb.
  assert (forall n k s regs, (k + n = length e820_list)%nat -> (0 < n)%nat -> ebx regs = Z.of_nat k ->
    read_map n s regs = Some (drop k e820_list)) as H; [|by rewrite (H _ 0%nat) by (simpl; lia)].
  clear s regs Hb. induction n as [|n IH]; intros k s regs Hk Hn Hb; [lia|]. cbn [read_map].
  destruct (lookup_lt_is_Some_2 e820_list k ltac:(lia)) as [e He].
  destruct (handle_15e820_entry s regs k e He) as (s' & r' & -> & Ec & Eg & Eb);
    [rewrite Forall_forall in Hall; apply Hall, list_elem_of_lookup; eauto|lia|done|]. cbn [mbind option_bind].
  rewrite Ec, Eg, Eb, (drop_S _ _ _ He). case_bool_decide as El.
  - rewrite Z.eqb_refl, drop_ge by lia. done.
  - rewrite (proj2 (Z.eqb_neq _ _)) by lia. rewrite (IH (S k)) by lia || done. done.
Qed.
End Enumeration.

(** ** The block move *)

Lemma movw_spec m d s a : bytes m -> writew m d (readw m s) a = copied m d s 2 a.
Proof.
  intros Hm. rewrite readw_sum by done. rewrite writew_eq by apply Hm.
  unfold writeb, copied. rewrite !wrap_small by apply Hm. addr_cases; try lia; try done; f_equal; lia.
Qed.

(** No wrap of the index registers, allowed by both segments and inside 4 GiB. *)
Lemma rep_movsw_spec n m sbase reads dbase writes o :
  bytes m -> 0 <= o -> o + 2 * Z.of_nat n <= 0x10000 ->
  (forall x, o <= x -> x + 2 <= o + 2 * Z.of_nat n -> reads x = true /\ writes x = true) ->
  0 <= sbase -> sbase + 0x10000 <= 2 ^ 32 -> 0 <= dbase -> dbase + 0x10000 <= 2 ^ 32 ->
  sbase = dbase \/ dbase + 2 <= sbase \/ sbase + (o + 2 * Z.of_nat n) <= dbase + o ->
  exists m', rep_movsw n m sbase reads dbase writes o o = Some m' /\
    forall a, m' a = copied m (dbase + o) (sbase + o) (2 * Z.of_nat n) a.
Proof.
  revert m o. induction n as [|n IH]; intros m o Hm Ho H16 Hok Hs1 Hs2 Hd1 Hd2 Hov; cbn [rep_movsw].
  { exists m. split; [done|]. intros a. unfold copied. addr_cases; done || lia. }
  destruct (Hok o) as [-> ->]; [lia..|]. cbn [andb negb].
  rewrite !(wrap_small 32) by (unfold in_u; lia).
  set (m1 := writew m (dbase + o) (readw m (sbase + o))).
  assert (forall a, m1 a = copied m (dbase + o) (sbase + o) 2 a) as E1 by (intros a; by apply movw_spec).
  destruct (decide (n = 0%nat)) as [->|Hn].
  { exists m1. split; [done|]. exact E1. }
  rewrite wrap_small by (unfold in_u; lia).
  destruct (IH m1 (o + 2)) as (m' & -> & E'); [by apply bytes_writew|first [lia|intros; apply Hok; lia]..|].
  exists m'. split; [done|]. intros a. rewrite E'. unfold copied. rewrite !E1. unfold copied.
  addr_cases; try lia; try done; f_equal; lia.
Qed.

(** A test of all bytes. *)
Lemma all_bytes (f : Z -> bool) v : forallb f (Z.of_nat <$> seq 0 256) = true -> in_u 8 v -> f v = true.
Proof.
  intros Hf Hv. rewrite forallb_forall in Hf. apply Hf, list_elem_of_In, list_elem_of_fmap.
  exists (Z.to_nat v). unfold in_u in Hv. split; [lia|]. apply elem_of_seq. lia.
Qed.

(** The caller's segments: present data segments that grow up. *)
Definition desc_data (m : memory) (a : Z) : bool := Z.land (m (a + 5)) 0x9c =? 0x90.
Definition desc_writable (m : memory) (a : Z) : bool := desc_data m a && Z.testbit (m (a + 5)) 1.

Lemma desc_data_bits m a : desc_data m a = true ->
  Z.testbit (m (a + 5)) 7 = true /\ Z.testbit (m (a + 5)) 4 = true /\
  Z.testbit (m (a + 5)) 3 = false /\ Z.testbit (m (a + 5)) 2 = false.
Proof.
  unfold desc_data. intros E%Z.eqb_eq.
  assert (forall i, Z.testbit (m (a + 5)) i && Z.testbit 0x9c i = Z.testbit 0x90 i) as H by (intros i; by rewrite <- Z.land_spec, E).
  pose proof (H 7). pose proof (H 4). pose proof (H 3). pose proof (H 2). cbn in *. rewrite andb_true_r in *. done.
Qed.

(** The part of the caller's table that the firmware fills in. *)
Definition gdt_filled (gdt a : Z) : Prop := gdt + 8 <= a < gdt + 16 \/ gdt + 32 <= a < gdt + 48.

(** Memory where the descriptors at [a] agree but for the accessed bit. *)
Definition desc_same (m m' : memory) (a : Z) : Prop :=
  (forall x, a <= x < a + 8 -> x <> a + 5 -> m' x = m x) /\ (m' (a + 5) = m (a + 5) \/ m' (a + 5) = Z.lor (m (a + 5)) 1).

Lemma desc_ext m m' a : desc_same m m' a -> desc_data m a = true ->
  desc_base m' a = desc_base m a /\ desc_loadable m' a = true /\
  (forall off, desc_word m' a off = (off + 1 <=? desc_limit m a)) /\
  (desc_writable m a = true -> desc_stores m' a = true).
Proof.
  intros [Hx H5] (H7 & H4 & H3 & H2)%desc_data_bits. unfold desc_writable, desc_stores, desc_word, desc_loadable, desc_base, desc_limit, readw.
  assert (forall i, 0 < i -> Z.testbit (m' (a + 5)) i = Z.testbit (m (a + 5)) i) as Hb.
  { intros i Hi. destruct H5 as [->| ->]; [done|]. rewrite Z.lor_spec. by destruct i; rewrite ?orb_false_r. }
  rewrite !Hb, H7, H4, H3, H2 by lia. cbn [negb orb andb]. rewrite !Hx by lia. split_and!; try done.
  by intros [_ ->]%andb_true_iff.
Qed.

(** The descriptor that the firmware fills in for its own data can be loaded. *)
Lemma gdt_data_loadable m a l b :
  desc_loadable (writeq m a (Z.lor (Z.lor GDT_DATA l) b)) a = true.
Proof.
  unfold desc_loadable.
  assert (forall v, writeq m a v (a + 5) = u8 (Z.shiftr (Z.shiftr v 32) 8)) as E.
  { intros v. unfold writeq, writel, writew, writeb. addr_decide. done. }
  rewrite E. set (v := Z.lor _ _).
  assert (forall i, 0 <= i < 8 -> Z.testbit (u8 (Z.shiftr (Z.shiftr v 32) 8)) i = Z.testbit v (i + 8 + 32)) as H.
  { intros i Hi. unfold wrap. rewrite Z.mod_pow2_bits_low, !Z.shiftr_spec by lia. done. }
  rewrite !H by lia. unfold v. rewrite !Z.lor_spec. change (Z.testbit GDT_DATA (7 + 8 + 32)) with true.
  change (Z.testbit GDT_DATA (4 + 8 + 32)) with true. change (Z.testbit GDT_DATA (1 + 8 + 32)) with true.
  cbn [orb andb]. apply orb_true_r.
Qed.

Lemma load_segment_same m a : desc_loadable m a = true ->
  exists m', load_segment m a = Some m' /\ (bytes m -> bytes m') /\
    (forall x, x <> a + 5 -> m' x = m x) /\ (bytes m -> m' (a + 5) = Z.lor (m (a + 5)) 1).
Proof.
  intros E. unfold load_segment. rewrite E. eexists. split; [done|]. split_and!.
  - intros Hm. by apply bytes_writeb.
  - intros x Hx. unfold writeb. by rewrite (proj2 (Z.eqb_neq _ _)).
  - intros Hm. unfold writeb. rewrite Z.eqb_refl.
    apply Z.eqb_eq. apply (all_bytes (fun v => u8 (Z.lor v 1) =? Z.lor v 1)); [by vm_compute|apply Hm].
Qed.

Lemma desc_base_nonneg m a : bytes m -> 0 <= desc_base m a.
Proof.
  intros Hm. unfold desc_base. pose proof (readw_range m (a + 2) Hm) as [? _]. pose proof (Hm (a + 4)) as [? _].
  pose proof (Hm (a + 7)) as [? _]. rewrite !Z.lor_nonneg, !Z.shiftl_nonneg. done.
Qed.

Lemma a20_restored m m' v : in_u 8 v ->
  port_a20 (set_a20 (set_smem (set_a20 (mk_sys m v) true).2 m') (set_a20 (mk_sys m v) true).1).2 = v.
Proof.
  intros Hv. apply Z.eqb_eq. unfold set_a20. cbn [fst snd port_a20 smem set_smem].
  apply (all_bytes (fun v => u8 (if negb (Z.land v A20_ENABLE_BIT =? 0)
    then Z.lor (u8 (Z.lor v A20_ENABLE_BIT)) A20_ENABLE_BIT else Z.ldiff (u8 (Z.lor v A20_ENABLE_BIT)) A20_ENABLE_BIT) =? v));
    [by vm_compute|done].
Qed.


(** ** Witnesses *)

Definition demo_map : list e820entry :=
  Eval vm_compute in add_e820 (add_e820 (add_e820 [] 0 0xa0000 E820_RAM) 0x9fc00 0x400 E820_RESERVED) 0x100000 0x7f00000 E820_RAM.
Definition demo_sys : sys := mk_sys (fun _ => 0) 0.
Definition demo_caller : bregs := mk_bregs 0x1000 0x1000 0 0 0 0 0 0 0 0.

Lemma e820_enumeration_witness :
  read_map 0 0x8000000 demo_map 0 (fun _ _ _ => None) 3 demo_sys demo_caller =
  Some [mk_e820 0 0x9fc00 E820_RAM; mk_e820 0x9fc00 0x400 E820_RESERVED; mk_e820 0x100000 0x7f00000 E820_RAM].
Proof.
  apply (e820_enumeration 0 0x8000000 demo_map 0 (fun _ _ _ => None) demo_sys demo_caller); [|done|done].
  repeat constructor; vm_compute; done.
Defined.

(** Descriptors, not accessed yet, for blocks at 2 MiB and 3 MiB in a table at 1000:0000. *)
Definition demo_move : memory :=
  let desc base := Z.lor (Z.lor (Z.shiftl 0x92 40) (GDT_LIMIT 0xffff)) (GDT_BASE base) in
  writeq (writeq (fun a => a mod 256) 0x10010 (desc 0x200000)) 0x10018 (desc 0x300000).

Lemma demo_move_bytes : bytes demo_move.
Proof. do 2 apply bytes_writeq. intros a. apply Z.mod_pos_bound. lia. Qed.

