(* ===== verification/Serial.v ===== *)
(** * Serial and printer ports: [bios/seabios/src/serial.c]

    The ports are devices of the class [PortDevice].  While a service waits, other code
    runs and changes memory and devices: that is the argument [yield_]. *)

From S2P Require Import Prelude BiosUtil Bregs Ports.
Local Open Scope Z_scope.
Local Open Scope coremu_scope.

Definition PORT_LPT2 : Z := 0x0278.
Definition PORT_SERIAL4 : Z := 0x02e8.
Definition PORT_SERIAL2 : Z := 0x02f8.
Definition PORT_LPT1 : Z := 0x0378.
Definition PORT_SERIAL3 : Z := 0x03e8.
Definition PORT_SERIAL1 : Z := 0x03f8.
Definition SEROFF_DATA : Z := 0.
Definition SEROFF_DLL : Z := 0.
Definition SEROFF_IER : Z := 1.
Definition SEROFF_DLH : Z := 1.
Definition SEROFF_IIR : Z := 2.
Definition SEROFF_LCR : Z := 3.
Definition SEROFF_LSR : Z := 5.
Definition SEROFF_MSR : Z := 6.

(** ** Timers based on the clock interrupt *)

Record tick_timer_s := mk_tick_timer { last_tick : Z; remaining : Z }.

Definition initTickTimer (m : memory) (count : Z) : tick_timer_s :=
  mk_tick_timer (u16 (readl m (bda "timer_counter"))) count.

Definition checkTickTimer (m : memory) (tt : tick_timer_s) : bool * tick_timer_s :=
  let timer := u16 (readl m (bda "timer_counter")) in
  if negb (last_tick tt =? timer) then
    let tt := mk_tick_timer timer (remaining tt) in
    let tt := mk_tick_timer (u16 (last_tick tt - 1)) (remaining tt) in
    (last_tick tt =? 0, tt)
  else (false, tt).

Section Serial.
Context {D : Type} `{PortDevice D} (yield_ : memory * D -> memory * D) (fuel : nat).

Notation M A := (P (memory * D) A).
Definition in_ (port : Z) : M Z := on_port (fun _ => inb (u16 port)).
Definition out_ (v port : Z) : M unit := on_port (fun _ => outb v (u16 port)).

(** ** COM ports *)

Definition detect_serial (port timeout count : Z) : M Z :=
  out_ 0x02 (port + SEROFF_IER);;
  ier ← in_ (port + SEROFF_IER);
  if negb (ier =? 0x02) then mret 0
  else
    iir ← in_ (port + SEROFF_IIR);
    if negb (Z.land iir 0x3f =? 0x02) then mret 0
    else
      out_ 0x00 (port + SEROFF_IER);;
      modify (fun m => writew m (bda "port_com" + 2 * count) port);;
      modify (fun m => writeb m (bda "com_timeout" + count) timeout);;
      mret 1.

Definition serial_setup : M unit :=
  let count := 0 in
  n ← detect_serial PORT_SERIAL1 0x0a count;
  let count := count + n in
  n ← detect_serial PORT_SERIAL2 0x0a count;
  let count := count + n in
  n ← detect_serial PORT_SERIAL3 0x0a count;
  let count := count + n in
  n ← detect_serial PORT_SERIAL4 0x0a count;
  let count := count + n in
  modify (fun m => let eqb := readw m (bda "equipment_list_flags") in
    writew m (bda "equipment_list_flags") (Z.lor (Z.land eqb 0xf1ff) (Z.shiftl count 9))).

(** The address of the port, 0 with the error in the registers. *)
Definition getComAddr (regs : bregs) : M (Z * bregs) :=
  if 4 <=? dx regs then mret (0, set_invalid regs)
  else
    addr ← gets (fun m => readw m (bda "port_com" + 2 * dx regs));
    mret (addr, if addr =? 0 then set_invalid regs else regs).

Definition handle_1400 (regs : bregs) : M bregs :=
  '(addr, regs) ← getComAddr regs;
  if addr =? 0 then mret regs
  else
    lcr ← in_ (addr + SEROFF_LCR);
    out_ (Z.lor lcr 0x80) (addr + SEROFF_LCR);;
    (if Z.land (al regs) 0xE0 =? 0 then
       out_ 0x17 (addr + SEROFF_DLL);; out_ 0x04 (addr + SEROFF_DLH)
     else
       let val16 := Z.shiftr 0x600 (Z.shiftr (Z.land (al regs) 0xE0) 5) in
       out_ (Z.land val16 0xFF) (addr + SEROFF_DLL);; out_ (Z.shiftr val16 8) (addr + SEROFF_DLH));;
    out_ (Z.land (al regs) 0x1F) (addr + SEROFF_LCR);;
    lsr ← in_ (addr + SEROFF_LSR);
    let regs := set_ah regs lsr in
    msr ← in_ (addr + SEROFF_MSR);
    mret (set_success (set_al regs msr)).

(** Look at [port] until [ready], the time-out or the end of [fuel]: the value seen and
    whether it is ready. *)
Fixpoint wait_port (fuel : nat) (port : Z) (ready : Z -> bool) (tt : tick_timer_s) : M (Z * bool) :=
  match fuel with
  | O => fun _ => None
  | S fuel =>
      v ← in_ port;
      if ready v then mret (v, true)
      else
        '(expired, tt) ← gets (fun m => checkTickTimer m tt);
        if expired : bool then mret (v, false)
        else (fun s => Some (tt, yield_ s)) ≫= fun tt => wait_port fuel port ready tt
  end.

Definition handle_1401 (regs : bregs) : M bregs :=
  '(addr, regs) ← getComAddr regs;
  if addr =? 0 then mret regs
  else
    tt ← gets (fun m => initTickTimer m (readb m (bda "com_timeout" + dx regs)));
    '(lsr, ok) ← wait_port fuel (addr + SEROFF_LSR) (fun lsr => Z.land lsr 0x60 =? 0x60) tt;
    regs ← (if ok : bool then out_ (al regs) (addr + SEROFF_DATA);; mret (set_ah regs lsr)
            else mret (set_ah regs (Z.lor lsr 0x80)));
    mret (set_success regs).

Definition handle_1402 (regs : bregs) : M bregs :=
  '(addr, regs) ← getComAddr regs;
  if addr =? 0 then mret regs
  else
    tt ← gets (fun m => initTickTimer m (readb m (bda "com_timeout" + dx regs)));
    '(lsr, ok) ← wait_port fuel (addr + SEROFF_LSR) (fun lsr => negb (Z.land lsr 0x01 =? 0)) tt;
    regs ← (if ok : bool then data ← in_ (addr + SEROFF_DATA); mret (set_ah (set_al regs data) lsr)
            else mret (set_ah regs (Z.lor lsr 0x80)));
    mret (set_success regs).

Definition handle_1403 (regs : bregs) : M bregs :=
  '(addr, regs) ← getComAddr regs;
  if addr =? 0 then mret regs
  else
    lsr ← in_ (addr + SEROFF_LSR);
    let regs := set_ah regs lsr in
    msr ← in_ (addr + SEROFF_MSR);
    mret (set_success (set_al regs msr)).

Definition handle_14 (regs : bregs) : M bregs :=
  let f := ah regs in
  if f =? 0x00 then handle_1400 regs
  else if f =? 0x01 then handle_1401 regs
  else if f =? 0x02 then handle_1402 regs
  else if f =? 0x03 then handle_1403 regs
  else mret (set_unimplemented regs).

(** ** LPT ports *)

Definition detect_parport (port timeout count : Z) : M Z :=
  v ← in_ (port + 2);
  out_ (Z.land v 0xdf) (port + 2);;
  out_ 0xaa port;;
  v ← in_ port;
  if negb (v =? 0xaa) then mret 0
  else
    modify (fun m => writew m (bda "port_lpt" + 2 * count) port);;
    modify (fun m => writeb m (bda "lpt_timeout" + count) timeout);;
    mret 1.

Definition lpt_setup : M unit :=
  let count := 0 in
  n ← detect_parport PORT_LPT1 0x14 count;
  let count := count + n in
  n ← detect_parport PORT_LPT2 0x14 count;
  let count := count + n in
  modify (fun m => let eqb := readw m (bda "equipment_list_flags") in
    writew m (bda "equipment_list_flags") (Z.lor (Z.land eqb 0x3fff) (Z.shiftl count 14))).

Definition getLptAddr (regs : bregs) : M (Z * bregs) :=
  if 3 <=? dx regs then mret (0, set_invalid regs)
  else
    addr ← gets (fun m => readw m (bda "port_lpt" + 2 * dx regs));
    mret (addr, if addr =? 0 then set_invalid regs else regs).

Definition handle_1700 (regs : bregs) : M bregs :=
  '(addr, regs) ← getLptAddr regs;
  if addr =? 0 then mret regs
  else
    tt ← gets (fun m => initTickTimer m (readb m (bda "lpt_timeout" + dx regs)));
    out_ (al regs) addr;;
    val8 ← in_ (addr + 2);
    out_ (Z.lor val8 0x01) (addr + 2);;
    on_port (fun _ => delay 5);;
    out_ (Z.ldiff val8 0x01) (addr + 2);;
    '(v, ok) ← wait_port fuel (addr + 1) (fun v => Z.land v 0x40 =? 0) tt;
    mret (set_success (set_ah regs (if ok : bool then Z.lxor v 0x48 else Z.lor (Z.lxor v 0x48) 0x01))).

Definition handle_1701 (regs : bregs) : M bregs :=
  '(addr, regs) ← getLptAddr regs;
  if addr =? 0 then mret regs
  else
    val8 ← in_ (addr + 2);
    out_ (Z.ldiff val8 0x04) (addr + 2);;
    on_port (fun _ => delay 5);;
    out_ (Z.lor val8 0x04) (addr + 2);;
    v ← in_ (addr + 1);
    mret (set_success (set_ah regs (Z.lxor v 0x48))).

Definition handle_1702 (regs : bregs) : M bregs :=
  '(addr, regs) ← getLptAddr regs;
  if addr =? 0 then mret regs
  else
    v ← in_ (addr + 1);
    mret (set_success (set_ah regs (Z.lxor v 0x48))).

Definition handle_17 (regs : bregs) : M bregs :=
  let f := ah regs in
  if f =? 0x00 then handle_1700 regs
  else if f =? 0x01 then handle_1701 regs
  else if f =? 0x02 then handle_1702 regs
  else mret (set_unimplemented regs).
End Serial.

(** ** Which ports are found *)

Definition com_ports : list Z := [PORT_SERIAL1; PORT_SERIAL2; PORT_SERIAL3; PORT_SERIAL4].

Section Detect.
Context {D : Type} `{PortDevice D} (present : Z -> bool).

(** A serial chip keeps the interrupt enable register and reports an empty transmitter;
    where there is none the register does not read back. *)
Context (Hier : forall port d, port ∈ com_ports ->
  (u8 (port_inb (port + SEROFF_IER) (port_outb 0x02 (port + SEROFF_IER) d)).1 =? 0x02) = present port).
Context (Hiir : forall port d, port ∈ com_ports -> present port = true ->
  Z.land (u8 (port_inb (port + SEROFF_IIR) d).1) 0x3f = 0x02).

(** The table of ports and time-outs holds [found]; other memory is that of [m0]. *)
Definition com_table (m0 : memory) (found : list Z) (m : memory) : Prop :=
  (forall i p, found !! i = Some p ->
     readw m (bda "port_com" + 2 * Z.of_nat i) = p /\ m (bda "com_timeout" + Z.of_nat i) = 0x0a) /\
  (forall a, ~ (bda "port_com" <= a < bda "port_com" + 2 * Z.of_nat (length found)) ->
     ~ (bda "com_timeout" <= a < bda "com_timeout" + Z.of_nat (length found)) -> m a = m0 a).

Ltac com_addr :=
  change (bda "port_com") with 0x400 in *; change (bda "com_timeout") with 0x47c in *;
  change (bda "equipment_list_flags") with 0x410 in *.

Lemma com_table_add m0 found m p :
  com_table m0 found m -> (length found < 4)%nat -> in_u 16 p ->
  com_table m0 (found ++ [p])
    (writeb (writew m (bda "port_com" + 2 * Z.of_nat (length found)) p) (bda "com_timeout" + Z.of_nat (length found)) 0x0a).
Proof using.
  intros [Ht Hf] Hl Hp. com_addr. split.
  - intros i q. com_addr. intros [Hi|[Hi Hq]]%lookup_app_Some.
    + destruct (Ht i q Hi) as [H1 H2]. pose proof (lookup_lt_Some _ _ _ Hi).
      rewrite readw_writeb_ne, readw_writew_ne, writeb_other, writew_other by lia. done.
    + apply list_lookup_singleton_Some in Hq as [Hi0 <-]. replace i with (length found) by lia.
      rewrite readw_writeb_ne, readw_writew, writeb_same, wrap_small by (done || lia). done.
  - intros a. rewrite length_app. com_addr. simpl. intros H1 H2. rewrite writeb_other, writew_other by lia. apply Hf; com_addr; lia.
Qed.

Lemma detect_step m0 found port m d :
  com_table m0 found m -> (length found < 4)%nat -> port ∈ com_ports ->
  exists m' d', detect_serial port 0x0a (Z.of_nat (length found)) (m, d) = Some (if present port then 1 else 0, (m', d')) /\
    com_table m0 (found ++ if present port then [port] else []) m'.
Proof using Hier Hiir.
  intros Ht Hl Hp. assert (forall k, 0 <= k < 8 -> u16 (port + k) = port + k) as Hw.
  { intros k Hk. apply wrap_small. unfold com_ports in Hp. rewrite !elem_of_cons in Hp.
    unfold PORT_SERIAL1, PORT_SERIAL2, PORT_SERIAL3, PORT_SERIAL4, in_u in *.
    destruct Hp as [-> | [-> | [-> | [-> | []%not_elem_of_nil]]]]; lia. }
  unfold detect_serial, in_, out_. rewrite !Hw by (unfold SEROFF_IER, SEROFF_IIR; lia).
  erewrite P_bind_some by reflexivity. erewrite P_bind_some by apply on_port_inb.
  change (u8 2) with 2. rewrite (Hier port d Hp). set (d1 := (port_inb (port + SEROFF_IER) _).2).
  destruct (present port) eqn:E; cbn [negb].
  - erewrite P_bind_some by apply on_port_inb. rewrite (Hiir port d1 Hp E). cbn [negb Z.eqb Pos.eqb].
    eexists _, _. split; [done|]. apply com_table_add; [done..|].
    rewrite <- (Z.add_0_r port), <- Hw by lia. apply wrap_range. lia.
  - eexists _, _. split; [done|]. by rewrite app_nil_r.
Qed.

(** The loop that [serial_setup] is, unrolled. *)
Fixpoint detect_from (ports : list Z) (count : Z) : P (memory * D) Z :=
  match ports with
  | [] => mret count
  | port :: ports => n ← detect_serial port 0x0a count; detect_from ports (count + n)
  end.

Lemma serial_setup_loop s : serial_setup s =
  (count ← detect_from com_ports 0;
   modify (fun m => let eqb := readw m (bda "equipment_list_flags") in
     writew m (bda "equipment_list_flags") (Z.lor (Z.land eqb 0xf1ff) (Z.shiftl count 9)))) s.
Proof using.
  unfold serial_setup, com_ports. cbn [detect_from]. unfold mbind, P_bind.
  destruct (detect_serial PORT_SERIAL1 _ _ s) as [[n1 s1]|]; [|done].
  destruct (detect_serial PORT_SERIAL2 _ _ s1) as [[n2 s2]|]; [|done].
  destruct (detect_serial PORT_SERIAL3 _ _ s2) as [[n3 s3]|]; [|done].
  by destruct (detect_serial PORT_SERIAL4 _ _ s3) as [[n4 s4]|].
Qed.

Lemma detect_from_spec m0 ports found m d :
  com_table m0 found m -> (length found + length ports <= 4)%nat -> (forall p, p ∈ ports -> p ∈ com_ports) ->
  exists m' d', detect_from ports (Z.of_nat (length found)) (m, d) =
      Some (Z.of_nat (length (found ++ List.filter present ports)), (m', d')) /\
    com_table m0 (found ++ List.filter present ports) m'.
Proof using Hier Hiir.
  revert found m d. induction ports as [|p ports IH]; intros found m d Ht Hl Hp; cbn [detect_from List.filter].
  { rewrite app_nil_r. by exists m, d. }
  cbn [length] in Hl. destruct (detect_step m0 found p m d Ht ltac:(lia) ltac:(apply Hp; set_solver)) as (m1 & d1 & E1 & T1).
  unfold mbind, P_bind. rewrite E1.
  replace (Z.of_nat (length found) + (if present p then 1 else 0)) with
    (Z.of_nat (length (found ++ if present p then [p] else []))) by (rewrite length_app; destruct (present p); simpl; lia).
  destruct (IH _ m1 d1 T1) as (m2 & d2 & E2 & T2);
    [rewrite length_app; destruct (present p); simpl; lia|intros q Hq; apply Hp; set_solver|].
  exists m2, d2. rewrite E2. rewrite <- (assoc_L (++)) in *. by destruct (present p).
Qed.

(** The ports that have a chip are entered in order, each with its time-out; the
    equipment word counts them, and no other memory changes. *)
Theorem serial_setup_correct m d :
  let found := List.filter present com_ports in
  exists m' d', serial_setup (m, d) = Some (tt, (m', d')) /\
    (forall i p, found !! i = Some p ->
       readw m' (bda "port_com" + 2 * Z.of_nat i) = p /\ m' (bda "com_timeout" + Z.of_nat i) = 0x0a) /\
    readw m' (bda "equipment_list_flags") =
      u16 (Z.lor (Z.land (readw m (bda "equipment_list_flags")) 0xf1ff) (Z.shiftl (Z.of_nat (length found)) 9)) /\
    (forall a, ~ (bda "port_com" <= a < bda "port_com" + 2 * Z.of_nat (length found)) ->
       ~ (bda "com_timeout" <= a < bda "com_timeout" + Z.of_nat (length found)) ->
       ~ (bda "equipment_list_flags" <= a < bda "equipment_list_flags" + 2) -> m' a = m a).
Proof using Hier Hiir.
  intros found. rewrite serial_setup_loop.
  destruct (detect_from_spec m com_ports [] m d) as (m1 & d1 & E & Ht & Hf); [split; [by intros|done]|simpl; lia|done|].
  change ([] ++ List.filter present com_ports) with found in *. change (Z.of_nat (length [])) with 0 in E. unfold mbind, P_bind. rewrite E.
  assert (length found <= 4)%nat as Hl by (apply (List.filter_length_le present com_ports)).
  eexists _, d1. split; [done|]. com_addr. split_and!.
  - intros i p Hi. pose proof (lookup_lt_Some _ _ _ Hi). destruct (Ht i p Hi) as [H1 H2]. com_addr.
    rewrite readw_writew_ne, writew_other by lia. done.
  - rewrite readw_writew. do 3 f_equal. apply readw_ext; apply Hf; com_addr; lia.
  - intros a H1 H2 H3. rewrite writew_other by lia. apply Hf; com_addr; lia.
Qed.
End Detect.

(** ** Witnesses *)

(** Chips at 0x3f8 and 0x3e8; a port that keeps a byte is one cell. *)
#[local] Instance demo_chips : PortDevice (Z -> Z) := {
  port_inb p d := (if existsb (Z.eqb p) [0x3fa; 0x3ea] then 0x02
                   else if existsb (Z.eqb p) [0x3f9; 0x3e9] then d p else 0xff, d);
  port_outb v p d := fun q => if q =? p then v else d q;
  port_rdtscll d := (0, d);
  port_udelay n d := d;
  port_yield d := d }.

Lemma serial_setup_correct_witness :
  let found := [0x3f8; 0x3e8] in
  exists m' d', serial_setup (fun _ => 0, fun _ => 0) = Some (tt, (m', d')) /\
    (forall i p, found !! i = Some p ->
       readw m' (bda "port_com" + 2 * Z.of_nat i) = p /\ m' (bda "com_timeout" + Z.of_nat i) = 0x0a) /\
    readw m' (bda "equipment_list_flags") = 0x400 /\
    (forall a, ~ (bda "port_com" <= a < bda "port_com" + 4) -> ~ (bda "com_timeout" <= a < bda "com_timeout" + 2) ->
       ~ (bda "equipment_list_flags" <= a < bda "equipment_list_flags" + 2) -> m' a = 0).
Proof.
  apply (serial_setup_correct (fun p => (p =? 0x3f8) || (p =? 0x3e8))).
  - intros port d Hp. unfold com_ports in Hp. rewrite !elem_of_cons in Hp.
    destruct Hp as [-> | [-> | [-> | [-> | []%not_elem_of_nil]]]]; reflexivity.
  - intros port d Hp. unfold com_ports in Hp. rewrite !elem_of_cons in Hp.
    destruct Hp as [-> | [-> | [-> | [-> | []%not_elem_of_nil]]]]; done.
Defined.

(** ** Where the code does not do what it means to *)

(** [checkTickTimer] counts down the wrong field: what it answers does not depend on the
    ticks that remain, and these never change. *)
Theorem tick_timer_ignores_remaining m t r r' :
  (checkTickTimer m (mk_tick_timer t r)).1 = (checkTickTimer m (mk_tick_timer t r')).1 /\
  remaining (checkTickTimer m (mk_tick_timer t r)).2 = r.
Proof. unfold checkTickTimer. cbn [last_tick remaining]. by case_test. Qed.

(** So a port that does not take a character, with a time-out of 10 ticks, is still waited
    for after 1000 ticks. *)
#[local] Instance busy_port : PortDevice unit := {
  port_inb p d := (0, d); port_outb v p d := d; port_rdtscll d := (0, d); port_udelay n d := d; port_yield d := d }.

Theorem serial_timeout_missed :
  let tick s := let '(m, d) := s in (writel m (bda "timer_counter") (readl m (bda "timer_counter") + 1), d) in
  let m := writew (writew (writeb (fun _ => 0) (bda "com_timeout") 0x0a) (bda "port_com") 0x3f8) (bda "timer_counter") 100 in
  handle_1401 tick 1000 (mk_bregs 0 0 0 0 0 0 0 0 0x0141 0) (m, tt) = None /\
  readw m (bda "port_com") = 0x3f8 /\ readb m (bda "com_timeout") = 10.
Proof. by vm_compute. Qed.
