(* ===== verification/Paravirt.v ===== *)
(** * Configuration from the emulator: [bios/seabios/src/paravirt.c]

    The emulator offers numbered items of bytes behind two ports: one selects an item,
    the other gives its next byte, and zeros after its end.  The state is what is left of
    the item selected. *)

From S2P Require Import Prelude BiosUtil Bregs.
From stdpp Require Import sorting.
Local Open Scope Z_scope.
Local Open Scope coremu_scope.

Definition QEMU_CFG_SIGNATURE : Z := 0x00.
Definition QEMU_CFG_UUID : Z := 0x02.
Definition QEMU_CFG_NUMA : Z := 0x0d.
Definition QEMU_CFG_BOOT_MENU : Z := 0x0e.
Definition QEMU_CFG_MAX_CPUS : Z := 0x0f.
Definition QEMU_CFG_FILE_DIR : Z := 0x19.
Definition QEMU_CFG_ACPI_TABLES : Z := 0x8000.
Definition QEMU_CFG_SMBIOS_ENTRIES : Z := 0x8001.
Definition QEMU_CFG_IRQ0_OVERRIDE : Z := 0x8002.
Definition QEMU_CFG_E820_TABLE : Z := 0x8003.

(** ** Reading items *)

Record qemu_cfg := mk_qemu_cfg { cfg_items : Z -> list Z; cfg_rest : list Z }.

Definition qemu_cfg_select (c : qemu_cfg) (f : Z) : qemu_cfg := mk_qemu_cfg (cfg_items c) (cfg_items c f).
Definition qemu_cfg_read (c : qemu_cfg) (len : nat) : list Z * qemu_cfg :=
  (resize len 0 (cfg_rest c), mk_qemu_cfg (cfg_items c) (drop len (cfg_rest c))).
Definition qemu_cfg_skip (c : qemu_cfg) (len : nat) : qemu_cfg := mk_qemu_cfg (cfg_items c) (drop len (cfg_rest c)).
Definition qemu_cfg_read_entry (c : qemu_cfg) (e : Z) (len : nat) : list Z * qemu_cfg :=
  qemu_cfg_read (qemu_cfg_select c e) len.

(** An object of the processor from its bytes. *)
Definition le (l : list Z) : Z := foldr (fun b v => b + 256 * v) 0 l.

(** The bytes of a list from [i] on. *)
Definition slice (i n : nat) (l : list Z) : list Z := take n (drop i l).

(** Whether the emulator is there. *)
Fixpoint probe_loop (sig : list Z) (c : qemu_cfg) : bool * qemu_cfg :=
  match sig with
  | [] => (true, c)
  | x :: sig =>
      let '(b, c) := qemu_cfg_read c 1 in
      if negb (le b =? x) then (false, c) else probe_loop sig c
  end.
Definition qemu_cfg_port_probe (c : qemu_cfg) : bool * qemu_cfg :=
  probe_loop [0x51; 0x45; 0x4d; 0x55] (qemu_cfg_select c QEMU_CFG_SIGNATURE).

Section Present.
Context (qemu_cfg_present : bool).

(** A number, or the default without the emulator. *)
Definition read_number (c : qemu_cfg) (e : Z) (len : nat) (default : Z) : Z * qemu_cfg :=
  if negb qemu_cfg_present then (default, c)
  else let '(b, c) := qemu_cfg_read_entry c e len in (le b, c).

Definition qemu_cfg_get_uuid (c : qemu_cfg) (uuid : list Z) : list Z * qemu_cfg :=
  if negb qemu_cfg_present then (uuid, c) else qemu_cfg_read_entry c QEMU_CFG_UUID 16.
Definition qemu_cfg_show_boot_menu (c : qemu_cfg) : Z * qemu_cfg := read_number c QEMU_CFG_BOOT_MENU 2 1.
Definition qemu_cfg_irq0_override (c : qemu_cfg) : Z * qemu_cfg := read_number c QEMU_CFG_IRQ0_OVERRIDE 1 0.
Definition qemu_cfg_acpi_additional_tables (c : qemu_cfg) : Z * qemu_cfg := read_number c QEMU_CFG_ACPI_TABLES 2 0.
Definition qemu_cfg_next_acpi_table_len (c : qemu_cfg) : Z * qemu_cfg :=
  let '(b, c) := qemu_cfg_read c 2 in (le b, c).
Definition qemu_cfg_next_acpi_table_load (c : qemu_cfg) (len : Z) : list Z * qemu_cfg := qemu_cfg_read c (Z.to_nat len).
Definition qemu_cfg_smbios_entries (c : qemu_cfg) : Z * qemu_cfg := read_number c QEMU_CFG_SMBIOS_ENTRIES 2 0.
Definition qemu_cfg_e820_entries (c : qemu_cfg) : Z * qemu_cfg := read_number c QEMU_CFG_E820_TABLE 4 0.
Definition qemu_cfg_e820_load_next (c : qemu_cfg) : list Z * qemu_cfg := qemu_cfg_read c 20.
Definition qemu_cfg_get_max_cpus (c : qemu_cfg) : Z * qemu_cfg := read_number c QEMU_CFG_MAX_CPUS 2 0.
Definition qemu_cfg_get_numa_nodes (c : qemu_cfg) : Z * qemu_cfg :=
  let '(b, c) := qemu_cfg_read_entry c QEMU_CFG_NUMA 8 in (s32 (le b), c).
Fixpoint qemu_cfg_get_numa_data (c : qemu_cfg) (n : nat) : list Z * qemu_cfg :=
  match n with
  | O => ([], c)
  | S n =>
      let '(b, c) := qemu_cfg_read c 8 in
      let '(l, c) := qemu_cfg_get_numa_data c n in (le b :: l, c)
  end.

(** ** SMBIOS entries *)

Definition SMBIOS_FIELD_ENTRY : Z := 0.
Definition SMBIOS_TABLE_ENTRY : Z := 1.

(** The bytes of the field found, none if there is no such entry among the [n] left. *)
Fixpoint load_field_loop (n : nat) (c : qemu_cfg) (type offset : Z) : list Z * qemu_cfg :=
  match n with
  | O => ([], c)
  | S n =>
      let '(h, c) := qemu_cfg_read c 3 in
      let length := u16 (le (take 2 h) - 3) in
      if negb (le (drop 2 h) =? SMBIOS_FIELD_ENTRY) then
        load_field_loop n (qemu_cfg_skip c (Z.to_nat length)) type offset
      else
        let '(f, c) := qemu_cfg_read c 3 in
        let length := u16 (length - 3) in
        if negb (le (take 1 f) =? type) || negb (le (drop 1 f) =? offset) then
          load_field_loop n (qemu_cfg_skip c (Z.to_nat length)) type offset
        else qemu_cfg_read c (Z.to_nat length)
  end.

Definition qemu_cfg_smbios_load_field (c : qemu_cfg) (type offset : Z) : list Z * qemu_cfg :=
  let '(count, c) := qemu_cfg_smbios_entries c in load_field_loop (Z.to_nat count) c type offset.

(** Store bytes from [a] on. *)
Fixpoint store_bytes (m : memory) (a : Z) (l : list Z) : memory :=
  match l with [] => m | b :: l => store_bytes (writeb m a b) (a + 1) l end.

(** The tables of a type, from [n] entries on: memory, the end of what is stored, the
    number of structures and the size of the largest.  The first test of the space left
    compares with a [size_t], so without sign; the second does not. *)
Fixpoint external_loop (n : nat) (c : qemu_cfg) (m : memory) (type p nr_structs max_struct_size end_ : Z)
  : qemu_cfg * memory * Z * Z * Z :=
  match n with
  | O => (c, m, p, nr_structs, max_struct_size)
  | S n =>
      let header := p in
      let '(h, c) := qemu_cfg_read c 3 in
      let length := u16 (le (take 2 h) - 3) in
      if negb (le (drop 2 h) =? SMBIOS_TABLE_ENTRY) then
        external_loop n (qemu_cfg_skip c (Z.to_nat length)) m type p nr_structs max_struct_size end_
      else if u32 (end_ - p) <? 4 then (c, m, p, nr_structs, max_struct_size)
      else
        let '(b, c) := qemu_cfg_read c 4 in
        let m := store_bytes m p b in
        let length := u16 (length - 4) in
        if negb (m header =? type) then
          external_loop n (qemu_cfg_skip c (Z.to_nat length)) m type p nr_structs max_struct_size end_
        else
          let p := p + 4 in
          let string := m (header + 1) <? length + 4 in
          if end_ - p <? length then external_loop n c m type (p - 4) nr_structs max_struct_size end_
          else
            let '(b, c) := qemu_cfg_read c (Z.to_nat length) in
            let m := store_bytes m p b in
            let p := p + length in
            let m := writeb m p 0 in
            let p := p + 1 in
            let '(m, p) := if negb string then (writeb m p 0, p + 1) else (m, p) in
            let nr_structs := u32 (nr_structs + 1) in
            let max_struct_size := if max_struct_size <? p - header then p - header else max_struct_size in
            external_loop n c m type p nr_structs max_struct_size end_
  end.

(** What [smbios_init] has so far; [used] is [used_bitmap], a bit for each type. *)
Record smbios_state := mk_smbios_state {
  sb_cfg : qemu_cfg; sb_mem : memory; sb_used : Z; sb_p : Z; sb_nr : Z; sb_max : Z }.

Definition qemu_cfg_smbios_load_external (s : smbios_state) (type end_ : Z) : bool * smbios_state :=
  if Z.testbit (sb_used s) (Z.land type 0xff) then (true, s)
  else if type =? 127 then (false, s)
  else
    let '(count, c) := qemu_cfg_smbios_entries (sb_cfg s) in
    let '(c, m, p, nr_structs, max_struct_size) :=
      external_loop (Z.to_nat count) c (sb_mem s) type (sb_p s) (sb_nr s) (sb_max s) end_ in
    if negb (sb_p s =? p) then
      (true, mk_smbios_state c m (Z.setbit (sb_used s) (Z.land type 0xff)) p nr_structs max_struct_size)
    else (false, mk_smbios_state c m (sb_used s) p nr_structs max_struct_size).

(** ** Files *)

(** [struct QemuCfgFile]; numbers are big endian. *)
Record QemuCfgFile := mk_file { f_size : Z; f_select : Z; f_name : list Z }.
Definition SIZEOF_FILE : nat := 64.
Definition file_of (b : list Z) : QemuCfgFile := mk_file (le (slice 0 4 b)) (le (slice 4 2 b)) (slice 8 56 b).

(** The first entry behind the one given; the last one read when there is none. *)
Fixpoint next_file_loop (n : nat) (c : qemu_cfg) (last : Z) (entry : QemuCfgFile) : bool * QemuCfgFile * qemu_cfg :=
  match n with
  | O => (false, entry, c)
  | S n =>
      let '(b, c) := qemu_cfg_read c SIZEOF_FILE in
      let entry := file_of b in
      if last <? htons (f_select entry) then (true, entry, c) else next_file_loop n c last entry
  end.

Definition qemu_cfg_next_file (c : qemu_cfg) (entry : QemuCfgFile) : bool * QemuCfgFile * qemu_cfg :=
  let last := htons (f_select entry) in
  if negb qemu_cfg_present then (false, entry, c)
  else
    let '(b, c) := qemu_cfg_read_entry c QEMU_CFG_FILE_DIR 4 in
    next_file_loop (Z.to_nat (htonl (le b))) c last entry.

Definition qemu_cfg_first_file (c : qemu_cfg) : bool * QemuCfgFile * qemu_cfg :=
  qemu_cfg_next_file c (mk_file 0 0 (replicate 56 0)).

(** Memory after and the number of bytes read. *)
Definition qemu_cfg_read_file (c : qemu_cfg) (entry : QemuCfgFile) (m : memory) (dst maxlen : Z) : Z * memory * qemu_cfg :=
  let len := htonl (f_size entry) in
  if negb qemu_cfg_present then (0, m, c)
  else if maxlen <? len then (0, m, c)
  else
    let '(b, c) := qemu_cfg_read_entry c (htons (f_select entry)) (Z.to_nat len) in
    (len, store_bytes m dst b, c).
End Present.

(** ** Fields *)

(** An entry of the item, as the emulator encodes it: a 16-bit size, a type, the bytes. *)
Inductive smbios_entry :=
  | Field (type offset : Z) (data : list Z)
  | Table (type : Z) (data : list Z).

Definition le16 (v : Z) : list Z := [v mod 256; v / 256].
Definition encode (e : smbios_entry) : list Z :=
  match e with
  | Field t o d => le16 (6 + Z.of_nat (length d)) ++ [SMBIOS_FIELD_ENTRY; t] ++ le16 o ++ d
  | Table t d => le16 (3 + Z.of_nat (length d)) ++ [t] ++ d
  end.
Definition entry_ok (e : smbios_entry) : Prop :=
  match e with
  | Field t o d => 6 + Z.of_nat (length d) < 0x10000 /\ in_u 16 o
  | Table t d => 3 + Z.of_nat (length d) < 0x10000 /\ t <> SMBIOS_FIELD_ENTRY
  end.

(** The bytes of the first field with a type and an offset. *)
Fixpoint field (l : list smbios_entry) (type offset : Z) : list Z :=
  match l with
  | [] => []
  | Field t o d :: l => if (t =? type) && (o =? offset) then d else field l type offset
  | Table _ _ :: l => field l type offset
  end.

Arguments le : simpl never.
Lemma le_byte v : le [v] = v.
Proof. unfold le. cbn [foldr]. lia. Qed.
Lemma le_pair v : in_u 16 v -> le [v mod 256; v / 256] = v.
Proof. unfold in_u, le. cbn [foldr]. intros ?. pose proof (Z.div_mod v 256). lia. Qed.

Lemma resize_app (d l : list Z) : resize (length d) 0 (d ++ l) = d.
Proof. by rewrite resize_app_le, resize_all by done. Qed.

Lemma load_field_loop_spec l its rest t o : Forall entry_ok l ->
  exists c, load_field_loop (length l) (mk_qemu_cfg its (concat (map encode l) ++ rest)) t o = (field l t o, c)
    /\ cfg_items c = its.
Proof.
  intros H. revert rest. induction H as [|e l He Hl IH]; intros rest; [by eexists|].
  cbn [length map concat load_field_loop]. rewrite <- app_assoc.
  destruct e as [ty fo d|ty d]; destruct He as [Hd Ho]; cbn; rewrite ?resize_0, ?drop_0, ?le_byte, !le_pair by (unfold in_u in *; lia).
  - rewrite Z.eqb_refl. cbn [negb]. rewrite (wrap_sub_l 16), (wrap_small 16) by (unfold in_u; lia).
    replace (6 + Z.of_nat (length d) - 3 - 3) with (Z.of_nat (length d)) by lia. rewrite Nat2Z.id.
    destruct (ty =? t); [destruct (fo =? o)|]; cbn; unfold qemu_cfg_skip; cbn; rewrite ?drop_app_length; try apply IH.
    unfold qemu_cfg_read. cbn. rewrite resize_app. by eexists.
  - rewrite (wrap_small 16) by (unfold in_u; lia).
    replace (3 + Z.of_nat (length d) - 3) with (Z.of_nat (length d)) by lia. rewrite Nat2Z.id.
    destruct (Z.eqb_spec ty SMBIOS_FIELD_ENTRY); [done|]. unfold qemu_cfg_skip. cbn. rewrite drop_app_length. apply IH.
Qed.

(** A field the emulator gives is found, among other entries and whatever follows them:
    what is loaded are the bytes of the first entry with this type and offset, and
    nothing when there is none. *)
Theorem smbios_field_found (c : qemu_cfg) l rest t o : Forall entry_ok l -> Z.of_nat (length l) < 0x10000 ->
  cfg_items c QEMU_CFG_SMBIOS_ENTRIES = le16 (Z.of_nat (length l)) ++ concat (map encode l) ++ rest ->
  exists c', qemu_cfg_smbios_load_field true c t o = (field l t o, c') /\ cfg_items c' = cfg_items c.
Proof.
  intros Hl Hn Hc. destruct (load_field_loop_spec l (cfg_items c) rest t o Hl) as (c' & Hr & Hi).
  exists c'. split; [|done]. unfold qemu_cfg_smbios_load_field, qemu_cfg_smbios_entries, read_number, qemu_cfg_read_entry,
    qemu_cfg_select, qemu_cfg_read. cbn [negb cfg_rest cfg_items]. rewrite Hc.
  cbn. rewrite resize_0, drop_0, le_pair by (unfold in_u; lia). by rewrite Nat2Z.id.
Qed.

(** ** Only fields *)

(** The emulator gives the fields [l] and no tables, or is not there. *)
Definition only_fields (present : bool) (its : Z -> list Z) (l : list smbios_entry) : Prop :=
  Forall entry_ok l /\ Forall (fun e => exists t o d, e = Field t o d) l /\
  if present then Z.of_nat (length l) < 0x10000 /\
    exists rest, its QEMU_CFG_SMBIOS_ENTRIES = le16 (Z.of_nat (length l)) ++ concat (map encode l) ++ rest
  else l = [].

Lemma only_fields_entries present its l c : only_fields present its l -> cfg_items c = its ->
  exists rest, qemu_cfg_smbios_entries present c =
    (Z.of_nat (length l), mk_qemu_cfg its (if present then concat (map encode l) ++ rest else cfg_rest c)).
Proof.
  intros (_ & _ & H) <-. unfold qemu_cfg_smbios_entries, read_number, qemu_cfg_read_entry, qemu_cfg_select, qemu_cfg_read.
  destruct present; cbn [negb].
  - destruct H as (Hn & rest & Hc). exists rest. cbn [cfg_rest cfg_items]. rewrite Hc.
    cbn. by rewrite resize_0, drop_0, le_pair by (unfold in_u; lia).
  - subst l. exists []. by destruct c.
Qed.

Lemma only_fields_load present its l c t o : only_fields present its l -> cfg_items c = its ->
  exists c', qemu_cfg_smbios_load_field present c t o = (field l t o, c') /\ cfg_items c' = its.
Proof.
  intros Hl Hc. destruct (only_fields_entries _ _ _ _ Hl Hc) as (rest & Hn). unfold qemu_cfg_smbios_load_field.
  rewrite Hn, Nat2Z.id. destruct Hl as (Hok & _ & H). destruct present; [by apply load_field_loop_spec|].
  subst l. by eexists.
Qed.

Lemma external_loop_fields l its rest m type p nr mx end_ :
  Forall entry_ok l -> Forall (fun e => exists t o d, e = Field t o d) l ->
  exists c, external_loop (length l) (mk_qemu_cfg its (concat (map encode l) ++ rest)) m type p nr mx end_ = (c, m, p, nr, mx)
    /\ cfg_items c = its.
Proof.
  intros H1 H2. induction H1 as [|e l He Hl IH]; [by eexists|]. inversion H2 as [|? ? (t & o & d & ->) H2']; subst.
  destruct He as [Hd _]. cbn [length map concat external_loop]. rewrite <- app_assoc. cbn.
  rewrite ?resize_0, ?drop_0, ?le_byte, !le_pair, (wrap_small 16) by (unfold in_u in *; lia).
  change (SMBIOS_FIELD_ENTRY =? SMBIOS_TABLE_ENTRY) with false. cbn [negb].
  replace (Z.to_nat (6 + Z.of_nat (length d) - 3)) with (S (S (S (length d)))) by lia.
  unfold qemu_cfg_skip. cbn. rewrite drop_app_length. by apply IH.
Qed.

(** No table is loaded then. *)
Lemma only_fields_external present its l s type end_ : only_fields present its l -> cfg_items (sb_cfg s) = its ->
  Z.testbit (sb_used s) (Z.land type 0xff) = false -> exists c, cfg_items c = its /\
  qemu_cfg_smbios_load_external present s type end_ =
    (false, mk_smbios_state c (sb_mem s) (sb_used s) (sb_p s) (sb_nr s) (sb_max s)).
Proof.
  intros Hl Hc Hu. unfold qemu_cfg_smbios_load_external. rewrite Hu.
  destruct (type =? 127); [exists (sb_cfg s); by destruct s|].
  destruct (only_fields_entries _ _ _ _ Hl Hc) as (rest & Hn). rewrite Hn, Nat2Z.id.
  assert (exists c, external_loop (length l) (mk_qemu_cfg its (if present then concat (map encode l) ++ rest
    else cfg_rest (sb_cfg s))) (sb_mem s) type (sb_p s) (sb_nr s) (sb_max s) end_ =
    (c, sb_mem s, sb_p s, sb_nr s, sb_max s) /\ cfg_items c = its) as (c & -> & Hi).
  { destruct Hl as (? & ? & H). destruct present; [by apply external_loop_fields|]. subst l. by eexists. }
  exists c. by rewrite Z.eqb_refl.
Qed.

(** ** Files *)

Definition be16 (v : Z) : list Z := [v / 256; v mod 256].
Definition be32 (v : Z) : list Z := be16 (v / 0x10000) ++ be16 (v mod 0x10000).

(** A file as the emulator lists it: size, number of its item and name. *)
Record listed := mk_listed { l_size : Z; l_select : Z; l_name : list Z }.
Definition encode_file (f : listed) : list Z := be32 (l_size f) ++ be16 (l_select f) ++ [0; 0] ++ l_name f.
Definition listed_ok (f : listed) : Prop := in_u 32 (l_size f) /\ in_u 16 (l_select f) /\ length (l_name f) = 56%nat.

(** All files, by asking for the next one again and again. *)
Fixpoint all_files (fuel : nat) (c : qemu_cfg) (entry : QemuCfgFile) : list QemuCfgFile :=
  match fuel with
  | O => []
  | S fuel =>
      let '(found, entry, c) := qemu_cfg_next_file true c entry in
      if found then entry :: all_files fuel c entry else []
  end.

Lemma htons_be16 v : in_u 16 v -> htons (le (be16 v)) = v.
Proof.
  unfold in_u, htons, be16, le. cbn [foldr]. intros ?. pose proof (Z.div_mod v 256 ltac:(lia)).
  pose proof (Z.mod_pos_bound v 256 ltac:(lia)). assert (0 <= v / 256 < 256) by (split; [apply Z.div_pos|apply Z.div_lt_upper_bound]; lia).
  set (q := v / 256) in *. set (r := v mod 256) in *.
  replace (q + 256 * (r + 256 * 0)) with (q + r * 256) by lia.
  rewrite Z.lor_comm, Z.shiftr_div_pow2 by lia. change (2 ^ 8) with 256. rewrite Z.div_add, Z.div_small by lia.
  rewrite lor_shiftl by lia. change (2 ^ 8) with 256. unfold wrap. change (2 ^ 16) with (256 * 256).
  replace (0 + r + (q + r * 256) * 256) with (q * 256 + r + r * (256 * 256)) by lia.
  rewrite Z.mod_add, Z.mod_small by lia. lia.
Qed.

Lemma land_byte x k : 0 <= k -> Z.land x (Z.shiftl 255 k) = Z.shiftl (Z.shiftr x k mod 256) k.
Proof.
  intros Hk. change 256 with (2 ^ 8). rewrite <- Z.land_ones by lia. change (Z.ones 8) with 255.
  apply Z.bits_inj'. intros n Hn. rewrite Z.land_spec, !Z.shiftl_spec, Z.land_spec by lia.
  destruct (Z.le_gt_cases k n); [|rewrite !(Z.testbit_neg_r _ (n - k)) by lia; by rewrite andb_false_r].
  rewrite Z.shiftr_spec by lia. by replace (n - k + k) with n by lia.
Qed.

Lemma htonl_bytes a b c d : in_u 8 a -> in_u 8 b -> in_u 8 c -> in_u 8 d ->
  htonl (le [a; b; c; d]) = a * 2 ^ 24 + b * 2 ^ 16 + c * 2 ^ 8 + d.
Proof.
  unfold in_u, htonl, le. cbn [foldr]. intros.
  replace (a + 256 * (b + 256 * (c + 256 * (d + 256 * 0)))) with (a + b * 2 ^ 8 + c * 2 ^ 16 + d * 2 ^ 24) by lia.
  set (x := a + _ + _ + _).
  change 0xff00 with (Z.shiftl 255 8). change 0xff0000 with (Z.shiftl 255 16). rewrite !land_byte by lia.
  rewrite Z.shiftl_shiftl, (Z.shiftr_shiftl_l (Z.shiftr x 16 mod 256)) by lia. cbn -[Z.lor Z.shiftl Z.shiftr Z.pow Z.modulo x].
  rewrite !Z.shiftr_div_pow2 by lia.
  replace (x / 2 ^ 24) with d by (subst x; Z.to_euclidean_division_equations; lia).
  replace (x / 2 ^ 16 mod 256) with c by (subst x; Z.to_euclidean_division_equations; lia).
  replace (x / 2 ^ 8 mod 256) with b by (subst x; Z.to_euclidean_division_equations; lia).
  rewrite Z.lor_comm, (Z.lor_comm _ (Z.shiftl c _)), (Z.lor_comm (Z.shiftl x _)), !Z.lor_assoc.
  rewrite (lor_shiftl d c), (lor_shiftl _ b), lor_shiftl by lia. unfold wrap. subst x.
  replace (d + c * 2 ^ (16 - 8) + b * 2 ^ (8 + 8) + (a + b * 2 ^ 8 + c * 2 ^ 16 + d * 2 ^ 24) * 2 ^ 24)
    with (a * 2 ^ 24 + b * 2 ^ 16 + c * 2 ^ 8 + d + (b + c * 2 ^ 8 + d * 2 ^ 16) * 2 ^ 32) by lia.
  rewrite Z.mod_add, Z.mod_small by lia. done.
Qed.

Lemma htonl_be32 v : in_u 32 v -> htonl (le (be32 v)) = v.
Proof.
  unfold in_u, be32, be16. intros ?. cbn [app]. rewrite htonl_bytes by (unfold in_u; Z.to_euclidean_division_equations; lia).
  Z.to_euclidean_division_equations; lia.
Qed.

Definition view (e : QemuCfgFile) : listed := mk_listed (htonl (f_size e)) (htons (f_select e)) (f_name e).

Lemma encode_file_length f : listed_ok f -> length (encode_file f) = SIZEOF_FILE.
Proof. intros (_ & _ & Hn). unfold encode_file, be32, be16. cbn. by rewrite Hn. Qed.

Lemma view_encoded f : listed_ok f -> view (file_of (encode_file f)) = f.
Proof.
  intros (Hs & Ht & Hn). destruct f as [sz sel nm]. unfold view, file_of, encode_file, slice. cbn in Hs, Ht, Hn.
  cbn [l_size l_select l_name f_size f_select f_name]. f_equal; [by apply htonl_be32|by apply htons_be16|].
  change (drop 8 _) with (drop 0 nm). rewrite drop_0. by apply take_ge; rewrite Hn.
Qed.

Lemma select_encoded f : listed_ok f -> htons (f_select (file_of (encode_file f))) = l_select f.
Proof. intros H. exact (f_equal l_select (view_encoded f H)). Qed.

Lemma read_file_entry its f rest : listed_ok f ->
  qemu_cfg_read (mk_qemu_cfg its (encode_file f ++ rest)) SIZEOF_FILE = (encode_file f, mk_qemu_cfg its rest).
Proof.
  intros H. unfold qemu_cfg_read. cbn [cfg_rest cfg_items]. rewrite <- (encode_file_length f H).
  by rewrite resize_app, drop_app_length.
Qed.

(** The loop stops at the first entry whose item is behind [last]. *)
Lemma next_file_loop_spec l its rest last entry : Forall listed_ok l ->
  let '(found, e, c) := next_file_loop (length l) (mk_qemu_cfg its (concat (map encode_file l) ++ rest)) last entry in
  cfg_items c = its /\
  match list_find (fun f => last < l_select f) l with
  | Some (_, f) => found = true /\ e = file_of (encode_file f)
  | None => found = false
  end.
Proof.
  intros H. revert entry. induction H as [|f l Hf Hl IH]; intros entry; [done|].
  cbn [length map concat next_file_loop]. rewrite <- app_assoc, read_file_entry by done.
  rewrite select_encoded by done. cbn [list_find]. destruct (Z.ltb_spec last (l_select f)).
  - rewrite decide_True by lia. done.
  - rewrite decide_False by lia. specialize (IH (file_of (encode_file f))).
    destruct (next_file_loop _ _ _ _) as [[found e] c]. destruct IH as [? IH]. split; [done|].
    destruct (list_find _ l) as [[i f']|]; done.
Qed.

Section Directory.
Context (its : Z -> list Z) (l : list listed) (rest : list Z).
Context (Hok : Forall listed_ok l) (Hlen : Z.of_nat (length l) < 2 ^ 32).
Context (Hdir : its QEMU_CFG_FILE_DIR = be32 (Z.of_nat (length l)) ++ concat (map encode_file l) ++ rest).

Lemma next_file_spec left entry :
  let '(found, e, c) := qemu_cfg_next_file true (mk_qemu_cfg its left) entry in
  cfg_items c = its /\
  match list_find (fun f => htons (f_select entry) < l_select f) l with
  | Some (_, f) => found = true /\ e = file_of (encode_file f)
  | None => found = false
  end.
Proof.
  unfold qemu_cfg_next_file, qemu_cfg_read_entry, qemu_cfg_select, qemu_cfg_read. cbn [negb cfg_items cfg_rest].
  rewrite Hdir. change (resize 4 0 _) with (be32 (Z.of_nat (length l)) ++ resize 0 0 (concat (map encode_file l) ++ rest)).
  rewrite resize_0, app_nil_r, htonl_be32, Nat2Z.id by (unfold in_u; lia).
  change (drop 4 _) with (drop 0 (concat (map encode_file l) ++ rest)). rewrite drop_0.
  by apply next_file_loop_spec.
Qed.

Context (Hinc : StronglySorted (fun f g => l_select f < l_select g) l).

Lemma all_files_from l1 l2 left entry : l = l1 ++ l2 -> Forall (fun f => l_select f <= htons (f_select entry)) l1 ->
  Forall (fun f => htons (f_select entry) < l_select f) l2 ->
  map view (all_files (S (length l2)) (mk_qemu_cfg its left) entry) = l2.
Proof.
  revert l1 left entry. induction l2 as [|f l2 IH]; intros l1 left entry Hl H1 H2.
  - cbn [length all_files]. pose proof (next_file_spec left entry) as Hn.
    destruct (qemu_cfg_next_file _ _ _) as [[found e] c]. destruct Hn as [_ Hn].
    replace (list_find _ l) with (@None (nat * listed)) in Hn; [by subst|].
    symmetry. apply list_find_None. rewrite Hl, app_nil_r. eapply Forall_impl; [exact H1|]. cbn. lia.
  - cbn [length all_files]. pose proof (next_file_spec left entry) as Hn.
    destruct (qemu_cfg_next_file _ _ _) as [[found e] [its' left']]. destruct Hn as [Hi Hn]. cbn in Hi. subst its'.
    replace (list_find _ l) with (Some (length l1, f)) in Hn.
    2:{ symmetry. apply list_find_Some. subst l. rewrite list_lookup_middle by done. split_and!; [done|by inversion H2|].
        intros j y Hj Hlt. rewrite lookup_app_l in Hj by done. eapply Forall_lookup_1 in H1; [|done]. cbn in H1. lia. }
    destruct Hn as [-> ->].
    assert (Hf : listed_ok f) by (subst l; apply Forall_app in Hok as [_ Hok2]; by inversion Hok2).
    cbn [map]. rewrite view_encoded by done. f_equal.
    rewrite Hl in Hinc. apply StronglySorted_app in Hinc as (Hx & _ & Hs). apply StronglySorted_inv in Hs as [_ Hs].
    apply (IH (l1 ++ [f])); [by rewrite <- app_assoc| |]; rewrite select_encoded by done; [|done].
    apply Forall_app. split; [|by constructor]. apply Forall_forall. intros g Hg. apply Z.lt_le_incl, Hx; set_solver.
Qed.

(** The files of the directory are enumerated: when the emulator lists them by rising
    item number, asking for the first and then for the next finds each of them, in the
    order of the directory, and then ends. *)
Theorem files_enumerated left : Forall (fun f => 0 < l_select f) l ->
  map view (all_files (S (length l)) (mk_qemu_cfg its left) (mk_file 0 0 (replicate 56 0))) = l.
Proof. intros H. by apply (all_files_from []). Qed.

(** A file of the directory is read whole when it fits the space given, and is otherwise
    left alone. *)
Theorem file_contents left f m dst maxlen : In f l -> Z.of_nat (length (its (l_select f))) = l_size f ->
  exists c, qemu_cfg_read_file true (mk_qemu_cfg its left) (file_of (encode_file f)) m dst maxlen
  = if l_size f <=? maxlen then (l_size f, store_bytes m dst (its (l_select f)), c) else (0, m, c).
Proof.
  intros Hin Hsz. eapply Forall_forall in Hok; [|by apply list_elem_of_In]. unfold qemu_cfg_read_file.
  rewrite select_encoded by done. rewrite (f_equal l_size (view_encoded f Hok) : htonl (f_size (file_of (encode_file f))) = _).
  cbn [negb]. destruct (Z.ltb_spec maxlen (l_size f)), (Z.leb_spec (l_size f) maxlen); try lia; [by eexists|].
  unfold qemu_cfg_read_entry, qemu_cfg_select, qemu_cfg_read. cbn [cfg_items cfg_rest].
  rewrite resize_all_alt by lia. by eexists.
Qed.
End Directory.

(** ** Where loading tables goes wrong *)

Definition with_entries (l : list smbios_entry) : qemu_cfg :=
  mk_qemu_cfg (fun e => if e =? QEMU_CFG_SMBIOS_ENTRIES then le16 (Z.of_nat (length l)) ++ concat (map encode l) else []) [].
Definition load_tables (l : list smbios_entry) (type end_ : Z) : smbios_state :=
  (qemu_cfg_smbios_load_external true (mk_smbios_state (with_entries l) (fun _ => 0xee) 0 0x1000 0 0) type end_).2.

(** A table that does not fit is left out without skipping its bytes, so the next entry is
    read from the middle of it: the second table would fit, and is lost. *)
Theorem table_after_large_lost : let small := Table 1 [11; 5; 0; 0; 7] in let large := Table 1 (11 :: 5 :: replicate 60 0) in
  sb_nr (load_tables [small] 11 0x1020) = 1 /\ sb_nr (load_tables [large; small] 11 0x1020) = 0.
Proof. split; vm_compute; reflexivity. Qed.

(** The terminators are not counted in the space left, and the space left is compared
    without sign: two tables that fill the buffer up to [end_] make the code write the
    header of the second behind it, also behind the four bytes kept for the last
    structure. *)
Theorem table_overflows_buffer : let full := Table 1 ([11; 8; 0; 0] ++ replicate 4 0) in
  let end_ := 0x1008 in let m := sb_mem (load_tables [full; full] 11 end_) in
  m (end_ + 5) = 0 /\ m (end_ + 6) = 0xee.
Proof. split; vm_compute; reflexivity. Qed.

(** ** Witness *)

Definition demo_listed : list listed := [mk_listed 3 0x20 (replicate 56 0x61); mk_listed 70000 0x21 (replicate 56 0x62)].
Definition demo_items (e : Z) : list Z :=
  if e =? QEMU_CFG_FILE_DIR then be32 2 ++ concat (map encode_file demo_listed) ++ [] else [].

Lemma files_enumerated_witness :
  map view (all_files 3 (mk_qemu_cfg demo_items []) (mk_file 0 0 (replicate 56 0))) = demo_listed.
Proof.
  apply (files_enumerated demo_items demo_listed []).
  - repeat (apply Forall_cons_2; [split_and!; [unfold in_u; cbn; lia..|done]|]). apply Forall_nil_2.
  - cbn. lia.
  - reflexivity.
  - repeat constructor; cbn; lia.
  - repeat constructor; cbn; lia.
Defined.
