(* ===== verification/Tables.v ===== *)
(** * Tables in memory

    What the files that build tables for the operating system share: sizes of packed
    structures, byte strings in memory, and tactics for chains of stores at fixed
    offsets. *)

From S2P Require Import Prelude BiosUtil Bregs Output Paravirt.
Local Open Scope Z_scope.
Local Open Scope coremu_scope.

Definition sizeof (l : Bregs.layout) : Z := foldr (fun f n => f.2 + n) 0 l.

Definition CONFIG_APPNAME : list Z := codes "QEMU".

(** ** Bytes in memory *)

Lemma store_bytes_other m a l x : x < a \/ a + Z.of_nat (length l) <= x -> store_bytes m a l x = m x.
Proof.
  revert m a. induction l as [|b l IH]; cbn [store_bytes length]; intros m a H; [done|].
  rewrite IH by lia. apply writeb_other. lia.
Qed.

Definition holds (m : memory) (a : Z) (l : list Z) : Prop := forall i v, l !! i = Some v -> m (a + Z.of_nat i) = v.

Lemma holds_store m a l : Forall (in_u 8) l -> holds (store_bytes m a l) a l.
Proof.
  intros H. revert m a. induction H as [|b l Hb _ IH]; intros m a i v Hi; [done|]. cbn [store_bytes].
  destruct i as [|i]; cbn in Hi.
  - simplify_eq. rewrite Z.add_0_r, store_bytes_other by lia. rewrite writeb_same. by apply wrap_small.
  - rewrite <- (IH (writeb m a b) (a + 1) i v Hi). f_equal. lia.
Qed.

Lemma holds_ext m m' a l : (forall x, a <= x < a + Z.of_nat (length l) -> m' x = m x) -> holds m a l -> holds m' a l.
Proof. intros Hx H i v Hi. rewrite <- (H i v Hi). apply Hx. apply lookup_lt_Some in Hi. lia. Qed.

Lemma holds_app m a l1 l2 : holds m a (l1 ++ l2) <-> holds m a l1 /\ holds m (a + Z.of_nat (length l1)) l2.
Proof.
  split.
  - intros H. split; intros i v Hi; [|rewrite <- Z.add_assoc, <- Nat2Z.inj_add]; apply H.
    + by apply lookup_app_l_Some.
    + by rewrite lookup_app_r, Nat.add_comm, Nat.add_sub by lia.
  - intros [H1 H2] i v [Hi|[Hl Hi]]%lookup_app_Some; [by apply H1|]. apply H2 in Hi. rewrite <- Hi. f_equal. lia.
Qed.

Lemma bytes_store m a l : bytes m -> bytes (store_bytes m a l).
Proof. revert m a. induction l; cbn; intros; [done|]. auto using bytes_writeb. Qed.

Lemma bytes_memset m a v n : bytes m -> bytes (memset m a v n).
Proof. revert m. induction n; cbn; intros; [done|]. auto using bytes_writeb. Qed.

Lemma memset_other m a v n x : x < a \/ a + Z.of_nat n <= x -> memset m a v n x = m x.
Proof. rewrite memset_spec. addr_cases; done || lia. Qed.

Create HintDb tables.
#[export] Hint Resolve bytes_writeb bytes_writew bytes_writel bytes_store bytes_memset : tables.

(** ** Stores at fixed offsets *)

Ltac offsets := repeat match goal with
  | |- context [offsetof ?l ?f] => let v := eval vm_compute in (offsetof l f) in change (offsetof l f) with v
  | |- context [sizeof ?l] => let v := eval vm_compute in (sizeof l) in change (sizeof l) with v
  | |- context [length CONFIG_APPNAME] => change (length CONFIG_APPNAME) with 4%nat
  end.

(** Read at an address behind a chain of stores elsewhere. *)
Ltac far := repeat first
  [ rewrite writeb_other by lia | rewrite writew_other by lia | rewrite writel_other by lia
  | rewrite store_bytes_other by (cbn; lia) | rewrite memset_other by lia ].
