(* ===== verification/Smbios.v ===== *)
(** * System management tables: [bios/seabios/src/smbios.c], [smbios.h]

    The structures that describe the machine to the operating system are built one after
    another in a temporary block, from fields and tables of the emulator or from defaults;
    then they are copied to their final place and an entry point with two checksums is
    made.  The file models all of it, on the memory manager of [Pmm], and shows that a
    reader who follows the standard finds every structure. *)

From S2P Require Import Prelude BiosUtil E820 Pmm Bregs Output Paravirt Tables.
Local Open Scope Z_scope.
Local Open Scope coremu_scope.

(** ** Layout *)

Definition smbios_structure_header : Bregs.layout := [("type", 1); ("length", 1); ("handle", 2)].

Definition smbios_entry_point : Bregs.layout :=
  [("anchor_string", 4); ("checksum", 1); ("length", 1); ("smbios_major_version", 1); ("smbios_minor_version", 1);
   ("max_structure_size", 2); ("entry_point_revision", 1); ("formatted_area", 5); ("intermediate_anchor_string", 5);
   ("intermediate_checksum", 1); ("structure_table_length", 2); ("structure_table_address", 4);
   ("number_of_structures", 2); ("smbios_bcd_revision", 1)].

Definition smbios_type_0 : Bregs.layout := smbios_structure_header ++
  [("vendor_str", 1); ("bios_version_str", 1); ("bios_starting_address_segment", 2); ("bios_release_date_str", 1);
   ("bios_rom_size", 1); ("bios_characteristics", 8); ("bios_characteristics_extension_bytes", 2);
   ("system_bios_major_release", 1); ("system_bios_minor_release", 1);
   ("embedded_controller_major_release", 1); ("embedded_controller_minor_release", 1)].

Definition smbios_type_1 : Bregs.layout := smbios_structure_header ++
  [("manufacturer_str", 1); ("product_name_str", 1); ("version_str", 1); ("serial_number_str", 1); ("uuid", 16);
   ("wake_up_type", 1); ("sku_number_str", 1); ("family_str", 1)].

(** The field [type] of the enclosure itself is written [type'] here. *)
Definition smbios_type_3 : Bregs.layout := smbios_structure_header ++
  [("manufacturer_str", 1); ("type'", 1); ("version_str", 1); ("serial_number_str", 1); ("asset_tag_number_str", 1);
   ("boot_up_state", 1); ("power_supply_state", 1); ("thermal_state", 1); ("security_status", 1); ("oem_defined", 4);
   ("height", 1); ("number_of_power_cords", 1); ("contained_element_count", 1)].

Definition smbios_type_4 : Bregs.layout := smbios_structure_header ++
  [("socket_designation_str", 1); ("processor_type", 1); ("processor_family", 1); ("processor_manufacturer_str", 1);
   ("processor_id", 8); ("processor_version_str", 1); ("voltage", 1); ("external_clock", 2); ("max_speed", 2);
   ("current_speed", 2); ("status", 1); ("processor_upgrade", 1); ("l1_cache_handle", 2); ("l2_cache_handle", 2);
   ("l3_cache_handle", 2)].

Definition smbios_type_16 : Bregs.layout := smbios_structure_header ++
  [("location", 1); ("use", 1); ("error_correction", 1); ("maximum_capacity", 4);
   ("memory_error_information_handle", 2); ("number_of_memory_devices", 2)].

Definition smbios_type_17 : Bregs.layout := smbios_structure_header ++
  [("physical_memory_array_handle", 2); ("memory_error_information_handle", 2); ("total_width", 2); ("data_width", 2);
   ("size", 2); ("form_factor", 1); ("device_set", 1); ("device_locator_str", 1); ("bank_locator_str", 1);
   ("memory_type", 1); ("type_detail", 2)].

Definition smbios_type_19 : Bregs.layout := smbios_structure_header ++
  [("starting_address", 4); ("ending_address", 4); ("memory_array_handle", 2); ("partition_width", 1)].

Definition smbios_type_20 : Bregs.layout := smbios_structure_header ++
  [("starting_address", 4); ("ending_address", 4); ("memory_device_handle", 2);
   ("memory_array_mapped_address_handle", 2); ("partition_row_position", 1); ("interleave_position", 1);
   ("interleaved_data_depth", 1)].

Definition smbios_type_32 : Bregs.layout := smbios_structure_header ++ [("reserved", 6); ("boot_status", 1)].
Definition smbios_type_127 : Bregs.layout := smbios_structure_header.

(** ** Structures *)

Definition RELEASE_DATE_STR : list Z := codes "01/01/2007".

(** The three assignments every structure begins with. *)
Definition put_header (l : Bregs.layout) (m : memory) (start type handle : Z) : memory :=
  let m := writeb m (start + offsetof l "type") type in
  let m := writeb m (start + offsetof l "length") (sizeof l) in
  writew m (start + offsetof l "handle") handle.

Section Tables.
(** What [cpuid] gives, where the format of processor names is, and the emulator. *)
Context (cpuid_signature cpuid_features : Z) (fmt_cpu : Z) (qemu_cfg_present : bool).

(** The locals [end] and [str_index], with memory and the emulator. *)
Record strings := mk_strings { st_cfg : qemu_cfg; st_mem : memory; st_end : Z; str_index : Z }.

Definition load_str_field_with_default (l : Bregs.layout) (start type : Z) (field : string) (def : list Z)
  (s : strings) : strings :=
  let '(d, c) := qemu_cfg_smbios_load_field qemu_cfg_present (st_cfg s) type (offsetof l field) in
  let m := store_bytes (st_mem s) (st_end s) d in
  let size := Z.of_nat (length d) in
  let '(m, end_) := if 0 <? size then (m, st_end s + size)
                    else (store_bytes m (st_end s) (def ++ [0]), st_end s + Z.of_nat (length def) + 1) in
  mk_strings c (writeb m (start + offsetof l field) (str_index s + 1)) end_ (str_index s + 1).

Definition load_str_field_or_skip (l : Bregs.layout) (start type : Z) (field : string) (s : strings) : strings :=
  let '(d, c) := qemu_cfg_smbios_load_field qemu_cfg_present (st_cfg s) type (offsetof l field) in
  let m := store_bytes (st_mem s) (st_end s) d in
  let size := Z.of_nat (length d) in
  if 0 <? size then
    mk_strings c (writeb m (start + offsetof l field) (str_index s + 1)) (st_end s + size) (str_index s + 1)
  else mk_strings c (writeb m (start + offsetof l field) 0) (st_end s) (str_index s).

(** A field that is no string, or [def] in its place. *)
Definition load_plain (l : Bregs.layout) (start type : Z) (field : string) (def : list Z) (s : strings) : strings :=
  let '(d, c) := qemu_cfg_smbios_load_field qemu_cfg_present (st_cfg s) type (offsetof l field) in
  let m := store_bytes (st_mem s) (start + offsetof l field) d in
  mk_strings c (if Z.of_nat (length d) =? 0 then store_bytes m (start + offsetof l field) def else m)
    (st_end s) (str_index s).

Definition on_mem (s : strings) (f : memory -> memory) : strings :=
  mk_strings (st_cfg s) (f (st_mem s)) (st_end s) (str_index s).

(** Each function gives the emulator, memory and the address behind the structure. *)
Definition smbios_init_type_0 (c : qemu_cfg) (m : memory) (start : Z) : qemu_cfg * memory * Z :=
  let l := smbios_type_0 in
  let p f := start + offsetof l f in
  let s := mk_strings c (put_header l m start 0 0) (start + sizeof l) 0 in
  let s := load_str_field_with_default l start 0 "vendor_str" CONFIG_APPNAME s in
  let s := load_str_field_with_default l start 0 "bios_version_str" CONFIG_APPNAME s in
  let s := on_mem s (fun m => writew m (p "bios_starting_address_segment") 0xe800) in
  let s := load_str_field_with_default l start 0 "bios_release_date_str" RELEASE_DATE_STR s in
  let s := on_mem s (fun m =>
    let m := writeb m (p "bios_rom_size") 0 in
    let m := memset m (p "bios_characteristics") 0 8 in
    let m := writeb m (p "bios_characteristics") 0x08 in
    let m := writeb m (p "bios_characteristics_extension_bytes") 0 in
    writeb m (p "bios_characteristics_extension_bytes" + 1) 4) in
  let s := load_plain l start 0 "system_bios_major_release" [1] s in
  let s := load_plain l start 0 "system_bios_minor_release" [0] s in
  let m := writeb (st_mem s) (p "embedded_controller_major_release") 0xff in
  let m := writeb m (p "embedded_controller_minor_release") 0xff in
  let m := writeb m (st_end s) 0 in
  (st_cfg s, m, st_end s + 1).

Definition smbios_init_type_1 (c : qemu_cfg) (m : memory) (start : Z) : qemu_cfg * memory * Z :=
  let l := smbios_type_1 in
  let p f := start + offsetof l f in
  let s := mk_strings c (put_header l m start 1 0x100) (start + sizeof l) 0 in
  let s := load_str_field_with_default l start 1 "manufacturer_str" CONFIG_APPNAME s in
  let s := load_str_field_with_default l start 1 "product_name_str" CONFIG_APPNAME s in
  let s := load_str_field_or_skip l start 1 "version_str" s in
  let s := load_str_field_or_skip l start 1 "serial_number_str" s in
  let s := load_plain l start 1 "uuid" (replicate 16 0) s in
  let s := on_mem s (fun m => writeb m (p "wake_up_type") 0x06) in
  let s := load_str_field_or_skip l start 1 "sku_number_str" s in
  let s := load_str_field_or_skip l start 1 "family_str" s in
  let m := writeb (st_mem s) (st_end s) 0 in
  let end_ := st_end s + 1 in
  let '(m, end_) := if str_index s =? 0 then (writeb m end_ 0, end_ + 1) else (m, end_) in
  (st_cfg s, m, end_).

Definition smbios_init_type_3 (m : memory) (start : Z) : memory * Z :=
  let l := smbios_type_3 in
  let p f := start + offsetof l f in
  let m := put_header l m start 3 0x300 in
  let m := writeb m (p "manufacturer_str") 1 in
  let m := writeb m (p "type'") 0x01 in
  let m := writeb m (p "version_str") 0 in
  let m := writeb m (p "serial_number_str") 0 in
  let m := writeb m (p "asset_tag_number_str") 0 in
  let m := writeb m (p "boot_up_state") 0x03 in
  let m := writeb m (p "power_supply_state") 0x03 in
  let m := writeb m (p "thermal_state") 0x03 in
  let m := writeb m (p "security_status") 0x02 in
  let m := writel m (p "oem_defined") 0 in
  let m := writeb m (p "height") 0 in
  let m := writeb m (p "number_of_power_cords") 0 in
  let m := writeb m (p "contained_element_count") 0 in
  let start := start + sizeof l in
  let m := store_bytes m start (CONFIG_APPNAME ++ [0; 0]) in
  (m, start + Z.of_nat (length CONFIG_APPNAME) + 2).

Definition smbios_init_type_4 (m : memory) (start cpu_number : Z) : option (memory * Z) :=
  let l := smbios_type_4 in
  let p f := start + offsetof l f in
  let m := put_header l m start 4 (0x400 + cpu_number) in
  let m := writeb m (p "socket_designation_str") 1 in
  let m := writeb m (p "processor_type") 0x03 in
  let m := writeb m (p "processor_family") 0x01 in
  let m := writeb m (p "processor_manufacturer_str") 2 in
  let m := writel m (p "processor_id") cpuid_signature in
  let m := writel m (p "processor_id" + 4) cpuid_features in
  let m := writeb m (p "processor_version_str") 0 in
  let m := writeb m (p "voltage") 0 in
  let m := writew m (p "external_clock") 0 in
  let m := writew m (p "max_speed") 2000 in
  let m := writew m (p "current_speed") 2000 in
  let m := writeb m (p "status") 0x41 in
  let m := writeb m (p "processor_upgrade") 0x01 in
  let m := writew m (p "l1_cache_handle") 0xffff in
  let m := writew m (p "l2_cache_handle") 0xffff in
  let m := writew m (p "l3_cache_handle") 0xffff in
  let start := start + sizeof l in
  '(m, _) ← snprintf 8 m start 6 fmt_cpu [cpu_number];
  let start := start + 6 in
  let m := store_bytes m start (CONFIG_APPNAME ++ [0; 0]) in
  Some (m, start + Z.of_nat (length CONFIG_APPNAME) + 2).

Definition smbios_init_type_16 (m : memory) (start memory_size_mb nr_mem_devs : Z) : memory * Z :=
  let l := smbios_type_16 in
  let p f := start + offsetof l f in
  let m := put_header l m start 16 0x1000 in
  let m := writeb m (p "location") 0x01 in
  let m := writeb m (p "use") 0x03 in
  let m := writeb m (p "error_correction") 0x06 in
  let m := writel m (p "maximum_capacity") (u32 (memory_size_mb * 1024)) in
  let m := writew m (p "memory_error_information_handle") 0xfffe in
  let m := writew m (p "number_of_memory_devices") nr_mem_devs in
  let start := start + sizeof l in
  (writew m start 0, start + 2).

Definition smbios_init_type_17 (m : memory) (start memory_size_mb instance : Z) : memory * Z :=
  let l := smbios_type_17 in
  let p f := start + offsetof l f in
  let m := put_header l m start 17 (0x1100 + instance) in
  let m := writew m (p "physical_memory_array_handle") 0x1000 in
  let m := writew m (p "total_width") 64 in
  let m := writew m (p "data_width") 64 in
  let m := writew m (p "size") memory_size_mb in
  let m := writeb m (p "form_factor") 0x09 in
  let m := writeb m (p "device_set") 0 in
  let m := writeb m (p "device_locator_str") 1 in
  let m := writeb m (p "bank_locator_str") 0 in
  let m := writeb m (p "memory_type") 0x07 in
  let m := writew m (p "type_detail") 0 in
  let start := start + sizeof l in
  let m := store_bytes m start (codes "DIMM 0" ++ [0]) in
  let m := writeb m (start + 5) (m (start + 5) + instance) in
  let start := start + 7 in
  (writeb m start 0, start + 1).

Definition smbios_init_type_19 (m : memory) (start memory_size_mb instance : Z) : memory * Z :=
  let l := smbios_type_19 in
  let p f := start + offsetof l f in
  let m := put_header l m start 19 (0x1300 + instance) in
  let m := writel m (p "starting_address") (Z.shiftl instance 24) in
  let m := writel m (p "ending_address") (readl m (p "starting_address") + Z.shiftl memory_size_mb 10 - 1) in
  let m := writew m (p "memory_array_handle") 0x1000 in
  let m := writeb m (p "partition_width") 1 in
  let start := start + sizeof l in
  (writew m start 0, start + 2).

Definition smbios_init_type_20 (m : memory) (start memory_size_mb instance : Z) : memory * Z :=
  let l := smbios_type_20 in
  let p f := start + offsetof l f in
  let m := put_header l m start 20 (0x1400 + instance) in
  let m := writel m (p "starting_address") (Z.shiftl instance 24) in
  let m := writel m (p "ending_address") (readl m (p "starting_address") + Z.shiftl memory_size_mb 10 - 1) in
  let m := writew m (p "memory_device_handle") (0x1100 + instance) in
  let m := writew m (p "memory_array_mapped_address_handle") (0x1300 + instance) in
  let m := writeb m (p "partition_row_position") 1 in
  let m := writeb m (p "interleave_position") 0 in
  let m := writeb m (p "interleaved_data_depth") 0 in
  let start := start + sizeof l in
  (writew m start 0, start + 2).

Definition smbios_init_type_32 (m : memory) (start : Z) : memory * Z :=
  let l := smbios_type_32 in
  let p f := start + offsetof l f in
  let m := put_header l m start 32 0x2000 in
  let m := memset m (p "reserved") 0 6 in
  let m := writeb m (p "boot_status") 0 in
  let start := start + sizeof l in
  (writew m start 0, start + 2).

Definition smbios_init_type_127 (m : memory) (start : Z) : memory * Z :=
  let l := smbios_type_127 in
  let m := put_header l m start 127 0x7f00 in
  let start := start + sizeof l in
  (writew m start 0, start + 2).

(** ** All of them *)

Definition TEMPSMBIOSSIZE : Z := 32 * 1024.

(** [add_struct]: [build] is the function of the type. *)
Definition add_struct (type : Z) (build : qemu_cfg -> memory -> Z -> option (qemu_cfg * memory * Z)) (end_ : Z)
  (s : smbios_state) : option smbios_state :=
  let '(r, s) := qemu_cfg_smbios_load_external qemu_cfg_present s type end_ in
  if r then Some s
  else
    '(c, m, q) ← build (sb_cfg s) (sb_mem s) (sb_p s);
    let size := q - sb_p s in
    Some (mk_smbios_state c m (sb_used s) q (u32 (sb_nr s + 1)) (if sb_max s <? size then size else sb_max s)).

(** A structure that is built without the emulator. *)
Definition local (f : memory -> Z -> memory * Z) (c : qemu_cfg) (m : memory) (p : Z) : option (qemu_cfg * memory * Z) :=
  let '(m, q) := f m p in Some (c, m, q).

Fixpoint add_cpus (n : nat) (cpu_num end_ : Z) (s : smbios_state) : option smbios_state :=
  match n with
  | O => Some s
  | S n =>
      s ← add_struct 4 (fun c m p => '(m, q) ← smbios_init_type_4 m p cpu_num; Some (c, m, q)) end_ s;
      add_cpus n (cpu_num + 1) end_ s
  end.

Fixpoint add_memory (n : nat) (i nr_mem_devs memsize end_ : Z) (s : smbios_state) : option smbios_state :=
  match n with
  | O => Some s
  | S n =>
      let dev_memsize := if i =? nr_mem_devs - 1 then u32 (Z.land (u64 (memsize - 1)) 0x3fff + 1) else 0x4000 in
      s ← add_struct 17 (local (fun m p => smbios_init_type_17 m p dev_memsize i)) end_ s;
      s ← add_struct 19 (local (fun m p => smbios_init_type_19 m p dev_memsize i)) end_ s;
      s ← add_struct 20 (local (fun m p => smbios_init_type_20 m p dev_memsize i)) end_ s;
      add_memory n (i + 1) nr_mem_devs memsize end_ s
  end.

(** What is left of the tables of the emulator, type by type. *)
Fixpoint add_external (n : nat) (i end_ : Z) (s : smbios_state) : smbios_state :=
  match n with
  | O => s
  | S n => add_external n (i + 1) end_ (qemu_cfg_smbios_load_external qemu_cfg_present s i end_).2
  end.

(** The memory of the machine in megabytes. *)
Definition total_memory (RamSize RamSizeOver4G : Z) : Z :=
  let memsize := if negb (RamSizeOver4G =? 0) then u64 (RamSizeOver4G + 0x100000000) else RamSize in
  memsize / (1024 * 1024).

(** Everything between the two calls that deal with memory. *)
Definition build_tables (MaxCountCPUs memsize end_ : Z) (s : smbios_state) : option smbios_state :=
  s ← add_struct 0 (fun c m p => Some (smbios_init_type_0 c m p)) end_ s;
  s ← add_struct 1 (fun c m p => Some (smbios_init_type_1 c m p)) end_ s;
  s ← add_struct 3 (local smbios_init_type_3) end_ s;
  s ← add_cpus (Z.to_nat MaxCountCPUs) 1 end_ s;
  let nr_mem_devs := s32 (Z.shiftr (memsize + 0x3fff) 14) in
  s ← add_struct 16 (local (fun m p => smbios_init_type_16 m p (u32 memsize) nr_mem_devs)) end_ s;
  s ← add_memory (Z.to_nat nr_mem_devs) 0 nr_mem_devs memsize end_ s;
  s ← add_struct 32 (local smbios_init_type_32) end_ s;
  add_struct 127 (local smbios_init_type_127) end_ (add_external 256 0 end_ s).

(** The entry point's fields and its two checksums. *)
Definition fill_entry_point (m : memory) (ep max_structure_size structure_table_length finaltable number_of_structures : Z)
  : memory :=
  let p f := ep + offsetof smbios_entry_point f in
  let m := store_bytes m (p "anchor_string") (codes "_SM_") in
  let m := writeb m (p "length") 0x1f in
  let m := writeb m (p "smbios_major_version") 2 in
  let m := writeb m (p "smbios_minor_version") 4 in
  let m := writew m (p "max_structure_size") max_structure_size in
  let m := writeb m (p "entry_point_revision") 0 in
  let m := memset m (p "formatted_area") 0 5 in
  let m := store_bytes m (p "intermediate_anchor_string") (codes "_DMI_") in
  let m := writew m (p "structure_table_length") structure_table_length in
  let m := writel m (p "structure_table_address") finaltable in
  let m := writew m (p "number_of_structures") number_of_structures in
  let m := writeb m (p "smbios_bcd_revision") 0x24 in
  let m := writeb m (p "checksum") (u8 (m (p "checksum") - checksum m ep 0x10)) in
  writeb m (p "intermediate_checksum")
    (u8 (m (p "intermediate_checksum") - checksum m (ep + 0x10) (m (p "length") - 0x10))).

Definition smbios_entry_point_init (s : pmm) (max_structure_size structure_table_length structure_table_address
  number_of_structures : Z) : pmm :=
  let '(s, ep) := malloc_fseg s (sizeof smbios_entry_point) in
  let '(s, finaltable) := malloc_high s structure_table_length in
  if (ep =? 0) || (finaltable =? 0) then free (free s ep) finaltable
  else
    let m := memcpy (pmem s) finaltable structure_table_address structure_table_length in
    set_pmem s (fill_entry_point m ep max_structure_size structure_table_length finaltable number_of_structures).

(** [used] is [used_bitmap] of the emulator's code; nothing else uses it afterwards. *)
Definition smbios_init (s : pmm) (c : qemu_cfg) (used MaxCountCPUs RamSize RamSizeOver4G : Z) : option pmm :=
  let '(s, start) := malloc_tmphigh s TEMPSMBIOSSIZE in
  if start =? 0 then Some s
  else
    let end_ := start + TEMPSMBIOSSIZE - sizeof smbios_type_127 in
    t ← build_tables MaxCountCPUs (total_memory RamSize RamSizeOver4G) end_
          (mk_smbios_state c (pmem s) used start 0 0);
    let s := smbios_entry_point_init (set_pmem s (sb_mem t)) (u16 (sb_max t)) (u16 (sb_p t - start)) start (u16 (sb_nr t)) in
    Some (free s start).
End Tables.

(** ** What a reader expects *)

(** The end of the strings of a structure: behind the first two zeros in a row. *)
Fixpoint strings_end (fuel : nat) (m : memory) (a : Z) : option Z :=
  match fuel with
  | O => None
  | S fuel => if (m a =? 0) && (m (a + 1) =? 0) then Some (a + 2) else strings_end fuel m (a + 1)
  end.

(** Types and handles of [n] structures from [a] on, and where they end. *)
Fixpoint walk (fuel n : nat) (m : memory) (a : Z) : option (list (Z * Z) * Z) :=
  match n with
  | O => Some ([], a)
  | S n =>
      b ← strings_end fuel m (a + m (a + 1));
      '(l, e) ← walk fuel n m b;
      Some ((m a, readw m (a + 2)) :: l, e)
  end.

(** The structures that the code makes itself. *)
Definition memory_structures (i : nat) : list (Z * Z) :=
  let i := Z.of_nat i in [(17, u16 (0x1100 + i)); (19, u16 (0x1300 + i)); (20, u16 (0x1400 + i))].
Definition expected (cpus devs : nat) : list (Z * Z) :=
  [(0, 0); (1, 0x100); (3, 0x300)] ++ map (fun i => (4, u16 (0x401 + Z.of_nat i))) (seq 0 cpus) ++
  [(16, 0x1000)] ++ concat (map memory_structures (seq 0 devs)) ++ [(32, 0x2000); (127, 0x7f00)].

(** ** Structures one after another *)

(** The zeros at the end of [s .. e) are the first two in a row. *)
Definition ends (m : memory) (s e : Z) : Prop :=
  s + 2 <= e /\ m (e - 2) = 0 /\ m (e - 1) = 0 /\ forall x, s <= x < e - 2 -> ~ (m x = 0 /\ m (x + 1) = 0).

Definition structure (m : memory) (a t h e : Z) : Prop :=
  m a = t /\ readw m (a + 2) = h /\ 4 <= m (a + 1) /\ ends m (a + m (a + 1)) e.

(** A sequence of structures, none of them larger than [mx]. *)
Fixpoint table (mx : Z) (m : memory) (a : Z) (l : list (Z * Z)) (e : Z) : Prop :=
  match l with
  | [] => a = e
  | (t, h) :: l => exists b, structure m a t h b /\ b - a <= mx /\ table mx m b l e
  end.

Lemma ends_ext m m' s e : (forall x, s <= x < e -> m' x = m x) -> ends m s e -> ends m' s e.
Proof.
  intros Hx (H1 & H2 & H3 & H4). split_and!; [done|rewrite Hx by lia; done..|].
  intros x Hr. rewrite !Hx by lia. auto.
Qed.

Lemma structure_ext m m' a t h e : (forall x, a <= x < e -> m' x = m x) -> structure m a t h e -> structure m' a t h e.
Proof.
  intros Hx (H1 & H2 & H3 & H4). pose proof (proj1 H4). unfold structure.
  rewrite (readw_ext m m') by (apply Hx; lia). rewrite !Hx by lia. split_and!; try done.
  eapply ends_ext; [|done]. intros. apply Hx. lia.
Qed.

Lemma structure_size m a t h e : structure m a t h e -> a + 6 <= e.
Proof. intros (_ & _ & ? & ? & _). lia. Qed.

Lemma table_size mx m a l e : table mx m a l e -> a + 6 * Z.of_nat (length l) <= e.
Proof.
  revert a. induction l as [|[t h] l IH]; cbn; intros a; [lia|]. intros (b & Hs%structure_size & _ & Ht%IH). lia.
Qed.

Lemma table_ext mx m m' a l e : (forall x, a <= x < e -> m' x = m x) -> table mx m a l e -> table mx m' a l e.
Proof.
  revert a. induction l as [|[t h] l IH]; cbn; intros a Hx; [done|]. intros (b & Hs & Hm & Ht).
  pose proof (structure_size _ _ _ _ _ Hs). pose proof (table_size _ _ _ _ _ Ht).
  exists b. split_and!; [|done|apply IH; [|done]; intros; apply Hx; lia].
  eapply structure_ext; [|done]. intros. apply Hx. lia.
Qed.

(** A table that is copied somewhere else. *)
Lemma table_move mx m m' a k l e :
  (forall x, a <= x < e -> m' (x + k) = m x) -> table mx m a l e -> table mx m' (a + k) l (e + k).
Proof.
  intros Hx Ht. assert (Ht' : table mx (fun x => m' (x + k)) a l e) by (by eapply table_ext). clear Hx Ht. revert a Ht'.
  induction l as [|[t h] l IH]; cbn [table]; intros a; [by intros ->|]. intros (b & (H1 & H2 & H3 & H4) & Hm & Ht).
  exists (b + k). split_and!; [|lia|by apply IH]. destruct H4 as (He & E2 & E1 & Hn).
  unfold structure, ends, readw in *. rewrite (Z.add_shuffle0 a 2 k), (Z.add_shuffle0 a 1 k) in *.
  replace (a + k + 2 + 1) with (a + 2 + 1 + k) by lia. split_and!; try done; try lia.
  - by replace (b + k - 2) with (b - 2 + k) by lia.
  - by replace (b + k - 1) with (b - 1 + k) by lia.
  - intros x Hx. specialize (Hn (x - k) ltac:(lia)). replace (x - k + k) with x in Hn by lia.
    by replace (x - k + 1 + k) with (x + 1) in Hn by lia.
Qed.

Lemma table_snoc mx mx' m a l b t h e : table mx m a l b -> structure m b t h e -> mx <= mx' -> e - b <= mx' ->
  table mx' m a (l ++ [(t, h)]) e.
Proof.
  intros Ht Hs Hm He. revert a Ht. induction l as [|[t' h'] l IH]; cbn; intros a.
  - intros <-. by exists e.
  - intros (c & Hc & Hcm & Ht). exists c. split_and!; [done|lia|by apply IH].
Qed.

Lemma strings_end_ends fuel m s e : ends m s e -> e - s <= Z.of_nat fuel -> strings_end fuel m s = Some e.
Proof.
  intros (H1 & H2 & H3 & H4). revert s H1 H4. induction fuel as [|fuel IH]; cbn [strings_end]; intros s H1 H4 Hf; [lia|].
  destruct (Z.eq_dec (s + 2) e) as [<-|].
  - replace (s + 2 - 2) with s in H2 by lia. replace (s + 2 - 1) with (s + 1) in H3 by lia. by rewrite H2, H3.
  - assert ((m s =? 0) && (m (s + 1) =? 0) = false) as ->.
    { pose proof (H4 s ltac:(lia)). destruct (Z.eqb_spec (m s) 0), (Z.eqb_spec (m (s + 1)) 0); naive_solver. }
    apply IH; [lia| |lia]. intros. apply H4. lia.
Qed.

Lemma walk_table fuel mx m a l e : table mx m a l e -> e - a <= Z.of_nat fuel -> walk fuel (length l) m a = Some (l, e).
Proof.
  revert a. induction l as [|[t h] l IH]; cbn [walk length table]; intros a; [by intros -> _|].
  intros (b & Hs & _ & Ht) Hf. pose proof (structure_size _ _ _ _ _ Hs). pose proof (table_size _ _ _ _ _ Ht).
  destruct Hs as (<- & <- & ? & He). rewrite (strings_end_ends _ _ _ _ He) by lia. cbn [mbind option_bind].
  by rewrite IH by (done || lia).
Qed.

(** A string as the structures hold it. *)
Definition str_ok (d : list Z) : Prop := exists s, d = s ++ [0] /\ s <> [] /\ Forall (fun b => 0 < b < 256) s.

Lemma str_ok_bytes d : str_ok d -> Forall (in_u 8) d.
Proof.
  intros (s & -> & _ & H). apply Forall_app. split; [|by repeat constructor].
  eapply Forall_impl; [exact H|]. unfold in_u. cbn. lia.
Qed.

Lemma holds_string m a s : holds m a s -> Forall (fun b => 0 < b < 256) s -> forall x, a <= x < a + Z.of_nat (length s) -> m x <> 0.
Proof.
  intros Hh Hs x Hx. destruct (lookup_lt_is_Some_2 s (Z.to_nat (x - a))) as [v Hv]; [lia|].
  specialize (Hh _ _ Hv). replace (a + Z.of_nat (Z.to_nat (x - a))) with x in Hh by lia.
  eapply Forall_lookup_1 in Hs; [|done]. cbn in Hs. lia.
Qed.

(** Strings and a zero end as they should. *)
Lemma ends_strings m a ds : ds <> [] -> Forall str_ok ds -> holds m a (concat ds ++ [0]) ->
  ends m a (a + Z.of_nat (length (concat ds)) + 1).
Proof.
  intros Hne Hok. revert a Hne. induction Hok as [|d ds (s & -> & Hs0 & Hs) Hds IH]; intros a Hne Hh; [done|].
  cbn [concat] in *. rewrite <- !app_assoc in Hh. apply holds_app in Hh as [Hh Ht].
  pose proof (Ht 0%nat 0 eq_refl) as Hz. rewrite Z.add_0_r in Hz.
  assert (0 < Z.of_nat (length s)) by (destruct s; cbn; [done|lia]).
  change ([0] ++ concat ds ++ [0]) with ([0] ++ (concat ds ++ [0])) in Ht. apply holds_app in Ht as [_ Ht]. cbn [length] in Ht.
  pose proof (holds_string _ _ _ Hh Hs) as Hnz. rewrite !length_app. cbn [length].
  destruct ds as [|d ds].
  - cbn [concat length]. specialize (Ht 0%nat 0 eq_refl). split_and!.
    + lia.
    + rewrite <- Hz. f_equal. lia.
    + rewrite <- Ht. f_equal. cbn. lia.
    + intros x Hx [E _]. apply (Hnz x); [lia|done].
  - destruct (IH _ ltac:(done) Ht) as (H1 & H2 & H3 & H4). split_and!.
    + lia.
    + rewrite <- H2. f_equal. cbn. lia.
    + rewrite <- H3. f_equal. cbn. lia.
    + intros x Hx [E1 E2]. destruct (Z_lt_dec x (a + Z.of_nat (length s))); [apply (Hnz x); [lia|done]|].
      destruct (Z.eq_dec x (a + Z.of_nat (length s))) as [->|]; [|apply (H4 x); [cbn in *; lia|done]].
      inversion Hds as [|? ? (s' & -> & Hs0' & Hs')]; subst. destruct s' as [|b s']; [done|].
      pose proof (Ht 0%nat b eq_refl) as Hb. apply Forall_cons in Hs' as [Hb0 _].
      assert (b = 0) by (rewrite <- Hb, <- E2; f_equal; cbn; lia). lia.
Qed.

(** ** Each structure *)

Lemma put_header_spec r m p t h : let l := smbios_structure_header ++ r in
  let m' := put_header l m p t h in
  m' p = u8 t /\ m' (p + 1) = u8 (sizeof l) /\ readw m' (p + 2) = u16 h /\ forall x, ~ p <= x < p + 4 -> m' x = m x.
Proof.
  unfold put_header. set (l := smbios_structure_header ++ r). change (offsetof l "type") with 0.
  change (offsetof l "length") with 1. change (offsetof l "handle") with 2. rewrite Z.add_0_r. split_and!.
  - far. by rewrite writeb_same.
  - far. by rewrite writeb_same.
  - apply readw_writew.
  - intros x Hx. by far.
Qed.

Lemma structure_intro r m m' p t h e : let l := smbios_structure_header ++ r in
  in_u 8 t -> 4 <= sizeof l < 256 -> (forall x, p <= x < p + 4 -> m' x = put_header l m p t h x) ->
  ends m' (p + sizeof l) e -> structure m' p t (u16 h) e.
Proof.
  intros l Ht Hl Hx He. destruct (put_header_spec r m p t h) as (H0 & H1 & H2 & _). fold l in H0, H1, H2.
  unfold structure. rewrite !Hx by lia. rewrite (readw_ext (put_header l m p t h)) by (apply Hx; lia).
  rewrite H0, H1, H2, (wrap_small 8 t), (wrap_small 8 (sizeof l)) by (done || (unfold in_u; lia)). split_and!; done || lia.
Qed.

Lemma ends_empty m s : m s = 0 -> m (s + 1) = 0 -> ends m s (s + 2).
Proof.
  intros. split_and!; [lia|by replace (s + 2 - 2) with s by lia|by replace (s + 2 - 1) with (s + 1) by lia|lia].
Qed.

Lemma ends_writew m s : ends (writew m s 0) s (s + 2).
Proof. unfold writew. apply ends_empty; [rewrite writeb_other by lia|]; by rewrite writeb_at by lia. Qed.

Section Builders.
Context (cpuid_signature cpuid_features : Z) (fmt_cpu : Z) (qemu_cfg_present : bool) (its : Z -> list Z).

(** What a function of a type promises: it makes the structure and touches nothing else. *)
Definition makes (build : qemu_cfg -> memory -> Z -> option (qemu_cfg * memory * Z)) (t h : Z) : Prop :=
  forall c m p, cfg_items c = its -> bytes m -> fmt_cpu + 7 <= p -> holds m fmt_cpu (codes "CPU%2x" ++ [0]) ->
  exists c' m' q, build c m p = Some (c', m', q) /\ cfg_items c' = its /\ bytes m' /\ structure m' p t h q /\
    forall x, ~ p <= x < q -> m' x = m x.

(** A structure of fixed form is made in memory alone. *)
Lemma makes_local f t h :
  (forall m p, bytes m -> let '(m', q) := f m p in bytes m' /\ structure m' p t h q /\ forall x, ~ p <= x < q -> m' x = m x) ->
  makes (local f) t h.
Proof using.
  intros H c m p Hc Hm _ _. specialize (H m p Hm). unfold local. destruct (f m p) as [m' q]. naive_solver.
Qed.

(** [r] are the fields behind the header; what is left is the end of the strings. *)
Ltac fixed r h := apply makes_local; intros m p Hm; cbv beta zeta; split; [|split];
  [ unfold put_header; eauto 40 with tables
  | apply (structure_intro r m _ p _ h);
      [done|vm_compute; split; congruence|intros x Hx; offsets; far; reflexivity|offsets]
  | unfold put_header; offsets; intros x Hx; by far ].

Lemma makes_16 mb n : makes (local (fun m p => smbios_init_type_16 m p mb n)) 16 0x1000.
Proof using. unfold smbios_init_type_16. fixed (drop 3 smbios_type_16) 0x1000. apply ends_writew. Qed.

Lemma makes_19 mb i : makes (local (fun m p => smbios_init_type_19 m p mb i)) 19 (u16 (0x1300 + i)).
Proof using. unfold smbios_init_type_19. fixed (drop 3 smbios_type_19) (0x1300 + i). apply ends_writew. Qed.

Lemma makes_20 mb i : makes (local (fun m p => smbios_init_type_20 m p mb i)) 20 (u16 (0x1400 + i)).
Proof using. unfold smbios_init_type_20. fixed (drop 3 smbios_type_20) (0x1400 + i). apply ends_writew. Qed.

Lemma makes_32 : makes (local smbios_init_type_32) 32 0x2000.
Proof using. unfold smbios_init_type_32. fixed (drop 3 smbios_type_32) 0x2000. apply ends_writew. Qed.

Lemma makes_127 : makes (local smbios_init_type_127) 127 0x7f00.
Proof using. unfold smbios_init_type_127. fixed (drop 3 smbios_type_127) 0x7f00. apply ends_writew. Qed.

Lemma str_ok_app : str_ok (CONFIG_APPNAME ++ [0]).
Proof using. exists CONFIG_APPNAME. split_and!; [done..|]. by repeat constructor. Qed.

Lemma ends_strings_at m a ds e : ds <> [] -> Forall str_ok ds -> holds m a (concat ds ++ [0]) ->
  e = a + Z.of_nat (length (concat ds)) + 1 -> ends m a e.
Proof using. intros ??? ->. by apply ends_strings. Qed.

Lemma makes_3 : makes (local smbios_init_type_3) 3 0x300.
Proof using.
  unfold smbios_init_type_3. fixed (drop 3 smbios_type_3) 0x300.
  apply (ends_strings_at _ _ [CONFIG_APPNAME ++ [0]]); [done|constructor; [apply str_ok_app|constructor]| |cbn; lia].
  apply (holds_store _ _ (CONFIG_APPNAME ++ [0; 0])). by repeat constructor.
Qed.

(** The digit of the name is no zero below 208. *)
Lemma dimm_name m s i : 0 <= i < 208 -> let m1 := store_bytes m s (codes "DIMM 0" ++ [0]) in
  holds (writeb (writeb m1 (s + 5) (m1 (s + 5) + i)) (s + 7) 0) s (codes "DIMM " ++ [48 + i; 0; 0]).
Proof using.
  intros Hi m1. assert (H : holds m1 s (codes "DIMM 0" ++ [0])) by (apply holds_store; by repeat constructor).
  rewrite (H 5%nat 48 eq_refl : m1 (s + 5) = 48). clearbody m1. intros k v Hk.
  destruct (decide (k = 5%nat)) as [->|]; [|destruct (decide (k = 7%nat)) as [->|]].
  - cbn in Hk. simplify_eq. rewrite writeb_other, writeb_at by lia. apply wrap_small. unfold in_u. lia.
  - cbn in Hk. simplify_eq. by rewrite writeb_at by lia.
  - far. apply H. do 7 (destruct k as [|k]; [done|]). by destruct k.
Qed.

Lemma makes_17 mb i : 0 <= i < 208 -> makes (local (fun m p => smbios_init_type_17 m p mb i)) 17 (u16 (0x1100 + i)).
Proof using.
  intros Hi. unfold smbios_init_type_17. fixed (drop 3 smbios_type_17) (0x1100 + i).
  apply (ends_strings_at _ _ [codes "DIMM " ++ [48 + i; 0]]); [done| | |cbn; lia].
  - constructor; [|constructor]. exists (codes "DIMM " ++ [48 + i]). split_and!; [done..|].
    apply Forall_app. split; [by repeat constructor|]. repeat constructor; lia.
  - by apply dimm_name.
Qed.

Lemma bvprintf_plain `{Sink T} fuel (action : T) s args c : sink_read action s = Some c -> c <> 0 -> c <> chr "%" ->
  bvprintf (S fuel) action s args = bvprintf fuel (putc action c) (s + 1) args.
Proof using.
  intros Hr H0 Hp. cbn [bvprintf]. rewrite Hr. cbn [mbind option_bind].
  by rewrite (proj2 (Z.eqb_neq _ _) H0), (proj2 (Z.eqb_neq _ _) Hp).
Qed.

Lemma cpu_text m str n : in_u 32 n -> fmt_cpu + 7 <= str -> holds m fmt_cpu (codes "CPU%2x" ++ [0]) ->
  bvprintf 8 (mk_trace (outside m str 6) []) fmt_cpu [n] = Some (mk_trace (outside m str 6) (codes "CPU" ++ hexdigits n 2)).
Proof using.
  intros Hn Hf Hh.
  assert (Hr : forall i v o k, (codes "CPU%2x" ++ [0]) !! i = Some v -> k = fmt_cpu + Z.of_nat i ->
    sink_read (mk_trace (outside m str 6) o) k = Some v).
  { intros i v o k Hi ->. cbn [sink_read trace_sink tr_mem]. unfold outside. pose proof (lookup_lt_Some _ _ _ Hi) as Hl.
    change (length _) with 7%nat in Hl. case_test; [lia|]. f_equal. by apply Hh. }
  assert (Hp : forall o c, putc (mk_trace (outside m str 6) o) c = mk_trace (outside m str 6) (o ++ [u8 c])) by done.
  rewrite (bvprintf_plain _ _ _ _ 67), Hp by (done || (apply (Hr 0%nat); [done|lia])).
  rewrite (bvprintf_plain _ _ _ _ 80), Hp by (done || (apply (Hr 1%nat); [done|lia])).
  rewrite (bvprintf_plain _ _ _ _ 85), Hp by (done || (apply (Hr 2%nat); [done|lia])).
  rewrite (bvprintf_conversion _ _ _ _ (chr "x") (fmt_cpu + 5) 2); [|(apply (Hr 3%nat); [done|lia])| |done].
  2:{ replace (fmt_cpu + 5) with (fmt_cpu + 1 + 1 + 1 + 1 + 1) by lia. apply field_digits_one; [lia| | |done].
      - (apply (Hr 4%nat); [done|lia]).
      - (apply (Hr 5%nat); [done|lia]). }
  rewrite convert_x, puthex_spec by (done || lia). cbn [mbind option_bind].
  change (Z.to_nat (if 2 =? 0 then _ else 2)) with 2%nat. cbn [hexdigits foldl]. rewrite !Hp. cbn [app bvprintf].
  rewrite (Hr 6%nat 0) by (done || lia). cbn [mbind option_bind]. cbn [Z.eqb].
  do 2 f_equal. unfold hexchar. by rewrite !wrap_idem.
Qed.

Lemma cpu_name m s n : in_u 32 n -> bytes m -> fmt_cpu + 7 <= s -> holds m fmt_cpu (codes "CPU%2x" ++ [0]) ->
  exists m', snprintf 8 m s 6 fmt_cpu [n] = Some (m', 5) /\ holds m' s (codes "CPU" ++ hexdigits n 2 ++ [0]) /\
    bytes m' /\ forall x, ~ s <= x < s + 6 -> m' x = m x.
Proof using.
  intros Hn Hm Hf Hh. pose proof (snprintf_text 8 m s 6 fmt_cpu [n] _ ltac:(lia) (cpu_text m s n Hn Hf Hh)) as Ht.
  cbn [tr_out] in Ht. set (l := codes "CPU" ++ hexdigits n 2) in *. assert (Hl : length l = 5%nat) by done.
  rewrite Hl in Ht. change (Z.min (Z.of_nat 5) (6 - 1)) with 5 in Ht. destruct Ht as (m' & Hr & Hm').
  assert (Hb : Forall (in_u 8) l).
  { apply Forall_app. split; [by repeat constructor|].
    eapply Forall_impl; [apply hexdigits_ok; apply Hn|]. by intros c (_ & ? & _). }
  exists m'. split_and!; [done| | |].
  - change (codes "CPU" ++ hexdigits n 2 ++ [0]) with (l ++ [0]). apply holds_app. split.
    + intros i v Hi. pose proof (lookup_lt_Some _ _ _ Hi). rewrite Hm'. unfold stored. addr_cases; try lia.
      replace (Z.to_nat (s + Z.of_nat i - s)) with i by lia. by rewrite Hi.
    + rewrite Hl. intros [|i] v Hi; [|done]. cbn in Hi. simplify_eq. rewrite Hm'. case_test; [done|lia].
  - intros x. rewrite Hm'. unfold stored. addr_cases; try done; try apply Hm.
    destruct (l !! Z.to_nat (x - s)) eqn:E; [|done]. cbn. by eapply Forall_lookup_1 in Hb.
  - intros x Hx. rewrite Hm'. unfold stored. addr_cases; done || lia.
Qed.

Lemma makes_4 n : in_u 32 n ->
  makes (fun c m p => '(m, q) ← smbios_init_type_4 cpuid_signature cpuid_features fmt_cpu m p n; Some (c, m, q))
    4 (u16 (0x400 + n)).
Proof using.
  intros Hn c m p Hc Hm Hf Hh. unfold smbios_init_type_4. cbv zeta.
  set (m1 := writew _ (p + offsetof smbios_type_4 "l3_cache_handle") _).
  assert (Hm1 : bytes m1) by (subst m1; unfold put_header; eauto 40 with tables).
  assert (Hx1 : forall x, ~ p <= x < p + 32 -> m1 x = m x).
  { intros x Hx. subst m1. unfold put_header. offsets. by far. }
  assert (Hp1 : forall x, p <= x < p + 4 -> m1 x = put_header smbios_type_4 m p 4 (0x400 + n) x).
  { intros x Hx. subst m1. offsets. by far. }
  clearbody m1.
  destruct (cpu_name m1 (p + sizeof smbios_type_4) n) as (m2 & -> & Hn2 & Hm2 & Hx2); [done..| | |].
  { offsets. lia. }
  { eapply holds_ext; [|exact Hh]. intros x Hx. apply Hx1. change (length _) with 7%nat in Hx. lia. }
  revert Hn2 Hx2. offsets. intros Hn2 Hx2. cbn [mbind option_bind]. do 3 eexists. split; [done|]. split; [done|].
  split; [auto with tables|]. split.
  - apply (structure_intro (drop 3 smbios_type_4) m _ p _ (0x400 + n)); [done|vm_compute; split; congruence| |].
    + intros x Hx. far. rewrite Hx2 by lia. by apply Hp1.
    + offsets. apply (ends_strings_at _ _ [codes "CPU" ++ hexdigits n 2 ++ [0]; CONFIG_APPNAME ++ [0]]); [done| | |cbn; lia].
      * constructor; [|constructor; [apply str_ok_app|constructor]].
        exists (codes "CPU" ++ hexdigits n 2). split_and!; [done..|]. apply Forall_app. split; [by repeat constructor|].
        eapply Forall_impl; [apply hexdigits_ok; apply Hn|]. unfold in_u. intros b (_ & ? & ? & _). lia.
      * cbn [concat]. rewrite app_nil_r, <- app_assoc. apply holds_app. split.
        -- eapply holds_ext; [|exact Hn2]. intros x Hx. change (length _) with 6%nat in Hx. by far.
        -- change (length _) with 6%nat. apply (holds_store _ _ (CONFIG_APPNAME ++ [0; 0])). by repeat constructor.
  - intros x Hx. far. rewrite Hx2, Hx1 by lia. done.
Qed.

(** ** Structures with fields of the emulator *)

Context (fld : Z -> Z -> list Z).
Context (Hfld : forall c t o, cfg_items c = its ->
  exists c', qemu_cfg_smbios_load_field qemu_cfg_present c t o = (fld t o, c') /\ cfg_items c' = its).

(** A structure at [start] in the making, with the strings [ds] so far. *)
Record making (m0 : memory) (l : Bregs.layout) (start t h : Z) (ds : list (list Z)) (s : strings) : Prop := {
  mk_items : cfg_items (st_cfg s) = its;
  mk_bytes : bytes (st_mem s);
  mk_head : forall x, start <= x < start + 4 -> st_mem s x = put_header l m0 start t h x;
  mk_strs : holds (st_mem s) (start + sizeof l) (concat ds);
  mk_ok : Forall str_ok ds;
  mk_end : st_end s = start + sizeof l + Z.of_nat (length (concat ds));
  mk_index : str_index s = Z.of_nat (length ds);
  mk_frame : forall x, ~ start <= x < st_end s -> st_mem s x = m0 x }.

Section Making.
#[local] Arguments sizeof : simpl never.
#[local] Arguments offsetof : simpl never.
Context (m0 : memory) (l : Bregs.layout) (start t h : Z).
Context (Hl : 4 <= sizeof l < 256) (Hr : exists r, l = smbios_structure_header ++ r).

Lemma making_start c : cfg_items c = its -> bytes m0 ->
  making m0 l start t h [] (mk_strings c (put_header l m0 start t h) (start + sizeof l) 0).
Proof using Hl Hr.
  intros Hc Hm. destruct Hr as [r ->]. destruct (put_header_spec r m0 start t h) as (_ & _ & _ & Hx). split; cbn [st_cfg st_mem st_end str_index concat length]; try done.
  - unfold put_header. auto with tables.
  - lia.
  - intros x Hx'. apply Hx. lia.
Qed.

(** Stores between the header and the strings. *)
Lemma making_mem ds s f : making m0 l start t h ds s -> bytes (f (st_mem s)) ->
  (forall x, ~ start + 4 <= x < start + sizeof l -> f (st_mem s) x = st_mem s x) ->
  making m0 l start t h ds (on_mem s f).
Proof using Hl.
  intros [] Hf Hx. split; cbn [on_mem st_cfg st_mem st_end str_index]; try done.
  - intros x Hx'. rewrite Hx by lia. auto.
  - eapply holds_ext; [|done]. intros x Hx'. apply Hx. lia.
  - intros x Hx'. rewrite Hx by lia. auto.
Qed.

(** A string at the end, and its number in a field. *)
Lemma making_string ds s c d a : making m0 l start t h ds s -> cfg_items c = its -> str_ok d ->
  start + 4 <= a < start + sizeof l ->
  making m0 l start t h (ds ++ [d])
    (mk_strings c (writeb (store_bytes (st_mem s) (st_end s) d) a (str_index s + 1))
       (st_end s + Z.of_nat (length d)) (str_index s + 1)).
Proof using Hl.
  intros [] Hc Hd Ha.
  assert (length (concat (ds ++ [d])) = (length (concat ds) + length d)%nat) as Hlen
    by (by rewrite concat_app, length_app; cbn; rewrite app_nil_r).
  split; cbn [st_cfg st_mem st_end str_index]; try done.
  - auto with tables.
  - intros x Hx. rewrite writeb_other, store_bytes_other by lia. auto.
  - rewrite concat_app. cbn [concat]. rewrite app_nil_r. apply holds_app. split.
    + eapply holds_ext; [|done]. intros x Hx. rewrite writeb_other, store_bytes_other by lia. done.
    + rewrite <- mk_end0. eapply holds_ext; [|apply holds_store; by apply str_ok_bytes].
      intros x Hx. apply writeb_other. lia.
  - apply Forall_app. split; [done|by repeat constructor].
  - lia.
  - rewrite length_app. cbn. lia.
  - intros x Hx. rewrite writeb_other, store_bytes_other by lia. apply mk_frame0. lia.
Qed.

Definition fld_ok (d : list Z) : Prop := d = [] \/ str_ok d.
Lemma fld_length d : fld_ok d -> (0 <? Z.of_nat (length d)) = bool_decide (d <> []).
Proof using. destruct d; [done|]. intros _. rewrite bool_decide_true by done. apply Z.ltb_lt. cbn [length]. lia. Qed.

Lemma making_default ds s f def : making m0 l start t h ds s -> fld_ok (fld t (offsetof l f)) -> str_ok (def ++ [0]) ->
  4 <= offsetof l f < sizeof l -> exists d, making m0 l start t h (ds ++ [d])
    (load_str_field_with_default qemu_cfg_present l start t f def s).
Proof using Hfld Hl.
  intros Hs Hd Hdef Ho. unfold load_str_field_with_default.
  destruct (Hfld (st_cfg s) t (offsetof l f) (mk_items _ _ _ _ _ _ _ Hs)) as (c & -> & Hc).
  rewrite fld_length by done. destruct Hd as [->|Hd].
  - rewrite bool_decide_false by (by intros []). cbn [store_bytes]. exists (def ++ [0]).
    pose proof (making_string ds s c _ (start + offsetof l f) Hs Hc Hdef ltac:(lia)) as H.
    rewrite length_app in H. cbn in H. replace (st_end s + Z.of_nat (length def) + 1) with
      (st_end s + Z.of_nat (length def + 1)) by lia. exact H.
  - rewrite bool_decide_true by (destruct Hd as ([|] & -> & _); done). eexists. apply making_string; done || lia.
Qed.

Lemma making_skip ds s f : making m0 l start t h ds s -> fld_ok (fld t (offsetof l f)) ->
  4 <= offsetof l f < sizeof l -> exists ds', making m0 l start t h (ds ++ ds')
    (load_str_field_or_skip qemu_cfg_present l start t f s).
Proof using Hfld Hl.
  intros Hs Hd Ho. unfold load_str_field_or_skip.
  destruct (Hfld (st_cfg s) t (offsetof l f) (mk_items _ _ _ _ _ _ _ Hs)) as (c & -> & Hc).
  rewrite fld_length by done. destruct Hd as [->|Hd].
  - rewrite bool_decide_false by (by intros []). exists []. rewrite app_nil_r. cbn [store_bytes].
    pose proof (making_mem ds s (fun m => writeb m (start + offsetof l f) 0) Hs) as H. cbn beta in H.
    destruct H; [apply bytes_writeb, Hs|intros; apply writeb_other; lia|]. by split.
  - rewrite bool_decide_true by (destruct Hd as ([|] & -> & _); done). eexists. apply making_string; done || lia.
Qed.

Lemma making_plain ds s f def : making m0 l start t h ds s ->
  4 <= offsetof l f -> offsetof l f + Z.of_nat (length (fld t (offsetof l f))) <= sizeof l ->
  offsetof l f + Z.of_nat (length def) <= sizeof l ->
  making m0 l start t h ds (load_plain qemu_cfg_present l start t f def s).
Proof using Hfld Hl.
  intros Hs Ho Hn Hd. unfold load_plain.
  destruct (Hfld (st_cfg s) t (offsetof l f) (mk_items _ _ _ _ _ _ _ Hs)) as (c & -> & Hc).
  set (d := fld t (offsetof l f)) in *. set (a := start + offsetof l f).
  pose proof (making_mem ds s (fun m => if Z.of_nat (length d) =? 0 then store_bytes (store_bytes m a d) a def
    else store_bytes m a d) Hs) as H. cbn beta in H.
  destruct H; [pose proof (mk_bytes _ _ _ _ _ _ _ Hs); case_test; auto with tables| |by split].
  intros x Hx. case_test; by rewrite !store_bytes_other by lia.
Qed.

(** The last zero. *)
Lemma making_end ds s : making m0 l start t h ds s -> in_u 8 t -> ds <> [] ->
  let m := writeb (st_mem s) (st_end s) 0 in
  bytes m /\ structure m start t (u16 h) (st_end s + 1) /\ forall x, ~ start <= x < st_end s + 1 -> m x = m0 x.
Proof using Hfld Hl Hr.
  intros [] Ht Hds m. subst m. split; [auto with tables|]. split.
  - destruct Hr as [r El]. subst l. apply (structure_intro r m0 _ start t h); [done|done| |].
    + intros x Hx. rewrite writeb_other by lia. auto.
    + apply (ends_strings_at _ _ ds); [done..| |lia]. apply holds_app. split.
      * eapply holds_ext; [|done]. intros x Hx. apply writeb_other. lia.
      * rewrite <- mk_end0. intros [|i] v Hi; [|done]. cbn in Hi. simplify_eq. by rewrite writeb_at by lia.
  - intros x Hx. rewrite writeb_other by lia. apply mk_frame0. lia.
Qed.
End Making.

(** The fields of the emulator are strings where strings are meant, and fit otherwise. *)
Definition fields_fit : Prop :=
  (forall f, In f ["vendor_str"; "bios_version_str"; "bios_release_date_str"] -> fld_ok (fld 0 (offsetof smbios_type_0 f))) /\
  (forall f, In f ["system_bios_major_release"; "system_bios_minor_release"] ->
     (length (fld 0 (offsetof smbios_type_0 f)) <= 1)%nat) /\
  (forall f, In f ["manufacturer_str"; "product_name_str"; "version_str"; "serial_number_str"; "sku_number_str"; "family_str"] ->
     fld_ok (fld 1 (offsetof smbios_type_1 f))) /\
  (length (fld 1 (offsetof smbios_type_1 "uuid")) <= 16)%nat.

Lemma str_ok_date : str_ok (RELEASE_DATE_STR ++ [0]).
Proof using. exists RELEASE_DATE_STR. split_and!; [done..|]. by repeat constructor. Qed.

(** One step of a structure in the making. *)
Ltac forget t H := let s := fresh "s" in set (s := t) in *; clearbody s; clear H.
Ltac making_step Hl := match goal with
  | H : making ?m ?l ?p ?t ?h ?ds ?s |- context [load_str_field_with_default ?b ?l ?p ?t ?f ?def ?s] =>
      destruct (making_default m l p t h Hl ds s f def H) as (? & ?);
        [auto 20 with datatypes|apply str_ok_app || apply str_ok_date|vm_compute; split; congruence|];
      forget (load_str_field_with_default b l p t f def s) H
  | H : making ?m ?l ?p ?t ?h ?ds ?s |- context [load_str_field_or_skip ?b ?l ?p ?t ?f ?s] =>
      destruct (making_skip m l p t h Hl ds s f H) as (? & ?); [auto 20 with datatypes|vm_compute; split; congruence|];
      forget (load_str_field_or_skip b l p t f s) H
  | H : making ?m ?l ?p ?t ?h ?ds ?s |- context [load_plain ?b ?l ?p ?t ?f ?def ?s] =>
      assert (making m l p t h ds (load_plain b l p t f def s));
        [apply (making_plain m l p t h Hl); [done|vm_compute; congruence| |vm_compute; congruence]|
         forget (load_plain b l p t f def s) H]
  | H : making ?m ?l ?p ?t ?h ?ds ?s |- context [on_mem ?s ?f] =>
      assert (making m l p t h ds (on_mem s f));
        [apply (making_mem m l p t h Hl);
           [done|pose proof (mk_bytes _ _ _ _ _ _ _ H); cbn beta; auto 20 with tables|
            offsets; cbv beta; intros ? ?; by far]|
         forget (on_mem s f) H]
  end.

Lemma makes_0 : fields_fit -> makes (fun c m p => Some (smbios_init_type_0 qemu_cfg_present c m p)) 0 0.
Proof using Hfld.
  intros (Hs & Hp & _) c m p Hc Hm _ _. unfold smbios_init_type_0. cbv zeta.
  assert (Hl : 4 <= sizeof smbios_type_0 < 256) by (vm_compute; split; congruence).
  assert (Hr : exists r, smbios_type_0 = smbios_structure_header ++ r) by (by eexists).
  pose proof (making_start m smbios_type_0 p 0 0 Hl Hr c Hc Hm) as H. set (s0 := mk_strings c _ _ _) in *. clearbody s0.
  do 5 making_step Hl. making_step Hl.
  { specialize (Hp "system_bios_major_release" ltac:(auto with datatypes)). revert Hp. offsets. lia. }
  making_step Hl.
  { specialize (Hp "system_bios_minor_release" ltac:(auto with datatypes)). revert Hp. offsets. lia. }
  match goal with H : making _ _ _ _ _ ?ds ?s |- _ =>
    assert (H' : making m smbios_type_0 p 0 0 ds (on_mem s (fun m =>
      writeb (writeb m (p + offsetof smbios_type_0 "embedded_controller_major_release") 0xff)
        (p + offsetof smbios_type_0 "embedded_controller_minor_release") 0xff)));
    [apply (making_mem _ _ _ _ _ Hl); [done|pose proof (mk_bytes _ _ _ _ _ _ _ H); cbn beta; auto with tables|
       offsets; cbv beta; intros ? ?; by far]|]
  end.
  pose proof (mk_items _ _ _ _ _ _ _ H').
  apply (making_end _ _ _ _ _ Hl Hr) in H' as (? & ? & ?); [|done|by destruct x]. do 3 eexists. split; [done|]. done.
Qed.

Lemma makes_1 : fields_fit -> makes (fun c m p => Some (smbios_init_type_1 qemu_cfg_present c m p)) 1 0x100.
Proof using Hfld.
  intros (_ & _ & Hs & Hp) c m p Hc Hm _ _. unfold smbios_init_type_1. cbv zeta.
  assert (Hl : 4 <= sizeof smbios_type_1 < 256) by (vm_compute; split; congruence).
  assert (Hr : exists r, smbios_type_1 = smbios_structure_header ++ r) by (by eexists).
  pose proof (making_start m smbios_type_1 p 1 0x100 Hl Hr c Hc Hm) as H. set (s0 := mk_strings c _ _ _) in *. clearbody s0.
  do 5 making_step Hl.
  { revert Hp. offsets. lia. }
  do 3 making_step Hl.
  match goal with H : making _ _ _ _ _ ?ds ?s |- _ => rename H into H'; assert (Hds : ds <> []) end.
  { by destruct x. }
  pose proof (mk_items _ _ _ _ _ _ _ H') as Hi. pose proof (mk_index _ _ _ _ _ _ _ H') as Hx.
  apply (making_end _ _ _ _ _ Hl Hr) in H' as (? & ? & ?); [|done|done]. rewrite Hx, (proj2 (Z.eqb_neq _ _)).
  2:{ destruct x; cbn; lia. }
  do 3 eexists. split; [done|]. done.
Qed.
End Builders.

(** ** The whole table *)

Section Whole.
Context (cpuid_signature cpuid_features : Z) (fmt_cpu : Z) (qemu_cfg_present : bool).
Context (its : Z -> list Z) (fields : list smbios_entry).
Context (Hfields : only_fields qemu_cfg_present its fields) (Hfit : fields_fit (field fields)).
Context (m0 : memory) (start end_ : Z).
Context (Hm0 : bytes m0) (Hfmt : fmt_cpu + 7 <= start) (Htext : holds m0 fmt_cpu (codes "CPU%2x" ++ [0])).

(** The structures [l] are there, and nothing else has changed. *)
Record built (l : list (Z * Z)) (s : smbios_state) : Prop := {
  bu_items : cfg_items (sb_cfg s) = its;
  bu_bytes : bytes (sb_mem s);
  bu_used : sb_used s = 0;
  bu_table : table (sb_max s) (sb_mem s) start l (sb_p s);
  bu_nr : sb_nr s = u32 (Z.of_nat (length l));
  bu_max : 0 <= sb_max s <= sb_p s - start;
  bu_frame : forall x, ~ start <= x < sb_p s -> sb_mem s x = m0 x }.

Lemma add_struct_built l s t h build : built l s -> makes fmt_cpu its build t h ->
  exists s', add_struct qemu_cfg_present t build end_ s = Some s' /\ built (l ++ [(t, h)]) s'.
Proof using Hfields Hfmt Htext.
  intros [] Hb. unfold add_struct.
  destruct (only_fields_external _ _ _ s t end_ Hfields bu_items0) as (c & Hc & ->); [by rewrite bu_used0, Z.bits_0|].
  cbn [sb_cfg sb_mem sb_p sb_nr sb_max sb_used]. pose proof (table_size _ _ _ _ _ bu_table0) as Hsz.
  destruct (Hb c (sb_mem s) (sb_p s)) as (c' & m' & q & -> & Hc' & Hm' & Hst & Hx); [done|done|lia| |].
  { eapply holds_ext; [|exact Htext]. intros x Hx. change (length _) with 7%nat in Hx. apply bu_frame0. lia. }
  cbn [mbind option_bind]. eexists. split; [done|]. pose proof (structure_size _ _ _ _ _ Hst).
  split; cbn [sb_cfg sb_mem sb_p sb_nr sb_max sb_used]; try done.
  - eapply (table_snoc (sb_max s)); [|done|case_test; lia..].
    eapply table_ext; [|done]. intros x Hr. apply Hx. lia.
  - rewrite bu_nr0, length_app, (wrap_add_l 32). cbn [length]. f_equal. lia.
  - case_test; lia.
  - intros x Hr. rewrite Hx by lia. apply bu_frame0. lia.
Qed.

Lemma add_cpus_built n i l s : built l s -> 0 <= i -> i + Z.of_nat n <= 2 ^ 32 ->
  exists s', add_cpus cpuid_signature cpuid_features fmt_cpu qemu_cfg_present n i end_ s = Some s' /\
    built (l ++ map (fun k => (4, u16 (0x400 + i + Z.of_nat k))) (seq 0 n)) s'.
Proof using Hfields Hfmt Htext.
  revert i l s. induction n as [|n IH]; cbn [add_cpus]; intros i l s Hs H0 Hi.
  { exists s. by rewrite app_nil_r. }
  destruct (add_struct_built l s 4 (u16 (0x400 + i)) _ Hs (makes_4 cpuid_signature cpuid_features fmt_cpu its i ltac:(unfold in_u; lia)))
    as (s' & -> & Hs'). cbn [mbind option_bind].
  destruct (IH (i + 1) _ _ Hs') as (s2 & -> & H2); [lia..|]. exists s2. split; [done|].
  rewrite <- app_assoc in H2. replace (map _ (seq 0 (S n))) with
    ([(4, u16 (0x400 + i))] ++ map (fun k => (4, u16 (0x400 + (i + 1) + Z.of_nat k))) (seq 0 n)); [done|].
  cbn [seq map app]. f_equal; [by rewrite Z.add_0_r|]. rewrite <- seq_shift, map_map. apply map_ext. intros k. do 2 f_equal. lia.
Qed.

Lemma add_memory_built n i nr memsize l s : built l s -> 0 <= i -> i + Z.of_nat n <= 208 ->
  exists s', add_memory qemu_cfg_present n i nr memsize end_ s = Some s' /\
    built (l ++ concat (map memory_structures (seq (Z.to_nat i) n))) s'.
Proof using Hfields Hfmt Htext.
  revert i l s. induction n as [|n IH]; cbn [add_memory]; intros i l s Hs H0 Hi.
  { exists s. by rewrite app_nil_r. }
  set (mb := if i =? nr - 1 then _ else _). clearbody mb.
  destruct (add_struct_built _ _ _ _ _ Hs (makes_17 fmt_cpu its mb i ltac:(lia))) as (s1 & -> & H1). cbn [mbind option_bind].
  destruct (add_struct_built _ _ _ _ _ H1 (makes_19 fmt_cpu its mb i)) as (s2 & -> & H2). cbn [mbind option_bind].
  destruct (add_struct_built _ _ _ _ _ H2 (makes_20 fmt_cpu its mb i)) as (s3 & -> & H3). cbn [mbind option_bind].
  destruct (IH (i + 1) _ _ H3) as (s4 & -> & H4); [lia..|]. exists s4. split; [done|].
  rewrite <- !app_assoc in H4. cbn [seq map concat]. unfold memory_structures at 1. rewrite Z2Nat.id by lia.
  replace (Z.to_nat (i + 1)) with (S (Z.to_nat i)) in H4 by lia. exact H4.
Qed.

Lemma add_external_built n i l s : built l s -> built l (add_external qemu_cfg_present n i end_ s).
Proof using Hfields.
  revert i s. induction n as [|n IH]; cbn [add_external]; intros i s Hs; [done|]. apply IH. destruct Hs.
  destruct (only_fields_external _ _ _ s i end_ Hfields bu_items0) as (c & Hc & ->); [by rewrite bu_used0, Z.bits_0|]. by split.
Qed.

Lemma build_tables_built c MaxCountCPUs memsize : cfg_items c = its -> in_u 16 MaxCountCPUs ->
  0 <= memsize <= 208 * 0x4000 ->
  exists s, build_tables cpuid_signature cpuid_features fmt_cpu qemu_cfg_present MaxCountCPUs memsize end_
      (mk_smbios_state c m0 0 start 0 0) = Some s /\
    built (expected (Z.to_nat MaxCountCPUs) (Z.to_nat ((memsize + 0x3fff) / 0x4000))) s.
Proof using Hfields Hfit Hfmt Hm0 Htext.
  intros Hc Hn Hmb. unfold build_tables.
  assert (Hd : 0 <= (memsize + 0x3fff) / 0x4000 <= 208) by (Z.to_euclidean_division_equations; lia).
  assert (built [] (mk_smbios_state c m0 0 start 0 0)) as H by (split; done || (cbn; lia)).
  pose proof (fun c t o => only_fields_load _ _ _ c t o Hfields) as Hfld.
  destruct (add_struct_built _ _ _ _ _ H (makes_0 fmt_cpu _ its _ Hfld Hfit)) as (s0 & -> & H0). cbn [mbind option_bind].
  destruct (add_struct_built _ _ _ _ _ H0 (makes_1 fmt_cpu _ its _ Hfld Hfit)) as (s1 & -> & H1). cbn [mbind option_bind].
  destruct (add_struct_built _ _ _ _ _ H1 (makes_3 fmt_cpu its)) as (s2 & -> & H2). cbn [mbind option_bind].
  destruct (add_cpus_built (Z.to_nat MaxCountCPUs) 1 _ _ H2) as (s3 & -> & H3); [lia|unfold in_u in Hn; lia|].
  cbn [mbind option_bind].
  rewrite Z.shiftr_div_pow2 by lia. change (2 ^ 14) with 0x4000. rewrite swrap_small by (cbn; lia).
  set (nr := (memsize + 0x3fff) / 0x4000) in *.
  destruct (add_struct_built _ _ _ _ _ H3 (makes_16 fmt_cpu its (u32 memsize) nr)) as (s4 & -> & H4). cbn [mbind option_bind].
  destruct (add_memory_built (Z.to_nat nr) 0 nr memsize _ _ H4) as (s5 & -> & H5); [lia..|]. cbn [mbind option_bind].
  destruct (add_struct_built _ _ _ _ _ H5 (makes_32 fmt_cpu its)) as (s6 & -> & H6). cbn [mbind option_bind].
  apply (add_external_built 256 0) in H6.
  destruct (add_struct_built _ _ _ _ _ H6 (makes_127 fmt_cpu its)) as (s7 & -> & H7).
  exists s7. split; [done|]. unfold expected. rewrite <- !app_assoc in H7. exact H7.
Qed.
End Whole.

(** ** The entry point *)

Lemma fill_entry_point_spec m ep mx len final nr : bytes m -> in_u 16 len -> in_u 32 final -> in_u 16 nr -> in_u 16 mx ->
  let m' := fill_entry_point m ep mx len final nr in
  holds m' ep (codes "_SM_") /\ holds m' (ep + 0x10) (codes "_DMI_") /\
  checksum m' ep 0x10 = 0 /\ checksum m' (ep + 0x10) 0x0f = 0 /\ readw m' (ep + 0x08) = mx /\
  readw m' (ep + 0x16) = len /\ readl m' (ep + 0x18) = final /\ readw m' (ep + 0x1c) = nr /\
  forall x, ~ ep <= x < ep + 0x1f -> m' x = m x.
Proof.
  intros Hm Hlen Hfinal Hnr Hmx m'. subst m'. unfold fill_entry_point. offsets. rewrite Z.add_0_r.
  set (m1 := writeb _ (ep + 30) _).
  assert (Hm1 : bytes m1) by (subst m1; auto 20 with tables).
  assert (R : forall mm v a, (forall x, a <= x < a + 2 -> m1 x = writew mm a v x) -> readw m1 a = u16 v).
  { intros mm v a Hx. rewrite <- (readw_writew mm a v). apply readw_ext; apply Hx; lia. }
  assert (R8 : readw m1 (ep + 8) = u16 mx) by (eapply R; intros; subst m1; far; reflexivity).
  assert (R22 : readw m1 (ep + 22) = u16 len) by (eapply R; intros; subst m1; far; reflexivity).
  assert (R28 : readw m1 (ep + 28) = u16 nr) by (eapply R; intros; subst m1; far; reflexivity).
  assert (R24 : readl m1 (ep + 24) = u32 final).
  { etransitivity; [apply readl_ext; intros; subst m1; far; reflexivity|apply readl_writel]. }
  assert (Ha : holds m1 ep (codes "_SM_")).
  { eapply holds_ext; [|apply (holds_store m); by repeat constructor]. intros x Hr. change (length _) with 4%nat in Hr.
    subst m1. by far. }
  assert (Hb : holds m1 (ep + 16) (codes "_DMI_")).
  { eapply holds_ext; [|apply holds_store; by repeat constructor]. intros x Hr. change (length _) with 5%nat in Hr.
    subst m1. far. reflexivity. }
  assert (E1 : m1 (ep + 5) = 0x1f) by (subst m1; far; by rewrite writeb_same).
  assert (Hf : forall x, ~ ep <= x < ep + 0x1f -> m1 x = m x) by (intros; subst m1; by far).
  clearbody m1. clear R.
  destruct (checksum_fix m1 ep 0x10 (ep + 4) Hm1 ltac:(lia) ltac:(lia)) as [Hc1 Hx1].
  assert (Hm2 : bytes (writeb m1 (ep + 4) (u8 (m1 (ep + 4) - checksum m1 ep 16)))) by (by apply bytes_writeb).
  set (m2 := writeb m1 (ep + 4) _) in *. clearbody m2.
  rewrite (Hx1 (ep + 5)), E1 by lia. change (0x1f - 0x10) with 0x0f.
  destruct (checksum_fix m2 (ep + 0x10) 0x0f (ep + 21) Hm2 ltac:(lia) ltac:(lia)) as [Hc2 Hx2].
  set (m3 := writeb m2 (ep + 21) _) in *. clearbody m3.
  assert (Hx : forall x, x <> ep + 4 -> x <> ep + 21 -> m3 x = m1 x) by (intros; by rewrite Hx2, Hx1 by lia).
  rewrite (readl_ext m1 m3) by (intros; apply Hx; lia). rewrite !(readw_ext m1 m3) by (apply Hx; lia).
  rewrite R8, R22, R24, R28, !wrap_small by done. split_and!; try done.
  - eapply holds_ext; [|exact Ha]. intros x Hr. change (length _) with 4%nat in Hr. apply Hx; lia.
  - eapply holds_ext; [|exact Hb]. intros x Hr. change (length _) with 5%nat in Hr. apply Hx; lia.
  - rewrite <- Hc1. apply checksum_ext. intros x Hr. apply Hx2. lia.
  - intros x Hr. rewrite Hx by lia. by apply Hf.
Qed.

(** ** What the operating system finds *)

Section Found.
Context (cpuid_signature cpuid_features : Z) (fmt_cpu : Z) (qemu_cfg_present : bool).
Context (boot : pmm) (ops : list pmm_op) (m : memory) (c : qemu_cfg) (fields : list smbios_entry).
Context (MaxCountCPUs RamSize RamSizeOver4G : Z).

(** The manager when the tables are made: after any requests, with any memory. *)
Definition manager : pmm := set_pmem (pmm_run boot ops).1 m.
Definition temporary : Z := (malloc_tmphigh manager TEMPSMBIOSSIZE).2.
Definition devices : nat := Z.to_nat ((total_memory RamSize RamSizeOver4G + 0x3fff) / 0x4000).

(** The structures in the temporary block. *)
Definition made : option smbios_state :=
  build_tables cpuid_signature cpuid_features fmt_cpu qemu_cfg_present MaxCountCPUs
    (total_memory RamSize RamSizeOver4G) (temporary + TEMPSMBIOSSIZE - sizeof smbios_type_127)
    (mk_smbios_state c m 0 temporary 0 0).

Record smbios_pre : Prop := {
  pre_ready : pmm_ready boot;
  pre_ops : Forall op_ok ops;
  pre_bytes : bytes m;
  pre_fields : only_fields qemu_cfg_present (cfg_items c) fields;
  pre_fit : fields_fit (field fields);
  pre_cpus : in_u 16 MaxCountCPUs;
  pre_memory : 0 <= total_memory RamSize RamSizeOver4G <= 208 * 0x4000;
  pre_fmt : fmt_cpu + 7 <= temporary;
  pre_text : holds m fmt_cpu (codes "CPU%2x" ++ [0]) }.

(** Where entry point and table go. *)
Definition places (len : Z) : Z * Z :=
  let '(s, ep) := malloc_fseg (malloc_tmphigh manager TEMPSMBIOSSIZE).1 (sizeof smbios_entry_point) in
  (ep, (malloc_high s len).2).

(** The three blocks lie apart. *)
Lemma blocks_apart len ep final : smbios_pre -> 0 < len <= TEMPSMBIOSSIZE -> places len = (ep, final) ->
  temporary <> 0 -> ep <> 0 -> final <> 0 ->
  apart [(final, len); (ep, sizeof smbios_entry_point); (temporary, TEMPSMBIOSSIZE)].
Proof using.
  intros [] Hlen Hp Ht He Hf.
  pose proof (three_apart boot ops m ZoneTmpHigh TEMPSMBIOSSIZE ZoneFSeg (sizeof smbios_entry_point) ZoneHigh len
    pre_ready0 pre_ops0 ltac:(done) ltac:(done) ltac:(done)) as H3.
  revert Hp Ht. unfold temporary, places, malloc_tmphigh, malloc_fseg, malloc_high. fold manager in H3. cbv beta zeta in H3.
  destruct (pmm_malloc manager [] ZoneTmpHigh _ _ _) as [s1 a1]. cbn [fst snd].
  destruct (pmm_malloc s1 [] ZoneFSeg _ _ _) as [s2 a2]. intros Hp Ht. simplify_eq.
  apply H3; try done; unfold fits, TEMPSMBIOSSIZE in *; offsets; lia.
Qed.

Lemma entry_point_made s m1 mx len start nr :
  let '(s2, ep) := malloc_fseg s (sizeof smbios_entry_point) in let final := (malloc_high s2 len).2 in
  ep <> 0 -> final <> 0 ->
  pmem (smbios_entry_point_init (set_pmem s m1) mx len start nr) =
  fill_entry_point (memcpy m1 final start len) ep mx len final nr.
Proof using.
  unfold smbios_entry_point_init, malloc_fseg, malloc_high. rewrite pmm_malloc_pmem by done.
  destruct (pmm_malloc s [] ZoneFSeg _ _ _) as [s2 ep]. cbn [fst snd]. rewrite pmm_malloc_pmem by done.
  destruct (pmm_malloc s2 [] ZoneHigh _ _ _) as [s3 final]. cbn [fst snd]. intros He Hf.
  by rewrite !(proj2 (Z.eqb_neq _ 0)) by done.
Qed.

(** Memory after the call. *)
Lemma smbios_init_run t : made = Some t -> exists s',
  smbios_init cpuid_signature cpuid_features fmt_cpu qemu_cfg_present manager c 0 MaxCountCPUs RamSize RamSizeOver4G = Some s' /\
  let len := u16 (sb_p t - temporary) in let '(ep, final) := places len in
  temporary <> 0 -> ep <> 0 -> final <> 0 ->
  pmem s' = fill_entry_point (memcpy (sb_mem t) final temporary len) ep (u16 (sb_max t)) len final (u16 (sb_nr t)).
Proof using.
  unfold smbios_init, made, places. intros Ht. unfold temporary in *. set (s := manager) in *.
  assert (Hs : pmem (malloc_tmphigh s TEMPSMBIOSSIZE).1 = m).
  { subst s. unfold manager, malloc_tmphigh. by rewrite pmm_malloc_pmem. }
  clearbody s. destruct (malloc_tmphigh s TEMPSMBIOSSIZE) as [s1 start]. cbn [fst snd] in *.
  pose proof (entry_point_made s1 (sb_mem t) (u16 (sb_max t)) (u16 (sb_p t - start)) start (u16 (sb_nr t))) as He.
  destruct (malloc_fseg s1 _) as [s2 ep]. destruct (Z.eqb_spec start 0); [by exists s1|].
  rewrite Hs, Ht. cbn [mbind option_bind]. eexists. split; [done|]. intros _ Hep Hf.
  rewrite <- He by done. set (s' := smbios_entry_point_init _ _ _ _ _). rewrite <- (set_pmem_id s'). unfold free.
  by rewrite pmm_free_pmem.
Qed.

(** C37.  An operating system finds the description of the machine, for an emulator that gives
    fields but no structures of its own, and gives no string field an empty string (nor
    one without its end, nor more bytes than a field has).  Whatever has been allocated
    before, as long as the structures fit the temporary block, memory is left and there
    are at most 208 memory devices of 16 GiB, whose names then have a character each, the
    entry point has its anchors and
    both sums are zero; the table it names has exactly the length and number it says,
    no structure is larger than it says, and a reader who steps from structure to
    structure finds all of them, one for each processor and three for each memory
    device, up to the end marker.  Nothing outside the three blocks has changed.  With an
    empty string the table breaks: [empty_string_breaks_walk]. *)
Theorem smbios_tables_found : smbios_pre -> exists t s', made = Some t /\
  smbios_init cpuid_signature cpuid_features fmt_cpu qemu_cfg_present manager c 0 MaxCountCPUs RamSize RamSizeOver4G = Some s' /\
  let len := sb_p t - temporary in let '(ep, final) := places len in let m' := pmem s' in
  len <= TEMPSMBIOSSIZE -> temporary <> 0 -> ep <> 0 -> final <> 0 ->
  holds m' ep (codes "_SM_") /\ holds m' (ep + 0x10) (codes "_DMI_") /\
  checksum m' ep 0x10 = 0 /\ checksum m' (ep + 0x10) 0x0f = 0 /\
  readw m' (ep + 0x16) = len /\ readl m' (ep + 0x18) = final /\
  table (readw m' (ep + 0x08)) m' final (expected (Z.to_nat MaxCountCPUs) devices) (final + len) /\
  walk (Z.to_nat TEMPSMBIOSSIZE) (Z.to_nat (readw m' (ep + 0x1c))) m' final =
    Some (expected (Z.to_nat MaxCountCPUs) devices, final + len) /\
  forall x, ~ temporary <= x < temporary + len -> ~ ep <= x < ep + 0x1f -> ~ final <= x < final + len -> m' x = m x.
Proof using.
  intros Hpre. pose proof Hpre as [].
  destruct (build_tables_built cpuid_signature cpuid_features fmt_cpu qemu_cfg_present (cfg_items c) fields pre_fields0 pre_fit0
    m temporary (temporary + TEMPSMBIOSSIZE - sizeof smbios_type_127) pre_bytes0 pre_fmt0 pre_text0 c MaxCountCPUs
    (total_memory RamSize RamSizeOver4G) eq_refl pre_cpus0 pre_memory0) as (t & Ht & Hb).
  exists t. fold devices in Hb. set (l := expected _ devices) in *.
  destruct (smbios_init_run t Ht) as (s' & Hs' & Hm'). exists s'. split; [done|]. split; [done|]. cbv zeta in *.
  destruct Hb. pose proof (table_size _ _ _ _ _ bu_table0) as Hsz.
  assert (Hl : 0 < Z.of_nat (length l)) by (unfold l, expected; cbn; lia).
  set (len := sb_p t - temporary) in *. destruct (places len) as [ep final] eqn:Hpl. intros Hlen Ht0 He0 Hf0.
  unfold TEMPSMBIOSSIZE in Hlen.
  rewrite (wrap_small 16 len), (wrap_small 16 (sb_max t)), bu_nr0, (wrap_small 32), (wrap_small 16), Hpl in Hm'
    by (unfold in_u; lia).
  pose proof (blocks_apart len ep final Hpre ltac:(unfold TEMPSMBIOSSIZE; lia) Hpl Ht0 He0 Hf0) as [Hr Hd].
  pose proof (Hr final len ltac:(left)) as Hrf.
  pose proof (Hd 0%nat 1%nat _ _ _ _ eq_refl eq_refl ltac:(done)) as Hfe.
  pose proof (Hd 0%nat 2%nat _ _ _ _ eq_refl eq_refl ltac:(done)) as Hft.
  pose proof (Hd 1%nat 2%nat _ _ _ _ eq_refl eq_refl ltac:(done)) as Het.
  revert Hfe Het. change (sizeof smbios_entry_point) with 0x1f. unfold TEMPSMBIOSSIZE in Hft. unfold TEMPSMBIOSSIZE. intros Hfe Het.
  set (m2 := memcpy (sb_mem t) final temporary len) in *.
  assert (Hm2 : forall x, m2 x = copied (sb_mem t) final temporary len x)
    by (intros; apply memcpy_spec; [done|lia|unfold forward_safe; lia]).
  assert (Hb2 : bytes m2) by (intros x; rewrite Hm2; unfold copied; case_test; apply bu_bytes0).
  destruct (fill_entry_point_spec m2 ep (sb_max t) len final (Z.of_nat (length l)) Hb2) as
    (H1 & H2 & H3 & H4 & H5 & H6 & H7 & H8 & H9); [unfold in_u; lia..|].
  rewrite <- Hm' in * by done. rewrite H5, H8, Nat2Z.id.
  assert (Htab : table (sb_max t) (pmem s') final l (final + len)).
  { replace final with (temporary + (final - temporary)) by lia.
    replace (temporary + (final - temporary) + len) with (sb_p t + (final - temporary)) by (unfold len; lia).
    eapply table_move; [|exact bu_table0]. intros x Hx. rewrite H9, Hm2 by lia. unfold copied. addr_cases; try lia. f_equal. lia. }
  split_and!; try done.
  - eapply walk_table; [exact Htab|unfold TEMPSMBIOSSIZE; lia].
  - intros x Hx1 Hx2 Hx3. rewrite H9, Hm2 by lia. unfold copied. addr_cases; try lia; apply bu_frame0; unfold len in *; lia.
Qed.
End Found.

(** The handle of the error information of a memory device is never assigned, though
    that of the memory array is: the field keeps what the temporary block held. *)
Theorem memory_error_handle_stale m start mb i :
  let a := start + offsetof smbios_type_17 "memory_error_information_handle" in
  readw (smbios_init_type_17 m start mb i).1 a = readw m a /\
  readw (smbios_init_type_16 m start mb i).1 (start + offsetof smbios_type_16 "memory_error_information_handle") = 0xfffe.
Proof.
  cbv zeta. unfold smbios_init_type_17, smbios_init_type_16, put_header. cbn [fst]. offsets. split.
  - apply readw_ext; by far.
  - etransitivity; [apply readw_ext; far; reflexivity|apply readw_writew].
Qed.

(** An empty string that the emulator gives for a field is stored as its zero alone, which
    ends the list of strings for a reader: the reader looks for the next structure one
    byte before it. *)
Theorem empty_string_breaks_walk :
  let '(_, m, e) := smbios_init_type_1 true
    (with_entries [Field 1 (offsetof smbios_type_1 "version_str") [0]]) (fun _ => 0) 1000 in
  e = 1039 /\ strings_end 100 m (1000 + m (1000 + 1)) = Some 1038.
Proof. by vm_compute. Qed.

(** ** Witness *)

Definition demo_fields : list smbios_entry := [Field 0 4 (codes "ACME" ++ [0]); Field 1 8 (replicate 16 7)].
Definition demo_memory : memory := mem_text 0xff000 (codes "CPU%2x" ++ [0]).
Definition demo_cfg : qemu_cfg := with_entries demo_fields.

Lemma demo_pre : smbios_pre 0xff000 true demo_pmm [] demo_memory demo_cfg demo_fields 2 0x7ffe0000 0.
Proof.
  split.
  - apply demo_ready.
  - constructor.
  - intros a. unfold demo_memory, mem_text. case_test; [|done].
    destruct ((codes "CPU%2x" ++ [0]) !! Z.to_nat (a - 1044480)) as [v|] eqn:E0; [|done]. cbn [default].
    apply list_elem_of_lookup_2 in E0. assert (H : Forall (in_u 8) (codes "CPU%2x" ++ [0])) by (by repeat constructor).
    by eapply Forall_forall in H.
  - split; [|split].
    + apply Forall_cons_2; [|apply Forall_cons_2; [|constructor]]; split; [cbn; lia|unfold in_u; lia|cbn; lia|unfold in_u; lia].
    + repeat constructor; by do 3 eexists.
    + split; [cbn; lia|]. exists []. by rewrite app_nil_r.
  - split; [|split; [|split]].
    + intros f [<-|[<-|[<-|[]]]]; [right|left; done..]. exists (codes "ACME"). split_and!; [done..|]. by repeat constructor.
    + intros f [<-|[<-|[]]]; vm_compute; lia.
    + intros f [<-|[<-|[<-|[<-|[<-|[<-|[]]]]]]]; by left.
    + vm_compute. lia.
  - unfold in_u. lia.
  - vm_compute. split; congruence.
  - vm_compute. congruence.
  - intros i v Hi. do 7 (destruct i as [|i]; [injection Hi as <-; vm_compute; reflexivity|]). done.
Qed.

Definition demo_places := Eval vm_compute in
  let t := made 0 0 0xff000 true demo_pmm [] demo_memory demo_cfg 2 0x7ffe0000 0 in
  let len := from_option (fun t => sb_p t - temporary demo_pmm [] demo_memory) 0 t in
  (len, places demo_pmm [] demo_memory len).

Lemma smbios_tables_found_witness : exists s',
  smbios_init 0 0 0xff000 true (manager demo_pmm [] demo_memory) demo_cfg 0 2 0x7ffe0000 0 = Some s' /\
  let '(len, (ep, final)) := demo_places in
  checksum (pmem s') ep 0x10 = 0 /\ readl (pmem s') (ep + 0x18) = final /\
  walk (Z.to_nat TEMPSMBIOSSIZE) (Z.to_nat (readw (pmem s') (ep + 0x1c))) (pmem s') final =
    Some ([(0, 0); (1, 0x100); (3, 0x300); (4, 0x401); (4, 0x402); (16, 0x1000); (17, 0x1100); (19, 0x1300); (20, 0x1400);
           (32, 0x2000); (127, 0x7f00)], final + len).
Proof.
  destruct (smbios_tables_found 0 0 0xff000 true demo_pmm [] demo_memory demo_cfg demo_fields 2 0x7ffe0000 0 demo_pre)
    as (t & s' & Ht & Hs' & H).
  exists s'. split; [exact Hs'|].
  assert (Hl : sb_p t - temporary demo_pmm [] demo_memory = demo_places.1).
  { apply (f_equal (fun o => from_option (fun t => sb_p t - temporary demo_pmm [] demo_memory) 0 o)) in Ht.
    cbn [from_option] in Ht. rewrite <- Ht. vm_compute. reflexivity. }
  cbv zeta in H. rewrite Hl in H.
  assert (Hp : places demo_pmm [] demo_memory demo_places.1 = demo_places.2) by (vm_compute; reflexivity).
  rewrite Hp in H. cbn [demo_places fst snd] in H.
  destruct H as (_ & _ & H3 & _ & _ & H6 & _ & H8 & _); [vm_compute; congruence..|].
  split; [exact H3|]. split; [exact H6|]. rewrite H8. vm_compute. reflexivity.
Defined.
