(* ===== verification/MpTable.v ===== *)
(** * Multiprocessor and interrupt routing tables: [bios/seabios/src/mptable.c], [mptable.h],
    [pirtable.c]

    The multiprocessor table lists processors, buses, the interrupt controller and where
    each interrupt line goes.  It is built in a temporary block from the processors found
    and the enumeration of [Pci], and copied behind a floating pointer.  The file models
    it on the memory manager of [Pmm], and shows what a reader of the table finds. *)

From S2P Require Import Prelude BiosUtil E820 Pmm Bregs Output Pci Paravirt Tables.
Local Open Scope Z_scope.
Local Open Scope coremu_scope.

(** ** Layout *)

Definition mptable_floating_s : Bregs.layout :=
  [("signature", 4); ("physaddr", 4); ("length", 1); ("spec_rev", 1); ("checksum", 1); ("feature1", 1); ("feature2", 1);
   ("reserved", 3)].
Definition mptable_config_s : Bregs.layout :=
  [("signature", 4); ("length", 2); ("spec", 1); ("checksum", 1); ("oemid", 8); ("productid", 12); ("oemptr", 4);
   ("oemsize", 2); ("entrycount", 2); ("lapic", 4); ("exttable_length", 2); ("exttable_checksum", 1); ("reserved", 1)].
Definition mpt_cpu : Bregs.layout :=
  [("type", 1); ("apicid", 1); ("apicver", 1); ("cpuflag", 1); ("cpusignature", 4); ("featureflag", 4); ("reserved", 8)].
Definition mpt_bus : Bregs.layout := [("type", 1); ("busid", 1); ("bustype", 6)].
Definition mpt_ioapic : Bregs.layout := [("type", 1); ("apicid", 1); ("apicver", 1); ("flags", 1); ("apicaddr", 4)].
Definition mpt_intsrc : Bregs.layout :=
  [("type", 1); ("irqtype", 1); ("irqflag", 2); ("srcbus", 1); ("srcbusirq", 1); ("dstapic", 1); ("dstirq", 1)].

Definition MPTABLE_SIGNATURE : Z := 0x5f504d5f.
Definition MPCONFIG_SIGNATURE : Z := 0x504d4350.
Definition MPT_TYPE_CPU : Z := 0.
Definition MPT_TYPE_BUS : Z := 1.
Definition MPT_TYPE_IOAPIC : Z := 2.
Definition MPT_TYPE_INTSRC : Z := 3.
Definition MPT_TYPE_LOCAL_INT : Z := 4.
Definition BUILD_APIC_ADDR : Z := 0xfee00000.
Definition BUILD_IOAPIC_ADDR : Z := 0xfec00000.
Definition CONFIG_CPUNAME8 : list Z := codes "QEMUCPU ".

(** ** Building the table *)

Section MpTable.
Context {D : Type} `{PciConfig D} (d : D).
(** What [cpuid] gives, the version register of the local interrupt controller, and the
    processors found. *)
Context (cpuid_1 : Z * Z * Z) (apic_version_reg : Z) (CountCPUs MaxCountCPUs : Z) (qemu_cfg_present : bool).

(** Signature, features and the number of logical processors in a package.  [bsr] of 0 is
    undefined, and so is a shift by 32. *)
Definition cpu_info : Z * Z * Z :=
  let '(cpuid_signature, ebx, cpuid_features) := cpuid_1 in
  let '(cpuid_signature, cpuid_features) :=
    if cpuid_signature =? 0 then (0x600, 0x201) else (cpuid_signature, cpuid_features) in
  let pkgcpus :=
    if Z.testbit cpuid_features 28 then
      let pkgcpus := Z.land (Z.shiftr ebx 16) 0xff in
      s32 (Z.shiftl 1 (fls (u32 (pkgcpus - 1)) + 1))
    else 1 in
  (cpuid_signature, cpuid_features, pkgcpus).

Definition apic_version : Z := Z.land apic_version_reg 0xff.

(** [None]: the fuel ran out, when the step is not positive. *)
Fixpoint cpu_loop (fuel : nat) (i pkgcpus sig feat : Z) (m : memory) (cpu : Z) : option (memory * Z) :=
  if MaxCountCPUs <=? i then Some (m, cpu)
  else match fuel with
  | O => None
  | S fuel =>
      let p f := cpu + offsetof mpt_cpu f in
      let m := memset m cpu 0 20 in
      let m := writeb m (p "type") MPT_TYPE_CPU in
      let m := writeb m (p "apicid") i in
      let m := writeb m (p "apicver") apic_version in
      let m := writeb m (p "cpuflag") (Z.lor (Z.b2z (i <? CountCPUs)) (Z.shiftl (Z.b2z (i =? 0)) 1)) in
      let m := writel m (p "cpusignature") sig in
      let m := writel m (p "featureflag") feat in
      cpu_loop fuel (i + pkgcpus) pkgcpus sig feat m (cpu + sizeof mpt_cpu)
  end.

Definition put_bus (m : memory) (bus busid : Z) (bustype : list Z) : memory :=
  let p f := bus + offsetof mpt_bus f in
  let m := memset m bus 0 8 in
  let m := writeb m (p "type") MPT_TYPE_BUS in
  let m := writeb m (p "busid") busid in
  store_bytes m (p "bustype") bustype.

(** Memory, the next entry, the number of entries and the last bus. *)
Fixpoint bus_loop (bdfs : list Z) (lastbus entrycount : Z) (m : memory) (bus : Z) : memory * Z * Z * Z :=
  match bdfs with
  | [] => (m, bus, entrycount, lastbus)
  | bdf :: bdfs =>
      let curbus := pci_bdf_to_bus bdf in
      if curbus =? lastbus then bus_loop bdfs lastbus entrycount m bus
      else bus_loop bdfs curbus (entrycount + 1) (put_bus m bus curbus (codes "PCI   ")) (bus + sizeof mpt_bus)
  end.

(** The assignments to an interrupt entry. *)
Definition put_intsrc (m : memory) (intsrc type irqtype irqflag srcbus srcbusirq dstapic dstirq : Z) : memory :=
  let p f := intsrc + offsetof mpt_intsrc f in
  let m := writeb m (p "type") type in
  let m := writeb m (p "irqtype") irqtype in
  let m := writew m (p "irqflag") irqflag in
  let m := writeb m (p "srcbus") srcbus in
  let m := writeb m (p "srcbusirq") srcbusirq in
  let m := writeb m (p "dstapic") dstapic in
  writeb m (p "dstirq") dstirq.

(** Interrupt lines of PCI functions: memory, the next entry and the lines used.  A line
    of 32 or more would be an undefined shift; here the bit is lost. *)
Fixpoint pci_irq_loop (bdfs : list Z) (ioapic_id dev mask pinmask : Z) (m : memory) (intsrc : Z) : memory * Z * Z :=
  match bdfs with
  | [] => (m, intsrc, mask)
  | bdf :: bdfs =>
      let pin := pci_config_readb d bdf PCI_INTERRUPT_PIN in
      let irq := pci_config_readb d bdf PCI_INTERRUPT_LINE in
      if pin =? 0 then pci_irq_loop bdfs ioapic_id dev mask pinmask m intsrc
      else
        let '(dev, pinmask) :=
          if negb (dev =? pci_bdf_to_busdev bdf) then (pci_bdf_to_busdev bdf, 0) else (dev, pinmask) in
        if negb (Z.land pinmask (Z.shiftl 1 pin) =? 0) then pci_irq_loop bdfs ioapic_id dev mask pinmask m intsrc
        else
          let pinmask := u16 (Z.lor pinmask (Z.shiftl 1 pin)) in
          let mask := u16 (Z.lor mask (Z.shiftl 1 irq)) in
          let m := memset m intsrc 0 8 in
          let m := put_intsrc m intsrc MPT_TYPE_INTSRC 0 1 (pci_bdf_to_bus bdf)
                     (Z.lor (Z.shiftl (pci_bdf_to_dev bdf) 2) (pin - 1)) ioapic_id irq in
          pci_irq_loop bdfs ioapic_id dev mask pinmask m (intsrc + sizeof mpt_intsrc)
  end.

(** The lines of the old bus that are left, from [i] on. *)
Fixpoint isa_irq_loop (n : nat) (i isabusid ioapic_id mask : Z) (c : qemu_cfg) (m : memory) (intsrc : Z) : memory * Z :=
  match n with
  | O => (m, intsrc)
  | S n =>
      let m := memset m intsrc 0 8 in
      if negb (Z.land mask (Z.shiftl 1 i) =? 0) then isa_irq_loop n (i + 1) isabusid ioapic_id mask c m intsrc
      else
        let m := put_intsrc m intsrc MPT_TYPE_INTSRC 0 0 isabusid i ioapic_id i in
        let '(o, c) := qemu_cfg_irq0_override qemu_cfg_present c in
        let '(m, intsrc) :=
          if negb (o =? 0) then
            if i =? 0 then (writeb m (intsrc + offsetof mpt_intsrc "dstirq") 2, intsrc)
            else if i =? 2 then (m, intsrc - sizeof mpt_intsrc)
            else (m, intsrc)
          else (m, intsrc) in
        isa_irq_loop n (i + 1) isabusid ioapic_id mask c m (intsrc + sizeof mpt_intsrc)
  end.

Definition put_config (m : memory) (config : Z) : memory :=
  let p f := config + offsetof mptable_config_s f in
  let m := memset m config 0 44 in
  let m := writel m (p "signature") MPCONFIG_SIGNATURE in
  let m := writeb m (p "spec") 4 in
  let m := store_bytes m (p "oemid") CONFIG_CPUNAME8 in
  let m := store_bytes m (p "productid") (codes "0.1         ") in
  writel m (p "lapic") BUILD_APIC_ADDR.

Definition put_ioapic (m : memory) (ioapic ioapic_id : Z) : memory :=
  let q f := ioapic + offsetof mpt_ioapic f in
  let m := memset m ioapic 0 8 in
  let m := writeb m (q "type") MPT_TYPE_IOAPIC in
  let m := writeb m (q "apicid") ioapic_id in
  let m := writeb m (q "apicver") 0x11 in
  let m := writeb m (q "flags") 1 in
  writel m (q "apicaddr") BUILD_IOAPIC_ADDR.

(** Everything in the temporary block: memory and the length. *)
Definition build_config (c : qemu_cfg) (m : memory) (config : Z) : option (memory * Z) :=
  let p f := config + offsetof mptable_config_s f in
  let m := put_config m config in
  let '(sig, feat, pkgcpus) := cpu_info in
  let cpus := config + sizeof mptable_config_s in
  '(m, cpu) ← cpu_loop (Z.to_nat MaxCountCPUs) 0 pkgcpus sig feat m cpus;
  let entrycount := (cpu - cpus) / sizeof mpt_cpu in
  '(bdfs, _) ← foreachpci d;
  let '(m, bus, entrycount, lastbus) := bus_loop bdfs (-1) entrycount m cpu in
  let m := put_bus m bus (lastbus + 1) (codes "ISA   ") in
  let isabusid := u8 (lastbus + 1) in
  let entrycount := entrycount + 1 in
  let ioapic_id := u8 CountCPUs in
  let ioapic := bus + sizeof mpt_bus in
  let m := put_ioapic m ioapic ioapic_id in
  let entrycount := entrycount + 1 in
  let intsrcs := ioapic + sizeof mpt_ioapic in
  let '(m, intsrc, mask) := pci_irq_loop bdfs ioapic_id (-1) 0 0 m intsrcs in
  let '(m, intsrc) := isa_irq_loop 16 0 isabusid ioapic_id mask c m intsrc in
  let entrycount := entrycount + (intsrc - intsrcs) / sizeof mpt_intsrc in
  let m := put_intsrc m intsrc MPT_TYPE_LOCAL_INT 3 0 isabusid 0 0 0 in
  let intsrc := intsrc + sizeof mpt_intsrc in
  let m := put_intsrc m intsrc MPT_TYPE_LOCAL_INT 1 0 isabusid 0 0 1 in
  let intsrc := intsrc + sizeof mpt_intsrc in
  let entrycount := entrycount + 2 in
  let length := intsrc - config in
  let m := writew m (p "entrycount") entrycount in
  let m := writew m (p "length") length in
  let m := writeb m (p "checksum") (u8 (m (p "checksum") - checksum m config length)) in
  Some (m, length).

Definition fill_floating (m : memory) (floating finalconfig : Z) : memory :=
  let p f := floating + offsetof mptable_floating_s f in
  let m := memset m floating 0 16 in
  let m := writel m (p "signature") MPTABLE_SIGNATURE in
  let m := writel m (p "physaddr") finalconfig in
  let m := writeb m (p "length") 1 in
  let m := writeb m (p "spec_rev") 4 in
  writeb m (p "checksum") (u8 (m (p "checksum") - checksum m floating 16)).

Definition mptable_init (s : pmm) (c : qemu_cfg) : option pmm :=
  let '(s, config) := malloc_tmphigh s (32 * 1024) in
  if config =? 0 then Some s
  else
    '(m, length) ← build_config c (pmem s) config;
    let s := set_pmem s m in
    let '(s, finalconfig) := malloc_fseg s length in
    let '(s, floating) := malloc_fseg s (sizeof mptable_floating_s) in
    if (finalconfig =? 0) || (floating =? 0) then Some (free (free (free s config) finalconfig) floating)
    else
      let m := memcpy (pmem s) finalconfig config length in
      let s := free (set_pmem s m) config in
      Some (set_pmem s (fill_floating (pmem s) floating finalconfig)).
End MpTable.

(** ** What a reader finds *)

(** The entries from [a] on, as their bytes, and where they end; [None] at an entry of an
    unknown type. *)
Fixpoint mp_walk (n : nat) (m : memory) (a : Z) : option (list (list Z) * Z) :=
  match n with
  | O => Some ([], a)
  | S n =>
      let size := if m a =? MPT_TYPE_CPU then 20 else 8 in
      if MPT_TYPE_LOCAL_INT <? m a then None
      else
        '(l, e) ← mp_walk n m (a + size);
        Some (map (fun i => m (a + Z.of_nat i)) (seq 0 (Z.to_nat size)) :: l, e)
  end.

(** A 32-bit number as it is stored. *)
Definition le32 (v : Z) : list Z := [u8 v; u8 (Z.shiftr v 8); u8 (Z.shiftr v 16); u8 (Z.shiftr (Z.shiftr v 16) 8)].

Definition intsrc_entry (type irqtype irqflag srcbus srcbusirq dstapic dstirq : Z) : list Z :=
  [u8 type; u8 irqtype; u8 irqflag; u8 (Z.shiftr irqflag 8); u8 srcbus; u8 srcbusirq; u8 dstapic; u8 dstirq].
Definition bus_entry (busid : Z) (bustype : list Z) : list Z := [MPT_TYPE_BUS; u8 busid] ++ bustype.

Definition ioapic_entry (id : Z) : list Z := [MPT_TYPE_IOAPIC; u8 id; 0x11; 1] ++ le32 BUILD_IOAPIC_ADDR.

Section Entries.
Context {D : Type} `{PciConfig D} (d : D).
Context (cpuid_1 : Z * Z * Z) (apic_version_reg : Z) (CountCPUs MaxCountCPUs : Z) (override : bool).

Definition cpu_entry (i : Z) : list Z :=
  let '(sig, feat, _) := cpu_info cpuid_1 in
  [MPT_TYPE_CPU; u8 i; u8 (apic_version apic_version_reg); Z.b2z (i <? CountCPUs) + 2 * Z.b2z (i =? 0)] ++
  le32 sig ++ le32 feat ++ replicate 8 0.

(** The first logical processor of each package. *)
Definition packages : list Z :=
  let '(_, _, pkgcpus) := cpu_info cpuid_1 in
  map (fun k => Z.of_nat k * pkgcpus) (seq 0 (Z.to_nat ((MaxCountCPUs + pkgcpus - 1) / pkgcpus))).

(** The buses of the functions, each once. *)
Fixpoint buses (bdfs : list Z) (lastbus : Z) : list Z :=
  match bdfs with
  | [] => []
  | bdf :: bdfs =>
      let b := pci_bdf_to_bus bdf in if b =? lastbus then buses bdfs lastbus else b :: buses bdfs b
  end.

(** The functions that get an entry: the first of a device with its pin. *)
Fixpoint wired (bdfs : list Z) (dev pinmask : Z) : list Z :=
  match bdfs with
  | [] => []
  | bdf :: bdfs =>
      let pin := pci_config_readb d bdf PCI_INTERRUPT_PIN in
      if pin =? 0 then wired bdfs dev pinmask
      else
        let pinmask := if pci_bdf_to_busdev bdf =? dev then pinmask else 0 in
        if Z.testbit pinmask pin then wired bdfs (pci_bdf_to_busdev bdf) pinmask
        else bdf :: wired bdfs (pci_bdf_to_busdev bdf) (u16 (Z.lor pinmask (Z.shiftl 1 pin)))
  end.
Definition line (bdf : Z) : Z := pci_config_readb d bdf PCI_INTERRUPT_LINE.
Definition pci_entry (bdf : Z) : list Z :=
  intsrc_entry MPT_TYPE_INTSRC 0 1 (pci_bdf_to_bus bdf)
    (Z.lor (Z.shiftl (pci_bdf_to_dev bdf) 2) (pci_config_readb d bdf PCI_INTERRUPT_PIN - 1)) (u8 CountCPUs) (line bdf).

(** The old lines that no function uses; with the override line 0 goes to input 2, and
    line 2 is left out. *)
Definition isa_lines (used : list Z) (i : Z) (n : nat) : list Z :=
  filter (fun i => ~ (i ∈ used) /\ ~ (override = true /\ i = 2)) (map (fun k => i + Z.of_nat k) (seq 0 n)).
Definition isa_entry (isabus i : Z) : list Z :=
  intsrc_entry MPT_TYPE_INTSRC 0 0 isabus i (u8 CountCPUs) (if override && (i =? 0) then 2 else i).

Definition mp_entries (bdfs : list Z) : list (list Z) :=
  let lastbus := List.last (buses bdfs (-1)) (-1) in
  let isabus := u8 (lastbus + 1) in
  map cpu_entry packages ++ map (fun b => bus_entry b (codes "PCI   ")) (buses bdfs (-1)) ++
  [bus_entry (lastbus + 1) (codes "ISA   "); ioapic_entry (u8 CountCPUs)] ++
  map pci_entry (wired bdfs (-1) 0) ++ map (isa_entry isabus) (isa_lines (map line (wired bdfs (-1) 0)) 0 16) ++
  [intsrc_entry MPT_TYPE_LOCAL_INT 3 0 isabus 0 0 0; intsrc_entry MPT_TYPE_LOCAL_INT 1 0 isabus 0 0 1].
End Entries.

(** ** Emitting entries *)

(** From [base] memory holds the entries [es], up to [pos]; what is behind may be cleared
    for [slack] bytes, and the rest is as in [m0]. *)
Record emitted (m0 : memory) (base : Z) (es : list (list Z)) (slack : Z) (m : memory) (pos : Z) : Prop := {
  em_bytes : bytes m;
  em_holds : holds m base (concat es);
  em_pos : pos = base + Z.of_nat (length (concat es));
  em_frame : forall x, ~ base <= x < pos + slack -> m x = m0 x }.

Lemma emitted_snoc m0 base es slack m pos e m' :
  emitted m0 base es slack m pos -> slack <= Z.of_nat (length e) -> bytes m' -> holds m' pos e ->
  (forall x, ~ pos <= x < pos + Z.of_nat (length e) -> m' x = m x) ->
  emitted m0 base (es ++ [e]) 0 m' (pos + Z.of_nat (length e)).
Proof.
  intros [] Hs Hb He Hx. split; [done|..].
  - rewrite concat_app. cbn [concat]. rewrite app_nil_r. apply holds_app. split.
    + eapply holds_ext; [|done]. intros x Hr. apply Hx. lia.
    + by rewrite <- em_pos0.
  - rewrite concat_app, length_app. cbn [concat]. rewrite app_nil_r. lia.
  - intros x Hr. rewrite Hx by lia. apply em_frame0. lia.
Qed.

Lemma memset_in m a v n x : a <= x < a + Z.of_nat n -> memset m a v n x = u8 v.
Proof. rewrite memset_spec. addr_cases; done || lia. Qed.

(** A byte behind a chain of stores. *)
Ltac byte := unfold writel, writew; repeat first
  [ rewrite writeb_at by lia | rewrite writeb_other by lia | rewrite memset_in by lia | rewrite memset_other by lia ].
Tactic Notation "bytewise" integer(n) := intros k v Hk; do n (destruct k as [|k]; [injection Hk as <-; byte; try reflexivity|]); done.

Lemma put_intsrc_spec m a t it fl sb si da di : bytes m ->
  let m' := put_intsrc m a t it fl sb si da di in
  bytes m' /\ holds m' a (intsrc_entry t it fl sb si da di) /\ forall x, ~ a <= x < a + 8 -> m' x = m x.
Proof.
  intros Hm m'. subst m'. unfold put_intsrc. offsets. split_and!.
  - auto 20 with tables.
  - bytewise 8.
  - intros x Hx. by far.
Qed.

Lemma put_bus_spec m a id name : bytes m -> length name = 6%nat -> Forall (in_u 8) name ->
  let m' := put_bus m a id name in
  bytes m' /\ holds m' a (bus_entry id name) /\ forall x, ~ a <= x < a + 8 -> m' x = m x.
Proof.
  intros Hm Hl Hn m'. subst m'. unfold put_bus. offsets. split_and!.
  - auto 20 with tables.
  - apply holds_app. split; [|by apply holds_store].
    intros k v Hk. rewrite store_bytes_other by (apply lookup_lt_Some in Hk; cbn in Hk; lia). revert k v Hk. bytewise 2.
  - intros x Hx. rewrite store_bytes_other by lia. by far.
Qed.

Lemma put_ioapic_spec m a id : bytes m -> let m' := put_ioapic m a id in
  bytes m' /\ holds m' a (ioapic_entry id) /\ forall x, ~ a <= x < a + 8 -> m' x = m x.
Proof.
  intros Hm m'. subst m'. unfold put_ioapic. offsets. split_and!.
  - auto 20 with tables.
  - bytewise 8.
  - intros x Hx. by far.
Qed.

Section Loops.
Context {D : Type} `{PciConfig D} (d : D).
Context (cpuid_1 : Z * Z * Z) (apic_version_reg : Z) (CountCPUs MaxCountCPUs : Z) (qemu_cfg_present : bool).
Context (m0 : memory) (base : Z).

Lemma cpu_loop_emitted n fuel i sig feat pkgcpus es m pos :
  cpu_info cpuid_1 = (sig, feat, pkgcpus) -> emitted m0 base es 0 m pos -> (n <= fuel)%nat ->
  (forall k, (k < n)%nat <-> i + Z.of_nat k * pkgcpus < MaxCountCPUs) ->
  exists m', cpu_loop apic_version_reg CountCPUs MaxCountCPUs fuel i pkgcpus sig feat m pos =
      Some (m', pos + 20 * Z.of_nat n) /\
    emitted m0 base (es ++ map (fun k => cpu_entry cpuid_1 apic_version_reg CountCPUs (i + Z.of_nat k * pkgcpus)) (seq 0 n)) 0
      m' (pos + 20 * Z.of_nat n).
Proof using.
  intros Hi. revert fuel i es m pos. induction n as [|n IH]; intros fuel i es m pos Hm Hf Hn.
  - exists m. assert (MaxCountCPUs <=? i = true) as E.
    { destruct (Z.leb_spec MaxCountCPUs i); [done|]. exfalso. apply (Nat.nlt_0_r 0), Hn. lia. }
    rewrite Z.add_0_r, app_nil_r. by destruct fuel; cbn [cpu_loop]; rewrite E.
  - destruct fuel as [|fuel]; [lia|]. cbn [cpu_loop].
    assert (MaxCountCPUs <=? i = false) as -> by (apply Z.leb_gt; destruct (Hn 0%nat) as [H0 _]; lia).
    set (m' := writel _ (pos + offsetof mpt_cpu "featureflag") _).
    change (sizeof mpt_cpu) with 20.
    assert (Hm' : emitted m0 base (es ++ [cpu_entry cpuid_1 apic_version_reg CountCPUs i]) 0 m' (pos + 20)).
    { pose proof (em_bytes _ _ _ _ _ _ Hm) as Hb.
      assert (length (cpu_entry cpuid_1 apic_version_reg CountCPUs i) = 20%nat) as El
        by (unfold cpu_entry; by rewrite Hi).
      pose proof (emitted_snoc m0 base es 0 m pos (cpu_entry cpuid_1 apic_version_reg CountCPUs i) m' Hm) as Hs.
      rewrite El in Hs. apply Hs; [lia|subst m'; auto 20 with tables| |subst m'; offsets; intros x Hx; by far].
      unfold cpu_entry. rewrite Hi. subst m'. offsets.
      destruct (i <? CountCPUs), (i =? 0); bytewise 20. }
    clearbody m'. destruct (IH fuel (i + pkgcpus) _ _ _ Hm') as (m2 & -> & H2); [lia| |].
    { intros k. specialize (Hn (S k)). lia. }
    exists m2. replace (pos + 20 + 20 * Z.of_nat n) with (pos + 20 * Z.of_nat (S n)) in * by lia. split; [done|].
    rewrite <- app_assoc in H2. replace (map _ (seq 0 (S n))) with ([cpu_entry cpuid_1 apic_version_reg CountCPUs i] ++
      map (fun k => cpu_entry cpuid_1 apic_version_reg CountCPUs (i + pkgcpus + Z.of_nat k * pkgcpus)) (seq 0 n)); [done|].
    cbn [seq map app]. f_equal; [f_equal; lia|]. rewrite <- seq_shift, map_map. apply map_ext. intros k. f_equal. lia.
Qed.

Lemma bus_loop_emitted bdfs lastbus n es m pos : emitted m0 base es 0 m pos ->
  let l := buses bdfs lastbus in
  exists m', bus_loop bdfs lastbus n m pos = (m', pos + 8 * Z.of_nat (length l), n + Z.of_nat (length l), List.last l lastbus) /\
    emitted m0 base (es ++ map (fun b => bus_entry b (codes "PCI   ")) l) 0 m' (pos + 8 * Z.of_nat (length l)).
Proof using.
  revert lastbus n es m pos. induction bdfs as [|bdf bdfs IH]; intros lastbus n es m pos Hm l; subst l; cbn [bus_loop buses].
  { exists m. cbn. by rewrite !Z.add_0_r, app_nil_r. }
  destruct (pci_bdf_to_bus bdf =? lastbus); [by apply IH|]. set (b := pci_bdf_to_bus bdf). change (sizeof mpt_bus) with 8.
  destruct (put_bus_spec m pos b (codes "PCI   ")) as (Hb & Hh & Hx); [apply Hm|done|by repeat constructor|].
  pose proof (emitted_snoc _ _ _ _ _ _ (bus_entry b (codes "PCI   ")) _ Hm ltac:(cbn; lia) Hb Hh Hx) as H1.
  change (Z.of_nat (length (bus_entry b _))) with 8 in H1.
  destruct (IH b (n + 1) _ _ _ H1) as (m' & -> & H2). exists m'. cbn [length map]. rewrite <- app_assoc in H2.
  replace (pos + 8 * Z.of_nat (S (length (buses bdfs b)))) with (pos + 8 + 8 * Z.of_nat (length (buses bdfs b))) by lia.
  replace (n + Z.of_nat (S (length (buses bdfs b)))) with (n + 1 + Z.of_nat (length (buses bdfs b))) by lia.
  split; [|done]. f_equal. symmetry. apply last_cons.
Qed.

Lemma land_bit x n : 0 <= n -> negb (Z.land x (Z.shiftl 1 n) =? 0) = Z.testbit x n.
Proof using.
  intros Hn. rewrite Z.shiftl_1_l. destruct (Z.testbit x n) eqn:E.
  - apply negb_true_iff, Z.eqb_neq. intros H0. apply (f_equal (fun v => Z.testbit v n)) in H0.
    by rewrite Z.land_spec, E, Z.pow2_bits_true, Z.bits_0 in H0 by lia.
  - apply negb_false_iff, Z.eqb_eq. apply Z.bits_inj'. intros k Hk. rewrite Z.land_spec, Z.bits_0.
    destruct (Z.eq_dec n k) as [<-|]; [by rewrite E|]. by rewrite Z.pow2_bits_false, andb_false_r by lia.
Qed.

Definition mask_of (mask : Z) (lines : list Z) : Z := foldl (fun v i => u16 (Z.lor v (Z.shiftl 1 i))) mask lines.

Lemma readb_range bdf a : in_u 8 (pci_config_readb d bdf a).
Proof using. apply wrap_range. lia. Qed.

Lemma emitted_clear es slack m pos : emitted m0 base es slack m pos -> slack <= 8 -> emitted m0 base es 8 (memset m pos 0 8) pos.
Proof using.
  intros [] Hs. split; [auto with tables| |done|].
  - eapply holds_ext; [|done]. intros x Hx. apply memset_other. lia.
  - intros x Hx. rewrite memset_other by lia. apply em_frame0. lia.
Qed.

Lemma emitted_intsrc es slack m pos t it fl sb si da di : emitted m0 base es slack m pos -> slack <= 8 ->
  emitted m0 base (es ++ [intsrc_entry t it fl sb si da di]) 0 (put_intsrc m pos t it fl sb si da di) (pos + 8).
Proof using.
  intros Hm Hs. destruct (put_intsrc_spec m pos t it fl sb si da di) as (Hb & Hh & Hx); [apply Hm|].
  exact (emitted_snoc _ _ _ _ _ _ (intsrc_entry t it fl sb si da di) _ Hm Hs Hb Hh Hx).
Qed.

(** The same with another destination in the end. *)
Lemma emitted_intsrc_to es slack m pos t it fl sb si da di di' : emitted m0 base es slack m pos -> slack <= 8 ->
  emitted m0 base (es ++ [intsrc_entry t it fl sb si da di']) 0
    (writeb (put_intsrc m pos t it fl sb si da di) (pos + offsetof mpt_intsrc "dstirq") di') (pos + 8).
Proof using.
  intros Hm Hs. destruct (put_intsrc_spec m pos t it fl sb si da di) as (Hb & Hh & Hx); [apply Hm|].
  apply (emitted_snoc _ _ _ _ _ _ (intsrc_entry t it fl sb si da di') _ Hm Hs); [auto with tables| |].
  - offsets. intros k v Hk. destruct (decide (k = 7%nat)) as [->|].
    + injection Hk as <-. by rewrite writeb_at by lia.
    + rewrite writeb_other by lia. apply Hh. do 7 (destruct k as [|k]; [done|]). destruct k; done.
  - offsets. cbn [length intsrc_entry]. intros x Hr. rewrite writeb_other by lia. apply Hx. lia.
Qed.

Lemma pci_irq_loop_emitted bdfs dev mask pinmask es m pos : emitted m0 base es 0 m pos ->
  let l := wired d bdfs dev pinmask in
  exists m', pci_irq_loop d bdfs (u8 CountCPUs) dev mask pinmask m pos =
      (m', pos + 8 * Z.of_nat (length l), mask_of mask (map (line d) l)) /\
    emitted m0 base (es ++ map (pci_entry d CountCPUs) l) 0 m' (pos + 8 * Z.of_nat (length l)).
Proof using.
  intros Hm l. subst l. revert dev mask pinmask es m pos Hm.
  induction bdfs as [|bdf bdfs IH]; intros dev mask pinmask es m pos Hm; cbn [pci_irq_loop wired].
  { exists m. cbn. by rewrite Z.add_0_r, app_nil_r. }
  set (pin := pci_config_readb d bdf PCI_INTERRUPT_PIN). pose proof (readb_range bdf PCI_INTERRUPT_PIN) as Hpin. fold pin in Hpin.
  destruct (pin =? 0); [by apply IH|]. rewrite (Z.eqb_sym dev).
  assert ((if negb (pci_bdf_to_busdev bdf =? dev) then (pci_bdf_to_busdev bdf, 0) else (dev, pinmask)) =
    (pci_bdf_to_busdev bdf, if pci_bdf_to_busdev bdf =? dev then pinmask else 0)) as ->.
  { destruct (Z.eqb_spec (pci_bdf_to_busdev bdf) dev) as [<-|]; done. }
  set (pm := if pci_bdf_to_busdev bdf =? dev then pinmask else 0). rewrite land_bit by apply Hpin.
  destruct (Z.testbit pm pin); [by apply IH|]. change (sizeof mpt_intsrc) with 8.
  pose proof (emitted_clear _ _ _ _ Hm ltac:(lia)) as H1.
  apply (emitted_intsrc _ _ _ _ MPT_TYPE_INTSRC 0 1 (pci_bdf_to_bus bdf)
    (Z.lor (Z.shiftl (pci_bdf_to_dev bdf) 2) (pin - 1)) (u8 CountCPUs) (line d bdf)) in H1; [|lia].
  edestruct IH as (m' & E & H2); [exact H1|]. unfold line in E at 1. rewrite E. exists m'.
  cbn [length map]. rewrite <- app_assoc in H2.
  match goal with |- context [wired d bdfs ?a ?b] => set (l := wired d bdfs a b) in * end.
  replace (pos + 8 * Z.of_nat (S (length l))) with (pos + 8 + 8 * Z.of_nat (length l)) by lia. done.
Qed.

Lemma mask_of_bit lines mask i : 0 <= i < 16 -> Forall (in_u 8) lines ->
  Z.testbit (mask_of mask lines) i = Z.testbit mask i || bool_decide (i ∈ lines).
Proof using.
  intros Hi Hl. revert mask. induction Hl as [|x lines Hx _ IH]; intros mask; cbn [mask_of foldl].
  { rewrite bool_decide_false by (by intros ?%elem_of_nil). by rewrite orb_false_r. }
  fold (mask_of (u16 (Z.lor mask (Z.shiftl 1 x))) lines). rewrite IH. unfold wrap. rewrite Z.mod_pow2_bits_low by lia.
  rewrite Z.lor_spec, Z.shiftl_1_l, <- orb_assoc. f_equal. destruct (Z.eq_dec i x) as [->|Hne].
  - rewrite Z.pow2_bits_true by apply Hx. by rewrite (bool_decide_true (x ∈ x :: lines)) by (by left).
  - rewrite Z.pow2_bits_false by lia. cbn [orb]. apply bool_decide_ext. rewrite elem_of_cons. naive_solver.
Qed.

Context (its : Z -> list Z).
Definition override_value : Z := if qemu_cfg_present then le (resize 1 0 (its QEMU_CFG_IRQ0_OVERRIDE)) else 0.
Definition overridden : bool := negb (override_value =? 0).

Lemma override_read c : cfg_items c = its ->
  exists c', qemu_cfg_irq0_override qemu_cfg_present c = (override_value, c') /\ cfg_items c' = its.
Proof using.
  unfold qemu_cfg_irq0_override, read_number, override_value. intros <-. destruct qemu_cfg_present; cbn [negb].
  - unfold qemu_cfg_read_entry, qemu_cfg_select, qemu_cfg_read. cbn [cfg_rest cfg_items]. by eexists.
  - by eexists.
Qed.

Lemma isa_irq_loop_emitted (used : list Z) n i isabus mask c es slack m pos : emitted m0 base es slack m pos -> slack <= 8 ->
  cfg_items c = its -> 0 <= i -> i + Z.of_nat n <= 16 ->
  (forall k, 0 <= k < 16 -> Z.testbit mask k = bool_decide (k ∈ used)) ->
  let l := isa_lines overridden used i n in
  exists m', isa_irq_loop qemu_cfg_present n i isabus (u8 CountCPUs) mask c m pos = (m', pos + 8 * Z.of_nat (length l)) /\
    emitted m0 base (es ++ map (isa_entry CountCPUs overridden isabus) l) 8 m' (pos + 8 * Z.of_nat (length l)).
Proof using.
  intros Hm Hs Hc H0 Hn Hmask l. subst l. revert i c es slack m pos Hm Hs Hc H0 Hn.
  induction n as [|n IH]; intros i c es slack m pos Hm Hs Hc H0 Hn; cbn [isa_irq_loop].
  { exists m. cbn. rewrite Z.add_0_r, app_nil_r. split; [done|]. destruct Hm as [?? -> Hf]. split; try done.
    intros x Hx. apply Hf. lia. }
  pose proof (emitted_clear _ _ _ _ Hm Hs) as H1. set (m1 := memset m pos 0 8) in *. clearbody m1. clear Hm.
  assert (isa_lines overridden used i (S n) = (if decide (~ (i ∈ used) /\ ~ (overridden = true /\ i = 2)) then [i] else []) ++
    isa_lines overridden used (i + 1) n) as ->.
  { unfold isa_lines. cbn [seq map]. rewrite Z.add_0_r, filter_cons, <- seq_shift, map_map.
    rewrite (map_ext (fun x => i + Z.of_nat (S x)) (fun k => i + 1 + Z.of_nat k)) by lia. by case_decide. }
  rewrite land_bit, Hmask by lia. destruct (bool_decide_reflect (i ∈ used)) as [Hu|Hu].
  { rewrite decide_False by naive_solver. destruct (IH (i + 1) c _ _ _ _ H1) as (m' & -> & ?); [lia|done|lia|lia|]. by exists m'. }
  destruct (override_read c Hc) as (c' & -> & Hc'). fold overridden. change (sizeof mpt_intsrc) with 8.
  pose proof (emitted_intsrc _ _ _ _ MPT_TYPE_INTSRC 0 0 isabus i (u8 CountCPUs) i H1 ltac:(lia)) as H2.
  assert (forall m2, emitted m0 base (es ++ [isa_entry CountCPUs overridden isabus i]) 0 m2 (pos + 8) ->
    ~ (overridden = true /\ i = 2) -> let l := i :: isa_lines overridden used (i + 1) n in exists m',
    isa_irq_loop qemu_cfg_present n (i + 1) isabus (u8 CountCPUs) mask c' m2 (pos + 8) = (m', pos + 8 * Z.of_nat (length l)) /\
    emitted m0 base (es ++ map (isa_entry CountCPUs overridden isabus) l) 8 m' (pos + 8 * Z.of_nat (length l))) as Hgo.
  { intros m2 Hm2 Hno. destruct (IH (i + 1) c' _ _ _ _ Hm2) as (m' & E & H3); [lia|done|lia|lia|].
    exists m'. rewrite E. rewrite <- app_assoc in H3. cbn [length map].
    set (k := length (isa_lines overridden used (i + 1) n)) in *.
    replace (pos + 8 * Z.of_nat (S k)) with (pos + 8 + 8 * Z.of_nat k) by lia. done. }
  unfold isa_entry in Hgo at 1. destruct overridden eqn:Eo; cbn [negb andb] in *.
  - destruct (Z.eqb_spec i 0) as [->|].
    { rewrite decide_True by (split; [done|lia]). apply Hgo; [|lia]. by apply (emitted_intsrc_to _ 8). }
    destruct (Z.eqb_spec i 2) as [->|].
    + rewrite decide_False by naive_solver. replace (pos - 8 + 8) with pos by lia.
      destruct (put_intsrc_spec m1 pos MPT_TYPE_INTSRC 0 0 isabus 2 (u8 CountCPUs) 2 (em_bytes _ _ _ _ _ _ H1)) as (Hb & _ & Hx).
      apply (IH (2 + 1) c' es 8); [|lia|done|lia|lia]. destruct H1. split; [done| |done|].
      * eapply holds_ext; [|done]. intros x Hr. apply Hx. lia.
      * intros x Hr. rewrite Hx by lia. apply em_frame0. lia.
    + rewrite decide_True by (split; [done|naive_solver]). apply Hgo; [done|naive_solver].
  - rewrite decide_True by (split; [done|naive_solver]). apply Hgo; [done|naive_solver].
Qed.
End Loops.

(** ** The whole table *)

(** A package has the next power of two of logical processors. *)
Lemma package_size n : 2 <= n < 256 -> let p := s32 (Z.shiftl 1 (fls (u32 (n - 1)) + 1)) in n <= p < 2 * n.
Proof.
  intros Hn. set (p := fun n => s32 (Z.shiftl 1 (fls (u32 (n - 1)) + 1))). change (n <= p n < 2 * n).
  assert (H : forallb (fun k => (k <=? p k) && (p k <? 2 * k)) (map Z.of_nat (seq 2 254)) = true) by (vm_compute; reflexivity).
  rewrite forallb_forall in H. specialize (H n). rewrite andb_true_iff, Z.leb_le, Z.ltb_lt in H. apply H.
  apply in_map_iff. exists (Z.to_nat n). split; [lia|]. apply in_seq. lia.
Qed.

Section Config.
Context {D : Type} `{PciConfig D} (d : D).
Context (cpuid_1 : Z * Z * Z) (apic_version_reg : Z) (CountCPUs MaxCountCPUs : Z) (qemu_cfg_present : bool).

(** Hyper-threading is announced with the number of logical processors. *)
Definition cpuid_ok : Prop :=
  let '(_, ebx, features) := cpuid_1 in Z.testbit features 28 = true -> 2 <= Z.land (Z.shiftr ebx 16) 0xff.

Lemma cpu_info_positive : cpuid_ok -> 0 < (cpu_info cpuid_1).2.
Proof using.
  unfold cpuid_ok, cpu_info. destruct cpuid_1 as [[sig ebx] feat]. intros Hok.
  destruct (sig =? 0); cbn [snd]; [done|]. destruct (Z.testbit feat 28); [|lia]. specialize (Hok eq_refl).
  pose proof (package_size (Z.land (Z.shiftr ebx 16) 0xff)) as Hp. revert Hok Hp. change 0xff with (Z.ones 8).
  rewrite Z.land_ones by lia. pose proof (Z.mod_pos_bound (Z.shiftr ebx 16) (2 ^ 8) ltac:(lia)). cbv zeta. lia.
Qed.

Lemma put_config_spec m config : bytes m -> let m1 := put_config m config in
  bytes m1 /\ readl m1 config = MPCONFIG_SIGNATURE /\ readl m1 (config + 36) = BUILD_APIC_ADDR /\
  forall x, ~ config <= x < config + 44 -> m1 x = m x.
Proof using.
  intros Hm m1. subst m1. unfold put_config. offsets. rewrite Z.add_0_r. split_and!.
  - auto 20 with tables.
  - etransitivity; [apply readl_ext; intros; far; reflexivity|apply readl_writel].
  - apply readl_writel.
  - intros x Hx. by far.
Qed.

Lemma packages_count n sig feat pkg : cpu_info cpuid_1 = (sig, feat, pkg) -> 0 < pkg -> 0 <= MaxCountCPUs ->
  n = Z.to_nat ((MaxCountCPUs + pkg - 1) / pkg) ->
  (n <= Z.to_nat MaxCountCPUs)%nat /\ (forall k, (k < n)%nat <-> 0 + Z.of_nat k * pkg < MaxCountCPUs) /\
  packages cpuid_1 MaxCountCPUs = map (fun k => 0 + Z.of_nat k * pkg) (seq 0 n).
Proof using.
  intros Hi Hp H0 ->. split_and!.
  - apply Z2Nat.inj_le; [apply Z.div_pos; lia|lia|].
    pose proof (Z.mul_div_le (MaxCountCPUs + pkg - 1) pkg Hp). nia.
  - intros k. assert (0 <= (MaxCountCPUs + pkg - 1) / pkg) by (apply Z.div_pos; lia).
    transitivity (Z.of_nat k < (MaxCountCPUs + pkg - 1) / pkg); [lia|].
    pose proof (Z.div_mod (MaxCountCPUs + pkg - 1) pkg ltac:(lia)). pose proof (Z.mod_pos_bound (MaxCountCPUs + pkg - 1) pkg Hp).
    split; intros; nia.
  - unfold packages. by rewrite Hi.
Qed.

Lemma entry_sizes (es : list (list Z)) n : Forall (fun e => length e = n) es -> length (concat es) = (n * length es)%nat.
Proof using. induction 1; cbn [concat length]; [lia|]. rewrite length_app. lia. Qed.

Lemma finish_config m config L cnt : bytes m -> holds m (config + 44) L ->
  let len := 44 + Z.of_nat (length L) in in_u 16 len -> in_u 16 cnt ->
  let m1 := writew (writew m (config + 34) cnt) (config + 4) len in
  let m' := writeb m1 (config + 7) (u8 (m1 (config + 7) - checksum m1 config len)) in
  bytes m' /\ holds m' (config + 44) L /\ readl m' config = readl m config /\ readl m' (config + 36) = readl m (config + 36) /\
  readw m' (config + 4) = len /\ readw m' (config + 34) = cnt /\ checksum m' config len = 0 /\
  forall x, ~ config <= x < config + 44 -> m' x = m x.
Proof using.
  intros Hm Hh len Hlen Hcnt m1 m'. assert (Hm1 : bytes m1) by (subst m1; auto with tables).
  destruct (checksum_fix m1 config len (config + 7) Hm1 ltac:(lia) ltac:(lia)) as [Hc Hx].
  assert (Hm' : bytes m') by (by apply bytes_writeb). fold m' in Hc, Hx. clearbody m'.
  assert (Hf : forall x, ~ config <= x < config + 44 -> m' x = m x).
  { intros x Hr. rewrite Hx by lia. subst m1. by far. }
  split_and!; try done.
  - eapply holds_ext; [|done]. intros x Hr. apply Hf. lia.
  - apply readl_ext. intros x Hr. rewrite Hx by lia. subst m1. by far.
  - apply readl_ext. intros x Hr. rewrite Hx by lia. subst m1. by far.
  - rewrite (readw_ext m1 m') by (apply Hx; lia). subst m1. rewrite readw_writew. by apply wrap_small.
  - rewrite (readw_ext m1 m') by (apply Hx; lia). subst m1. rewrite readw_writew_ne, readw_writew by lia. by apply wrap_small.
Qed.

Section Built.
Context (c : qemu_cfg) (m : memory) (config : Z) (bdfs : list Z) (M : Z).
Context (Hcpu : cpuid_ok) (Hmax : 0 <= MaxCountCPUs) (Hm : bytes m) (Hpci : foreachpci d = Some (bdfs, M)).
Let override := overridden qemu_cfg_present (cfg_items c).
Let es := mp_entries d cpuid_1 apic_version_reg CountCPUs MaxCountCPUs override bdfs.
Let len := 44 + Z.of_nat (length (concat es)).

Lemma build_config_spec : in_u 16 len -> in_u 16 (Z.of_nat (length es)) ->
  exists m', build_config d cpuid_1 apic_version_reg CountCPUs MaxCountCPUs qemu_cfg_present c m config = Some (m', len) /\
    bytes m' /\ holds m' (config + 44) (concat es) /\ readl m' config = MPCONFIG_SIGNATURE /\
    readl m' (config + 36) = BUILD_APIC_ADDR /\ readw m' (config + 4) = len /\
    readw m' (config + 34) = Z.of_nat (length es) /\ checksum m' config len = 0 /\
    forall x, ~ config <= x < config + len -> m' x = m x.
Proof using Hcpu Hmax Hm Hpci.
  intros Hlen Hcount. pose proof (cpu_info_positive Hcpu) as Hpkg. unfold build_config.
  destruct (put_config_spec m config Hm) as (Hb0 & Hsig & Hapic & Hx0). set (m0 := put_config m config) in *. clearbody m0.
  destruct (cpu_info cpuid_1) as [[sig feat] pkg] eqn:Ei. cbn [snd] in Hpkg.
  change (sizeof mptable_config_s) with 44. change (sizeof mpt_cpu) with 20. change (sizeof mpt_bus) with 8.
  change (sizeof mpt_ioapic) with 8. change (sizeof mpt_intsrc) with 8.
  assert (E0 : emitted m0 (config + 44) [] 0 m0 (config + 44)) by (split; [done|done|cbn; lia|done]).
  destruct (packages_count _ sig feat pkg Ei Hpkg Hmax eq_refl) as (Hn & Hk & Hp). set (n := Z.to_nat _) in *.
  destruct (cpu_loop_emitted cpuid_1 apic_version_reg CountCPUs MaxCountCPUs m0 _ n _ 0 sig feat pkg _ _ _ Ei E0 Hn Hk)
    as (m1 & -> & E1). cbn [mbind option_bind].
  rewrite Hpci. cbn [mbind option_bind].
  destruct (bus_loop_emitted m0 (config + 44) bdfs (-1) ((config + 44 + 20 * Z.of_nat n - (config + 44)) / 20) _ _ _ E1) as (m2 & -> & E2).
  set (lb := List.last (buses bdfs (-1)) (-1)) in *. set (p2 := config + 44 + _ + 8 * _) in *.
  destruct (put_bus_spec m2 p2 (lb + 1) (codes "ISA   ")) as (Hb3 & Hh3 & Hx3); [apply E2|done|by repeat constructor|].
  pose proof (emitted_snoc _ _ _ _ _ _ _ _ E2 ltac:(cbn; lia) Hb3 Hh3 Hx3) as E3.
  change (Z.of_nat (length (bus_entry (lb + 1) _))) with 8 in E3. set (m3 := put_bus _ _ _ _) in *. clearbody m3.
  destruct (put_ioapic_spec m3 (p2 + 8) (u8 CountCPUs) Hb3) as (Hb4 & Hh4 & Hx4).
  pose proof (emitted_snoc _ _ _ _ _ _ _ _ E3 ltac:(cbn; lia) Hb4 Hh4 Hx4) as E4.
  change (Z.of_nat (length (ioapic_entry _))) with 8 in E4. set (m4 := put_ioapic _ _ _) in *. clearbody m4.
  destruct (pci_irq_loop_emitted d CountCPUs m0 (config + 44) bdfs (-1) 0 0 _ _ _ E4) as (m5 & -> & E5).
  set (w := wired d bdfs (-1) 0) in *. set (p5 := p2 + 8 + 8 + 8 * Z.of_nat (length w)) in *.
  destruct (isa_irq_loop_emitted CountCPUs qemu_cfg_present m0 (config + 44) (cfg_items c) (map (line d) w) 16 0 (u8 (lb + 1))
    (mask_of 0 (map (line d) w)) c _ _ _ _ E5) as (m6 & -> & E6); [lia|done|lia|cbn; lia| |].
  { intros k Hr. rewrite mask_of_bit, Z.bits_0; [done|done|]. apply Forall_map, Forall_true. intros x. apply readb_range. }
  fold override in E6 |- *. set (il := isa_lines override _ 0 16) in *. set (p6 := p5 + 8 * Z.of_nat (length il)) in *.
  apply (emitted_intsrc _ _ _ _ _ _ MPT_TYPE_LOCAL_INT 3 0 (u8 (lb + 1)) 0 0 0) in E6; [|lia].
  apply (emitted_intsrc _ _ _ _ _ _ MPT_TYPE_LOCAL_INT 1 0 (u8 (lb + 1)) 0 0 1) in E6; [|lia].
  set (m7 := put_intsrc (put_intsrc _ _ _ _ _ _ _ _ _) _ _ _ _ _ _ _ _) in *. clearbody m7.
  match type of E6 with emitted _ _ ?l _ _ _ => assert (Hes : l = es) end.
  { unfold es, mp_entries. fold lb. rewrite Hp, map_map. fold w. fold il. rewrite <- !app_assoc. done. }
  rewrite Hes in E6. destruct E6 as [Hb7 Hh7 Hp7 Hx7].
  assert (Hcnt : (config + 44 + 20 * Z.of_nat n - (config + 44)) / 20 + Z.of_nat (length (buses bdfs (-1))) + 1 + 1 +
    (p6 - (p2 + 8 + 8)) / 8 + 2 = Z.of_nat (length es)).
  { replace (config + 44 + 20 * Z.of_nat n - (config + 44)) with (Z.of_nat n * 20) by lia.
    replace (p6 - (p2 + 8 + 8)) with (Z.of_nat (length w + length il) * 8) by (unfold p6, p5; lia).
    rewrite !Z.div_mul by lia. rewrite <- Hes. rewrite !length_app, !length_map, length_seq. cbn [length]. lia. }
  rewrite Hcnt. replace (p6 + 8 + 8 - config) with len by (unfold len; lia). offsets.
  destruct (finish_config m7 config (concat es) (Z.of_nat (length es)) Hb7 Hh7 Hlen Hcount) as (F1 & F2 & F3 & F4 & F5 & F6 & F7 & F8).
  fold len in F1, F2, F3, F4, F5, F6, F7, F8. eexists. split; [done|]. split_and!; try done.
  - rewrite F3, <- Hsig. apply readl_ext. intros x Hr. apply Hx7. lia.
  - rewrite F4, <- Hapic. apply readl_ext. intros x Hr. apply Hx7. lia.
  - intros x Hr. assert (0 <= Z.of_nat (length (concat es))) by lia. rewrite F8, Hx7, Hx0 by (unfold len in *; lia). done.
Qed.
End Built.
End Config.

(** ** What the operating system finds *)

Definition entry_ok (e : list Z) : Prop :=
  exists t r, e = t :: r /\ 0 <= t <= MPT_TYPE_LOCAL_INT /\ Z.of_nat (length e) = if t =? MPT_TYPE_CPU then 20 else 8.

Lemma holds_map m a l : holds m a l -> map (fun i => m (a + Z.of_nat i)) (seq 0 (length l)) = l.
Proof.
  intros H. apply list_eq. intros i. rewrite list_lookup_fmap. destruct (l !! i) as [v|] eqn:E.
  - pose proof (lookup_lt_Some _ _ _ E). rewrite lookup_seq_lt by done. cbn. f_equal. by apply H.
  - apply lookup_ge_None in E. by rewrite lookup_seq_ge.
Qed.

Lemma mp_walk_holds es m a : Forall entry_ok es -> holds m a (concat es) ->
  mp_walk (length es) m a = Some (es, a + Z.of_nat (length (concat es))).
Proof.
  intros Hes. revert a. induction Hes as [|e es (t & r & -> & Ht & Hl) _ IH]; intros a Hh; cbn [length mp_walk].
  { cbn. by rewrite Z.add_0_r. }
  cbn [concat] in Hh. apply holds_app in Hh as [He Hh]. pose proof (He 0%nat t eq_refl) as Ha. rewrite Z.add_0_r in Ha. rewrite Ha.
  rewrite (proj2 (Z.ltb_ge MPT_TYPE_LOCAL_INT t)) by lia.
  rewrite <- Hl, IH by done. cbn [mbind option_bind]. rewrite Nat2Z.id, holds_map by done.
  do 2 f_equal. cbn [concat]. rewrite length_app. lia.
Qed.

Lemma mp_entries_ok `{PciConfig D} (d : D) cpuid_1 ver count max override bdfs :
  Forall entry_ok (mp_entries d cpuid_1 ver count max override bdfs).
Proof.
  assert (HI : forall t a b c e f g, 0 < t <= 4 -> entry_ok (intsrc_entry t a b c e f g)).
  { intros t a b c e f g Ht. do 2 eexists. split; [done|]. rewrite (wrap_small 8) by (unfold in_u; lia).
    split; [unfold MPT_TYPE_LOCAL_INT; lia|]. cbn [length]. by rewrite (proj2 (Z.eqb_neq t MPT_TYPE_CPU)) by (unfold MPT_TYPE_CPU; lia). }
  unfold mp_entries. repeat (apply Forall_app; split).
  - apply Forall_map, Forall_true. intros i. unfold cpu_entry. destruct (cpu_info cpuid_1) as [[sig feat] pkg]. by do 2 eexists.
  - apply Forall_map, Forall_true. intros b. by do 2 eexists.
  - repeat constructor; by do 2 eexists.
  - apply Forall_map, Forall_true. intros b. by apply HI.
  - apply Forall_map, Forall_true. intros b. by apply HI.
  - repeat constructor; by apply HI.
Qed.

Lemma entries_space es : Forall entry_ok es -> 8 * Z.of_nat (length es) <= Z.of_nat (length (concat es)).
Proof.
  induction 1 as [|e es (t & r & _ & _ & Hl) _ IH]; cbn [concat length]; [lia|]. rewrite length_app.
  destruct (t =? MPT_TYPE_CPU); lia.
Qed.

Lemma fill_floating_spec m a final : bytes m -> in_u 32 final -> let m' := fill_floating m a final in
  readl m' a = MPTABLE_SIGNATURE /\ readl m' (a + 4) = final /\ checksum m' a 16 = 0 /\
  forall x, ~ a <= x < a + 16 -> m' x = m x.
Proof.
  intros Hm Hf m'. subst m'. unfold fill_floating. offsets. rewrite Z.add_0_r. set (m1 := writeb _ (a + 9) _).
  assert (Hm1 : bytes m1) by (subst m1; auto 20 with tables).
  assert (H0 : readl m1 a = MPTABLE_SIGNATURE).
  { etransitivity; [apply readl_ext; intros; subst m1; far; reflexivity|apply readl_writel]. }
  assert (H4 : readl m1 (a + 4) = u32 final).
  { etransitivity; [apply readl_ext; intros; subst m1; far; reflexivity|apply readl_writel]. }
  assert (Hx1 : forall x, ~ a <= x < a + 16 -> m1 x = m x) by (intros; subst m1; by far). clearbody m1.
  destruct (checksum_fix m1 a 16 (a + 10) Hm1 ltac:(lia) ltac:(lia)) as [Hc Hx]. split_and!; [..|done|].
  - rewrite <- H0. apply readl_ext. intros. apply Hx. lia.
  - rewrite wrap_small in H4 by done. etransitivity; [|exact H4]. apply readl_ext. intros. apply Hx. lia.
  - intros x Hr. rewrite Hx by lia. by apply Hx1.
Qed.

Lemma checksum_move m m' a b n : (forall i, 0 <= i < n -> m' (b + i) = m (a + i)) -> checksum m' b n = checksum m a n.
Proof.
  intros Hx. unfold checksum. assert (H : forall k i sum, 0 <= i -> i + Z.of_nat k <= Z.max 0 n ->
    checksum_from m' (b + i) k sum = checksum_from m (a + i) k sum).
  { induction k as [|k IH]; cbn [checksum_from]; intros i sum Hi Hk; [done|]. rewrite Hx by lia.
    rewrite <- !Z.add_assoc. apply IH; lia. }
  specialize (H (Z.to_nat n) 0 0). rewrite !Z.add_0_r in H. apply H; lia.
Qed.

Section Found.
Context {D : Type} `{PciConfig D} (d : D).
Context (cpuid_1 : Z * Z * Z) (apic_version_reg : Z) (CountCPUs MaxCountCPUs : Z) (qemu_cfg_present : bool).
Context (boot : pmm) (ops : list pmm_op) (m : memory) (c : qemu_cfg) (bdfs : list Z) (M : Z).

Definition mp_manager : pmm := set_pmem (pmm_run boot ops).1 m.
Definition mp_temporary : Z := (malloc_tmphigh mp_manager (32 * 1024)).2.
Definition mp_places (len : Z) : Z * Z :=
  let '(s, final) := malloc_fseg (malloc_tmphigh mp_manager (32 * 1024)).1 len in
  (final, (malloc_fseg s (sizeof mptable_floating_s)).2).

Record mp_pre : Prop := {
  mp_ready : pmm_ready boot;
  mp_ops : Forall op_ok ops;
  mp_bytes : bytes m;
  mp_cpuid : cpuid_ok cpuid_1;
  mp_cpus : 0 <= MaxCountCPUs;
  mp_pci : foreachpci d = Some (bdfs, M) }.

Definition listed_entries : list (list Z) :=
  mp_entries d cpuid_1 apic_version_reg CountCPUs MaxCountCPUs (overridden qemu_cfg_present (cfg_items c)) bdfs.

(** Memory after the call. *)
Lemma mptable_init_run m1 len :
  build_config d cpuid_1 apic_version_reg CountCPUs MaxCountCPUs qemu_cfg_present c m mp_temporary = Some (m1, len) ->
  exists s', mptable_init d cpuid_1 apic_version_reg CountCPUs MaxCountCPUs qemu_cfg_present mp_manager c = Some s' /\
  let '(final, floating) := mp_places len in
  mp_temporary <> 0 -> final <> 0 -> floating <> 0 ->
  pmem s' = fill_floating (memcpy m1 final mp_temporary len) floating final.
Proof using.
  unfold mptable_init, mp_places, mp_temporary. set (s := mp_manager) in *.
  assert (Hs : pmem (malloc_tmphigh s (32 * 1024)).1 = m).
  { subst s. unfold mp_manager, malloc_tmphigh. by rewrite pmm_malloc_pmem. }
  clearbody s. destruct (malloc_tmphigh s (32 * 1024)) as [s1 config]. cbn [fst snd] in *. subst m. intros Hb.
  destruct (Z.eqb_spec config 0) as [->|]; [exists s1; split; [done|]; by destruct (malloc_fseg _ _)|].
  rewrite Hb. cbn [mbind option_bind]. unfold malloc_fseg. rewrite pmm_malloc_pmem by done.
  destruct (pmm_malloc s1 [] ZoneFSeg _ len _) as [s2 final]. cbn [fst snd]. rewrite pmm_malloc_pmem by done.
  destruct (pmm_malloc s2 [] ZoneFSeg _ _ _) as [s3 floating]. cbn [fst snd].
  destruct (Z.eqb_spec final 0), (Z.eqb_spec floating 0); cbn [orb]; eexists; (split; [done|]); [done..|].
  intros _ _ _. unfold free. rewrite pmm_free_pmem. done.
Qed.

Lemma mp_blocks_apart len final floating : mp_pre -> 0 < len <= 0x8000 -> mp_places len = (final, floating) ->
  mp_temporary <> 0 -> final <> 0 -> floating <> 0 -> apart [(floating, 16); (final, len); (mp_temporary, 0x8000)].
Proof using.
  intros [] Hlen Hp Ht He Hf.
  pose proof (three_apart boot ops m ZoneTmpHigh (32 * 1024) ZoneFSeg len ZoneFSeg (sizeof mptable_floating_s)
    mp_ready0 mp_ops0 ltac:(done) ltac:(done) ltac:(done)) as H3.
  revert Hp Ht. unfold mp_temporary, mp_places, malloc_tmphigh, malloc_fseg. fold mp_manager in H3. cbv beta zeta in H3.
  destruct (pmm_malloc mp_manager [] ZoneTmpHigh _ _ _) as [s1 a1]. cbn [fst snd].
  destruct (pmm_malloc s1 [] ZoneFSeg _ _ _) as [s2 a2]. intros Hp Ht. simplify_eq.
  apply H3; try done; unfold fits in *; offsets; lia.
Qed.

(** C38.  An operating system finds the multiprocessor table: whatever has been allocated
    before, as long as the entries fit the temporary block and memory is left, the
    floating pointer has its signature, sums to zero and leads to a table with the
    length it says and a zero sum, and stepping through as many entries as it says
    finds, with every byte as given by [mp_entries], the processors, the buses, the
    interrupt controller and the interrupt lines, and ends at its end.  Nothing outside
    the three blocks has changed. *)
Theorem mptable_found : mp_pre -> let len := 44 + Z.of_nat (length (concat listed_entries)) in len <= 0x8000 ->
  exists s', mptable_init d cpuid_1 apic_version_reg CountCPUs MaxCountCPUs qemu_cfg_present mp_manager c = Some s' /\
  let '(final, floating) := mp_places len in let m' := pmem s' in
  mp_temporary <> 0 -> final <> 0 -> floating <> 0 ->
  readl m' floating = MPTABLE_SIGNATURE /\ checksum m' floating 16 = 0 /\ readl m' (floating + 4) = final /\
  readl m' final = MPCONFIG_SIGNATURE /\ readw m' (final + 4) = len /\ checksum m' final len = 0 /\
  mp_walk (Z.to_nat (readw m' (final + 34))) m' (final + 44) = Some (listed_entries, final + len) /\
  forall x, ~ mp_temporary <= x < mp_temporary + len -> ~ final <= x < final + len -> ~ floating <= x < floating + 16 ->
    m' x = m x.
Proof using.
  intros Hpre len Hlen. pose proof Hpre as []. set (es := listed_entries) in *.
  pose proof (mp_entries_ok d cpuid_1 apic_version_reg CountCPUs MaxCountCPUs (overridden qemu_cfg_present (cfg_items c)) bdfs) as Hok.
  fold listed_entries es in Hok. pose proof (entries_space _ Hok) as Hsp.
  destruct (build_config_spec d cpuid_1 apic_version_reg CountCPUs MaxCountCPUs qemu_cfg_present c m mp_temporary bdfs M
    mp_cpuid0 mp_cpus0 mp_bytes0 mp_pci0) as (m1 & Hb & Hb1 & Hh & Hsig & _ & Hln & Hcnt & Hck & Hx).
  { fold listed_entries es len. unfold in_u. lia. }
  { fold listed_entries es. unfold in_u. lia. }
  fold listed_entries es len in Hb, Hh, Hln, Hcnt, Hck, Hx.
  destruct (mptable_init_run m1 len Hb) as (s' & Hs' & Hm'). exists s'. split; [done|].
  destruct (mp_places len) as [final floating] eqn:Hpl. cbv zeta. intros Ht0 Hf0 Hfl0. specialize (Hm' Ht0 Hf0 Hfl0).
  destruct (mp_blocks_apart len final floating Hpre ltac:(lia) Hpl Ht0 Hf0 Hfl0) as [Hr Hd].
  pose proof (Hr final len ltac:(right; left)) as Hrf.
  pose proof (Hd 0%nat 1%nat _ _ _ _ eq_refl eq_refl ltac:(done)) as H01.
  pose proof (Hd 0%nat 2%nat _ _ _ _ eq_refl eq_refl ltac:(done)) as H02.
  pose proof (Hd 1%nat 2%nat _ _ _ _ eq_refl eq_refl ltac:(done)) as H12.
  set (m2 := memcpy m1 final mp_temporary len) in *.
  assert (Hm2 : forall x, m2 x = copied m1 final mp_temporary len x)
    by (intros; apply memcpy_spec; [done|lia|unfold forward_safe; lia]).
  assert (Hb2 : bytes m2) by (intros x; rewrite Hm2; unfold copied; case_test; apply Hb1).
  destruct (fill_floating_spec m2 floating final Hb2) as (F1 & F2 & F3 & F4); [unfold in_u; lia|].
  rewrite <- Hm' in F1, F2, F3, F4. clear Hm'.
  assert (Hcopy : forall i, 0 <= i < len -> pmem s' (final + i) = m1 (mp_temporary + i)).
  { intros i Hi. rewrite F4, Hm2 by lia. unfold copied. addr_cases; try lia. f_equal. lia. }
  assert (Hcw : forall i, 0 <= i -> i + 2 <= len -> readw (pmem s') (final + i) = readw m1 (mp_temporary + i)).
  { intros i H1 H2. unfold readw. rewrite <- !Z.add_assoc, !Hcopy by lia. done. }
  rewrite !Hcw by lia. rewrite Hln, Hcnt, Nat2Z.id. split_and!; try done.
  - rewrite <- Hsig. unfold readl. rewrite Hcw by lia. f_equal.
    rewrite <- (Z.add_0_r final), Hcw by lia. by rewrite Z.add_0_r.
  - rewrite <- Hck. by apply checksum_move.
  - rewrite mp_walk_holds; [do 2 f_equal; lia|done|]. intros i v Hi. pose proof (lookup_lt_Some _ _ _ Hi).
    rewrite <- Z.add_assoc, Hcopy, Z.add_assoc by lia. by apply Hh.
  - intros x H1 H2 H3. rewrite F4, Hm2 by lia. unfold copied. addr_cases; try lia; apply Hx; lia.
Qed.
End Found.

(** ** Where interrupts go *)

Section Routing.
Context {D : Type} `{PciConfig D} (d : D).
Context (cpuid_1 : Z * Z * Z) (apic_version_reg : Z) (CountCPUs MaxCountCPUs : Z) (override : bool).
Notation pin bdf := (pci_config_readb d bdf PCI_INTERRUPT_PIN).

Lemma wired_from bdfs dev pinmask seen :
  (forall p, Z.testbit pinmask p = true -> exists w, w ∈ seen /\ pci_bdf_to_busdev w = dev /\ pin w = p) ->
  forall b, b ∈ bdfs -> pin b <> 0 ->
  exists w, w ∈ seen ++ wired d bdfs dev pinmask /\ pci_bdf_to_busdev w = pci_bdf_to_busdev b /\ pin w = pin b.
Proof using.
  revert dev pinmask seen. induction bdfs as [|x bdfs IH]; intros dev pinmask seen Hs b; [by intros ?%elem_of_nil|].
  cbn [wired]. destruct (Z.eqb_spec (pin x) 0) as [E0|E0].
  { intros [->|Hb]%elem_of_cons Hp; [done|by apply IH]. }
  set (pm := if pci_bdf_to_busdev x =? dev then pinmask else 0).
  assert (Hpm : forall p, Z.testbit pm p = true -> exists w, w ∈ seen /\ pci_bdf_to_busdev w = pci_bdf_to_busdev x /\ pin w = p).
  { intros p. subst pm. destruct (Z.eqb_spec (pci_bdf_to_busdev x) dev) as [->|]; [apply Hs|by rewrite Z.bits_0]. }
  destruct (Z.testbit pm (pin x)) eqn:Et.
  - intros [->|Hb]%elem_of_cons Hp; [|by apply IH]. destruct (Hpm _ Et) as (w & Hw & ? & ?). exists w.
    split; [apply elem_of_app; by left|done].
  - change (seen ++ x :: ?l) with (seen ++ [x] ++ l). rewrite app_assoc. intros Hb Hp.
    destruct (decide (b = x)) as [->|Hne].
    { exists x. split; [|done]. apply elem_of_app. left. apply elem_of_app. right. by left. }
    apply IH; [|by apply elem_of_cons in Hb as [?|?]|done]. intros p Hbit.
    destruct (Z.eq_dec p (pin x)) as [->|Hpx]; [exists x; split; [|done]; apply elem_of_app; right; by left|].
    destruct (Z.le_gt_cases 0 p) as [Hp0|]; [|by rewrite Z.testbit_neg_r in Hbit].
    unfold wrap in Hbit. destruct (Z.le_gt_cases 16 p); [by rewrite Z.mod_pow2_bits_high in Hbit by lia|].
    rewrite Z.mod_pow2_bits_low, Z.lor_spec, Z.shiftl_1_l, Z.pow2_bits_false, orb_false_r in Hbit by lia.
    destruct (Hpm p Hbit) as (w & Hw & ?). exists w. split; [apply elem_of_app; by left|done].
Qed.

Lemma elem_of_buses bdfs last b : b ∈ buses bdfs last -> exists x, x ∈ bdfs /\ pci_bdf_to_bus x = b.
Proof using.
  revert last. induction bdfs as [|x bdfs IH]; intros last; cbn [buses]; [by intros ?%elem_of_nil|].
  destruct (_ =? last); [|intros [->|Hb]%elem_of_cons; [exists x; split; [by left|done]|]];
    [intros Hb|]; destruct (IH _ Hb) as (y & ? & ?); exists y; (split; [by right|done]).
Qed.

Lemma buses_of bdfs last x : x ∈ bdfs -> pci_bdf_to_bus x ∈ last :: buses bdfs last.
Proof using.
  revert last. induction bdfs as [|y bdfs IH]; intros last; [by intros ?%elem_of_nil|]. cbn [buses].
  intros [->|Hx]%elem_of_cons.
  - destruct (Z.eqb_spec (pci_bdf_to_bus y) last) as [->|]; [by left|right; by left].
  - destruct (pci_bdf_to_bus y =? last); [by apply IH|]. right. by apply IH.
Qed.

(** Every interrupt reaches the controller: a function with an interrupt pin has an entry
    that names its bus, device and pin, made by the first function of its device with
    that pin; each of the sixteen old lines is used by such a function or has an entry
    of the old bus, but for line 2 when line 0 takes its input; the buses named are
    those of the functions. *)
Theorem mp_routing bdfs : let es := mp_entries d cpuid_1 apic_version_reg CountCPUs MaxCountCPUs override bdfs in
  let lastbus := List.last (buses bdfs (-1)) (-1) in
  (forall b, b ∈ bdfs -> 0 < pin b -> exists w, w ∈ wired d bdfs (-1) 0 /\ pci_bdf_to_busdev w = pci_bdf_to_busdev b /\
     pin w = pin b /\ pci_entry d CountCPUs w ∈ es) /\
  (forall i, 0 <= i < 16 -> ~ (override = true /\ i = 2) ->
     (exists w, pci_entry d CountCPUs w ∈ es /\ line d w = i) \/ isa_entry CountCPUs override (u8 (lastbus + 1)) i ∈ es) /\
  (forall b, 0 <= b -> (b ∈ buses bdfs (-1) <-> exists x, x ∈ bdfs /\ pci_bdf_to_bus x = b)).
Proof using.
  cbv zeta. unfold mp_entries. split_and!.
  - intros b Hb Hp. destruct (wired_from bdfs (-1) 0 []) with b as (w & Hw & H1 & H2); [by intros; rewrite Z.bits_0 in *|done|lia|].
    exists w. split_and!; try done. rewrite !elem_of_app. do 3 right. left. by apply list_elem_of_fmap_2.
  - intros i Hi Hno. destruct (decide (i ∈ map (line d) (wired d bdfs (-1) 0))) as [Hu|Hu].
    + left. apply list_elem_of_fmap in Hu as (w & -> & Hw). exists w. split; [|done].
      rewrite !elem_of_app. do 3 right. left. by apply list_elem_of_fmap_2.
    + right. rewrite !elem_of_app. do 4 right. left. apply list_elem_of_fmap_2. apply list_elem_of_filter. split; [done|].
      apply list_elem_of_fmap. exists (Z.to_nat i). split; [lia|]. apply elem_of_seq. lia.
  - intros b Hb. split; [apply elem_of_buses|]. intros (x & Hx & <-). apply (buses_of _ (-1)) in Hx.
    apply elem_of_cons in Hx as [E|?]; [|done]. lia.
Qed.
End Routing.

(** ** Interrupt routing of the firmware: [pirtable.c] *)

Definition PIR_SIGNATURE : Z := 0x52495024.

(** [struct pir_slot]: the number of the device and the link of its first pin; each link
    can go to the lines of the bitmap. *)
Definition pir_slot (dev first slot_nr : Z) : list Z :=
  [0; Z.shiftl dev 3] ++ concat (map (fun k => [0x60 + (first + k) mod 4; 0xf8; 0xde]) [0; 1; 2; 3]) ++ [slot_nr; 0].

(** The table as it is compiled in, signature and checksum still zero. *)
Definition PIR_TABLE : list Z :=
  [0; 0; 0; 0; 0x00; 0x01; 128; 0; 0; 0x08; 0; 0; 0x86; 0x80; 0x2e; 0x12; 0; 0; 0; 0] ++ replicate 12 0 ++
  pir_slot 1 0 0 ++ pir_slot 2 1 1 ++ pir_slot 3 2 2 ++ pir_slot 4 3 3 ++ pir_slot 5 0 4 ++ pir_slot 6 1 5.

(** Memory and [PirOffset]. *)
Definition create_pirtable (m : memory) (pir : Z) : memory * Z :=
  let m := writel m (pir + offsetof pir_header "signature") PIR_SIGNATURE in
  let m := writeb m (pir + offsetof pir_header "checksum")
             (u8 (m (pir + offsetof pir_header "checksum") - checksum m pir (Z.of_nat (length PIR_TABLE)))) in
  (m, u16 (pir - BUILD_BIOS_ADDR)).

(** The finished table has its signature and a zero sum, and interrupt 0x1a finds its slots
    behind the header. *)
Theorem pirtable_valid m pir : bytes m -> holds m pir PIR_TABLE -> let m' := (create_pirtable m pir).1 in
  readl m' pir = PIR_SIGNATURE /\ readw m' (pir + offsetof pir_header "size") = Z.of_nat (length PIR_TABLE) /\
  checksum m' pir (Z.of_nat (length PIR_TABLE)) = 0 /\ holds m' (pir + pir_header_size) (drop 32 PIR_TABLE).
Proof.
  intros Hm Hh m'. subst m'. unfold create_pirtable. cbn [fst]. change (Z.of_nat (length PIR_TABLE)) with 128. offsets.
  rewrite Z.add_0_r. set (m1 := writel _ _ _). assert (Hm1 : bytes m1) by (subst m1; auto with tables).
  destruct (checksum_fix m1 pir 128 (pir + 31) Hm1 ltac:(lia) ltac:(lia)) as [Hc Hx]. split_and!; [..|done|].
  - etransitivity; [apply readl_ext; intros; apply Hx; lia|]. apply readl_writel.
  - rewrite (readw_ext m1) by (apply Hx; lia). unfold readw. subst m1. far.
    rewrite (Hh 6%nat 128 eq_refl : m (pir + 6) = 128).
    replace (pir + 6 + 1) with (pir + 7) by lia.
    by rewrite (Hh 7%nat 0 eq_refl : m (pir + 7) = 0).
  - change (pir_header_size) with (Z.of_nat (length (take 32 PIR_TABLE))).
    rewrite <- (take_drop 32 PIR_TABLE) in Hh. apply holds_app in Hh as [_ Hh]. eapply holds_ext; [|exact Hh].
    intros x Hr. change (Z.of_nat (length (take 32 PIR_TABLE))) with 32 in Hr. rewrite Hx by lia. subst m1. by far.
Qed.

(** ** Witness *)

(** A host bridge and two devices with interrupts 11 and 10. *)
#[local] Instance demo_bus : PciConfig (Z -> Z) := {
  cfg_in cmd port n d := Z.shiftr (d cmd) (8 * (port - PORT_PCI_DATA));
  cfg_out cmd port n v d := d }.
Definition demo_devices : Z -> Z := fun cmd =>
  let b := cmd / 256 mod 0x10000 in let r := cmd mod 256 in
  if r =? 0 then if b =? 0 then 0x12378086 else if b =? 8 then 0x70108086 else if b =? 0x10 then 0x00b81013 else 0
  else if r =? 0x3c then if b =? 8 then 0x10b else if b =? 0x10 then 0x10a else 0
  else 0.
Definition no_cfg : qemu_cfg := mk_qemu_cfg (fun _ => []) [].

Lemma demo_mp_pre : mp_pre demo_devices (0x663, 0, 0x1ff) 2 demo_pmm [] (fun _ => 0) [0; 8; 0x10] 0x100.
Proof.
  split; [apply demo_ready|constructor|by intros x|done|lia|vm_compute; reflexivity].
Qed.

Definition demo_entries : list (list Z) :=
  listed_entries demo_devices (0x663, 0, 0x1ff) 0x14 2 2 false no_cfg [0; 8; 0x10].

Lemma mptable_found_witness : exists s',
  mptable_init demo_devices (0x663, 0, 0x1ff) 0x14 2 2 false (mp_manager demo_pmm [] (fun _ => 0)) no_cfg = Some s' /\
  let m' := pmem s' in let '(final, floating) := mp_places demo_pmm [] (fun _ => 0) 252 in
  readl m' floating = MPTABLE_SIGNATURE /\ checksum m' final 252 = 0 /\
  mp_walk (Z.to_nat (readw m' (final + 34))) m' (final + 44) = Some (demo_entries, final + 252).
Proof.
  pose proof (mptable_found demo_devices (0x663, 0, 0x1ff) 0x14 2 2 false demo_pmm [] (fun _ => 0) no_cfg [0; 8; 0x10] 0x100 demo_mp_pre) as H.
  cbv zeta in H. fold demo_entries in H. replace (44 + Z.of_nat (length (concat demo_entries))) with 252 in H by (vm_compute; reflexivity).
  destruct H as (s' & Hs' & H); [lia|]. exists s'. split; [exact Hs'|]. cbv zeta.
  destruct (mp_places demo_pmm [] (fun _ => 0) 252) as [final floating] eqn:E.
  assert (Hp : (final, floating) = (1044224, 1044208)) by (rewrite <- E; vm_compute; reflexivity). clear E. injection Hp as -> ->.
  destruct H as (H1 & _ & _ & _ & _ & H6 & H7 & _); [vm_compute; congruence|lia|lia|]. split; [exact H1|]. split; [exact H6|exact H7].
Defined.
