(* ===== verification/Ata.v ===== *)
(** * ATA and ATAPI drives: [bios/seabios/src/ata.c], [blockcmd.c]

    The channel is a device of the class [PortDevice] whose data register is accessed 16 or
    32 bits at a time ([IdePorts]); a driver is a state transformer on memory and the
    device.  [CONFIG_ATA_DMA] and [CONFIG_ATA_PIO32], both off in [config.h], are
    arguments: the code is the same for every choice.  [None] is a wait that lasts longer
    than [fuel] looks, or a drive that is not there.  Debug output is left out; at the
    level configured it does not read the registers it would show. *)

From S2P Require Import Prelude BiosUtil Bregs Ports Clock Kbd Block Disk Output Paravirt Tables.
Local Open Scope Z_scope.
Local Open Scope coremu_scope.

(** ** Registers *)

Definition IDE_TIMEOUT : Z := 32000.
Definition ATA_CB_DATA : Z := 0.
Definition ATA_CB_ERR : Z := 1.
Definition ATA_CB_FR : Z := 1.
Definition ATA_CB_SC : Z := 2.
Definition ATA_CB_SN : Z := 3.
Definition ATA_CB_CL : Z := 4.
Definition ATA_CB_CH : Z := 5.
Definition ATA_CB_DH : Z := 6.
Definition ATA_CB_STAT : Z := 7.
Definition ATA_CB_CMD : Z := 7.
Definition ATA_CB_ASTAT : Z := 2.
Definition ATA_CB_STAT_BSY : Z := 0x80.
Definition ATA_CB_STAT_RDY : Z := 0x40.
Definition ATA_CB_STAT_DF : Z := 0x20.
Definition ATA_CB_STAT_DRQ : Z := 0x08.
Definition ATA_CB_STAT_ERR : Z := 0x01.
Definition ATA_CB_DC_HD15 : Z := 0x08.
Definition ATA_CB_DC_SRST : Z := 0x04.
Definition ATA_CB_DC_NIEN : Z := 0x02.
Definition ATA_CMD_READ_SECTORS : Z := 0x20.
Definition ATA_CMD_READ_SECTORS_EXT : Z := 0x24.
Definition ATA_CMD_READ_DMA_EXT : Z := 0x25.
Definition ATA_CMD_WRITE_SECTORS : Z := 0x30.
Definition ATA_CMD_WRITE_SECTORS_EXT : Z := 0x34.
Definition ATA_CMD_WRITE_DMA_EXT : Z := 0x35.
Definition ATA_CMD_PACKET : Z := 0xA0.
Definition ATA_CMD_IDENTIFY_PACKET_DEVICE : Z := 0xA1.
Definition ATA_CMD_READ_DMA : Z := 0xC8.
Definition ATA_CMD_WRITE_DMA : Z := 0xCA.
Definition ATA_CMD_IDENTIFY_DEVICE : Z := 0xEC.
Definition DISK_RET_EBADTRACK : Z := 0x0c.
Definition DISK_RET_ENOTREADY : Z := 0xAA.
Definition DISK_SECTOR_SIZE : Z := 512.
Definition CDROM_SECTOR_SIZE : Z := 2048.

Record ata_channel_s := mk_channel { iobase1 : Z; iobase2 : Z; iomaster : Z; irq : Z; chanid : Z; pci_bdf : Z }.

(** The channel is the object [chan_gf] points to; it never changes once set up. *)
Record atadrive_s := mk_atadrive { drive : drive_s; chan_gf : ata_channel_s; slave : bool }.

Record ata_pio_command := mk_command {
  feature : Z; sector_count : Z; lba_low : Z; lba_mid : Z; lba_high : Z; device : Z; cmd_command : Z;
  feature2 : Z; sector_count2 : Z; lba_low2 : Z; lba_mid2 : Z; lba_high2 : Z }.

(** Objects [op->drive_g] points into: [container_of] finds the ATA drive around one. *)
Inductive drive_object := AtaDrive (a : atadrive_s) | OtherDrive (d : drive_s).
Definition base_of (o : drive_object) : drive_s := match o with AtaDrive a => drive a | OtherDrive d => d end.

(** Wide accesses to a port, and the delays shorter and longer than [udelay]. *)
Class IdePorts (D : Type) := {
  port_inw : Z -> D -> Z * D;
  port_outw : Z -> Z -> D -> D;
  port_inl : Z -> D -> Z * D;
  port_outl : Z -> Z -> D -> D;
  port_ndelay : Z -> D -> D;
  port_msleep : Z -> D -> D }.

Section Ata.
Context {D : Type} `{PortDevice D} `{IdePorts D}.
Context (CONFIG_ATA_DMA CONFIG_ATA_PIO32 : bool) (fuel : nat) (cpu_khz : Z).
Context (heap : gmap Z drive_object).

Notation M A := (P (memory * D) A).

(** A register of a block of ports. *)
Definition reg (base off : Z) : Z := u16 (base + off).
Definition ports {A} (f : P D A) : M A := on_port (fun _ => f).

Definition inw (port : Z) : P D Z := fun d => let '(v, d) := port_inw port d in Some (u16 v, d).
Definition outw (v port : Z) : P D unit := fun d => Some (tt, port_outw (u16 v) port d).
Definition inl_ (port : Z) : P D Z := fun d => let '(v, d) := port_inl port d in Some (u32 v, d).
Definition outl (v port : Z) : P D unit := fun d => Some (tt, port_outl (u32 v) port d).
Definition ndelay (count : Z) : P D unit := fun d => Some (tt, port_ndelay count d).
Definition msleep (count : Z) : P D unit := fun d => Some (tt, port_msleep count d).

(** The string instructions. *)
Fixpoint insw (port data : Z) (count : nat) : M unit :=
  match count with
  | O => mret tt
  | S count => v ← ports (inw port); modify (fun m => writew m data v);; insw port (data + 2) count
  end.
Fixpoint insl (port data : Z) (count : nat) : M unit :=
  match count with
  | O => mret tt
  | S count => v ← ports (inl_ port); modify (fun m => writel m data v);; insl port (data + 4) count
  end.
Fixpoint outsw (port data : Z) (count : nat) : M unit :=
  match count with
  | O => mret tt
  | S count => v ← gets (fun m => readw m data); ports (outw v port);; outsw port (data + 2) count
  end.
Fixpoint outsl (port data : Z) (count : nat) : M unit :=
  match count with
  | O => mret tt
  | S count => v ← gets (fun m => readl m data); ports (outl v port);; outsl port (data + 4) count
  end.

(** ** Helper functions *)

(** The loop of a wait: look, and stop when ready or, with the last look, at the time
    limit. *)
Fixpoint poll {A} (fuel : nat) (look : P D (A * bool)) (end_ : Z) : P D (A * bool) :=
  match fuel with
  | O => fun _ => None
  | S fuel =>
      '(a, ready) ← look;
      if ready : bool then mret (a, true)
      else
        tsc ← rdtscll;
        if check_time tsc end_ then mret (a, false) else yield;; poll fuel look end_
  end.

Definition await_ide (mask flags base timeout : Z) : P D Z :=
  tsc ← rdtscll;
  '(status, ok) ← poll fuel (status ← inb (reg base ATA_CB_STAT); mret (status, Z.land status mask =? flags))
    (calc_future_tsc cpu_khz tsc timeout);
  mret (if ok : bool then status else -1).

Definition await_not_bsy (base : Z) : P D Z := await_ide ATA_CB_STAT_BSY 0 base IDE_TIMEOUT.
Definition await_rdy (base : Z) : P D Z := await_ide ATA_CB_STAT_RDY ATA_CB_STAT_RDY base IDE_TIMEOUT.

Definition pause_await_not_bsy (iobase1 iobase2 : Z) : P D Z :=
  _ ← inb (reg iobase2 ATA_CB_ASTAT);
  await_not_bsy iobase1.

Definition ndelay_await_not_bsy (iobase1 : Z) : P D Z :=
  ndelay 400;;
  await_not_bsy iobase1.

(** The loop that selects the second drive after a reset: the last status. *)
Fixpoint change_device (fuel : nat) (iobase1 end_ : Z) : P D Z :=
  match fuel with
  | O => fun _ => None
  | S fuel =>
      outb ATA_CB_DH_DEV1 (reg iobase1 ATA_CB_DH);;
      status ← ndelay_await_not_bsy iobase1;
      if status <? 0 then mret (-1)
      else
        dh ← inb (reg iobase1 ATA_CB_DH);
        if dh =? ATA_CB_DH_DEV1 then mret 0
        else
          tsc ← rdtscll;
          if check_time tsc end_ then mret (-1) else change_device fuel iobase1 end_
  end.

(** [ata_reset] between the pulse and the label [done]. *)
Definition reset_wait (adrive_g : atadrive_s) : P D unit :=
  let iobase1 := iobase1 (chan_gf adrive_g) in
  status ← await_not_bsy iobase1;
  if status <? 0 then mret tt
  else
    ok ← (if slave adrive_g then
            tsc ← rdtscll;
            change_device fuel iobase1 (calc_future_tsc cpu_khz tsc IDE_TIMEOUT)
          else outb ATA_CB_DH_DEV0 (reg iobase1 ATA_CB_DH);; mret 0);
    if ok <? 0 then mret tt
    else if type (drive adrive_g) =? DTYPE_ATA then _ ← await_rdy iobase1; mret tt
    else mret tt.

Definition ata_reset (adrive_g : atadrive_s) : P D unit :=
  let iobase2 := iobase2 (chan_gf adrive_g) in
  outb (Z.lor (Z.lor ATA_CB_DC_HD15 ATA_CB_DC_NIEN) ATA_CB_DC_SRST) (reg iobase2 ATA_CB_DC);;
  delay 5;;
  outb (Z.lor ATA_CB_DC_HD15 ATA_CB_DC_NIEN) (reg iobase2 ATA_CB_DC);;
  msleep 2;;
  reset_wait adrive_g;;
  outb ATA_CB_DC_HD15 (reg iobase2 ATA_CB_DC).

Definition isready (adrive_g : atadrive_s) : P D Z :=
  status ← inb (reg (iobase1 (chan_gf adrive_g)) ATA_CB_STAT);
  mret (if Z.land status (Z.lor ATA_CB_STAT_BSY ATA_CB_STAT_RDY) =? ATA_CB_STAT_RDY then DISK_RET_SUCCESS
        else DISK_RET_ENOTREADY).

Definition process_ata_misc_op (adrive_g : atadrive_s) (op : disk_op_s) : P D (Z * disk_op_s) :=
  let c := command op in
  if c =? CMD_RESET then ata_reset adrive_g;; mret (DISK_RET_SUCCESS, op)
  else if c =? CMD_ISREADY then ret ← isready adrive_g; mret (ret, op)
  else if (c =? CMD_FORMAT) || (c =? CMD_VERIFY) || (c =? CMD_SEEK) then mret (DISK_RET_SUCCESS, op)
  else mret (DISK_RET_EPARAM, set_count op 0).

(** ** Commands *)

(** The second half: the registers, the high order bytes first for the 48-bit commands. *)
Definition write_regs (iobase1 : Z) (cmd : ata_pio_command) : P D unit :=
  (if Z.ldiff (cmd_command cmd) 0x11 =? ATA_CMD_READ_SECTORS_EXT then
     outb (feature2 cmd) (reg iobase1 ATA_CB_FR);;
     outb (sector_count2 cmd) (reg iobase1 ATA_CB_SC);;
     outb (lba_low2 cmd) (reg iobase1 ATA_CB_SN);;
     outb (lba_mid2 cmd) (reg iobase1 ATA_CB_CL);;
     outb (lba_high2 cmd) (reg iobase1 ATA_CB_CH)
   else mret tt);;
  outb (feature cmd) (reg iobase1 ATA_CB_FR);;
  outb (sector_count cmd) (reg iobase1 ATA_CB_SC);;
  outb (lba_low cmd) (reg iobase1 ATA_CB_SN);;
  outb (lba_mid cmd) (reg iobase1 ATA_CB_CL);;
  outb (lba_high cmd) (reg iobase1 ATA_CB_CH);;
  outb (cmd_command cmd) (reg iobase1 ATA_CB_CMD).

Definition send_cmd (adrive_g : atadrive_s) (cmd : ata_pio_command) : P D Z :=
  let iobase1 := iobase1 (chan_gf adrive_g) in
  status ← await_not_bsy iobase1;
  if status <? 0 then mret status
  else
    let newdh := Z.lor (Z.ldiff (device cmd) ATA_CB_DH_DEV1) (if slave adrive_g then ATA_CB_DH_DEV1 else ATA_CB_DH_DEV0) in
    olddh ← inb (reg iobase1 ATA_CB_DH);
    outb newdh (reg iobase1 ATA_CB_DH);;
    status ← (if has (Z.lxor olddh newdh) (Z.shiftl 1 4) then ndelay_await_not_bsy iobase1 else mret 0);
    if status <? 0 then mret status
    else write_regs iobase1 cmd;; mret 0.

Definition ata_wait_data (iobase1 : Z) : P D Z :=
  status ← ndelay_await_not_bsy iobase1;
  if status <? 0 then mret status
  else if has status ATA_CB_STAT_ERR then mret (-4)
  else if negb (has status ATA_CB_STAT_DRQ) then mret (-5)
  else mret 0.

(** Run [f] with the interrupts of the channel disabled. *)
Definition without_irq {A} (iobase2 : Z) (f : M A) : M A :=
  ports (outb (Z.lor ATA_CB_DC_HD15 ATA_CB_DC_NIEN) (reg iobase2 ATA_CB_DC));;
  a ← f;
  ports (outb ATA_CB_DC_HD15 (reg iobase2 ATA_CB_DC));;
  mret a.

Definition ata_cmd_nondata (adrive_g : atadrive_s) (cmd : ata_pio_command) : M Z :=
  let iobase1 := iobase1 (chan_gf adrive_g) in
  without_irq (iobase2 (chan_gf adrive_g)) (ports (
    ret ← send_cmd adrive_g cmd;
    if negb (ret =? 0) then mret ret
    else
      ret ← ndelay_await_not_bsy iobase1;
      if ret <? 0 then mret ret
      else if has ret ATA_CB_STAT_ERR then mret (-4)
      else if has ret ATA_CB_STAT_DRQ then mret (-5)
      else mret ret)).

(** ** PIO transfers *)

(** One block. *)
Definition pio_block (iswrite : bool) (iobase1 buf blocksize : Z) : M unit :=
  let port := reg iobase1 ATA_CB_DATA in
  if iswrite then
    if CONFIG_ATA_PIO32 then outsl port buf (Z.to_nat (u16 (blocksize / 4))) else outsw port buf (Z.to_nat (u16 (blocksize / 2)))
  else
    if CONFIG_ATA_PIO32 then insl port buf (Z.to_nat (u16 (blocksize / 4))) else insw port buf (Z.to_nat (u16 (blocksize / 2))).

(** The loop: the result, the status and the blocks left.  A block count of zero counts
    down from zero, so the number of rounds is bounded by [rounds]. *)
Fixpoint pio_loop (rounds : nat) (chan : ata_channel_s) (iswrite : bool) (blocksize buf count : Z) : M (Z * Z * Z) :=
  match rounds with
  | O => fun _ => None
  | S rounds =>
      pio_block iswrite (iobase1 chan) buf blocksize;;
      let buf := buf + blocksize in
      status ← ports (pause_await_not_bsy (iobase1 chan) (iobase2 chan));
      if status <? 0 then mret (status, status, count)
      else
        let count := count - 1 in
        if count =? 0 then mret (0, status, count)
        else
          let status := Z.land status (Z.lor (Z.lor ATA_CB_STAT_BSY ATA_CB_STAT_DRQ) ATA_CB_STAT_ERR) in
          if negb (status =? ATA_CB_STAT_DRQ) then mret (-6, status, count)
          else pio_loop rounds chan iswrite blocksize buf count
  end.

Definition ata_pio_transfer (chan : ata_channel_s) (op : disk_op_s) (iswrite : bool) (blocksize : Z) : M (Z * disk_op_s) :=
  '(ret, status, rest) ← pio_loop fuel chan iswrite blocksize (buf_fl op) (count op);
  if negb (ret =? 0) then mret (ret, set_count op (u16 (count op - rest)))
  else
    let status := Z.land status (Z.lor (Z.lor (Z.lor ATA_CB_STAT_BSY ATA_CB_STAT_DF) ATA_CB_STAT_DRQ) ATA_CB_STAT_ERR) in
    let status := if iswrite then status else Z.ldiff status ATA_CB_STAT_DF in
    mret (if negb (status =? 0) then -7 else 0, op).

(** ** DMA transfers *)

Definition BM_CMD : Z := 0.
Definition BM_CMD_MEMWRITE : Z := 0x08.
Definition BM_CMD_START : Z := 0x01.
Definition BM_STATUS : Z := 2.
Definition BM_STATUS_IRQ : Z := 0x04.
Definition BM_STATUS_ERROR : Z := 0x02.
Definition BM_STATUS_ACTIVE : Z := 0x01.
Definition BM_TABLE : Z := 4.
Definition sff_dma_prd : layout := [("buf_fl", 4); ("count", 4)].

(** The descriptors: false when more than the [n] left are needed. *)
Fixpoint prd_loop (n : nat) (dma dest bytes : Z) (m : memory) : bool * memory :=
  if bytes =? 0 then (true, m)
  else
    match n with
    | O => (false, m)
    | S n =>
        let count := bytes in
        let count := if 0x10000 <? count then 0x10000 else count in
        let max := 0x10000 - Z.land dest 0xffff in
        let count := if max <? count then max else count in
        let m := writel m (dma + offsetof sff_dma_prd "buf_fl") dest in
        let bytes := bytes - count in
        let count := if bytes =? 0 then Z.lor count (Z.shiftl 1 31) else count in
        let dest := u32 (dest + count) in
        let m := writel m (dma + offsetof sff_dma_prd "count") count in
        prd_loop n (dma + 8) dest bytes m
    end.

Definition dma_table (m : memory) : Z := MAKE_FLATPTR (get_ebda_seg m) (offsetof extended_bios_data_area_s "extra_stack").

Definition ata_try_dma (chan : ata_channel_s) (op : disk_op_s) (iswrite : bool) (blocksize : Z) : M Z :=
  let dest := u32 (buf_fl op) in
  let bytes := u32 (count op * blocksize) in
  if negb CONFIG_ATA_DMA || has dest 1 || (iomaster chan =? 0) || (bytes =? 0) then mret (-1)
  else
    origdma ← gets dma_table;
    ok ← (fun '(m, d) => let '(ok, m) := prd_loop 16 origdma dest bytes m in Some (ok, (m, d)));
    if negb ok then mret (-1)
    else
      ports (outl origdma (reg (iomaster chan) BM_TABLE));;
      c ← ports (inb (reg (iomaster chan) BM_CMD));
      let oldcmd := Z.ldiff c (Z.lor BM_CMD_MEMWRITE BM_CMD_START) in
      ports (outb (Z.lor oldcmd (if iswrite then 0x00 else BM_CMD_MEMWRITE)) (reg (iomaster chan) BM_CMD));;
      ports (outb (Z.lor BM_STATUS_ERROR BM_STATUS_IRQ) (reg (iomaster chan) BM_STATUS));;
      mret 0.

Definition ata_dma_transfer (chan : ata_channel_s) (op : disk_op_s) : P D (Z * disk_op_s) :=
  if negb CONFIG_ATA_DMA then mret (-1, op)
  else
    oldcmd ← inb (reg (iomaster chan) BM_CMD);
    outb (Z.lor oldcmd BM_CMD_START) (reg (iomaster chan) BM_CMD);;
    tsc ← rdtscll;
    '(status, _) ← poll fuel (status ← inb (reg (iomaster chan) BM_STATUS); mret (status, has status BM_STATUS_IRQ))
      (calc_future_tsc cpu_khz tsc IDE_TIMEOUT);
    outb (Z.ldiff oldcmd BM_CMD_START) (reg (iomaster chan) BM_CMD);;
    idestatus ← pause_await_not_bsy (iobase1 chan) (iobase2 chan);
    if (Z.land status (Z.lor BM_STATUS_IRQ BM_STATUS_ACTIVE) =? BM_STATUS_IRQ) && (0 <=? idestatus)
       && (Z.land idestatus (Z.lor (Z.lor (Z.lor ATA_CB_STAT_BSY ATA_CB_STAT_DF) ATA_CB_STAT_DRQ) ATA_CB_STAT_ERR) =? 0)
    then mret (0, op)
    else mret (-1, set_count op 0).

(** ** Hard drives *)

Definition ata_pio_cmd_data (adrive_g : atadrive_s) (op : disk_op_s) (iswrite : bool) (cmd : ata_pio_command) : M (Z * disk_op_s) :=
  let chan := chan_gf adrive_g in
  without_irq (iobase2 chan) (
    ret ← ports (send_cmd adrive_g cmd);
    if negb (ret =? 0) then mret (ret, op)
    else
      ret ← ports (ata_wait_data (iobase1 chan));
      if negb (ret =? 0) then mret (ret, op)
      else ata_pio_transfer chan op iswrite DISK_SECTOR_SIZE).

Definition ata_dma_cmd_data (adrive_g : atadrive_s) (op : disk_op_s) (cmd : ata_pio_command) : M (Z * disk_op_s) :=
  if negb CONFIG_ATA_DMA then mret (-1, op)
  else
    ret ← ports (send_cmd adrive_g cmd);
    if negb (ret =? 0) then mret (ret, op) else ports (ata_dma_transfer (chan_gf adrive_g) op).

(** The command of a transfer: 48-bit when the count or the address need it. *)
Definition rw_command (op : disk_op_s) (iswrite usepio : bool) : ata_pio_command :=
  let lba := op_lba op in
  let ext := (Z.shiftl 1 8 <=? count op) || (Z.shiftl 1 28 <=? u64 (lba + count op)) in
  let low := if ext then Z.land lba 0xffffff else lba in
  mk_command 0 (u8 (count op)) (u8 low) (u8 (Z.shiftr low 8)) (u8 (Z.shiftr low 16))
    (u8 (Z.lor (Z.land (Z.shiftr low 24) 0xf) ATA_CB_DH_LBA))
    (if ext then
       if usepio then if iswrite then ATA_CMD_WRITE_SECTORS_EXT else ATA_CMD_READ_SECTORS_EXT
       else if iswrite then ATA_CMD_WRITE_DMA_EXT else ATA_CMD_READ_DMA_EXT
     else
       if usepio then if iswrite then ATA_CMD_WRITE_SECTORS else ATA_CMD_READ_SECTORS
       else if iswrite then ATA_CMD_WRITE_DMA else ATA_CMD_READ_DMA)
    0 (if ext then u8 (Z.shiftr (count op) 8) else 0) (if ext then u8 (Z.shiftr lba 24) else 0)
    (if ext then u8 (Z.shiftr lba 32) else 0) (if ext then u8 (Z.shiftr lba 40) else 0).

Definition ata_readwrite (adrive_g : atadrive_s) (op : disk_op_s) (iswrite : bool) : M (Z * disk_op_s) :=
  usepio ← ata_try_dma (chan_gf adrive_g) op iswrite DISK_SECTOR_SIZE;
  let usepio := negb (usepio =? 0) in
  let cmd := rw_command op iswrite usepio in
  '(ret, op) ← (if usepio then ata_pio_cmd_data adrive_g op iswrite cmd else ata_dma_cmd_data adrive_g op cmd);
  mret (if negb (ret =? 0) then DISK_RET_EBADTRACK else DISK_RET_SUCCESS, op).

(** The object at [p], and the ATA drive there. *)
Definition drive_at (p : Z) : M drive_object := fun s => o ← heap !! p; Some (o, s).
Definition container_of (p : Z) : M atadrive_s :=
  o ← drive_at p; match o with AtaDrive a => mret a | OtherDrive _ => fun _ => None end.

Definition process_ata_op (op : disk_op_s) : M (Z * disk_op_s) :=
  adrive_g ← container_of (drive_g op);
  if command op =? CMD_READ then ata_readwrite adrive_g op false
  else if command op =? CMD_WRITE then ata_readwrite adrive_g op true
  else ports (process_ata_misc_op adrive_g op).

(** ** ATAPI *)

Definition CDROM_CDB_SIZE : Z := 12.

(** The words of a command block, low byte first. *)
Fixpoint out_words (port : Z) (cdb : list Z) (n : nat) {struct n} : P D unit :=
  match n, cdb with
  | S n, a :: b :: cdb => outw (Z.lor a (Z.shiftl b 8)) port;; out_words port cdb n
  | S _, _ => fun _ => None
  | O, _ => mret tt
  end.

(** After the command is accepted: the packet, then the data. *)
Definition atapi_packet (chan : ata_channel_s) (op : disk_op_s) (cdb : list Z) (blocksize : Z) : M (Z * disk_op_s) :=
  ports (out_words (reg (iobase1 chan) ATA_CB_DATA) cdb (Z.to_nat (CDROM_CDB_SIZE / 2)));;
  status ← ports (pause_await_not_bsy (iobase1 chan) (iobase2 chan));
  if status <? 0 then mret (status, op)
  else if has status ATA_CB_STAT_ERR then
    _ ← ports (inb (reg (iobase1 chan) ATA_CB_ERR));
    mret (-2, op)
  else if negb (has status ATA_CB_STAT_DRQ) then mret (-3, op)
  else ata_pio_transfer chan op false blocksize.

Definition packet_command (blocksize : Z) : ata_pio_command :=
  mk_command 0 0 0 (u8 blocksize) (u8 (Z.shiftr blocksize 8)) 0 ATA_CMD_PACKET 0 0 0 0 0.

Definition atapi_cmd_data (adrive_g : atadrive_s) (op : disk_op_s) (cdb : list Z) (blocksize : Z) : M (Z * disk_op_s) :=
  let chan := chan_gf adrive_g in
  '(ret, op) ← without_irq (iobase2 chan) (
    ret ← ports (send_cmd adrive_g (packet_command blocksize));
    if negb (ret =? 0) then mret (ret, op)
    else
      ret ← ports (ata_wait_data (iobase1 chan));
      if negb (ret =? 0) then mret (ret, op) else atapi_packet chan op cdb blocksize);
  mret (if negb (ret =? 0) then DISK_RET_EBADTRACK else DISK_RET_SUCCESS, op).

(** *** [blockcmd.c]: [usb_cmd_data] is the driver of USB drives. *)

Definition CDB_CMD_READ_10 : Z := 0x28.
Definition CDB_CMD_READ_CAPACITY : Z := 0x25.
Definition CDB_CMD_INQUIRY : Z := 0x12.
Definition CDB_CMD_REQUEST_SENSE : Z := 0x03.
Definition cdbres_read_capacity : layout := [("sectors", 4); ("blksize", 4)].
Definition cdbres_request_sense : layout :=
  [("errcode", 1); ("segment", 1); ("flags", 1); ("info", 4); ("additional", 1); ("specific", 4); ("asc", 1);
   ("ascq", 1); ("reserved_0e", 4)].
Definition cdbres_inquiry : layout :=
  [("pdt", 1); ("removable", 1); ("reserved_02", 2); ("additional", 1); ("reserved_05", 3); ("vendor", 8);
   ("product", 16); ("rev", 4)].

(** The bytes of a field of [n] bytes. *)
Fixpoint le_bytes (n : nat) (v : Z) : list Z :=
  match n with O => [] | S n => u8 v :: le_bytes n (Z.shiftr v 8) end.

Definition cdb_rwdata_10 (command flags lba reserved_06 count reserved_09 : Z) : list Z :=
  [u8 command; u8 flags] ++ le_bytes 4 lba ++ [u8 reserved_06] ++ le_bytes 2 count ++ [u8 reserved_09] ++ replicate 6 0.
Definition cdb_read_capacity_s (command flags : Z) : list Z := [u8 command; u8 flags] ++ replicate 8 0 ++ replicate 6 0.
Definition cdb_request_sense (command flags reserved_02 length reserved_05 : Z) : list Z :=
  [u8 command; u8 flags] ++ le_bytes 2 reserved_02 ++ [u8 length; u8 reserved_05] ++ replicate 10 0.

Context (usb_cmd_data : disk_op_s -> list Z -> Z -> M (Z * disk_op_s)).

Definition cdb_cmd_data (op : disk_op_s) (cdb : list Z) (blocksize : Z) : M (Z * disk_op_s) :=
  o ← drive_at (drive_g op);
  let t := type (base_of o) in
  if t =? DTYPE_ATAPI then adrive_g ← container_of (drive_g op); atapi_cmd_data adrive_g op cdb blocksize
  else if t =? DTYPE_USB then usb_cmd_data op cdb blocksize
  else mret (DISK_RET_EPARAM, set_count op 0).

(** The answer of one block to [data]. *)
Definition one_block (op : disk_op_s) (data : Z) : disk_op_s := mk_op (op_lba op) data (drive_g op) 1 (command op).

Definition cdb_get_inquiry (op : disk_op_s) (data : Z) : M (Z * disk_op_s) :=
  cdb_cmd_data (one_block op data) (cdb_request_sense CDB_CMD_INQUIRY 0 0 (sizeof cdbres_inquiry) 0) (sizeof cdbres_inquiry).
Definition cdb_get_sense (op : disk_op_s) (data : Z) : M (Z * disk_op_s) :=
  cdb_cmd_data (one_block op data) (cdb_request_sense CDB_CMD_REQUEST_SENSE 0 0 (sizeof cdbres_request_sense) 0)
    (sizeof cdbres_request_sense).
Definition cdb_read_capacity (op : disk_op_s) (data : Z) : M (Z * disk_op_s) :=
  cdb_cmd_data (one_block op data) (cdb_read_capacity_s CDB_CMD_READ_CAPACITY 0) (sizeof cdbres_read_capacity).

Definition cdb_read (op : disk_op_s) : M (Z * disk_op_s) :=
  o ← drive_at (drive_g op);
  cdb_cmd_data op (cdb_rwdata_10 CDB_CMD_READ_10 0 (htonl (u32 (op_lba op))) 0 (htons (count op)) 0) (blksize (base_of o)).

Definition process_atapi_op (op : disk_op_s) : M (Z * disk_op_s) :=
  if command op =? CMD_READ then cdb_read op
  else if (command op =? CMD_FORMAT) || (command op =? CMD_WRITE) then mret (DISK_RET_EWRITEPROTECT, op)
  else adrive_g ← container_of (drive_g op); ports (process_ata_misc_op adrive_g op).
End Ata.

(** *** Command blocks *)

Lemma u32_bytes x : in_u 32 x ->
  exists a b c e, in_u 8 a /\ in_u 8 b /\ in_u 8 c /\ in_u 8 e /\ x = le [a; b; c; e] /\ x = e * 2 ^ 24 + c * 2 ^ 16 + b * 2 ^ 8 + a.
Proof.
  intros Hx. exists (x mod 256), (x / 256 mod 256), (x / 65536 mod 256), (x / 16777216). unfold in_u, le in *. cbn [foldr].
  Z.to_euclidean_division_equations. lia.
Qed.

Lemma le_bytes_4 a b c e : in_u 8 a -> in_u 8 b -> in_u 8 c -> in_u 8 e ->
  le_bytes 4 (a * 2 ^ 24 + b * 2 ^ 16 + c * 2 ^ 8 + e) = [e; c; b; a].
Proof.
  intros Ha Hb Hc He. cbn [le_bytes]. unfold wrap, in_u in *. rewrite !Z.shiftr_shiftr, !Z.shiftr_div_pow2 by lia.
  change (2 ^ (8 + 8)) with 65536. change (2 ^ (8 + 8 + 8)) with 16777216.
  change (2 ^ 24) with 16777216. change (2 ^ 16) with 65536. change (2 ^ 8) with 256 in *.
  f_equal; [|f_equal; [|f_equal; [|f_equal]]]; Z.to_euclidean_division_equations; lia.
Qed.

(** A number in network order, most significant byte first. *)
Lemma le_bytes_htonl x : in_u 32 x ->
  exists a b c e, in_u 8 a /\ in_u 8 b /\ in_u 8 c /\ in_u 8 e /\ x = a * 2 ^ 24 + b * 2 ^ 16 + c * 2 ^ 8 + e /\
    le_bytes 4 (htonl x) = [a; b; c; e].
Proof.
  intros Hx. destruct (u32_bytes x Hx) as (a & b & c & e & Ha & Hb & Hc & He & El & Es).
  exists e, c, b, a. split_and!; try done. rewrite El, htonl_bytes by done. by apply le_bytes_4.
Qed.

Lemma le_bytes_htons x : in_u 16 x ->
  exists h l, in_u 8 h /\ in_u 8 l /\ x = h * 2 ^ 8 + l /\ le_bytes 2 (htons x) = [h; l].
Proof.
  intros Hx. set (h := x / 256). set (l := x mod 256). exists h, l.
  assert (0 <= h < 256 /\ 0 <= l < 256 /\ x = h * 256 + l) as (Hh & Hl & E)
    by (unfold in_u in *; subst h l; Z.to_euclidean_division_equations; lia).
  assert (htons x = l * 256 + h) as Eh.
  { replace x with (le (be16 (l * 256 + h))); [apply htons_be16; unfold in_u; lia|].
    unfold le, be16. cbn [foldr]. Z.to_euclidean_division_equations. lia. }
  clearbody h l. split_and!; try (unfold in_u; lia). rewrite Eh. cbn [le_bytes].
  unfold wrap. rewrite Z.shiftr_div_pow2 by lia. change (2 ^ 8) with 256.
  f_equal; [|f_equal]; Z.to_euclidean_division_equations; lia.
Qed.

(** ** The descriptors of a DMA transfer *)

(** What a bus master reads: address and length of each region, up to the descriptor with
    the mark of the last; a length of 0 is 64 KiB. *)
Definition prd_length (c : Z) : Z := if c mod 2 ^ 16 =? 0 then 2 ^ 16 else c mod 2 ^ 16.
Fixpoint dma_regions (n : nat) (m : memory) (table : Z) : option (list (Z * Z)) :=
  match n with
  | O => None
  | S n =>
      let region := (readl m table, prd_length (readl m (table + 4))) in
      if Z.testbit (readl m (table + 4)) 31 then Some [region] else cons region <$> dma_regions n m (table + 8)
  end.

(** Regions that cover [bytes] bytes from [dest], in order, none across a 64 KiB boundary. *)
Fixpoint covers (dest bytes : Z) (l : list (Z * Z)) : Prop :=
  match l with
  | [] => bytes = 0
  | (b, n) :: l => b = dest /\ 0 < n <= bytes /\ b / 2 ^ 16 = (b + n - 1) / 2 ^ 16 /\ covers (dest + n) (bytes - n) l
  end.

(** The length of the first region. *)
Definition first_region (dest bytes : Z) : Z := Z.min (Z.min bytes (2 ^ 16)) (2 ^ 16 - dest mod 2 ^ 16).

Lemma prd_step n t dest bytes m : bytes <> 0 ->
  prd_loop (S n) t dest bytes m =
  let k := first_region dest bytes in
  let c := if bytes - k =? 0 then Z.lor k (2 ^ 31) else k in
  prd_loop n (t + 8) (u32 (dest + c)) (bytes - k) (writel (writel m t dest) (t + 4) c).
Proof.
  intros Hb. cbn [prd_loop]. rewrite (proj2 (Z.eqb_neq _ _)) by done. change 0xffff with (Z.ones 16). rewrite Z.land_ones by lia.
  change (offsetof sff_dma_prd "buf_fl") with 0. change (offsetof sff_dma_prd "count") with 4. rewrite Z.add_0_r.
  change (Z.shiftl 1 31) with (2 ^ 31). change 0x10000 with (2 ^ 16). cbv zeta.
  replace (if _ <? (if 2 ^ 16 <? bytes then 2 ^ 16 else bytes) then _ else _) with (first_region dest bytes); [done|].
  unfold first_region. destruct (Z.ltb_spec (2 ^ 16) bytes); case_test; lia.
Qed.

Lemma first_region_range dest bytes : 0 < bytes -> 0 <= dest ->
  let k := first_region dest bytes in 0 < k <= bytes /\ k <= 2 ^ 16 /\ dest / 2 ^ 16 = (dest + k - 1) / 2 ^ 16.
Proof.
  intros Hb Hd. cbv zeta. unfold first_region. pose proof (Z.mod_pos_bound dest (2 ^ 16) ltac:(lia)). split; [lia|]. split; [lia|].
  Z.to_euclidean_division_equations. lia.
Qed.

Lemma prd_other n t dest bytes m x : x < t \/ t + 8 * Z.of_nat n <= x -> (prd_loop n t dest bytes m).2 x = m x.
Proof.
  revert t dest bytes m. induction n as [|n IH]; intros t dest bytes m Hx; cbn [prd_loop]; [by case_test|].
  case_test; [done|]. cbv zeta. rewrite IH by lia. change (offsetof sff_dma_prd "buf_fl") with 0.
  change (offsetof sff_dma_prd "count") with 4. rewrite !writel_other by lia. done.
Qed.

Lemma prd_done n t dest m : prd_loop n t dest 0 m = (true, m).
Proof. by destruct n. Qed.

Lemma length_mark k : 0 < k <= 2 ^ 16 -> Z.testbit k 31 = false /\ prd_length k = k.
Proof.
  intros Hk. split; [apply Z.testbit_false; [lia|]; rewrite Z.div_small by lia; done|].
  unfold prd_length. destruct (Z.eq_dec k (2 ^ 16)) as [->|Hne]; [done|]. rewrite Z.mod_small by lia. case_test; lia.
Qed.

Lemma last_mark k : 0 < k <= 2 ^ 16 ->
  Z.testbit (Z.lor k (2 ^ 31)) 31 = true /\ prd_length (Z.lor k (2 ^ 31)) = k /\ 0 <= Z.lor k (2 ^ 31) < 2 ^ 32.
Proof.
  intros Hk. change (2 ^ 31) with (Z.shiftl 1 31). rewrite lor_shiftl by lia. rewrite Z.mul_1_l.
  split; [apply Z.testbit_true; [lia|]; Z.to_euclidean_division_equations; lia|]. split; [|lia].
  destruct (length_mark k Hk) as [_ E]. unfold prd_length in *. change (2 ^ 31) with (2 ^ 15 * 2 ^ 16). by rewrite Z.mod_add by lia.
Qed.

(** The table, read the way the bus master reads it. *)
Lemma prd_loop_covers n t dest bytes m :
  0 < bytes -> 0 <= dest -> dest + bytes <= 2 ^ 32 ->
  let '(ok, m') := prd_loop n t dest bytes m in
  (ok = true -> exists l, dma_regions n m' t = Some l /\ covers dest bytes l) /\
  (bytes <= (Z.of_nat n - 1) * 2 ^ 16 -> ok = true) /\
  (forall x, x < t \/ t + 8 * Z.of_nat n <= x -> m' x = m x).
Proof.
  intros Hb Hd Hfit. destruct (prd_loop n t dest bytes m) as [ok m'] eqn:E.
  assert (forall x, x < t \/ t + 8 * Z.of_nat n <= x -> m' x = m x) as Hx
    by (intros x Hx; rewrite <- (prd_other n t dest bytes m x Hx), E; done).
  assert ((ok = true -> exists l, dma_regions n m' t = Some l /\ covers dest bytes l) /\
    (bytes <= Z.of_nat n * 2 ^ 16 - dest mod 2 ^ 16 -> ok = true)) as [H1 H2]; cycle 1.
  { split; [done|]. split; [|done]. intros Hn. apply H2. pose proof (Z.mod_pos_bound dest (2 ^ 16) ltac:(lia)). lia. }
  clear Hx. revert t dest bytes m m' E Hb Hd Hfit. induction n as [|n IH]; intros t dest bytes m m' E Hb Hd Hfit.
  { cbn [prd_loop] in E. rewrite (proj2 (Z.eqb_neq _ _)) in E by lia. injection E as <- <-.
    split; [done|]. pose proof (Z.mod_pos_bound dest (2 ^ 16) ltac:(lia)). lia. }
  rewrite prd_step in E by lia. destruct (first_region_range dest bytes Hb Hd) as (Hk & Hk16 & Hpage).
  set (k := first_region dest bytes) in *. cbv zeta in E.
  assert (forall c m2, 0 <= c < 2 ^ 32 -> (forall x, x < t + 8 -> m2 x = writel (writel m t dest) (t + 4) c x) ->
    readl m2 t = dest /\ readl m2 (t + 4) = c) as Hread.
  { intros c m2 Hc Hm2. rewrite (readl_ext _ m2 t), (readl_ext _ m2 (t + 4)) by (intros; apply Hm2; lia).
    rewrite readl_writel_ne, !readl_writel, !wrap_small by (unfold in_u; lia). done. }
  destruct (Z.eqb_spec (bytes - k) 0) as [Hz|Hz].
  - rewrite Hz, prd_done in E. injection E as <- <-. split; [intros _|done].
    destruct (last_mark k ltac:(lia)) as (Hmark & Hlen & Hc). destruct (Hread _ _ Hc (fun _ _ => eq_refl)) as [R1 R2].
    eexists. cbn [dma_regions]. rewrite R1, R2, Hmark, Hlen. split; [done|]. cbn [covers]. lia.
  - rewrite (wrap_small 32) in E by (unfold in_u; lia).
    destruct (IH (t + 8) (dest + k) (bytes - k) _ _ E ltac:(lia) ltac:(lia) ltac:(lia)) as [I1 I2]. split.
    + intros Hok. destruct (I1 Hok) as (l & El & Hl). exists ((dest, k) :: l).
      destruct (Hread k m' ltac:(lia)) as [R1 R2].
      { intros x Hx. pose proof (prd_other n (t + 8) (dest + k) (bytes - k) (writel (writel m t dest) (t + 4) k) x ltac:(by left)) as Hp.
        rewrite E in Hp. exact Hp. }
      cbn [dma_regions]. rewrite R1, R2, El. destruct (length_mark k ltac:(lia)) as [-> ->]. split; [done|]. cbn [covers]. done.
    + intros Hn. apply I2. unfold first_region in k. subst k. Z.to_euclidean_division_equations. lia.
Qed.

(** What a bus master has been told: where its table is and which way to move the data;
    it has not been started. *)
Definition master_ready {D} `{PortDevice D} `{IdePorts D} (chan : ata_channel_s) (t : Z) (iswrite : bool) (d d' : D) : Prop :=
  let '(_, d1) := port_inb (reg (iomaster chan) BM_CMD) (port_outl t (reg (iomaster chan) BM_TABLE) d) in
  exists cmd, d' = port_outb (Z.lor BM_STATUS_ERROR BM_STATUS_IRQ) (reg (iomaster chan) BM_STATUS)
                     (port_outb cmd (reg (iomaster chan) BM_CMD) d1) /\
    has cmd BM_CMD_START = false /\ has cmd BM_CMD_MEMWRITE = negb iswrite.

(** Requests that [ata_try_dma] is there for: an even address, something to transfer, and a
    channel with a bus master. *)
Definition dma_possible (dma : bool) (chan : ata_channel_s) (op : disk_op_s) (blocksize : Z) : bool :=
  dma && Z.even (buf_fl op) && negb (iomaster chan =? 0) && negb (count op * blocksize =? 0).

Lemma has_odd x : has x 1 = negb (Z.even x).
Proof. unfold has. change 1 with (Z.ones 1) at 1. rewrite Z.land_ones by lia. rewrite Zmod_even. by destruct (Z.even x). Qed.

Lemma command_all (iswrite : bool) : forallb (fun c => let cmd := u8 (Z.lor (Z.ldiff c (Z.lor BM_CMD_MEMWRITE BM_CMD_START)) (if iswrite then 0x00 else BM_CMD_MEMWRITE)) in
  negb (has cmd BM_CMD_START) && Bool.eqb (has cmd BM_CMD_MEMWRITE) (negb iswrite)) (seqZ 0 256) = true.
Proof. by destruct iswrite; vm_compute. Qed.

(** C39.  Before a transfer by a bus master the code either tells it where to find a table
    and which way to move the data, without starting it yet, or refuses and accesses no
    port at all.  After the first, the table, read the way the bus master reads it, lists
    regions that cover the caller's buffer exactly and in order, none of which crosses a
    64 KiB boundary.  Refused are only requests that are odd, empty or of a channel
    without a bus master, and those of more than 15 times 64 KiB.  In either case no
    memory but the table is written. *)
Theorem dma_table_covers {D} `{PortDevice D} `{IdePorts D} dma chan op iswrite blocksize m (d : D) :
  0 <= buf_fl op -> 0 <= count op * blocksize -> buf_fl op + count op * blocksize <= 2 ^ 32 -> buf_fl op < 2 ^ 32 ->
  count op * blocksize < 2 ^ 32 ->
  let t := dma_table m in
  exists r m' d', ata_try_dma dma chan op iswrite blocksize (m, d) = Some (r, (m', d')) /\
    (r = 0 /\ master_ready chan t iswrite d d' /\
       (exists l, dma_regions 16 m' t = Some l /\ covers (buf_fl op) (count op * blocksize) l) \/
     r = -1 /\ d' = d /\ (dma_possible dma chan op blocksize = false \/ 15 * 2 ^ 16 < count op * blocksize)) /\
    (dma_possible dma chan op blocksize = false -> r = -1) /\
    (forall x, x < t \/ t + 128 <= x -> m' x = m x).
Proof.
  intros Hd0 Hb0 Hfit Hd1 Hb1 t. unfold ata_try_dma. rewrite (wrap_small 32 (buf_fl op)), (wrap_small 32 (count op * blocksize)) by (unfold in_u; lia).
  rewrite has_odd. unfold dma_possible. set (bytes := count op * blocksize) in *.
  destruct (dma && Z.even (buf_fl op) && negb (iomaster chan =? 0) && negb (bytes =? 0)) eqn:Hp; cycle 1.
  { exists (-1), m, d. split; [|split; [right; by auto|done]].
    destruct dma, (Z.even (buf_fl op)), (iomaster chan =? 0), (bytes =? 0); done. }
  destruct dma, (Z.even (buf_fl op)), (iomaster chan =? 0), (Z.eqb_spec bytes 0) as [Hz|Hz]; try done. clear Hp. cbn [negb orb].
  rewrite gets_bind. fold t. pose proof (prd_loop_covers 16 t (buf_fl op) bytes m ltac:(lia) Hd0 Hfit) as Hp.
  destruct (prd_loop 16 t (buf_fl op) bytes m) as [ok m'] eqn:E. destruct Hp as (P1 & P2 & P3).
  erewrite P_bind_some; [|by rewrite E]. change (t + 8 * Z.of_nat 16) with (t + 128) in P3.
  destruct ok; cbn [negb].
  - set (d1 := port_outl t (reg (iomaster chan) BM_TABLE) d).
    destruct (port_inb (reg (iomaster chan) BM_CMD) d1) as [c d2] eqn:Ec.
    eexists 0, m', _. split; [|split; [left; split; [done|split; [|by apply P1]]|split; [done|exact P3]]].
    + erewrite (P_bind_some (ports _)); [|reflexivity]. rewrite (wrap_small 32 t) by (apply wrap_range; lia). fold d1.
      assert (ports (inb (reg (iomaster chan) BM_CMD)) (m', d1) = Some (u8 c, (m', d2))) as Ein
        by (unfold ports, on_port, inb; by rewrite Ec).
      rewrite (P_bind_some _ _ _ _ _ Ein). reflexivity.
    + unfold master_ready. fold d1. rewrite Ec. eexists. split; [reflexivity|].
      pose proof (command_all iswrite) as Hall. rewrite forallb_forall in Hall.
      specialize (Hall (u8 c) ltac:(apply list_elem_of_In, elem_of_seqZ; pose proof (wrap_range 8 ltac:(lia) c); unfold in_u in *; lia)).
      by apply andb_true_iff in Hall as [H1%negb_true_iff H2%eqb_prop].
  - exists (-1), m', d. split; [done|]. split; [|done]. right. split; [done|]. split; [done|]. right.
    destruct (Z.lt_ge_cases (15 * 2 ^ 16) bytes) as [|Hle]; [done|]. exfalso.
    enough (false = true) by done. apply P2. lia.
Qed.

(** Ports without a device. *)
#[local] Instance no_ports : PortDevice unit :=
  {| port_inb _ d := (0xff, d); port_outb _ _ d := d; port_rdtscll d := (0, d); port_udelay _ d := d; port_yield d := d |}.
#[local] Instance no_ide : IdePorts unit :=
  {| port_inw _ d := (0, d); port_outw _ _ d := d; port_inl _ d := (0, d); port_outl _ _ d := d; port_ndelay _ d := d; port_msleep _ d := d |}.

(** Two regions, for 256 sectors at 0x2fe00. *)
Lemma dma_table_covers_witness : exists m', ata_try_dma true (mk_channel 0x1f0 0x3f4 0xc000 14 0 8) (mk_op 0 0x2fe00 0 256 CMD_READ) false 512 (fun _ => 0, tt)
    = Some (0, (m', tt)) /\
  exists l, dma_regions 16 m' (dma_table (fun _ => 0)) = Some l /\ covers 0x2fe00 0x20000 l.
Proof.
  destruct (dma_table_covers true (mk_channel 0x1f0 0x3f4 0xc000 14 0 8) (mk_op 0 0x2fe00 0 256 CMD_READ) false 512 (fun _ => 0) tt
    ltac:(cbn; lia) ltac:(cbn; lia) ltac:(cbn; lia) ltac:(cbn; lia) ltac:(cbn; lia)) as (r & m' & [] & E & [(-> & _ & H)|(_ & _ & [H|H])] & _).
  - by exists m'.
  - by vm_compute in H.
  - cbn in H. lia.
Defined.
