(* ===== verification/AtaDisk.v ===== *)
(** * The ATA drivers against a drive

    A drive as the ATA standard describes it: command block registers with their previous
    values, a phase, and data that move two bytes at a time.  The drive may be busy for
    some looks at its status after each command and each block.  Against every such drive
    the drivers of [Ata] read and write exactly the sectors of the request. *)

From Stdlib Require Import FunctionalExtensionality.
From S2P Require Import Prelude BiosUtil Bregs Ports Clock Kbd Block Disk Output Paravirt Tables Ata CdEmu.
Local Open Scope Z_scope.
Local Open Scope coremu_scope.

(** ** The drive *)

(** What never changes: the ports, the position on the channel, whether commands come as
    packets, the number of blocks, the identification and the longest time busy. *)
Record drive_model := mk_model {
  d_base1 : Z; d_base2 : Z; d_slave : bool; d_packet : bool; d_blocks : Z; d_ident : Z -> Z; d_lag : nat }.

(** Sending the bytes of a source from a position, with the bytes left of the block and
    the number and the size of the blocks after it; receiving in the same way; a packet. *)
Inductive phase_t :=
| Idle
| DataIn (source : Z -> Z) (pos room : Z) (blocks : nat) (size : Z)
| DataOut (pos room : Z) (blocks : nat)
| Packet (got : list Z).

(** A register with the value it had before. *)
Definition hob : Type := Z * Z.

Record ata_drive := mk_drive_state {
  d_model : drive_model; d_image : Z -> Z;
  r_sc : hob; r_sn : hob; r_cl : hob; r_ch : hob; r_dh : Z; r_dc : Z;
  d_phase : phase_t; d_err : bool; d_busy : nat; d_clock : Z }.

Definition with_phase (d : ata_drive) (ph : phase_t) (err : bool) (busy : nat) : ata_drive :=
  mk_drive_state (d_model d) (d_image d) (r_sc d) (r_sn d) (r_cl d) (r_ch d) (r_dh d) (r_dc d) ph err busy (d_clock d).
Definition with_image (d : ata_drive) (i : Z -> Z) : ata_drive :=
  mk_drive_state (d_model d) i (r_sc d) (r_sn d) (r_cl d) (r_ch d) (r_dh d) (r_dc d) (d_phase d) (d_err d) (d_busy d) (d_clock d).
Definition with_regs (d : ata_drive) (sc sn cl ch : hob) (dh dc : Z) : ata_drive :=
  mk_drive_state (d_model d) (d_image d) sc sn cl ch dh dc (d_phase d) (d_err d) (d_busy d) (d_clock d).
Definition with_time (d : ata_drive) (busy : nat) (clock : Z) : ata_drive :=
  mk_drive_state (d_model d) (d_image d) (r_sc d) (r_sn d) (r_cl d) (r_ch d) (r_dh d) (r_dc d) (d_phase d) (d_err d) busy clock.

Definition selected (d : ata_drive) : bool := eqb (Z.testbit (r_dh d) 4) (d_slave (d_model d)).

(** The status once the drive is not busy: ready, a fault, data wanted or offered. *)
Definition ready_status (d : ata_drive) : Z :=
  Z.lor (Z.lor ATA_CB_STAT_RDY (if d_err d then ATA_CB_STAT_ERR else 0))
    (match d_phase d with Idle => 0 | _ => ATA_CB_STAT_DRQ end).
Definition status (d : ata_drive) : Z :=
  if negb (selected d) then 0 else match d_busy d with O => ready_status d | S _ => ATA_CB_STAT_BSY end.
Definition look (d : ata_drive) : ata_drive := if selected d then with_time d (pred (d_busy d)) (d_clock d) else d.

(** *** Commands *)

Definition fail (d : ata_drive) : ata_drive := with_phase d Idle true (d_lag (d_model d)).
Definition begin (d : ata_drive) (ph : phase_t) : ata_drive := with_phase d ph false (d_lag (d_model d)).

(** [n] blocks of [size] bytes of a source, from a position. *)
Definition send (d : ata_drive) (source : Z -> Z) (pos n size : Z) : ata_drive :=
  if n =? 0 then begin d Idle else begin d (DataIn source pos size (Z.to_nat (n - 1)) size).

(** Address and count of a 28-bit and of a 48-bit command. *)
Definition lba28 (d : ata_drive) : Z :=
  (r_sn d).1 + (r_cl d).1 * 2 ^ 8 + (r_ch d).1 * 2 ^ 16 + (r_dh d mod 16) * 2 ^ 24.
Definition count28 (d : ata_drive) : Z := if (r_sc d).1 =? 0 then 256 else (r_sc d).1.
Definition lba48 (d : ata_drive) : Z :=
  (r_sn d).1 + (r_cl d).1 * 2 ^ 8 + (r_ch d).1 * 2 ^ 16 + (r_sn d).2 * 2 ^ 24 + (r_cl d).2 * 2 ^ 32 + (r_ch d).2 * 2 ^ 40.
Definition count48 (d : ata_drive) : Z :=
  let n := (r_sc d).1 + (r_sc d).2 * 2 ^ 8 in if n =? 0 then 65536 else n.

Definition transfer (d : ata_drive) (out : bool) (lba n : Z) : ata_drive :=
  if negb (Z.testbit (r_dh d) 6) || (d_blocks (d_model d) <? lba + n) then fail d
  else if out then begin d (DataOut (512 * lba) 512 (Z.to_nat (n - 1)))
  else send d (d_image d) (512 * lba) n 512.

Definition execute (d : ata_drive) (c : Z) : ata_drive :=
  if d_packet (d_model d) then
    if c =? ATA_CMD_PACKET then begin d (Packet [])
    else if c =? ATA_CMD_IDENTIFY_PACKET_DEVICE then send d (d_ident (d_model d)) 0 1 512
    else fail d
  else
    if c =? ATA_CMD_READ_SECTORS then transfer d false (lba28 d) (count28 d)
    else if c =? ATA_CMD_WRITE_SECTORS then transfer d true (lba28 d) (count28 d)
    else if c =? ATA_CMD_READ_SECTORS_EXT then transfer d false (lba48 d) (count48 d)
    else if c =? ATA_CMD_WRITE_SECTORS_EXT then transfer d true (lba48 d) (count48 d)
    else if c =? ATA_CMD_IDENTIFY_DEVICE then send d (d_ident (d_model d)) 0 1 512
    else fail d.

(** A packet of 12 bytes: reads of 2048-byte blocks, and the capacity, in pieces of the
    size the byte count registers give. *)
Definition be4 (a b c e : Z) : Z := a * 2 ^ 24 + b * 2 ^ 16 + c * 2 ^ 8 + e.
Definition capacity_bytes (M : drive_model) (i : Z) : Z := default 0 ((be32 (d_blocks M - 1) ++ be32 2048) !! Z.to_nat i).
Definition packet (d : ata_drive) (cdb : list Z) : ata_drive :=
  match cdb with
  | [op; _; a; b; c; e; _; h; l; _; _; _] =>
      let lba := be4 a b c e in
      let n := h * 2 ^ 8 + l in
      let piece := (r_cl d).1 + (r_ch d).1 * 2 ^ 8 in
      if op =? CDB_CMD_READ_10 then
        if negb (piece =? 2048) || (d_blocks (d_model d) <? lba + n) then fail d
        else send d (d_image d) (2048 * lba) n 2048
      else if op =? CDB_CMD_READ_CAPACITY then
        if negb (piece =? 8) then fail d else send d (capacity_bytes (d_model d)) 0 1 8
      else fail d
  | _ => fail d
  end.

(** *** Data *)

Definition data_in (d : ata_drive) : Z * ata_drive :=
  match d_phase d with
  | DataIn source pos room blocks size =>
      (source pos + source (pos + 1) * 2 ^ 8,
       if room =? 2 then
         match blocks with
         | O => begin d Idle
         | S blocks => begin d (DataIn source (pos + 2) size blocks size)
         end
       else with_phase d (DataIn source (pos + 2) (room - 2) blocks size) (d_err d) (d_busy d))
  | _ => (0, d)
  end.

Definition data_out (d : ata_drive) (v : Z) : ata_drive :=
  match d_phase d with
  | DataOut pos room blocks =>
      let d := with_image d (writew (d_image d) pos v) in
      if room =? 2 then
        match blocks with
        | O => begin d Idle
        | S blocks => begin d (DataOut (pos + 2) 512 blocks)
        end
      else with_phase d (DataOut (pos + 2) (room - 2) blocks) (d_err d) (d_busy d)
  | Packet got =>
      let got := got ++ [u8 v; u8 (Z.shiftr v 8)] in
      if (length got =? 12)%nat then packet d got else with_phase d (Packet got) (d_err d) (d_busy d)
  | _ => d
  end.

(** *** Ports *)

Definition shift_in (r : hob) (v : Z) : hob := (v, r.1).

(** The command block, and the device control register. *)
Definition get_reg (k : Z) (d : ata_drive) : Z * ata_drive :=
  if k =? ATA_CB_STAT then (status d, look d)
  else if k =? ATA_CB_ERR then (if d_err d then 4 else 0, d)
  else if k =? ATA_CB_SC then ((r_sc d).1, d)
  else if k =? ATA_CB_SN then ((r_sn d).1, d)
  else if k =? ATA_CB_CL then ((r_cl d).1, d)
  else if k =? ATA_CB_CH then ((r_ch d).1, d)
  else if k =? ATA_CB_DH then (r_dh d, d)
  else (0, d).

Definition set_reg (k v : Z) (d : ata_drive) : ata_drive :=
  if k =? ATA_CB_CMD then if selected d then execute d v else d
  else if k =? ATA_CB_SC then with_regs d (shift_in (r_sc d) v) (r_sn d) (r_cl d) (r_ch d) (r_dh d) (r_dc d)
  else if k =? ATA_CB_SN then with_regs d (r_sc d) (shift_in (r_sn d) v) (r_cl d) (r_ch d) (r_dh d) (r_dc d)
  else if k =? ATA_CB_CL then with_regs d (r_sc d) (r_sn d) (shift_in (r_cl d) v) (r_ch d) (r_dh d) (r_dc d)
  else if k =? ATA_CB_CH then with_regs d (r_sc d) (r_sn d) (r_cl d) (shift_in (r_ch d) v) (r_dh d) (r_dc d)
  else if k =? ATA_CB_DH then with_regs d (r_sc d) (r_sn d) (r_cl d) (r_ch d) v (r_dc d)
  else d.

Definition set_dc (v : Z) (d : ata_drive) : ata_drive :=
  let d := with_regs d (r_sc d) (r_sn d) (r_cl d) (r_ch d) (r_dh d) v in
  if has v ATA_CB_DC_SRST then begin d Idle else d.

Definition drive_inb (port : Z) (d : ata_drive) : Z * ata_drive :=
  let k := port - d_base1 (d_model d) in
  if (0 <=? k) && (k <? 8) then get_reg k d
  else if port - d_base2 (d_model d) =? ATA_CB_ASTAT then (status d, d)
  else (0xff, d).

Definition drive_outb (v port : Z) (d : ata_drive) : ata_drive :=
  let k := port - d_base1 (d_model d) in
  if (0 <=? k) && (k <? 8) then set_reg k v d
  else if port - d_base2 (d_model d) =? ATA_CB_DC then set_dc v d
  else d.

#[export] Instance drive_ports : PortDevice ata_drive := {
  port_inb := drive_inb;
  port_outb := drive_outb;
  port_rdtscll d := (d_clock d, with_time d (d_busy d) (d_clock d + 1));
  port_udelay _ d := d;
  port_yield d := d }.

(** A 32-bit access is two of 16 bits. *)
#[export] Instance drive_ide : IdePorts ata_drive := {
  port_inw port d := if port =? d_base1 (d_model d) then data_in d else (0, d);
  port_outw v port d := if port =? d_base1 (d_model d) then data_out d v else d;
  port_inl port d :=
    if port =? d_base1 (d_model d) then
      let '(lo, d) := data_in d in let '(hi, d) := data_in d in (u16 lo + u16 hi * 2 ^ 16, d)
    else (0, d);
  port_outl v port d :=
    if port =? d_base1 (d_model d) then data_out (data_out d (u16 v)) (u16 (Z.shiftr v 16)) else d;
  port_ndelay _ d := d;
  port_msleep _ d := d }.

(** ** Bytes that move *)

Lemma stored_none m buf src off : stored m buf 0 src off = m.
Proof. extensionality x. unfold stored. case_test; [lia|done]. Qed.

Lemma stored_app m buf n k src off : 0 <= n -> 0 <= k ->
  stored (stored m buf n src off) (buf + n) k src (off + n) = stored m buf (n + k) src off.
Proof. intros Hn Hk. extensionality x. unfold stored. addr_cases; try lia; done || (f_equal; lia). Qed.

Lemma stored_word m buf src pos : (forall i, in_u 8 (src i)) ->
  writew m buf (src pos + src (pos + 1) * 2 ^ 8) = stored m buf 2 src pos.
Proof.
  intros Hs. extensionality x. rewrite writew_eq by done. unfold writeb, stored. rewrite !wrap_small by done.
  addr_cases; try lia; done || (f_equal; lia).
Qed.

(** Two words are a long word. *)
Lemma writel_words m a lo hi : in_u 16 lo -> in_u 16 hi ->
  writel m a (lo + hi * 2 ^ 16) = writew (writew m a lo) (a + 2) hi.
Proof.
  intros Hlo Hhi. unfold writel. rewrite shiftr_hi by (done || lia). f_equal. extensionality x. unfold writew, writeb.
  case_test; [|case_test; [|done]].
  - unfold wrap. rewrite !Z.shiftr_div_pow2 by lia. change (2 ^ 16) with (2 ^ 8 * 2 ^ 8).
    rewrite Z.mul_assoc, Z.div_add by lia. by rewrite Z.mod_add by lia.
  - unfold wrap. change (2 ^ 16) with (2 ^ 8 * 2 ^ 8). rewrite Z.mul_assoc. by rewrite Z.mod_add by lia.
Qed.

Lemma ports_some {A} (f : P ata_drive A) a m d d' : f d = Some (a, d') -> ports f (m, d) = Some (a, (m, d')).
Proof. intros E. unfold ports, on_port. by rewrite E. Qed.

(** ** Waiting *)

Section Drive.
Context (CONFIG_ATA_DMA CONFIG_ATA_PIO32 : bool) (fuel : nat) (cpu_khz : Z) (Hkhz : 0 <= cpu_khz < 2 ^ 32).

(** A drive whose ports do not overlap and wrap, and that is never busy for too long. *)
Record sound (M : drive_model) : Prop := {
  sound_base1 : 0 <= d_base1 M /\ d_base1 M + 8 <= 2 ^ 16;
  sound_base2 : 0 <= d_base2 M /\ d_base2 M + 2 < 2 ^ 16;
  sound_apart : ~ (d_base1 M <= d_base2 M + 2 < d_base1 M + 8);
  sound_time : Z.of_nat (d_lag M) <= cpu_khz * IDE_TIMEOUT;
  sound_fuel : (d_lag M < fuel)%nat }.

Definition calm (d : ata_drive) : Prop := sound (d_model d) /\ (d_busy d <= d_lag (d_model d))%nat.

(** The drive after a wait. *)
Definition settled (d : ata_drive) (c : Z) : ata_drive := with_time d (if selected d then O else d_busy d) c.
Definition settled_status (d : ata_drive) : Z := if selected d then ready_status d else 0.

Lemma reg_base1 M k : sound M -> 0 <= k < 8 -> reg (d_base1 M) k = d_base1 M + k.
Proof. intros [H1 _ _ _ _] Hk. apply wrap_small. unfold in_u. lia. Qed.

Lemma reg_base2 M : sound M -> reg (d_base2 M) ATA_CB_DC = d_base2 M + 2.
Proof. intros [_ H2 _ _ _]. apply wrap_small. unfold in_u, ATA_CB_DC. lia. Qed.

Lemma status_range d : in_u 8 (status d) /\ 0 <= settled_status d.
Proof.
  unfold status, settled_status, ready_status.
  destruct (selected d), (d_busy d), (d_err d), (d_phase d); vm_compute; intuition congruence.
Qed.

Lemma inb_reg d k : sound (d_model d) -> 0 <= k < 8 ->
  inb (reg (d_base1 (d_model d)) k) d = Some (u8 (get_reg k d).1, (get_reg k d).2).
Proof.
  intros Hs Hk. rewrite reg_base1 by done. unfold inb. cbn [port_inb drive_ports]. unfold drive_inb.
  replace (_ + k - _) with k by lia. rewrite (proj2 (Z.leb_le 0 k)), (proj2 (Z.ltb_lt k 8)) by lia. cbn [andb].
  by destruct (get_reg k d).
Qed.

Lemma outb_reg M d v k : d_model d = M -> sound M -> 0 <= k < 8 ->
  outb v (reg (d_base1 M) k) d = Some (tt, set_reg k (u8 v) d).
Proof.
  intros <- Hs Hk. rewrite reg_base1 by done. unfold outb. cbn [port_outb drive_ports]. unfold drive_outb.
  replace (_ + k - _) with k by lia. by rewrite (proj2 (Z.leb_le 0 k)), (proj2 (Z.ltb_lt k 8)) by lia.
Qed.

Lemma outb_dc M d v : d_model d = M -> sound M -> outb v (reg (d_base2 M) ATA_CB_DC) d = Some (tt, set_dc (u8 v) d).
Proof.
  intros <- Hs. pose proof Hs as [_ _ Ha _ _]. rewrite reg_base2 by done. unfold outb. cbn [port_outb drive_ports].
  unfold drive_outb. case_test; [lia|]. by replace (_ + 2 - _) with ATA_CB_DC by (unfold ATA_CB_DC; lia).
Qed.

Lemma inb_astat M d : d_model d = M -> sound M -> inb (reg (d_base2 M) ATA_CB_ASTAT) d = Some (status d, d).
Proof.
  intros <- Hs. pose proof Hs as [_ _ Ha _ _]. change ATA_CB_ASTAT with ATA_CB_DC. rewrite reg_base2 by done. unfold inb.
  cbn [port_inb drive_ports]. unfold drive_inb. case_test; [lia|].
  replace (_ + 2 - _) with ATA_CB_ASTAT by (unfold ATA_CB_ASTAT; lia). cbn [Z.eqb ATA_CB_ASTAT Pos.eqb].
  by rewrite (wrap_small 8) by apply status_range.
Qed.

Lemma drive_look d : sound (d_model d) ->
  inb (reg (d_base1 (d_model d)) ATA_CB_STAT) d = Some (status d, look d).
Proof.
  intros Hs. rewrite inb_reg by (done || (unfold ATA_CB_STAT; lia)). cbn [get_reg Z.eqb Pos.eqb ATA_CB_STAT fst snd].
  by rewrite (wrap_small 8) by apply status_range.
Qed.

(** A wait for the drive not to be busy ends in time. *)
Lemma poll_settles n f E d :
  sound (d_model d) -> (if selected d then d_busy d else O) = n -> (n < f)%nat -> d_clock d + Z.of_nat n <= E + 1 -> E < d_clock d + 2 ^ 60 ->
  exists c, poll f (status ← inb (reg (d_base1 (d_model d)) ATA_CB_STAT); mret (status, Z.land status ATA_CB_STAT_BSY =? 0)) (u64 E) d
    = Some ((settled_status d, true), settled d c).
Proof.
  revert f d. induction n as [|n IH]; intros f d Hs Hn Hf HE HE2; (destruct f as [|f]; [lia|]); cbn [poll].
  - exists (d_clock d). rewrite (P_bind_some _ _ _ (status d, true) (look d)); cycle 1.
    { rewrite (P_bind_some _ _ _ _ _ (drive_look d Hs)). unfold mret, P_ret. do 3 f_equal.
      unfold status, ready_status. destruct (selected d); [rewrite Hn|done]. by destruct (d_err d), (d_phase d). }
    unfold mret, P_ret. unfold status, settled_status, settled, look. destruct (selected d); [by rewrite Hn|by destruct d].
  - destruct (selected d) eqn:Es; [|done].
    rewrite (P_bind_some _ _ _ (status d, false) (look d)); cycle 1.
    { rewrite (P_bind_some _ _ _ _ _ (drive_look d Hs)). unfold mret, P_ret, status. rewrite Es, Hn. done. }
    unfold look. rewrite Es. cbv beta iota. rewrite (P_bind_some _ _ _ _ _ eq_refl).
    cbn [port_rdtscll drive_ports with_time d_clock]. rewrite check_time_spec by lia.
    rewrite (proj2 (Z.ltb_ge _ _)) by lia. rewrite (P_bind_some _ _ _ _ _ eq_refl). cbn [port_yield drive_ports].
    set (d' := with_time _ _ _). assert (selected d' = true) as Es' by done.
    destruct (IH f d') as [c E']; try done; try lia.
    { rewrite Es'. cbn. by rewrite Hn. }
    { cbn [d_clock d' with_time]. lia. }
    { cbn [d_clock d' with_time]. lia. }
    exists c. change (d_model d') with (d_model d) in E'. rewrite E'. unfold settled_status, settled. by rewrite Es, Es'.
Qed.

Lemma await_settles d : calm d ->
  exists c, await_not_bsy fuel cpu_khz (d_base1 (d_model d)) d = Some (settled_status d, settled d c).
Proof.
  intros [Hs Hb]. pose proof Hs as [_ _ _ Ht Hf]. unfold await_not_bsy, await_ide.
  rewrite (P_bind_some _ _ _ _ _ eq_refl). cbn [port_rdtscll drive_ports]. rewrite calc_future_spec.
  unfold IDE_TIMEOUT in *. set (d1 := with_time d (d_busy d) (d_clock d + 1)).
  destruct (poll_settles (if selected d then d_busy d else O) fuel (d_clock d + cpu_khz * 32000) d1) as [c E]; try done.
  { destruct (selected d); lia. }
  { cbn [d1 d_clock with_time]. destruct (selected d); lia. }
  { cbn [d1 d_clock with_time]. lia. }
  exists c. rewrite (P_bind_some _ _ _ _ _ E). done.
Qed.

(** ** Commands *)

(** The registers hold a command for the drive. *)
Definition loaded (d : ata_drive) (cmd : ata_pio_command) (dh c : Z) : ata_drive :=
  let ext := Z.ldiff (cmd_command cmd) 0x11 =? ATA_CMD_READ_SECTORS_EXT in
  let pair (r : hob) (v v2 : Z) : hob := (u8 v, if ext then u8 v2 else r.1) in
  with_regs (with_time d O c) (pair (r_sc d) (sector_count cmd) (sector_count2 cmd)) (pair (r_sn d) (lba_low cmd) (lba_low2 cmd))
    (pair (r_cl d) (lba_mid cmd) (lba_mid2 cmd)) (pair (r_ch d) (lba_high cmd) (lba_high2 cmd)) dh (r_dc d).

Lemma write_regs_loads M d cmd : d_model d = M -> sound M -> selected d = true -> d_busy d = O ->
  write_regs (d_base1 M) cmd d = Some (tt, execute (loaded d cmd (r_dh d) (d_clock d)) (u8 (cmd_command cmd))).
Proof.
  intros HM Hs Hsel Hb. unfold write_regs, loaded.
  assert (forall d' k v B (f : unit -> P ata_drive B), d_model d' = M -> 0 <= k < 8 ->
    (outb v (reg (d_base1 M) k) ≫= f) d' = f tt (set_reg k (u8 v) d')) as step.
  { intros d' k v B f Hd' Hk. by rewrite (P_bind_some _ _ _ _ _ (outb_reg M d' v k Hd' Hs Hk)). }
  assert (forall d', selected d' = true -> d_model d' = M -> outb (cmd_command cmd) (reg (d_base1 M) ATA_CB_CMD) d'
    = Some (tt, execute d' (u8 (cmd_command cmd)))) as last.
  { intros d' Hsel' Hd'. rewrite (outb_reg M) by done. cbn [set_reg Z.eqb Pos.eqb ATA_CB_CMD]. by rewrite Hsel'. }
  assert (with_time d O (d_clock d) = d) as Ht by (destruct d; cbn in *; by subst).
  case_test; rewrite Ht.
  - repeat rewrite P_bind_assoc, step by done. rewrite step by done.
    repeat rewrite step by done. rewrite last by done. reflexivity.
  - rewrite (P_bind_some _ _ _ tt d eq_refl). repeat rewrite step by done. by rewrite last.
Qed.

(** The drive of the request. *)
Definition on_channel (a : atadrive_s) (M : drive_model) : Prop :=
  iobase1 (chan_gf a) = d_base1 M /\ iobase2 (chan_gf a) = d_base2 M /\ slave a = d_slave M.

Definition newdh (a : atadrive_s) (cmd : ata_pio_command) : Z :=
  Z.lor (Z.ldiff (device cmd) ATA_CB_DH_DEV1) (if slave a then ATA_CB_DH_DEV1 else ATA_CB_DH_DEV0).

Lemma newdh_bit a cmd : Z.testbit (u8 (newdh a cmd)) 4 = slave a.
Proof using. clear Hkhz.
  unfold wrap. rewrite Z.mod_pow2_bits_low by lia. unfold newdh. rewrite Z.lor_spec, Z.ldiff_spec.
  destruct (slave a); cbn; by rewrite ?andb_false_r, ?orb_true_r.
Qed.

Lemma send_cmd_loads M a cmd d : calm d -> d_model d = M -> on_channel a M ->
  exists c, send_cmd fuel cpu_khz a cmd d = Some (0, execute (loaded d cmd (u8 (newdh a cmd)) c) (u8 (cmd_command cmd))).
Proof.
  intros Hc HM (E1 & E2 & E3). pose proof Hc as [Hs Hb]. unfold send_cmd. rewrite E1. cbv zeta.
  destruct (await_settles d Hc) as [c1 Ew]. rewrite HM in *. rewrite (P_bind_some _ _ _ _ _ Ew).
  rewrite (proj2 (Z.ltb_ge _ _)) by apply status_range.
  pose proof (inb_reg (settled d c1) ATA_CB_DH) as Ei. change (d_model (settled d c1)) with (d_model d) in Ei.
  rewrite HM in Ei. rewrite (P_bind_some _ _ _ _ _ (Ei Hs ltac:(done))). clear Ei. fold (newdh a cmd).
  cbn [get_reg Z.eqb Pos.eqb ATA_CB_DH ATA_CB_STAT ATA_CB_ERR ATA_CB_SC ATA_CB_SN ATA_CB_CL ATA_CB_CH fst snd].
  rewrite (P_bind_some _ _ _ _ _ (outb_reg M (settled d c1) _ ATA_CB_DH HM Hs ltac:(done))).
  set (d2 := set_reg ATA_CB_DH _ _). assert (selected d2 = true) as Hsel2.
  { unfold selected. change (r_dh d2) with (u8 (newdh a cmd)). change (d_model d2) with (d_model d).
    rewrite newdh_bit, HM, E3. apply eqb_reflx. }
  assert (exists c st, 0 <= st /\ (if has (Z.lxor (u8 (r_dh (settled d c1))) (newdh a cmd)) (Z.shiftl 1 4)
    then ndelay_await_not_bsy fuel cpu_khz (d_base1 M) else mret 0) d2 = Some (st, with_time d2 O c)) as (c & st & Hst & E).
  { rewrite has_bit, Z.lxor_spec by lia. case_test.
    - destruct (await_settles d2) as [c Ew2].
      { split; change (d_model d2) with (d_model d); [by rewrite HM|].
        change (d_busy d2) with (if selected d then O else d_busy d). rewrite HM. case_test; lia. }
      exists c, (settled_status d2). split; [apply status_range|]. unfold ndelay_await_not_bsy.
      rewrite (P_bind_some _ _ _ _ d2 eq_refl). change (d_model d2) with (d_model d) in Ew2. rewrite HM in Ew2. rewrite Ew2.
      unfold settled. by rewrite Hsel2.
    - exists (d_clock d2), 0. split; [done|]. unfold mret, P_ret. do 2 f_equal.
      apply xorb_eq in E as E'. cbn [settled with_time r_dh] in E'. unfold wrap in E'. rewrite Z.mod_pow2_bits_low in E' by lia.
      assert (selected d = true) as Hsel.
      { unfold selected. rewrite E', HM, <- E3. rewrite <- (newdh_bit a cmd). unfold wrap. rewrite Z.mod_pow2_bits_low by lia.
        apply eqb_reflx. }
      unfold d2, settled. by rewrite Hsel. }
  rewrite (P_bind_some _ _ _ _ _ E). rewrite (proj2 (Z.ltb_ge _ _)) by done.
  rewrite (P_bind_some _ _ _ _ _ (write_regs_loads M (with_time d2 O c) cmd HM Hs Hsel2 eq_refl)).
  exists c. unfold mret, P_ret. done.
Qed.

(** ** Data *)

Lemma data_port M : sound M -> reg (d_base1 M) ATA_CB_DATA = d_base1 M.
Proof. intros Hs. rewrite reg_base1 by (done || (unfold ATA_CB_DATA; lia)). apply Z.add_0_r. Qed.

(** What follows a block that was sent or received. *)
Definition next_in (d : ata_drive) (src : Z -> Z) (pos : Z) (b : nat) (size : Z) : ata_drive :=
  match b with O => begin d Idle | S b => begin d (DataIn src pos size b size) end.
Definition next_out (d : ata_drive) (pos : Z) (b : nat) : ata_drive :=
  match b with O => begin d Idle | S b => begin d (DataOut pos 512 b) end.

Lemma insw_block k m buf d src pos b size :
  sound (d_model d) -> (forall i, in_u 8 (src i)) -> d_phase d = DataIn src pos (2 * Z.of_nat (S k)) b size ->
  insw (d_base1 (d_model d)) buf (S k) (m, d)
  = Some (tt, (stored m buf (2 * Z.of_nat (S k)) src pos, next_in d src (pos + 2 * Z.of_nat (S k)) b size)).
Proof.
  intros Hs Hsrc. revert m buf d pos Hs. induction k as [|k IH]; intros m buf d pos Hs Hp.
  all: assert (exists d', ports (inw (d_base1 (d_model d))) (m, d) = Some (src pos + src (pos + 1) * 2 ^ 8, (m, d')) /\
    data_in d = (src pos + src (pos + 1) * 2 ^ 8, d')) as (d' & E & Ed).
  1, 3: unfold data_in; rewrite Hp; eexists; split; [|done]; apply ports_some; unfold inw; cbn [port_inw drive_ide];
    rewrite Z.eqb_refl; unfold data_in; rewrite Hp; rewrite wrap_small; [done|];
    pose proof (Hsrc pos); pose proof (Hsrc (pos + 1)); unfold in_u in *; lia.
  - cbn [insw]. rewrite (P_bind_some _ _ _ _ _ E), modify_bind, stored_word by done.
    unfold data_in in Ed. rewrite Hp in Ed. change (2 * Z.of_nat 1 =? 2) with true in Ed. injection Ed as <-. done.
  - change (insw ?p ?b (S (S k)) ?s) with ((v ← ports (inw p); modify (fun m => writew m b v);; insw p (b + 2) (S k)) s).
    rewrite (P_bind_some _ _ _ _ _ E), modify_bind, stored_word by done.
    unfold data_in in Ed. rewrite Hp in Ed. rewrite (proj2 (Z.eqb_neq _ _)) in Ed by lia. injection Ed as <-.
    replace (2 * Z.of_nat (S (S k)) - 2) with (2 * Z.of_nat (S k)) by lia.
    set (d' := with_phase _ _ _ _). change (d_model d) with (d_model d').
    rewrite (IH _ _ d' (pos + 2)) by done. rewrite stored_app by lia.
    replace (2 + 2 * Z.of_nat (S k)) with (2 * Z.of_nat (S (S k))) by lia.
    by replace (pos + 2 + 2 * Z.of_nat (S k)) with (pos + 2 * Z.of_nat (S (S k))) by lia.
Qed.

Lemma insl_words k m buf d : insl (d_base1 (d_model d)) buf k (m, d) = insw (d_base1 (d_model d)) buf (2 * k) (m, d).
Proof.
  revert m buf d. induction k as [|k IH]; intros m buf d; [done|]. rewrite Nat.mul_succ_r, Nat.add_comm. cbn [insl insw Nat.add].
  assert (forall d, exists v d1, data_in d = (v, d1) /\ d_model d1 = d_model d) as Hin.
  { intros d0. unfold data_in. destruct (d_phase d0) as [| ? ? ? b ?| |]; try (by eexists _, _).
    case_test; [destruct b|]; by eexists _, _. }
  destruct (Hin d) as (lo & d1 & E1 & M1). destruct (Hin d1) as (hi & d2 & E2 & M2).
  assert (ports (inw (d_base1 (d_model d))) (m, d) = Some (u16 lo, (m, d1))) as W1.
  { apply ports_some. unfold inw. cbn [port_inw drive_ide]. by rewrite Z.eqb_refl, E1. }
  assert (forall m', ports (inw (d_base1 (d_model d))) (m', d1) = Some (u16 hi, (m', d2))) as W2.
  { intros m'. apply ports_some. unfold inw. cbn [port_inw drive_ide]. by rewrite M1, Z.eqb_refl, E2. }
  assert (ports (inl_ (d_base1 (d_model d))) (m, d) = Some (u16 lo + u16 hi * 2 ^ 16, (m, d2))) as L.
  { apply ports_some. unfold inl_. cbn [port_inl drive_ide]. rewrite Z.eqb_refl, E1, E2. rewrite wrap_small; [done|].
    pose proof (wrap_range 16 ltac:(lia) lo). pose proof (wrap_range 16 ltac:(lia) hi). unfold in_u in *. lia. }
  rewrite (P_bind_some _ _ _ _ _ L), modify_bind, (P_bind_some _ _ _ _ _ W1),
    modify_bind, (P_bind_some _ _ _ _ _ (W2 _)), modify_bind.
  rewrite writel_words by (apply wrap_range; lia). rewrite <- M1, <- M2. replace (buf + 4) with (buf + 2 + 2) by lia. apply IH.
Qed.

(** *** The loops *)

Lemma pause_settles M d : calm d -> d_model d = M ->
  exists c, pause_await_not_bsy fuel cpu_khz (d_base1 M) (d_base2 M) d = Some (settled_status d, settled d c).
Proof.
  intros Hc HM. unfold pause_await_not_bsy. rewrite (P_bind_some _ _ _ _ _ (inb_astat M d HM (eq_ind _ sound (proj1 Hc) _ HM))).
  rewrite <- HM. by apply await_settles.
Qed.

Lemma ndelay_settles M d : calm d -> d_model d = M ->
  exists c, ndelay_await_not_bsy fuel cpu_khz (d_base1 M) d = Some (settled_status d, settled d c).
Proof. intros Hc <-. by apply await_settles. Qed.

(** Sizes of blocks: any number of 32-bit words that fits the count of the string instructions. *)
Definition block_size (size : Z) : Prop := size mod 4 = 0 /\ 0 < size < 2 ^ 17.

Lemma words_of size : block_size size ->
  exists j, (0 < j)%nat /\ Z.to_nat (u16 (size / 4)) = j /\ Z.to_nat (u16 (size / 2)) = (2 * j)%nat /\ size = 2 * Z.of_nat (2 * j).
Proof using. clear Hkhz.
  intros [Hm Hs]. exists (Z.to_nat (size / 4)). rewrite !wrap_small by (unfold in_u; Z.to_euclidean_division_equations; lia).
  Z.to_euclidean_division_equations. lia.
Qed.

Lemma pio_block_in M m buf d src pos b size :
  d_model d = M -> sound M -> (forall i, in_u 8 (src i)) -> block_size size -> d_phase d = DataIn src pos size b size ->
  pio_block CONFIG_ATA_PIO32 false (d_base1 M) buf size (m, d)
  = Some (tt, (stored m buf size src pos, next_in d src (pos + size) b size)).
Proof.
  intros <- Hs Hsrc Hsz Hp. unfold pio_block. rewrite data_port by done.
  destruct (words_of size Hsz) as (j & Hj & -> & -> & E).
  assert ((if CONFIG_ATA_PIO32 then insl (d_base1 (d_model d)) buf j else insw (d_base1 (d_model d)) buf (2 * j)) (m, d)
    = insw (d_base1 (d_model d)) buf (2 * j) (m, d)) as -> by (case_test; [apply insl_words|done]).
  destruct (2 * j)%nat as [|k] eqn:Ek; [lia|]. rewrite (insw_block k m buf d src pos b size) by (done || by rewrite <- E). by rewrite <- E.
Qed.

(** Reading: the blocks arrive one after the other.  The loop succeeds when the drive has
    as many as it expects; when the drive runs out first, or the loop expects none, all
    the blocks of the drive arrive and the count left is off by them. *)
Lemma pio_reads M chan src size b rounds count m buf d pos :
  calm d -> d_model d = M -> iobase1 chan = d_base1 M -> iobase2 chan = d_base2 M -> selected d = true ->
  (forall i, in_u 8 (src i)) -> block_size size -> d_phase d = DataIn src pos size b size -> (b < rounds)%nat ->
  ~ (1 <= count <= Z.of_nat b) ->
  exists c, pio_loop CONFIG_ATA_PIO32 fuel cpu_khz rounds chan false size buf count (m, d)
  = Some ((if count =? Z.of_nat b + 1 then (0, ATA_CB_STAT_RDY, 0) else (-6, 0, count - (Z.of_nat b + 1))),
      (stored m buf (size * (Z.of_nat b + 1)) src pos, with_time (begin d Idle) O c)).
Proof.
  intros Hc HM E1 E2 Hsel Hsrc Hsz. revert rounds count m buf d pos Hc HM Hsel.
  induction b as [|b IH]; intros rounds count m buf d pos Hc HM Hsel Hp Hr Hn; (destruct rounds as [|rounds]; [lia|]); cbn [pio_loop].
  all: pose proof Hc as [Hs Hb]; rewrite HM in Hs; rewrite E1, E2.
  all: rewrite (P_bind_some _ _ _ _ _ (pio_block_in M m buf d src pos _ size HM Hs Hsrc Hsz Hp)); cbn [next_in]; cbv zeta.
  all: match goal with |- context [(_, begin ?d0 ?ph)] => set (d1 := begin d0 ph) end.
  all: assert (calm d1) as Hc1 by (split; [apply Hc|reflexivity]).
  all: destruct (pause_settles M d1 Hc1 HM) as [c E]; assert (selected d1 = true) as Hsel1 by done;
    unfold settled_status, settled in E; rewrite Hsel1 in E; rewrite (P_bind_some _ _ _ _ _ (ports_some _ _ _ _ _ E)).
  - change (ready_status d1) with ATA_CB_STAT_RDY. exists c. change (ATA_CB_STAT_RDY <? 0) with false. cbv iota.
    change (Z.of_nat 0 + 1) with 1. rewrite Z.mul_1_r.
    destruct (Z.eqb_spec (count - 1) 0), (Z.eqb_spec count 1); try lia; [|done]. by replace (count - 1) with 0 by lia.
  - change (ready_status d1) with 0x48. change (0x48 <? 0) with false. cbv iota.
    rewrite (proj2 (Z.eqb_neq (count - 1) 0)) by lia.
    destruct (IH rounds (count - 1) (stored m buf size src pos) (buf + size) (with_time d1 O c) (pos + size)) as [c' E'];
      try done; try lia.
    { split; [by destruct Hc1|]. cbn. lia. }
    exists c'. change (negb _) with false. cbv iota. rewrite E'.
    destruct Hsz as [_ Hsz]. rewrite stored_app by lia. rewrite Nat2Z.inj_succ.
    replace (size + size * (Z.of_nat b + 1)) with (size * (Z.succ (Z.of_nat b) + 1)) by lia.
    replace (count - 1 =? Z.of_nat b + 1) with (count =? Z.succ (Z.of_nat b) + 1)
      by (destruct (Z.eqb_spec count (Z.succ (Z.of_nat b) + 1)), (Z.eqb_spec (count - 1) (Z.of_nat b + 1)); done || lia).
    by replace (count - 1 - (Z.of_nat b + 1)) with (count - (Z.succ (Z.of_nat b) + 1)) by lia.
Qed.

Lemma readw_word m a : bytes m -> u16 (readw m a) = m a + m (a + 1) * 2 ^ 8.
Proof using. clear Hkhz.
  intros Hm. rewrite readw_sum by done. apply wrap_small. pose proof (Hm a). pose proof (Hm (a + 1)). unfold in_u in *. lia.
Qed.

Lemma outsw_block k m buf d pos b :
  bytes m -> d_phase d = DataOut pos (2 * Z.of_nat (S k)) b ->
  outsw (d_base1 (d_model d)) buf (S k) (m, d)
  = Some (tt, (m, next_out (with_image d (stored (d_image d) pos (2 * Z.of_nat (S k)) m buf)) (pos + 2 * Z.of_nat (S k)) b)).
Proof.
  intros Hm. revert buf d pos. induction k as [|k IH]; intros buf d pos Hp.
  all: assert (ports (outw (readw m buf) (d_base1 (d_model d))) (m, d) = Some (tt, (m, data_out d (m buf + m (buf + 1) * 2 ^ 8)))) as E
    by (apply ports_some; unfold outw; cbn [port_outw drive_ide]; by rewrite Z.eqb_refl, readw_word).
  all: unfold data_out in E; rewrite Hp, stored_word in E by done; cbv zeta in E.
  - cbn [outsw]. rewrite gets_bind. by rewrite (P_bind_some _ _ _ _ _ E).
  - change (outsw ?p ?a (S (S k)) ?s) with ((v ← gets (fun m => readw m a); ports (outw v p);; outsw p (a + 2) (S k)) s).
    rewrite gets_bind, (P_bind_some _ _ _ _ _ E). clear E. rewrite (proj2 (Z.eqb_neq _ _)) by lia.
    replace (2 * Z.of_nat (S (S k)) - 2) with (2 * Z.of_nat (S k)) by lia.
    match goal with |- context [(m, with_phase ?i ?p ?e ?y)] => set (d' := with_phase i p e y) end.
    change (d_model d) with (d_model d'). rewrite (IH _ d' (pos + 2)) by done.
    change (d_image d') with (stored (d_image d) pos 2 m buf). rewrite stored_app by lia.
    replace (2 + 2 * Z.of_nat (S k)) with (2 * Z.of_nat (S (S k))) by lia.
    by replace (pos + 2 + 2 * Z.of_nat (S k)) with (pos + 2 * Z.of_nat (S (S k))) by lia.
Qed.

Lemma outsl_words k m buf d : bytes m ->
  outsl (d_base1 (d_model d)) buf k (m, d) = outsw (d_base1 (d_model d)) buf (2 * k) (m, d).
Proof.
  intros Hm. revert buf d. induction k as [|k IH]; intros buf d; [done|]. rewrite Nat.mul_succ_r, Nat.add_comm. cbn [outsl outsw Nat.add].
  assert (forall d v, d_model (data_out d v) = d_model d) as Hout.
  { intros d0 v. unfold data_out. destruct (d_phase d0) as [| |? ? b|got]; try done.
    - case_test; [by destruct b|done].
    - case_test; [|done]. unfold packet, send. repeat case_match; done. }
  assert (readl m buf = u16 (readw m buf) + u16 (readw m (buf + 2)) * 2 ^ 16) as El.
  { rewrite readl_sum, !readw_word, !readw_sum by done. done. }
  set (d1 := data_out d (u16 (readw m buf))). set (d2 := data_out d1 (u16 (readw m (buf + 2)))).
  assert (forall v d, ports (outw v (d_base1 (d_model d))) (m, d) = Some (tt, (m, data_out d (u16 v)))) as W.
  { intros v d0. apply ports_some. unfold outw. cbn [port_outw drive_ide]. by rewrite Z.eqb_refl. }
  assert (ports (outl (readl m buf) (d_base1 (d_model d))) (m, d) = Some (tt, (m, d2))) as L.
  { apply ports_some. unfold outl. cbn [port_outl drive_ide]. rewrite Z.eqb_refl.
    assert (in_u 16 (u16 (readw m buf)) /\ in_u 16 (u16 (readw m (buf + 2)))) as [H1 H2] by (split; apply wrap_range; lia).
    rewrite (wrap_small 32), El by (rewrite El; unfold in_u in *; lia). rewrite shiftr_hi, wrap_lo by (done || lia).
    by rewrite wrap_idem by lia. }
  rewrite !gets_bind, (P_bind_some _ _ _ _ _ L), (P_bind_some _ _ _ _ _ (W _ _)), !gets_bind.
  fold d1. rewrite <- (Hout d (u16 (readw m buf))). fold d1. rewrite (P_bind_some _ _ _ _ _ (W _ _)). fold d2.
  rewrite <- (Hout d1 (u16 (readw m (buf + 2)))). fold d2. replace (buf + 4) with (buf + 2 + 2) by lia. apply IH.
Qed.

Lemma pio_block_out M m buf d pos b :
  d_model d = M -> sound M -> bytes m -> d_phase d = DataOut pos 512 b ->
  pio_block CONFIG_ATA_PIO32 true (d_base1 M) buf 512 (m, d)
  = Some (tt, (m, next_out (with_image d (stored (d_image d) pos 512 m buf)) (pos + 512) b)).
Proof.
  intros <- Hs Hm Hp. unfold pio_block. rewrite data_port by done.
  change (Z.to_nat (u16 (512 / 4))) with 128%nat. change (Z.to_nat (u16 (512 / 2))) with (2 * 128)%nat.
  assert ((if CONFIG_ATA_PIO32 then outsl (d_base1 (d_model d)) buf 128 else outsw (d_base1 (d_model d)) buf (2 * 128)) (m, d)
    = outsw (d_base1 (d_model d)) buf (S 255) (m, d)) as -> by (case_test; [by apply outsl_words|done]).
  by rewrite (outsw_block 255 m buf d pos b).
Qed.

(** Writing: the blocks are taken one after the other. *)
Lemma pio_writes M chan m b rounds buf d pos :
  calm d -> d_model d = M -> iobase1 chan = d_base1 M -> iobase2 chan = d_base2 M -> selected d = true ->
  bytes m -> d_phase d = DataOut pos 512 b -> (b < rounds)%nat ->
  exists c, pio_loop CONFIG_ATA_PIO32 fuel cpu_khz rounds chan true 512 buf (Z.of_nat b + 1) (m, d)
  = Some ((0, ATA_CB_STAT_RDY, 0),
      (m, with_time (begin (with_image d (stored (d_image d) pos (512 * (Z.of_nat b + 1)) m buf)) Idle) O c)).
Proof.
  intros Hc HM E1 E2 Hsel Hm. revert rounds buf d pos Hc HM Hsel.
  induction b as [|b IH]; intros rounds buf d pos Hc HM Hsel Hp Hr; (destruct rounds as [|rounds]; [lia|]); cbn [pio_loop].
  all: pose proof Hc as [Hs Hb]; rewrite HM in Hs; rewrite E1, E2.
  all: rewrite (P_bind_some _ _ _ _ _ (pio_block_out M m buf d pos _ HM Hs Hm Hp)); cbn [next_out]; cbv zeta.
  all: match goal with |- context [(_, begin ?d0 ?ph)] => set (d1 := begin d0 ph) end.
  all: assert (calm d1) as Hc1 by (split; [apply Hc|reflexivity]).
  all: destruct (pause_settles M d1 Hc1 HM) as [c E]; assert (selected d1 = true) as Hsel1 by done;
    unfold settled_status, settled in E; rewrite Hsel1 in E; rewrite (P_bind_some _ _ _ _ _ (ports_some _ _ _ _ _ E)).
  - change (ready_status d1) with ATA_CB_STAT_RDY. by exists c.
  - change (ready_status d1) with 0x48. change (0x48 <? 0) with false. cbv iota.
    rewrite (proj2 (Z.eqb_neq _ 0)) by lia.
    replace (Z.of_nat (S b) + 1 - 1) with (Z.of_nat b + 1) by lia.
    destruct (IH rounds (buf + 512) (with_time d1 O c) (pos + 512)) as [c' E']; try done; try lia.
    { split; [by destruct Hc1|]. cbn. lia. }
    exists c'. change (negb _) with false. cbv iota. rewrite E'.
    change (d_image (with_time d1 0 c)) with (stored (d_image d) pos 512 m buf). rewrite stored_app by lia.
    by replace (512 + 512 * (Z.of_nat b + 1)) with (512 * (Z.of_nat (S b) + 1)) by lia.
Qed.

(** ** Requests *)

(** The drive waits for the next command, with the interrupts of the channel enabled. *)
Definition idle (d : ata_drive) (M : drive_model) (image : Z -> Z) : Prop :=
  calm d /\ d_model d = M /\ d_image d = image /\ d_phase d = Idle /\ d_err d = false /\ r_dc d = ATA_CB_DC_HD15.

(** A command that the drive answers with a phase. *)
Definition answered (M : drive_model) (image : Z -> Z) (a : atadrive_s) (cmd : ata_pio_command) (ph : phase_t) : Prop :=
  forall d c, d_model d = M -> d_image d = image ->
  execute (loaded d cmd (u8 (newdh a cmd)) c) (u8 (cmd_command cmd)) = begin (loaded d cmd (u8 (newdh a cmd)) c) ph.

Lemma loaded_selected M a cmd d c : d_model d = M -> on_channel a M -> selected (loaded d cmd (u8 (newdh a cmd)) c) = true.
Proof.
  intros HM (_ & _ & E3). unfold selected. change (r_dh _) with (u8 (newdh a cmd)). change (d_model (loaded _ _ _ _)) with (d_model d).
  rewrite newdh_bit, HM, E3. apply eqb_reflx.
Qed.

(** A command is sent, and the drive wants to move data. *)
Lemma command_answered M image a cmd ph d :
  calm d -> d_model d = M -> d_image d = image -> on_channel a M -> ph <> Idle -> answered M image a cmd ph ->
  exists d1 c, send_cmd fuel cpu_khz a cmd d = Some (0, d1) /\
    ata_wait_data fuel cpu_khz (d_base1 M) d1 = Some (0, with_time d1 O c) /\
    d_model d1 = M /\ d_image d1 = image /\ selected d1 = true /\ d_phase d1 = ph /\ d_err d1 = false /\ r_dc d1 = r_dc d /\
    calm d1 /\ (forall b v, cmd_command cmd = ATA_CMD_PACKET -> b = lba_mid cmd -> v = lba_high cmd ->
      (r_cl d1).1 = u8 b /\ (r_ch d1).1 = u8 v).
Proof.
  intros Hc HM HI Ha Hph Hans. destruct (send_cmd_loads M a cmd d Hc HM Ha) as [c E].
  pose proof (loaded_selected M a cmd d c HM Ha) as Hsel.
  rewrite (Hans d c HM HI) in E. set (d1 := begin _ _) in E.
  assert (calm d1) as Hc1 by (split; [apply Hc|reflexivity]).
  destruct (ndelay_settles M d1 Hc1 HM) as [c' E']. exists d1, c'. split_and!; try done.
  - unfold ata_wait_data. rewrite (P_bind_some _ _ _ _ _ E').
    unfold settled_status, settled. change (selected d1) with (selected (loaded d cmd (u8 (newdh a cmd)) c)). rewrite Hsel.
    change (ready_status d1) with (Z.lor (Z.lor ATA_CB_STAT_RDY 0) (match ph with Idle => 0 | _ => ATA_CB_STAT_DRQ end)).
    by destruct ph.
  - intros b v _ -> ->. done.
Qed.

Lemma without_irq_spec {A} M (f : P (memory * ata_drive) A) m d m1 d1 r :
  sound M -> d_model d = M -> d_model d1 = M ->
  f (m, set_dc 0x0a d) = Some (r, (m1, d1)) ->
  without_irq (d_base2 M) f (m, d) = Some (r, (m1, set_dc ATA_CB_DC_HD15 d1)).
Proof.
  intros Hs HM HM1 E. unfold without_irq. rewrite (P_bind_some _ _ _ _ _ (ports_some _ _ _ _ _ (outb_dc M d _ HM Hs))).
  rewrite (P_bind_some _ _ _ _ _ E).
  by rewrite (P_bind_some _ _ _ _ _ (ports_some _ _ _ _ _ (outb_dc M d1 _ HM1 Hs))).
Qed.

Lemma transfer_reads M chan op m d src pos b size :
  calm d -> d_model d = M -> iobase1 chan = d_base1 M -> iobase2 chan = d_base2 M -> selected d = true ->
  (forall i, in_u 8 (src i)) -> block_size size -> d_phase d = DataIn src pos size b size -> (b < fuel)%nat ->
  ~ (1 <= count op <= Z.of_nat b) ->
  exists c, ata_pio_transfer CONFIG_ATA_PIO32 fuel cpu_khz chan op false size (m, d)
  = Some ((if count op =? Z.of_nat b + 1 then (0, op) else (-6, set_count op (u16 (Z.of_nat b + 1)))),
      (stored m (buf_fl op) (size * (Z.of_nat b + 1)) src pos, with_time (begin d Idle) O c)).
Proof.
  intros Hc HM E1 E2 Hsel Hsrc Hsz Hp Hr Hn.
  destruct (pio_reads M chan src size b fuel (count op) m (buf_fl op) d pos) as [c E]; try done.
  exists c. unfold ata_pio_transfer. rewrite (P_bind_some _ _ _ _ _ E). case_test; [done|].
  cbn [negb Z.eqb]. unfold mret, P_ret. do 5 f_equal. lia.
Qed.

Lemma pio_cmd_reads M image a op cmd m d src pos b :
  calm d -> d_model d = M -> d_image d = image -> on_channel a M -> (forall i, in_u 8 (src i)) -> (b < fuel)%nat ->
  ~ (1 <= count op <= Z.of_nat b) -> answered M image a cmd (DataIn src pos 512 b 512) ->
  exists d', ata_pio_cmd_data CONFIG_ATA_PIO32 fuel cpu_khz a op false cmd (m, d)
  = Some ((if count op =? Z.of_nat b + 1 then (0, op) else (-6, set_count op (u16 (Z.of_nat b + 1)))),
      (stored m (buf_fl op) (512 * (Z.of_nat b + 1)) src pos, d')) /\ idle d' M image.
Proof.
  intros Hc HM HI Ha Hsrc Hf Hn Hans. pose proof Hc as [Hs Hb]. rewrite HM in Hs. pose proof Ha as (E1 & E2 & _).
  destruct (command_answered M image a cmd (DataIn src pos 512 b 512) (set_dc 0x0a d))
    as (d1 & c1 & Es & Ew & M1 & I1 & S1 & P1 & _ & _ & C1 & _); try done.
  assert (calm (with_time d1 O c1)) as C2 by (split; [apply C1|cbn; lia]).
  destruct (transfer_reads M (chan_gf a) op m (with_time d1 O c1) src pos b 512) as [c2 Et]; try done.
  eexists. split.
  - unfold ata_pio_cmd_data. rewrite E2. apply (without_irq_spec M); [done|done| |].
    2: { rewrite (P_bind_some _ _ _ _ _ (ports_some _ _ _ _ _ Es)). cbn [negb Z.eqb]. rewrite E1.
         rewrite (P_bind_some _ _ _ _ _ (ports_some _ _ _ _ _ Ew)). cbn [negb Z.eqb]. exact Et. }
    done.
  - split_and!; done.
Qed.

Lemma pio_cmd_writes M image a op cmd m d pos b :
  calm d -> d_model d = M -> d_image d = image -> on_channel a M -> bytes m -> (b < fuel)%nat ->
  count op = Z.of_nat b + 1 -> answered M image a cmd (DataOut pos 512 b) ->
  exists d', ata_pio_cmd_data CONFIG_ATA_PIO32 fuel cpu_khz a op true cmd (m, d) = Some ((0, op), (m, d')) /\
    idle d' M (stored image pos (512 * (Z.of_nat b + 1)) m (buf_fl op)).
Proof.
  intros Hc HM HI Ha Hm Hf Hn Hans. pose proof Hc as [Hs Hb]. rewrite HM in Hs. pose proof Ha as (E1 & E2 & _).
  destruct (command_answered M image a cmd (DataOut pos 512 b) (set_dc 0x0a d))
    as (d1 & c1 & Es & Ew & M1 & I1 & S1 & P1 & _ & _ & C1 & _); try done.
  assert (calm (with_time d1 O c1)) as C2 by (split; [apply C1|cbn; lia]).
  destruct (pio_writes M (chan_gf a) m b fuel (buf_fl op) (with_time d1 O c1) pos) as [c2 Et]; try done.
  eexists. split.
  - unfold ata_pio_cmd_data. rewrite E2. apply (without_irq_spec M); [done|done| |].
    2: { rewrite (P_bind_some _ _ _ _ _ (ports_some _ _ _ _ _ Es)). cbn [negb Z.eqb]. rewrite E1.
         rewrite (P_bind_some _ _ _ _ _ (ports_some _ _ _ _ _ Ew)). cbn [negb Z.eqb].
         unfold ata_pio_transfer. rewrite Hn. rewrite (P_bind_some _ _ _ _ _ Et). done. }
    done.
  - split_and!; try done. cbn. by rewrite I1.
Qed.

(** *** Decoding *)

(** The sectors a command of this count and size asks for. *)
Definition sectors_asked (op : disk_op_s) : Z :=
  if count op =? 0 then (if op_lba op <? 2 ^ 28 then 256 else 65536) else count op.

Lemma newdh_low a cmd : u8 (newdh a cmd) mod 16 = device cmd mod 16.
Proof using. clear Hkhz.
  unfold wrap. change 16 with (2 ^ 4). apply Z.bits_inj'. intros i Hi. destruct (Z.lt_ge_cases i 4) as [Hlt|Hge].
  - rewrite !Z.mod_pow2_bits_low by lia. unfold newdh. rewrite Z.lor_spec, Z.ldiff_spec.
    assert (i = 0 \/ i = 1 \/ i = 2 \/ i = 3) as [->|[->|[->| ->]]] by lia; destruct (slave a); cbn;
      by rewrite ?andb_true_r, ?orb_false_r.
  - by rewrite !Z.mod_pow2_bits_high by lia.
Qed.

Lemma newdh_lba a cmd : Z.testbit (u8 (newdh a cmd)) 6 = Z.testbit (device cmd) 6.
Proof using. clear Hkhz.
  unfold wrap. rewrite Z.mod_pow2_bits_low by lia. unfold newdh. rewrite Z.lor_spec, Z.ldiff_spec.
  destruct (slave a); cbn; by rewrite ?andb_true_r, ?orb_false_r.
Qed.

Lemma rw_device op iswrite usepio :
  let low := if (256 <=? count op) || (2 ^ 28 <=? u64 (op_lba op + count op)) then op_lba op mod 2 ^ 24 else op_lba op in
  device (rw_command op iswrite usepio) = Z.shiftr low 24 mod 16 + 64.
Proof using. clear Hkhz.
  intros low. unfold rw_command. cbn [device]. change (Z.shiftl 1 8) with 256. change (Z.shiftl 1 28) with (2 ^ 28).
  change 0xffffff with (Z.ones 24). rewrite Z.land_ones by lia. fold low. change 0xf with (Z.ones 4).
  rewrite Z.land_ones by lia. change ATA_CB_DH_LBA with (Z.shiftl 1 6). change (2 ^ 4) with 16.
  pose proof (Z.mod_pos_bound (Z.shiftr low 24) 16 ltac:(lia)).
  rewrite lor_shiftl by lia. apply wrap_small. unfold in_u. lia.
Qed.

(** The bytes of an address. *)
Lemma bytes_of_28 x : 0 <= x < 2 ^ 28 ->
  u8 x + u8 (Z.shiftr x 8) * 2 ^ 8 + u8 (Z.shiftr x 16) * 2 ^ 16 + Z.shiftr x 24 mod 16 * 2 ^ 24 = x.
Proof using. clear Hkhz. intros Hx. unfold wrap. rewrite !Z.shiftr_div_pow2 by lia. Z.to_euclidean_division_equations. lia. Qed.

Lemma bytes_of_48 x : 0 <= x < 2 ^ 48 -> let low := x mod 2 ^ 24 in
  u8 low + u8 (Z.shiftr low 8) * 2 ^ 8 + u8 (Z.shiftr low 16) * 2 ^ 16 + u8 (Z.shiftr x 24) * 2 ^ 24 +
    u8 (Z.shiftr x 32) * 2 ^ 32 + u8 (Z.shiftr x 40) * 2 ^ 40 = x.
Proof using. clear Hkhz. intros Hx. cbv zeta. unfold wrap. rewrite !Z.shiftr_div_pow2 by lia. Z.to_euclidean_division_equations. lia. Qed.

(** The drive decodes what [ata_readwrite] encodes. *)
Lemma rw_decoded a op iswrite d c : 0 <= op_lba op < 2 ^ 48 -> in_u 16 (count op) ->
  let cmd := rw_command op iswrite true in
  let d := loaded d cmd (u8 (newdh a cmd)) c in
  d_packet (d_model d) = false ->
  execute d (u8 (cmd_command cmd)) = transfer d iswrite (op_lba op) (sectors_asked op).
Proof using. clear Hkhz.
  intros Hl Hn cmd d1 Hp. unfold execute. rewrite Hp.
  assert (u64 (op_lba op + count op) = op_lba op + count op) as Hu by (apply wrap_small; unfold in_u in *; lia).
  set (ext := (256 <=? count op) || (2 ^ 28 <=? op_lba op + count op)).
  assert (cmd_command cmd = if ext then (if iswrite then ATA_CMD_WRITE_SECTORS_EXT else ATA_CMD_READ_SECTORS_EXT)
    else (if iswrite then ATA_CMD_WRITE_SECTORS else ATA_CMD_READ_SECTORS)) as Ec.
  { unfold cmd, rw_command. cbn [cmd_command]. by rewrite Hu. }
  pose proof (rw_device op iswrite true) as Edev. cbv zeta in Edev. rewrite Hu in Edev. fold ext cmd in Edev.
  assert ((if ext then lba48 d1 else lba28 d1) = op_lba op /\ (if ext then count48 d1 else count28 d1) = sectors_asked op) as [El En].
  { unfold sectors_asked, lba48, lba28, count48, count28.
    unfold d1, loaded, with_regs, with_time. cbn [r_sn r_cl r_ch r_sc r_dh]. rewrite Ec, newdh_low, Edev.
    unfold cmd, rw_command. rewrite Hu. fold ext. change (Z.shiftl 1 8) with 256. change (Z.shiftl 1 28) with (2 ^ 28). fold ext.
    change 0xffffff with (Z.ones 24). rewrite Z.land_ones by lia. destruct ext eqn:Ee; unfold ext in Ee; bool_to_prop.
    - destruct iswrite; cbn [sector_count lba_low lba_mid lba_high sector_count2 lba_low2 lba_mid2 lba_high2 fst snd];
        (change (Z.ldiff _ _ =? _) with true; cbv iota; cbn [fst snd]; rewrite !wrap_idem by lia; split; [by apply bytes_of_48|]);
        (assert (u8 (count op) + u8 (Z.shiftr (count op) 8) * 2 ^ 8 = count op) as ->;
          [unfold wrap, in_u in *; rewrite Z.shiftr_div_pow2 by lia; Z.to_euclidean_division_equations; lia|]);
        case_test; [rewrite (proj2 (Z.ltb_ge _ _)) by lia; done|done| rewrite (proj2 (Z.ltb_ge _ _)) by lia; done|done].
    - destruct iswrite; cbn [sector_count lba_low lba_mid lba_high sector_count2 lba_low2 lba_mid2 lba_high2 fst snd];
        (change (Z.ldiff _ _ =? _) with false; cbv iota; cbn [fst snd]; rewrite !wrap_idem by lia;
         replace ((Z.shiftr (op_lba op) 24 mod 16 + 64) mod 16) with (Z.shiftr (op_lba op) 24 mod 16)
           by (Z.to_euclidean_division_equations; lia);
         split; [apply bytes_of_28; unfold in_u in *; lia|]);
        rewrite wrap_small by (unfold in_u in *; lia); rewrite (proj2 (Z.ltb_lt _ _)) by (unfold in_u in *; lia); done. }
  rewrite Ec. destruct ext, iswrite; rewrite El, En; done.
Qed.

Lemma rw_answered M image a op iswrite :
  d_packet M = false -> 0 <= op_lba op -> in_u 16 (count op) -> op_lba op + sectors_asked op <= d_blocks M -> d_blocks M <= 2 ^ 48 ->
  answered M image a (rw_command op iswrite true)
    (if iswrite then DataOut (512 * op_lba op) 512 (Z.to_nat (sectors_asked op - 1))
     else DataIn image (512 * op_lba op) 512 (Z.to_nat (sectors_asked op - 1)) 512).
Proof using. clear Hkhz.
  intros Hpk Hl Hn Hfit Hmax d c HM HI.
  assert (0 < sectors_asked op) as Hpos by (unfold sectors_asked, in_u in *; repeat case_test; lia).
  rewrite (rw_decoded a op iswrite d c) by (done || lia || by (change (d_model (loaded _ _ _ _)) with (d_model d); rewrite HM)).
  set (d1 := loaded _ _ _ _). unfold transfer.
  assert (Z.testbit (r_dh d1) 6 = true) as ->.
  { change (r_dh d1) with (u8 (newdh a (rw_command op iswrite true))). rewrite newdh_lba, rw_device.
    apply Z.testbit_true; [lia|]. set (x := Z.shiftr _ 24). Z.to_euclidean_division_equations. lia. }
  change (d_model d1) with (d_model d). rewrite HM, (proj2 (Z.ltb_ge _ _)) by lia. cbn [negb orb].
  destruct iswrite; [done|]. unfold send. rewrite (proj2 (Z.eqb_neq _ 0)) by lia.
  change (d_image d1) with (d_image d). by rewrite HI.
Qed.

(** *** Packets *)

Lemma pair_word a b : in_u 8 a -> in_u 8 b ->
  u8 (u16 (Z.lor a (Z.shiftl b 8))) = a /\ u8 (Z.shiftr (u16 (Z.lor a (Z.shiftl b 8))) 8) = b.
Proof using. clear Hkhz.
  intros Ha Hb. rewrite lor_shiftl by (lia || apply Ha). rewrite (wrap_small 16) by (unfold in_u in *; lia).
  by rewrite wrap_lo, shiftr_hi, (wrap_small 8) by (done || lia).
Qed.

Lemma out_pair d got a b cdb n : d_phase d = Packet got -> in_u 8 a -> in_u 8 b ->
  out_words (d_base1 (d_model d)) (a :: b :: cdb) (S n) d =
  out_words (d_base1 (d_model d)) cdb n
    (if (length (got ++ [a; b]) =? 12)%nat then packet d (got ++ [a; b]) else with_phase d (Packet (got ++ [a; b])) (d_err d) (d_busy d)).
Proof.
  intros Hp Ha Hb. cbn [out_words]. erewrite (P_bind_some _ _ _ tt).
  2: { unfold outw. cbn [port_outw drive_ide]. rewrite Z.eqb_refl. unfold data_out. rewrite Hp.
       destruct (pair_word a b Ha Hb) as [-> ->]. reflexivity. }
  done.
Qed.

(** Twelve bytes are a packet. *)
Lemma out_packet d a0 a1 a2 a3 a4 a5 a6 a7 a8 a9 a10 a11 rest :
  sound (d_model d) -> d_phase d = Packet [] -> Forall (in_u 8) [a0; a1; a2; a3; a4; a5; a6; a7; a8; a9; a10; a11] ->
  out_words (reg (d_base1 (d_model d)) ATA_CB_DATA) (a0 :: a1 :: a2 :: a3 :: a4 :: a5 :: a6 :: a7 :: a8 :: a9 :: a10 :: a11 :: rest) 6 d
  = Some (tt, packet d [a0; a1; a2; a3; a4; a5; a6; a7; a8; a9; a10; a11]).
Proof.
  intros Hs Hp Hf. rewrite data_port by done. repeat (apply Forall_cons_1 in Hf as [? Hf]).
  set (M := d_model d).
  assert (forall d' got a b cdb n, d_model d' = M -> d_phase d' = Packet got -> in_u 8 a -> in_u 8 b ->
    out_words (d_base1 M) (a :: b :: cdb) (S n) d' = out_words (d_base1 M) cdb n
      (if (length (got ++ [a; b]) =? 12)%nat then packet d' (got ++ [a; b]) else with_phase d' (Packet (got ++ [a; b])) (d_err d') (d_busy d')))
    as step by (intros d' got a b cdb n <-; apply out_pair).
  rewrite (step d []) by done. do 5 (erewrite step by (reflexivity || done); cbn [app]). cbn [length Nat.eqb]. reflexivity.
Qed.

Lemma packet_reads d a b c e h l : d_packet (d_model d) = true -> (r_cl d).1 = 0 -> (r_ch d).1 = 8 ->
  be4 a b c e + (h * 2 ^ 8 + l) <= d_blocks (d_model d) -> 1 <= h * 2 ^ 8 + l ->
  packet d [CDB_CMD_READ_10; 0; a; b; c; e; 0; h; l; 0; 0; 0]
  = begin d (DataIn (d_image d) (2048 * be4 a b c e) 2048 (Z.to_nat (h * 2 ^ 8 + l - 1)) 2048).
Proof using. clear Hkhz.
  intros Hp Hcl Hch Hfit Hn. unfold packet. rewrite Hcl, Hch, (proj2 (Z.ltb_ge _ _)) by done. cbn [Z.eqb Pos.eqb CDB_CMD_READ_10].
  change (0 + 8 * 2 ^ 8 =? 2048) with true. cbn [negb orb]. unfold send. by rewrite (proj2 (Z.eqb_neq _ 0)) by lia.
Qed.

Lemma packet_answered M image a size : d_packet M = true -> answered M image a (packet_command size) (Packet []).
Proof using. clear Hkhz. intros Hp d c HM HI. unfold execute. change (d_model (loaded _ _ _ _)) with (d_model d). by rewrite HM, Hp. Qed.

(** The drive answers a packet with data. *)
Definition packet_answered_by (M : drive_model) (image : Z -> Z) (cdb : list Z) (size : Z) (src : Z -> Z) (pos : Z) (b : nat) : Prop :=
  forall d, d_model d = M -> d_image d = image -> (r_cl d).1 = u8 size -> (r_ch d).1 = u8 (Z.shiftr size 8) ->
  packet d cdb = begin d (DataIn src pos size b size).

Lemma atapi_data M image a op m d a0 a1 a2 a3 a4 a5 a6 a7 a8 a9 a10 a11 rest size src pos b :
  calm d -> d_model d = M -> d_image d = image -> on_channel a M -> d_packet M = true -> (forall i, in_u 8 (src i)) ->
  block_size size -> count op = Z.of_nat b + 1 -> (b < fuel)%nat ->
  Forall (in_u 8) [a0; a1; a2; a3; a4; a5; a6; a7; a8; a9; a10; a11] ->
  packet_answered_by M image [a0; a1; a2; a3; a4; a5; a6; a7; a8; a9; a10; a11] size src pos b ->
  exists d', atapi_cmd_data CONFIG_ATA_PIO32 fuel cpu_khz a op
      (a0 :: a1 :: a2 :: a3 :: a4 :: a5 :: a6 :: a7 :: a8 :: a9 :: a10 :: a11 :: rest) size (m, d)
    = Some ((DISK_RET_SUCCESS, op), (stored m (buf_fl op) (size * count op) src pos, d')) /\ idle d' M image.
Proof.
  intros Hc HM HI Ha Hpk Hsrc Hsz Hn Hf Hcdb Hans. pose proof Hc as [Hs Hb]. rewrite HM in Hs. pose proof Ha as (E1 & E2 & _).
  destruct (command_answered M image a (packet_command size) (Packet []) (set_dc 0x0a d))
    as (d1 & c1 & Es & Ew & M1 & I1 & S1 & P1 & _ & _ & C1 & Hregs); try done; [by apply packet_answered|].
  destruct (Hregs _ _ eq_refl eq_refl eq_refl) as [Hcl Hch]. cbn [packet_command lba_mid lba_high] in Hcl, Hch.
  rewrite wrap_idem in Hcl, Hch by lia. set (d2 := with_time d1 O c1) in *.
  pose proof (Hans d2 M1 I1 Hcl Hch) as Ep. set (d3 := begin d2 _) in Ep.
  assert (calm d3) as C3 by (split; [apply C1|reflexivity]).
  destruct (pause_settles M d3 C3 M1) as [c3 Et].
  unfold settled_status, settled in Et. change (selected d3) with (selected d1) in Et. rewrite S1 in Et. change (ready_status d3) with 0x48 in Et.
  assert (calm (with_time d3 O c3)) as C4 by (split; [apply C1|cbn; lia]).
  destruct (transfer_reads M (chan_gf a) op m (with_time d3 O c3) src pos b size) as [c4 Er]; try done; try lia.
  rewrite <- Hn, Z.eqb_refl in Er.
  eexists. split.
  - unfold atapi_cmd_data. rewrite E2. erewrite (P_bind_some _ _ _ (0, op)); [done|].
    apply (without_irq_spec M); [done|done| |].
    2: { rewrite (P_bind_some _ _ _ _ _ (ports_some _ _ _ _ _ Es)). cbn [negb Z.eqb]. rewrite E1.
         rewrite (P_bind_some _ _ _ _ _ (ports_some _ _ _ _ _ Ew)). cbn [negb Z.eqb]. unfold atapi_packet.
         rewrite E1, E2. rewrite (P_bind_some _ _ _ tt (m, d3)).
         - rewrite (P_bind_some _ _ _ _ _ (ports_some _ _ _ _ _ Et)). exact Er.
         - apply ports_some. change (Z.to_nat (CDROM_CDB_SIZE / 2)) with 6%nat. rewrite <- Ep. rewrite <- M1 at 1.
           change (d_model d1) with (d_model d2). apply out_packet; [by change (d_model d2) with (d_model d1); rewrite M1|done|done]. }
    done.
  - split_and!; done.
Qed.

(** [cdb_read] of a drive of 2048-byte blocks. *)
Lemma atapi_reads M image a op m d :
  calm d -> d_model d = M -> d_image d = image -> on_channel a M -> d_packet M = true -> (forall i, in_u 8 (image i)) ->
  0 <= op_lba op -> 1 <= count op < 2 ^ 16 -> op_lba op + count op <= d_blocks M -> d_blocks M <= 2 ^ 32 -> 65536 <= Z.of_nat fuel ->
  exists d', atapi_cmd_data CONFIG_ATA_PIO32 fuel cpu_khz a op
      (cdb_rwdata_10 CDB_CMD_READ_10 0 (htonl (u32 (op_lba op))) 0 (htons (count op)) 0) 2048 (m, d)
    = Some ((DISK_RET_SUCCESS, op), (stored m (buf_fl op) (2048 * count op) image (2048 * op_lba op), d')) /\ idle d' M image.
Proof.
  intros Hc HM HI Ha Hpk Himg Hl Hn Hfit Hmax Hf.
  rewrite (wrap_small 32) by (unfold in_u; lia).
  destruct (le_bytes_htonl (op_lba op)) as (l3 & l2 & l1 & l0 & ? & ? & ? & ? & El & Ecl); [unfold in_u; lia|].
  destruct (le_bytes_htons (count op)) as (h & l & ? & ? & En & Ecn); [unfold in_u; lia|].
  unfold cdb_rwdata_10. rewrite Ecl, Ecn. cbn [app replicate].
  change (u8 0) with 0. change (u8 CDB_CMD_READ_10) with CDB_CMD_READ_10.
  apply (atapi_data M image a op m d) with (b := Z.to_nat (count op - 1)); try done; try lia.
  - repeat apply Forall_cons_2; try apply Forall_nil_2; try done; unfold in_u, CDB_CMD_READ_10; lia.
  - intros d' M' I' Hcl Hch. rewrite (packet_reads d'); rewrite ?M'; try done; unfold be4; try lia. by rewrite I', <- El, <- En.
Qed.

Lemma capacity_range M i : 1 <= d_blocks M <= 2 ^ 32 -> in_u 8 (capacity_bytes M i).
Proof using.
  clear Hkhz. intros HM. unfold capacity_bytes. destruct (lookup _ _) as [v|] eqn:E; [cbn|unfold in_u; cbn; lia].
  eapply Forall_lookup_1 in E; [exact E|]. unfold be32, be16. cbn [app].
  repeat apply Forall_cons_2; try apply Forall_nil_2; unfold in_u; Z.to_euclidean_division_equations; lia.
Qed.

(** [cdb_read_capacity]. *)
Lemma atapi_capacity M image a op m d :
  calm d -> d_model d = M -> d_image d = image -> on_channel a M -> d_packet M = true -> 1 <= d_blocks M <= 2 ^ 32 ->
  count op = 1 -> (0 < fuel)%nat ->
  exists d', atapi_cmd_data CONFIG_ATA_PIO32 fuel cpu_khz a op (cdb_read_capacity_s CDB_CMD_READ_CAPACITY 0) 8 (m, d)
    = Some ((DISK_RET_SUCCESS, op), (stored m (buf_fl op) 8 (capacity_bytes M) 0, d')) /\ idle d' M image.
Proof.
  intros Hc HM HI Ha Hpk Hbl Hn Hf. change 8 with (8 * 1) at 2. rewrite <- Hn.
  apply (atapi_data M image a op m d) with (b := O); try done.
  - intros i. by apply capacity_range.
  - repeat apply Forall_cons_2; try apply Forall_nil_2; done.
  - intros d' M' I' Hcl Hch. unfold packet. rewrite Hcl, Hch, M'. done.
Qed.
End Drive.

(** ** The drivers *)

Section Drivers.
Context (CONFIG_ATA_DMA CONFIG_ATA_PIO32 : bool) (fuel : nat) (cpu_khz : Z) (heap : gmap Z drive_object).
Context (usb_cmd_data : disk_op_s -> list Z -> Z -> P (memory * ata_drive) (Z * disk_op_s)).

(** No bus master takes part: transfers go through the data register. *)
Definition pio_only (a : atadrive_s) : Prop := CONFIG_ATA_DMA = false \/ iomaster (chan_gf a) = 0.

Lemma try_dma_off a op iswrite size s : pio_only a -> ata_try_dma CONFIG_ATA_DMA (chan_gf a) op iswrite size s = Some (-1, s).
Proof.
  intros Hp. unfold ata_try_dma. destruct s as [m d].
  replace (negb CONFIG_ATA_DMA || has (u32 (buf_fl op)) 1 || (iomaster (chan_gf a) =? 0)) with true; [done|].
  destruct Hp as [-> | ->]; [done|]. by rewrite orb_true_r.
Qed.

Lemma container_found p a (s : memory * ata_drive) : heap !! p = Some (AtaDrive a) -> container_of heap p s = Some (a, s).
Proof. intros E. unfold container_of, drive_at, mbind, P_bind. by rewrite E. Qed.
End Drivers.


(** A drive of 1000 blocks that is busy for three looks, left in the middle of a transfer. *)
Definition demo_image (i : Z) : Z := u8 (i / 512).
Definition demo_model (packet : bool) : drive_model := mk_model 0x1f0 0x3f4 false packet 1000 (fun _ => 0) 3.
Definition demo_chan : ata_channel_s := mk_channel 0x1f0 0x3f4 0 14 0 (-1).
Definition demo_drive (t size : Z) : atadrive_s :=
  mk_atadrive (mk_drive t 0 (mk_chs 0 0 0) 1000 0 0 size (mk_chs 0 0 0)) demo_chan false.
Definition demo_state (packet : bool) : ata_drive :=
  mk_drive_state (demo_model packet) demo_image (1, 2) (3, 4) (5, 6) (7, 8) 0xb0 2 (DataOut 12 2 5) true 2 77.
Definition demo_fuel : nat := Z.to_nat 65536.
Definition demo_heap : gmap Z drive_object := {[0x500 := AtaDrive (demo_drive DTYPE_ATA 512)]}.

Lemma demo_sound packet : sound demo_fuel 1000000 (demo_model packet).
Proof. split; cbn; unfold demo_fuel, IDE_TIMEOUT; lia. Qed.


(** A request of no sectors, which [extended_access] passes on, is a command for 256: the
    drive sends them all, they are stored behind the caller's buffer, and the request
    fails with 256 as its count. *)
Theorem zero_count_overruns dma pio32 fuel khz heap op a M image m d :
  heap !! drive_g op = Some (AtaDrive a) -> on_channel a M -> d_packet M = false -> pio_only dma a ->
  0 <= khz < 2 ^ 32 -> 65536 <= Z.of_nat fuel -> d_blocks M <= 2 ^ 28 ->
  calm fuel khz d -> d_model d = M -> d_image d = image -> (forall i, in_u 8 (image i)) ->
  0 <= op_lba op -> count op = 0 -> op_lba op + 256 <= d_blocks M -> command op = CMD_READ ->
  exists d', process_ata_op dma pio32 fuel khz heap op (m, d)
    = Some ((DISK_RET_EBADTRACK, set_count op 256), (stored m (buf_fl op) (512 * 256) image (512 * op_lba op), d')).
Proof.
  intros Hh Ha Hpk Hpio Hkhz Hf Hmax Hc HM HI Himg Hl Hn Hfit Hcmd.
  assert (sectors_asked op = 256) as En by (unfold sectors_asked; rewrite Hn, (proj2 (Z.ltb_lt _ _)) by lia; done).
  pose proof (rw_answered M image a op false Hpk Hl ltac:(unfold in_u; lia) ltac:(lia) ltac:(lia)) as Hans.
  rewrite En in Hans. change (Z.to_nat (256 - 1)) with 255%nat in Hans.
  destruct (pio_cmd_reads pio32 fuel khz Hkhz M image a op (rw_command op false true) m d image (512 * op_lba op) 255)
    as (d' & E & Hi); try done; try lia.
  exists d'. unfold process_ata_op. rewrite (P_bind_some _ _ _ _ _ (container_found heap _ a _ Hh)), Hcmd.
  cbn [Z.eqb CMD_READ Pos.eqb]. unfold ata_readwrite. rewrite (P_bind_some _ _ _ _ _ (try_dma_off _ _ _ _ _ _ Hpio)).
  cbn [negb Z.eqb]. rewrite (P_bind_some _ _ _ _ _ E), Hn. done.
Qed.

Lemma zero_count_overruns_witness :
  exists m' d', process_ata_op false false demo_fuel 1000000 demo_heap (mk_op 5 0x8000 0x500 0 CMD_READ) (fun _ => 0, demo_state false)
    = Some ((DISK_RET_EBADTRACK, mk_op 5 0x8000 0x500 256 CMD_READ), (m', d')) /\ m' 0x8000 = 5 /\ m' (0x8000 + 100 * 512) = 105.
Proof.
  destruct (zero_count_overruns false false demo_fuel 1000000 demo_heap (mk_op 5 0x8000 0x500 0 CMD_READ)
    (demo_drive DTYPE_ATA 512) (demo_model false) demo_image (fun _ => 0) (demo_state false)) as [d' E].
  - done.
  - done.
  - done.
  - by left.
  - lia.
  - unfold demo_fuel. lia.
  - cbn. lia.
  - split; [apply demo_sound|cbn; lia].
  - done.
  - done.
  - intros x. apply wrap_range. lia.
  - cbn. lia.
  - done.
  - cbn. lia.
  - done.
  - eexists _, d'. split; [exact E|]. split; vm_compute; reflexivity.
Defined.

(** A CD drive of 2048-byte blocks at [p]. *)
Definition cd_drive (heap : gmap Z drive_object) (p : Z) (a : atadrive_s) (M : drive_model) : Prop :=
  heap !! p = Some (AtaDrive a) /\ on_channel a M /\ d_packet M = true /\
  type (drive a) = DTYPE_ATAPI /\ blksize (drive a) = CDROM_SECTOR_SIZE /\ 1 <= d_blocks M <= 2 ^ 32.

Section Cd.
Context (pio32 : bool) (fuel : nat) (khz : Z) (heap : gmap Z drive_object).
Context (usb : disk_op_s -> list Z -> Z -> P (memory * ata_drive) (Z * disk_op_s)).
Context (p : Z) (a : atadrive_s) (M : drive_model) (image : Z -> Z).
Context (Hkhz : 0 <= khz < 2 ^ 32) (Hf : 65536 <= Z.of_nat fuel) (Hcd : cd_drive heap p a M) (Himg : forall i, in_u 8 (image i)).

Lemma cd_found (m : memory) (d : ata_drive) : drive_at heap p (m, d) = Some (AtaDrive a, (m, d)).
Proof using Hcd. unfold drive_at. by rewrite (proj1 Hcd). Qed.

Lemma cdb_reads op m d : idle fuel khz d M image \/ calm fuel khz d /\ d_model d = M /\ d_image d = image ->
  drive_g op = p -> 0 <= op_lba op -> 1 <= count op < 2 ^ 16 -> op_lba op + count op <= d_blocks M ->
  exists d', cdb_read pio32 fuel khz heap usb op (m, d)
    = Some ((0, op), (stored m (buf_fl op) (2048 * count op) image (2048 * op_lba op), d')) /\ idle fuel khz d' M image.
Proof using All.
  intros Hd Hp Hl Hn Hfit. assert (calm fuel khz d /\ d_model d = M /\ d_image d = image) as (Hc & HM & HI)
    by (destruct Hd as [(? & ? & ? & _)|]; [by split_and!|done]).
  pose proof Hcd as (Hh & Ha & Hpk & Ht & Hbs & Hmax).
  destruct (atapi_reads pio32 fuel khz Hkhz M image a op m d) as (d' & E & Hi); try done; try lia.
  exists d'. split; [|done]. unfold cdb_read, cdb_cmd_data. rewrite Hp.
  rewrite !(P_bind_some _ _ _ _ _ (cd_found m d)). cbn [base_of]. rewrite Ht, Hbs. change (DTYPE_ATAPI =? DTYPE_ATAPI) with true. cbv iota.
  rewrite (P_bind_some _ _ _ a (m, d)); [exact E|]. by apply container_found.
Qed.

Lemma cdb_capacity op data m d : idle fuel khz d M image \/ calm fuel khz d /\ d_model d = M /\ d_image d = image ->
  drive_g op = p ->
  exists d', cdb_read_capacity pio32 fuel khz heap usb op data (m, d)
    = Some ((0, one_block op data), (stored m data 8 (capacity_bytes M) 0, d')) /\ idle fuel khz d' M image.
Proof using All.
  intros Hd Hp. assert (calm fuel khz d /\ d_model d = M /\ d_image d = image) as (Hc & HM & HI)
    by (destruct Hd as [(? & ? & ? & _)|]; [by split_and!|done]).
  pose proof Hcd as (Hh & Ha & Hpk & Ht & Hbs & Hmax).
  destruct (atapi_capacity pio32 fuel khz Hkhz M image a (one_block op data) m d) as (d' & E & Hi); try done; try lia.
  exists d'. split; [|done]. unfold cdb_read_capacity, cdb_cmd_data. cbn [one_block drive_g]. rewrite Hp.
  rewrite !(P_bind_some _ _ _ _ _ (cd_found m d)). cbn [base_of]. rewrite Ht. change (DTYPE_ATAPI =? DTYPE_ATAPI) with true. cbv iota.
  rewrite (P_bind_some _ _ _ a (m, d)); [exact E|]. by apply container_found.
Qed.
End Cd.


