(* ===== verification/AtaSafe.v ===== *)
(** * The ATA drivers against any device

    Whatever answers at the ports of a channel, or when nothing does, a request ends within
    its time limits, changes no memory but the caller's buffer, and leaves the interrupts
    of the channel enabled. *)

From S2P Require Import Prelude BiosUtil Bregs Ports Clock Kbd Block Disk Tables Ata.
Local Open Scope Z_scope.
Local Open Scope coremu_scope.

(** ** Memory *)

Section Memory.
Context {D : Type} `{PortDevice D} `{IdePorts D}.

Notation M A := (P (memory * D) A).

(** [f] returns from every state, and relates the memory before to the result and the
    memory after. *)
Definition safe {A} (f : M A) (R : memory -> A -> memory -> Prop) : Prop :=
  forall m d, exists a m' d', f (m, d) = Some (a, (m', d')) /\ R m a m'.

Lemma safely_bind {A B} (f : M A) (k : A -> M B) R1 R2 :
  safe f R1 -> (forall m a m1 d1, R1 m a m1 -> exists b m2 d2, k a (m1, d1) = Some (b, (m2, d2)) /\ R2 m b m2) -> safe (f ≫= k) R2.
Proof.
  intros Hf Hk m d. destruct (Hf m d) as (a & m1 & d1 & E & HR). destruct (Hk m a m1 d1 HR) as (b & m2 & d2 & E2 & HR2).
  exists b, m2, d2. by rewrite (P_bind_some _ _ _ _ _ E).
Qed.

Lemma safe_ports {A} (f : P D A) Q : total f Q -> safe (ports f) (fun m a m' => m' = m /\ Q a).
Proof.
  intros Hf m d. destruct (Hf d) as (a & d' & E & HQ). exists a, m, d'. unfold ports, on_port. by rewrite E.
Qed.

(** A port access in front changes no memory. *)
Lemma safe_then {A B} (f : P D A) (k : A -> M B) Q R :
  total f Q -> (forall a, Q a -> safe (k a) R) -> safe (ports f ≫= k) R.
Proof.
  intros Hf Hk. eapply safely_bind; [by apply safe_ports|]. intros m a m1 d1 [-> HQ]. by apply Hk.
Qed.

Lemma safely_ret {A} (a : A) (R : memory -> A -> memory -> Prop) : (forall m, R m a m) -> safe (mret a) R.
Proof. intros HR m d. by exists a, m, d. Qed.

Lemma safe_gets {A} (f : memory -> Z) (k : Z -> M A) R : (forall v, safe (k v) R) -> safe (gets f ≫= k) R.
Proof. intros Hk m d. rewrite gets_bind. apply Hk. Qed.

(** Only [n] bytes from [buf] on have changed, none unless [read]. *)
Definition within (read : bool) (buf n : Z) (m m' : memory) : Prop :=
  forall x, (if read then x < buf \/ buf + n <= x else True) -> m' x = m x.

Lemma within_trans r b n b2 n2 k m m1 m2 : b2 = b + n -> 0 <= n -> 0 <= n2 -> k = n + n2 ->
  within r b n m m1 -> within r b2 n2 m1 m2 -> within r b k m m2.
Proof. intros -> Hn Hn2 -> H1 H2 x Hx. destruct r; [rewrite H2, H1 by lia; done|by rewrite H2, H1]. Qed.

Lemma within_le r b n k m m' : within r b n m m' -> n <= k -> within r b k m m'.
Proof. intros Hw Hk x Hx. apply Hw. destruct r; [lia|done]. Qed.

Lemma total_inw p : total (inw p) (fun _ => True).
Proof. intros d. unfold inw. destruct (port_inw p d) as [v d']. by eexists _, _. Qed.
Lemma total_inl p : total (inl_ p) (fun _ => True).
Proof. intros d. unfold inl_. destruct (port_inl p d) as [v d']. by eexists _, _. Qed.
Lemma total_outw v p : total (outw v p) (fun _ => True).
Proof. intros d. by eexists _, _. Qed.
Lemma total_outl v p : total (outl v p) (fun _ => True).
Proof. intros d. by eexists _, _. Qed.

Lemma safe_insw k p buf : safe (insw p buf k) (fun m _ m' => within true buf (2 * Z.of_nat k) m m').
Proof.
  revert buf. induction k as [|k IH]; intros buf; cbn [insw]; [by apply safely_ret|]. eapply safe_then; [apply total_inw|]. intros v _ m d.
  rewrite modify_bind. destruct (IH (buf + 2) (writew m buf v) d) as (u & m' & d' & E & Hw). exists u, m', d'. split; [done|].
  intros x Hx. rewrite Hw by lia. apply writew_other; lia.
Qed.

Lemma safe_insl k p buf : safe (insl p buf k) (fun m _ m' => within true buf (4 * Z.of_nat k) m m').
Proof.
  revert buf. induction k as [|k IH]; intros buf; cbn [insl]; [by apply safely_ret|]. eapply safe_then; [apply total_inl|]. intros v _ m d.
  rewrite modify_bind. destruct (IH (buf + 4) (writel m buf v) d) as (u & m' & d' & E & Hw). exists u, m', d'. split; [done|].
  intros x Hx. rewrite Hw by lia. apply writel_other; lia.
Qed.

Lemma safe_outsw k p buf : safe (outsw p buf k) (fun m _ m' => m' = m).
Proof.
  revert buf. induction k as [|k IH]; intros buf; cbn [outsw]; [by apply safely_ret|]. apply safe_gets. intros v.
  eapply safe_then; [apply total_outw|]. intros _ _. apply IH.
Qed.

Lemma safe_outsl k p buf : safe (outsl p buf k) (fun m _ m' => m' = m).
Proof.
  revert buf. induction k as [|k IH]; intros buf; cbn [outsl]; [by apply safely_ret|]. apply safe_gets. intros v.
  eapply safe_then; [apply total_outl|]. intros _ _. apply IH.
Qed.

Lemma safe_pio_block CONFIG_ATA_PIO32 iswrite b1 buf size : 0 <= size < 2 ^ 16 ->
  safe (pio_block CONFIG_ATA_PIO32 iswrite b1 buf size) (fun m _ m' => within (negb iswrite) buf size m m').
Proof.
  intros Hs m d. unfold pio_block. cbv zeta. rewrite !wrap_small by (unfold in_u; Z.to_euclidean_division_equations; lia).
  destruct iswrite, CONFIG_ATA_PIO32; cbn [negb].
  - destruct (safe_outsl (Z.to_nat (size / 4)) (reg b1 ATA_CB_DATA) buf m d) as (u & m' & d' & E & ->). by exists u, m, d'.
  - destruct (safe_outsw (Z.to_nat (size / 2)) (reg b1 ATA_CB_DATA) buf m d) as (u & m' & d' & E & ->). by exists u, m, d'.
  - destruct (safe_insl (Z.to_nat (size / 4)) (reg b1 ATA_CB_DATA) buf m d) as (u & m' & d' & E & Hw). exists u, m', d'. split; [done|].
    eapply within_le; [exact Hw|]. Z.to_euclidean_division_equations. lia.
  - destruct (safe_insw (Z.to_nat (size / 2)) (reg b1 ATA_CB_DATA) buf m d) as (u & m' & d' & E & Hw). exists u, m', d'. split; [done|].
    eapply within_le; [exact Hw|]. Z.to_euclidean_division_equations. lia.
Qed.

(** What a request may do: change memory in its buffer, and its count. *)
Definition kept (read : bool) (op : disk_op_s) (m : memory) (r : Z * disk_op_s) (m' : memory) : Prop :=
  within read (buf_fl op) (512 * count op) m m' /\ exists c, r.2 = set_count op c /\ 0 <= c <= count op.

Lemma kept_same r op m ret : 0 <= count op -> kept r op m (ret, op) m.
Proof. intros Hn. split; [done|]. exists (count op). split; [by destruct op|lia]. Qed.

End Memory.

(** ** Time *)

Section Any.
Context {D : Type} `{PortDevice D} `{IdePorts D} (now : D -> Z) (dc : D -> Z).

(** Time: no access goes back or lasts longer than [2 ^ 40] cycles, and a look at the
    counter takes time. *)
Record clocked : Prop := {
  clocked_in : forall p d, now d <= now (port_inb p d).2 <= now d + 2 ^ 40;
  clocked_out : forall v p d, now d <= now (port_outb v p d) <= now d + 2 ^ 40;
  clocked_yield : forall d, now d <= now (port_yield d) <= now d + 2 ^ 40;
  clocked_ndelay : forall n d, now d <= now (port_ndelay n d) <= now d + 2 ^ 40;
  clocked_tsc : forall d, (port_rdtscll d).1 = now d /\ now d < now (port_rdtscll d).2 <= now d + 2 ^ 40 }.
Context (Hclk : clocked).

(** [f] ends within [n] cycles, with a result in [Q]. *)
Definition ends {A} (n : Z) (f : P D A) (Q : A -> Prop) : Prop :=
  forall d, exists a d', f d = Some (a, d') /\ now d <= now d' <= now d + n /\ Q a.

Lemma ends_ret {A} n (a : A) (Q : A -> Prop) : 0 <= n -> Q a -> ends n (mret a) Q.
Proof. intros Hn HQ d. exists a, d. split; [done|]. split; [lia|done]. Qed.

Lemma ends_bind {A B} n k (f : P D A) (g : A -> P D B) Q R :
  ends n f Q -> (forall a, Q a -> ends k (g a) R) -> ends (n + k) (f ≫= g) R.
Proof.
  intros Hf Hg d. destruct (Hf d) as (a & d1 & E & Ht & HQ). destruct (Hg a HQ d1) as (b & d2 & E2 & Ht2 & HR).
  exists b, d2. rewrite (P_bind_some _ _ _ _ _ E). split; [done|]. split; [lia|done].
Qed.

Lemma ends_le {A} n k (f : P D A) Q : ends n f Q -> n <= k -> ends k f Q.
Proof. intros Hf Hk d. destruct (Hf d) as (a & d' & E & Ht & HQ). exists a, d'. split; [done|]. split; [lia|done]. Qed.

Lemma ends_inb p : ends (2 ^ 40) (inb p) (in_u 8).
Proof using Hclk.
  intros d. unfold inb. pose proof (clocked_in Hclk p d). destruct (port_inb p d) as [v d']. exists (u8 v), d'.
  split; [done|]. split; [done|]. apply wrap_range. lia.
Qed.

Lemma ends_outb v p : ends (2 ^ 40) (outb v p) (fun _ => True).
Proof using Hclk. intros d. eexists tt, _. split; [done|]. split; [apply (clocked_out Hclk)|done]. Qed.

Lemma ends_ndelay n : ends (2 ^ 40) (ndelay n) (fun _ => True).
Proof using Hclk. intros d. eexists tt, _. split; [done|]. split; [apply (clocked_ndelay Hclk)|done]. Qed.

(** A wait ends: by its condition or by the clock. *)
Lemma poll_ends {A} f (look : P D (A * bool)) (Q : A -> Prop) E d :
  ends (2 ^ 40) look (fun r => Q r.1) -> E - 2 ^ 48 <= now d <= E + 2 ^ 43 -> Z.max 0 (E - now d + 1) < Z.of_nat f ->
  exists r d', poll f look (u64 E) d = Some (r, d') /\ now d <= now d' <= Z.max (now d + 2 ^ 41) (E + 2 ^ 42) /\ Q r.1.
Proof using Hclk.
  intros Hl. revert d. induction f as [|f IH]; intros d Hd Hf; [lia|]. cbn [poll].
  destruct (Hl d) as ([a ready] & d1 & E1 & Ht1 & HQ). rewrite (P_bind_some _ _ _ _ _ E1). destruct ready.
  { exists (a, true), d1. split; [done|]. split; [lia|done]. }
  destruct (clocked_tsc Hclk d1) as [Hv Ht2].
  rewrite (P_bind_some _ _ _ (u64 (now d1)) (port_rdtscll d1).2)
    by (unfold rdtscll; destruct (port_rdtscll d1) as [v d2]; cbn in *; by subst v).
  set (d2 := (port_rdtscll d1).2) in *. rewrite check_time_spec by lia. case_test.
  { exists (a, false), d2. split; [done|]. split; [lia|done]. }
  pose proof (clocked_yield Hclk d2). rewrite (P_bind_some _ _ _ tt (port_yield d2)) by done.
  destruct (IH (port_yield d2)) as (r & d' & Er & Ht & Hr); [lia|lia|]. exists r, d'. split; [done|]. split; [lia|done].
Qed.

Context (fuel : nat) (cpu_khz : Z) (Hkhz : 0 <= cpu_khz < 2 ^ 32) (Hfuel : cpu_khz * IDE_TIMEOUT + 1 < Z.of_nat fuel).

Definition status_value (a : Z) : Prop := a = -1 \/ in_u 8 a.

Lemma ends_await mask flags base : ends (2 ^ 48) (await_ide fuel cpu_khz mask flags base IDE_TIMEOUT) status_value.
Proof using Hclk Hkhz Hfuel.
  intros d. unfold await_ide. destruct (clocked_tsc Hclk d) as [Hv Ht].
  rewrite (P_bind_some _ _ _ (u64 (now d)) (port_rdtscll d).2)
    by (unfold rdtscll; destruct (port_rdtscll d) as [v d2]; cbn in *; by subst v).
  set (d1 := (port_rdtscll d).2) in *. rewrite calc_future_spec. unfold IDE_TIMEOUT in *.
  destruct (poll_ends fuel (status ← inb (reg base ATA_CB_STAT); mret (status, Z.land status mask =? flags)) (in_u 8)
    (now d + cpu_khz * 32000) d1) as ([a ok] & d' & E & Ht' & Ha); [|lia|lia|].
  { eapply ends_le; [eapply (ends_bind (2 ^ 40) 0); [apply ends_inb|]|lia]. intros a Ha. by apply ends_ret. }
  rewrite (P_bind_some _ _ _ _ _ E). eexists _, d'. split; [done|]. split; [lia|].
  destruct ok; [by right|by left].
Qed.

Lemma ends_pause b1 b2 : ends (2 ^ 49) (pause_await_not_bsy fuel cpu_khz b1 b2) status_value.
Proof using Hclk Hkhz Hfuel.
  eapply ends_le; [eapply (ends_bind (2 ^ 40) (2 ^ 48)); [apply ends_inb|intros ? _; apply ends_await]|lia].
Qed.

Lemma ends_delayed b1 : ends (2 ^ 49) (ndelay_await_not_bsy fuel cpu_khz b1) status_value.
Proof using Hclk Hkhz Hfuel.
  eapply ends_le; [eapply (ends_bind (2 ^ 40) (2 ^ 48)); [apply ends_ndelay|intros ? _; apply ends_await]|lia].
Qed.

(** The loop that selects the second drive. *)
Lemma change_device_ends f b1 E d :
  E - 2 ^ 48 <= now d <= E + 2 ^ 58 -> Z.max 0 (E - now d + 1) < Z.of_nat f ->
  exists a d', change_device fuel cpu_khz f b1 (u64 E) d = Some (a, d').
Proof using Hclk Hkhz Hfuel.
  revert d. induction f as [|f IH]; intros d Hd Hf; [lia|]. cbn [change_device].
  destruct (ends_outb ATA_CB_DH_DEV1 (reg b1 ATA_CB_DH) d) as ([] & d1 & E1 & Ht1 & _). rewrite (P_bind_some _ _ _ _ _ E1).
  destruct (ends_delayed b1 d1) as (st & d2 & E2 & Ht2 & _). rewrite (P_bind_some _ _ _ _ _ E2). case_test; [by eexists _, _|].
  destruct (ends_inb (reg b1 ATA_CB_DH) d2) as (dh & d3 & E3 & Ht3 & _). rewrite (P_bind_some _ _ _ _ _ E3). case_test; [by eexists _, _|].
  destruct (clocked_tsc Hclk d3) as [Hv Ht4].
  rewrite (P_bind_some _ _ _ (u64 (now d3)) (port_rdtscll d3).2)
    by (unfold rdtscll; destruct (port_rdtscll d3) as [v d4]; cbn in *; by subst v).
  set (d4 := (port_rdtscll d3).2) in *. rewrite check_time_spec by lia. case_test; [by eexists _, _|]. apply IH; lia.
Qed.

Lemma ends_total {A} n (f : P D A) Q : ends n f Q -> total f Q.
Proof. intros Hf d. destruct (Hf d) as (a & d' & E & _ & HQ). by exists a, d'. Qed.

Lemma total_await mask flags base : total (await_ide fuel cpu_khz mask flags base IDE_TIMEOUT) status_value.
Proof using Hclk Hkhz Hfuel. eapply ends_total, ends_await. Qed.

Lemma total_pause b1 b2 : total (pause_await_not_bsy fuel cpu_khz b1 b2) status_value.
Proof using Hclk Hkhz Hfuel. eapply ends_total, ends_pause. Qed.

Lemma total_delayed b1 : total (ndelay_await_not_bsy fuel cpu_khz b1) status_value.
Proof using Hclk Hkhz Hfuel. eapply ends_total, ends_delayed. Qed.

Lemma total_write_regs b1 cmd : total (write_regs b1 cmd) (fun _ => True).
Proof.
  unfold write_regs. eapply total_bind with (Q := fun _ => True).
  - case_test; [|by apply total_ret]. repeat (eapply total_bind; [apply total_outb|intros _ _]). apply total_outb.
  - intros _ _. repeat (eapply total_bind; [apply total_outb|intros _ _]). apply total_outb.
Qed.

Lemma total_send_cmd a cmd : total (send_cmd fuel cpu_khz a cmd) (fun _ => True).
Proof using Hclk Hkhz Hfuel.
  unfold send_cmd. eapply total_bind; [apply total_await|]. intros st _. case_test; [by apply total_ret|].
  eapply total_bind; [apply total_inb|]. intros dh _. eapply total_bind; [apply total_outb|]. intros _ _.
  eapply total_bind with (Q := fun _ => True).
  - case_test; [|by apply total_ret]. intros d. destruct (total_delayed (iobase1 (chan_gf a)) d) as (v & d' & Ev & _). by exists v, d'.
  - intros st2 _. case_test; [by apply total_ret|]. eapply total_bind; [apply total_write_regs|]. intros _ _. by apply total_ret.
Qed.

Lemma total_wait_data b1 : total (ata_wait_data fuel cpu_khz b1) (fun _ => True).
Proof using Hclk Hkhz Hfuel.
  unfold ata_wait_data. eapply total_bind; [apply total_delayed|]. intros st _. repeat case_test; by apply total_ret.
Qed.

Lemma total_reset_wait a : total (reset_wait fuel cpu_khz a) (fun _ => True).
Proof using Hclk Hkhz Hfuel.
  unfold reset_wait. eapply total_bind; [apply total_await|]. intros st _. case_test; [by apply total_ret|].
  eapply total_bind with (Q := fun _ => True).
  - case_test.
    + intros d. destruct (clocked_tsc Hclk d) as [Hv Ht].
      rewrite (P_bind_some _ _ _ (u64 (now d)) (port_rdtscll d).2)
        by (unfold rdtscll; destruct (port_rdtscll d) as [v d2]; cbn in *; by subst v).
      rewrite calc_future_spec. unfold IDE_TIMEOUT in *. set (d1 := (port_rdtscll d).2) in *.
      destruct (change_device_ends fuel (iobase1 (chan_gf a)) (now d + cpu_khz * 32000) d1) as (v & d' & Ec); [lia|lia|]. by exists v, d'.
    + eapply total_bind; [apply total_outb|]. intros _ _. by apply total_ret.
  - intros ok _. repeat case_test; try by apply total_ret. eapply total_bind; [apply total_await|]. intros _ _. by apply total_ret.
Qed.

(** ** Transfers *)

Notation M A := (P (memory * D) A).
Context (CONFIG_ATA_PIO32 : bool).

(** The loop, with [n] blocks to go: the blocks left are at most those, and none is left
    when it reports success. *)
Lemma safe_pio_loop n rounds chan iswrite size buf : 0 <= size < 2 ^ 16 -> (n < rounds)%nat ->
  safe (pio_loop CONFIG_ATA_PIO32 fuel cpu_khz rounds chan iswrite size buf (Z.of_nat n + 1))
    (fun m '(ret, _, rest) m' => within (negb iswrite) buf (size * (Z.of_nat n + 1)) m m' /\ 0 <= rest <= Z.of_nat n + 1).
Proof using Hclk Hkhz Hfuel.
  intros Hs. revert rounds buf. induction n as [|n IH]; intros rounds buf Hr; (destruct rounds as [|rounds]; [lia|]); cbn [pio_loop].
  all: eapply safely_bind; [by apply safe_pio_block|]; intros m u m1 d1 Hw; cbv zeta.
  all: destruct (safe_ports _ _ (total_pause (iobase1 chan) (iobase2 chan)) m1 d1) as (st & m2 & d2 & Ep & Em & _); subst m2;
    rewrite (P_bind_some _ _ _ _ _ Ep).
  all: case_test; [eexists _, _, _; split; [done|]; split; [eapply within_le; [exact Hw|nia]|lia]|].
  - change (Z.of_nat 0 + 1 - 1 =? 0) with true. cbv iota. eexists _, _, _. split; [done|]. split; [eapply within_le; [exact Hw|nia]|lia].
  - rewrite (proj2 (Z.eqb_neq _ 0)) by lia. case_test; [eexists _, _, _; split; [done|]; split; [eapply within_le; [exact Hw|nia]|lia]|].
    replace (Z.of_nat (S n) + 1 - 1) with (Z.of_nat n + 1) by lia.
    destruct (IH rounds (buf + size) ltac:(lia) m1 d2) as ([[ret s] rest] & m2 & d3 & E2 & Hw2 & Hrest). eexists _, m2, d3.
    split; [exact E2|]. split; [|lia]. eapply within_trans; [done| | | |exact Hw|exact Hw2]; nia.
Qed.

Lemma safe_transfer chan op iswrite size : 0 <= size < 2 ^ 16 -> 1 <= count op < 2 ^ 16 -> count op <= Z.of_nat fuel ->
  safe (ata_pio_transfer CONFIG_ATA_PIO32 fuel cpu_khz chan op iswrite size)
    (fun m '(_, op') m' => within (negb iswrite) (buf_fl op) (size * count op) m m' /\
      exists c, op' = set_count op c /\ 0 <= c <= count op).
Proof using Hclk Hkhz Hfuel.
  intros Hs Hn Hf m d. unfold ata_pio_transfer.
  destruct (safe_pio_loop (Z.to_nat (count op - 1)) fuel chan iswrite size (buf_fl op) Hs ltac:(lia) m d)
    as ([[ret st] rest] & m' & d' & E & Hw & Hrest).
  rewrite Z2Nat.id in E, Hw, Hrest by lia. rewrite Z.sub_add in *. rewrite (P_bind_some _ _ _ _ _ E). case_test.
  - eexists _, m', d'. split; [done|]. split; [done|]. exists (count op - rest). rewrite wrap_small by (unfold in_u; lia). split; [done|lia].
  - eexists _, m', d'. split; [done|]. split; [done|]. exists (count op). split; [by destruct op|lia].
Qed.

Context (iobase2_reg : Z) (Hdc : forall v d, dc (port_outb v iobase2_reg d) = v).

(** The interrupts are enabled at the end. *)
Lemma without_irq_safe {A} b2 (f : M A) R m d : reg b2 ATA_CB_DC = iobase2_reg -> safe f R ->
  exists a m' d', without_irq b2 f (m, d) = Some (a, (m', d')) /\ R m a m' /\ dc d' = ATA_CB_DC_HD15.
Proof using Hdc.
  intros Hb Hf. unfold without_irq. rewrite Hb.
  rewrite (P_bind_some _ _ _ tt (m, port_outb (u8 0x0a) iobase2_reg d)) by done.
  destruct (Hf m (port_outb (u8 0x0a) iobase2_reg d)) as (a & m' & d' & E & HR). rewrite (P_bind_some _ _ _ _ _ E).
  eexists a, m', _. split; [done|]. split; [done|]. apply Hdc.
Qed.

Lemma pio_cmd_safe a op iswrite cmd m d :
  reg (iobase2 (chan_gf a)) ATA_CB_DC = iobase2_reg -> 1 <= count op < 2 ^ 16 -> count op <= Z.of_nat fuel ->
  exists r m' d', ata_pio_cmd_data CONFIG_ATA_PIO32 fuel cpu_khz a op iswrite cmd (m, d) = Some (r, (m', d')) /\
    kept (negb iswrite) op m r m' /\ dc d' = ATA_CB_DC_HD15.
Proof using Hclk Hkhz Hfuel Hdc.
  intros Hb Hn Hf. unfold ata_pio_cmd_data. apply (without_irq_safe _ _ (kept (negb iswrite) op)); [done|].
  eapply safe_then; [apply total_send_cmd|]. intros ret _. case_test; [apply safely_ret; intros; apply kept_same; lia|].
  eapply safe_then; [apply total_wait_data|]. intros ret2 _. case_test; [apply safely_ret; intros; apply kept_same; lia|].
  intros m1 d1. destruct (safe_transfer (chan_gf a) op iswrite 512 ltac:(lia) Hn Hf m1 d1) as ([r op'] & m' & d' & Et & Hw & Hc).
  by exists (r, op'), m', d'.
Qed.

Lemma reset_safe a d : reg (iobase2 (chan_gf a)) ATA_CB_DC = iobase2_reg ->
  exists d', ata_reset fuel cpu_khz a d = Some (tt, d') /\ dc d' = ATA_CB_DC_HD15.
Proof using Hclk Hkhz Hfuel Hdc.
  intros Hb. unfold ata_reset. rewrite Hb. do 4 (rewrite (P_bind_some _ _ _ tt _ eq_refl)).
  match goal with |- context [(reset_wait _ _ _ ≫= _) ?d0] => destruct (total_reset_wait a d0) as ([] & d1 & E & _) end.
  rewrite (P_bind_some _ _ _ _ _ E). eexists. split; [done|]. apply Hdc.
Qed.
End Any.


(** A channel where every register reads as busy, with a clock and the last value for
    the device control register. *)
Definition dead : Type := Z * Z.
#[export] Instance dead_ports : PortDevice dead := {
  port_inb _ d := (0xff, d);
  port_outb v p d := if p =? 0x3f6 then (d.1, v) else d;
  port_rdtscll d := (d.1, (d.1 + 1, d.2));
  port_udelay _ d := d;
  port_yield d := d }.
#[export] Instance dead_ide : IdePorts dead := {
  port_inw _ d := (0xffff, d);
  port_outw _ _ d := d;
  port_inl _ d := (0xffffffff, d);
  port_outl _ _ d := d;
  port_ndelay _ d := d;
  port_msleep _ d := d }.

Definition dead_drive : atadrive_s :=
  mk_atadrive (mk_drive DTYPE_ATA 0 (mk_chs 0 0 0) 1000 0 0 512 (mk_chs 0 0 0)) (mk_channel 0x1f0 0x3f4 0 14 0 (-1)) false.

