(* ===== verification/CdBoot.v ===== *)
(** * Booting from a CD: [bios/seabios/src/cdrom.c] ([atapi_is_ready], [cdrom_boot])

    The calls of [blockcmd.c] are those of [Ata], on any device.  The buffers on the stack,
    [buffer], [info] and [sense], are at addresses given as arguments, as is the string
    constant [eltorito_id].  Output to the screen is left out. *)

From S2P Require Import Prelude BiosUtil Bregs Ports Clock Kbd Block Disk Output Paravirt Tables Ata CdEmu AtaDisk.
Local Open Scope Z_scope.
Local Open Scope coremu_scope.

Definition mbr_s : layout :=
  [("code", 440); ("diskseg", 4); ("null", 2); ("status", 1); ("first", 3); ("type", 1); ("last.heads", 1);
   ("last.sptcyl", 1); ("last.cyllow", 1)].

(** The string compared with the volume descriptor. *)
Definition ELTORITO_ID : list Z := codes "CD001" ++ [1] ++ codes "EL TORITO SPECIFICATION" ++ [0].

Section CdBoot.
Context {D : Type} `{PortDevice D} `{IdePorts D}.
Context (CONFIG_ATA_PIO32 : bool) (fuel : nat) (cpu_khz : Z) (heap : gmap Z drive_object).
Context (usb_cmd_data : disk_op_s -> list Z -> Z -> P (memory * D) (Z * disk_op_s)).
Context (Drives : drives_s) (cdemu_drive_gf buffer info sense eltorito_id : Z).

Notation M A := (P (memory * D) A).
Notation cdb_read := (cdb_read CONFIG_ATA_PIO32 fuel cpu_khz heap usb_cmd_data).
Notation cdb_read_capacity := (cdb_read_capacity CONFIG_ATA_PIO32 fuel cpu_khz heap usb_cmd_data).
Notation cdb_get_sense := (cdb_get_sense CONFIG_ATA_PIO32 fuel cpu_khz heap usb_cmd_data).

(** The loop of [atapi_is_ready]: 0 when the capacity could be read. *)
Fixpoint ready_loop (n : nat) (op : disk_op_s) (end_ : Z) (in_progress : bool) : M (Z * disk_op_s) :=
  match n with
  | O => fun _ => None
  | S n =>
      tsc ← ports rdtscll;
      if check_time tsc end_ then mret (-1, op)
      else
        '(ret, op) ← cdb_read_capacity op info;
        if ret =? 0 then mret (0, op)
        else
          '(ret, op) ← cdb_get_sense op sense;
          if negb (ret =? 0) then ready_loop n op end_ in_progress
          else
            asc ← gets (fun m => readb m (sense + offsetof cdbres_request_sense "asc"));
            ascq ← gets (fun m => readb m (sense + offsetof cdbres_request_sense "ascq"));
            if asc =? 0x3a then mret (-1, op)
            else if (asc =? 0x04) && (ascq =? 0x01) && negb in_progress then
              tsc ← ports rdtscll;
              ready_loop n op (calc_future_tsc cpu_khz tsc 30000) true
            else ready_loop n op end_ in_progress
  end.

Definition atapi_is_ready (op : disk_op_s) : M (Z * disk_op_s) :=
  tsc ← ports rdtscll;
  '(ret, op) ← ready_loop fuel op (calc_future_tsc cpu_khz tsc 5000) false;
  if negb (ret =? 0) then mret (ret, op)
  else
    blksize_ ← gets (fun m => htonl (readl m (info + offsetof cdbres_read_capacity "blksize")));
    o ← drive_at heap (drive_g op);
    mret (if negb (blksize_ =? blksize (base_of o)) then -1 else 0, op).

(** Field [f] of [cdemu] in the EBDA at [ebda_seg]. *)
Definition cd_field (ebda_seg : Z) (f : string) : Z :=
  ebda_seg * 16 + (offsetof extended_bios_data_area_s "cdemu" + offsetof cdemu_s f).

(** The geometry of an emulated floppy. *)
Definition set_floppy (m : memory) (ebda_seg media : Z) : memory :=
  let set spt := writew (writew (writew m (cd_field ebda_seg "lchs.spt") spt) (cd_field ebda_seg "lchs.cylinders") 80)
                   (cd_field ebda_seg "lchs.heads") 2 in
  if media =? 0x01 then set 15 else if media =? 0x02 then set 18 else if media =? 0x03 then set 36 else m.

(** From the emulation checks on. *)
Definition start_emulation (m : memory) (ebda_seg media boot_segment : Z) : memory :=
  let f := cd_field ebda_seg in
  let m :=
    if media <? 4 then
      let m := writeb m (f "emulated_extdrive") 0x00 in
      let m := writew m equipment_list_flags (Z.lor (readw m equipment_list_flags) 0x41) in
      set_floppy m ebda_seg media
    else
      let m := writeb m (f "emulated_extdrive") 0x80 in
      let m := writeb m hdcount (readb m hdcount + 1) in
      let mbr x := readb m (boot_segment * 16 + offsetof mbr_s x) in
      let sptcyl := mbr "last.sptcyl" in
      let cyllow := mbr "last.cyllow" in
      let heads := mbr "last.heads" in
      let m := writew m (f "lchs.spt") (Z.land sptcyl 0x3f) in
      let m := writew m (f "lchs.cylinders") (Z.land (Z.shiftl sptcyl 2) 0x300 + cyllow + 1) in
      writew m (f "lchs.heads") (heads + 1) in
  writeb m (f "active") 0x01.

(** From the initial entry of the boot catalogue in [buffer] on. *)
Definition boot_image (cdid : Z) (dop : disk_op_s) : M Z :=
  ebda_seg ← gets get_ebda_seg;
  let f := cd_field ebda_seg in
  media ← gets (fun m => readb m (buffer + 0x21));
  modify (fun m => writeb m (f "media") media);;
  modify (fun m => writel m (f "emulated_drive_gf") (drive_g dop));;
  boot_segment ← gets (fun m => readw m (buffer + 0x22));
  let boot_segment := if boot_segment =? 0 then 0x07C0 else boot_segment in
  modify (fun m => writew m (f "load_segment") boot_segment);;
  modify (fun m => writew m (f "buffer_segment") 0x0000);;
  nbsectors ← gets (fun m => readw m (buffer + 0x26));
  modify (fun m => writew m (f "sector_count") nbsectors);;
  lba ← gets (fun m => readl m (buffer + 0x28));
  modify (fun m => writel m (f "ilba") lba);;
  '(ret, _) ← cdb_read (mk_op lba (MAKE_FLATPTR boot_segment 0) (drive_g dop) (u16 (DIV_ROUND_UP nbsectors 4)) (command dop));
  if negb (ret =? 0) then mret 12
  else if media =? 0 then
    modify (fun m => writeb m (f "emulated_extdrive") (EXTSTART_CD + cdid));;
    mret 0
  else if cdemu_drive_gf =? 0 then mret 13
  else
    modify (fun m => start_emulation m ebda_seg media boot_segment);;
    mret 0.

(** The checks of the catalogue: the error, or 0. *)
Definition check_catalogue (m : memory) : Z :=
  if negb (readb m (buffer + 0x00) =? 0x01) then 8
  else if negb (readb m (buffer + 0x01) =? 0x00) then 9
  else if negb (readb m (buffer + 0x1E) =? 0x55) then 10
  else if negb (readb m (buffer + 0x1F) =? 0xAA) then 10
  else if negb (readb m (buffer + 0x20) =? 0x88) then 11
  else 0.

Definition cdrom_boot (cdid : Z) : M Z :=
  drive ← (match getDrive Drives EXTTYPE_CD cdid with Ok d => mret d | _ => fun _ => None end);
  if drive =? 0 then mret 1
  else
    '(_, dop) ← atapi_is_ready (mk_op 0 0 drive 0 0);
    let dop := mk_op 0x11 buffer (drive_g dop) 1 (command dop) in
    '(ret, dop) ← cdb_read dop;
    if negb (ret =? 0) then mret 3
    else
      b0 ← gets (fun m => readb m buffer);
      if negb (b0 =? 0) then mret 4
      else
        c ← (fun '(m, d) => c ← strcmp (length ELTORITO_ID) m (buffer + 1) eltorito_id; Some (c, (m, d)));
        if negb (c =? 0) then mret 5
        else
          lba ← gets (fun m => readl m (buffer + 0x47));
          '(ret, dop) ← cdb_read (mk_op lba (buf_fl dop) (drive_g dop) 1 (command dop));
          if negb (ret =? 0) then mret 7
          else
            e ← gets check_catalogue;
            if negb (e =? 0) then mret e else boot_image cdid dop.
End CdBoot.

(** ** A disc that boots *)

(** Equal strings whose only zero is the last character. *)
Lemma strcmp_equal l m s1 s2 : (forall i, (i < length l)%nat -> m (s1 + Z.of_nat i) = nth i l 0 /\ m (s2 + Z.of_nat i) = nth i l 0) ->
  (exists l', l = l' ++ [0] /\ Forall (fun c => c <> 0) l') -> strcmp (length l) m s1 s2 = Some 0.
Proof.
  intros H (l' & -> & Hz). revert s1 s2 H. induction Hz as [|c l' Hc _ IH]; intros s1 s2 H.
  - destruct (H 0%nat ltac:(cbn; lia)) as [E1 E2]. rewrite !Z.add_0_r in *. cbn. by rewrite E1, E2.
  - cbn [app length strcmp]. destruct (H 0%nat ltac:(cbn; lia)) as [E1 E2]. rewrite !Z.add_0_r in *. cbn in E1, E2.
    rewrite E1, E2, Z.eqb_refl, (proj2 (Z.eqb_neq c 0)) by done. cbn [negb]. apply IH. intros i Hi.
    destruct (H (S i) ltac:(cbn in *; lia)) as [F1 F2]. change (nth (S i) ((c :: l') ++ [0]) 0) with (nth i (l' ++ [0]) 0) in F1, F2.
    split; [rewrite <- F1|rewrite <- F2]; f_equal; lia.
Qed.

(** The records of a disc image: block of the catalogue, and of the entry in it the kind
    of emulation, the segment, the number of sectors and the block of the boot image. *)
Record boot_record := mk_boot { br_catalogue : Z; br_media : Z; br_segment : Z; br_sectors : Z; br_image : Z }.

(** [image] is that of a disc with a valid boot record for the x86. *)
Definition bootable (image : memory) (blocks : Z) (b : boot_record) : Prop :=
  let brvd := 2048 * 0x11 in
  let cat := 2048 * br_catalogue b in
  image brvd = 0 /\ (forall i, (i < length ELTORITO_ID)%nat -> image (brvd + 1 + Z.of_nat i) = nth i ELTORITO_ID 0) /\
  readl image (brvd + 0x47) = br_catalogue b /\ check_catalogue cat image = 0 /\
  readb image (cat + 0x21) = br_media b /\ readw image (cat + 0x22) = br_segment b /\
  readw image (cat + 0x26) = br_sectors b /\ readl image (cat + 0x28) = br_image b /\
  0x11 < blocks /\ br_catalogue b < blocks /\ 1 <= br_sectors b /\ br_image b + DIV_ROUND_UP (br_sectors b) 4 <= blocks.

Definition load_segment (b : boot_record) : Z := if br_segment b =? 0 then 0x07C0 else br_segment b.
Definition load_size (b : boot_record) : Z := 2048 * DIV_ROUND_UP (br_sectors b) 4.

(** Two areas of memory that do not meet. *)
Definition clear_of (x n y k : Z) : Prop := x + n <= y \/ y + k <= x.

(** The buffers, the string, the CD part of the EBDA at [cd] and the area the image is
    loaded into keep clear of each other and of the BIOS data area. *)
Record room (cd buffer info eltorito_id : Z) (b : boot_record) : Prop := {
  room_info : clear_of info 8 0x400 0x100 /\ clear_of info 8 eltorito_id 30 /\ clear_of info 8 cd 24;
  room_buffer : clear_of buffer 2048 0x400 0x100 /\ clear_of buffer 2048 eltorito_id 30 /\ clear_of buffer 2048 cd 24;
  room_cd : clear_of cd 24 0x400 0x100;
  room_load : clear_of (load_segment b * 16) (load_size b) cd 24 /\ clear_of (load_segment b * 16) (load_size b) 0x400 0x100 }.

(** What the CD part of the EBDA says. *)
Record described (m : memory) (p : Z) (b : boot_record) : Prop := {
  desc_drive : readl m (cdemu m "emulated_drive_gf") = p;
  desc_image : readl m (cdemu m "ilba") = br_image b;
  desc_media : readb m (cdemu m "media") = br_media b;
  desc_segment : readw m (cdemu m "load_segment") = load_segment b;
  desc_sectors : readw m (cdemu m "sector_count") = br_sectors b }.

Section Area.
Context (p : Z) (image : memory).

(** The CD part of the EBDA of [m]. *)
Definition cd_area (m : memory) : Z := get_ebda_seg m * 16 + offsetof extended_bios_data_area_s "cdemu".

Lemma cd_field_at e f : cd_field e f = e * 16 + offsetof extended_bios_data_area_s "cdemu" + offsetof cdemu_s f.
Proof. unfold cd_field. lia. Qed.

Lemma ebda_seg_same m m' : (forall x, 0x400 <= x < 0x410 -> m' x = m x) -> get_ebda_seg m' = get_ebda_seg m.
Proof. intros Hx. apply readw_ext; apply Hx; vm_compute; split; congruence. Qed.

Lemma described_same m m' b : (forall x, 0x400 <= x < 0x410 -> m' x = m x) ->
  (forall x, cd_area m <= x < cd_area m + 14 \/ x = cd_area m + 15 -> m' x = m x) -> described m p b -> described m' p b.
Proof.
  intros Hb Hx [D1 D2 D3 D4 D5]. pose proof (ebda_seg_same m m' Hb) as E. unfold cdemu, ebda, cd_area in *. revert D1 D2 D3 D4 D5 Hx. offsets. intros.
  split; unfold cdemu, ebda; rewrite E; offsets; [rewrite <- D1|rewrite <- D2|rewrite <- D3|rewrite <- D4|rewrite <- D5].
  - apply readl_ext. intros. apply Hx. lia.
  - apply readl_ext. intros. apply Hx. lia.
  - apply Hx. lia.
  - apply readw_ext; apply Hx; lia.
  - apply readw_ext; apply Hx; lia.
Qed.

(** The geometry of the emulated drive. *)
Definition geometry (b : boot_record) : Z * Z * Z :=
  let mbr x := readb image (2048 * br_image b + offsetof mbr_s x) in
  if br_media b =? 1 then (80, 2, 15) else if br_media b =? 2 then (80, 2, 18) else if br_media b =? 3 then (80, 2, 36)
  else (Z.land (Z.shiftl (mbr "last.sptcyl") 2) 0x300 + mbr "last.cyllow" + 1, mbr "last.heads" + 1, Z.land (mbr "last.sptcyl") 0x3f).

(** Where [start_emulation] stores. *)
Lemma start_emulation_other m e media seg x :
  ~ (0x410 <= x < 0x500) -> ~ (cd_field e "active" <= x < cd_field e "active" + 1) -> ~ (cd_field e "emulated_extdrive" <= x < cd_field e "emulated_extdrive" + 8) ->
  start_emulation m e media seg x = m x.
Proof.
  rewrite !cd_field_at. unfold start_emulation, set_floppy. rewrite !cd_field_at. cbv zeta.
  change equipment_list_flags with 0x410. change hdcount with 0x475. offsets. intros H1 H2 H3.
  repeat case_test; by far.
Qed.
Lemma land_shifted y k n : 0 <= k -> 0 <= n -> Z.land y (Z.shiftl (Z.ones n) k) = Z.shiftr y k mod 2 ^ n * 2 ^ k.
Proof.
  intros Hk Hn. rewrite <- Z.shiftl_mul_pow2, <- Z.land_ones by lia. apply Z.bits_inj'. intros i Hi.
  rewrite Z.land_spec, !Z.shiftl_spec, Z.land_spec by lia. destruct (Z.lt_ge_cases i k) as [H|H].
  - rewrite !(Z.testbit_neg_r _ (i - k)) by lia. by rewrite !andb_false_r.
  - rewrite Z.shiftr_spec by lia. do 2 f_equal. lia.
Qed.

(** What it stores. *)
Lemma start_emulation_values m e b : let cd := e * 16 + offsetof extended_bios_data_area_s "cdemu" in
  clear_of cd 24 0x400 0x100 -> clear_of (load_segment b * 16) 454 cd 24 -> clear_of (load_segment b * 16) 454 0x400 0x100 ->
  br_media b <> 0 -> 0 <= br_media b -> (forall i, in_u 8 (image i)) ->
  (forall i, 0 <= i < 454 -> m (load_segment b * 16 + i) = image (2048 * br_image b + i)) ->
  let m' := start_emulation m e (br_media b) (load_segment b) in
  let f := cd_field e in
  readb m' (f "emulated_extdrive") = (if br_media b <? 4 then 0x00 else 0x80) /\ readb m' (f "active") = 1 /\
  (readw m' (f "lchs.cylinders"), readw m' (f "lchs.heads"), readw m' (f "lchs.spt")) = geometry b.
Proof.
  cbv zeta. unfold clear_of. intros Hc Hl Hb Hm Hm0 Himg Hld. unfold start_emulation, set_floppy, geometry. rewrite !cd_field_at. cbv zeta.
  change equipment_list_flags with 0x410. change hdcount with 0x475. revert Hc Hl Hb. offsets. intros Hc Hl Hb.
  assert (forall k, 0 <= k < 454 -> forall m1, (forall x, load_segment b * 16 <= x < load_segment b * 16 + 454 -> m1 x = m x) ->
    m1 (load_segment b * 16 + k) = image (2048 * br_image b + k)) as Hmbr by (intros k Hk m1 H1; rewrite H1 by lia; by apply Hld).
  unfold readb. destruct (Z.ltb_spec (br_media b) 4) as [H4|H4].
  - assert (br_media b = 1 \/ br_media b = 2 \/ br_media b = 3) as [E|[E|E]] by lia; rewrite E; cbn [Z.eqb Pos.eqb];
      (split; [far; by rewrite writeb_same|]); (split; [by rewrite writeb_same|]);
      (f_equal; [f_equal|]); (etransitivity; [apply readw_ext; far; reflexivity|by rewrite readw_writew]).
  - rewrite !(proj2 (Z.eqb_neq (br_media b) _)) by lia.
    rewrite !Hmbr by (lia || (intros x Hx; far; done)).
    split; [far; by rewrite writeb_same|]. split; [by rewrite writeb_same|].
    pose proof (Himg (2048 * br_image b + 452)). pose proof (Himg (2048 * br_image b + 453)). pose proof (Himg (2048 * br_image b + 451)).
    unfold in_u in *. set (x := image (2048 * br_image b + 452)) in *.
    f_equal; [f_equal|]; (etransitivity; [apply readw_ext; far; reflexivity|rewrite readw_writew; apply wrap_small]).
    + change 0x300 with (Z.shiftl (Z.ones 2) 8). rewrite land_shifted by lia. unfold in_u. pose proof (Z.mod_pos_bound (Z.shiftr (Z.shiftl x 2) 8) (2 ^ 2) ltac:(lia)).
      lia.
    + unfold in_u. lia.
    + change 0x3f with (Z.ones 6). rewrite Z.land_ones by lia. unfold in_u. pose proof (Z.mod_pos_bound x (2 ^ 6) ltac:(lia)). lia.
Qed.

(** *** The initial entry *)

Context (blocks : Z) (b : boot_record) (Himg : forall i, in_u 8 (image i)) (Hboot : bootable image blocks b) (Hp : in_u 32 p).

Lemma record_range : in_u 16 (load_segment b) /\ in_u 16 (br_sectors b) /\ in_u 32 (br_image b) /\ in_u 8 (br_media b) /\
  in_u 32 (br_catalogue b).
Proof using Hboot Himg.
  destruct Hboot as (_ & _ & <- & _ & <- & Es & <- & <- & _). unfold load_segment.
  split_and!; try (apply readw_range; done); try (apply readl_range; done); [|apply Himg].
  case_test; [unfold in_u; lia|]. rewrite <- Es. by apply readw_range.
Qed.

(** The stores before the image is read. *)
Definition entry_stores (m : memory) (e : Z) : memory :=
  let f := cd_field e in
  let m := writeb m (f "media") (br_media b) in
  let m := writel m (f "emulated_drive_gf") p in
  let m := writew m (f "load_segment") (load_segment b) in
  let m := writew m (f "buffer_segment") 0x0000 in
  let m := writew m (f "sector_count") (br_sectors b) in
  writel m (f "ilba") (br_image b).

Lemma entry_stores_other m x : ~ (cd_area m <= x < cd_area m + 16) -> entry_stores m (get_ebda_seg m) x = m x.
Proof using. unfold cd_area, entry_stores. rewrite !cd_field_at. cbv zeta. offsets. intros Hx. by far. Qed.

Lemma entry_described m : clear_of (cd_area m) 24 0x400 0x100 -> described (entry_stores m (get_ebda_seg m)) p b /\
  entry_stores m (get_ebda_seg m) (cd_area m + 14) = m (cd_area m + 14).
Proof using Hboot Himg Hp.
  intros Hc. pose proof record_range as (R1 & R2 & R3 & R4 & _).
  assert (get_ebda_seg (entry_stores m (get_ebda_seg m)) = get_ebda_seg m) as E.
  { apply ebda_seg_same. intros x Hx. apply entry_stores_other. unfold clear_of in Hc. lia. }
  unfold clear_of in Hc. split.
  - split; unfold cdemu, ebda; rewrite E; unfold entry_stores; rewrite !cd_field_at; cbv zeta; offsets.
    + etransitivity; [apply readl_ext; intros; far; reflexivity|]. rewrite readl_writel. by apply wrap_small.
    + etransitivity; [apply readl_ext; intros; far; reflexivity|]. rewrite readl_writel. by apply wrap_small.
    + unfold readb. far. rewrite writeb_same. by apply wrap_small.
    + etransitivity; [apply readw_ext; far; reflexivity|]. rewrite readw_writew. by apply wrap_small.
    + etransitivity; [apply readw_ext; far; reflexivity|]. rewrite readw_writew. by apply wrap_small.
  - unfold entry_stores, cd_area. rewrite !cd_field_at. cbv zeta. offsets. by far.
Qed.
End Area.

Section Boots.
Context (pio32 : bool) (fuel : nat) (khz : Z) (heap : gmap Z drive_object).
Context (usb : disk_op_s -> list Z -> Z -> P (memory * ata_drive) (Z * disk_op_s)).
Context (p : Z) (a : atadrive_s) (M : drive_model) (image : Z -> Z).
Context (Hkhz : 0 < khz < 2 ^ 32) (Hf : 65536 <= Z.of_nat fuel) (Hcd : cd_drive heap p a M) (Himg : forall i, in_u 8 (image i)).
Context (buffer info sense : Z).

Notation on d := (idle fuel khz d M image).

Lemma drive_tsc (d : ata_drive) : rdtscll d = Some (u64 (d_clock d), with_time d (d_busy d) (d_clock d + 1)).
Proof using. done. Qed.

(** The drive answers at the first attempt. *)
Lemma is_ready op m d : calm fuel khz d -> d_model d = M -> d_image d = image -> drive_g op = p ->
  exists ret d', atapi_is_ready pio32 fuel khz heap usb info sense op (m, d)
    = Some ((ret, one_block op info), (stored m info 8 (capacity_bytes M) 0, d')) /\ on d'.
Proof using Hkhz Hf Hcd Himg.
  intros Hc HM HI Hp. unfold atapi_is_ready.
  rewrite (P_bind_some _ _ _ _ _ (ports_some rdtscll _ m d _ (drive_tsc d))).
  set (d1 := with_time d (d_busy d) (d_clock d + 1)). rewrite calc_future_spec.
  destruct (cdb_capacity pio32 fuel khz heap usb p a M image ltac:(lia) Hf Hcd Himg op info m (with_time d1 (d_busy d1) (d_clock d1 + 1)))
    as (d2 & E & Hi); [by right|done|].
  erewrite (P_bind_some _ _ _ (0, one_block op info)).
  2: { destruct fuel as [|n] eqn:En; [lia|]. cbn [ready_loop]. rewrite <- En in *.
       rewrite (P_bind_some _ _ _ _ _ (ports_some rdtscll _ m d1 _ (drive_tsc d1))).
       rewrite check_time_spec by (cbn [d1 d_clock with_time]; lia).
       rewrite (proj2 (Z.ltb_ge _ _)) by (cbn [d1 d_clock with_time]; lia).
       rewrite (P_bind_some _ _ _ _ _ E). reflexivity. }
  cbn [negb Z.eqb]. rewrite gets_bind. cbn [one_block drive_g]. rewrite Hp.
  rewrite (P_bind_some _ _ _ _ _ (cd_found heap p a M Hcd _ d2)). by eexists _, d2.
Qed.



Context (b : boot_record) (Hboot : bootable image (d_blocks M) b) (Hp : in_u 32 p) (cdemu_drive_gf eltorito_id cdid : Z).

Notation entry_stores := (entry_stores p b).

(** Memory at the end of [cdrom_boot], from memory with the catalogue in the buffer. *)
Definition loaded (m : memory) : memory :=
  stored (entry_stores m (get_ebda_seg m)) (load_segment b * 16) (load_size b) image (2048 * br_image b).
Definition finished (m : memory) : memory :=
  let e := get_ebda_seg m in
  if br_media b =? 0 then writeb (loaded m) (cd_field e "emulated_extdrive") (EXTSTART_CD + cdid)
  else if cdemu_drive_gf =? 0 then loaded m
  else start_emulation (loaded m) e (br_media b) (load_segment b).

Lemma boot_image_run dop m d :
  on d -> drive_g dop = p -> room (cd_area m) buffer info eltorito_id b ->
  (forall i, 0 <= i < 2048 -> m (buffer + i) = image (2048 * br_catalogue b + i)) ->
  exists d', boot_image pio32 fuel khz heap usb cdemu_drive_gf buffer cdid dop (m, d)
    = Some (if (br_media b =? 0) || negb (cdemu_drive_gf =? 0) then 0 else 13, (finished m, d')) /\ on d'.
Proof using Hkhz Hf Hcd Himg Hboot Hp.
  intros Hd Hdop [_ (Hb1 & _ & Hb3) _ _] Hbuf.
  pose proof (record_range image (d_blocks M) b Himg Hboot) as (R1 & R2 & R3 & R4 & _).
  pose proof Hboot as (_ & _ & _ & _ & Em & Es & En & Ei & _ & _ & Hn1 & Hfit).
  set (e := get_ebda_seg m). unfold cd_area in Hb3. fold e in Hb3. unfold clear_of in Hb1, Hb3. revert Hb3. offsets. intros Hb3.
  assert (forall m', (forall x, buffer <= x < buffer + 2048 -> m' x = m x) ->
    readb m' (buffer + 0x21) = br_media b /\ readw m' (buffer + 0x22) = br_segment b /\
    readw m' (buffer + 0x26) = br_sectors b /\ readl m' (buffer + 0x28) = br_image b) as Hrd.
  { intros m' Hx. rewrite <- Em, <- Es, <- En, <- Ei. unfold readb, readl, readw. rewrite <- !Z.add_assoc, !Hx by lia.
    by rewrite !Hbuf by lia. }
  destruct (cdb_reads pio32 fuel khz heap usb p a M image ltac:(lia) Hf Hcd Himg
    (mk_op (br_image b) (MAKE_FLATPTR (load_segment b) 0) (drive_g dop) (u16 (DIV_ROUND_UP (br_sectors b) 4)) (command dop))
    (entry_stores m e) d) as (d' & E & Hi); [by left|done|cbn; apply R3|..].
  { cbn [count]. unfold DIV_ROUND_UP, in_u in *. rewrite wrap_small by (unfold in_u; Z.to_euclidean_division_equations; lia).
    Z.to_euclidean_division_equations; lia. }
  { cbn [count op_lba]. rewrite wrap_small; [done|]. unfold DIV_ROUND_UP, in_u in *. Z.to_euclidean_division_equations; lia. }
  exists d'. split; [|done]. unfold boot_image. rewrite Hdop in *. rewrite gets_bind. fold e. rewrite gets_bind.
  rewrite (proj1 (Hrd m ltac:(done))), !modify_bind, gets_bind.
  assert (forall x, buffer <= x < buffer + 2048 -> entry_stores m e x = m x) as Hes.
  { intros x Hx. apply entry_stores_other. unfold cd_area. fold e. offsets. lia. }
  match goal with |- context [readw ?m1 (buffer + 0x22)] => set (m1' := m1); assert (forall x, buffer <= x < buffer + 2048 -> m1' x = m x) as H1 end.
  { intros x Hx. unfold m1'. rewrite !cd_field_at. offsets. by far. }
  rewrite (proj1 (proj2 (Hrd m1' H1))), !modify_bind, gets_bind. fold (load_segment b).
  match goal with |- context [readw ?m1 (buffer + 0x26)] => set (m2' := m1); assert (forall x, buffer <= x < buffer + 2048 -> m2' x = m x) as H2 end.
  { intros x Hx. unfold m2'. rewrite <- (H1 x Hx). rewrite !cd_field_at. offsets. by far. }
  rewrite (proj1 (proj2 (proj2 (Hrd m2' H2)))), !modify_bind, gets_bind.
  match goal with |- context [readl ?m1 (buffer + 0x28)] => set (m3' := m1); assert (forall x, buffer <= x < buffer + 2048 -> m3' x = m x) as H3 end.
  { intros x Hx. unfold m3'. rewrite <- (H2 x Hx). rewrite !cd_field_at. offsets. by far. }
  rewrite (proj2 (proj2 (proj2 (Hrd m3' H3)))), !modify_bind.
  assert (writel m3' (cd_field e "ilba") (br_image b) = entry_stores m e) as -> by done.
  rewrite (P_bind_some _ _ _ _ _ E). cbn [negb Z.eqb buf_fl count op_lba].
  assert (MAKE_FLATPTR (load_segment b) 0 = load_segment b * 16) as ->.
  { unfold MAKE_FLATPTR. rewrite Z.add_0_r, Z.shiftl_mul_pow2 by lia. apply wrap_small. unfold in_u in *. lia. }
  rewrite (wrap_small 16) by (unfold DIV_ROUND_UP, in_u in *; Z.to_euclidean_division_equations; lia).
  unfold finished, loaded. fold e. unfold load_size. case_test; [done|]. cbn [orb]. case_test; done.
Qed.
End Boots.

(** *** What memory says at the end *)

(** The state of the emulation after a boot. *)
Definition emulation (m m' : memory) (image : memory) (b : boot_record) (cdid : Z) : Prop :=
  if br_media b =? 0 then
    readb m' (cdemu m' "emulated_extdrive") = u8 (EXTSTART_CD + cdid) /\ readb m' (cdemu m' "active") = readb m (cdemu m "active")
  else
    readb m' (cdemu m' "emulated_extdrive") = (if br_media b <? 4 then 0x00 else 0x80) /\ readb m' (cdemu m' "active") = 1 /\
    (readw m' (cdemu m' "lchs.cylinders"), readw m' (cdemu m' "lchs.heads"), readw m' (cdemu m' "lchs.spt")) = geometry image b.

Section Finished.
Context (p : Z) (image : memory) (blocks : Z) (b : boot_record) (Himg : forall i, in_u 8 (image i)) (Hboot : bootable image blocks b)
  (Hp : in_u 32 p) (cdemu_drive_gf cdid : Z).
Context (m : memory) (buffer info eltorito_id : Z) (Hroom : room (cd_area m) buffer info eltorito_id b).

Notation finished := (finished p image b cdemu_drive_gf cdid).
Notation loaded := (loaded p image b).

Lemma load_size_range : 2048 <= load_size b.
Proof using Hboot.
  destruct Hboot as (_ & _ & _ & _ & _ & _ & _ & _ & _ & _ & Hn & _). unfold load_size, DIV_ROUND_UP.
  Z.to_euclidean_division_equations. lia.
Qed.

Lemma loaded_other x : x < load_segment b * 16 \/ load_segment b * 16 + load_size b <= x -> ~ (cd_area m <= x < cd_area m + 16) -> loaded m x = m x.
Proof using.
  intros H1 H2. unfold loaded, stored. case_test; [lia|]. by apply entry_stores_other.
Qed.

Lemma loaded_described : described (loaded m) p b /\ get_ebda_seg (loaded m) = get_ebda_seg m /\
  loaded m (cd_area m + 14) = m (cd_area m + 14).
Proof using All.
  destruct Hroom as [_ _ Hcd [Hl1 Hl2]]. unfold clear_of in *.
  assert (get_ebda_seg (loaded m) = get_ebda_seg m) as E by (apply ebda_seg_same; intros x Hx; apply loaded_other; lia).
  destruct (entry_described p image blocks b Himg Hboot Hp m Hcd) as [Hd Ha]. split; [|split; [done|]].
  - eapply described_same; [| |exact Hd].
    + intros x Hx. unfold loaded, stored. case_test; [lia|done].
    + intros x Hx. unfold loaded, stored. case_test; [|done]. unfold cd_area in *.
      rewrite (ebda_seg_same _ (entry_stores p b m (get_ebda_seg m))) in Hx by (intros; apply entry_stores_other; unfold cd_area; lia). lia.
  - rewrite <- Ha. unfold loaded, stored. case_test; [lia|done].
Qed.

Lemma finished_spec : br_media b = 0 \/ cdemu_drive_gf <> 0 ->
  described (finished m) p b /\ emulation m (finished m) image b cdid /\
  (forall i, 0 <= i < load_size b -> finished m (load_segment b * 16 + i) = image (2048 * br_image b + i)).
Proof using All.
  intros Hem. destruct loaded_described as (Hd & E & Ha). pose proof Hroom as [_ _ Hcd [Hl1 Hl2]].
  assert (forall i, 0 <= i < load_size b -> loaded m (load_segment b * 16 + i) = image (2048 * br_image b + i)) as Hld.
  { intros i Hi. unfold loaded, stored. case_test; [f_equal; lia|lia]. }
  unfold finished, emulation. cbv zeta. destruct (Z.eqb_spec (br_media b) 0) as [Hm|Hm].
  - assert (forall x, x <> cd_area m + 16 -> writeb (loaded m) (cd_field (get_ebda_seg m) "emulated_extdrive") (EXTSTART_CD + cdid) x = loaded m x) as Ho.
    { intros x Hx. rewrite cd_field_at. apply writeb_other. unfold cd_area in Hx. revert Hx. offsets. lia. }
    unfold clear_of in *. set (m' := writeb _ _ _) in *.
    assert (get_ebda_seg m' = get_ebda_seg m) as E' by (rewrite <- E; apply ebda_seg_same; intros; apply Ho; lia).
    split; [|split].
    + eapply described_same; [| |exact Hd]; intros x Hx; apply Ho; [lia|]. unfold cd_area in *. rewrite E in Hx. lia.
    + unfold readb, cdemu, ebda. rewrite E'. split.
      * unfold m'. rewrite cd_field_at. apply writeb_same.
      * rewrite Ho by (unfold cd_area; offsets; lia). exact Ha.
    + intros i Hi. rewrite Ho by lia. by apply Hld.
  - destruct (Z.eqb_spec cdemu_drive_gf 0) as [|_]; [lia|].
    set (e := get_ebda_seg m) in *. set (m' := start_emulation _ _ _ _).
    pose proof load_size_range as Hsz. unfold clear_of in *.
    assert (forall x, ~ (0x410 <= x < 0x500) -> x <> cd_area m + 14 -> ~ (cd_area m + 16 <= x < cd_area m + 24) -> m' x = loaded m x) as Ho.
    { intros x H1 H2 H3. apply start_emulation_other; [done|..]; rewrite !cd_field_at; unfold cd_area in *; fold e in H2, H3; revert H2 H3; offsets; lia. }
    assert (get_ebda_seg m' = e) as E' by (rewrite <- E; apply ebda_seg_same; intros; apply Ho; lia).
    pose proof (record_range image blocks b Himg Hboot) as (R1 & R2 & R3 & R4 & _).
    destruct (start_emulation_values image (loaded m) e b) as (V1 & V2 & V3); try done; try (unfold clear_of, cd_area in *; fold e in Hcd, Hl1; lia).
    { apply R4. }
    { intros i Hi. apply Hld. lia. }
    split; [|split].
    + eapply described_same; [| |exact Hd]; intros x Hx; apply Ho; try lia; unfold cd_area in *; rewrite E in Hx; unfold e in *; lia.
    + unfold cdemu, ebda. rewrite E'. fold m' in V1, V2, V3. rewrite cd_field_at in V1, V2. rewrite !cd_field_at in V3. exact (conj V1 (conj V2 V3)).
    + intros i Hi. rewrite Ho by lia. by apply Hld.
Qed.
End Finished.

Lemma stored_at m buf n src off x : buf <= x < buf + n -> stored m buf n src off x = src (off + (x - buf)).
Proof. intros Hx. unfold stored. case_test; [done|lia]. Qed.

Lemma stored_out m buf n src off x : x < buf \/ buf + n <= x -> stored m buf n src off x = m x.
Proof. intros Hx. unfold stored. case_test; [lia|done]. Qed.

(** The checks of the volume descriptor, read into [buffer]. *)
Lemma volume_descriptor image blocks b m buffer id : bootable image blocks b ->
  (forall i, 0 <= i < 2048 -> m (buffer + i) = image (2048 * 0x11 + i)) ->
  (forall i, (i < length ELTORITO_ID)%nat -> m (id + Z.of_nat i) = nth i ELTORITO_ID 0) ->
  readb m buffer = 0 /\ strcmp (length ELTORITO_ID) m (buffer + 1) id = Some 0 /\ readl m (buffer + 0x47) = br_catalogue b.
Proof.
  intros (B0 & Bid & Bcat & _) Hbuf Hid. split_and!.
  - unfold readb. rewrite <- B0, <- (Z.add_0_r buffer), Hbuf by lia. by rewrite Z.add_0_r.
  - rewrite (strcmp_equal ELTORITO_ID); [done| |].
    + intros i Hi. split; [|by apply Hid]. rewrite <- (Bid i Hi). change (length ELTORITO_ID) with 30%nat in Hi.
      rewrite <- !Z.add_assoc. apply Hbuf. lia.
    + exists (codes "CD001" ++ [1] ++ codes "EL TORITO SPECIFICATION"). split; [done|]. by repeat constructor.
  - rewrite <- Bcat. unfold readl, readw. by rewrite <- !Z.add_assoc, !Hbuf by lia.
Qed.

(** The checks of the catalogue, read into [buffer]. *)
Lemma catalogue_checked image blocks b m buffer : bootable image blocks b ->
  (forall i, 0 <= i < 2048 -> m (buffer + i) = image (2048 * br_catalogue b + i)) -> check_catalogue buffer m = 0.
Proof.
  intros (_ & _ & _ & Bchk & _) Hbuf. rewrite <- Bchk. unfold check_catalogue, readb. by rewrite !Hbuf by lia.
Qed.

(** C20.  Booting from a disc with a valid boot record loads the boot image, whole blocks of
    it, at the segment the record names, and describes the disc in the EBDA as the reads
    of an emulated drive expect it; without emulation the drive number is that of the
    disc and the emulation is as it was, with one it is active with the geometry of the
    floppy or of the partition table in the image. *)
Theorem cdrom_boot_loads pio32 fuel khz heap usb p a M image b D cdid cdemu_drive buffer info sense id m d :
  cd_drive heap p a M -> 0 < khz < 2 ^ 32 -> 65536 <= Z.of_nat fuel ->
  calm fuel khz d -> d_model d = M -> d_image d = image -> (forall i, in_u 8 (image i)) ->
  getDrive D EXTTYPE_CD cdid = Ok p -> 0 < p < 2 ^ 32 -> bootable image (d_blocks M) b ->
  room (cd_area m) buffer info id b -> (forall i, (i < length ELTORITO_ID)%nat -> m (id + Z.of_nat i) = nth i ELTORITO_ID 0) ->
  br_media b = 0 \/ cdemu_drive <> 0 ->
  exists m' d', @cdrom_boot _ drive_ports drive_ide pio32 fuel khz heap usb D cdemu_drive buffer info sense id cdid (m, d)
      = Some (0, (m', d')) /\ idle fuel khz d' M image /\
    (forall i, 0 <= i < load_size b -> m' (load_segment b * 16 + i) = image (2048 * br_image b + i)) /\
    described m' p b /\ emulation m m' image b cdid.
Proof.
  intros Hcd Hkhz Hf Hc HM HI Himg Hdr Hp Hboot Hroom Hid Hem. unfold cdrom_boot. rewrite Hdr.
  rewrite (P_bind_some _ _ _ p (m, d)) by done. rewrite (proj2 (Z.eqb_neq p 0)) by lia.
  destruct (is_ready pio32 fuel khz heap usb p a M image Hkhz Hf Hcd Himg info sense (mk_op 0 0 p 0 0) m d Hc HM HI eq_refl)
    as (ret & d1 & E1 & I1). rewrite (P_bind_some _ _ _ _ _ E1). cbn [one_block drive_g command]. clear E1.
  set (m1 := stored m info 8 _ 0).
  pose proof Hboot as (_ & _ & _ & _ & _ & _ & _ & _ & Hb1 & Hb2 & _).
  pose proof (record_range image (d_blocks M) b Himg Hboot) as (_ & _ & _ & _ & R5).
  pose proof Hroom as [(Hi1 & Hi2 & Hi3) (Hu1 & Hu2 & Hu3) Hcd' [Hl1 Hl2]].
  unfold clear_of in Hi1, Hi2, Hi3, Hu1, Hu2, Hu3.
  destruct (cdb_reads pio32 fuel khz heap usb p a M image ltac:(lia) Hf Hcd Himg (mk_op 0x11 buffer p 1 0) m1 d1)
    as (d2 & E2 & I2); [by left|done|cbn; lia|cbn; lia|cbn; lia|].
  rewrite (P_bind_some _ _ _ _ _ E2). clear E2. cbn [negb Z.eqb buf_fl count op_lba]. rewrite Z.mul_1_r.
  set (m2 := stored m1 buffer 2048 image (2048 * 0x11)).
  assert (forall i, 0 <= i < 2048 -> m2 (buffer + i) = image (2048 * 0x11 + i)) as H2
    by (intros i Hi; unfold m2; rewrite stored_at by lia; f_equal; lia).
  destruct (volume_descriptor image (d_blocks M) b m2 buffer id Hboot H2) as (V1 & V2 & V3).
  { intros i Hi. rewrite <- (Hid i Hi). change (length ELTORITO_ID) with 30%nat in Hi. unfold m2, m1. by rewrite !stored_out by lia. }
  rewrite gets_bind, V1. cbn [negb Z.eqb]. rewrite (P_bind_some _ _ _ 0 (m2, d2)) by (by rewrite V2).
  cbn [negb Z.eqb]. rewrite gets_bind, V3.
  destruct (cdb_reads pio32 fuel khz heap usb p a M image ltac:(lia) Hf Hcd Himg (mk_op (br_catalogue b) buffer p 1 0) m2 d2)
    as (d3 & E3 & I3); [by left|done|apply R5|cbn; lia|cbn; lia|].
  rewrite (P_bind_some _ _ _ _ _ E3). clear E3. cbn [negb Z.eqb buf_fl count op_lba]. rewrite Z.mul_1_r.
  set (m3 := stored m2 buffer 2048 image (2048 * br_catalogue b)).
  assert (forall i, 0 <= i < 2048 -> m3 (buffer + i) = image (2048 * br_catalogue b + i)) as H3
    by (intros i Hi; unfold m3; rewrite stored_at by lia; f_equal; lia).
  rewrite gets_bind.
  rewrite (catalogue_checked image (d_blocks M) b m3 buffer Hboot H3).
  cbn [negb Z.eqb].
  assert (forall x, 0x400 <= x < 0x500 \/ cd_area m <= x < cd_area m + 24 -> m3 x = m x) as Ho.
  { intros x Hx. unfold m3, m2, m1. rewrite !stored_out by lia. done. }
  assert (get_ebda_seg m3 = get_ebda_seg m) as Eseg by (apply ebda_seg_same; intros x Hx; apply Ho; lia).
  assert (cd_area m3 = cd_area m) as Ecd by (unfold cd_area; by rewrite Eseg).
  rewrite <- Ecd in Hroom.
  edestruct (boot_image_run pio32 fuel khz heap usb p a M image Hkhz Hf Hcd Himg buffer info b Hboot ltac:(unfold in_u; lia)
    cdemu_drive id cdid (mk_op (br_catalogue b) buffer p 1 0)) as (d4 & E4 & I4); [exact I3|reflexivity|exact Hroom|exact H3|].
  destruct (finished_spec p image (d_blocks M) b Himg Hboot ltac:(unfold in_u; lia) cdemu_drive cdid m3 buffer info id Hroom Hem) as (F1 & F2 & F3).
  eexists _, d4. split; [|split; [exact I4|split; [exact F3|split; [exact F1|]]]].
  - rewrite E4. do 2 f_equal. destruct Hem as [->|Hem]; [done|]. rewrite (proj2 (Z.eqb_neq cdemu_drive 0)) by done. by rewrite orb_true_r.
  - unfold emulation in *. case_test; [|done]. destruct F2 as [F2 ->]. split; [done|]. unfold readb, cdemu, ebda. rewrite Eseg.
    apply Ho. right. unfold cd_area. offsets. lia.
Qed.

(** A disc with the image of a 1.44 MB floppy at block 30. *)
Definition demo_disc : memory := fun x =>
  if (2048 * 0x11 <? x) && (x <? 2048 * 0x11 + 0x40) then nth (Z.to_nat (x - (2048 * 0x11 + 1))) ELTORITO_ID 0
  else if x =? 2048 * 0x11 + 0x47 then 20
  else if x =? 2048 * 20 then 1
  else if (2048 * 20 + 0x1e <=? x) && (x <? 2048 * 20 + 0x29) then
    nth (Z.to_nat (x - (2048 * 20 + 0x1e))) [0x55; 0xaa; 0x88; 2; 0; 0; 0; 0; 4; 0; 30] 0
  else if 2048 * 30 <=? x then 7 else 0.
Definition demo_boot : boot_record := mk_boot 20 2 0 4 30.
(** EBDA at 0x9fc00, string constant at 0xf0000. *)
Definition demo_ram : memory := fun x =>
  if x =? 0x40e then 0xc0 else if x =? 0x40f then 0x9f
  else if 0xf0000 <=? x then nth (Z.to_nat (x - 0xf0000)) ELTORITO_ID 0 else 0.
Definition demo_table : drives_s := mk_drives 0 1 [replicate 16 0; replicate 16 0; 0x600 :: replicate 15 0].

Lemma demo_disc_bytes x : in_u 8 (demo_disc x).
Proof.
  assert (forall l i, Forall (in_u 8) l -> in_u 8 (nth i l 0)) as Hn.
  { intros l i Hl. destruct (nth_in_or_default i l 0) as [Hi| ->]; [|unfold in_u; lia].
    apply list_elem_of_In in Hi. by eapply Forall_forall in Hl. }
  unfold demo_disc. repeat case_match; try (apply Hn; repeat constructor); unfold in_u; lia.
Qed.

(** Equalities for the numbers below [n], by evaluation. *)
Lemma all_below n (f g : nat -> Z) : map f (seq 0 n) = map g (seq 0 n) -> forall i, (i < n)%nat -> f i = g i.
Proof.
  intros E i Hi. apply (ext_in_map E). apply in_seq. lia.
Qed.

Lemma cdrom_boot_loads_witness :
  exists m' d', @cdrom_boot _ drive_ports drive_ide false demo_fuel 1000000 {[0x600 := AtaDrive (demo_drive DTYPE_ATAPI 2048)]}
      (fun op _ _ => mret (0, op)) demo_table 0x700 0x6000 0x5000 0x5100 0xf0000 0
      (demo_ram, mk_drive_state (demo_model true) demo_disc (1, 2) (3, 4) (5, 6) (7, 8) 0xb0 2 (DataOut 12 2 5) true 2 77)
    = Some (0, (m', d')) /\ m' 0x7c00 = 7 /\ readb m' (cdemu m' "active") = 1 /\ readw m' (cdemu m' "lchs.spt") = 18.
Proof.
  destruct (cdrom_boot_loads false demo_fuel 1000000 {[0x600 := AtaDrive (demo_drive DTYPE_ATAPI 2048)]} (fun op _ _ => mret (0, op))
    0x600 (demo_drive DTYPE_ATAPI 2048) (demo_model true) demo_disc demo_boot demo_table 0 0x700 0x6000 0x5000 0x5100 0xf0000 demo_ram
    (mk_drive_state (demo_model true) demo_disc (1, 2) (3, 4) (5, 6) (7, 8) 0xb0 2 (DataOut 12 2 5) true 2 77))
    as (m' & d' & E & _ & L & _ & (_ & A & G)).
  - unfold cd_drive. split_and!; done || (cbn; lia).
  - lia.
  - unfold demo_fuel. lia.
  - split; [apply demo_sound|cbn; lia].
  - done.
  - done.
  - exact demo_disc_bytes.
  - done.
  - lia.
  - unfold bootable. split_and!; [|apply (all_below (length ELTORITO_ID))|..]; by vm_compute.
  - split; unfold clear_of; split_and?; vm_compute; ((left; congruence) || (right; congruence)).
  - apply (all_below (length ELTORITO_ID)). by vm_compute.
  - by right.
  - exists m', d'. split; [exact E|]. split; [|split; [exact A|]].
    + change 0x7c00 with (load_segment demo_boot * 16 + 0). rewrite (L 0) by (vm_compute; split; congruence). vm_compute. reflexivity.
    + apply (f_equal snd) in G. exact G.
Defined.
