(* ===== verification/OptionRom.v ===== *)
(** * Option ROMs: [bios/seabios/src/optionroms.c]

    Roms are found, copied, run and registered for the boot menu.  Memory is what the
    processor sees, the windows of roms on PCI functions included.  The code in a rom is
    an argument, [call16big]: it gets an address and registers, may change memory and
    devices, and returns or not.  The start of the BIOS in memory is an argument.  The
    coreboot file system is compiled out: it has no files.  Text is left out. *)

From S2P Require Import Prelude BiosUtil Pmm Bregs Block Boot Pci Ports Output Paravirt Tables.
Local Open Scope Z_scope.
Local Open Scope coremu_scope.

(** ** Layouts and numbers *)

Definition rom_header : layout :=
  [("signature", 2); ("size", 1); ("initVector", 4); ("reserved", 17); ("pcioffset", 2); ("pnpoffset", 2)].
Definition pci_data : layout :=
  [("signature", 4); ("vendor", 2); ("device", 2); ("vitaldata", 2); ("dlen", 2); ("drevision", 1); ("class_lo", 1);
   ("class_hi", 2); ("ilen", 2); ("irevision", 2); ("type", 1); ("indicator", 1); ("reserved", 2)].
Definition pnp_data : layout :=
  [("signature", 4); ("revision", 1); ("len", 1); ("nextoffset", 2); ("reserved_08", 1); ("checksum", 1); ("devid", 4);
   ("manufacturer", 2); ("productname", 2); ("type_lo", 1); ("type_hi", 2); ("dev_flags", 1); ("bcv", 2); ("dv", 2);
   ("bev", 2); ("reserved_1c", 2); ("staticresource", 2)].

Definition OPTION_ROM_SIGNATURE : Z := 0xaa55.
Definition OPTION_ROM_ALIGN : Z := 2048.
Definition OPTION_ROM_INITVECTOR : Z := offsetof rom_header "initVector".
Definition PCI_ROM_SIGNATURE : Z := 0x52494350.
Definition PCIROM_CODETYPE_X86 : Z := 0.
Definition PNP_SIGNATURE : Z := 0x506e5024.
Definition PCI_ROM_ADDRESS_ENABLE : Z := 0x01.
Definition PCI_HEADER_TYPE_NORMAL : Z := 0.
Definition BUILD_ROM_START : Z := 0xc0000.
Definition SEG_BIOS : Z := 0xf000.
Definition OPTIONROM_VENDEV_1 : Z := 0x00000000.
Definition OPTIONROM_MEM_1 : Z := 0x00000000.
Definition OPTIONROM_VENDEV_2 : Z := 0x00000000.
Definition OPTIONROM_MEM_2 : Z := 0x00000000.

(** ** Looking at a rom *)

(** The rom at [rom] has a signature, a size and a zero sum. *)
Definition is_valid_rom (m : memory) (rom : Z) : bool :=
  let size := readb m (rom + offsetof rom_header "size") in
  if negb (readw m (rom + offsetof rom_header "signature") =? OPTION_ROM_SIGNATURE) then false
  else if size =? 0 then false
  else checksum m rom (size * 512) =? 0.

(** The address of a structure, 0 for [NULL]. *)
Definition get_pnp_rom (m : memory) (rom : Z) : Z :=
  let pnp := u32 (rom + readw m (rom + offsetof rom_header "pnpoffset")) in
  if negb (readl m (pnp + offsetof pnp_data "signature") =? PNP_SIGNATURE) then 0 else pnp.

Definition get_pnp_next (m : memory) (rom pnp : Z) : Z :=
  let next := readw m (pnp + offsetof pnp_data "nextoffset") in
  if next =? 0 then 0
  else
    let pnp := u32 (rom + next) in
    if negb (readl m (pnp + offsetof pnp_data "signature") =? PNP_SIGNATURE) then 0 else pnp.

Definition get_pci_rom (m : memory) (rom : Z) : Z :=
  let pci := u32 (rom + readw m (rom + offsetof rom_header "pcioffset")) in
  if negb (readl m (pci + offsetof pci_data "signature") =? PCI_ROM_SIGNATURE) then 0 else pci.

(** The loop of [map_pcirom]: the image for [vendev], 0 when there is none. *)
Fixpoint find_image (fuel : nat) (m : memory) (vendev rom : Z) : option Z :=
  match fuel with
  | O => None
  | S fuel =>
      if negb (readw m (rom + offsetof rom_header "signature") =? OPTION_ROM_SIGNATURE) then Some 0
      else
        let pci := get_pci_rom m rom in
        if pci =? 0 then Some 0
        else
          let vd := u32 (Z.lor (Z.shiftl (readw m (pci + offsetof pci_data "device")) 16) (readw m (pci + offsetof pci_data "vendor"))) in
          if (vd =? vendev) && (readb m (pci + offsetof pci_data "type") =? PCIROM_CODETYPE_X86) then Some rom
          else if negb (Z.land (readb m (pci + offsetof pci_data "indicator")) 0x80 =? 0) then Some 0
          else find_image fuel m vendev (u32 (rom + readw m (pci + offsetof pci_data "ilen") * 512))
  end.

(** ** Registration *)

(** The vectors of a chain of headers. *)
Fixpoint add_bcvs (fuel : nat) (m : memory) (rom pnp : Z) (i : ipl_s) : option ipl_s :=
  match fuel with
  | O => None
  | S fuel =>
      let b := readw m (pnp + offsetof pnp_data "bcv") in
      if (pnp =? 0) || (b =? 0) then Some i
      else
        let i := add_bcv i (u16 (FLATPTR_TO_SEG rom)) b (readw m (pnp + offsetof pnp_data "productname")) in
        add_bcvs fuel m rom (get_pnp_next m rom pnp) i
  end.

(** The vectors of one valid rom. *)
Definition register_rom (fuel : nat) (m : memory) (rom : Z) (i : ipl_s) : option ipl_s :=
  let pnp := get_pnp_rom m rom in
  if pnp =? 0 then Some (add_bcv i (u16 (FLATPTR_TO_SEG rom)) OPTION_ROM_INITVECTOR 0)
  else
    let b := readw m (pnp + offsetof pnp_data "bev") in
    if negb (b =? 0) then Some (add_bev i (u16 (FLATPTR_TO_SEG rom)) b (readw m (pnp + offsetof pnp_data "productname")))
    else add_bcvs fuel m rom pnp i.

(** The roms from [pos] to [RomEnd], in at most [n] steps. *)
Fixpoint register_roms (fuel n : nat) (m : memory) (pos RomEnd : Z) (i : ipl_s) : option ipl_s :=
  match n with
  | O => None
  | S n =>
      if RomEnd <=? pos then Some i
      else if negb (is_valid_rom m pos) then register_roms fuel n m (u32 (pos + OPTION_ROM_ALIGN)) RomEnd i
      else
        let next := u32 (pos + ALIGN (readb m (pos + offsetof rom_header "size") * 512) OPTION_ROM_ALIGN) in
        i ← register_rom fuel m pos i;
        register_roms fuel n m next RomEnd i
  end.

(** ** Copying and running *)

Record rom_state (D : Type) := mk_roms {
  r_mem : memory; r_dev : D; r_cfg : qemu_cfg; RomEnd : Z; IPL : ipl_s; VGAbdf : Z }.
Arguments mk_roms {D}.
Arguments r_mem {D}.
Arguments r_dev {D}.
Arguments r_cfg {D}.
Arguments RomEnd {D}.
Arguments IPL {D}.
Arguments VGAbdf {D}.

Section Roms.
Context {D : Type} `{PciConfig D}.
Context (fuel : nat) (code32flat_start pnp_offset : Z) (qemu_cfg_present : bool).
Context (call16big : Z -> bregs -> memory * D -> option (memory * D)).

Notation state := (rom_state D).
Notation M A := (P state A).

Definition set_mem (s : state) m : state := mk_roms m (r_dev s) (r_cfg s) (RomEnd s) (IPL s) (VGAbdf s).
Definition set_dev (s : state) d : state := mk_roms (r_mem s) d (r_cfg s) (RomEnd s) (IPL s) (VGAbdf s).
Definition set_end (s : state) e : state := mk_roms (r_mem s) (r_dev s) (r_cfg s) e (IPL s) (VGAbdf s).
Definition set_ipl (s : state) i : state := mk_roms (r_mem s) (r_dev s) (r_cfg s) (RomEnd s) i (VGAbdf s).
Definition set_vga (s : state) b : state := mk_roms (r_mem s) (r_dev s) (r_cfg s) (RomEnd s) (IPL s) b.
Definition get {A} (f : state -> A) : M A := fun s => Some (f s, s).
Definition put (f : state -> state) : M unit := fun s => Some (tt, f s).
Definition none {A} : M A := fun _ => None.
Definition get_option {A} (f : state -> option A) : M A := fun s => a ← f s; Some (a, s).
Definition act {A} (f : state -> option (A * state)) : M A := f.

(** The registers a rom is called with. *)
Definition rom_regs (bdf : Z) : bregs :=
  set_di (set_es (set_dx (set_bx (set_ax zero_regs bdf) 0xffff) 0xffff) SEG_BIOS) pnp_offset.

Definition __callrom (rom offset bdf : Z) : M unit := fun s =>
  '(m, d) ← call16big (Z.lor (Z.shiftl (u16 (FLATPTR_TO_SEG rom)) 16) (u16 offset)) (rom_regs bdf) (r_mem s, r_dev s);
  Some (tt, set_dev (set_mem s m) d).
Definition callrom (rom bdf : Z) : M unit := __callrom rom OPTION_ROM_INITVECTOR bdf.
Definition call_bcv (seg ip : Z) : M unit := __callrom (MAKE_FLATPTR seg 0) ip 0.

Definition max_rom : Z := if BUILD_BIOS_ADDR <? code32flat_start then BUILD_BIOS_ADDR else code32flat_start.

(** The new place of the rom, 0 when it does not fit. *)
Definition copy_rom (rom : Z) : M Z :=
  size ← get (fun s => readb (r_mem s) (rom + offsetof rom_header "size"));
  let romsize := size * 512 in
  end_ ← get RomEnd;
  if max_rom <? u32 (end_ + romsize) then mret 0
  else
    act (fun s => m ← iomemcpy (S (Z.to_nat (romsize / 2048))) (r_mem s) end_ rom romsize; Some (tt, set_mem s m));;
    mret end_.

Definition init_optionrom (rom bdf : Z) (isvga : bool) : M Z :=
  valid ← get (fun s => is_valid_rom (r_mem s) rom);
  if negb valid then mret (-1)
  else
    pnp ← get (fun s => get_pnp_rom (r_mem s) rom);
    (if isvga || negb (pnp =? 0) then callrom rom bdf else mret tt);;
    put (fun s => set_end s (u32 (rom + ALIGN (readb (r_mem s) (rom + offsetof rom_header "size") * 512) OPTION_ROM_ALIGN)));;
    mret 0.

(** [CONFIG_COREBOOT] is 0. *)
Definition cbfs_copy_optionrom (dst maxlen vendev : Z) : Z := -1.

Definition lookup_hardcode (vendev : Z) : M Z :=
  let swapped v := u32 (Z.lor (Z.shiftr v 16) (Z.shiftl (Z.land v 0xffff) 16)) in
  if negb (OPTIONROM_VENDEV_1 =? 0) && (swapped OPTIONROM_VENDEV_1 =? vendev) then copy_rom OPTIONROM_MEM_1
  else if negb (OPTIONROM_VENDEV_2 =? 0) && (swapped OPTIONROM_VENDEV_2 =? vendev) then copy_rom OPTIONROM_MEM_2
  else
    end_ ← get RomEnd;
    mret (if cbfs_copy_optionrom end_ (u32 (max_rom - end_)) vendev <? 0 then 0 else end_).

(** The loop of [run_qemu_roms], from the answer to a request for a file on. *)
Fixpoint qemu_loop (n : nat) (prefix : list Z) (isvga : bool) (found : bool) (entry : QemuCfgFile) : M unit :=
  match n with
  | O => none
  | S n =>
      if negb found then mret tt
      else
        (if bool_decide (take (length prefix) (f_name entry) = prefix) then
           dlen ← act (fun s => let '(dlen, m, c) := qemu_cfg_read_file qemu_cfg_present (r_cfg s) entry (r_mem s) (RomEnd s) (u32 (max_rom - RomEnd s)) in
                            Some (dlen, mk_roms m (r_dev s) c (RomEnd s) (IPL s) (VGAbdf s)));
           if 0 <? s32 dlen then e ← get RomEnd; _ ← init_optionrom e 0 isvga; mret tt else mret tt
         else mret tt);;
        '(found, entry) ← act (fun s => let '(found, entry, c) := qemu_cfg_next_file qemu_cfg_present (r_cfg s) entry in
                                    Some ((found, entry), mk_roms (r_mem s) (r_dev s) c (RomEnd s) (IPL s) (VGAbdf s)));
        qemu_loop n prefix isvga found entry
  end.

Definition run_qemu_roms (prefix : list Z) (isvga : bool) : M unit :=
  '(found, entry) ← act (fun s => let '(found, entry, c) := qemu_cfg_first_file qemu_cfg_present (r_cfg s) in
                              Some ((found, entry), mk_roms (r_mem s) (r_dev s) c (RomEnd s) (IPL s) (VGAbdf s)));
  qemu_loop fuel prefix isvga found entry.

(** ** Roms on PCI functions *)

Definition config (f : D -> D) : M unit := put (fun s => set_dev s (f (r_dev s))).

Definition map_pcirom (bdf vendev : Z) : M Z :=
  htype ← get (fun s => pci_config_readb (r_dev s) bdf PCI_HEADER_TYPE);
  if negb (Z.land htype 0x7f =? PCI_HEADER_TYPE_NORMAL) then mret 0
  else
    orig ← get (fun s => pci_config_readl (r_dev s) bdf PCI_ROM_ADDRESS);
    config (fun d => pci_config_writel d bdf PCI_ROM_ADDRESS (Z.lnot PCI_ROM_ADDRESS_ENABLE));;
    sz ← get (fun s => pci_config_readl (r_dev s) bdf PCI_ROM_ADDRESS);
    let orig := Z.ldiff orig PCI_ROM_ADDRESS_ENABLE in
    let restore := config (fun d => pci_config_writel d bdf PCI_ROM_ADDRESS orig) in
    if (sz =? 0) || (sz =? 0xffffffff) then restore;; mret 0
    else if (orig =? sz) || (u32 (orig + 4 * 1024 * 1024) <? 20 * 1024 * 1024) then restore;; mret 0
    else
      config (fun d => pci_config_writel d bdf PCI_ROM_ADDRESS (Z.lor orig PCI_ROM_ADDRESS_ENABLE));;
      rom ← get_option (fun s => find_image fuel (r_mem s) vendev orig);
      if rom =? 0 then restore;; mret 0
      else
        rom ← copy_rom rom;
        restore;;
        mret rom.

Definition init_pcirom (bdf : Z) (isvga : bool) : M Z :=
  vendev ← get (fun s => pci_config_readl (r_dev s) bdf PCI_VENDOR_ID);
  rom ← lookup_hardcode vendev;
  rom ← (if rom =? 0 then map_pcirom bdf vendev else mret rom);
  if rom =? 0 then mret (-1) else init_optionrom rom bdf isvga.

(** ** Set-up *)

(** [foreachpci] with a body that works on the state. *)
Fixpoint foreachpci_run (n : nat) (body : Z -> M unit) (bdf max : Z) : M unit :=
  match n with
  | O => none
  | S n =>
      '(b, max) ← get_option (fun s => pci_next (r_dev s) bdf max);
      if b <? 0 then mret tt else body b;; foreachpci_run n body (b + 1) max
  end.

Definition deploy_pcirom (bdf : Z) : M unit :=
  v ← get (fun s => pci_config_readw (r_dev s) bdf PCI_CLASS_DEVICE);
  if (v =? 0x0000) || (v =? 0xffff) || (v =? PCI_CLASS_DISPLAY_VGA) || (v =? PCI_CLASS_STORAGE_IDE) then mret tt
  else _ ← init_pcirom bdf false; mret tt.

Definition optionrom_setup : M unit :=
  post_vga ← get RomEnd;
  foreachpci_run (Z.to_nat 0x10001) deploy_pcirom 0 0x0100;;
  run_qemu_roms (codes "genroms/") false;;
  i ← get_option (fun s => register_roms fuel fuel (r_mem s) post_vga (RomEnd s) (IPL s));
  put (fun s => set_ipl s i).

(** [int10] is the interrupt the VGA rom has installed. *)
Definition vga_setup (int10 : bregs -> memory * D -> option (memory * D)) : M unit :=
  put (fun s => set_end (set_vga s (-1)) BUILD_ROM_START);;
  bdf ← get_option (fun s => pci_find_vga fuel (r_dev s) 0 0x0100);
  put (fun s => set_vga s bdf);;
  (if 0 <=? bdf then _ ← init_pcirom bdf true; mret tt else mret tt);;
  run_qemu_roms (codes "vgaroms/") true;;
  end_ ← get RomEnd;
  if end_ =? BUILD_ROM_START then put (fun s => set_end s (end_ + OPTION_ROM_ALIGN))
  else act (fun s => '(m, d) ← int10 (set_ax zero_regs 0x0003) (r_mem s, r_dev s); Some (tt, set_dev (set_mem s m) d)).
End Roms.

(** ** What a rom says *)

(** A rom offers nothing but its start, a way to boot, or vectors that hook disks, each
    with a name. *)
Inductive rom_kind := Legacy | Bootable (b name : Z) | Connections (l : list (Z * Z)).
Record rom_desc := mk_desc { rd_size : Z; rd_kind : rom_kind }.

Definition image_at (m : memory) (a size : Z) : Prop :=
  readw m a = OPTION_ROM_SIGNATURE /\ m (a + 2) = size /\ 1 <= size < 2 ^ 8 /\
  bytesum m a (Z.to_nat (size * 512)) mod 2 ^ 8 = 0.

Definition signed (m : memory) (p : Z) : Prop := readl m p = PNP_SIGNATURE.
#[export] Instance signed_dec m p : Decision (signed m p) := Z.eq_dec _ _.

(** The headers from offset [off] on hold the vectors [l]. *)
Fixpoint linked_headers (m : memory) (rom off : Z) (l : list (Z * Z)) : Prop :=
  match l with
  | [] => off = 0 \/ ~ signed m (rom + off) \/ readw m (rom + off + offsetof pnp_data "bcv") = 0
  | (b, name) :: l =>
      off <> 0 /\ signed m (rom + off) /\ b <> 0 /\ readw m (rom + off + offsetof pnp_data "bcv") = b /\
      readw m (rom + off + offsetof pnp_data "productname") = name /\
      linked_headers m rom (readw m (rom + off + offsetof pnp_data "nextoffset")) l
  end.

Definition kind_at (m : memory) (rom : Z) (k : rom_kind) : Prop :=
  let off := readw m (rom + offsetof rom_header "pnpoffset") in
  match k with
  | Legacy => ~ signed m (rom + off)
  | Bootable b name =>
      signed m (rom + off) /\ b <> 0 /\ readw m (rom + off + offsetof pnp_data "bev") = b /\
      readw m (rom + off + offsetof pnp_data "productname") = name
  | Connections l => signed m (rom + off) /\ readw m (rom + off + offsetof pnp_data "bev") = 0 /\ linked_headers m rom off l
  end.

(** The next place a rom may start at. *)
Definition past (size : Z) : Z := 2048 * ((size + 3) / 4).

(** The roms from [pos] to [e]: one starts behind the other or behind steps of 2 KiB at
    which none starts. *)
Inductive area (m : memory) (e : Z) : Z -> list (Z * rom_desc) -> Prop :=
| area_end pos : e <= pos -> area m e pos []
| area_gap pos l : pos < e -> (forall size, ~ image_at m pos size) -> area m e (pos + 2048) l -> area m e pos l
| area_rom pos r l : pos < e -> image_at m pos (rd_size r) -> kind_at m pos (rd_kind r) ->
    area m e (pos + past (rd_size r)) l -> area m e pos ((pos, r) :: l).

(** The lines of the boot tables for a rom. *)
Definition bcv_entry (rom : Z) (v : Z * Z) : ipl_entry_s :=
  mk_entry BCV_TYPE_EXTERNAL 0 (Z.lor (Z.shiftl (rom / 16) 16) v.1) (rom_text (rom / 16) v.2 "Legacy option rom").
Definition rom_bcvs (x : Z * rom_desc) : list ipl_entry_s :=
  match rd_kind x.2 with
  | Legacy => [bcv_entry x.1 (OPTION_ROM_INITVECTOR, 0)]
  | Bootable _ _ => []
  | Connections l => bcv_entry x.1 <$> l
  end.
Definition rom_bevs (x : Z * rom_desc) : list ipl_entry_s :=
  match rd_kind x.2 with
  | Bootable b name => [mk_entry IPL_TYPE_BEV 0 (Z.lor (Z.shiftl (x.1 / 16) 16) b) (rom_text (x.1 / 16) name "Unknown")]
  | _ => []
  end.

(** The tables hold eight lines. *)
Definition add_bevs (i : ipl_s) (l : list ipl_entry_s) : ipl_s := set_bev i (take MAX_ENTRIES (bev i ++ l)).
Definition add_connections (i : ipl_s) (l : list ipl_entry_s) : ipl_s := set_bcv i (take MAX_ENTRIES (bcv i ++ l)).
Definition tables_fit (i : ipl_s) : Prop := (length (bev i) <= MAX_ENTRIES)%nat /\ (length (bcv i) <= MAX_ENTRIES)%nat.

(** ** Registration registers what the roms say *)

Lemma valid_image m a : bytes m -> is_valid_rom m a = true <-> image_at m a (m (a + 2)).
Proof.
  intros Hm. pose proof (Hm (a + 2)) as Hr. unfold is_valid_rom, image_at, readb. change (offsetof rom_header "size") with 2.
  change (offsetof rom_header "signature") with 0. rewrite Z.add_0_r. unfold checksum. rewrite checksum_from_sum by (unfold in_u; lia).
  rewrite Z.add_0_l. unfold wrap, in_u in *. repeat case_test; split; try done; intros; lia.
Qed.

Lemma past_align size : 0 <= size < 2 ^ 8 -> ALIGN (size * 512) OPTION_ROM_ALIGN = past size.
Proof.
  intros Hs. unfold OPTION_ROM_ALIGN. change 2048 with (2 ^ 11) at 1. rewrite ALIGN_pow2 by lia. unfold past. change (2 ^ 11) with 2048.
  Z.to_euclidean_division_equations. lia.
Qed.

Lemma seg_of rom : 0 <= rom < 2 ^ 20 -> u16 (FLATPTR_TO_SEG rom) = rom / 16.
Proof.
  intros Hr. unfold FLATPTR_TO_SEG. rewrite Z.shiftr_div_pow2 by lia. change (2 ^ 4) with 16. apply wrap_small. unfold in_u.
  Z.to_euclidean_division_equations. lia.
Qed.

Lemma take_snoc_full {A} (l : list A) x n : take n (l ++ [x]) = if bool_decide (n <= length l)%nat then take n l else l ++ [x].
Proof.
  case_bool_decide.
  - by rewrite take_app_le.
  - rewrite take_ge; [done|]. rewrite length_app. cbn. lia.
Qed.

Lemma add_bcv_take i rom ip name : tables_fit i -> 0 <= rom < 2 ^ 20 ->
  add_bcv i (u16 (FLATPTR_TO_SEG rom)) ip name = add_connections i [bcv_entry rom (ip, name)].
Proof.
  intros [_ Hf] Hr. unfold add_bcv, add_connections. rewrite seg_of, take_snoc_full by done. case_bool_decide; [|done].
  rewrite take_ge by done. by destruct i.
Qed.

Lemma add_bev_take i rom b name : tables_fit i -> 0 <= rom < 2 ^ 20 ->
  add_bev i (u16 (FLATPTR_TO_SEG rom)) b name = add_bevs i (rom_bevs (rom, mk_desc 0 (Bootable b name))).
Proof.
  intros [Hf _] Hr. unfold add_bev, add_bevs. cbn [rom_bevs rd_kind fst snd]. rewrite seg_of, take_snoc_full by done. case_bool_decide; [|done].
  rewrite take_ge by done. by destruct i.
Qed.

Lemma add_connections_app i l1 l2 : add_connections (add_connections i l1) l2 = add_connections i (l1 ++ l2).
Proof.
  unfold add_connections. destruct i as [b c o f]. unfold set_bcv. cbn [bev bcv bootorder checkfloppysig]. f_equal.
  rewrite (assoc_L app). destruct (Nat.le_gt_cases MAX_ENTRIES (length (c ++ l1))).
  - rewrite !(take_app_le (c ++ l1)), take_app_le by (rewrite ?length_take; lia). by rewrite take_take, Nat.min_id.
  - by rewrite (take_ge (c ++ l1)) by lia.
Qed.

Lemma add_bevs_app i l1 l2 : add_bevs (add_bevs i l1) l2 = add_bevs i (l1 ++ l2).
Proof.
  unfold add_bevs. destruct i as [b c o f]. unfold set_bev. cbn [bev bcv bootorder checkfloppysig]. f_equal.
  rewrite (assoc_L app). destruct (Nat.le_gt_cases MAX_ENTRIES (length (b ++ l1))).
  - rewrite !(take_app_le (b ++ l1)), take_app_le by (rewrite ?length_take; lia). by rewrite take_take, Nat.min_id.
  - by rewrite (take_ge (b ++ l1)) by lia.
Qed.

Lemma tables_fit_bcvs i l : tables_fit i -> tables_fit (add_connections i l).
Proof. intros [H1 H2]. split; [done|]. unfold add_connections, set_bcv. cbn [bcv]. rewrite length_take. lia. Qed.

Lemma tables_fit_bevs i l : tables_fit i -> tables_fit (add_bevs i l).
Proof. intros [H1 H2]. split; [|done]. unfold add_bevs, set_bev. cbn [bev]. rewrite length_take. lia. Qed.

Lemma nothing_added i : tables_fit i -> add_connections i [] = i /\ add_bevs i [] = i.
Proof.
  intros [H1 H2]. unfold add_connections, add_bevs, set_bcv, set_bev. rewrite !app_nil_r, !take_ge by done. by destruct i.
Qed.

Section Register.
Context (m : memory) (Hm : bytes m).

Lemma header_at rom off : 0 <= rom < 2 ^ 20 -> in_u 16 off -> off <> 0 ->
  u32 (rom + off) = rom + off /\ rom + off <> 0.
Proof using. intros Hr Ho Hn. unfold in_u in *. split; [|lia]. apply wrap_small. unfold in_u. lia. Qed.

Lemma offset_range a : in_u 16 (readw m a).
Proof using Hm. by apply readw_range. Qed.

(** The header at an offset, as the code finds it. *)
Lemma pnp_found rom off : 0 <= rom < 2 ^ 20 -> in_u 16 off ->
  (if negb (readl m (u32 (rom + off) + offsetof pnp_data "signature") =? PNP_SIGNATURE) then 0 else u32 (rom + off))
  = if decide (signed m (rom + off)) then rom + off else 0.
Proof using.
  intros Hr Ho. change (offsetof pnp_data "signature") with 0. rewrite Z.add_0_r.
  rewrite (wrap_small 32) by (unfold in_u in *; lia). unfold signed. case_decide as Hs; [by rewrite Hs|].
  by rewrite (proj2 (Z.eqb_neq _ _) Hs).
Qed.

Lemma next_header rom off : 0 <= rom < 2 ^ 20 ->
  let next := readw m (rom + off + offsetof pnp_data "nextoffset") in
  get_pnp_next m rom (rom + off) = if decide (next = 0) then 0 else if decide (signed m (rom + next)) then rom + next else 0.
Proof using Hm.
  intros Hr. cbv zeta. unfold get_pnp_next. case_test; case_decide; try done. by rewrite pnp_found by (done || apply offset_range).
Qed.

(** The chain from a header on; [p] is the pointer the code holds. *)
Lemma add_bcvs_chain fuel rom off p l i :
  0 <= rom < 2 ^ 20 -> in_u 16 off -> tables_fit i -> linked_headers m rom off l -> (length l < fuel)%nat ->
  (p = rom + off /\ off <> 0 /\ signed m p \/ p = 0 /\ (off = 0 \/ ~ signed m (rom + off))) ->
  add_bcvs fuel m rom p i = Some (add_connections i (bcv_entry rom <$> l)).
Proof using Hm.
  intros Hr. revert off p l i. induction fuel as [|fuel IH]; intros off p l i Ho Hfit Hl Hn Hp; [lia|]. cbn [add_bcvs].
  destruct l as [|[b name] l]; cbn [linked_headers] in Hl.
  - cbn [fmap list_fmap]. rewrite (proj1 (nothing_added i Hfit)).
    destruct Hp as [(-> & Hz & Hs)|(-> & _)]; [|done]. destruct Hl as [?|[?|E]]; [done|done|]. by rewrite E, orb_true_r.
  - destruct Hl as (Hz & Hs & Hb & Eb & En & Hl). destruct Hp as [(-> & _)|(-> & [?|?])]; [|done|done].
    assert (rom + off <> 0) as Hz2 by (unfold in_u in Ho; lia).
    rewrite Eb, En, (proj2 (Z.eqb_neq b 0)), (proj2 (Z.eqb_neq (rom + off) 0)) by done. cbn [orb].
    rewrite add_bcv_take, next_header by done.
    rewrite (IH (readw m (rom + off + offsetof pnp_data "nextoffset")) _ l).
    + by rewrite add_connections_app.
    + apply offset_range.
    + by apply tables_fit_bcvs.
    + done.
    + cbn in Hn. lia.
    + repeat case_decide; [right|left|right]; tauto.
Qed.

Definition chain_length (k : rom_kind) : nat := match k with Connections l => length l | _ => O end.

(** [i] with the lines of the roms in [l]. *)
Definition registered (i : ipl_s) (l : list (Z * rom_desc)) : ipl_s :=
  add_bevs (add_connections i (l ≫= rom_bcvs)) (l ≫= rom_bevs).

Lemma registered_fit i l : tables_fit i -> tables_fit (registered i l).
Proof using. intros. by apply tables_fit_bevs, tables_fit_bcvs. Qed.

Lemma registered_cons i x l : registered (registered i [x]) l = registered i (x :: l).
Proof using.
  unfold registered. cbn [mbind list_bind]. rewrite !app_nil_r.
  assert (forall j l1 l2, add_connections (add_bevs j l1) l2 = add_bevs (add_connections j l2) l1) as C by done.
  by rewrite C, add_connections_app, add_bevs_app.
Qed.

Lemma unsigned_start rom : readw m rom = OPTION_ROM_SIGNATURE -> ~ signed m rom.
Proof using Hm.
  intros E Hs. unfold signed in Hs. rewrite readl_sum, E in Hs by done. unfold PNP_SIGNATURE, OPTION_ROM_SIGNATURE in Hs. lia.
Qed.

Lemma rom_registered fuel rom r i :
  0 <= rom < 2 ^ 20 -> tables_fit i -> image_at m rom (rd_size r) -> kind_at m rom (rd_kind r) ->
  (chain_length (rd_kind r) < fuel)%nat -> register_rom fuel m rom i = Some (registered i [(rom, r)]).
Proof using Hm.
  intros Hr Hfit (Hsig & _) Hk Hn. unfold register_rom, registered. cbn [mbind list_bind]. rewrite !app_nil_r.
  unfold get_pnp_rom. rewrite pnp_found by (done || apply offset_range). unfold rom_bcvs, rom_bevs. cbn [fst snd].
  unfold kind_at in Hk. set (off := readw m (rom + offsetof rom_header "pnpoffset")) in *.
  destruct (rd_kind r) as [|b name|l]; cbn [chain_length] in Hn.
  - rewrite decide_False by done. cbn [Z.eqb]. rewrite add_bcv_take by done. f_equal. symmetry. apply nothing_added. by apply tables_fit_bcvs.
  - destruct Hk as (Hs & Hb & Eb & En). rewrite decide_True by done. pose proof (offset_range (rom + offsetof rom_header "pnpoffset")) as Ho.
    fold off in Ho. unfold in_u in Ho.
    assert (off <> 0) by (intros E; rewrite E, Z.add_0_r in Hs; by apply (unsigned_start rom Hsig) in Hs).
    rewrite (proj2 (Z.eqb_neq (rom + off) 0)), Eb, En, (proj2 (Z.eqb_neq b 0)) by (done || lia). cbn [negb].
    rewrite add_bev_take by done. by rewrite (proj1 (nothing_added i Hfit)).
  - destruct Hk as (Hs & Eb & Hl). rewrite decide_True by done. pose proof (offset_range (rom + offsetof rom_header "pnpoffset")) as Ho.
    fold off in Ho. assert (off <> 0) by (intros E; rewrite E, Z.add_0_r in Hs; by apply (unsigned_start rom Hsig) in Hs).
    rewrite (proj2 (Z.eqb_neq (rom + off) 0)) by (unfold in_u in Ho; lia). rewrite Eb. cbn [negb Z.eqb].
    rewrite (add_bcvs_chain fuel rom off _ l i) by (done || by left). f_equal. symmetry. apply nothing_added. by apply tables_fit_bcvs.
Qed.
End Register.

(** C22.  The boot tables gain, for every rom between the end of the VGA rom and the end of the
    last rom and in the order of their addresses, the lines that its headers name: its
    start when it has no plug and play header, its boot entry when it has one, and
    otherwise the vectors of its chain of headers; lines beyond the eighth are left out,
    and bytes between roms do not matter. *)
Theorem optionroms_registered fuel n m pos e l i :
  bytes m -> 0 <= pos -> e <= 2 ^ 20 -> tables_fit i -> area m e pos l ->
  Forall (fun x => chain_length (rd_kind x.2) < fuel)%nat l -> Z.max 0 ((e - pos + 2047) / 2048) < Z.of_nat n ->
  exists i', register_roms fuel n m pos e i = Some i' /\
    bcv i' = take MAX_ENTRIES (bcv i ++ (l ≫= rom_bcvs)) /\ bev i' = take MAX_ENTRIES (bev i ++ (l ≫= rom_bevs)).
Proof.
  intros Hm Hpos He Hfit Ha Hl Hn. exists (registered i l). split; [|done].
  revert i n Hfit Hn. induction Ha as [pos Hend|pos l Hlt Hno Ha IH|pos r l Hlt Himg Hk Ha IH]; intros i n Hfit Hn;
    (destruct n as [|n]; [lia|]); cbn [register_roms].
  - rewrite (proj2 (Z.leb_le _ _)) by done. f_equal. unfold registered. cbn.
    rewrite (proj1 (nothing_added i Hfit)). symmetry. by apply nothing_added.
  - rewrite (proj2 (Z.leb_gt _ _)) by done. destruct (is_valid_rom m pos) eqn:Ev; [apply valid_image in Ev; [by apply Hno in Ev|done]|].
    cbn [negb]. unfold OPTION_ROM_ALIGN. rewrite wrap_small by (unfold in_u; lia).
    apply IH; try done; [lia|]. clear - Hlt Hn. Z.to_euclidean_division_equations. lia.
  - rewrite (proj2 (Z.leb_gt _ _)) by done.
    rewrite (proj2 (valid_image m pos Hm)) by (destruct Himg as (I1 & I2 & I3); by rewrite I2). cbn [negb].
    unfold readb. change (offsetof rom_header "size") with 2. rewrite (proj1 (proj2 Himg)).
    pose proof (proj1 (proj2 (proj2 Himg))) as Hs. rewrite past_align by lia.
    apply Forall_cons in Hl as [Hc Hl]. cbn [snd] in Hc.
    rewrite (rom_registered m Hm fuel pos r) by (done || lia). cbn [mbind option_bind].
    assert (2048 <= past (rd_size r) <= 2 ^ 17) as Hp by (unfold past; Z.to_euclidean_division_equations; lia).
    rewrite wrap_small by (unfold in_u; lia). rewrite <- (registered_cons i (pos, r) l). apply IH; try done; [lia|by apply registered_fit|].
    clear - Hp Hlt Hn.    Z.to_euclidean_division_equations. lia.
Qed.

(** ** Roms of PCI functions *)

(** An image in the window of a function: whose it is, for which processor, whether it is
    the last, and its length. *)
Record pci_image := mk_image { im_id : Z; im_type : Z; im_last : bool; im_len : Z }.

Definition data_at (m : memory) (rom : Z) : Z := u32 (rom + readw m (rom + offsetof rom_header "pcioffset")).
Definition starts_image (m : memory) (rom : Z) : Prop :=
  readw m rom = OPTION_ROM_SIGNATURE /\ readl m (data_at m rom) = PCI_ROM_SIGNATURE /\ data_at m rom <> 0.
Definition pci_image_at (m : memory) (rom : Z) (im : pci_image) : Prop :=
  let p := data_at m rom in
  starts_image m rom /\
  readw m (p + offsetof pci_data "device") * 2 ^ 16 + readw m (p + offsetof pci_data "vendor") = im_id im /\
  m (p + offsetof pci_data "type") = im_type im /\ Z.testbit (m (p + offsetof pci_data "indicator")) 7 = im_last im /\
  readw m (p + offsetof pci_data "ilen") * 512 = im_len im.

(** The images from [rom] on, up to something that is not one. *)
Fixpoint image_chain (m : memory) (rom : Z) (l : list pci_image) : Prop :=
  match l with
  | [] => ~ starts_image m rom
  | im :: l => pci_image_at m rom im /\ image_chain m (u32 (rom + im_len im)) l
  end.

(** The first image for the function and this processor, not looking behind the last. *)
Fixpoint pick (vendev rom : Z) (l : list pci_image) : Z :=
  match l with
  | [] => 0
  | im :: l =>
      if (im_id im =? vendev) && (im_type im =? PCIROM_CODETYPE_X86) then rom
      else if im_last im then 0 else pick vendev (u32 (rom + im_len im)) l
  end.

Lemma bit7_land x : negb (Z.land x 0x80 =? 0) = Z.testbit x 7.
Proof.
  change 0x80 with (2 ^ 7). destruct (Z.testbit x 7) eqn:E.
  - rewrite (proj2 (Z.eqb_neq _ _)); [done|]. intros Hz. apply (f_equal (fun y => Z.testbit y 7)) in Hz.
    rewrite Z.land_spec, E, Z.pow2_bits_true, Z.bits_0 in Hz by lia. done.
  - rewrite (proj2 (Z.eqb_eq _ _)); [done|]. apply Z.bits_inj'. intros i Hi. rewrite Z.land_spec, Z.bits_0, Z.pow2_bits_eqb by lia.
    destruct (Z.eqb_spec 7 i) as [<-|]; [by rewrite E|by rewrite andb_false_r].
Qed.

Lemma image_id m p id : bytes m ->
  readw m (p + offsetof pci_data "device") * 2 ^ 16 + readw m (p + offsetof pci_data "vendor") = id ->
  u32 (Z.lor (Z.shiftl (readw m (p + offsetof pci_data "device")) 16) (readw m (p + offsetof pci_data "vendor"))) = id.
Proof.
  intros Hm <-. rewrite Z.lor_comm, lor_shiftl by (lia || by apply readw_range). rewrite Z.add_comm. apply wrap_small.
  pose proof (readw_range m (p + offsetof pci_data "device") Hm). pose proof (readw_range m (p + offsetof pci_data "vendor") Hm).
  unfold in_u in *. lia.
Qed.

Lemma find_image_picks m vendev rom l fuel : bytes m -> (length l < fuel)%nat -> image_chain m rom l ->
  find_image fuel m vendev rom = Some (pick vendev rom l).
Proof.
  intros Hm. revert fuel rom. induction l as [|im l IH]; intros fuel rom Hf Hl; (destruct fuel as [|fuel]; [cbn in Hf; lia|]);
    cbn [find_image image_chain pick] in *; change (offsetof rom_header "signature") with 0; rewrite Z.add_0_r;
    unfold get_pci_rom; change (offsetof pci_data "signature") with 0; rewrite Z.add_0_r; fold (data_at m rom).
  - destruct (Z.eqb_spec (readw m rom) OPTION_ROM_SIGNATURE); [|done]. cbn [negb].
    destruct (Z.eqb_spec (readl m (data_at m rom)) PCI_ROM_SIGNATURE); cbn [negb]; [|done].
    destruct (Z.eqb_spec (data_at m rom) 0); [done|]. by destruct Hl.
  - destruct Hl as [((-> & -> & Hp) & Hid & Ht & Hlast & Hlen) Hl]. cbn [Z.eqb Pos.eqb negb]. rewrite !Z.eqb_refl. cbn [negb].
    rewrite (proj2 (Z.eqb_neq _ _) Hp), bit7_land. unfold readb. rewrite Ht, Hlast, Hlen.
    assert (u32 (Z.lor (Z.shiftl (readw m (data_at m rom + offsetof pci_data "device")) 16) (readw m (data_at m rom + offsetof pci_data "vendor"))) = im_id im) as ->.
    { by apply image_id. }
    case_test; [done|]. case_test; [done|]. apply IH; [cbn in Hf; lia|done].
Qed.

Section Deploy.
Context {D : Type} `{PciConfig D} (fuel : nat) (code32flat_start : Z).
Notation state := (rom_state D).
Notation top := (max_rom code32flat_start).
Notation copied_rom := (@copy_rom D code32flat_start).
Notation mapped_rom := (map_pcirom fuel code32flat_start).

Lemma get_bind {A B} (f : state -> A) (k : A -> P state B) s : (get f ≫= k) s = k (f s) s.
Proof using. done. Qed.

Lemma put_bind {B} f (k : unit -> P state B) s : (put f ≫= k) s = k tt (f s).
Proof using. done. Qed.

Lemma config_bind {B} f (k : unit -> P state B) s : (config f ≫= k) s = k tt (set_dev s (f (r_dev s))).
Proof using. done. Qed.

Definition rom_bytes (m : memory) (rom : Z) : Z := m (rom + 2) * 512.

(** Nothing is copied when the rom does not fit. *)
Lemma copy_rom_full s rom : top < u32 (RomEnd s + rom_bytes (r_mem s) rom) -> copied_rom rom s = Some (0, s).
Proof using.
  intros Hfit. unfold copy_rom. rewrite !get_bind. unfold readb. change (offsetof rom_header "size") with 2.
  fold (rom_bytes (r_mem s) rom). by rewrite (proj2 (Z.ltb_lt _ _)).
Qed.

Lemma copy_rom_fits s rom : bytes (r_mem s) -> u32 (RomEnd s + rom_bytes (r_mem s) rom) <= top ->
  rom = RomEnd s \/ RomEnd s + 4 <= rom \/ rom + rom_bytes (r_mem s) rom <= RomEnd s ->
  exists m, copied_rom rom s = Some (RomEnd s, set_mem s m) /\
    forall x, m x = copied (r_mem s) (RomEnd s) rom (rom_bytes (r_mem s) rom) x.
Proof using.
  intros Hm Hfit Hap. unfold copy_rom. rewrite !get_bind. unfold readb. change (offsetof rom_header "size") with 2.
  fold (rom_bytes (r_mem s) rom). rewrite (proj2 (Z.ltb_ge _ _)) by done.
  pose proof (Hm (rom + 2)) as Hr. unfold in_u in Hr.
  destruct (iomemcpy_spec (S (Z.to_nat (rom_bytes (r_mem s) rom / 2048))) (r_mem s) (RomEnd s) rom (rom_bytes (r_mem s) rom))
    as (m & E & Hc); [done|unfold rom_bytes; lia|unfold rom_bytes|done|unfold rom_bytes; Z.to_euclidean_division_equations; lia|].
  { Z.to_euclidean_division_equations. lia. }
  exists m. split; [|done]. unfold mbind, P_bind, act. by rewrite E.
Qed.

(** The configuration register of the rom through [map_pcirom]: sized, and at the end the
    address it had, not decoded. *)
Definition rom_base (d : D) (bdf : Z) : Z := Z.ldiff (pci_config_readl d bdf PCI_ROM_ADDRESS) PCI_ROM_ADDRESS_ENABLE.
Definition sized (d : D) (bdf : Z) : D := pci_config_writel d bdf PCI_ROM_ADDRESS (Z.lnot PCI_ROM_ADDRESS_ENABLE).
Definition opened (d : D) (bdf : Z) : D :=
  pci_config_writel (sized d bdf) bdf PCI_ROM_ADDRESS (Z.lor (rom_base d bdf) PCI_ROM_ADDRESS_ENABLE).
Definition closed (d : D) (bdf : Z) : D := pci_config_writel (opened d bdf) bdf PCI_ROM_ADDRESS (rom_base d bdf).

(** The function has a rom at an address that is used. *)
Definition has_rom (d : D) (bdf : Z) : Prop :=
  let sz := pci_config_readl (sized d bdf) bdf PCI_ROM_ADDRESS in
  Z.land (pci_config_readb d bdf PCI_HEADER_TYPE) 0x7f = PCI_HEADER_TYPE_NORMAL /\ sz <> 0 /\ sz <> 0xffffffff /\
  rom_base d bdf <> sz /\ 20 * 1024 * 1024 <= u32 (rom_base d bdf + 4 * 1024 * 1024).

Lemma map_pcirom_spec s bdf vendev l : bytes (r_mem s) -> has_rom (r_dev s) bdf ->
  image_chain (r_mem s) (rom_base (r_dev s) bdf) l -> (length l < fuel)%nat ->
  let src := pick vendev (rom_base (r_dev s) bdf) l in
  let n := rom_bytes (r_mem s) src in
  (src = 0 \/ top < u32 (RomEnd s + n) ->
   mapped_rom bdf vendev s = Some (0, set_dev s (closed (r_dev s) bdf))) /\
  (src <> 0 -> u32 (RomEnd s + n) <= top -> src = RomEnd s \/ RomEnd s + 4 <= src \/ src + n <= RomEnd s ->
   exists m, mapped_rom bdf vendev s = Some (RomEnd s, set_dev (set_mem s m) (closed (r_dev s) bdf)) /\
     forall x, m x = copied (r_mem s) (RomEnd s) src n x).
Proof using.
  intros Hm (Ht & Hz & Hff & Hne & Hlow) Hl Hf. cbv zeta.
  assert (mapped_rom bdf vendev s
    = (if pick vendev (rom_base (r_dev s) bdf) l =? 0 then config (fun d => pci_config_writel d bdf PCI_ROM_ADDRESS (rom_base (r_dev s) bdf));; mret 0
       else rom ← copied_rom (pick vendev (rom_base (r_dev s) bdf) l);
            config (fun d => pci_config_writel d bdf PCI_ROM_ADDRESS (rom_base (r_dev s) bdf));; mret rom) (set_dev s (opened (r_dev s) bdf))) as E.
  { unfold map_pcirom. rewrite get_bind, Ht, Z.eqb_refl. cbn [negb]. rewrite get_bind, config_bind, get_bind.
    cbn [set_dev r_dev]. fold (sized (r_dev s) bdf) (rom_base (r_dev s) bdf).
    rewrite (proj2 (Z.eqb_neq _ 0)), (proj2 (Z.eqb_neq _ 0xffffffff)), (proj2 (Z.eqb_neq (rom_base _ _) _)), (proj2 (Z.ltb_ge _ _)) by done.
    cbn [orb]. rewrite config_bind. cbn [set_dev r_dev]. fold (opened (r_dev s) bdf).
    erewrite (P_bind_some (get_option _)); [reflexivity|]. unfold get_option. cbn [r_mem].
    rewrite (find_image_picks _ vendev _ l) by done. reflexivity. }
  rewrite E. split.
  - intros [->|Hfull]; [done|]. case_test; [done|].
    by rewrite (P_bind_some _ _ _ _ _ (copy_rom_full (set_dev s (opened (r_dev s) bdf)) _ Hfull)).
  - intros Hs Hfit Hap. rewrite (proj2 (Z.eqb_neq _ 0)) by done.
    destruct (copy_rom_fits (set_dev s (opened (r_dev s) bdf)) (pick vendev (rom_base (r_dev s) bdf) l)) as (m & Ec & Hc); [done..|].
    exists m. split; [|exact Hc]. by rewrite (P_bind_some _ _ _ _ _ Ec).
Qed.

Lemma bytesum_copied m e src len k j : 0 <= j -> j + Z.of_nat k <= len ->
  bytesum (copied m e src len) (e + j) k = bytesum m (src + j) k.
Proof using.
  revert j. induction k as [|k IH]; intros j Hj Hk; [done|]. cbn [bytesum]. rewrite <- !Z.add_assoc, IH by lia. f_equal.
  unfold copied. addr_cases; [|lia..]. f_equal. lia.
Qed.

Lemma bytesum_ext m m' a k : (forall x, m' x = m x) -> bytesum m' a k = bytesum m a k.
Proof using. intros Hx. revert a. induction k as [|k IH]; intros a; cbn [bytesum]; [done|]. by rewrite Hx, IH. Qed.

Lemma nonzero_decide Q `{!Decision Q} x : x <> 0 -> negb ((if decide Q then x else 0) =? 0) = bool_decide Q.
Proof using.
  intros Hx. case_decide; [rewrite bool_decide_true, (proj2 (Z.eqb_neq x 0)) by done|rewrite bool_decide_false by done]; done.
Qed.

(** A copy of an image is an image, and one of something else is not. *)
Lemma image_copied m e src mc : 1 <= m (src + 2) < 2 ^ 8 -> (forall x, mc x = copied m e src (rom_bytes m src) x) ->
  (image_at mc e (mc (e + 2)) <-> image_at m src (m (src + 2))) /\ mc (e + 2) = m (src + 2).
Proof using.
  intros Hs Hc.
  assert (forall j, 0 <= j < rom_bytes m src -> mc (e + j) = m (src + j)) as Hj.
  { intros j Hj. rewrite Hc. unfold copied. addr_cases; [|lia..]. f_equal. lia. }
  unfold rom_bytes in Hj, Hc. split; [|apply Hj; lia]. unfold image_at. rewrite Hj by lia.
  assert (readw mc e = readw m src) as ->
    by (unfold readw; rewrite <- (Z.add_0_r e), <- (Z.add_0_r src), <- !Z.add_assoc, !Hj by lia; done).
  rewrite (bytesum_ext _ _ _ _ Hc).
  assert (bytesum (copied m e src (m (src + 2) * 512)) e (Z.to_nat (m (src + 2) * 512)) = bytesum m src (Z.to_nat (m (src + 2) * 512))) as ->; [|done].
  rewrite <- (Z.add_0_r e) at 2. rewrite bytesum_copied by lia. by rewrite Z.add_0_r.
Qed.
End Deploy.

(** The address register of the rom of [bdf], written with the address it had, shows it. *)
Definition keeps_address {D} `{PciConfig D} (d : D) (bdf : Z) : Prop :=
  forall d', pci_config_readl (pci_config_writel d' bdf PCI_ROM_ADDRESS (rom_base d bdf)) bdf PCI_ROM_ADDRESS = rom_base d bdf.

(** C23.  A rom of a PCI function is deployed or left alone.  Of the images in its window the
    first for the function and this processor, not behind the last, is taken; if there is
    none or it does not fit below the BIOS, memory and the roms so far are as before.
    Otherwise, if it says that it is not empty and its place does not meet its window, it
    is copied whole to the end of the roms so far.  If the copy has no
    signature or its bytes do not sum to zero, it is not called and the roms so far end
    where they did.  If it is a rom, it becomes one of them: their end moves to the next
    multiple of 2 KiB behind it, by the size it says in the end; before that it is called,
    once, at its start with the number of the function, if it is a VGA rom or has a plug
    and play header, and is not called otherwise.  By then, and when no rom is called in
    the end, the address register of the rom shows the address it had, decoding off. *)
Theorem pcirom_deployed {D} `{PciConfig D} fuel base pnp (call16big : Z -> bregs -> memory * D -> option (memory * D))
    (s : rom_state D) bdf isvga l :
  let m := r_mem s in
  let e := RomEnd s in
  let d := closed (r_dev s) bdf in
  bytes m -> has_rom (r_dev s) bdf -> image_chain m (rom_base (r_dev s) bdf) l -> (length l < fuel)%nat -> 0 < e < 2 ^ 20 ->
  let src := pick (pci_config_readl (r_dev s) bdf PCI_VENDOR_ID) (rom_base (r_dev s) bdf) l in
  let n := rom_bytes m src in
  (keeps_address (r_dev s) bdf ->
     pci_config_readl d bdf PCI_ROM_ADDRESS = Z.ldiff (pci_config_readl (r_dev s) bdf PCI_ROM_ADDRESS) PCI_ROM_ADDRESS_ENABLE) /\
  (src = 0 \/ max_rom base < e + n -> init_pcirom fuel base pnp call16big bdf isvga s = Some (-1, set_dev s d)) /\
  (src <> 0 -> e + n <= max_rom base -> m (src + 2) <> 0 -> src = e \/ e + 4 <= src \/ src + n <= e ->
   exists mc : memory, (forall x, mc x = copied m e src n x) /\
     (~ image_at m src (m (src + 2)) -> init_pcirom fuel base pnp call16big bdf isvga s = Some (-1, set_dev (set_mem s mc) d)) /\
     (image_at m src (m (src + 2)) -> forall (m' : memory) d', (if isvga || bool_decide (signed mc (e + readw mc (e + offsetof rom_header "pnpoffset")))
                    then call16big (Z.lor (Z.shiftl (e / 16) 16) OPTION_ROM_INITVECTOR) (rom_regs pnp bdf) (mc, d) = Some (m', d')
                    else (m', d') = (mc, d)) ->
       in_u 8 (m' (e + 2)) ->
       init_pcirom fuel base pnp call16big bdf isvga s
         = Some (0, mk_roms m' d' (r_cfg s) (e + past (m' (e + 2))) (IPL s) (VGAbdf s)))).
Proof.
  cbv zeta. intros Hm Hrom Hl Hf He. set (vendev := pci_config_readl (r_dev s) bdf PCI_VENDOR_ID).
  destruct (map_pcirom_spec fuel base s bdf vendev l Hm Hrom Hl Hf) as [Hno Hyes]. cbv zeta in Hno, Hyes.
  set (src := pick vendev _ l) in *. pose proof (Hm (src + 2)) as Hsz.
  rewrite wrap_small in Hno, Hyes by (unfold in_u, rom_bytes in *; lia).
  assert (lookup_hardcode base vendev s = Some (0, s)) as Hh by done.
  unfold init_pcirom. rewrite get_bind. fold vendev. rewrite (P_bind_some _ _ _ _ _ Hh). cbn [Z.eqb]. split; [|split].
  - intros Hk. exact (Hk _).
  - intros Hc. by rewrite (P_bind_some _ _ _ _ _ (Hno Hc)).
  - intros Hs Hfit Hne Hap. destruct (Hyes Hs Hfit Hap) as (mc & Emap & Hc). exists mc. split; [exact Hc|].
    rewrite (P_bind_some _ _ _ _ _ Emap). rewrite (proj2 (Z.eqb_neq (RomEnd s) 0)) by lia.
    assert (1 <= r_mem s (src + 2) < 2 ^ 8) as Hsz1 by (unfold in_u in Hsz; lia).
    destruct (image_copied _ _ _ _ Hsz1 Hc) as [Hi Hi2].
    assert (bytes mc) as Hmc by (intros x; rewrite Hc; unfold copied; case_test; apply Hm).
    unfold init_optionrom. rewrite get_bind. cbn [r_mem set_dev set_mem]. split.
    { intros Hno'. destruct (is_valid_rom mc (RomEnd s)) eqn:Ev; [|done]. exfalso. by apply Hno', Hi, (valid_image mc _ Hmc). }
    intros Himg m' d' Hcall Hb. rewrite (proj2 (valid_image mc _ Hmc) (proj2 Hi Himg)). cbn [negb].
    rewrite get_bind. cbn [r_mem set_dev set_mem]. unfold get_pnp_rom at 1. rewrite pnp_found by (lia || by apply readw_range).
    rewrite nonzero_decide by (pose proof (offset_range mc Hmc (RomEnd s + offsetof rom_header "pnpoffset")); unfold in_u in *; lia).
    rewrite (P_bind_some _ _ _ tt (mk_roms m' d' (r_cfg s) (RomEnd s) (IPL s) (VGAbdf s))).
    + rewrite put_bind. cbn [r_mem set_end r_dev r_cfg IPL VGAbdf]. change (offsetof rom_header "size") with 2. unfold readb.
      unfold in_u in Hb. rewrite past_align, wrap_small by (done || (unfold in_u, past; Z.to_euclidean_division_equations; lia)). done.
    + case_test; [|by simplify_eq]. unfold callrom, __callrom. rewrite seg_of by lia. cbn [r_mem set_dev set_mem r_dev].
      change (u16 OPTION_ROM_INITVECTOR) with OPTION_ROM_INITVECTOR. unfold set_dev, set_mem. cbn [r_mem r_dev r_cfg RomEnd IPL VGAbdf]. by rewrite Hcall.
Qed.


(** A legacy rom, a gap, and a rom with two headers. *)
Definition put_bytes (m : memory) (l : list (Z * Z)) : memory := foldr (fun x m => writeb m x.1 x.2) m l.
Definition demo_rom_list : list (Z * Z) :=
  [(0xc8000, 0x55); (0xc8001, 0xaa); (0xc8002, 4); (0xc8003, 0xfd);
   (0xc9000, 0x55); (0xc9001, 0xaa); (0xc9002, 1); (0xc9003, 182); (0xc901a, 0x20);
   (0xc9020, 0x24); (0xc9021, 0x50); (0xc9022, 0x6e); (0xc9023, 0x50); (0xc9026, 0x40); (0xc9036, 9); (0xc9030, 0x70);
   (0xc9040, 0x24); (0xc9041, 0x50); (0xc9042, 0x6e); (0xc9043, 0x50); (0xc9056, 12); (0xc9057, 1)].
Definition demo_roms : memory := put_bytes (fun _ => 0) demo_rom_list.


Lemma put_bytes_range l : bytes (put_bytes (fun _ => 0) l).
Proof. induction l; cbn; [intros x; unfold in_u; lia|by apply bytes_writeb]. Qed.

Lemma optionroms_registered_witness :
  exists i, register_roms 4 10 demo_roms 0xc8000 0xc9800 (mk_ipl [] [] 0 false) = Some i /\
    bcv i = [bcv_entry 0xc8000 (3, 0); bcv_entry 0xc9000 (9, 0x70); bcv_entry 0xc9000 (0x010c, 0)] /\ bev i = [].
Proof.
  destruct (optionroms_registered 4 10 demo_roms 0xc8000 0xc9800
    [(0xc8000, mk_desc 4 Legacy); (0xc9000, mk_desc 1 (Connections [(9, 0x70); (0x010c, 0)]))] (mk_ipl [] [] 0 false)) as (i & E & Eb & Ev).
  - apply put_bytes_range.
  - lia.
  - lia.
  - split; cbn; lia.
  - apply area_rom; [lia|..].
    + split_and!; by vm_compute.
    + vm_compute. done.
    + apply area_gap; [by vm_compute|intros size [Hs _]; vm_compute in Hs; done|]. apply area_rom; [by vm_compute|..].
      * split_and!; by vm_compute.
      * cbn [kind_at rd_kind linked_headers]. split_and!; try by vm_compute. left. by vm_compute.
      * by apply area_end.
  - repeat constructor.
  - vm_compute. done.
  - exists i. split; [exact E|]. rewrite Eb, Ev. split; vm_compute; reflexivity.
Defined.

(** A function at 0 with a rom register of 64 KiB, the state. *)
Definition demo_vendev : Z := 0x100e8086.
#[export] Instance demo_function : PciConfig Z := {
  cfg_in cmd port len d :=
    if Z.land cmd 0xfc =? PCI_ROM_ADDRESS then d else if Z.land cmd 0xfc =? PCI_VENDOR_ID then demo_vendev else 0;
  cfg_out cmd port len v d := if Z.land cmd 0xfc =? PCI_ROM_ADDRESS then Z.land v 0xffff0001 else d }.

(** Two images in its window, the second one for this processor. *)
Definition demo_window : memory := put_bytes (fun _ => 0)
  [(0xfe000000, 0x55); (0xfe000001, 0xaa); (0xfe000002, 1); (0xfe000018, 0x20);
   (0xfe000020, 0x50); (0xfe000021, 0x43); (0xfe000022, 0x49); (0xfe000023, 0x52);
   (0xfe000024, 0x86); (0xfe000025, 0x80); (0xfe000026, 0x0e); (0xfe000027, 0x10); (0xfe000030, 1); (0xfe000034, 3);
   (0xfe000200, 0x55); (0xfe000201, 0xaa); (0xfe000202, 1); (0xfe000203, 155); (0xfe000218, 0x20); (0xfe00021a, 0x40);
   (0xfe000220, 0x50); (0xfe000221, 0x43); (0xfe000222, 0x49); (0xfe000223, 0x52);
   (0xfe000224, 0x86); (0xfe000225, 0x80); (0xfe000226, 0x0e); (0xfe000227, 0x10); (0xfe000230, 1); (0xfe000235, 0x80);
   (0xfe000240, 0x24); (0xfe000241, 0x50); (0xfe000242, 0x6e); (0xfe000243, 0x50)].
Definition demo_images : list pci_image := [mk_image demo_vendev 3 false 512; mk_image demo_vendev 0 true 512].
Definition demo_rom_state : rom_state Z :=
  mk_roms demo_window 0xfe000000 (mk_qemu_cfg (fun _ => []) []) 0xc8800 (mk_ipl [] [] 0 false) (-1).

(** Code that leaves a mark when it is called at the right place. *)
Definition demo_call (code : Z) (regs : bregs) (s : memory * Z) : option (memory * Z) :=
  if code =? 0xc8800003 then Some (writeb s.1 0x500 7, s.2) else None.

Lemma pcirom_deployed_witness : exists s,
  init_pcirom 5 0xe0000 0x100 demo_call 8 false demo_rom_state = Some (0, s) /\
  RomEnd s = 0xc9000 /\ r_mem s 0x500 = 7 /\ readw (r_mem s) 0xc8800 = OPTION_ROM_SIGNATURE /\ r_dev s = 0xfe000000.
Proof.
  destruct (pcirom_deployed 5 0xe0000 0x100 demo_call demo_rom_state 8 false demo_images) as (_ & _ & Hd).
  - apply put_bytes_range.
  - split_and!; by vm_compute.
  - cbn [image_chain demo_images demo_rom_state r_mem]. unfold pci_image_at, starts_image. split_and!; try by vm_compute.
    intros [Hs _]. by vm_compute in Hs.
  - cbn. lia.
  - cbn. lia.
  - destruct Hd as (mc & Hc & _ & Hd); [by vm_compute..|by right; left; vm_compute|]. specialize (Hd ltac:(split_and!; by vm_compute)).
    assert (forall x, in_u 8 (mc x)) as Hmc by (intros x; rewrite Hc; unfold copied; case_test; apply put_bytes_range).
    eexists. split; [apply (Hd (writeb mc 0x500 7) 0xfe000000); [|by apply bytes_writeb]|].
    + rewrite bool_decide_true; [by vm_compute|]. unfold signed. unfold readl, readw. rewrite !Hc. by vm_compute.
    + cbn [RomEnd r_mem r_dev]. unfold readw, writeb. rewrite !Hc. split_and!; by vm_compute.
Defined.

(** ** Where the code goes wrong *)

(** An image of length 0 that is not the last and not the one looked for is inspected again
    and again. *)
Theorem zero_length_image_loops fuel m vendev rom im :
  bytes m -> in_u 32 rom -> pci_image_at m rom im -> im_len im = 0 -> im_last im = false -> im_id im <> vendev ->
  find_image fuel m vendev rom = None.
Proof.
  intros Hm Hr ((H1 & H2 & Hp) & Hid & Ht & Hlast & Hlen) H0 Hl Hne. induction fuel as [|fuel IH]; [done|]. cbn [find_image].
  change (offsetof rom_header "signature") with 0. unfold get_pci_rom. change (offsetof pci_data "signature") with 0. fold (data_at m rom).
  rewrite !Z.add_0_r, H1, H2, !Z.eqb_refl. cbn [negb]. rewrite (proj2 (Z.eqb_neq _ _) Hp), bit7_land. unfold readb.
  rewrite Hlast, Hl, Hlen, H0, Z.add_0_r, (wrap_small 32 rom), IH by done.
  assert (u32 (Z.lor (Z.shiftl (readw m (data_at m rom + offsetof pci_data "device")) 16) (readw m (data_at m rom + offsetof pci_data "vendor"))) = im_id im) as ->.
  { by apply image_id. }
  by rewrite (proj2 (Z.eqb_neq _ _) Hne).
Qed.

(** A plug and play header that names itself as the next one keeps the set-up busy for
    ever, although the tables are full after eight rounds. *)
Theorem own_next_header_loops fuel m rom off i :
  bytes m -> 0 <= rom < 2 ^ 20 -> off <> 0 -> readw m (rom + offsetof rom_header "pnpoffset") = off -> signed m (rom + off) ->
  readw m (rom + off + offsetof pnp_data "nextoffset") = off -> readw m (rom + off + offsetof pnp_data "bcv") <> 0 ->
  add_bcvs fuel m rom (get_pnp_rom m rom) i = None.
Proof.
  intros Hm Hr Hz Ho Hs Hn Hb. pose proof (offset_range m Hm (rom + offsetof rom_header "pnpoffset")) as Hrange. rewrite Ho in Hrange.
  unfold get_pnp_rom. rewrite Ho, pnp_found, decide_True by done. revert i.
  induction fuel as [|fuel IH]; intros i; [done|]. cbn [add_bcvs]. unfold in_u in Hrange.
  rewrite (proj2 (Z.eqb_neq (rom + off) 0)), (proj2 (Z.eqb_neq _ 0) Hb) by lia. cbn [orb].
  rewrite next_header by done. rewrite Hn, decide_False, decide_True by done. apply IH.
Qed.

(** Two files for roms, the first one of 8 bytes with a header that claims 16 KiB. *)
Definition demo_files : qemu_cfg :=
  let file size select name := encode_file (mk_listed size select (resize 56 0 (codes name))) in
  mk_qemu_cfg (fun e =>
    if e =? QEMU_CFG_FILE_DIR then be32 2 ++ file 8 0x20 "genroms/a" ++ file 4 0x21 "genroms/b"
    else if e =? 0x20 then [0x55; 0xaa; 32; 225; 0; 0; 0; 0] else if e =? 0x21 then [1; 2; 3; 4] else []) [].

(** A header in a file may claim more than the file holds: the end of the roms then passes
    the start of the BIOS, the space left wraps, and the next file is stored over the
    BIOS, which starts at 0xe0000 here. *)
Theorem rom_file_over_bios : exists s,
  run_qemu_roms 4 0xe0000 0x100 true demo_call (codes "genroms/") false
    (mk_roms (fun _ => 0) 0 demo_files 0xdd000 (mk_ipl [] [] 0 false) (-1)) = Some (tt, s) /\
  RomEnd s = 0xe1000 /\ (r_mem s 0xe1000, r_mem s 0xe1001, r_mem s 0xe1002, r_mem s 0xe1003) = (1, 2, 3, 4).
Proof.
  set (r := run_qemu_roms _ _ _ _ _ _ _ _).
  assert (match r with
    | Some (_, s) => RomEnd s = 0xe1000 /\ (r_mem s 0xe1000, r_mem s 0xe1001, r_mem s 0xe1002, r_mem s 0xe1003) = (1, 2, 3, 4)
    | None => False end) as Hr by by vm_compute.
  destruct r as [[[] s]|]; [by exists s|done].
Qed.
