(* ===== verification/Alloc.v ===== *)
(** * What the memory manager promises to code that builds tables

    Code that fills blocks of memory one after the other needs of [Pmm] that a new block
    meets none of those in use and that nothing else in memory changes.  [managed] is
    the state of the manager with the blocks in use, [built] what a builder does with
    it; facts that depend only on blocks in use survive later builders. *)

From S2P Require Import Prelude BiosUtil Pmm.
Local Open Scope Z_scope.
Local Open Scope coremu_scope.

(** The manager after any allocations and frees, whatever has been stored since; [live]
    are the addresses and sizes of the blocks in use. *)
Definition managed (s : pmm) (live : list (Z * Z)) : Prop :=
  exists boot ops, pmm_ready boot /\ Forall op_ok ops /\ (pmm_run boot ops).2 = live /\ s = set_pmem (pmm_run boot ops).1 (pmem s).

(** Addresses in a block. *)
Definition covered (live : list (Z * Z)) (x : Z) : Prop := exists a n, (a, n) ∈ live /\ a <= x < a + n.

(** [Q] depends only on memory in the blocks. *)
Definition supported (live : list (Z * Z)) (Q : memory -> Prop) : Prop :=
  forall m m', (forall x, covered live x -> m' x = m x) -> Q m -> Q m'.

Lemma managed_set_pmem s live m : managed s live -> managed (set_pmem s m) live.
Proof. intros (boot & ops & Hr & Ho & Hl & ->). exists boot, ops. split_and!; done. Qed.

Lemma managed_apart s live : managed s live -> apart live.
Proof. intros (boot & ops & Hr & Ho & <- & _). by apply run_apart. Qed.

(** A block in front of others. *)
Lemma apart_head a n live : apart ((a, n) :: live) -> 0 < a /\ a + n < 2 ^ 32 /\ forall x, a <= x < a + n -> ~ covered live x.
Proof.
  intros [H1 H2]. destruct (H1 a n ltac:(left)) as (Ha & _ & Hn). split; [done|]. split; [done|].
  intros x Hx (a' & n' & [i Hi]%list_elem_of_lookup & Hx').
  pose proof (H2 0%nat (S i) a n a' n' eq_refl Hi ltac:(done)). lia.
Qed.

Lemma managed_malloc s live z size k s' a : z <> ZoneLow -> fits size k -> managed s live ->
  pmm_malloc s [] z PMM_DEFAULT_HANDLE size (2 ^ k) = (s', a) ->
  managed s' (if a =? 0 then live else (a, size) :: live) /\ pmem s' = pmem s.
Proof.
  intros Hz Hf (boot & ops & Hr & Ho & Hl & ->). rewrite pmm_malloc_pmem by done. cbn [pmem set_pmem]. intros E. simplify_eq.
  split; [|done]. exists boot, (ops ++ [OpMalloc z PMM_DEFAULT_HANDLE size k]). split_and!; [done| | |].
  - apply Forall_app. split; [done|]. constructor; [|constructor]. by split.
  - unfold pmm_run. rewrite foldl_app. destruct (foldl pmm_step (boot, []) ops) as [s0 live0]. cbn [fst snd foldl pmm_step].
    by destruct (pmm_malloc s0 [] z _ _ _) as [s1 a1].
  - unfold pmm_run. rewrite foldl_app. destruct (foldl pmm_step (boot, []) ops) as [s0 live0]. cbn [fst snd foldl pmm_step].
    by destruct (pmm_malloc s0 [] z _ _ _) as [s1 a1].
Qed.

Lemma managed_free s live d : managed s live -> managed (free s d) (filter (fun b => b.1 <> d) live).
Proof.
  intros (boot & ops & Hr & Ho & Hl & ->). unfold free. rewrite pmm_free_pmem. exists boot, (ops ++ [OpFree d]). split_and!; [done| | |].
  - apply Forall_app. split; [done|]. by repeat constructor.
  - revert Hl. unfold pmm_run. rewrite foldl_app. destruct (foldl pmm_step (boot, []) ops) as [s0 live0]. cbn. by intros ->.
  - unfold pmm_run. rewrite foldl_app. destruct (foldl pmm_step (boot, []) ops) as [s0 live0]. cbn. done.
Qed.

(** [Q] depends only on memory in those of the blocks [live'] that are not in [live]. *)
Definition between (live live' : list (Z * Z)) (Q : memory -> Prop) : Prop :=
  forall m m', (forall x, covered live' x -> ~ covered live x -> m' x = m x) -> Q m -> Q m'.

(** There is no table at [a], or what it says is so. *)
Definition stands (live : list (Z * Z)) (s : pmm) (live' : list (Z * Z)) (a : Z) (Q : memory -> Prop) : Prop :=
  a <> 0 -> Q (pmem s) /\ between live live' Q.

(** From [s] with the blocks [live] a builder has come to [s'] with [live']: the blocks it
    was given are kept, it has stored only in new ones, and the table at [a], in new ones
    too, says [Q] unless there is none. *)
Record built (s : pmm) (live : list (Z * Z)) (s' : pmm) (live' : list (Z * Z)) (a : Z) (Q : memory -> Prop) : Prop := {
  built_managed : managed s' live';
  built_bytes : bytes (pmem s');
  built_addr : in_u 32 a;
  built_blocks : live ⊆ live';
  built_kept x : covered live x -> pmem s' x = pmem s x;
  built_frame x : ~ covered live' x -> pmem s' x = pmem s x;
  built_stands : stands live s' live' a Q }.

Lemma covered_cons a n live x : covered ((a, n) :: live) x <-> a <= x < a + n \/ covered live x.
Proof.
  unfold covered. split.
  - intros (a' & n' & [[= <- <-]|Hin]%elem_of_cons & Hx); [by left|right; by exists a', n'].
  - intros [Hx|(a' & n' & Hin & Hx)]; [exists a, n; split; [left|done]|exists a', n'; split; [by right|done]].
Qed.

Lemma covered_mono live live' x : live ⊆ live' -> covered live x -> covered live' x.
Proof. intros H (a & n & Hin & Hx). exists a, n. auto. Qed.

Lemma built_live s live s' live' a Q x : built s live s' live' a Q -> covered live x -> covered live' x.
Proof. intros []. by apply covered_mono. Qed.

Lemma between_mono live0 live live' live'' Q : live0 ⊆ live -> live' ⊆ live'' -> between live live' Q -> between live0 live'' Q.
Proof. intros H0 H1 H m m' Hx. apply H. intros x Hc Hn. apply Hx; [by eapply covered_mono|]. intros Hc0. by eapply Hn, covered_mono. Qed.

(** A table stands when something else is built. *)
Lemma stands_built live0 s live a Q s' live' b R : stands live0 s live a Q -> built s live s' live' b R -> stands live0 s' live' a Q.
Proof.
  intros HQ HB Ha. destruct (HQ Ha) as [H1 H2]. split.
  - eapply H2, H1. intros x Hc _. by apply (built_kept _ _ _ _ _ _ HB).
  - eapply between_mono, H2; [done|apply HB].
Qed.

(** It stands in memory that is the same there. *)
Lemma stands_in live0 s live a Q (m : memory) : stands live0 s live a Q -> a <> 0 ->
  (forall x, covered live x -> ~ covered live0 x -> m x = pmem s x) -> Q m.
Proof. intros H Ha Hx. destruct (H Ha) as [H1 H2]. by eapply H2, H1. Qed.

Lemma supported_and live Q R : supported live Q -> supported live R -> supported live (fun m => Q m /\ R m).
Proof. intros HQ HR m m' Hx [??]. split; [by eapply HQ|by eapply HR]. Qed.

Lemma built_nothing s live Q : managed s live -> bytes (pmem s) -> built s live s live 0 Q.
Proof. by split. Qed.

(** One block, filled. *)
Lemma built_block s live z size k s1 a (m : memory) (Q : memory -> Prop) :
  z <> ZoneLow -> fits size k -> managed s live -> pmm_malloc s [] z PMM_DEFAULT_HANDLE size (2 ^ k) = (s1, a) -> a <> 0 ->
  (0 < a /\ a + size < 2 ^ 32 -> bytes m /\ (forall x, ~ a <= x < a + size -> m x = pmem s x) /\ Q m) -> supported [(a, size)] Q ->
  built s live (set_pmem s1 m) ((a, size) :: live) a Q.
Proof.
  intros Hz Hf Hs E Ha Hfill HQ. destruct (managed_malloc _ _ _ _ _ _ _ Hz Hf Hs E) as [Hs1 Hm].
  rewrite (proj2 (Z.eqb_neq a 0)) in Hs1 by done. destruct (apart_head _ _ _ (managed_apart _ _ Hs1)) as (H1 & H2 & Hd).
  destruct Hfill as (Hb & Hx & HQm); [done|]. split; cbn [pmem set_pmem].
  - by apply managed_set_pmem.
  - done.
  - destruct Hf as [? _]. unfold in_u. lia.
  - intros b Hb'. by right.
  - intros x Hc. apply Hx. intros Hin. by apply (Hd x).
  - intros x Hc. apply Hx. intros Hin. apply Hc, covered_cons. by left.
  - intros _. split; [done|]. intros m1 m2 Hsame. apply HQ. intros x (a' & n' & [[= -> ->]|[]%elem_of_nil]%elem_of_cons & Hin).
    apply Hsame; [apply covered_cons; by left|by apply Hd].
Qed.

(** The same, when there may be no memory. *)
Lemma built_alloc s live z size k s1 a (m : memory) (Q : memory -> Prop) :
  z <> ZoneLow -> fits size k -> managed s live -> bytes (pmem s) -> pmm_malloc s [] z PMM_DEFAULT_HANDLE size (2 ^ k) = (s1, a) ->
  (a <> 0 -> 0 < a /\ a + size < 2 ^ 32 -> bytes m /\ (forall x, ~ a <= x < a + size -> m x = pmem s x) /\ Q m) ->
  supported [(a, size)] Q ->
  exists live', built s live (if a =? 0 then s1 else set_pmem s1 m) live' a Q.
Proof.
  intros Hz Hf Hs Hb E Hfill HQ. destruct (Z.eqb_spec a 0) as [->|Ha].
  - destruct (managed_malloc _ _ _ _ _ _ _ Hz Hf Hs E) as [Hs1 Hm1]. exists live. split; try done; intros; by rewrite Hm1.
  - eexists. eapply built_block; try done. by apply Hfill.
Qed.

(** Two builders in turn. *)
Lemma built_then s live s1 live1 a Q s2 live2 b R :
  built s live s1 live1 a Q -> built s1 live1 s2 live2 b R -> built s live s2 live2 b R.
Proof.
  intros H1 H2. split; try apply H2; [etransitivity; [apply H1|apply H2]| | |].
  - intros x Hc. rewrite (built_kept _ _ _ _ _ _ H2) by (by eapply built_live). by apply (built_kept _ _ _ _ _ _ H1).
  - intros x Hc. rewrite (built_frame _ _ _ _ _ _ H2) by done. apply (built_frame _ _ _ _ _ _ H1). intros Hc'. by eapply Hc, built_live.
  - intros Hb. destruct (built_stands _ _ _ _ _ _ H2 Hb) as [HR HR']. split; [done|]. eapply between_mono, HR'; [apply H1|done].
Qed.

(** Memory handed out and not yet filled. *)
Lemma built_waiting s live s1 live1 Q : managed s1 live1 -> live ⊆ live1 -> bytes (pmem s) -> pmem s1 = pmem s -> built s live s1 live1 0 Q.
Proof. intros Hs Hl Hb Hm. split; try done; intros; by rewrite Hm. Qed.

(** Two blocks in use that are not the same block. *)
Lemma blocks_meet live a n b k : apart live -> (a, n) ∈ live -> (b, k) ∈ live -> (a, n) <> (b, k) -> a + n <= b \/ b + k <= a.
Proof.
  intros [_ Hd] [i Hi]%list_elem_of_lookup [j Hj]%list_elem_of_lookup Hne.
  pose proof (Hd i j _ _ _ _ Hi Hj). destruct (decide (i = j)) as [->|Hij]; [congruence|]. specialize (H Hij). lia.
Qed.

Lemma built_apart s live s' live' a Q : built s live s' live' a Q -> apart live'.
Proof. intros H. eapply managed_apart, H. Qed.
