(* ===== verification/Acpi.v ===== *)
(** * ACPI tables: [bios/seabios/src/acpi.c], [acpi.h]

    The tables are built in memory handed out by the memory manager, each in a block of its
    own; a builder gives the address of its table, 0 without memory.  [AmlCode], the
    compiled description of devices, is an argument, as is the configuration space of
    PCI functions. *)

From S2P Require Import Prelude BiosUtil Pmm Alloc Bregs Ports Block Pci Output Paravirt Tables MpTable.
Local Open Scope Z_scope.
Local Open Scope coremu_scope.

(** ** Layouts and numbers *)

Definition acpi_table_header : layout :=
  [("signature", 4); ("length", 4); ("revision", 1); ("checksum", 1); ("oem_id", 6); ("oem_table_id", 8); ("oem_revision", 4);
   ("asl_compiler_id", 4); ("asl_compiler_revision", 4)].
Definition rsdp_descriptor : layout :=
  [("signature", 8); ("checksum", 1); ("oem_id", 6); ("revision", 1); ("rsdt_physical_address", 4); ("length", 4);
   ("xsdt_physical_address", 8); ("extended_checksum", 1); ("reserved", 3)].
Definition rsdt_descriptor_rev1 : layout := acpi_table_header.
Definition facs_descriptor_rev1 : layout :=
  [("signature", 4); ("length", 4); ("hardware_signature", 4); ("firmware_waking_vector", 4); ("global_lock", 4); ("S4bios_f", 4);
   ("resverved3", 40)].
Definition fadt_descriptor_rev1 : layout := acpi_table_header ++
  [("firmware_ctrl", 4); ("dsdt", 4); ("model", 1); ("reserved1", 1); ("sci_int", 2); ("smi_cmd", 4); ("acpi_enable", 1);
   ("acpi_disable", 1); ("S4bios_req", 1); ("reserved2", 1); ("pm1a_evt_blk", 4); ("pm1b_evt_blk", 4); ("pm1a_cnt_blk", 4);
   ("pm1b_cnt_blk", 4); ("pm2_cnt_blk", 4); ("pm_tmr_blk", 4); ("gpe0_blk", 4); ("gpe1_blk", 4); ("pm1_evt_len", 1);
   ("pm1_cnt_len", 1); ("pm2_cnt_len", 1); ("pm_tmr_len", 1); ("gpe0_blk_len", 1); ("gpe1_blk_len", 1); ("gpe1_base", 1);
   ("reserved3", 1); ("plvl2_lat", 2); ("plvl3_lat", 2); ("flush_size", 2); ("flush_stride", 2); ("duty_offset", 1);
   ("duty_width", 1); ("day_alrm", 1); ("mon_alrm", 1); ("century", 1); ("reserved4", 1); ("reserved4a", 1); ("reserved4b", 1);
   ("flags", 4)].
Definition multiple_apic_table : layout := acpi_table_header ++ [("local_apic_address", 4); ("flags", 4)].
Definition madt_processor_apic : layout := [("type", 1); ("length", 1); ("processor_id", 1); ("local_apic_id", 1); ("flags", 4)].
Definition madt_io_apic : layout :=
  [("type", 1); ("length", 1); ("io_apic_id", 1); ("reserved", 1); ("address", 4); ("interrupt", 4)].
Definition madt_intsrcovr : layout := [("type", 1); ("length", 1); ("bus", 1); ("source", 1); ("gsi", 4); ("flags", 2)].
Definition acpi_20_hpet : layout := acpi_table_header ++
  [("timer_block_id", 4); ("addr.address_space_id", 1); ("addr.register_bit_width", 1); ("addr.register_bit_offset", 1);
   ("addr.reserved", 1); ("addr.address", 8); ("hpet_number", 1); ("min_tick", 2); ("page_protect", 1)].
Definition system_resource_affinity_table : layout := acpi_table_header ++ [("reserved1", 4); ("reserved2", 8)].
Definition srat_processor_affinity : layout :=
  [("type", 1); ("length", 1); ("proximity_lo", 1); ("local_apic_id", 1); ("flags", 4); ("local_sapic_eid", 1);
   ("proximity_hi", 3); ("reserved", 4)].
Definition srat_memory_affinity : layout :=
  [("type", 1); ("length", 1); ("proximity", 4); ("reserved1", 2); ("base_addr_low", 4); ("base_addr_high", 4);
   ("length_low", 4); ("length_high", 4); ("reserved2", 4); ("flags", 4); ("reserved3", 8)].

Definition RSDP_SIGNATURE : Z := 0x2052545020445352.
Definition RSDT_SIGNATURE : Z := 0x54445352.
Definition FACS_SIGNATURE : Z := 0x53434146.
Definition FACP_SIGNATURE : Z := 0x50434146.
Definition APIC_SIGNATURE : Z := 0x43495041.
Definition SSDT_SIGNATURE : Z := 0x54445353.
Definition HPET_SIGNATURE : Z := 0x54455048.
Definition SRAT_SIGNATURE : Z := 0x54415253.
Definition APIC_PROCESSOR : Z := 0.
Definition APIC_IO : Z := 1.
Definition APIC_XRUPT_OVERRIDE : Z := 2.
Definition SRAT_PROCESSOR : Z := 0.
Definition SRAT_MEMORY : Z := 1.
Definition PCI_ISA_IRQ_MASK : Z := 0x0e20.
Definition ACPI_HPET_ADDRESS : Z := 0xFED00000.
Definition PORT_SMI_CMD : Z := 0x00b2.
Definition PORT_ACPI_PM_BASE : Z := 0xb000.
Definition CONFIG_APPNAME6 : list Z := codes "QEMU  ".
Definition CONFIG_APPNAME4 : list Z := codes "QEMU".
Definition MAX_ACPI_TABLES : nat := 20.

Definition memalign_high (s : pmm) (align size : Z) : pmm * Z := pmm_malloc s [] ZoneHigh PMM_DEFAULT_HANDLE size align.

(** ** Tables *)

Definition build_header (m : memory) (h sig len rev : Z) : memory :=
  let f x := h + offsetof acpi_table_header x in
  let m := writel m (f "signature") sig in
  let m := writel m (f "length") len in
  let m := writeb m (f "revision") rev in
  let m := store_bytes m (f "oem_id") CONFIG_APPNAME6 in
  let m := store_bytes m (f "oem_table_id") CONFIG_APPNAME4 in
  let m := store_bytes m (f "asl_compiler_id") CONFIG_APPNAME4 in
  let m := writel m (f "oem_table_id" + 4) sig in
  let m := writel m (f "oem_revision") 1 in
  let m := writel m (f "asl_compiler_revision") 1 in
  writeb m (f "checksum") (u8 (m (f "checksum") - checksum m h len)).

Section Builders.
Context (AmlCode : list Z).

Definition fill_facs (m : memory) (facs : Z) : memory :=
  let m := memset m facs 0 (Z.to_nat (sizeof facs_descriptor_rev1)) in
  let m := writel m (facs + offsetof facs_descriptor_rev1 "signature") FACS_SIGNATURE in
  writel m (facs + offsetof facs_descriptor_rev1 "length") (sizeof facs_descriptor_rev1).

Definition fill_fadt (m : memory) (fadt facs dsdt pm_sci_int : Z) : memory :=
  let f x := fadt + offsetof fadt_descriptor_rev1 x in
  let m := memset m fadt 0 (Z.to_nat (sizeof fadt_descriptor_rev1)) in
  let m := writel m (f "firmware_ctrl") facs in
  let m := writel m (f "dsdt") dsdt in
  let m := writeb m (f "model") 1 in
  let m := writeb m (f "reserved1") 0 in
  let m := writew m (f "sci_int") pm_sci_int in
  let m := writel m (f "smi_cmd") PORT_SMI_CMD in
  let m := writeb m (f "acpi_enable") 0xf1 in
  let m := writeb m (f "acpi_disable") 0xf0 in
  let m := writel m (f "pm1a_evt_blk") PORT_ACPI_PM_BASE in
  let m := writel m (f "pm1a_cnt_blk") (PORT_ACPI_PM_BASE + 0x04) in
  let m := writel m (f "pm_tmr_blk") (PORT_ACPI_PM_BASE + 0x08) in
  let m := writeb m (f "pm1_evt_len") 4 in
  let m := writeb m (f "pm1_cnt_len") 2 in
  let m := writeb m (f "pm_tmr_len") 4 in
  let m := writew m (f "plvl2_lat") 0xfff in
  let m := writew m (f "plvl3_lat") 0xfff in
  let m := writel m (f "gpe0_blk") 0xafe0 in
  let m := writeb m (f "gpe0_blk_len") 4 in
  let m := writel m (f "flags") (Z.lor (Z.lor (Z.lor (Z.shiftl 1 0) (Z.shiftl 1 2)) (Z.shiftl 1 5)) (Z.shiftl 1 6)) in
  build_header m fadt FACP_SIGNATURE (sizeof fadt_descriptor_rev1) 1.

Definition build_fadt {D} `{PciConfig D} (d : D) (bdf : Z) (s : pmm) : pmm * Z :=
  let '(s, fadt) := malloc_high s (sizeof fadt_descriptor_rev1) in
  let '(s, facs) := memalign_high s 64 (sizeof facs_descriptor_rev1) in
  let '(s, dsdt) := malloc_high s (Z.of_nat (length AmlCode)) in
  if (fadt =? 0) || (facs =? 0) || (dsdt =? 0) then (s, 0)
  else
    let m := fill_facs (pmem s) facs in
    let m := store_bytes m dsdt AmlCode in
    (set_pmem s (fill_fadt m fadt facs dsdt (pci_config_readb d bdf PCI_INTERRUPT_LINE)), fadt).
End Builders.

(** The processors from [i] on. *)
Fixpoint put_processors (n : nat) (m : memory) (apic i CountCPUs : Z) : memory * Z :=
  match n with
  | O => (m, apic)
  | S n =>
      let f x := apic + offsetof madt_processor_apic x in
      let m := writeb m (f "type") APIC_PROCESSOR in
      let m := writeb m (f "length") (sizeof madt_processor_apic) in
      let m := writeb m (f "processor_id") i in
      let m := writeb m (f "local_apic_id") i in
      let m := writel m (f "flags") (if i <? CountCPUs then 1 else 0) in
      put_processors n m (apic + sizeof madt_processor_apic) (i + 1) CountCPUs
  end.

Definition put_io_apic (m : memory) (io_apic CountCPUs : Z) : memory :=
  let f x := io_apic + offsetof madt_io_apic x in
  let m := writeb m (f "type") APIC_IO in
  let m := writeb m (f "length") (sizeof madt_io_apic) in
  let m := writeb m (f "io_apic_id") CountCPUs in
  let m := writel m (f "address") BUILD_IOAPIC_ADDR in
  writel m (f "interrupt") 0.

Definition put_intsrcovr (m : memory) (p source gsi flags : Z) : memory :=
  let f x := p + offsetof madt_intsrcovr x in
  let m := memset m p 0 (Z.to_nat (sizeof madt_intsrcovr)) in
  let m := writeb m (f "type") APIC_XRUPT_OVERRIDE in
  let m := writeb m (f "length") (sizeof madt_intsrcovr) in
  let m := writeb m (f "source") source in
  let m := writel m (f "gsi") gsi in
  writew m (f "flags") flags.

(** The lines of PCI interrupts, of those in the list. *)
Fixpoint put_overrides (l : list Z) (m : memory) (p : Z) : memory * Z :=
  match l with
  | [] => (m, p)
  | i :: l =>
      if Z.land PCI_ISA_IRQ_MASK (Z.shiftl 1 i) =? 0 then put_overrides l m p
      else put_overrides l (put_intsrcovr m p i i 0xd) (p + sizeof madt_intsrcovr)
  end.

Section Counts.
Context (CountCPUs MaxCountCPUs : Z) (qemu_cfg_present : bool).

(** Memory, the configuration interface and the end of the table. *)
Definition fill_madt (m : memory) (c : qemu_cfg) (madt : Z) : memory * qemu_cfg * Z :=
  let m := writel m (madt + offsetof multiple_apic_table "local_apic_address") BUILD_APIC_ADDR in
  let m := writel m (madt + offsetof multiple_apic_table "flags") 1 in
  let '(m, io_apic) := put_processors (Z.to_nat MaxCountCPUs) m (madt + sizeof multiple_apic_table) 0 CountCPUs in
  let m := put_io_apic m io_apic CountCPUs in
  let p := io_apic + sizeof madt_io_apic in
  let '(o, c) := qemu_cfg_irq0_override qemu_cfg_present c in
  let '(m, p) := if negb (o =? 0) then (put_intsrcovr m p 0 2 0, p + sizeof madt_intsrcovr) else (m, p) in
  let '(m, p) := put_overrides [1; 2; 3; 4; 5; 6; 7; 8; 9; 10; 11; 12; 13; 14; 15] m p in
  (m, c, p).

Definition build_madt (s : pmm) (c : qemu_cfg) : pmm * qemu_cfg * Z :=
  let madt_size := s32 (sizeof multiple_apic_table + sizeof madt_processor_apic * MaxCountCPUs + sizeof madt_io_apic
                        + sizeof madt_intsrcovr * 16) in
  let '(s, madt) := malloc_high s madt_size in
  if madt =? 0 then (s, c, 0)
  else
    let m := memset (pmem s) madt 0 (Z.to_nat madt_size) in
    let '(m, c, p) := fill_madt m c madt in
    (set_pmem s (build_header m madt APIC_SIGNATURE (p - madt) 1), c, madt).

(** A digit of a name. *)
Definition hex_digit (x : Z) : Z := if x <? 0xa then x + 48 else x + 65 - 0xa.

(** The object of processor [i]. *)
Definition ssdt_processor (i : Z) : list Z :=
  [0x5B; 0x83; 0x0B; 67; 80; if negb (Z.land i 0xf0 =? 0) then hex_digit (Z.shiftr i 4) else 85; hex_digit (Z.land i 0xf);
   i; 0x10; 0xb0; 0; 0; 6].

Definition cpu_length (acpi_cpus : Z) : Z := 13 * acpi_cpus + 4.

(** What is stored behind the header. *)
Definition ssdt_bytes (acpi_cpus : Z) : list Z :=
  let cpu_length := cpu_length acpi_cpus in
  [0x10] ++ (if cpu_length <=? 0x3e then [u8 (cpu_length + 1)]
             else [Z.lor 0x40 (Z.land (cpu_length + 2) 0xf); u8 (Z.shiftr (cpu_length + 2) 4)])
  ++ [95; 80; 82; 95] ++ concat (map (fun i => ssdt_processor (Z.of_nat i)) (seq 0 (Z.to_nat acpi_cpus))).

Definition build_ssdt (s : pmm) : pmm * Z :=
  let acpi_cpus := if 0xff <? MaxCountCPUs then 0xff else MaxCountCPUs in
  let length_ := sizeof acpi_table_header + 3 + cpu_length acpi_cpus in
  let '(s, ssdt) := malloc_high s length_ in
  if ssdt =? 0 then (s, 0)
  else
    let m := writeb (pmem s) (ssdt + 9) 0 in
    let m := store_bytes m (ssdt + sizeof acpi_table_header) (ssdt_bytes acpi_cpus) in
    (set_pmem s (build_header m ssdt SSDT_SIGNATURE (sizeof acpi_table_header + Z.of_nat (length (ssdt_bytes acpi_cpus))) 1), ssdt).

Definition fill_hpet (m : memory) (hpet : Z) : memory :=
  let m := memset m hpet 0 (Z.to_nat (sizeof acpi_20_hpet)) in
  let m := writel m (hpet + offsetof acpi_20_hpet "timer_block_id") 0x8086a201 in
  let m := writeq m (hpet + offsetof acpi_20_hpet "addr.address") ACPI_HPET_ADDRESS in
  build_header m hpet HPET_SIGNATURE (sizeof acpi_20_hpet) 1.

Definition build_hpet (s : pmm) : pmm * Z :=
  let '(s, hpet) := malloc_high s (sizeof acpi_20_hpet) in
  if hpet =? 0 then (s, 0) else (set_pmem s (fill_hpet (pmem s) hpet), hpet).

(** ** Affinity *)

Definition acpi_build_srat_memory (m : memory) (numamem base len node enabled : Z) : memory :=
  let f x := numamem + offsetof srat_memory_affinity x in
  let m := writeb m (f "type") SRAT_MEMORY in
  let m := writeb m (f "length") (sizeof srat_memory_affinity) in
  let m := memset m (f "proximity") 0 4 in
  let m := writeb m (f "proximity") node in
  let m := writel m (f "flags") (if enabled =? 0 then 0 else 1) in
  let m := writel m (f "base_addr_low") (Z.land base 0xFFFFFFFF) in
  let m := writel m (f "base_addr_high") (Z.shiftr base 32) in
  let m := writel m (f "length_low") (Z.land len 0xFFFFFFFF) in
  writel m (f "length_high") (Z.shiftr len 32).

(** The processors from [i] on; [numadata] is read at the pointer, which moves. *)
Fixpoint srat_processors (n : nat) (m : memory) (core numadata i : Z) : memory * Z * Z :=
  match n with
  | O => (m, core, numadata)
  | S n =>
      let f x := core + offsetof srat_processor_affinity x in
      let m := writeb m (f "type") SRAT_PROCESSOR in
      let m := writeb m (f "length") (sizeof srat_processor_affinity) in
      let m := writeb m (f "local_apic_id") i in
      let curnode := readq m numadata in
      let m := writeb m (f "proximity_lo") curnode in
      let m := memset m (f "proximity_hi") 0 3 in
      let m := writeb m (f "local_sapic_eid") 0 in
      let m := writel m (f "flags") (if i <? CountCPUs then 1 else 0) in
      srat_processors n m (core + sizeof srat_processor_affinity) (numadata + 8) (i + 1)
  end.

(** The memory of the nodes from [i] on. *)
Fixpoint srat_nodes (n : nat) (RamSize : Z) (m : memory) (numamem numadata i next_base slots : Z) : memory * Z * Z * Z :=
  match n with
  | O => (m, numamem, numadata, slots)
  | S n =>
      let size := sizeof srat_memory_affinity in
      let mem_base := next_base in
      let mem_len := readq m numadata in
      let mem_len := if i =? 1 then u64 (mem_len - 1024 * 1024) else mem_len in
      let next_base := u64 (mem_base + mem_len) in
      let '(m, numamem, slots, mem_base, mem_len, next_base) :=
        if (mem_base <=? RamSize) && (RamSize <? next_base) then
          let mem_len := u64 (mem_len - (next_base - RamSize)) in
          let '(m, numamem, slots) :=
            if 0 <? mem_len then (acpi_build_srat_memory m numamem mem_base mem_len (i - 1) 1, numamem + size, slots + 1)
            else (m, numamem, slots) in
          (m, numamem, slots, 2 ^ 32, u64 (next_base - RamSize), u64 (next_base + (2 ^ 32 - RamSize)))
        else (m, numamem, slots, mem_base, mem_len, next_base) in
      let m := acpi_build_srat_memory m numamem mem_base mem_len (i - 1) 1 in
      srat_nodes n RamSize m (numamem + size) (numadata + 8) (i + 1) next_base (slots + 1)
  end.

(** The slots left. *)
Fixpoint srat_empty (n : nat) (m : memory) (numamem : Z) : memory :=
  match n with
  | O => m
  | S n => srat_empty n (acpi_build_srat_memory m numamem 0 0 0 0) (numamem + sizeof srat_memory_affinity)
  end.

Definition store_numbers (m : memory) (a : Z) (l : list Z) : memory := fst (foldl (fun p v => (writeq p.1 p.2 v, p.2 + 8)) (m, a) l).

Definition build_srat (RamSize : Z) (s : pmm) (c : qemu_cfg) : pmm * qemu_cfg * Z :=
  let '(nb_numa_nodes, c) := qemu_cfg_get_numa_nodes c in
  if nb_numa_nodes =? 0 then (s, c, 0)
  else
    let '(s, numadata) := malloc_tmphigh s (u32 (8 * (MaxCountCPUs + nb_numa_nodes))) in
    if numadata =? 0 then (s, c, 0)
    else
      let '(data, c) := qemu_cfg_get_numa_data c (Z.to_nat (MaxCountCPUs + nb_numa_nodes)) in
      let s := set_pmem s (store_numbers (pmem s) numadata data) in
      let srat_size := s32 (sizeof system_resource_affinity_table + sizeof srat_processor_affinity * MaxCountCPUs
                            + sizeof srat_memory_affinity * (nb_numa_nodes + 2)) in
      let '(s, srat) := malloc_high s srat_size in
      if srat =? 0 then (free s numadata, c, 0)
      else
        let m := memset (pmem s) srat 0 (Z.to_nat srat_size) in
        let m := writel m (srat + offsetof system_resource_affinity_table "reserved1") 1 in
        let '(m, numamem, numadata) :=
          srat_processors (Z.to_nat MaxCountCPUs) m (srat + sizeof system_resource_affinity_table) numadata 0 in
        let m := acpi_build_srat_memory m numamem 0 (640 * 1024) 0 1 in
        let '(m, numamem, numadata, slots) :=
          srat_nodes (Z.to_nat nb_numa_nodes) RamSize m (numamem + sizeof srat_memory_affinity) numadata 1 (1024 * 1024) 1 in
        let m := srat_empty (Z.to_nat (nb_numa_nodes + 2 - slots)) m numamem in
        let s := set_pmem s (build_header m srat SRAT_SIGNATURE srat_size 1) in
        (free s numadata, c, srat).

(** ** The root *)

(** [ACPI_INIT_TABLE]. *)
Definition ACPI_INIT_TABLE (tables : list Z) (x : Z) : list Z := if negb (x =? 0) then tables ++ [x] else tables.

Fixpoint external_tables (n : nat) (s : pmm) (c : qemu_cfg) (tables : list Z) : pmm * qemu_cfg * list Z :=
  match n with
  | O => (s, c, tables)
  | S n =>
      let '(len, c) := qemu_cfg_next_acpi_table_len c in
      let '(s, addr) := malloc_high s len in
      if addr =? 0 then external_tables n s c tables
      else
        let '(b, c) := qemu_cfg_next_acpi_table_load c len in
        let s := set_pmem s (store_bytes (pmem s) addr b) in
        let tables := ACPI_INIT_TABLE tables addr in
        if bool_decide (length tables = MAX_ACPI_TABLES) then (s, c, tables) else external_tables n s c tables
  end.

Definition fill_rsdp (m : memory) (rsdp rsdt : Z) : memory :=
  let f x := rsdp + offsetof rsdp_descriptor x in
  let m := memset m rsdp 0 (Z.to_nat (sizeof rsdp_descriptor)) in
  let m := writeq m (f "signature") RSDP_SIGNATURE in
  let m := store_bytes m (f "oem_id") CONFIG_APPNAME6 in
  let m := writel m (f "rsdt_physical_address") rsdt in
  writeb m (f "checksum") (u8 (m (f "checksum") - checksum m rsdp 20)).

(** [tables] as it is copied. *)
Fixpoint store_longs (m : memory) (a : Z) (l : list Z) : memory :=
  match l with [] => m | v :: l => store_longs (writel m a v) (a + 4) l end.

Definition fill_rsdt (m : memory) (rsdt : Z) (tables : list Z) : memory :=
  let rsdt_len := sizeof rsdt_descriptor_rev1 + 4 * Z.of_nat (length tables) in
  let m := memset m rsdt 0 (Z.to_nat rsdt_len) in
  let m := store_longs m (rsdt + sizeof rsdt_descriptor_rev1) tables in
  build_header m rsdt RSDT_SIGNATURE rsdt_len 1.

(** The manager, the configuration interface and [RsdpAddr], which is 0 before. *)
Definition acpi_bios_init {D} `{PciConfig D} (AmlCode : list Z) (d : D) (RamSize : Z) (s : pmm) (c : qemu_cfg)
  : option (pmm * qemu_cfg * Z) :=
  bdf ← pci_find_device d PCI_VENDOR_ID_INTEL PCI_DEVICE_ID_INTEL_82371AB_3;
  if bdf <? 0 then Some (s, c, 0)
  else
    let '(s, rsdp) := malloc_fseg s (sizeof rsdp_descriptor) in
    if rsdp =? 0 then Some (s, c, 0)
    else
      let '(s, fadt) := build_fadt AmlCode d bdf s in
      let tables := ACPI_INIT_TABLE [] fadt in
      let '(s, ssdt) := build_ssdt s in
      let tables := ACPI_INIT_TABLE tables ssdt in
      let '(s, c, madt) := build_madt s c in
      let tables := ACPI_INIT_TABLE tables madt in
      let '(s, hpet) := build_hpet s in
      let tables := ACPI_INIT_TABLE tables hpet in
      let '(s, c, srat) := build_srat RamSize s c in
      let tables := ACPI_INIT_TABLE tables srat in
      let '(count, c) := qemu_cfg_acpi_additional_tables qemu_cfg_present c in
      let '(s, c, tables) := external_tables (Z.to_nat count) s c tables in
      let rsdt_len := sizeof rsdt_descriptor_rev1 + 4 * Z.of_nat (length tables) in
      let '(s, rsdt) := malloc_high s rsdt_len in
      if rsdt =? 0 then Some (s, c, 0)
      else Some (set_pmem s (fill_rsdp (fill_rsdt (pmem s) rsdt tables) rsdp rsdt), c, rsdp).
End Counts.

(** The loop of [find_resume_vector], with [n] entries left. *)
Fixpoint find_facs (n : nat) (m : memory) (entry : Z) : Z :=
  match n with
  | O => 0
  | S n =>
      let fadt := readl m entry in
      if (fadt =? 0) || negb (readl m (fadt + offsetof fadt_descriptor_rev1 "signature") =? FACP_SIGNATURE)
      then find_facs n m (entry + 4)
      else
        let facs := readl m (fadt + offsetof fadt_descriptor_rev1 "firmware_ctrl") in
        if (facs =? 0) || negb (readl m (facs + offsetof facs_descriptor_rev1 "signature") =? FACS_SIGNATURE) then 0
        else readl m (facs + offsetof facs_descriptor_rev1 "firmware_waking_vector")
  end.

Definition find_resume_vector (m : memory) (RsdpAddr : Z) : Z :=
  if (RsdpAddr =? 0) || negb (readq m (RsdpAddr + offsetof rsdp_descriptor "signature") =? RSDP_SIGNATURE) then 0
  else
    let rsdt := readl m (RsdpAddr + offsetof rsdp_descriptor "rsdt_physical_address") in
    if (rsdt =? 0) || negb (readl m (rsdt + offsetof acpi_table_header "signature") =? RSDT_SIGNATURE) then 0
    else
      let len := readl m (rsdt + offsetof acpi_table_header "length") in
      find_facs (Z.to_nat ((len - sizeof rsdt_descriptor_rev1 + 3) / 4)) m (rsdt + sizeof rsdt_descriptor_rev1).

(** ** What a reader expects *)

(** A table with signature, length and a zero sum. *)
Definition table_ok (m : memory) (h sig len : Z) : Prop :=
  readl m h = sig /\ readl m (h + 4) = len /\ checksum m h len = 0.

Lemma build_header_spec m h sig len rev : bytes m -> 36 <= len -> in_u 32 sig -> in_u 32 len ->
  let m' := build_header m h sig len rev in
  bytes m' /\ table_ok m' h sig len /\ (forall x, ~ h <= x < h + 36 -> m' x = m x).
Proof.
  intros Hm Hl Hs Hlen. unfold build_header. cbv zeta. offsets. rewrite Z.add_0_r.
  set (m1 := writel (writel (writel (store_bytes _ _ _) _ _) _ _) _ _).
  assert (Hm1 : bytes m1) by (subst m1; auto 12 with tables).
  destruct (checksum_fix m1 h len (h + 9) Hm1 ltac:(lia) ltac:(lia)) as [Hc Hx].
  split; [by apply bytes_writeb|]. split.
  - split_and!; [..|done].
    + etransitivity; [apply readl_ext; intros; apply Hx; lia|]. subst m1.
      etransitivity; [apply readl_ext; intros; far; reflexivity|]. rewrite readl_writel. by apply wrap_small.
    + etransitivity; [apply readl_ext; intros; apply Hx; lia|]. subst m1.
      etransitivity; [apply readl_ext; intros; far; reflexivity|]. rewrite readl_writel. by apply wrap_small.
  - intros x Hr. rewrite Hx by lia. subst m1. by far.
Qed.

Lemma table_ok_ext m m' h sig len : 36 <= len -> (forall x, h <= x < h + len -> m' x = m x) -> table_ok m h sig len -> table_ok m' h sig len.
Proof.
  intros Hl Hx (H1 & H2 & H3). split_and!.
  - rewrite <- H1. apply readl_ext. intros. apply Hx. lia.
  - rewrite <- H2. apply readl_ext. intros. apply Hx. lia.
  - rewrite <- H3. by apply checksum_ext.
Qed.

Lemma table_supported a n sig len : 36 <= len <= n -> supported [(a, n)] (fun m => table_ok m a sig len).
Proof.
  intros Hl m m' Hx. apply table_ok_ext; [lia|]. intros x Hr. apply Hx, covered_cons. left. lia.
Qed.

Lemma holds_supported a n b l : a <= b -> b + Z.of_nat (length l) <= a + n -> supported [(a, n)] (fun m => holds m b l).
Proof. intros H1 H2 m m' Hx. apply holds_ext. intros x Hr. apply Hx, covered_cons. left. lia. Qed.

(** *** The timer *)

Definition hpet_ok (a : Z) (m : memory) : Prop :=
  table_ok m a HPET_SIGNATURE (sizeof acpi_20_hpet) /\ readl m (a + offsetof acpi_20_hpet "timer_block_id") = 0x8086a201 /\
  readq m (a + offsetof acpi_20_hpet "addr.address") = ACPI_HPET_ADDRESS.

Ltac fits := unfold fits; offsets; lia.

Lemma build_hpet_built s live : managed s live -> bytes (pmem s) ->
  exists live', built s live (build_hpet s).1 live' (build_hpet s).2 (hpet_ok (build_hpet s).2).
Proof.
  intros Hs Hb. unfold build_hpet, malloc_high. change MALLOC_MIN_ALIGN with (2 ^ 4).
  destruct (pmm_malloc s [] ZoneHigh PMM_DEFAULT_HANDLE (sizeof acpi_20_hpet) (2 ^ 4)) as [s1 a] eqn:E.
  destruct (managed_malloc s live ZoneHigh (sizeof acpi_20_hpet) 4 s1 a ltac:(done) ltac:(fits) Hs E) as [_ Hm1].
  destruct (built_alloc s live ZoneHigh (sizeof acpi_20_hpet) 4 s1 a (fill_hpet (pmem s1) a) (hpet_ok a) ltac:(done) ltac:(fits) Hs Hb E) as [live' H].
  - intros Ha Hr. rewrite Hm1. unfold fill_hpet. set (m1 := writeq _ _ _).
    assert (Hm : bytes m1) by (subst m1; auto 12 using bytes_writeq with tables).
    destruct (build_header_spec m1 a HPET_SIGNATURE (sizeof acpi_20_hpet) 1) as (B1 & B2 & B3); [done|offsets; lia|done|done|].
    split; [done|]. split; [|split; [done|]].
    + intros x Hx. revert Hx. offsets. intros Hx. rewrite B3 by lia. subst m1. offsets. rewrite writeq_other by lia. by far.
    + offsets. split.
      * etransitivity; [apply readl_ext; intros; apply B3; lia|]. subst m1. offsets.
        etransitivity; [apply readl_ext; intros; rewrite writeq_other by lia; reflexivity|]. by rewrite readl_writel.
      * etransitivity; [apply readq_ext; intros; apply B3; lia|]. subst m1. offsets. by rewrite readq_writeq.
  - unfold hpet_ok. apply supported_and; [apply table_supported; offsets; lia|]. apply supported_and; intros m m' Hx <-.
    + apply readl_ext. intros x Hr. apply Hx, covered_cons. left. revert Hr. offsets. lia.
    + apply readq_ext. intros x Hr. apply Hx, covered_cons. left. revert Hr. offsets. lia.
  - exists live'. revert H. by destruct (Z.eqb_spec a 0) as [->|].
Qed.

(** *** The processors, as objects *)

Definition acpi_cpus (MaxCountCPUs : Z) : Z := if 0xff <? MaxCountCPUs then 0xff else MaxCountCPUs.
Definition ssdt_length (n : Z) : Z := 36 + Z.of_nat (length (ssdt_bytes n)).
Definition ssdt_ok (n a : Z) (m : memory) : Prop :=
  table_ok m a SSDT_SIGNATURE (ssdt_length n) /\ holds m (a + 36) (ssdt_bytes n).

Lemma length_processors l : length (concat (map (fun i => ssdt_processor (Z.of_nat i)) l)) = (13 * length l)%nat.
Proof. induction l as [|i l IH]; [done|]. cbn [map concat]. rewrite length_app, IH. cbn [length]. change (length (ssdt_processor _)) with 13%nat. lia. Qed.

Lemma length_ssdt n : 0 <= n ->
  Z.of_nat (length (ssdt_bytes n)) = 1 + (if cpu_length n <=? 0x3e then 1 else 2) + cpu_length n.
Proof.
  intros Hn. unfold ssdt_bytes. rewrite !length_app, length_processors, length_seq. unfold cpu_length. case_test; cbn [length]; lia.
Qed.

Lemma hex_range x : 0 <= x < 16 -> in_u 8 (hex_digit x).
Proof. intros Hx. unfold hex_digit, in_u. case_test; lia. Qed.

Lemma ssdt_processor_bytes i : in_u 8 i -> Forall (in_u 8) (ssdt_processor i).
Proof.
  intros Hi. assert (in_u 8 (hex_digit (Z.land i 0xf))) as H1.
  { apply hex_range. change 0xf with (Z.ones 4). rewrite Z.land_ones by lia. apply Z.mod_pos_bound. lia. }
  assert (in_u 8 (hex_digit (Z.shiftr i 4))) as H2.
  { apply hex_range. rewrite Z.shiftr_div_pow2 by lia. unfold in_u in Hi. Z.to_euclidean_division_equations. lia. }
  unfold ssdt_processor. repeat apply Forall_cons_2; try done; try (unfold in_u; lia); by case_test.
Qed.

Lemma ssdt_in_bytes n : 0 <= n <= 255 -> Forall (in_u 8) (ssdt_bytes n).
Proof.
  intros Hn. unfold ssdt_bytes. repeat apply Forall_app_2.
  - by repeat constructor.
  - case_test; repeat apply Forall_cons_2; try apply Forall_nil_2; try (apply wrap_range; lia).
    apply lor_u8; [done|]. change 0xf with (Z.ones 4). rewrite Z.land_ones by lia. unfold in_u.
    pose proof (Z.mod_pos_bound (cpu_length n + 2) (2 ^ 4)). lia.
  - by repeat constructor.
  - apply Forall_concat, Forall_forall. intros l (i & -> & Hi)%list_elem_of_fmap. apply elem_of_seq in Hi.
    apply ssdt_processor_bytes. unfold in_u. lia.
Qed.

Lemma build_ssdt_built Max s live : 0 <= Max -> managed s live -> bytes (pmem s) ->
  exists live', built s live (build_ssdt Max s).1 live' (build_ssdt Max s).2 (ssdt_ok (acpi_cpus Max) (build_ssdt Max s).2).
Proof.
  intros HMax Hs Hb. unfold build_ssdt, malloc_high. fold (acpi_cpus Max). set (n := acpi_cpus Max).
  assert (0 <= n <= 255) as Hn by (unfold n, acpi_cpus; case_test; lia). clearbody n.
  change MALLOC_MIN_ALIGN with (2 ^ 4). set (size := sizeof acpi_table_header + 3 + cpu_length n).
  assert (size = 39 + cpu_length n) as Hsz by (unfold size; offsets; lia). clearbody size.
  assert (fits size 4) as Hf by (unfold fits, cpu_length in *; lia).
  pose proof (length_ssdt n ltac:(lia)) as Hlen. pose proof (ssdt_in_bytes n Hn) as Hby. set (l := ssdt_bytes n) in *.
  assert (36 <= ssdt_length n <= size) as Hl by (unfold ssdt_length; fold l; revert Hlen; case_test; lia).
  destruct (pmm_malloc s [] ZoneHigh PMM_DEFAULT_HANDLE size (2 ^ 4)) as [s1 a] eqn:E.
  destruct (managed_malloc s live ZoneHigh size 4 s1 a ltac:(done) Hf Hs E) as [_ Hm1].
  set (m1 := store_bytes (writeb (pmem s1) (a + 9) 0) (a + sizeof acpi_table_header) l).
  destruct (built_alloc s live ZoneHigh size 4 s1 a (build_header m1 a SSDT_SIGNATURE (sizeof acpi_table_header + Z.of_nat (length l)) 1)
    (ssdt_ok n a) ltac:(done) Hf Hs Hb E) as [live' H].
  - intros Ha Hr. assert (bytes m1) as Hmb by (subst m1; rewrite Hm1; auto with tables).
    change (sizeof acpi_table_header) with 36. fold (ssdt_length n).
    destruct (build_header_spec m1 a SSDT_SIGNATURE (ssdt_length n) 1) as (B1 & B2 & B3); [done|lia|done|unfold in_u; lia|].
    split; [done|]. split; [|split; [done|]].
    + intros x Hx. rewrite B3 by lia. subst m1. offsets. rewrite Hm1, store_bytes_other by (fold l in Hl; unfold ssdt_length in Hl; fold l in Hl; lia).
      apply writeb_other. lia.
    + eapply holds_ext; [|by apply (holds_store (writeb (pmem s1) (a + 9) 0))]. intros x Hx. rewrite B3 by lia. done.
  - unfold ssdt_ok. apply supported_and; [by apply table_supported|]. apply holds_supported; [lia|].
    unfold ssdt_length in Hl. fold l in Hl |- *. lia.
  - exists live'. revert H. by destruct (Z.eqb_spec a 0) as [->|].
Qed.

(** *** Interrupt controllers *)

Definition processor_entry (CountCPUs i : Z) : list Z := [0; 8; u8 i; u8 i; if i <? CountCPUs then 1 else 0; 0; 0; 0].
Definition io_apic_entry (id : Z) : list Z := [1; 12; u8 id; 0; 0; 0; 0xc0; 0xfe; 0; 0; 0; 0].
Definition override_entry (source gsi flags : Z) : list Z := [2; 10; 0; source; gsi; 0; 0; 0; flags; 0].

(** One entry for each processor, the controller, line 0 when it is moved, and the level
    triggered lines of PCI interrupts. *)
Definition madt_entries (CountCPUs MaxCountCPUs : Z) (override : bool) : list (list Z) :=
  map (fun k => processor_entry CountCPUs (Z.of_nat k)) (seq 0 (Z.to_nat MaxCountCPUs)) ++ [io_apic_entry CountCPUs] ++
  (if override then [override_entry 0 2 0] else []) ++ map (fun i => override_entry i i 0xd) [5; 9; 10; 11].

Definition madt_length (es : list (list Z)) : Z := 44 + Z.of_nat (length (concat es)).
Definition madt_ok (es : list (list Z)) (a : Z) (m : memory) : Prop :=
  table_ok m a APIC_SIGNATURE (madt_length es) /\ readl m (a + 36) = BUILD_APIC_ADDR /\ readl m (a + 40) = 1 /\ holds m (a + 44) (concat es).

Section Madt.
Context (CountCPUs MaxCountCPUs : Z) (qemu_cfg_present : bool) (m0 : memory) (base : Z).

Lemma put_processors_emitted n es m pos i : emitted m0 base es 0 m pos ->
  let '(m', pos') := put_processors n m pos i CountCPUs in
  pos' = pos + 8 * Z.of_nat n /\
  emitted m0 base (es ++ map (fun k => processor_entry CountCPUs (i + Z.of_nat k)) (seq 0 n)) 0 m' pos'.
Proof using.
  revert es m pos i. induction n as [|n IH]; intros es m pos i Hm; cbn [put_processors].
  { cbn. rewrite app_nil_r, Z.add_0_r. done. }
  set (m' := writel _ _ _). change (sizeof madt_processor_apic) with 8.
  assert (emitted m0 base (es ++ [processor_entry CountCPUs i]) 0 m' (pos + 8)) as H1.
  { apply (emitted_snoc m0 base es 0 m pos (processor_entry CountCPUs i)); [done|cbn; lia|..].
    - pose proof (em_bytes _ _ _ _ _ _ Hm). subst m'. auto 20 with tables.
    - unfold processor_entry. subst m'. offsets. destruct (i <? CountCPUs); bytewise 8.
    - intros x Hx. cbn in Hx. subst m'. offsets. by far. }
  clearbody m'. specialize (IH _ _ _ (i + 1) H1). destruct (put_processors n m' (pos + 8) (i + 1) CountCPUs) as [m2 pos2].
  destruct IH as [-> H2]. split; [lia|]. rewrite <- app_assoc in H2.
  replace (map _ (seq 0 (S n))) with ([processor_entry CountCPUs i] ++ map (fun k => processor_entry CountCPUs (i + 1 + Z.of_nat k)) (seq 0 n)); [done|].
  cbn [seq map app]. f_equal; [f_equal; lia|]. rewrite <- seq_shift, map_map. apply map_ext. intros k. f_equal. lia.
Qed.

Lemma put_override_emitted es slack m pos source gsi flags : emitted m0 base es slack m pos -> slack <= 10 ->
  (source, gsi, flags) ∈ [(0, 2, 0); (5, 5, 0xd); (9, 9, 0xd); (10, 10, 0xd); (11, 11, 0xd)] ->
  emitted m0 base (es ++ [override_entry source gsi flags]) 0 (put_intsrcovr m pos source gsi flags) (pos + 10).
Proof using.
  intros Hm Hs Hin. apply (emitted_snoc m0 base es slack m pos (override_entry source gsi flags)); [done|cbn; lia|..].
  - pose proof (em_bytes _ _ _ _ _ _ Hm). unfold put_intsrcovr. auto 20 with tables.
  - unfold put_intsrcovr, override_entry. offsets.
    repeat (apply elem_of_cons in Hin as [[= -> -> ->]|Hin]; [bytewise 10|]). by apply elem_of_nil in Hin.
  - intros x Hx. cbn in Hx. unfold put_intsrcovr. offsets. by far.
Qed.

Lemma put_io_apic_emitted es m pos : emitted m0 base es 0 m pos -> m0 (pos + 3) = 0 ->
  emitted m0 base (es ++ [io_apic_entry CountCPUs]) 0 (put_io_apic m pos CountCPUs) (pos + 12).
Proof using.
  intros Hm H0. assert (m (pos + 3) = 0) as H3 by (rewrite <- H0; apply (em_frame _ _ _ _ _ _ Hm); lia).
  apply (emitted_snoc m0 base es 0 m pos (io_apic_entry CountCPUs)); [done|cbn; lia|..].
  - pose proof (em_bytes _ _ _ _ _ _ Hm). unfold put_io_apic. auto 20 with tables.
  - unfold put_io_apic, io_apic_entry. offsets. intros k v Hk.
    do 3 (destruct k as [|k]; [injection Hk as <-; byte; try reflexivity|]).
    destruct k as [|k]; [injection Hk as <-; change (Z.of_nat 3) with 3; by byte|].
    do 8 (destruct k as [|k]; [injection Hk as <-; byte; try reflexivity|]). done.
  - intros x Hx. cbn in Hx. unfold put_io_apic. offsets. by far.
Qed.

Lemma put_overrides_emitted es m pos : emitted m0 base es 0 m pos ->
  let '(m', pos') := put_overrides [1; 2; 3; 4; 5; 6; 7; 8; 9; 10; 11; 12; 13; 14; 15] m pos in
  pos' = pos + 40 /\ emitted m0 base (es ++ map (fun i => override_entry i i 0xd) [5; 9; 10; 11]) 0 m' pos'.
Proof using.
  intros Hm. cbn -[put_intsrcovr sizeof override_entry]. change (sizeof madt_intsrcovr) with 10. split; [lia|].
  assert (forall es m pos i, emitted m0 base es 0 m pos -> i ∈ [5; 9; 10; 11] ->
    emitted m0 base (es ++ [override_entry i i 0xd]) 0 (put_intsrcovr m pos i i 0xd) (pos + 10)) as Hp.
  { intros es' m' pos' i H Hi. apply (put_override_emitted _ 0); [done|lia|]. 
    repeat (apply elem_of_cons in Hi as [->|Hi]; [set_solver|]). by apply elem_of_nil in Hi. }
  pose proof (Hp _ _ _ 5 Hm ltac:(set_solver)) as H1. pose proof (Hp _ _ _ 9 H1 ltac:(set_solver)) as H2.
  pose proof (Hp _ _ _ 10 H2 ltac:(set_solver)) as H3. pose proof (Hp _ _ _ 11 H3 ltac:(set_solver)) as H4.
  rewrite <- !app_assoc in H4. exact H4.
Qed.
End Madt.

Lemma length_madt_entries CountCPUs MaxCountCPUs o : 0 <= MaxCountCPUs ->
  Z.of_nat (length (concat (madt_entries CountCPUs MaxCountCPUs o))) = 8 * MaxCountCPUs + 52 + (if o : bool then 10 else 0).
Proof.
  intros HM. unfold madt_entries. rewrite !concat_app, !length_app.
  assert (forall l, length (concat (map (fun k => processor_entry CountCPUs (Z.of_nat k)) l)) = (8 * length l)%nat) as ->.
  { induction l as [|k l IH]; [done|]. cbn [map concat]. rewrite length_app, IH. cbn [length]. change (length (processor_entry _ _)) with 8%nat. lia. }
  rewrite length_seq. cbn. destruct o; cbn; lia.
Qed.

(** All entries, in memory that was cleared. *)
Lemma fill_madt_spec CountCPUs MaxCountCPUs present m c madt : 0 <= MaxCountCPUs -> bytes m -> m (madt + 44 + 8 * MaxCountCPUs + 3) = 0 ->
  let es := madt_entries CountCPUs MaxCountCPUs (negb ((qemu_cfg_irq0_override present c).1 =? 0)) in
  let m1 := writel (writel m (madt + 36) BUILD_APIC_ADDR) (madt + 40) 1 in
  let '(m', _, p) := fill_madt CountCPUs MaxCountCPUs present m c madt in
  p = madt + madt_length es /\ emitted m1 (madt + 44) es 0 m' p.
Proof.
  intros HM Hm H0 es m1. unfold fill_madt. offsets. fold m1.
  assert (emitted m1 (madt + 44) [] 0 m1 (madt + 44)) as He by (split; [subst m1; auto with tables|done|cbn; lia|done]).
  pose proof (put_processors_emitted CountCPUs m1 (madt + 44) (Z.to_nat MaxCountCPUs) _ _ _ 0 He) as H1. 
  destruct (put_processors _ _ _ _ _) as [m2 p2]. destruct H1 as [-> H1]. cbn [app] in H1. rewrite Z2Nat.id in * by done.
  apply put_io_apic_emitted with (CountCPUs := CountCPUs) in H1; [|subst m1; far; exact H0].
  change (sizeof madt_io_apic) with 12. change (sizeof madt_intsrcovr) with 10.
  destruct (qemu_cfg_irq0_override present c) as [o c'] eqn:Eo. cbn [fst] in es.
  set (pos := madt + 44 + 8 * MaxCountCPUs + 12) in *.
  assert (let '(m3, p3) := if negb (o =? 0) then (put_intsrcovr (put_io_apic m2 (madt + 44 + 8 * MaxCountCPUs) CountCPUs) pos 0 2 0, pos + 10)
                           else (put_io_apic m2 (madt + 44 + 8 * MaxCountCPUs) CountCPUs, pos) in
    emitted m1 (madt + 44) ((map (fun k => processor_entry CountCPUs (0 + Z.of_nat k)) (seq 0 (Z.to_nat MaxCountCPUs)) ++ [io_apic_entry CountCPUs])
      ++ if negb (o =? 0) then [override_entry 0 2 0] else []) 0 m3 p3) as H2.
  { destruct (negb (o =? 0)); [apply (put_override_emitted _ _ _ 0); [done|lia|set_solver]|by rewrite app_nil_r]. }
  destruct (if negb (o =? 0) then _ else _) as [m3 p3]. pose proof (put_overrides_emitted _ _ _ _ _ H2) as H3.
  destruct (put_overrides _ _ _) as [m4 p4]. destruct H3 as [-> H3].
  assert (emitted m1 (madt + 44) es 0 m4 (p3 + 40)) as H4 by (unfold es, madt_entries; rewrite <- !app_assoc in H3; exact H3).
  split; [|exact H4]. rewrite (em_pos _ _ _ _ _ _ H4). unfold madt_length. lia.
Qed.

Lemma build_madt_built CountCPUs Max present s live c : 0 <= Max <= 2 ^ 16 -> managed s live -> bytes (pmem s) ->
  let es := madt_entries CountCPUs Max (negb ((qemu_cfg_irq0_override present c).1 =? 0)) in
  let '(s', _, a) := build_madt CountCPUs Max present s c in exists live', built s live s' live' a (madt_ok es a).
Proof.
  intros HMax Hs Hb es. unfold build_madt, malloc_high. change MALLOC_MIN_ALIGN with (2 ^ 4).
  set (size := s32 _). assert (size = 216 + 8 * Max) as Hsz by (unfold size; offsets; rewrite swrap_small; lia). clearbody size.
  assert (fits size 4) as Hf by (unfold fits; lia).
  assert (36 <= 44 <= madt_length es /\ madt_length es <= size) as Hl.
  { unfold madt_length, es. rewrite length_madt_entries by lia. case_match; lia. }
  destruct (pmm_malloc s [] ZoneHigh PMM_DEFAULT_HANDLE size (2 ^ 4)) as [s1 a] eqn:E.
  destruct (managed_malloc s live ZoneHigh size 4 s1 a ltac:(done) Hf Hs E) as [_ Hm1].
  set (m := memset (pmem s1) a 0 (Z.to_nat size)).
  assert (bytes m) as Hm by (subst m; rewrite Hm1; auto with tables).
  pose proof (fill_madt_spec CountCPUs Max present m c a ltac:(lia) Hm) as Hfill. fold es in Hfill.
  assert (m (a + 44 + 8 * Max + 3) = 0) as Hz by (subst m; rewrite memset_in by lia; done). specialize (Hfill Hz). cbv zeta in Hfill.
  destruct (fill_madt CountCPUs Max present m c a) as [[m2 c2] p] eqn:Ef. destruct Hfill as [-> Hem].
  replace (a + madt_length es - a) with (madt_length es) by lia.
  destruct (built_alloc s live ZoneHigh size 4 s1 a (build_header m2 a APIC_SIGNATURE (madt_length es) 1) (madt_ok es a)
    ltac:(done) Hf Hs Hb E) as [live' H].
  - intros Ha Hr.
    destruct (build_header_spec m2 a APIC_SIGNATURE (madt_length es) 1) as (B1 & B2 & B3);
      [apply Hem|lia|done|unfold in_u; lia|]. split; [done|].
    assert (forall x, ~ a + 44 <= x < a + madt_length es -> m2 x = writel (writel m (a + 36) BUILD_APIC_ADDR) (a + 40) 1 x) as Hfr.
    { intros x Hx. apply (em_frame _ _ _ _ _ _ Hem). unfold madt_length in *. lia. }
    split; [|split; [done|split; [|split]]].
    + intros x Hx. rewrite B3, Hfr by lia. far. subst m. rewrite memset_other by lia. by rewrite Hm1.
    + etransitivity; [apply readl_ext; intros; rewrite B3, Hfr by lia; far; reflexivity|]. by rewrite readl_writel.
    + etransitivity; [apply readl_ext; intros; rewrite B3, Hfr by lia; reflexivity|]. by rewrite readl_writel.
    + eapply holds_ext; [|apply Hem]. intros x Hx. apply B3. lia.
  - unfold madt_ok. apply supported_and; [apply table_supported; lia|]. apply supported_and; [|apply supported_and].
    + intros m' m'' Hx <-. apply readl_ext. intros x Hx'. apply Hx, covered_cons. left. lia.
    + intros m' m'' Hx <-. apply readl_ext. intros x Hx'. apply Hx, covered_cons. left. lia.
    + apply holds_supported; [lia|]. unfold madt_length in *. lia.
  - destruct (Z.eqb_spec a 0) as [->|]; by exists live'.
Qed.

(** *** The fixed description *)

Record fadt_ok (AmlCode : list Z) (a facs dsdt : Z) (m : memory) : Prop := {
  fadt_table : table_ok m a FACP_SIGNATURE (sizeof fadt_descriptor_rev1);
  fadt_facs : readl m (a + offsetof fadt_descriptor_rev1 "firmware_ctrl") = facs;
  fadt_dsdt : readl m (a + offsetof fadt_descriptor_rev1 "dsdt") = dsdt;
  facs_there : facs <> 0 /\ readl m facs = FACS_SIGNATURE /\ readl m (facs + 4) = sizeof facs_descriptor_rev1;
  dsdt_there : holds m dsdt AmlCode }.

Lemma fill_facs_spec m facs : bytes m -> let m' := fill_facs m facs in
  bytes m' /\ readl m' facs = FACS_SIGNATURE /\ readl m' (facs + 4) = sizeof facs_descriptor_rev1 /\
  forall x, ~ facs <= x < facs + 64 -> m' x = m x.
Proof.
  intros Hm m'. subst m'. unfold fill_facs. offsets. rewrite Z.add_0_r. split_and!.
  - auto with tables.
  - etransitivity; [apply readl_ext; intros; far; reflexivity|]. by rewrite readl_writel.
  - by rewrite readl_writel.
  - intros x Hx. by far.
Qed.

Lemma fill_fadt_spec m fadt facs dsdt sci : bytes m -> in_u 32 facs -> in_u 32 dsdt -> let m' := fill_fadt m fadt facs dsdt sci in
  bytes m' /\ table_ok m' fadt FACP_SIGNATURE (sizeof fadt_descriptor_rev1) /\ readl m' (fadt + 36) = facs /\ readl m' (fadt + 40) = dsdt /\
  forall x, ~ fadt <= x < fadt + 116 -> m' x = m x.
Proof.
  intros Hm H1 H2 m'. subst m'. unfold fill_fadt. cbv zeta. set (m1 := writel _ (fadt + offsetof fadt_descriptor_rev1 "flags") _).
  assert (bytes m1) as Hb by (subst m1; auto 30 with tables).
  destruct (build_header_spec m1 fadt FACP_SIGNATURE (sizeof fadt_descriptor_rev1) 1) as (B1 & B2 & B3); [done|offsets; lia|done|done|].
  split_and!; [done|done| | |].
  - etransitivity; [apply readl_ext; intros; rewrite B3 by lia; reflexivity|]. subst m1. offsets.
    etransitivity; [apply readl_ext; intros; far; reflexivity|]. rewrite readl_writel. by apply wrap_small.
  - etransitivity; [apply readl_ext; intros; rewrite B3 by lia; reflexivity|]. subst m1. offsets.
    etransitivity; [apply readl_ext; intros; far; reflexivity|]. rewrite readl_writel. by apply wrap_small.
  - intros x Hx. rewrite B3 by lia. subst m1. offsets. by far.
Qed.
