(* ===== verification/AcpiFound.v ===== *)
(** * Finding the ACPI tables

    The tables that [acpi_bios_init] of [bios/seabios/src/acpi.c] leaves are the ones a
    reader finds from the root pointer, and a vector stored there is found again by
    [find_resume_vector]. *)

From S2P Require Import Prelude BiosUtil Pmm Alloc Bregs Ports Block Pci Output Paravirt Tables MpTable Acpi.
Local Open Scope Z_scope.
Local Open Scope coremu_scope.

Lemma alloc_incl (a n : Z) (live : list (Z * Z)) : live ⊆ (if a =? 0 then live else (a, n) :: live).
Proof. case_test; [done|]. intros b Hb. by right. Qed.

(** ** Requests for memory

    Which blocks the manager hands out depends on the sizes asked for, not on what is
    stored in them. *)

Definition request : Type := zone * Z * Z.   (* a zone, a size, and [k] for an alignment of [2 ^ k] *)

Fixpoint grants (s : pmm) (l : list request) : pmm * list Z :=
  match l with
  | [] => (s, [])
  | (z, n, k) :: l =>
      let '(s, a) := pmm_malloc s [] z PMM_DEFAULT_HANDLE n (2 ^ k) in
      let '(s, as_) := grants s l in (s, a :: as_)
  end.

Lemma grants_pmem s m l : Forall (fun r : request => r.1.1 <> ZoneLow) l ->
  grants (set_pmem s m) l = (set_pmem (grants s l).1 m, (grants s l).2).
Proof.
  intros Hl. revert s. induction Hl as [|[[z n] k] l Hz Hl IH]; intros s; [done|]. cbn [grants]. cbn in Hz.
  rewrite pmm_malloc_pmem by done. destruct (pmm_malloc s [] z _ _ _) as [s1 a]. cbn [fst snd].
  rewrite IH. by destruct (grants s1 l).
Qed.

Lemma grants_app s l l' : grants s (l ++ l') =
  let '(s1, as1) := grants s l in let '(s2, as2) := grants s1 l' in (s2, as1 ++ as2).
Proof.
  revert s. induction l as [|[[z n] k] l IH]; intros s; cbn [grants app].
  - by destruct (grants s l').
  - destruct (pmm_malloc s [] z _ _ _) as [s1 a]. rewrite IH. destruct (grants s1 l) as [s2 as2].
    by destruct (grants s2 l').
Qed.

(** The manager after requests, up to the contents of memory. *)
Definition granted (s : pmm) (l : list request) (s' : pmm) (as_ : list Z) : Prop :=
  exists s1 m, grants s l = (s1, as_) /\ s' = set_pmem s1 m.

Lemma granted_then s l s1 as1 l' s2 as2 : Forall (fun r : request => r.1.1 <> ZoneLow) l' ->
  granted s l s1 as1 -> granted s1 l' s2 as2 -> granted s (l ++ l') s2 (as1 ++ as2).
Proof.
  intros Hl (t1 & m1 & E1 & ->) (t2 & m2 & E2 & ->). rewrite grants_pmem in E2 by done. injection E2 as <- <-.
  exists (grants t1 l').1, m2. rewrite grants_app, E1. split; [|done]. by destruct (grants t1 l').
Qed.

Lemma granted_one s z n k s1 a m : pmm_malloc s [] z PMM_DEFAULT_HANDLE n (2 ^ k) = (s1, a) -> granted s [(z, n, k)] (set_pmem s1 m) [a].
Proof. intros E. exists s1, m. cbn [grants]. by rewrite E. Qed.

Definition fadt_requests (AmlCode : list Z) : list request :=
  [(ZoneHigh, 116, 4); (ZoneHigh, 64, 6); (ZoneHigh, Z.of_nat (length AmlCode), 4)].
Definition ssdt_request (MaxCountCPUs : Z) : request := (ZoneHigh, 43 + 13 * acpi_cpus MaxCountCPUs, 4).
Definition madt_request (MaxCountCPUs : Z) : request := (ZoneHigh, 44 + 8 * MaxCountCPUs + 12 + 10 * 16, 4).
Definition hpet_request : request := (ZoneHigh, 56, 4).

Lemma build_ssdt_granted MaxCountCPUs s :
  let '(s', a) := build_ssdt MaxCountCPUs s in granted s [ssdt_request MaxCountCPUs] s' [a].
Proof.
  unfold build_ssdt, malloc_high. change MALLOC_MIN_ALIGN with (2 ^ 4). fold (acpi_cpus MaxCountCPUs).
  change (sizeof acpi_table_header) with 36. unfold cpu_length, ssdt_request.
  replace (36 + 3 + (13 * acpi_cpus MaxCountCPUs + 4)) with (43 + 13 * acpi_cpus MaxCountCPUs) by lia.
  destruct (pmm_malloc s [] ZoneHigh _ _ _) as [s1 a] eqn:E. destruct (Z.eqb_spec a 0) as [->|]; [|by apply granted_one].
  rewrite <- (set_pmem_id s1). by apply granted_one.
Qed.

Lemma build_madt_granted CountCPUs MaxCountCPUs qemu s c : 0 <= MaxCountCPUs <= 2 ^ 16 ->
  let '(s', _, a) := build_madt CountCPUs MaxCountCPUs qemu s c in granted s [madt_request MaxCountCPUs] s' [a].
Proof.
  intros HM. unfold build_madt, malloc_high. change MALLOC_MIN_ALIGN with (2 ^ 4).
  assert (s32 (sizeof multiple_apic_table + sizeof madt_processor_apic * MaxCountCPUs + sizeof madt_io_apic
    + sizeof madt_intsrcovr * 16) = 44 + 8 * MaxCountCPUs + 12 + 10 * 16) as -> by (offsets; rewrite swrap_small; lia).
  destruct (pmm_malloc s [] ZoneHigh _ _ _) as [s1 a] eqn:E. unfold madt_request. destruct (Z.eqb_spec a 0) as [->|].
  - rewrite <- (set_pmem_id s1). by apply granted_one.
  - destruct (fill_madt _ _ _ _ _ _) as [[m c1] p]. by apply granted_one.
Qed.

Lemma build_hpet_granted s : let '(s', a) := build_hpet s in granted s [hpet_request] s' [a].
Proof.
  unfold build_hpet, malloc_high. change MALLOC_MIN_ALIGN with (2 ^ 4). change (sizeof acpi_20_hpet) with 56.
  destruct (pmm_malloc s [] ZoneHigh _ _ _) as [s1 a] eqn:E. destruct (Z.eqb_spec a 0) as [->|]; [|by apply granted_one].
  rewrite <- (set_pmem_id s1). by apply granted_one.
Qed.

Lemma fadt_between AmlCode a facs dsdt live live' :
  (forall x, a <= x < a + 116 \/ facs <= x < facs + 64 \/ dsdt <= x < dsdt + Z.of_nat (length AmlCode) -> covered live' x /\ ~ covered live x) ->
  between live live' (fadt_ok AmlCode a facs dsdt).
Proof.
  intros Hc m m' Hx [F1 F2 F3 (F4 & F5 & F6) F7].
  assert (forall x, a <= x < a + 116 \/ facs <= x < facs + 64 \/ dsdt <= x < dsdt + Z.of_nat (length AmlCode) -> m' x = m x) as Hin
    by (intros x Hr; apply Hx; by apply Hc).
  split.
  - change (sizeof fadt_descriptor_rev1) with 116 in *. eapply table_ok_ext; [lia| |exact F1]. intros x Hr. apply Hin. by left.
  - rewrite <- F2. apply readl_ext. intros x. offsets. intros Hr. apply Hin. lia.
  - rewrite <- F3. apply readl_ext. intros x. offsets. intros Hr. apply Hin. lia.
  - split; [done|]. split; [rewrite <- F5|rewrite <- F6]; apply readl_ext; intros x Hr; apply Hin; lia.
  - eapply holds_ext; [|exact F7]. intros x Hr. apply Hin. by right; right.
Qed.

Lemma build_fadt_built {D} `{PciConfig D} AmlCode (d : D) bdf s live :
  managed s live -> bytes (pmem s) -> Forall (in_u 8) AmlCode -> 1 <= Z.of_nat (length AmlCode) <= 2 ^ 16 ->
  let '(s', a) := build_fadt AmlCode d bdf s in
  exists live' fadt facs dsdt, built s live s' live' a (fadt_ok AmlCode a facs dsdt) /\ (a <> 0 -> (a, 116) ∈ live' /\ (facs, 64) ∈ live') /\
    granted s (fadt_requests AmlCode) s' [fadt; facs; dsdt] /\
    a = if (fadt =? 0) || (facs =? 0) || (dsdt =? 0) then 0 else fadt.
Proof.
  intros Hs Hb Haml Hn. unfold build_fadt, malloc_high, memalign_high. change MALLOC_MIN_ALIGN with (2 ^ 4). change 64 with (2 ^ 6) at 1.
  destruct (pmm_malloc s [] ZoneHigh _ _ _) as [s1 fadt] eqn:E1.
  destruct (managed_malloc _ _ ZoneHigh (sizeof fadt_descriptor_rev1) 4 _ _ ltac:(done) ltac:(fits) Hs E1) as [Hs1 Hm1].
  destruct (pmm_malloc s1 [] ZoneHigh _ _ _) as [s2 facs] eqn:E2.
  destruct (managed_malloc _ _ ZoneHigh (sizeof facs_descriptor_rev1) 6 _ _ ltac:(done) ltac:(fits) Hs1 E2) as [Hs2 Hm2].
  destruct (pmm_malloc s2 [] ZoneHigh _ _ _) as [s3 dsdt] eqn:E3.
  destruct (managed_malloc _ _ ZoneHigh (Z.of_nat (length AmlCode)) 4 _ _ ltac:(done) ltac:(fits) Hs2 E3) as [Hs3 Hm3].
  revert Hs1 Hs2 Hs3. change (sizeof fadt_descriptor_rev1) with 116. change (sizeof facs_descriptor_rev1) with 64. intros Hs1 Hs2 Hs3.
  assert (forall m, granted s (fadt_requests AmlCode) (set_pmem s3 m) [fadt; facs; dsdt]) as Hg.
  { intros m. exists s3, m. split; [|done]. unfold fadt_requests. cbn [grants].
    change (sizeof fadt_descriptor_rev1) with 116 in E1. change (sizeof facs_descriptor_rev1) with 64 in E2. by rewrite E1, E2, E3. }
  destruct ((fadt =? 0) || (facs =? 0) || (dsdt =? 0)) eqn:Hz.
  { eexists _, fadt, facs, dsdt. rewrite Hz. split; [|split; [done|split; [|done]]]; [|rewrite <- (set_pmem_id s3); apply Hg]. eapply built_waiting; [exact Hs3| |done|congruence].
    do 2 (etransitivity; [|apply alloc_incl]). apply alloc_incl. }
  pose proof Hz as Hz'. apply orb_false_iff in Hz as [[Z1 Z2]%orb_false_iff Z3]. rewrite Z1 in Hs1, Hs2, Hs3. rewrite Z2 in Hs2, Hs3. rewrite Z3 in Hs3.
  destruct (apart_head _ _ _ (managed_apart _ _ Hs1)) as (A1 & B1 & C1).
  destruct (apart_head _ _ _ (managed_apart _ _ Hs2)) as (A2 & B2 & C2).
  destruct (apart_head _ _ _ (managed_apart _ _ Hs3)) as (A3 & B3 & C3).
  set (live3 := _ :: _ :: _ :: live) in *.
  assert (pmem s3 = pmem s) as -> by congruence.
  destruct (fill_facs_spec (pmem s) facs Hb) as (F1 & F2 & F3 & F4). set (m1 := fill_facs _ _) in *.
  set (m2 := store_bytes m1 dsdt AmlCode). assert (bytes m2) as Hm2b by (subst m2; auto with tables).
  destruct (fill_fadt_spec m2 fadt facs dsdt (pci_config_readb d bdf PCI_INTERRUPT_LINE) Hm2b) as (G1 & G2 & G3 & G4 & G5);
    [unfold in_u; lia..|]. set (m3 := fill_fadt _ _ _ _ _) in *.
  assert (forall x, covered live x -> ~ fadt <= x < fadt + 116 /\ ~ facs <= x < facs + 64 /\ ~ dsdt <= x < dsdt + Z.of_nat (length AmlCode)) as Hlive.
  { intros x Hx. split_and!; intros Hr; [by apply (C1 x)|apply (C2 x)|apply (C3 x)]; try done; rewrite !covered_cons; auto. }
  assert (forall x, facs <= x < facs + 64 -> ~ fadt <= x < fadt + 116 /\ ~ dsdt <= x < dsdt + Z.of_nat (length AmlCode)) as Hfacs.
  { intros x Hx. split; intros Hr; [apply (C2 x)|apply (C3 x)]; try done; rewrite !covered_cons; auto. }
  assert (forall x, dsdt <= x < dsdt + Z.of_nat (length AmlCode) -> ~ fadt <= x < fadt + 116) as Hdsdt.
  { intros x Hx Hr. apply (C3 x); [done|]. rewrite !covered_cons. auto. }
  assert (forall x, ~ fadt <= x < fadt + 116 -> ~ facs <= x < facs + 64 -> ~ dsdt <= x < dsdt + Z.of_nat (length AmlCode) -> m3 x = pmem s x) as Hother.
  { intros x H1 H2 H3. rewrite G5 by done. subst m2. rewrite store_bytes_other by lia. by apply F4. }
  assert (forall x, facs <= x < facs + 64 -> m3 x = m1 x) as Hat.
  { intros x Hx. destruct (Hfacs x Hx). rewrite G5 by done. subst m2. apply store_bytes_other. lia. }
  exists live3, fadt, facs, dsdt. rewrite Hz'. split; [split; cbn [pmem set_pmem]|split; [|split; [apply Hg|done]]].
  - by apply managed_set_pmem.
  - done.
  - unfold in_u. lia.
  - intros b Hin. do 3 right. exact Hin.
  - intros x Hx. destruct (Hlive x Hx) as (? & ? & ?). by apply Hother.
  - intros x Hx. unfold live3 in Hx. rewrite !covered_cons in Hx. apply Hother; tauto.
  - intros _. split; [|apply fadt_between; intros x Hx; split; [unfold live3; rewrite !covered_cons; tauto|intros Hl; destruct (Hlive x Hl); tauto]].
    split; [exact G2|exact G3|exact G4| |].
    + split; [lia|]. split; (etransitivity; [apply readl_ext; intros x Hx; apply Hat; lia|done]).
    + eapply holds_ext; [|by apply (holds_store m1)]. intros x Hx. apply G5. by apply Hdsdt.
  - intros _. subst live3. rewrite !elem_of_cons. auto.
Qed.

(** ** The root tables *)

Lemma store_longs_spec l m a : bytes m -> Forall (in_u 32) l -> bytes (store_longs m a l) /\
  (forall k v, l !! k = Some v -> readl (store_longs m a l) (a + 4 * Z.of_nat k) = v) /\
  (forall x, ~ a <= x < a + 4 * Z.of_nat (length l) -> store_longs m a l x = m x).
Proof.
  intros Hm Hl. revert m a Hm. induction Hl as [|v l Hv Hl IH]; intros m a Hm; cbn [store_longs length]; [done|].
  destruct (IH (writel m a v) (a + 4)) as (H1 & H2 & H3); [auto with tables|]. split_and!; [done|..].
  - intros [|k] w Hk; cbn in Hk.
    + simplify_eq. etransitivity; [apply readl_ext; intros x Hx; apply H3; lia|].
      replace (a + 4 * Z.of_nat 0) with a by lia. rewrite readl_writel. by apply wrap_small.
    + rewrite <- (H2 k w Hk). f_equal. lia.
  - intros x Hx. rewrite H3 by lia. apply writel_other. lia.
Qed.

Definition rsdt_length (tables : list Z) : Z := 36 + 4 * Z.of_nat (length tables).

(** The entries of the table at [rsdt]. *)
Definition entries (m : memory) (rsdt : Z) (tables : list Z) : Prop :=
  forall k v, tables !! k = Some v -> readl m (rsdt + 36 + 4 * Z.of_nat k) = v.

Lemma fill_rsdt_spec m rsdt tables : bytes m -> Forall (in_u 32) tables -> Z.of_nat (length tables) <= 20 ->
  let m' := fill_rsdt m rsdt tables in bytes m' /\ table_ok m' rsdt RSDT_SIGNATURE (rsdt_length tables) /\ entries m' rsdt tables /\
  forall x, ~ rsdt <= x < rsdt + rsdt_length tables -> m' x = m x.
Proof.
  intros Hm Ht Hl m'. subst m'. unfold fill_rsdt, entries. change (sizeof rsdt_descriptor_rev1) with 36. fold (rsdt_length tables).
  set (m1 := memset _ _ _ _). assert (bytes m1) as Hm1 by (subst m1; auto with tables).
  destruct (store_longs_spec tables m1 (rsdt + 36) Hm1 Ht) as (S1 & S2 & S3). set (m2 := store_longs _ _ _) in *.
  assert (36 <= rsdt_length tables <= 36 + 80) as Hlen by (unfold rsdt_length; lia).
  destruct (build_header_spec m2 rsdt RSDT_SIGNATURE (rsdt_length tables) 1) as (B1 & B2 & B3); [done|lia|done|unfold in_u; lia|].
  split_and!; [done|done|..].
  - intros k v Hk. rewrite <- (S2 k v Hk). apply readl_ext. intros x Hx. apply B3. lia.
  - intros x Hx. rewrite B3 by lia. rewrite S3 by (unfold rsdt_length in Hx; lia). apply memset_other. lia.
Qed.

Lemma fill_rsdp_spec m rsdp rsdt : bytes m -> in_u 32 rsdt -> let m' := fill_rsdp m rsdp rsdt in
  readq m' rsdp = RSDP_SIGNATURE /\ checksum m' rsdp 20 = 0 /\ readl m' (rsdp + 16) = rsdt /\
  forall x, ~ rsdp <= x < rsdp + 36 -> m' x = m x.
Proof.
  intros Hm Hr m'. subst m'. unfold fill_rsdp. offsets. rewrite Z.add_0_r. set (m1 := writel _ _ _).
  assert (bytes m1) as Hm1 by (subst m1; auto 12 using bytes_writeq with tables).
  destruct (checksum_fix m1 rsdp 20 (rsdp + 8) Hm1 ltac:(lia) ltac:(lia)) as [Hc Hx].
  split_and!; [|done|..].
  - etransitivity; [apply readq_ext; intros; apply Hx; lia|]. subst m1.
    etransitivity; [apply readq_ext; intros; far; reflexivity|]. by rewrite readq_writeq.
  - etransitivity; [apply readl_ext; intros; apply Hx; lia|]. subst m1. rewrite readl_writel. by apply wrap_small.
  - intros x Ho. rewrite Hx by lia. subst m1. far. rewrite writeq_other by lia. by far.
Qed.

(** ** All of them *)

(** The root pointer at [rsdp] leads to the table at [rsdt], which lists [tables]. *)
Record root_ok (rsdp rsdt : Z) (tables : list Z) (m : memory) : Prop := {
  root_signature : readq m rsdp = RSDP_SIGNATURE;
  root_sum : checksum m rsdp 20 = 0;
  root_rsdt : readl m (rsdp + offsetof rsdp_descriptor "rsdt_physical_address") = rsdt;
  root_table : table_ok m rsdt RSDT_SIGNATURE (rsdt_length tables);
  root_entries : entries m rsdt tables }.

Definition present (tables : list Z) : list Z := filter (fun a => a <> 0) tables.

Lemma present_snoc l a : ACPI_INIT_TABLE (present l) a = present (l ++ [a]).
Proof.
  unfold ACPI_INIT_TABLE, present. rewrite filter_app, filter_cons. destruct (Z.eqb_spec a 0) as [->|Ha]; cbn [negb].
  - rewrite decide_False by lia. by rewrite filter_nil, app_nil_r.
  - by rewrite decide_True.
Qed.

Lemma present_u32 l : Forall (in_u 32) l -> Forall (in_u 32) (present l) /\ (length (present l) <= length l)%nat.
Proof. intros H. split; [|apply length_filter]. apply Forall_forall. intros a [_ Ha]%list_elem_of_filter. by eapply Forall_forall in H. Qed.

(** Both root tables, in blocks [rsdp], handed out before [live], and [rsdt]. *)
Lemma fill_root_spec m live rsdp rsdt tables : apart ((rsdt, rsdt_length tables) :: live) -> (rsdp, 36) ∈ live -> bytes m ->
  Forall (in_u 32) tables -> Z.of_nat (length tables) <= 20 ->
  let m' := fill_rsdp (fill_rsdt m rsdt tables) rsdp rsdt in root_ok rsdp rsdt tables m' /\
  forall x, ~ rsdp <= x < rsdp + 36 -> ~ rsdt <= x < rsdt + rsdt_length tables -> m' x = m x.
Proof.
  intros Ha Hin Hm Ht Hl m'. subst m'. pose proof (apart_head _ _ _ Ha) as (A1 & A2 & A3). assert (0 < rsdt_length tables) by (unfold rsdt_length; lia).
  destruct (fill_rsdt_spec m rsdt tables Hm Ht Hl) as (T1 & T2 & T3 & T4). set (m1 := fill_rsdt _ _ _) in *.
  destruct (fill_rsdp_spec m1 rsdp rsdt T1 ltac:(unfold in_u; lia)) as (P1 & P2 & P3 & P4). set (m2 := fill_rsdp _ _ _) in *.
  assert (forall x, rsdt <= x < rsdt + rsdt_length tables -> m2 x = m1 x) as Hx.
  { intros x Hr. apply P4. intros Hp. apply (A3 x Hr). by exists rsdp, 36. }
  split; [|intros x H1 H2; rewrite P4 by done; by apply T4]. split; [done|done|exact P3| |].
  - eapply table_ok_ext; [|exact Hx|done]. unfold rsdt_length. lia.
  - intros k v Hk. rewrite <- (T3 k v Hk). apply readl_ext. intros x Hr. apply Hx. pose proof (lookup_lt_Some _ _ _ Hk). unfold rsdt_length. lia.
Qed.

Lemma numa_nodes_items c c' : cfg_items c' = cfg_items c ->
  (qemu_cfg_get_numa_nodes c').1 = (qemu_cfg_get_numa_nodes c).1 /\ cfg_items (qemu_cfg_get_numa_nodes c').2 = cfg_items c.
Proof. intros H. unfold qemu_cfg_get_numa_nodes, qemu_cfg_read_entry, qemu_cfg_select, qemu_cfg_read. cbn. by rewrite H. Qed.

Lemma read_number_items qemu c c' e n dflt : cfg_items c' = cfg_items c ->
  (read_number qemu c' e n dflt).1 = (read_number qemu c e n dflt).1 /\ cfg_items (read_number qemu c' e n dflt).2 = cfg_items c.
Proof. intros H. unfold read_number, qemu_cfg_read_entry, qemu_cfg_select, qemu_cfg_read. destruct qemu; cbn; by rewrite H. Qed.

Lemma build_madt_items CountCPUs Max qemu s c : cfg_items (build_madt CountCPUs Max qemu s c).1.2 = cfg_items c.
Proof.
  unfold build_madt. destruct (malloc_high s _) as [s1 a]. destruct (a =? 0); [done|]. unfold fill_madt.
  destruct (put_processors _ _ _ _ _) as [m2 p2]. pose proof (proj2 (read_number_items qemu c c QEMU_CFG_IRQ0_OVERRIDE 1 0 eq_refl)) as Hi.
  change (read_number qemu c QEMU_CFG_IRQ0_OVERRIDE 1 0) with (qemu_cfg_irq0_override qemu c) in Hi.
  destruct (qemu_cfg_irq0_override qemu c) as [o c1]. destruct (negb (o =? 0)); destruct (put_overrides _ _ _) as [m4 p4]; exact Hi.
Qed.

Section Found.
Context {D : Type} `{PciConfig D} (d : D) (bdf : Z) (AmlCode : list Z) (CountCPUs MaxCountCPUs : Z) (qemu : bool) (RamSize : Z).
Context (s : pmm) (live : list (Z * Z)) (c : qemu_cfg).

(** The power management function is there, the emulator describes no nodes and no tables
    of its own, and the description of devices fits a table. *)
Record acpi_pre : Prop := {
  ap_managed : managed s live;
  ap_bytes : bytes (pmem s);
  ap_device : pci_find_device d PCI_VENDOR_ID_INTEL PCI_DEVICE_ID_INTEL_82371AB_3 = Some bdf /\ 0 <= bdf;
  ap_aml : Forall (in_u 8) AmlCode /\ 1 <= Z.of_nat (length AmlCode) <= 2 ^ 16;
  ap_cpus : 0 <= MaxCountCPUs <= 2 ^ 16;
  ap_nodes : (qemu_cfg_get_numa_nodes c).1 = 0;
  ap_tables : (qemu_cfg_acpi_additional_tables qemu c).1 = 0 }.

Definition acpi_override : bool := negb ((qemu_cfg_irq0_override qemu c).1 =? 0).

(** The tables of the machine, each of which may be absent. *)
Record machine_ok (fadt facs dsdt ssdt madt hpet : Z) (m : memory) : Prop := {
  machine_fadt : fadt <> 0 -> fadt_ok AmlCode fadt facs dsdt m;
  machine_ssdt : ssdt <> 0 -> ssdt_ok (acpi_cpus MaxCountCPUs) ssdt m;
  machine_madt : madt <> 0 -> madt_ok (madt_entries CountCPUs MaxCountCPUs acpi_override) madt m;
  machine_hpet : hpet <> 0 -> hpet_ok hpet m }.

(** The four tables, built behind the block [rsdp]. *)
Definition machine_tables (s : pmm) : pmm * qemu_cfg * (Z * Z * Z * Z) :=
  let '(s, fadt) := build_fadt AmlCode d bdf s in
  let '(s, ssdt) := build_ssdt MaxCountCPUs s in
  let '(s, c, madt) := build_madt CountCPUs MaxCountCPUs qemu s c in
  let '(s, hpet) := build_hpet s in
  (s, c, (fadt, ssdt, madt, hpet)).

(** What they ask for, in order. *)
Definition machine_requests : list request :=
  fadt_requests AmlCode ++ [ssdt_request MaxCountCPUs] ++ [madt_request MaxCountCPUs] ++ [hpet_request].

Lemma machine_requests_high : Forall (fun r : request => r.1.1 <> ZoneLow) machine_requests.
Proof using. by repeat constructor. Qed.

Lemma machine_tables_built s0 live0 : acpi_pre -> managed s0 live0 -> bytes (pmem s0) ->
  let '(s1, c1, (fadt, ssdt, madt, hpet)) := machine_tables s0 in
  cfg_items c1 = cfg_items c /\ Forall (in_u 32) [fadt; ssdt; madt; hpet] /\ exists live1 fadt0 facs dsdt,
  granted s0 machine_requests s1 [fadt0; facs; dsdt; ssdt; madt; hpet] /\
  fadt = (if (fadt0 =? 0) || (facs =? 0) || (dsdt =? 0) then 0 else fadt0) /\
  built s0 live0 s1 live1 0 (fun _ => True) /\ (fadt <> 0 -> (fadt, 116) ∈ live1 /\ (facs, 64) ∈ live1) /\
  forall m, (forall x, covered live1 x -> ~ covered live0 x -> m x = pmem s1 x) -> machine_ok fadt facs dsdt ssdt madt hpet m.
Proof using.
  intros [] Hs Hb. unfold machine_tables. destruct ap_aml0 as [Ha1 Ha2].
  pose proof (build_fadt_built AmlCode d bdf s0 live0 Hs Hb Ha1 Ha2) as H1.
  destruct (build_fadt AmlCode d bdf s0) as [s1 fadt]. destruct H1 as (live1 & fadt0 & facs & dsdt & H1 & Hin & G1 & Efadt).
  destruct (build_ssdt_built MaxCountCPUs s1 live1 ltac:(lia) ltac:(apply H1) ltac:(apply H1)) as [live2 H2].
  pose proof (build_ssdt_granted MaxCountCPUs s1) as G2.
  destruct (build_ssdt MaxCountCPUs s1) as [s2 ssdt]. cbn [fst snd] in H2.
  pose proof (build_madt_built CountCPUs MaxCountCPUs qemu s2 live2 c ap_cpus0 ltac:(apply H2) ltac:(apply H2)) as H3. cbv zeta in H3.
  pose proof (build_madt_items CountCPUs MaxCountCPUs qemu s2 c) as Hi.
  pose proof (build_madt_granted CountCPUs MaxCountCPUs qemu s2 c ap_cpus0) as G3.
  destruct (build_madt CountCPUs MaxCountCPUs qemu s2 c) as [[s3 c3] madt]. destruct H3 as [live3 H3]. cbn [fst snd] in Hi.
  destruct (build_hpet_built s3 live3 ltac:(apply H3) ltac:(apply H3)) as [live4 H4].
  pose proof (build_hpet_granted s3) as G4.
  destruct (build_hpet s3) as [s4 hpet]. cbn [fst snd] in H4.
  pose proof (built_blocks _ _ _ _ _ _ H2) as I2.
  pose proof (built_blocks _ _ _ _ _ _ H3) as I3. pose proof (built_blocks _ _ _ _ _ _ H4) as I4.
  pose proof (built_then _ _ _ _ _ _ _ _ _ _ H1 (built_then _ _ _ _ _ _ _ _ _ _ H2 (built_then _ _ _ _ _ _ _ _ _ _ H3 H4))) as HB.
  pose proof (built_then _ _ _ _ _ _ _ _ _ _ H1 H2) as B2. pose proof (built_then _ _ _ _ _ _ _ _ _ _ B2 H3) as B3.
  pose proof (stands_built live0 _ _ _ _ _ _ _ _ (built_stands _ _ _ _ _ _ B3) H4) as S3.
  split; [done|]. split. { repeat apply Forall_cons_2; [apply H1|apply H2|apply H3|apply H4|apply Forall_nil_2]. }
  exists live4, fadt0, facs, dsdt. split; [|split; [done|split; [|split]]].
  - refine (granted_then _ _ _ _ _ _ _ _ G1 (granted_then _ _ _ _ _ _ _ _ G2 (granted_then _ _ _ _ _ _ _ _ G3 G4)));
      by repeat constructor.
  - destruct HB. by split.
  - intros Hf. destruct (Hin Hf). auto 10.
  - intros m Hm. split; intros Hne; (eapply stands_in; [|exact Hne|exact Hm]).
    + eapply stands_built, H4. eapply stands_built, H3. eapply stands_built, H2. apply H1.
    + eapply stands_built, H4. eapply stands_built, H3. apply B2.
    + exact S3.
    + apply HB.
Qed.

(** Where the memory manager puts everything: the root pointer, the table [fadt] with what
    hangs on it, the other tables and the root table; 0 is for what there is no memory
    for.  There is no [fadt] unless there is memory for all of its three parts, and no
    root pointer unless there is for the root table. *)
Definition acpi_places : Z * (Z * Z * Z) * (Z * Z * Z) * Z :=
  match grants s ((ZoneFSeg, 36, 4) :: machine_requests) with
  | (s1, [rsdp; fadt; facs; dsdt; ssdt; madt; hpet]) =>
      let fadt := if (fadt =? 0) || (facs =? 0) || (dsdt =? 0) then 0 else fadt in
      let '(_, rsdt) := pmm_malloc s1 [] ZoneHigh PMM_DEFAULT_HANDLE (rsdt_length (present [fadt; ssdt; madt; hpet])) (2 ^ 4) in
      (if (rsdp =? 0) || (rsdt =? 0) then 0 else rsdp, (fadt, facs, dsdt), (ssdt, madt, hpet), rsdt)
  | _ => (0, (0, 0, 0), (0, 0, 0), 0)
  end.

(** The places, with the steps of [acpi_bios_init]. *)
Lemma acpi_places_eq s0 rsdp s1 fadt0 facs dsdt ssdt madt hpet fadt s2 rsdt :
  pmm_malloc s [] ZoneFSeg PMM_DEFAULT_HANDLE 36 (2 ^ 4) = (s0, rsdp) ->
  granted s0 machine_requests s1 [fadt0; facs; dsdt; ssdt; madt; hpet] ->
  fadt = (if (fadt0 =? 0) || (facs =? 0) || (dsdt =? 0) then 0 else fadt0) ->
  pmm_malloc s1 [] ZoneHigh PMM_DEFAULT_HANDLE (rsdt_length (present [fadt; ssdt; madt; hpet])) (2 ^ 4) = (s2, rsdt) ->
  acpi_places = (if (rsdp =? 0) || (rsdt =? 0) then 0 else rsdp, (fadt, facs, dsdt), (ssdt, madt, hpet), rsdt).
Proof using.
  intros E0 (t1 & m1 & E1 & ->) -> E2. unfold acpi_places. cbn [grants]. rewrite E0, E1.
  rewrite pmm_malloc_pmem in E2 by done. injection E2 as _ <-.
  by destruct (pmm_malloc t1 [] ZoneHigh _ _ _).
Qed.

(** A run: no table, or a root that leads to the tables of the machine, each in a block of
    its own. *)
Lemma acpi_run : acpi_pre -> let '(rsdp, (fadt, facs, dsdt), (ssdt, madt, hpet), rsdt) := acpi_places in
  exists s' c', acpi_bios_init CountCPUs MaxCountCPUs qemu AmlCode d RamSize s c = Some (s', c', rsdp) /\
  (forall x, covered live x -> pmem s' x = pmem s x) /\
  (rsdp <> 0 -> exists live', let tables := present [fadt; ssdt; madt; hpet] in
   rsdt <> 0 /\ root_ok rsdp rsdt tables (pmem s') /\ machine_ok fadt facs dsdt ssdt madt hpet (pmem s') /\
   apart live' /\ (rsdp, 36) ∈ live' /\ (rsdt, rsdt_length tables) ∈ live' /\ (fadt <> 0 -> (fadt, 116) ∈ live' /\ (facs, 64) ∈ live')).
Proof using.
  intros Hpre. pose proof Hpre as []. destruct ap_device0 as [Hd Hbdf]. unfold acpi_bios_init. rewrite Hd. cbn [mbind option_bind].
  rewrite (proj2 (Z.ltb_ge bdf 0)) by done. unfold malloc_fseg, malloc_high. change MALLOC_MIN_ALIGN with (2 ^ 4).
  change (sizeof rsdp_descriptor) with 36. destruct (pmm_malloc s [] ZoneFSeg _ _ _) as [s0 rsdp] eqn:E0.
  destruct (managed_malloc s live ZoneFSeg 36 4 s0 rsdp ltac:(done) ltac:(fits) ap_managed0 E0) as [Hs0 Hm0].
  destruct (Z.eqb_spec rsdp 0) as [->|Hr0].
  { destruct acpi_places as [[[rsdp [[fadt facs] dsdt]] [[ssdt madt] hpet]] rsdt] eqn:Ep.
    assert (rsdp = 0) as ->.
    { revert Ep. unfold acpi_places. cbn [grants]. rewrite E0. destruct (grants s0 machine_requests) as [t1 as1].
      destruct as1 as [|? [|? [|? [|? [|? [|? [|? ?]]]]]]]; intros E; try by simplify_eq. destruct (pmm_malloc t1 _ _ _ _ _). by simplify_eq/=. }
    exists s0, c. split; [done|]. split; [|done]. intros x _. by rewrite Hm0. }
  destruct (apart_head _ _ _ (managed_apart _ _ Hs0)) as (A1 & A2 & A3). set (live0 := (rsdp, 36) :: live) in *.
  pose proof (machine_tables_built s0 live0 Hpre Hs0 ltac:(by rewrite Hm0)) as HM. unfold machine_tables in HM.
  destruct (build_fadt AmlCode d bdf s0) as [s1 fadt]. destruct (build_ssdt MaxCountCPUs s1) as [s2 ssdt].
  destruct (build_madt CountCPUs MaxCountCPUs qemu s2 c) as [[s3 c3] madt]. destruct (build_hpet s3) as [s4 hpet].
  destruct HM as (Hi & Hu & live4 & fadt0 & facs & dsdt & HG & Efadt & HB & Hin & HM).
  unfold build_srat. destruct (numa_nodes_items c c3 Hi) as [Hn Hi4]. rewrite ap_nodes0 in Hn.
  destruct (qemu_cfg_get_numa_nodes c3) as [nodes c4]. cbn [fst snd] in Hn, Hi4. subst nodes. cbn [Z.eqb].
  pose proof (proj1 (read_number_items qemu c c4 QEMU_CFG_ACPI_TABLES 2 0 Hi4)) as Hx. fold (qemu_cfg_acpi_additional_tables qemu c) in Hx.
  rewrite ap_tables0 in Hx. fold (qemu_cfg_acpi_additional_tables qemu c4) in Hx.
  destruct (qemu_cfg_acpi_additional_tables qemu c4) as [count c5]. cbn [fst] in Hx. subst count. change (Z.to_nat 0) with 0%nat. cbn [external_tables].
  replace (ACPI_INIT_TABLE _ 0) with (present [fadt; ssdt; madt; hpet])
    by (change (ACPI_INIT_TABLE [] fadt) with (ACPI_INIT_TABLE (present []) fadt); rewrite !present_snoc; done).
  set (tables := present [fadt; ssdt; madt; hpet]) in *. change (sizeof rsdt_descriptor_rev1) with 36. fold (rsdt_length tables).
  destruct (present_u32 _ Hu) as [Htu Htl]. fold tables in Htu, Htl. cbn [length] in Htl.
  destruct (pmm_malloc s4 [] ZoneHigh PMM_DEFAULT_HANDLE (rsdt_length tables) (2 ^ 4)) as [s5 rsdt] eqn:E5.
  destruct (managed_malloc s4 live4 ZoneHigh (rsdt_length tables) 4 s5 rsdt ltac:(done) ltac:(unfold rsdt_length; fits)
    ltac:(apply HB) E5) as [Hs5 Hm5].
  rewrite (acpi_places_eq s0 rsdp s4 fadt0 facs dsdt ssdt madt hpet fadt s5 rsdt E0 HG Efadt E5), (proj2 (Z.eqb_neq rsdp 0)) by done.
  assert (forall x, covered live x -> covered live0 x) as Hl0 by (intros x Hx; apply covered_cons; by right).
  assert (forall x, covered live x -> pmem s4 x = pmem s x) as Hkeep.
  { intros x Hx. rewrite (built_kept _ _ _ _ _ _ HB) by auto. by rewrite Hm0. }
  destruct (Z.eqb_spec rsdt 0) as [->|Hr].
  { exists s5, c5. split; [done|]. split; [|done]. intros x Hx. rewrite Hm5. auto. }
  assert ((rsdp, 36) ∈ live4) as Hin4 by (apply (built_blocks _ _ _ _ _ _ HB); left).
  pose proof (managed_apart _ _ Hs5) as Hap. destruct (apart_head _ _ _ Hap) as (B1 & B2 & B3).
  destruct (fill_root_spec (pmem s5) live4 rsdp rsdt tables Hap Hin4 ltac:(rewrite Hm5; apply HB) Htu ltac:(lia)) as [R1 R2].
  cbn [orb]. eexists _, c5. split; [reflexivity|]. cbn [pmem set_pmem]. split.
  - intros x Hx. rewrite R2; [rewrite Hm5; auto| |].
    + intros Hr'. by apply (A3 x).
    + intros Hr'. apply (B3 x Hr'). eapply (built_live _ _ _ _ _ _ x HB). auto.
  - intros _. exists ((rsdt, rsdt_length tables) :: live4).
    split; [done|]. split; [exact R1|]. split.
    + apply HM. intros x Hx Hn. rewrite R2; [by rewrite Hm5| |].
      * intros Hr'. apply Hn, covered_cons. by left.
      * intros Hr'. by apply (B3 x Hr').
    + split; [done|]. split; [by right|]. split; [left|]. intros Hf. destruct (Hin Hf). split; by right.
Qed.

(** C21.  An operating system finds the tables.  On a machine with the power management
    function, whose emulator describes no memory nodes and no tables of its own, and whatever has been allocated and stored
    before: the root pointer and the tables are where the memory manager puts blocks of
    their sizes that are asked for one after the other ([acpi_places]); when there is
    memory for the root pointer and the root table, the pointer has its signature and a
    zero sum and names a root table of exactly the length it says, which lists in order
    every table that there was memory for and no other; each of those has its signature,
    its length, a zero sum and its contents - the fixed description with the firmware's
    own structure and the description of devices, the objects of the processors, one
    entry for each processor, interrupt controller and moved line, the timer.  Memory in
    use before has not changed. *)
Theorem acpi_tables_found : acpi_pre -> let '(rsdp, (fadt, facs, dsdt), (ssdt, madt, hpet), rsdt) := acpi_places in
  exists s' c', acpi_bios_init CountCPUs MaxCountCPUs qemu AmlCode d RamSize s c = Some (s', c', rsdp) /\
  (forall x, covered live x -> pmem s' x = pmem s x) /\
  (rsdp <> 0 -> root_ok rsdp rsdt (present [fadt; ssdt; madt; hpet]) (pmem s') /\
     machine_ok fadt facs dsdt ssdt madt hpet (pmem s')).
Proof using.
  intros Hpre. pose proof (acpi_run Hpre) as Hrun.
  destruct acpi_places as [[[rsdp [[fadt facs] dsdt]] [[ssdt madt] hpet]] rsdt].
  destruct Hrun as (s' & c' & E & Hk & Hr). exists s', c'. split; [done|]. split; [done|].
  intros Hn. destruct (Hr Hn) as (live' & _ & H1 & H2 & _). done.
Qed.

Lemma find_facs_first n m entry fadt facs : readl m entry = fadt -> fadt <> 0 -> readl m fadt = FACP_SIGNATURE ->
  readl m (fadt + 36) = facs -> facs <> 0 -> readl m facs = FACS_SIGNATURE -> find_facs (S n) m entry = readl m (facs + 12).
Proof using.
  intros H1 H2 H3 H4 H5 H6. cbn [find_facs]. offsets. rewrite Z.add_0_r, H1, H3, H4, Z.add_0_r, H6.
  by rewrite (proj2 (Z.eqb_neq fadt 0)), (proj2 (Z.eqb_neq facs 0)).
Qed.

Lemma first_is_fadt (m : memory) rsdt fadt facs dsdt ssdt madt hpet : let tables := present [fadt; ssdt; madt; hpet] in
  entries m rsdt tables -> machine_ok fadt facs dsdt ssdt madt hpet m -> 36 < rsdt_length tables ->
  readl m (readl m (rsdt + 36)) = FACP_SIGNATURE -> fadt <> 0 /\ readl m (rsdt + 36) = fadt.
Proof using.
  intros tables He [M1 M2 M3 M4] Hl. destruct tables as [|a l] eqn:Et; [unfold rsdt_length in Hl; cbn in Hl; lia|].
  assert (readl m (rsdt + 36) = a) as -> by (rewrite <- (He 0%nat a eq_refl); f_equal; lia). intros Hs.
  assert (a ∈ tables) as [Ha Hin]%list_elem_of_filter by (rewrite Et; left). rewrite !elem_of_cons in Hin.
  destruct Hin as [->|[->|[->|[->|[]%elem_of_nil]]]]; [done|exfalso; revert Hs..].
  - destruct (M2 Ha) as [(-> & _) _]. done.
  - destruct (M3 Ha) as [(-> & _) _]. done.
  - destruct (M4 Ha) as [(-> & _) _]. done.
Qed.

(** C24.  The way back from sleep, on a machine whose emulator describes no memory nodes and
    no tables of its own: when the root table's first entry is the fixed description, an operating system may store what it likes in the firmware's structure
    behind the signature and length; on resume the firmware finds, from the root pointer,
    exactly the vector stored there. *)
Theorem resume_vector_found : acpi_pre -> exists s' c' rsdp,
  acpi_bios_init CountCPUs MaxCountCPUs qemu AmlCode d RamSize s c = Some (s', c', rsdp) /\
  (rsdp <> 0 -> let m := pmem s' in
   let rsdt := readl m (rsdp + offsetof rsdp_descriptor "rsdt_physical_address") in
   let fadt := readl m (rsdt + sizeof rsdt_descriptor_rev1) in
   let facs := readl m (fadt + offsetof fadt_descriptor_rev1 "firmware_ctrl") in
   sizeof rsdt_descriptor_rev1 < readl m (rsdt + offsetof acpi_table_header "length") -> readl m fadt = FACP_SIGNATURE ->
   forall m', (forall x, ~ facs + 8 <= x < facs + sizeof facs_descriptor_rev1 -> m' x = m x) ->
   find_resume_vector m' rsdp = readl m' (facs + offsetof facs_descriptor_rev1 "firmware_waking_vector")).
Proof using.
  intros Hpre. pose proof (acpi_run Hpre) as Hrun.
  destruct acpi_places as [[[rsdp [[fadt facs] dsdt]] [[ssdt madt] hpet]] rsdt].
  destruct Hrun as (s' & c' & E & _ & Hr). exists s', c', rsdp. split; [exact E|]. intros Hn. cbv zeta. offsets.
  destruct (Hr Hn) as (live' & H0 & [R1 _ R3 R4 R5] & HM & Hap & I1 & I2 & I3).
  clear Hr. revert R3. offsets. intros R3. rewrite R3. set (tables := present _) in *. destruct R4 as (R4 & R4' & _). rewrite R4'.
  intros Hl Hs m' Hm'. pose proof HM as [M1 _ _ _].
  destruct (first_is_fadt _ _ _ _ _ _ _ _ R5 HM Hl Hs) as [Hf Hfirst]. rewrite Hfirst in *. destruct (I3 Hf) as [J1 J2].
  destruct (M1 Hf) as [(F1 & _) F3 _ (F4 & F5 & _) _]. revert F3. offsets. intros F3. rewrite F3 in *.
  pose proof (blocks_meet _ _ _ _ _ Hap I1 J2 ltac:(congruence)) as D1.
  assert (length tables <= 4)%nat as Ht by apply (length_filter (fun a => a <> 0) [fadt; ssdt; madt; hpet]).
  pose proof (blocks_meet _ _ _ _ _ Hap I2 J2 ltac:(intros [= _ ?]; unfold rsdt_length in *; lia)) as D2.
  pose proof (blocks_meet _ _ _ _ _ Hap J1 J2 ltac:(congruence)) as D3.
  unfold find_resume_vector. offsets. rewrite !Z.add_0_r, (proj2 (Z.eqb_neq rsdp 0)) by done.
  rewrite (readq_ext (pmem s') m' rsdp), R1 by (intros; apply Hm'; lia). cbn [orb negb Z.eqb]. rewrite Z.eqb_refl. cbn [negb].
  rewrite (readl_ext (pmem s') m' (rsdp + 16)), R3 by (intros; apply Hm'; lia). rewrite (proj2 (Z.eqb_neq rsdt 0)) by done.
  rewrite (readl_ext (pmem s') m' rsdt), R4 by (intros; apply Hm'; unfold rsdt_length in *; lia). cbn [orb]. rewrite Z.eqb_refl. cbn [negb].
  rewrite (readl_ext (pmem s') m' (rsdt + 4)), R4' by (intros; apply Hm'; unfold rsdt_length in *; lia).
  assert (Z.to_nat ((rsdt_length tables - 36 + 3) / 4) = length tables) as ->.
  { unfold rsdt_length. replace (_ - 36 + 3) with (3 + Z.of_nat (length tables) * 4) by lia. rewrite Z.div_add by lia. change (3 / 4) with 0. lia. }
  destruct (length tables) as [|n] eqn:En; [unfold rsdt_length in Hl; rewrite En in Hl; lia|].
  assert (40 <= rsdt_length tables) by (unfold rsdt_length; lia).
  apply (find_facs_first n m' (rsdt + 36) fadt facs); [..|done|]; try done.
  - rewrite <- Hfirst. apply readl_ext. intros. apply Hm'. lia.
  - rewrite <- F1. apply readl_ext. intros. apply Hm'. lia.
  - rewrite <- F3. apply readl_ext. intros. apply Hm'. lia.
  - rewrite <- F5. apply readl_ext. intros. apply Hm'. lia.
Qed.
End Found.

(** ** The objects of the processors, read *)

(** A package at the head of [l]: its length counts its own bytes. *)
Definition aml_package (l : list Z) : option (list Z * list Z) :=
  '(n, l) ← match l with
            | b :: l =>
                if Z.shiftr b 6 =? 0 then Some (b - 1, l)
                else match l with
                     | b1 :: l => if Z.shiftr b 6 =? 1 then Some (Z.land b 0xf + Z.shiftl b1 4 - 2, l) else None
                     | [] => None
                     end
            | [] => None
            end;
  if (0 <=? n) && (n <=? Z.of_nat (length l)) then Some (take (Z.to_nat n) l, drop (Z.to_nat n) l) else None.

(** Processors with names, numbers, and blocks of ports, up to the end. *)
Fixpoint aml_processors (fuel : nat) (l : list Z) : option (list (list Z * Z * Z * Z)) :=
  match fuel, l with
  | _, [] => Some []
  | S fuel, 0x5B :: 0x83 :: l =>
      '(body, rest) ← aml_package l;
      ps ← aml_processors fuel rest;
      match body with
      | [n0; n1; n2; n3; id; p0; p1; p2; p3; len] => Some (([n0; n1; n2; n3], id, le [p0; p1; p2; p3], len) :: ps)
      | _ => None
      end
  | _, _ => None
  end.

(** One scope, and nothing behind it. *)
Definition aml_scope (l : list Z) : option (list Z * list (list Z * Z * Z * Z)) :=
  match l with
  | 0x10 :: l =>
      '(body, rest) ← aml_package l;
      match body, rest with
      | n0 :: n1 :: n2 :: n3 :: l, [] => ps ← aml_processors 256 l; Some ([n0; n1; n2; n3], ps)
      | _, _ => None
      end
  | _ => None
  end.

Definition processor_name (i : Z) : list Z :=
  codes "CP" ++ [if i <? 16 then 85 else hex_digit (i / 16); hex_digit (i mod 16)].
Definition described (n : nat) : list (list Z * Z * Z * Z) := map (fun i => (processor_name (Z.of_nat i), Z.of_nat i, 0xb010, 6)) (seq 0 n).

(** All numbers of processors there can be. *)
Lemma ssdt_all : forallb (fun n => bool_decide (aml_scope (ssdt_bytes (Z.of_nat n)) = Some (codes "_PR_", described n))) (seq 0 256) = true.
Proof. vm_compute. reflexivity. Qed.

Lemma names_all : bool_decide (NoDup (map (fun i => processor_name (Z.of_nat i)) (seq 0 255))) = true.
Proof. vm_compute. reflexivity. Qed.

(** C40.  The table of processors is well formed for every number of them: in its bytes
    each package has exactly the length that it says, and an interpreter reads one scope
    [_PR_], nothing behind it, with one object for each processor, up to 255, each with
    its number and its block of ports, under names that all differ. *)
Theorem processors_described MaxCountCPUs : 0 <= MaxCountCPUs -> let n := Z.to_nat (Z.min MaxCountCPUs 255) in
  aml_scope (ssdt_bytes (acpi_cpus MaxCountCPUs)) = Some (codes "_PR_", described n) /\
  NoDup (map (fun p => p.1.1.1) (described n)).
Proof.
  intros H n. assert (acpi_cpus MaxCountCPUs = Z.of_nat n) as -> by (unfold acpi_cpus, n; case_test; lia). split.
  - pose proof ssdt_all as Ha. rewrite forallb_forall in Ha. specialize (Ha n). rewrite bool_decide_eq_true in Ha.
    apply Ha, in_seq. unfold n. lia.
  - pose proof (bool_decide_eq_true_1 _ names_all) as Hn. unfold described. rewrite map_map. cbn [fst].
    assert (seq 0 255 = seq 0 n ++ seq n (255 - n)) as Hs by (rewrite <- seq_app; f_equal; unfold n; lia).
    rewrite Hs, map_app in Hn. by apply NoDup_app in Hn as [? _].
Qed.

Lemma processors_described_witness : exists ps, aml_scope (ssdt_bytes (acpi_cpus 300)) = Some (codes "_PR_", ps) /\ length ps = 255%nat.
Proof. eexists. split; [exact (proj1 (processors_described 300 ltac:(lia)))|vm_compute; reflexivity]. Defined.

(** ** What is left of the affinity data *)

Lemma srat_processors_moves CountCPUs n m core p i : (srat_processors CountCPUs n m core p i).2 = p + 8 * Z.of_nat n.
Proof. revert m core p i. induction n as [|n IH]; intros m core p i; cbn [srat_processors snd]; [lia|]. rewrite IH. lia. Qed.

Lemma srat_nodes_moves n RamSize m mem p i base slots : (srat_nodes n RamSize m mem p i base slots).1.2 = p + 8 * Z.of_nat n.
Proof.
  revert m mem p i base slots. induction n as [|n IH]; intros m mem p i base slots; cbn [srat_nodes fst snd]; [lia|].
  destruct (if (base <=? RamSize) && _ then _ else _) as [[[[[m1 mem1] slots1] base1] len1] next1]. rewrite IH. lia.
Qed.

(** The data of the emulator is read through the pointer to it, which moves; at the end
    the moved pointer is freed.  The block stays in use for good. *)
Theorem numa_data_not_freed CountCPUs MaxCountCPUs RamSize s live c : managed s live ->
  let nodes := (qemu_cfg_get_numa_nodes c).1 in 0 <= MaxCountCPUs <= 2 ^ 10 -> 0 < nodes <= 2 ^ 10 ->
  let size := 8 * (MaxCountCPUs + nodes) in
  let '(s', _, srat) := build_srat CountCPUs MaxCountCPUs RamSize s c in srat <> 0 ->
  exists live', managed s' live' /\ ((malloc_tmphigh s size).2, size) ∈ live'.
Proof.
  intros Hs nodes HM Hn size. unfold build_srat. subst nodes. destruct (qemu_cfg_get_numa_nodes c) as [nodes c1]. cbn [fst] in *.
  rewrite (proj2 (Z.eqb_neq nodes 0)) by lia. fold size. rewrite (wrap_small 32) by (unfold in_u, size; lia).
  unfold malloc_tmphigh, malloc_high. change MALLOC_MIN_ALIGN with (2 ^ 4).
  destruct (pmm_malloc s [] ZoneTmpHigh PMM_DEFAULT_HANDLE size (2 ^ 4)) as [s1 p] eqn:E1. cbn [snd].
  destruct (managed_malloc s live ZoneTmpHigh size 4 s1 p ltac:(done) ltac:(unfold fits, size; lia) Hs E1) as [Hs1 _].
  destruct (Z.eqb_spec p 0) as [->|Hp]; [done|]. destruct (qemu_cfg_get_numa_data _ _) as [data c2].
  set (s2 := set_pmem s1 _). set (len := s32 _).
  assert (len = 48 + 16 * MaxCountCPUs + 40 * (nodes + 2)) as Hlen by (unfold len; offsets; rewrite swrap_small; lia). clearbody len.
  apply (managed_set_pmem _ _ (store_numbers (pmem s1) p data)) in Hs1. fold s2 in Hs1.
  destruct (pmm_malloc s2 [] ZoneHigh PMM_DEFAULT_HANDLE len (2 ^ 4)) as [s3 srat] eqn:E3.
  destruct (managed_malloc s2 _ ZoneHigh len 4 s3 srat ltac:(done) ltac:(unfold fits; lia) Hs1 E3) as [Hs3 _].
  destruct (Z.eqb_spec srat 0) as [->|Hsr]; [done|]. set (m := writel _ _ _).
  pose proof (srat_processors_moves CountCPUs (Z.to_nat MaxCountCPUs) m (srat + sizeof system_resource_affinity_table) p 0) as Hmv.
  destruct (srat_processors _ _ _ _ _ _) as [[m1 core] p1]. cbn [snd] in Hmv.
  set (m2 := acpi_build_srat_memory _ _ _ _ _ _).
  pose proof (srat_nodes_moves (Z.to_nat nodes) RamSize m2 (core + sizeof srat_memory_affinity) p1 1 (1024 * 1024) 1) as Hmv2.
  destruct (srat_nodes _ _ _ _ _ _ _ _) as [[[m3 mem] p2] slots]. cbn [fst snd] in Hmv2. intros _.
  eexists. split; [apply managed_free, managed_set_pmem, Hs3|]. apply list_elem_of_filter. cbn [fst].
  split; [lia|]. right. left.
Qed.

(** ** Witnesses *)

#[local] Existing Instance demo_bus.

(** A host bridge and the power management function. *)
Definition acpi_devices : Z -> Z := fun cmd =>
  let b := cmd / 256 mod 0x10000 in let r := cmd mod 256 in
  if r =? 0 then if b =? 0 then 0x12378086 else if b =? 8 then 0x71138086 else 0 else if (r =? 0x3c) && (b =? 8) then 9 else 0.

Lemma demo_managed : managed demo_pmm [] /\ bytes (pmem demo_pmm).
Proof.
  split; [exists demo_pmm, []; split_and!; [apply demo_ready|constructor|done|by rewrite set_pmem_id]|].
  exact (proj1 (malloc_setup_mem demo_boot 0xe0000 0xfd000 demo_boot_bytes ltac:(lia))).
Qed.

Lemma demo_acpi_pre : acpi_pre acpi_devices 8 (codes "DSDT") 2 true demo_pmm [] no_cfg.
Proof.
  destruct demo_managed. split; [done|done|split; [vm_compute; reflexivity|lia]|split; [by repeat constructor|cbn; lia]|lia|done|done].
Qed.

#[local] Notation acpi_demo := (acpi_bios_init 1 2 true (codes "DSDT") acpi_devices 0x8000000 demo_pmm no_cfg).

(** There is memory for all four tables. *)
Lemma demo_acpi_run s' c' rsdp : acpi_demo = Some (s', c', rsdp) -> let rsdt := readl (pmem s') (rsdp + 16) in
  let fadt := readl (pmem s') (rsdt + 36) in
  rsdp = 1044432 /\ readl (pmem s') (rsdt + 4) = 52 /\ readl (pmem s') fadt = FACP_SIGNATURE /\ readl (pmem s') (fadt + 36) = 2147483456.
Proof.
  assert (option_map (fun r => let m := pmem r.1.1 in let rsdt := readl m (r.2 + 16) in let fadt := readl m (rsdt + 36) in
    (r.2, readl m (rsdt + 4), readl m fadt, readl m (fadt + 36))) acpi_demo = Some (1044432, 52, FACP_SIGNATURE, 2147483456))
    as Hc by (vm_compute; reflexivity).
  intros E. rewrite E in Hc. cbn [option_map fst snd] in Hc. injection Hc as Hr Hl Hs Hf. subst rsdp. exact (conj eq_refl (conj Hl (conj Hs Hf))).
Qed.

Lemma demo_places : acpi_places (codes "DSDT") 2 demo_pmm =
  (1044432, (2147483520, 2147483456, 2147483440), (2147483360, 2147483120, 2147483056), 2147482992).
Proof. vm_compute. reflexivity. Qed.

(** A reader finds all four. *)
Lemma acpi_tables_found_witness : exists s' c', acpi_demo = Some (s', c', 1044432) /\
  readq (pmem s') 1044432 = RSDP_SIGNATURE /\ readl (pmem s') (1044432 + 16) = 2147482992 /\
  readl (pmem s') (2147482992 + 36) = 2147483520 /\ readl (pmem s') (2147482992 + 48) = 2147483056 /\
  readl (pmem s') 2147483056 = HPET_SIGNATURE.
Proof.
  pose proof (acpi_tables_found acpi_devices 8 (codes "DSDT") 1 2 true 0x8000000 demo_pmm [] no_cfg demo_acpi_pre) as H.
  rewrite demo_places in H. destruct H as (s' & c' & E & _ & H). exists s', c'. split; [exact E|].
  destruct (H ltac:(lia)) as [[R1 _ R3 _ R5] [_ _ _ M4]].
  split; [exact R1|]. split; [exact R3|]. split; [exact (R5 0%nat _ eq_refl)|]. split; [exact (R5 3%nat _ eq_refl)|].
  destruct (M4 ltac:(lia)) as [(M & _) _]. exact M.
Defined.

(** A vector is stored and found. *)
Lemma resume_vector_found_witness : exists s' c' rsdp, acpi_demo = Some (s', c', rsdp) /\
  find_resume_vector (writel (pmem s') (2147483456 + 12) 0x9a1d0) rsdp = 0x9a1d0.
Proof.
  destruct (resume_vector_found acpi_devices 8 (codes "DSDT") 1 2 true 0x8000000 demo_pmm [] no_cfg demo_acpi_pre) as (s' & c' & rsdp & E & H).
  exists s', c', rsdp. split; [exact E|]. destruct (demo_acpi_run _ _ _ E) as (Hr & Hl & Hs & Hf).
  revert H. cbv zeta. offsets. rewrite Hl, Hs, Hf. intros H.
  rewrite H; [apply readl_writel|lia|lia|reflexivity|]. intros x Hx. apply writel_other. lia.
Defined.
